(* ===== verification/_CoqProject ===== *)
-Q . S2P
Prelude.v
Config.v
Bitmap.v
Ringbuf.v
Fifo.v
Errno.v
Kv.v
KvBlock.v
KvLogic.v
KvItems.v
KvWalk.v
KvSpec.v
KvOps.v
KvCalls.v
KvGc.v
KvRecover.v
KvInit.v
KvStart.v
KvDurable.v
KvFacts.v
Vfs.v
VfsSpec.v
VfsInv.v
VfsLogic.v
VfsOps.v
VfsReg.v
VfsFacts.v
Kernel.v
Sched.v
TickList.v
Pend.v
Inv.v
Demo.v
Prio.v
Own.v
Sem.v
Mutex.v
Event.v
Queue.v
BufQueue.v
ObjSet.v
Task.v
TaskFacts.v
Create.v
TaskSem.v
Tick.v
Time.v
Mblk.v
Heap.v
HeapClass.v
HeapList.v
HeapInv.v
HeapStep.v
HeapAlloc.v
HeapRealloc.v
HeapOk.v
HeapWhole.v
HeapCalls.v
HeapCopy.v
HeapInit.v
HeapSpec.v
Timer.v
Workqueue.v
Sys.v
SysFacts.v
Safety.v
Aos.v
AosFacts.v
