(* ===== verification/Prelude.v ===== *)
(** * The Rhino kernel of AliOS Things and services over it, modelled and verified

    Rhino is the real-time kernel under src/kernel/rhino: preemptive scheduling by priority,
    with rings of tasks of equal priority, blocking objects with timeouts, mutexes with
    priority inheritance, timers, work queues, a heap and block pools.  Over it lie, among
    others, the calls for applications (src/kernel/vcall/aos), the key-value store in flash
    (src/kernel/modules/fs/kv) and the device file system (src/kernel/vfs).  This library
    models the kernel for one processor, in the configuration of board/linuxhost, and these
    services, and shows their calls correct.  The
    definitions are translated from the C functions of the same names.

    ** How the kernel is modelled

    - [Kernel.kstate] is one record with every global of k_obj.c and the control blocks, in
      finite maps by address: tasks by [tid], blocking objects by [oid] (the generic
      [blk_obj_t] and the part of each type in maps of their own), timers, works, pools.
      NULL is [None].  An intrusive list is a Rocq list of the addresses it links.
    - A function of the kernel is a [K A], from a state to an optional result and state.
      [None] is undefined behaviour: an unknown object or task, a dangling node, a byte
      outside a buffer, or a loop that outruns its fuel.  [wp m Q s] says that [m] is
      defined in [s] and ends in [Q]; so every theorem says that the call returns.
    - A blocking call ends with [Pending] when its task loses the processor; the rest of its
      body is a definition of its own ([pend_resume] and the like).  Tasks of the kernel
      itself (timer task, worker, freeing task) are step functions over the places of their
      loops where they may block.
    - Integers are [Z] with [wrap w] and [swrap w] where the C type wraps; the tick counter
      has [tick_bits] bits.  Locked interrupts are the flag [irq_off]; a context switch is
      the change of [g_active_task].
    - Bounds and fuel.  Loops along lists get the length of the list, the walk along the
      mutexes of a task the number of mutexes ([Prio.chain_fuel]), the change of a priority
      along owners twice the number of tasks ([Prio.pri_change_fuel]), the notification of
      nested sets the places of all queues ([ObjSet.notify_fuel]), the walks along the blocks
      of the heap the number of words of memory ([Heap.walk_fuel]).  That each is enough is
      part of the theorem of the call.

    ** The files of the kernel

    - Prelude: record update, machine integers, lists; Config: k_err.h, the configuration;
      Bitmap: k_bitmap.h; Ringbuf: k_ringbuf.c; Fifo: common/k_fifo.c; Kernel: the state and
      the monad.
    - Sched: k_sched.c; TickList and Tick: k_tick.c; Pend: k_pend.c.
    - Inv: the invariant [kok].  The ready queue holds exactly the ready tasks, the bitmap
      and [highest_pri] agree with it; each object's list holds exactly the tasks that wait
      for it, in priority order; the tick list exactly the timed waits, by deadline; mutexes
      are linked in their owner's chain; every priority is the highest of the base priority
      and those of the waiters of the mutexes owned; the task that runs is the first of the
      highest priority.  Also the rules for waking tasks that the objects share.
      Demo: a state that satisfies it.
    - Prio: the priority inheritance of k_mutex.c and k_task.c; Own: lemmas on chains.
    - Sem, Mutex, Event, Queue, BufQueue, ObjSet: k_sem.c, k_mutex.c, k_event.c, k_queue.c,
      k_buf_queue.c, k_obj_set.c.  Task, TaskFacts, Create: k_task.c, its facts; TaskSem:
      k_task_sem.c.
    - Time: k_time.c; Mblk: k_mm_blk.c; Timer: k_timer.c; Workqueue: k_workqueue.c;
      Sys, SysFacts: k_sys.c, k_dyn_mem_proc.c, parts of k_stats.c.
    - Safety: the calls and the tick interrupt in any order.
    - Heap: k_mm.c and the printing of k_mm_debug.c.  The memory is the words of [umem] at
      their addresses; the headers of the blocks and the links of the free ones are words of
      it.  HeapClass: the classes of sizes; HeapList: the free lists; HeapInv: what a heap
      is, as a map of blocks, windows and lists; HeapStep: joining and cutting blocks;
      HeapAlloc, HeapRealloc: the calls through the lists; HeapOk, HeapCalls, HeapCopy: the
      heap as its callers see it, with the pool of small blocks; HeapWhole: no byte is lost;
      HeapInit: [krhino_init_mm_head]; HeapSpec: the theorems.

    ** The files of the services

    - Errno: the numbers of include/aos/errno.h.
    - Aos: aos_rhino.c and errno_mapping.h over the calls of the kernel, with handles as words
      of the caller's memory; AosFacts: the theorems.
    - Kv: kvmgr.c but its command line, with two blocks of 4 KiB.  A call is an [M A]; its
      outcome is [Done], [Lost] with the flash that is left when the power goes before an
      operation on the flash, or [Wrong] where C is undefined.  What programming a cell does
      is the class [FlashMem]; that programming only clears bits is enough for the store.
      The walk along a block has 512 turns ([Kv.item_fuel], a block has room for fewer
      items), a collection three turns.
      KvBlock: entries and the bytes of a block; KvLogic: [wpc], the rules for results and
      for losses of power; KvItems, KvWalk: reading, writing and walking along entries;
      KvSpec: the map a block holds, [kv_ok] and [recov]; KvOps, KvCalls, KvGc: the calls;
      KvRecover, KvInit, KvStart: the start; KvDurable: the system of calls, losses of power
      and starts, and the map it refines; KvFacts: the theorems.
    - Vfs: vfs_inode.c, vfs_register.c and vfs.c without polling, over a table of drivers that
      is a parameter; drivers do not call back.  VfsSpec: the two tables the calls implement;
      VfsInv: the invariant; VfsLogic, VfsOps, VfsReg: the calls; VfsFacts: the theorems.

    ** How the parts interact

    A call of the kernel enters the critical section, changes its object and the queues of
    tasks, and leaves through [core_sched].  Sem, Queue and BufQueue notify the set of an
    object through an argument [notify]; their theorems ask of it [Inv.notify_ok], which
    [ObjSet.kobj_notify_ok] proves of the real one.  Works give semaphores, timers go through
    a buffer queue, the tick goes through the tick list, the time slice and the end of the
    interrupt.  The heap has a pool of Mblk inside.  The calls of the key-value store run under a
    mutex; those of the device file system hold one only while they change its tables.  Both
    are modelled one after another; their allocations are a list of failures to come and a
    count of the blocks held.  The calls for applications are compositions of calls of the
    kernel.

    ** What the theorems show

    - The whole: [Safety.kernel_safe], the invariant in every reachable state and the
      totality of every call, the notification of sets and the creation of tasks included.
    - Objects: for each call of Sem, Mutex, Event, Queue and BufQueue named in the
      theorems, every branch with its status and the state it leaves, as an inductive
      specification, with [kok] kept; queues refine lists of messages.
    - Tasks: creation, suspension, resumption, sleep, yielding, changes of priority, aborted
      waits, with the loop of the inheritance shown to end.
    - Time: a tick ends exactly the waits that are due; a timed wait of n ticks ends after n
      tick interrupts and not before.
    - Heap: requests, releases, changes of size and writes of the callers, in any order, are
      those of a store from addresses to contents; blocks do not overlap, no byte is lost,
      and when all is given back the memory is one free block again.
    - Data: the ring buffer refines a bounded FIFO, the byte queue too across the wrap of its
      counters; a pool never hands a block out twice; armed timers stay sorted; pending works
      are in one queue, once.
    - Key-value store: calls, collections, starts and losses of power during any of them are
      a run of a map, where a call that is cut short took effect or did not; the start
      recovers from whatever is left.  For a collection that is cut short this needs that no
      item lies where its last version lay ([KvGc.nothing_returned]); without it a key can
      be lost, which [KvFacts.kv_gc_cut_short_loses] shows on a run.
    - Device file system: any sequence of calls is a run of a table of paths and a table of
      descriptors; counts of open files are exact; open and close undo each other.  Two
      failures of the code are theorems: [vfs_unregister_inside], [vfs_close_twice_undefined].
    - Calls for applications: locks of a mutex nest; keys are handed out once; a wait forever
      for a queue is not forever, [aos_queue_recv_forever_ends].
    - Other divergences found on the way are lemmas where they can be:
      [ringbuf_head_push_wrap_rotates], [ms_to_ticks_rounds_down], [overdue_timer_overtaken].

    ** Assumptions

    The stack words a port writes are the argument [Task.Port].  The kernel's calls that
    allocate take the block the heap returned as an argument, and freed blocks are recorded
    in [heap_free].  The theorems on calls assume what their hypotheses say: known objects,
    ticks of the type, and no blocking call of the idle task; requests to the heap of 2 bytes
    to 2 GiB; of the key-value store, that its operations on flash and its allocations
    succeed while the power is there, and that no key or value has the bytes that begin a live
    item ([KvBlock.plain]); of the device file system, that devices are registered with
    functions of devices.

    ** Not modelled

    - The leak check of the heap, k_idle.c, k_trace.h, k_hook.h: no state the kernel reads.
    - The code for several processors and for dynamic ticks, the measuring of locked times,
      the overflow checks of stacks: other configurations, or reads of hardware.
    - The command line of the key-value store; polling of devices, which has a body for each
      network configuration, and the drivers under the device file system; the event loop.
    - Modelled with no theorem yet: krhino_task_del, krhino_mutex_del, krhino_event_del, the
      calls of ObjSet other than the notification, the start of the system, the steps of the
      timer task as a whole; further regions, owners and the printing of the heap; the wait of
      a set of the key-value store for a running collection; [aos_ioctl_in_loop].
    - The rest of the tree (drivers, vendor code, network stacks, frameworks) is outside the
      kernel. *)
From stdpp Require Export base gmap list option numbers sorting.
From Stdlib Require Export ZArith Lia.

#[global] Open Scope Z_scope.

(** ** Functional record update

    [r <| f := v |>] replaces the field [f]; [r <| f ::= g |>] maps [g] over it.
    A record opts in with a [Settable] instance that rebuilds it field by field;
    the setter of a projection is derived from that instance by abstracting the
    projection. *)
Declare Scope rhino_scope.
Delimit Scope rhino_scope with rhino.

Class Settable (R : Type) := rebuild : R -> R.
Class Setter {R T : Type} (proj : R -> T) := upd : (T -> T) -> R -> R.

Ltac derive_setter :=
  lazymatch goal with
  | |- @Setter ?R ?T ?p =>
      let i := constr:(_ : Settable R) in
      let body := eval hnf in i in
      lazymatch eval pattern p in body with
      | ?f _ =>
          let r := eval cbv beta in (fun (g : T -> T) (x : R) => f (fun y => g (p y)) x) in
          exact r
      end
  end.
#[export] Hint Extern 1 (Setter _) => derive_setter : typeclass_instances.

Notation "r <| p ::= f |>" := (upd (proj := p) f r)
  (at level 1, left associativity, p at level 9) : rhino_scope.
Notation "r <| p := v |>" := (upd (proj := p) (fun _ => v) r)
  (at level 1, left associativity, p at level 9) : rhino_scope.
#[global] Open Scope rhino_scope.

(** ** Fixed-width integers *)

(** [wrap w z] is the value an unsigned [w]-bit C integer holds after [z] is stored in it. *)
Definition wrap (w z : Z) : Z := z mod 2 ^ w.

(** [swrap w z] is the two's complement reading of the low [w] bits of [z]. *)
Definition swrap (w z : Z) : Z :=
  let u := wrap w z in if decide (u < 2 ^ (w - 1)) then u else u - 2 ^ w.

Lemma pow2_pos (w : Z) : 0 <= w -> 0 < 2 ^ w.
Proof. intros. apply Z.pow_pos_nonneg; lia. Qed.

Lemma wrap_range (w z : Z) : 0 <= w -> 0 <= wrap w z < 2 ^ w.
Proof. intros Hw. apply Z.mod_pos_bound. by apply pow2_pos. Qed.

Lemma wrap_small (w z : Z) : 0 <= z < 2 ^ w -> wrap w z = z.
Proof. apply Z.mod_small. Qed.

Lemma wrap_wrap_sub (w a b : Z) : wrap w (wrap w a - b) = wrap w (a - b).
Proof. unfold wrap. by rewrite Zminus_mod_idemp_l. Qed.

Lemma swrap_small (w z : Z) : 1 <= w -> - 2 ^ (w - 1) <= z < 2 ^ (w - 1) -> swrap w z = z.
Proof.
  intros Hw Hz. unfold swrap, wrap.
  assert (H2 : 2 ^ w = 2 * 2 ^ (w - 1)).
  { replace w with (Z.succ (w - 1)) at 1 by lia. rewrite Z.pow_succ_r; lia. }
  destruct (decide (0 <= z)) as [Hp|Hn].
  - rewrite (Z.mod_small z) by lia. case_decide; lia.
  - replace (z mod 2 ^ w) with (z + 2 ^ w).
    + case_decide; lia.
    + symmetry. rewrite <- (Z.mod_add z 1) by lia. rewrite Z.mul_1_l, Z.mod_small; lia.
Qed.

(** ** Bits at known positions

    [each_below n k] splits on [n < k]; [eval_bits] evaluates the bits of constants and
    the indices of the others, which proves identities between shifts and masks one
    position at a time. *)
Ltac each_below n k :=
  lazymatch k with
  | O => exfalso; lia
  | S ?k' =>
      let v := eval vm_compute in (Z.of_nat k') in
      destruct (decide (n = v)) as [->|]; [|each_below n k']
  end.

Ltac eval_bits :=
  repeat match goal with
  | |- context [Z.testbit (Zpos ?p) ?i] =>
      let v := eval vm_compute in (Z.testbit (Zpos p) i) in
      change (Z.testbit (Zpos p) i) with v
  | |- context [Z.testbit ?x ?i] =>
      let j := eval vm_compute in i in progress change (Z.testbit x i) with (Z.testbit x j)
  end;
  rewrite ?(fun x p => Z.testbit_neg_r x (Z.neg p) (Pos2Z.neg_is_neg p)).

(** Bits of a bounded word. *)
Lemma testbit_above (n w i : Z) : 0 <= w < 2 ^ n -> n <= i -> Z.testbit w i = false.
Proof.
  intros Hw Hi. destruct (decide (w = 0)) as [->|]; [apply Z.testbit_0_l|].
  assert (0 <= n) by (destruct (decide (0 <= n)); [done|]; rewrite Z.pow_neg_r in Hw; lia).
  assert (Z.log2 w < n) by (apply Z.log2_lt_pow2; lia).
  apply Z.bits_above_log2; lia.
Qed.

(** ** Lists *)

(** Removing a node from the one list it is linked in. *)
Definition list_rm {A} `{EqDecision A} (x : A) (l : list A) : list A :=
  filter (fun y => y <> x) l.

(** Insertion before the first element on which the scan stops; the scan itself may
    fail (a dangling node), in which case the insertion does. *)
Fixpoint insert_before {A} (stop : A -> option bool) (x : A) (l : list A)
  : option (list A) :=
  match l with
  | [] => Some [x]
  | y :: l' =>
      b ← stop y;
      if (b : bool) then Some (x :: y :: l')
      else (cons y) <$> insert_before stop x l'
  end.

(** The same insertion for a scan that cannot fail. *)
Fixpoint insert_by {A} (stop : A -> bool) (x : A) (l : list A) : list A :=
  match l with
  | [] => [x]
  | y :: l' => if stop y then x :: y :: l' else y :: insert_by stop x l'
  end.

Section lists.
Context {A : Type} `{EqDecision A}.
Implicit Types (x y : A) (l : list A).

Lemma elem_of_list_rm x y l : y ∈ list_rm x l <-> y ∈ l /\ y <> x.
Proof. unfold list_rm. rewrite list_elem_of_filter. tauto. Qed.

Lemma list_rm_id x l : x ∉ l -> list_rm x l = l.
Proof.
    intros Hx. unfold list_rm. induction l as [|y l IH]; [done|].
    apply not_elem_of_cons in Hx as [Hy Hx].
    rewrite filter_cons_True by done. f_equal. by apply IH.
Qed.

Lemma list_rm_cons x l : x ∉ l -> list_rm x (x :: l) = l.
Proof.
    intros. unfold list_rm. rewrite filter_cons_False by tauto. by apply list_rm_id.
Qed.

Lemma NoDup_list_rm x l : NoDup l -> NoDup (list_rm x l).
Proof. apply NoDup_filter. Qed.

Lemma list_rm_app x l1 l2 : list_rm x (l1 ++ l2) = list_rm x l1 ++ list_rm x l2.
Proof. apply filter_app. Qed.

Lemma filter_id (P : A -> Prop) `{forall x, Decision (P x)} l : (forall x, x ∈ l -> P x) -> filter P l = l.
Proof.
    induction l as [|y l IH]; intros HP; [done|]. rewrite filter_cons_True by (apply HP; set_solver).
    f_equal. apply IH. set_solver.
Qed.

Lemma filter_ext (P Q : A -> Prop) `{forall x, Decision (P x)} `{forall x, Decision (Q x)} l :
    (forall x, x ∈ l -> P x <-> Q x) -> filter P l = filter Q l.
Proof.
    induction l as [|y l IH]; intros HPQ; [done|].
    rewrite !filter_cons, IH by set_solver. specialize (HPQ y). repeat case_decide; set_solver.
Qed.

Lemma length_list_rm x l : NoDup l -> x ∈ l -> length l = S (length (list_rm x l)).
Proof.
    induction l as [|y l IH]; intros Hnd Hx; [set_solver|].
    apply NoDup_cons in Hnd as [Hy Hnd]. destruct (decide (y = x)) as [->|Hne].
    - by rewrite list_rm_cons.
    - unfold list_rm. rewrite filter_cons_True by done. cbn. f_equal.
      apply IH; set_solver.
Qed.

Lemma StronglySorted_list_rm (R : relation A) x l :
    StronglySorted R l -> StronglySorted R (list_rm x l).
Proof.
    unfold list_rm. induction 1 as [|y l Hl IH Hy]; [constructor|].
    rewrite filter_cons. case_decide; [|done]. constructor; [done|].
    apply Forall_forall. intros z Hz. apply list_elem_of_filter in Hz as [_ Hz].
    by eapply Forall_forall in Hy.
Qed.

Lemma insert_before_pure stop (f : A -> bool) x l :
    (forall y, y ∈ l -> stop y = Some (f y)) ->
    insert_before stop x l = Some (insert_by f x l).
Proof.
    induction l as [|y l IH]; intros Hs; [done|]. cbn.
    rewrite Hs by set_solver. cbn. destruct (f y); [done|].
    rewrite IH; [done|]. intros; apply Hs; set_solver.
Qed.

Lemma insert_by_perm f x l : insert_by f x l ≡ₚ x :: l.
Proof.
    induction l as [|y l IH]; cbn; [done|]. destruct (f y); [done|].
    rewrite IH. apply perm_swap.
Qed.

Lemma elem_of_insert_by f x y l : y ∈ insert_by f x l <-> y = x \/ y ∈ l.
Proof. rewrite insert_by_perm. set_solver. Qed.

Lemma NoDup_insert_by f x l : NoDup l -> x ∉ l -> NoDup (insert_by f x l).
Proof. intros. rewrite insert_by_perm. by constructor. Qed.

Lemma insert_by_ext f g x l :
    (forall y, y ∈ l -> f y = g y) -> insert_by f x l = insert_by g x l.
Proof.
    induction l as [|y l IH]; intros Hfg; cbn; [done|].
    rewrite Hfg by set_solver. destruct (g y); [done|]. f_equal. apply IH. set_solver.
Qed.

  (** The insertion point: everything skipped does not stop the scan, the next one does. *)
Lemma insert_by_split f x l :
    exists l1 l2, l = l1 ++ l2 /\ insert_by f x l = l1 ++ x :: l2 /\
      Forall (fun y => f y = false) l1 /\ (forall y, head l2 = Some y -> f y = true).
Proof.
    induction l as [|y l (l1 & l2 & -> & Hi & H1 & H2)]; cbn.
    - exists [], []. repeat split; auto; by intros.
    - destruct (f y) eqn:Hf.
      + exists [], (y :: l1 ++ l2). repeat split; auto. by intros ? [= <-].
      + exists (y :: l1), l2. rewrite Hi. repeat split; auto.
Qed.

  (** Insertion by a key keeps the list sorted, after the elements with the same key. *)
Lemma insert_by_sorted (key : A -> Z) f x l :
    (forall y, y ∈ l -> f y = bool_decide (key x < key y)) ->
    StronglySorted (fun a b => key a <= key b) l ->
    StronglySorted (fun a b => key a <= key b) (insert_by f x l).
Proof.
    intros Hf. induction 1 as [|y l Hl IH Hy]; cbn.
    - repeat constructor.
    - rewrite Hf by set_solver. case_bool_decide as Hc.
      + constructor; [by constructor|]. constructor; [lia|].
        eapply Forall_impl; [done|]. cbn; lia.
      + constructor; [apply IH; intros; apply Hf; set_solver|].
        apply Forall_forall. intros z. rewrite elem_of_insert_by.
        intros [->|Hz]; [lia|]. by eapply Forall_forall in Hy.
Qed.

Lemma StronglySorted_ext (R S : relation A) l :
    (forall a b, a ∈ l -> b ∈ l -> R a b -> S a b) ->
    StronglySorted R l -> StronglySorted S l.
Proof.
    intros HRS Hl. revert HRS. induction Hl as [|y l Hl IH Hy]; intros HRS; constructor.
    - apply IH. set_solver.
    - apply Forall_forall. intros z Hz. eapply Forall_forall in Hy; [|done].
      apply HRS; set_solver.
Qed.

Lemma StronglySorted_app_snoc (R : relation A) x l :
    StronglySorted R l -> Forall (fun y => R y x) l -> StronglySorted R (l ++ [x]).
Proof.
    induction 1 as [|y l Hl IH Hy]; cbn; intros HF; [repeat constructor|].
    apply Forall_cons in HF as [? HF]. constructor; [by apply IH|].
    apply Forall_app. split; [done|]. by constructor.
Qed.
End lists.

Create HintDb rhino.
Create Rewrite HintDb rhino_lists.
#[export] Hint Resolve NoDup_list_rm StronglySorted_list_rm : rhino.
#[export] Hint Rewrite @elem_of_list_rm @elem_of_insert_by : rhino_lists.
