(* ===== verification/Config.v ===== *)
(** * Configuration and status codes ([k_config.h], [k_default_config.h], [k_err.h],
      [k_sys.h])

    The build-time options that the modelled code reads are the fields of a class, with
    the constraints the headers impose as laws; [linuxhost] is the configuration of
    board/linuxhost. *)
From S2P Require Import Prelude.

(** ** Status codes *)

Inductive kstat_t : Set :=
| RHINO_SUCCESS
| RHINO_SYS_FATAL_ERR
| RHINO_SYS_SP_ERR
| RHINO_RUNNING
| RHINO_STOPPED
| RHINO_INV_PARAM
| RHINO_NULL_PTR
| RHINO_INV_ALIGN
| RHINO_KOBJ_TYPE_ERR
| RHINO_KOBJ_DEL_ERR
| RHINO_KOBJ_DOCKER_EXIST
| RHINO_KOBJ_BLK
| RHINO_KOBJ_SET_FULL
| RHINO_NOTIFY_FUNC_EXIST
| RHINO_MM_POOL_SIZE_ERR
| RHINO_MM_ALLOC_SIZE_ERR
| RHINO_MM_FREE_ADDR_ERR
| RHINO_MM_CORRUPT_ERR
| RHINO_DYN_MEM_PROC_ERR
| RHINO_NO_MEM
| RHINO_RINGBUF_FULL
| RHINO_RINGBUF_EMPTY
| RHINO_SCHED_DISABLE
| RHINO_SCHED_ALREADY_ENABLED
| RHINO_SCHED_LOCK_COUNT_OVF
| RHINO_INV_SCHED_WAY
| RHINO_TASK_INV_STACK_SIZE
| RHINO_TASK_NOT_SUSPENDED
| RHINO_TASK_DEL_NOT_ALLOWED
| RHINO_TASK_SUSPEND_NOT_ALLOWED
| RHINO_SUSPENDED_COUNT_OVF
| RHINO_BEYOND_MAX_PRI
| RHINO_PRI_CHG_NOT_ALLOWED
| RHINO_INV_TASK_STATE
| RHINO_IDLE_TASK_EXIST
| RHINO_NO_PEND_WAIT
| RHINO_BLK_ABORT
| RHINO_BLK_TIMEOUT
| RHINO_BLK_DEL
| RHINO_BLK_INV_STATE
| RHINO_BLK_POOL_SIZE_ERR
| RHINO_TIMER_STATE_INV
| RHINO_NO_THIS_EVENT_OPT
| RHINO_BUF_QUEUE_INV_SIZE
| RHINO_BUF_QUEUE_SIZE_ZERO
| RHINO_BUF_QUEUE_FULL
| RHINO_BUF_QUEUE_MSG_SIZE_OVERFLOW
| RHINO_QUEUE_FULL
| RHINO_QUEUE_NOT_FULL
| RHINO_SEM_OVF
| RHINO_SEM_TASK_WAITING
| RHINO_MUTEX_NOT_RELEASED_BY_OWNER
| RHINO_MUTEX_OWNER_NESTED
| RHINO_MUTEX_NESTED_OVF
| RHINO_INTRPT_NESTED_LEVEL_OVERFLOW
| RHINO_INV_INTRPT_NESTED_LEVEL
| RHINO_NOT_CALLED_BY_INTRPT
| RHINO_TRY_AGAIN
| RHINO_WORKQUEUE_EXIST
| RHINO_WORKQUEUE_NOT_EXIST
| RHINO_WORKQUEUE_WORK_EXIST
| RHINO_WORKQUEUE_BUSY
| RHINO_WORKQUEUE_WORK_RUNNING
| RHINO_TASK_STACK_OVF
| RHINO_INTRPT_STACK_OVF.

Definition kstat_code (e : kstat_t) : Z :=
  match e with
  | RHINO_SUCCESS => 0
  | RHINO_SYS_FATAL_ERR => 1
  | RHINO_SYS_SP_ERR => 2
  | RHINO_RUNNING => 3
  | RHINO_STOPPED => 4
  | RHINO_INV_PARAM => 5
  | RHINO_NULL_PTR => 6
  | RHINO_INV_ALIGN => 7
  | RHINO_KOBJ_TYPE_ERR => 8
  | RHINO_KOBJ_DEL_ERR => 9
  | RHINO_KOBJ_DOCKER_EXIST => 10
  | RHINO_KOBJ_BLK => 11
  | RHINO_KOBJ_SET_FULL => 12
  | RHINO_NOTIFY_FUNC_EXIST => 13
  | RHINO_MM_POOL_SIZE_ERR => 100
  | RHINO_MM_ALLOC_SIZE_ERR => 101
  | RHINO_MM_FREE_ADDR_ERR => 102
  | RHINO_MM_CORRUPT_ERR => 103
  | RHINO_DYN_MEM_PROC_ERR => 104
  | RHINO_NO_MEM => 105
  | RHINO_RINGBUF_FULL => 106
  | RHINO_RINGBUF_EMPTY => 107
  | RHINO_SCHED_DISABLE => 200
  | RHINO_SCHED_ALREADY_ENABLED => 201
  | RHINO_SCHED_LOCK_COUNT_OVF => 202
  | RHINO_INV_SCHED_WAY => 203
  | RHINO_TASK_INV_STACK_SIZE => 300
  | RHINO_TASK_NOT_SUSPENDED => 301
  | RHINO_TASK_DEL_NOT_ALLOWED => 302
  | RHINO_TASK_SUSPEND_NOT_ALLOWED => 303
  | RHINO_SUSPENDED_COUNT_OVF => 304
  | RHINO_BEYOND_MAX_PRI => 305
  | RHINO_PRI_CHG_NOT_ALLOWED => 306
  | RHINO_INV_TASK_STATE => 307
  | RHINO_IDLE_TASK_EXIST => 308
  | RHINO_NO_PEND_WAIT => 400
  | RHINO_BLK_ABORT => 401
  | RHINO_BLK_TIMEOUT => 402
  | RHINO_BLK_DEL => 403
  | RHINO_BLK_INV_STATE => 404
  | RHINO_BLK_POOL_SIZE_ERR => 405
  | RHINO_TIMER_STATE_INV => 500
  | RHINO_NO_THIS_EVENT_OPT => 600
  | RHINO_BUF_QUEUE_INV_SIZE => 700
  | RHINO_BUF_QUEUE_SIZE_ZERO => 701
  | RHINO_BUF_QUEUE_FULL => 702
  | RHINO_BUF_QUEUE_MSG_SIZE_OVERFLOW => 703
  | RHINO_QUEUE_FULL => 704
  | RHINO_QUEUE_NOT_FULL => 705
  | RHINO_SEM_OVF => 800
  | RHINO_SEM_TASK_WAITING => 801
  | RHINO_MUTEX_NOT_RELEASED_BY_OWNER => 900
  | RHINO_MUTEX_OWNER_NESTED => 901
  | RHINO_MUTEX_NESTED_OVF => 902
  | RHINO_INTRPT_NESTED_LEVEL_OVERFLOW => 1000
  | RHINO_INV_INTRPT_NESTED_LEVEL => 1001
  | RHINO_NOT_CALLED_BY_INTRPT => 1002
  | RHINO_TRY_AGAIN => 1003
  | RHINO_WORKQUEUE_EXIST => 1100
  | RHINO_WORKQUEUE_NOT_EXIST => 1101
  | RHINO_WORKQUEUE_WORK_EXIST => 1102
  | RHINO_WORKQUEUE_BUSY => 1103
  | RHINO_WORKQUEUE_WORK_RUNNING => 1104
  | RHINO_TASK_STACK_OVF => 1200
  | RHINO_INTRPT_STACK_OVF => 1201
  end.

(** The inverse of [kstat_code]; it gives decidable equality without comparing
    constructors pairwise. *)
Definition kstat_of_code (z : Z) : option kstat_t :=
  match z with
  | 0 => Some RHINO_SUCCESS
  | 1 => Some RHINO_SYS_FATAL_ERR
  | 2 => Some RHINO_SYS_SP_ERR
  | 3 => Some RHINO_RUNNING
  | 4 => Some RHINO_STOPPED
  | 5 => Some RHINO_INV_PARAM
  | 6 => Some RHINO_NULL_PTR
  | 7 => Some RHINO_INV_ALIGN
  | 8 => Some RHINO_KOBJ_TYPE_ERR
  | 9 => Some RHINO_KOBJ_DEL_ERR
  | 10 => Some RHINO_KOBJ_DOCKER_EXIST
  | 11 => Some RHINO_KOBJ_BLK
  | 12 => Some RHINO_KOBJ_SET_FULL
  | 13 => Some RHINO_NOTIFY_FUNC_EXIST
  | 100 => Some RHINO_MM_POOL_SIZE_ERR
  | 101 => Some RHINO_MM_ALLOC_SIZE_ERR
  | 102 => Some RHINO_MM_FREE_ADDR_ERR
  | 103 => Some RHINO_MM_CORRUPT_ERR
  | 104 => Some RHINO_DYN_MEM_PROC_ERR
  | 105 => Some RHINO_NO_MEM
  | 106 => Some RHINO_RINGBUF_FULL
  | 107 => Some RHINO_RINGBUF_EMPTY
  | 200 => Some RHINO_SCHED_DISABLE
  | 201 => Some RHINO_SCHED_ALREADY_ENABLED
  | 202 => Some RHINO_SCHED_LOCK_COUNT_OVF
  | 203 => Some RHINO_INV_SCHED_WAY
  | 300 => Some RHINO_TASK_INV_STACK_SIZE
  | 301 => Some RHINO_TASK_NOT_SUSPENDED
  | 302 => Some RHINO_TASK_DEL_NOT_ALLOWED
  | 303 => Some RHINO_TASK_SUSPEND_NOT_ALLOWED
  | 304 => Some RHINO_SUSPENDED_COUNT_OVF
  | 305 => Some RHINO_BEYOND_MAX_PRI
  | 306 => Some RHINO_PRI_CHG_NOT_ALLOWED
  | 307 => Some RHINO_INV_TASK_STATE
  | 308 => Some RHINO_IDLE_TASK_EXIST
  | 400 => Some RHINO_NO_PEND_WAIT
  | 401 => Some RHINO_BLK_ABORT
  | 402 => Some RHINO_BLK_TIMEOUT
  | 403 => Some RHINO_BLK_DEL
  | 404 => Some RHINO_BLK_INV_STATE
  | 405 => Some RHINO_BLK_POOL_SIZE_ERR
  | 500 => Some RHINO_TIMER_STATE_INV
  | 600 => Some RHINO_NO_THIS_EVENT_OPT
  | 700 => Some RHINO_BUF_QUEUE_INV_SIZE
  | 701 => Some RHINO_BUF_QUEUE_SIZE_ZERO
  | 702 => Some RHINO_BUF_QUEUE_FULL
  | 703 => Some RHINO_BUF_QUEUE_MSG_SIZE_OVERFLOW
  | 704 => Some RHINO_QUEUE_FULL
  | 705 => Some RHINO_QUEUE_NOT_FULL
  | 800 => Some RHINO_SEM_OVF
  | 801 => Some RHINO_SEM_TASK_WAITING
  | 900 => Some RHINO_MUTEX_NOT_RELEASED_BY_OWNER
  | 901 => Some RHINO_MUTEX_OWNER_NESTED
  | 902 => Some RHINO_MUTEX_NESTED_OVF
  | 1000 => Some RHINO_INTRPT_NESTED_LEVEL_OVERFLOW
  | 1001 => Some RHINO_INV_INTRPT_NESTED_LEVEL
  | 1002 => Some RHINO_NOT_CALLED_BY_INTRPT
  | 1003 => Some RHINO_TRY_AGAIN
  | 1100 => Some RHINO_WORKQUEUE_EXIST
  | 1101 => Some RHINO_WORKQUEUE_NOT_EXIST
  | 1102 => Some RHINO_WORKQUEUE_WORK_EXIST
  | 1103 => Some RHINO_WORKQUEUE_BUSY
  | 1104 => Some RHINO_WORKQUEUE_WORK_RUNNING
  | 1200 => Some RHINO_TASK_STACK_OVF
  | 1201 => Some RHINO_INTRPT_STACK_OVF
  | _ => None
  end.

Lemma kstat_of_code_code e : kstat_of_code (kstat_code e) = Some e.
Proof. by destruct e. Qed.

#[export] Instance kstat_code_inj : Inj (=) (=) kstat_code.
Proof.
  intros a b Hab. apply (f_equal kstat_of_code) in Hab.
  rewrite !kstat_of_code_code in Hab. by simplify_eq.
Qed.

#[export] Instance kstat_eq_dec : EqDecision kstat_t.
Proof. intros a b. refine (cast_if (decide (kstat_code a = kstat_code b))); naive_solver. Defined.

(** ** Build-time configuration *)

Class RhinoConfig := {
  RHINO_CONFIG_PRI_MAX : Z;
  RHINO_CONFIG_TIME_SLICE_DEFAULT : Z;
  RHINO_CONFIG_TICKS_PER_SECOND : Z;
  RHINO_CONFIG_INTRPT_MAX_NESTED_LEVEL : Z;
  RHINO_CONFIG_TASK_INFO_NUM : Z;
  RHINO_CONFIG_NEXT_INTRPT_TICKS : Z;
  (** width of [tick_t] and [sys_time_t]: 64, or 32 without RHINO_CONFIG_64_BIT_TYPE *)
  tick_bits : Z;
  (** width of [size_t] and of pointers *)
  size_bits : Z;
  (** the heap: the largest size it manages has [MAXMSIZEBIT] bits; of it, this many bytes
      are a pool of small blocks *)
  RHINO_CONFIG_MM_MAXMSIZEBIT : Z;
  RHINO_CONFIG_MM_TLF_BLK_SIZE : Z;
  (** laws: the arithmetic of tick conversions stays in an int; the idle priority exists and priorities fit a [uint8_t] *)
  cfg_pri_max : 2 <= RHINO_CONFIG_PRI_MAX < 256;
  cfg_tick_bits : tick_bits = 32 \/ tick_bits = 64;
  cfg_size_bits : size_bits = 32 \/ size_bits = 64;
  cfg_widths : size_bits <= tick_bits;
  cfg_nested : 0 < RHINO_CONFIG_INTRPT_MAX_NESTED_LEVEL < 256;
  cfg_mm_bits : 10 < RHINO_CONFIG_MM_MAXMSIZEBIT <= 30;
  cfg_mm_blk : 0 < RHINO_CONFIG_MM_TLF_BLK_SIZE < 2 ^ 30;
  cfg_ticks : 0 < RHINO_CONFIG_TICKS_PER_SECOND <= 1000000;
}.

Program Definition linuxhost : RhinoConfig := {|
  RHINO_CONFIG_PRI_MAX := 62;
  RHINO_CONFIG_TIME_SLICE_DEFAULT := 10;
  RHINO_CONFIG_TICKS_PER_SECOND := 100;
  RHINO_CONFIG_INTRPT_MAX_NESTED_LEVEL := 188;
  RHINO_CONFIG_TASK_INFO_NUM := 2;
  RHINO_CONFIG_NEXT_INTRPT_TICKS := 100;
  tick_bits := 64;
  size_bits := 32;
  RHINO_CONFIG_MM_MAXMSIZEBIT := 24;
  RHINO_CONFIG_MM_TLF_BLK_SIZE := 8192;
|}.
Solve All Obligations with (cbn; lia).

Section constants.
Context {cfg : RhinoConfig}.

  (** The last priority is reserved to the idle task. *)
Definition RHINO_IDLE_PRI : Z := RHINO_CONFIG_PRI_MAX - 1.
Definition RHINO_NO_WAIT : Z := 0.
  (** [(tick_t)-1] *)
Definition RHINO_WAIT_FOREVER : Z := 2 ^ tick_bits - 1.
Definition MAX_TIMER_TICKS : Z := Z.shiftr (2 ^ tick_bits - 1) 1.
  (** number of words of the priority bitmap *)
Definition NUM_WORDS : Z := (RHINO_CONFIG_PRI_MAX + 31) / 32.
End constants.

Definition KSCHED_FIFO : Z := 0.
Definition KSCHED_RR : Z := 1.
Definition SCHED_MAX_LOCK_COUNT : Z := 200.
Definition K_OBJ_STATIC_ALLOC : Z := 1.
Definition K_OBJ_DYN_ALLOC : Z := 2.
