(* ===== verification/Bitmap.v ===== *)
(** * Priority bitmaps ([k_bitmap.h])

    A bitmap is an array of 32-bit words in which position [nr] is bit
    [31 - nr mod 32] of word [nr / 32], so that the lowest position is the most
    significant bit and the highest priority is found by counting leading zeros. *)
From S2P Require Import Prelude.

Module Bitmap.

Definition BITMAP_UNIT_SIZE : Z := 32.
Definition BITMAP_MASK (nr : Z) : Z := Z.shiftl 1 (BITMAP_UNIT_SIZE - 1 - Z.land nr 0x1F).
Definition BITMAP_WORD (nr : Z) : Z := Z.shiftr nr 5.

(** Writing a word outside the array is undefined: [None]. *)
Definition krhino_bitmap_set (bitmap : list Z) (nr : Z) : option (list Z) :=
  let i := Z.to_nat (BITMAP_WORD nr) in
  w ← bitmap !! i; Some (<[i := Z.lor w (BITMAP_MASK nr)]> bitmap).

Definition krhino_bitmap_clear (bitmap : list Z) (nr : Z) : option (list Z) :=
  let i := Z.to_nat (BITMAP_WORD nr) in
  w ← bitmap !! i; Some (<[i := Z.land w (Z.lnot (BITMAP_MASK nr))]> bitmap).

(** The five halving steps of the software count of leading zeros; [tmp <<= k] is a
    32-bit shift. *)
Definition halve (mask k : Z) (st : Z * Z) : Z * Z :=
  if decide (Z.land st.1 mask = 0) then (wrap 32 (Z.shiftl st.1 k), st.2 + k) else st.

Definition bitmap_clz (tmp : Z) : Z :=
  let st := halve 0xC0000000 2
           (halve 0xF0000000 4
           (halve 0xFF000000 8
           (halve 0xFFFF0000 16 (tmp, 0)))) in
  if decide (Z.land st.1 0x80000000 = 0) then st.2 + 1 else st.2.

(** [while (\*bitmap == 0UL)]: running past the last word is undefined. *)
Fixpoint find_first_bit_from (nr : Z) (bitmap : list Z) : option Z :=
  match bitmap with
  | [] => None
  | w :: rest =>
      if decide (w = 0) then find_first_bit_from (nr + BITMAP_UNIT_SIZE) rest
      else Some (nr + bitmap_clz w)
  end.

Definition krhino_find_first_bit (bitmap : list Z) : option Z := find_first_bit_from 0 bitmap.

(** ** Abstraction: the set of positions of a bitmap *)

Definition words_ok (bitmap : list Z) : Prop := Forall (fun w => 0 <= w < 2 ^ 32) bitmap.

Definition bit_at (bitmap : list Z) (nr : Z) : bool :=
  match bitmap !! Z.to_nat (nr / 32) with
  | Some w => Z.testbit w (31 - nr mod 32)
  | None => false
  end.

(** ** Bit-level lemmas *)

Lemma BITMAP_MASK_spec nr : BITMAP_MASK nr = 2 ^ (31 - nr mod 32).
Proof.
  unfold BITMAP_MASK, BITMAP_UNIT_SIZE.
  change 0x1F with (Z.ones 5). rewrite Z.land_ones by lia.
  rewrite Z.shiftl_1_l. reflexivity.
Qed.

Lemma BITMAP_WORD_spec nr : BITMAP_WORD nr = nr / 32.
Proof. unfold BITMAP_WORD. by rewrite Z.shiftr_div_pow2. Qed.

Lemma mask_testbit nr i : Z.testbit (BITMAP_MASK nr) i = bool_decide (i = 31 - nr mod 32).
Proof.
  rewrite BITMAP_MASK_spec. pose proof (Z.mod_pos_bound nr 32 ltac:(lia)).
  rewrite Z.pow2_bits_eqb by lia. case_bool_decide; lia.
Qed.

Lemma testbit_bound w i : 0 <= w < 2 ^ 32 -> 32 <= i -> Z.testbit w i = false.
Proof. apply testbit_above. Qed.

Lemma word_bound w : 0 <= w -> (forall i, 32 <= i -> Z.testbit w i = false) -> w < 2 ^ 32.
Proof.
  intros Hw Hb. destruct (decide (w < 2 ^ 32)); [done|]. exfalso.
  assert (Hl : 32 <= Z.log2 w) by (apply Z.log2_le_pow2; lia).
  specialize (Hb _ Hl). rewrite Z.bit_log2 in Hb by lia. done.
Qed.

Lemma lor_mask_range w nr : 0 <= w < 2 ^ 32 -> 0 <= Z.lor w (BITMAP_MASK nr) < 2 ^ 32.
Proof.
  intros Hw. rewrite BITMAP_MASK_spec. split.
  - apply Z.lor_nonneg. split; [lia|]. apply Z.pow_nonneg; lia.
  - apply word_bound.
    + apply Z.lor_nonneg. split; [lia|]. apply Z.pow_nonneg; lia.
    + intros i Hi. pose proof (Z.mod_pos_bound nr 32 ltac:(lia)).
      rewrite Z.lor_spec, testbit_bound, Z.pow2_bits_eqb by lia. cbn. lia.
Qed.

Lemma land_range w m : 0 <= w < 2 ^ 32 -> 0 <= Z.land w m < 2 ^ 32.
Proof.
  intros Hw. split; [apply Z.land_nonneg; lia|]. apply word_bound.
  - apply Z.land_nonneg; lia.
  - intros i Hi. by rewrite Z.land_spec, testbit_bound by lia.
Qed.

(** ** Set and clear *)

Definition in_bitmap (bitmap : list Z) (nr : Z) : Prop :=
  0 <= nr < 32 * Z.of_nat (length bitmap).

Lemma in_bitmap_lookup bm nr :
  in_bitmap bm nr -> exists w, bm !! Z.to_nat (nr / 32) = Some w.
Proof.
  intros [H1 H2]. apply lookup_lt_is_Some.
  assert (0 <= nr / 32) by (apply Z.div_pos; lia).
  assert (nr / 32 < Z.of_nat (length bm)) by (apply Z.div_lt_upper_bound; lia). lia.
Qed.

Lemma position_eq a b :
  0 <= a -> 0 <= b -> Z.to_nat (a / 32) = Z.to_nat (b / 32) ->
  31 - a mod 32 = 31 - b mod 32 -> a = b.
Proof.
  intros Ha Hb H1 H2.
  assert (a / 32 = b / 32) by (apply Z2Nat.inj; [apply Z.div_pos; lia..|done]).
  rewrite (Z.div_mod a 32), (Z.div_mod b 32) by lia. lia.
Qed.

Lemma bitmap_set_spec bm nr :
  words_ok bm -> in_bitmap bm nr ->
  exists bm', krhino_bitmap_set bm nr = Some bm' /\ words_ok bm' /\
    length bm' = length bm /\
    (forall p, 0 <= p -> bit_at bm' p = bool_decide (p = nr) || bit_at bm p).
Proof.
  intros Hok Hin. destruct (in_bitmap_lookup _ _ Hin) as [w Hw].
  unfold krhino_bitmap_set. rewrite BITMAP_WORD_spec, Hw. cbn.
  eexists; split; [done|]. repeat split.
  - apply Forall_insert; [done|]. apply lor_mask_range. by eapply Forall_lookup in Hok.
  - by rewrite length_insert.
  - intros p Hp. unfold bit_at. pose proof (lookup_lt_Some _ _ _ Hw).
    destruct (decide (Z.to_nat (p / 32) = Z.to_nat (nr / 32))) as [He|Hne].
    + rewrite He, list_lookup_insert_eq, Hw, Z.lor_spec, mask_testbit by done.
      rewrite orb_comm. f_equal. apply bool_decide_ext. split; [|by intros ->].
      intros. apply position_eq; destruct Hin; done.
    + rewrite list_lookup_insert_ne by done. rewrite bool_decide_false; [done|]. by intros ->.
Qed.

Lemma bitmap_clear_spec bm nr :
  words_ok bm -> in_bitmap bm nr ->
  exists bm', krhino_bitmap_clear bm nr = Some bm' /\ words_ok bm' /\
    length bm' = length bm /\
    (forall p, 0 <= p -> bit_at bm' p = negb (bool_decide (p = nr)) && bit_at bm p).
Proof.
  intros Hok Hin. destruct (in_bitmap_lookup _ _ Hin) as [w Hw].
  unfold krhino_bitmap_clear. rewrite BITMAP_WORD_spec, Hw. cbn.
  eexists; split; [done|]. repeat split.
  - apply Forall_insert; [done|]. apply land_range. by eapply Forall_lookup in Hok.
  - by rewrite length_insert.
  - intros p Hp. unfold bit_at. pose proof (lookup_lt_Some _ _ _ Hw).
    pose proof (Z.mod_pos_bound p 32 ltac:(lia)).
    destruct (decide (Z.to_nat (p / 32) = Z.to_nat (nr / 32))) as [He|Hne].
    + rewrite He, list_lookup_insert_eq, Hw, Z.land_spec, Z.lnot_spec, mask_testbit by (done || lia).
      rewrite andb_comm. do 2 f_equal. apply bool_decide_ext. split; [|by intros ->].
      intros. apply position_eq; destruct Hin; done.
    + rewrite list_lookup_insert_ne by done. rewrite bool_decide_false; [done|]. by intros ->.
Qed.

(** ** Counting leading zeros *)

Lemma land_mask_high tmp k :
  0 <= tmp < 2 ^ 32 -> 0 <= k <= 32 ->
  Z.land tmp (2 ^ 32 - 2 ^ (32 - k)) = 0 <-> tmp < 2 ^ (32 - k).
Proof.
  intros Ht Hk.
  assert (Hm : 2 ^ 32 - 2 ^ (32 - k) = Z.shiftl (Z.ones k) (32 - k)).
  { rewrite Z.shiftl_mul_pow2, Z.ones_equiv by lia.
    replace (2 ^ 32) with (2 ^ k * 2 ^ (32 - k)) by (rewrite <- Z.pow_add_r by lia; f_equal; lia).
    rewrite <- Z.sub_1_r. lia. }
  rewrite Hm. split.
  - intros H0. destruct (decide (tmp < 2 ^ (32 - k))); [done|]. exfalso.
    assert (0 < 2 ^ (32 - k)) by (apply pow2_pos; lia).
    assert (32 - k <= Z.log2 tmp) by (apply Z.log2_le_pow2; lia).
    assert (Z.log2 tmp < 32) by (apply Z.log2_lt_pow2; lia).
    apply (f_equal (fun z => Z.testbit z (Z.log2 tmp))) in H0.
    rewrite Z.land_spec, Z.bit_log2, Z.shiftl_spec, Z.ones_spec_low, Z.testbit_0_l in H0 by lia.
    done.
  - intros Hlt. apply Z.bits_inj'. intros i Hi.
    rewrite Z.land_spec, Z.shiftl_spec, Z.testbit_0_l by lia.
    destruct (decide (i < 32 - k)).
    + rewrite (Z.testbit_neg_r _ (i - (32 - k))) by lia. apply andb_false_r.
    + destruct (decide (tmp = 0)) as [->|]; [by rewrite Z.testbit_0_l|].
      rewrite Z.bits_above_log2; [done|lia|].
      assert (Z.log2 tmp < 32 - k) by (apply Z.log2_lt_pow2; lia). lia.
Qed.

(** What a halving step maintains: shifting out leading zeros and counting them. *)
Definition clz_inv (tmp : Z) (st : Z * Z) : Prop :=
  0 < st.1 < 2 ^ 32 /\ 31 - Z.log2 tmp = st.2 + (31 - Z.log2 st.1).

Lemma halve_inv tmp mask k st :
  mask = 2 ^ 32 - 2 ^ (32 - k) -> 0 < k < 32 -> clz_inv tmp st ->
  clz_inv tmp (halve mask k st) /\
  forall m, 31 - Z.log2 st.1 < 2 * k -> m = 31 - Z.log2 (halve mask k st).1 -> m < k.
Proof.
  intros -> Hk [Hr He]. unfold halve.
  assert (0 < 2 ^ (32 - k)) by (apply pow2_pos; lia).
  case_decide as Hd.
  - apply land_mask_high in Hd; [|lia..].
    assert (Hs : wrap 32 (Z.shiftl st.1 k) = st.1 * 2 ^ k).
    { rewrite Z.shiftl_mul_pow2 by lia. apply wrap_small.
      replace (2 ^ 32) with (2 ^ (32 - k) * 2 ^ k) by (rewrite <- Z.pow_add_r by lia; f_equal; lia).
      assert (0 < 2 ^ k) by (apply pow2_pos; lia). nia. }
    unfold clz_inv; cbn. rewrite Hs.
    assert (Hl : Z.log2 (st.1 * 2 ^ k) = k + Z.log2 st.1) by (apply Z.log2_mul_pow2; lia).
    rewrite Hl. repeat split; [|..|intros; lia].
    + assert (0 < 2 ^ k) by (apply pow2_pos; lia). nia.
    + replace (2 ^ 32) with (2 ^ (32 - k) * 2 ^ k) by (rewrite <- Z.pow_add_r by lia; f_equal; lia).
      assert (0 < 2 ^ k) by (apply pow2_pos; lia). nia.
    + lia.
  - split; [done|]. intros m Hm ->.
    assert (2 ^ (32 - k) <= st.1).
    { destruct (decide (st.1 < 2 ^ (32 - k))) as [Hl|]; [|lia].
      exfalso; apply Hd. apply land_mask_high; lia. }
    assert (32 - k <= Z.log2 st.1) by (apply Z.log2_le_pow2; lia). lia.
Qed.

Lemma bitmap_clz_spec tmp : 0 < tmp < 2 ^ 32 -> bitmap_clz tmp = 31 - Z.log2 tmp.
Proof.
  intros Ht. unfold bitmap_clz.
  assert (Hk0 : clz_inv tmp (tmp, 0)) by (split; cbn; lia).
  assert (Z.log2 tmp < 32) by (apply Z.log2_lt_pow2; lia).
  assert (0 <= Z.log2 tmp) by apply Z.log2_nonneg.
  destruct (halve_inv tmp 0xFFFF0000 16 _ eq_refl ltac:(lia) Hk0) as [Hk1 B1].
  specialize (B1 _ ltac:(cbn; lia) eq_refl).
  destruct (halve_inv tmp 0xFF000000 8 _ eq_refl ltac:(lia) Hk1) as [Hk2 B2].
  specialize (B2 _ ltac:(lia) eq_refl).
  destruct (halve_inv tmp 0xF0000000 4 _ eq_refl ltac:(lia) Hk2) as [Hk3 B3].
  specialize (B3 _ ltac:(lia) eq_refl).
  destruct (halve_inv tmp 0xC0000000 2 _ eq_refl ltac:(lia) Hk3) as [Hk4 B4].
  specialize (B4 _ ltac:(lia) eq_refl).
  clear - Hk4 B4. remember (halve 0xC0000000 2 _) as st eqn:Hst. clear Hst.
  destruct Hk4 as [Hr ->].
  assert (Z.log2 st.1 < 32) by (apply Z.log2_lt_pow2; lia).
  change 0x80000000 with (2 ^ 32 - 2 ^ (32 - 1)).
  case_decide as Hd.
  - apply land_mask_high in Hd; [|lia..]. assert (Z.log2 st.1 < 31) by (apply Z.log2_lt_pow2; lia). lia.
  - assert (2 ^ 31 <= st.1).
    { destruct (decide (st.1 < 2 ^ (32 - 1))) as [Hl|Hl]; [|cbn in Hl; lia].
      exfalso; apply Hd. apply land_mask_high; lia. }
    assert (31 <= Z.log2 st.1) by (apply Z.log2_le_pow2; lia). lia.
Qed.

(** ** Finding the first position *)

(** [n] is the smallest position of the bitmap. *)
Definition first_bit (bitmap : list Z) (n : Z) : Prop :=
  0 <= n /\ bit_at bitmap n = true /\ forall m, 0 <= m < n -> bit_at bitmap m = false.

Lemma bit_at_cons_low w bm p : 0 <= p < 32 -> bit_at (w :: bm) p = Z.testbit w (31 - p).
Proof. intros. unfold bit_at. rewrite Z.div_small, Z.mod_small by lia. done. Qed.

Lemma bit_at_cons_high w bm p : 32 <= p -> bit_at (w :: bm) p = bit_at bm (p - 32).
Proof.
  intros. unfold bit_at.
  assert (Hp : p = (p - 32) + 1 * 32) by lia.
  assert (0 <= (p - 32) / 32) by (apply Z.div_pos; lia).
  assert (Hd : p / 32 = (p - 32) / 32 + 1) by (rewrite Hp at 1; apply Z.div_add; lia).
  assert (Hm : p mod 32 = (p - 32) mod 32) by (rewrite Hp at 1; apply Z.mod_add; lia).
  rewrite Hd, Hm, Z2Nat.inj_add by lia. by rewrite Nat.add_comm.
Qed.

Lemma first_bit_unique bm n m : first_bit bm n -> first_bit bm m -> n = m.
Proof.
  intros (H1 & H2 & H3) (G1 & G2 & G3).
  destruct (Z.lt_trichotomy n m) as [Hl|[?|Hl]]; [|done|].
  - rewrite G3 in H2; done || lia.
  - rewrite H3 in G2; done || lia.
Qed.

Lemma find_first_bit_from_spec bm nr n :
  words_ok bm -> find_first_bit_from nr bm = Some n <-> first_bit bm (n - nr).
Proof.
  intros Hok. revert nr. induction Hok as [|w bm Hw Hok IH]; intros nr; cbn.
  - split; [done|]. intros (? & Hb & _). by unfold bit_at in Hb; rewrite lookup_nil in Hb.
  - case_decide as Hd; [subst|].
    + rewrite IH. unfold first_bit, BITMAP_UNIT_SIZE.
      assert (Hz : forall m, 0 <= m < 32 -> bit_at (0 :: bm) m = false).
      { intros. by rewrite bit_at_cons_low, Z.testbit_0_l by lia. }
      split; intros (Hn & Hb & Hm); repeat split.
      * lia.
      * rewrite bit_at_cons_high by lia. rewrite <- Hb. f_equal. lia.
      * intros m Hm'. destruct (decide (m < 32)); [apply Hz; lia|].
        rewrite bit_at_cons_high by lia. apply Hm. lia.
      * destruct (decide (n - nr < 32)); [|lia]. rewrite Hz in Hb by lia. done.
      * destruct (decide (n - nr < 32)); [rewrite Hz in Hb by lia; done|].
        rewrite bit_at_cons_high in Hb by lia. rewrite <- Hb. f_equal. lia.
      * intros m Hm'. specialize (Hm (m + 32)). rewrite bit_at_cons_high in Hm by lia.
        rewrite <- Hm by lia. f_equal. lia.
    + assert (Hl : Z.log2 w < 32) by (apply Z.log2_lt_pow2; lia).
      pose proof (Z.log2_nonneg w).
      rewrite bitmap_clz_spec by lia.
      assert (Hf : first_bit (w :: bm) (31 - Z.log2 w)).
      { split; [lia|]. split.
        - rewrite bit_at_cons_low by lia. replace (31 - _) with (Z.log2 w) by lia.
          apply Z.bit_log2. lia.
        - intros m Hm. rewrite bit_at_cons_low by lia. apply Z.bits_above_log2; lia. }
      split.
      * intros [= <-]. replace (_ - nr) with (31 - Z.log2 w) by lia. done.
      * intros Hf'. f_equal. pose proof (first_bit_unique _ _ _ Hf Hf'). lia.
Qed.

(** The scan runs off the array only when no position is set. *)
Lemma find_first_bit_none bm n :
  krhino_find_first_bit bm = None -> words_ok bm -> 0 <= n -> bit_at bm n = false.
Proof.
  intros Hn Hok H0. destruct (bit_at bm n) eqn:Hb; [|done]. exfalso.
  unfold krhino_find_first_bit in Hn. revert n H0 Hb Hn. generalize 0 at 2 as nr.
  induction Hok as [|w bm Hw Hok IH]; cbn; intros nr n H0 Hb Hn.
  - by unfold bit_at in Hb; rewrite lookup_nil in Hb.
  - case_decide; [subst|done]. destruct (decide (n < 32)).
    + by rewrite bit_at_cons_low, Z.testbit_0_l in Hb by lia.
    + rewrite bit_at_cons_high in Hb by lia. eapply IH; [| |done..]; [|done]; lia.
Qed.

(** On an array of 32-bit words, the word scan followed by the five halving steps
    returns [n] exactly when [n] is the smallest position set, and runs off the array
    (no result) exactly when no position is set. *)
Theorem krhino_find_first_bit_correct (bitmap : list Z) (Hok : words_ok bitmap) :
  (forall n, krhino_find_first_bit bitmap = Some n <-> first_bit bitmap n) /\
  (krhino_find_first_bit bitmap = None <-> forall n, 0 <= n -> bit_at bitmap n = false).
Proof.
  assert (Hs : forall n, krhino_find_first_bit bitmap = Some n <-> first_bit bitmap n).
  { intros n. unfold krhino_find_first_bit. rewrite find_first_bit_from_spec by done.
    by rewrite Z.sub_0_r. }
  split; [done|]. unfold krhino_find_first_bit in *. split.
  - intros Hn n H0. by apply find_first_bit_none.
  - intros Hz. destruct (find_first_bit_from 0 bitmap) as [n|] eqn:Hf; [|done].
    destruct (proj1 (Hs n) eq_refl) as (H0 & Hb & _). by rewrite Hz in Hb.
Qed.

End Bitmap.
