(* ===== verification/Ringbuf.v ===== *)
(** * Ring buffers ([k_ringbuf.c], [k_ringbuf.h])

    A ring buffer holds either fixed-size blocks or messages of up to 4194303 bytes,
    each behind a variable-length header of one to three bytes.  The pointers [head] and
    [tail] are offsets from [buf], [end] is the length of the memory; both offsets range
    over [0..end] because the code normalises [end] to [buf] lazily. *)
From S2P Require Import Prelude Config.

Module Ringbuf.

Inductive ringbuf_type := RINGBUF_TYPE_FIX | RINGBUF_TYPE_DYN.
#[export] Instance ringbuf_type_eq_dec : EqDecision ringbuf_type.
Proof. solve_decision. Defined.

Record k_ringbuf_t := mk_ringbuf {
  mem : list Z;             (* the bytes from buf to end *)
  head : nat;
  tail : nat;
  freesize : nat;
  type : ringbuf_type;
  blk_size : nat;
}.
#[export] Instance k_ringbuf_settable : Settable k_ringbuf_t := fun r =>
  mk_ringbuf (mem r) (head r) (tail r) (freesize r) (type r) (blk_size r).

Definition rend (rb : k_ringbuf_t) : nat := length (mem rb).

(** ** memcpy with bounds: an access outside the object is undefined ([None]) *)

Definition mem_write (m : list Z) (off : nat) (bytes : list Z) : option (list Z) :=
  if decide (off + length bytes <= length m)%nat
  then Some (take off m ++ bytes ++ drop (off + length bytes) m) else None.

Definition mem_read (m : list Z) (off n : nat) : option (list Z) :=
  if decide (off + n <= length m)%nat then Some (take n (drop off m)) else None.

(** [p -= n] on an offset that must not go below the start of the object. *)
Definition off_sub (a n : nat) : option nat :=
  if decide (n <= a)%nat then Some (a - n)%nat else None.

(** ** Variable-length headers *)

Definition RINGBUF_LEN_MAX_SIZE : nat := 3.
Definition RINGBUF_LEN_1BYTE_MAXVALUE : Z := 0x7f.
Definition RINGBUF_LEN_2BYTES_MAXVALUE : Z := 0x3fff.
Definition RINGBUF_LEN_3BYTES_MAXVALUE : Z := 0x3fffff.

Definition byte_of (w : Z) (i : Z) : Z := Z.land (Z.shiftr w (8 * i)) 0xff.

(** byte order reversal of a 32-bit word on a little-endian core *)
Definition krhino_ntohl (x : Z) : Z :=
  Z.lor (Z.lor (Z.shiftl (Z.land x 0xff) 24) (Z.shiftl (Z.land x 0xff00) 8))
        (Z.lor (Z.shiftr (Z.land x 0xff0000) 8) (Z.shiftr (Z.land x 0xff000000) 24)).

(** the 32-bit word a little-endian core reads from four bytes *)
Definition le_word (b0 b1 b2 b3 : Z) : Z :=
  Z.lor (Z.lor b0 (Z.shiftl b1 8)) (Z.lor (Z.shiftl b2 16) (Z.shiftl b3 24)).

(** a value too long for three bytes yields the code of RHINO_INV_PARAM as its length *)
Definition COMPRESS_LEN (x : Z) : Z :=
  if decide (x <= RINGBUF_LEN_1BYTE_MAXVALUE) then 1
  else if decide (x <= RINGBUF_LEN_2BYTES_MAXVALUE) then 2
  else if decide (x <= RINGBUF_LEN_3BYTES_MAXVALUE) then 3
  else kstat_code RHINO_INV_PARAM.

(** the number of header bytes and the contents of [cmp_buf] *)
Definition ringbuf_headlen_compress (head_len : Z) : nat * list Z :=
  let be_len := krhino_ntohl (wrap 32 head_len) in
  let p_len i := byte_of be_len i in
  let len_bytes := Z.to_nat (COMPRESS_LEN head_len) in
  (len_bytes,
   if decide (len_bytes = 1%nat) then [Z.land RINGBUF_LEN_1BYTE_MAXVALUE (p_len 3); 0; 0]
   else if decide (len_bytes = 2%nat) then [Z.lor 0x80 (p_len 2); p_len 3; 0]
   else if decide (len_bytes = 3%nat) then [Z.lor 0xC0 (p_len 1); p_len 2; p_len 3]
   else [0; 0; 0]).

Definition ringbuf_headlen_decompress (buf_len : nat) (cmp_buf : list Z) : Z :=
  let len_buf := replicate (4 - buf_len) 0 ++ take buf_len cmp_buf in
  let len_buf := if decide (1 < buf_len)%nat
                 then alter (fun b => Z.land b 0x3f) (4 - buf_len)%nat len_buf else len_buf in
  let b i := default 0 (len_buf !! i) in
  krhino_ntohl (le_word (b 0%nat) (b 1%nat) (b 2%nat) (b 3%nat)).

(** ** Operations *)

Definition ringbuf_reset (rb : k_ringbuf_t) : k_ringbuf_t :=
  rb <| head := 0%nat |> <| tail := 0%nat |> <| freesize := rend rb |>.

Definition ringbuf_init (buf : list Z) (ty : ringbuf_type) (block_size : nat) : k_ringbuf_t :=
  ringbuf_reset (mk_ringbuf buf 0 0 0 ty block_size).

Definition ringbuf_is_full (rb : k_ringbuf_t) : bool :=
  match type rb with
  | RINGBUF_TYPE_DYN => bool_decide (freesize rb < 2)%nat
  | RINGBUF_TYPE_FIX => bool_decide (freesize rb < blk_size rb)%nat
  end.

Definition ringbuf_is_empty (rb : k_ringbuf_t) : bool :=
  bool_decide (freesize rb = rend rb).

(** Copy [bytes] at [tail], splitting at the end of the buffer when the free space wraps. *)
Definition push_split (rb : k_ringbuf_t) (bytes : list Z) : option k_ringbuf_t :=
  let len := length bytes in
  let split_len := (rend rb - tail rb)%nat in
  if decide (head rb <= tail rb /\ split_len < len /\ 0 < split_len)%nat then
    m1 ← mem_write (mem rb) (tail rb) (take split_len bytes);
    m2 ← mem_write m1 0 (drop split_len bytes);
    Some (rb <| mem := m2 |> <| tail := (len - split_len)%nat |>
             <| freesize := (freesize rb - split_len - (len - split_len))%nat |>)
  else
    m ← mem_write (mem rb) (tail rb) bytes;
    Some (rb <| mem := m |> <| tail := (tail rb + len)%nat |>
             <| freesize := (freesize rb - len)%nat |>).

Definition norm_tail (rb : k_ringbuf_t) : k_ringbuf_t :=
  if decide (tail rb = rend rb) then rb <| tail := 0%nat |> else rb.

Definition norm_head (rb : k_ringbuf_t) : k_ringbuf_t :=
  if decide (head rb = rend rb) then rb <| head := 0%nat |> else rb.

(** [data] is the memory behind the data pointer: reading past it is undefined. *)
Definition ringbuf_push (rb : k_ringbuf_t) (data : list Z) (len : nat)
  : option (kstat_t * k_ringbuf_t) :=
  if ringbuf_is_full rb then Some (RHINO_RINGBUF_FULL, rb) else
  match type rb with
  | RINGBUF_TYPE_FIX =>
      let rb := norm_tail rb in
      bytes ← mem_read data 0 (blk_size rb);
      m ← mem_write (mem rb) (tail rb) bytes;
      Some (RHINO_SUCCESS,
            rb <| mem := m |> <| tail := (tail rb + blk_size rb)%nat |>
               <| freesize := (freesize rb - blk_size rb)%nat |>)
  | RINGBUF_TYPE_DYN =>
      let '(len_bytes, c_len) := ringbuf_headlen_compress (Z.of_nat len) in
      if decide (len_bytes = 0 \/ RINGBUF_LEN_MAX_SIZE < len_bytes)%nat
      then Some (RHINO_INV_PARAM, rb) else
      if decide (freesize rb < len_bytes + len)%nat then Some (RHINO_RINGBUF_FULL, rb) else
      rb ← push_split (norm_tail rb) (take len_bytes c_len);
      bytes ← mem_read data 0 len;
      rb ← push_split (norm_tail rb) bytes;
      Some (RHINO_SUCCESS, rb)
  end.

Definition wrap_head (rb : k_ringbuf_t) : k_ringbuf_t :=
  if decide (head rb = 0%nat) then rb <| head := rend rb |> else rb.

(** At the other end the data goes in first, then its header, both growing downwards. *)
Definition ringbuf_head_push (rb : k_ringbuf_t) (data : list Z) (len : nat)
  : option (kstat_t * k_ringbuf_t) :=
  if ringbuf_is_full rb then Some (RHINO_RINGBUF_FULL, rb) else
  match type rb with
  | RINGBUF_TYPE_FIX =>
      let rb := wrap_head rb in
      h ← off_sub (head rb) len;
      bytes ← mem_read data 0 len;
      m ← mem_write (mem rb) h bytes;
      Some (RHINO_SUCCESS,
            rb <| head := h |> <| mem := m |> <| freesize := (freesize rb - len)%nat |>)
  | RINGBUF_TYPE_DYN =>
      let '(len_bytes, c_len) := ringbuf_headlen_compress (Z.of_nat len) in
      if decide (len_bytes = 0 \/ RINGBUF_LEN_MAX_SIZE < len_bytes)%nat
      then Some (RHINO_INV_PARAM, rb) else
      if decide (freesize rb < len_bytes + len)%nat then Some (RHINO_RINGBUF_FULL, rb) else
      let rb := wrap_head rb in
      (* the data *)
      let split_len := head rb in
      '(rb, data, len) ←
        (if decide (head rb <= tail rb /\ split_len < len /\ 0 < split_len)%nat then
           bytes ← mem_read data 0 split_len;
           m ← mem_write (mem rb) 0 bytes;
           Some (rb <| mem := m |> <| head := rend rb |>
                    <| freesize := (freesize rb - split_len)%nat |>,
                 drop split_len data, (len - split_len)%nat)
         else Some (rb, data, len));
      h ← off_sub (head rb) len;
      bytes ← mem_read data 0 len;
      m ← mem_write (mem rb) h bytes;
      let rb := rb <| head := h |> <| mem := m |> <| freesize := (freesize rb - len)%nat |> in
      (* the header *)
      let rb := wrap_head rb in
      let split_len := head rb in
      '(rb, len_bytes) ←
        (if decide (head rb <= tail rb /\ split_len < len_bytes /\ 0 < split_len)%nat then
           bytes ← mem_read c_len (len_bytes - split_len) split_len;
           m ← mem_write (mem rb) 0 bytes;
           Some (rb <| mem := m |> <| head := rend rb |>
                    <| freesize := (freesize rb - split_len)%nat |>,
                 (len_bytes - split_len)%nat)
         else Some (rb, len_bytes));
      if decide (0 < len_bytes)%nat then
        h ← off_sub (head rb) len_bytes;
        bytes ← mem_read c_len 0 len_bytes;
        m ← mem_write (mem rb) h bytes;
        Some (RHINO_SUCCESS,
              rb <| head := h |> <| mem := m |> <| freesize := (freesize rb - len_bytes)%nat |>)
      else Some (RHINO_SUCCESS, rb)
  end.

(** Copy [n] bytes from [head]; [wraps] is the code's test that they may run past the end. *)
Definition pop_split (rb : k_ringbuf_t) (n : nat) (wraps : bool) : option (list Z * k_ringbuf_t) :=
  let split_len := (rend rb - head rb)%nat in
  if decide (wraps = true /\ split_len < n)%nat then
    b1 ← mem_read (mem rb) (head rb) split_len;
    b2 ← mem_read (mem rb) 0 (n - split_len);
    Some (b1 ++ b2, rb <| head := (n - split_len)%nat |>
                       <| freesize := (freesize rb + split_len + (n - split_len))%nat |>)
  else
    b ← mem_read (mem rb) (head rb) n;
    Some (b, rb <| head := (head rb + n)%nat |> <| freesize := (freesize rb + n)%nat |>).

(** The length of the header, read off its first byte. *)
Definition header_len (b0 : Z) : option nat :=
  if decide (Z.land b0 0x80 = 0) then Some 1%nat
  else if decide (Z.land b0 0xC0 = 0x80) then Some 2%nat
  else if decide (Z.land b0 0xC0 = 0xC0) then Some 3%nat
  else None.

(** Status, buffer and, on success, the bytes stored at [pdata]; [\*plen] is their number. *)
Definition ringbuf_pop (rb : k_ringbuf_t) : option (kstat_t * k_ringbuf_t * list Z) :=
  if ringbuf_is_empty rb then Some (RHINO_RINGBUF_EMPTY, rb, []) else
  let rb := norm_head rb in
  match type rb with
  | RINGBUF_TYPE_FIX =>
      b ← mem_read (mem rb) (head rb) (blk_size rb);
      Some (RHINO_SUCCESS,
            rb <| head := (head rb + blk_size rb)%nat |>
               <| freesize := (freesize rb + blk_size rb)%nat |>, b)
  | RINGBUF_TYPE_DYN =>
      b0 ← mem rb !! head rb;
      match header_len b0 with
      | None => Some (RHINO_INV_PARAM, rb, [])
      | Some len_bytes =>
          '(c_len, rb) ← pop_split rb len_bytes (bool_decide (0 < rend rb - head rb)%nat);
          let len := Z.to_nat (ringbuf_headlen_decompress len_bytes c_len) in
          let rb := norm_head rb in
          '(bytes, rb) ← pop_split rb len (bool_decide (tail rb < head rb)%nat);
          Some (RHINO_SUCCESS, rb, bytes)
      end
  end.

(** ** The calls for applications

    They check their arguments and do the rest within a critical section, which the buffer
    does not see.  [None] is a null pointer; the buffer is only given back when there is one. *)

Definition krhino_ringbuf_reset (p_ringbuf : option k_ringbuf_t) : kstat_t * option k_ringbuf_t :=
  match p_ringbuf with
  | None => (RHINO_NULL_PTR, None)
  | Some rb => (RHINO_SUCCESS, Some (ringbuf_reset rb))
  end.

(** [ty] is [None] for a number that is no type; the old contents of the structure are lost. *)
Definition krhino_ringbuf_init (p_ringbuf : option k_ringbuf_t) (buf : option (list Z)) (ty : option ringbuf_type)
    (block_size : nat) : kstat_t * option k_ringbuf_t :=
  match p_ringbuf, buf with
  | Some rb, Some buf =>
      if decide (length buf = 0%nat) then (RHINO_INV_PARAM, Some rb) else
      match ty with
      | None => (RHINO_INV_PARAM, Some rb)
      | Some RINGBUF_TYPE_FIX =>
          if decide (block_size = 0%nat) then (RHINO_INV_PARAM, Some rb) else
          if decide (length buf mod block_size <> 0)%nat then (RHINO_INV_PARAM, Some rb) else
          (RHINO_SUCCESS, Some (ringbuf_init buf RINGBUF_TYPE_FIX block_size))
      | Some RINGBUF_TYPE_DYN => (RHINO_SUCCESS, Some (ringbuf_init buf RINGBUF_TYPE_DYN block_size))
      end
  | _, _ => (RHINO_NULL_PTR, p_ringbuf)
  end.

(** the test of the lengths both pushes make *)
Definition bad_len (rb : k_ringbuf_t) (len : nat) : bool :=
  bool_decide (len = 0%nat) || bool_decide (RINGBUF_LEN_3BYTES_MAXVALUE < Z.of_nat len) ||
  (bool_decide (type rb = RINGBUF_TYPE_FIX) && bool_decide (len <> blk_size rb)).

Definition krhino_ringbuf_push (p_ringbuf : option k_ringbuf_t) (data : option (list Z)) (len : nat)
  : option (kstat_t * option k_ringbuf_t) :=
  match p_ringbuf, data with
  | Some rb, Some data =>
      if bad_len rb len then Some (RHINO_INV_PARAM, Some rb) else
      '(err, rb) ← ringbuf_push rb data len; Some (err, Some rb)
  | _, _ => Some (RHINO_NULL_PTR, p_ringbuf)
  end.

Definition krhino_ringbuf_head_push (p_ringbuf : option k_ringbuf_t) (data : option (list Z)) (len : nat)
  : option (kstat_t * option k_ringbuf_t) :=
  match p_ringbuf, data with
  | Some rb, Some data =>
      if bad_len rb len then Some (RHINO_INV_PARAM, Some rb) else
      '(err, rb) ← ringbuf_head_push rb data len; Some (err, Some rb)
  | _, _ => Some (RHINO_NULL_PTR, p_ringbuf)
  end.

(** [pdata] and [plen] say whether the pointers are given; the bytes are what is written. *)
Definition krhino_ringbuf_pop (p_ringbuf : option k_ringbuf_t) (pdata plen : bool)
  : option (kstat_t * option k_ringbuf_t * list Z) :=
  match p_ringbuf, pdata with
  | Some rb, true =>
      if bool_decide (type rb = RINGBUF_TYPE_DYN) && negb plen then Some (RHINO_INV_PARAM, Some rb, []) else
      '(err, rb, b) ← ringbuf_pop rb; Some (err, Some rb, b)
  | _, _ => Some (RHINO_NULL_PTR, p_ringbuf, [])
  end.

(** The answers are bytes, and a null pointer is answered by the low byte of its status. *)
Definition krhino_ringbuf_is_empty (p_ringbuf : option k_ringbuf_t) : Z :=
  match p_ringbuf with
  | None => wrap 8 (kstat_code RHINO_NULL_PTR)
  | Some rb => if ringbuf_is_empty rb then 1 else 0
  end.

Definition krhino_ringbuf_is_full (p_ringbuf : option k_ringbuf_t) : Z :=
  match p_ringbuf with
  | None => wrap 8 (kstat_code RHINO_NULL_PTR)
  | Some rb => if ringbuf_is_full rb then 1 else 0
  end.

(** ** The header codec *)

Lemma byte_of_bits w i k :
  0 <= i -> 0 <= k -> Z.testbit (byte_of w i) k = Z.testbit w (8 * i + k) && bool_decide (k < 8).
Proof.
  intros. unfold byte_of. change 0xff with (Z.ones 8).
  rewrite Z.land_spec, Z.shiftr_spec by lia. rewrite (Z.add_comm k). f_equal.
  case_bool_decide; [by rewrite Z.ones_spec_low by lia|by rewrite Z.ones_spec_high by lia].
Qed.

Lemma byte_of_range w i : 0 <= byte_of w i < 256.
Proof.
  unfold byte_of. change 0xff with (Z.ones 8). rewrite Z.land_ones by lia.
  apply Z.mod_pos_bound. lia.
Qed.

Lemma byte_of_small w n i : 0 <= i -> 8 <= n -> 0 <= w < 2 ^ (8 * i + n - 8) -> n < 16 -> 
  byte_of w i < 2 ^ (n - 8).
Proof.
  intros Hi Hn Hw Hn'. unfold byte_of. change 0xff with (Z.ones 8).
  rewrite Z.land_ones, Z.shiftr_div_pow2 by lia.
  assert (0 < 2 ^ (8 * i)) by (apply pow2_pos; lia).
  assert (0 <= w / 2 ^ (8 * i)) by (apply Z.div_pos; lia).
  eapply Z.le_lt_trans; [apply Z.mod_le; lia|]. apply Z.div_lt_upper_bound; [lia|].
  rewrite <- Z.pow_add_r by lia. replace (8 * i + (n - 8)) with (8 * i + n - 8) by lia. lia.
Qed.

Lemma ntohl_bits x n :
  0 <= n < 32 -> Z.testbit (krhino_ntohl x) n = Z.testbit x (8 * (3 - n / 8) + n mod 8).
Proof.
  intros. unfold krhino_ntohl.
  rewrite !Z.lor_spec, !Z.shiftl_spec, !Z.shiftr_spec, !Z.land_spec by lia.
  each_below n 32%nat; eval_bits; by rewrite ?andb_false_r, ?andb_true_r, ?orb_false_r.
Qed.

Lemma ntohl_bits_high x n : 32 <= n -> Z.testbit (krhino_ntohl x) n = false.
Proof.
  intros. unfold krhino_ntohl.
  rewrite !Z.lor_spec, !Z.shiftl_spec, !Z.shiftr_spec, !Z.land_spec by lia.
  rewrite (testbit_above 8 0xff), (testbit_above 16 0xff00), (testbit_above 24 0xff0000),
    (testbit_above 32 0xff000000) by lia. by rewrite !andb_false_r.
Qed.

Lemma byte_ntohl x i : 0 <= i < 4 -> byte_of (krhino_ntohl x) i = byte_of x (3 - i).
Proof.
  intros Hi. apply Z.bits_inj'. intros k Hk. rewrite !byte_of_bits by lia.
  case_bool_decide; [|by rewrite !andb_false_r]. rewrite ntohl_bits by lia.
  do 2 f_equal. each_below i 4%nat; each_below k 8%nat; done.
Qed.

Lemma le_word_bits b0 b1 b2 b3 n :
  0 <= b0 < 256 -> 0 <= b1 < 256 -> 0 <= b2 < 256 -> 0 <= b3 < 256 -> 0 <= n < 32 ->
  Z.testbit (krhino_ntohl (le_word b0 b1 b2 b3)) n =
    if decide (n < 8) then Z.testbit b3 n
    else if decide (n < 16) then Z.testbit b2 (n - 8)
    else if decide (n < 24) then Z.testbit b1 (n - 16) else Z.testbit b0 (n - 24).
Proof.
  intros H0 H1 H2 H3 Hn. rewrite ntohl_bits by done. unfold le_word.
  rewrite !Z.lor_spec, !Z.shiftl_spec by (each_below n 32%nat; done).
  assert (Hh : forall b i, 0 <= b < 256 -> 8 <= i -> Z.testbit b i = false)
    by (intros; by apply (testbit_above 8)).
  each_below n 32%nat; cbn [decide]; eval_bits;
    rewrite ?(Hh b0), ?(Hh b1), ?(Hh b2), ?(Hh b3) by lia;
    rewrite ?orb_false_l, ?orb_false_r; done.
Qed.

Lemma be_word_inj x b0 b1 b2 b3 :
  0 <= x < 2 ^ 32 ->
  b0 = byte_of x 3 -> b1 = byte_of x 2 -> b2 = byte_of x 1 -> b3 = byte_of x 0 ->
  krhino_ntohl (le_word b0 b1 b2 b3) = x.
Proof.
  intros Hx -> -> -> ->. apply Z.bits_inj'. intros n Hn.
  destruct (decide (n < 32)).
  - rewrite le_word_bits by (apply byte_of_range || lia). 
    repeat case_decide; rewrite byte_of_bits, bool_decide_true by lia; rewrite andb_true_r;
      f_equal; lia.
  - rewrite ntohl_bits_high by lia. symmetry. apply (testbit_above 32); lia.
Qed.

(** The header of a message of [n] bytes. *)
Definition header (n : nat) : list Z :=
  let '(k, c) := ringbuf_headlen_compress (Z.of_nat n) in take k c.

Definition msg_len_ok (n : nat) : Prop := Z.of_nat n <= RINGBUF_LEN_3BYTES_MAXVALUE.

Lemma byte_of_ntohl_wrap n i :
  0 <= i < 4 -> 0 <= n < 2 ^ 32 -> byte_of (krhino_ntohl (wrap 32 n)) i = byte_of n (3 - i).
Proof. intros. rewrite wrap_small by lia. by apply byte_ntohl. Qed.

Lemma tag_bits b :
  0 <= b < 64 ->
  Z.land (Z.lor 0x80 b) 0x80 <> 0 /\ Z.land (Z.lor 0x80 b) 0xC0 = 0x80 /\
  Z.land (Z.lor 0x80 b) 0x3f = b /\
  Z.land (Z.lor 0xC0 b) 0x80 <> 0 /\ Z.land (Z.lor 0xC0 b) 0xC0 = 0xC0 /\
  Z.land (Z.lor 0xC0 b) 0x3f = b.
Proof. intros. each_below b 64%nat; vm_compute; done. Qed.

Lemma byte_of_zero n i : 0 <= i -> 0 <= n < 2 ^ (8 * i) -> byte_of n i = 0.
Proof.
  intros Hi Hn. unfold byte_of. rewrite Z.shiftr_div_pow2, Z.div_small by lia. done.
Qed.

Lemma header_cases n :
  msg_len_ok n ->
  let z := Z.of_nat n in
  (z < 128 /\ header n = [z]) \/
  (128 <= z < 2 ^ 14 /\ header n = [Z.lor 0x80 (byte_of z 1); byte_of z 0] /\
   0 <= byte_of z 1 < 64) \/
  (2 ^ 14 <= z < 2 ^ 22 /\ header n = [Z.lor 0xC0 (byte_of z 2); byte_of z 1; byte_of z 0] /\
   0 <= byte_of z 2 < 64).
Proof.
  intros Hok z. assert (Hz : 0 <= z <= 4194303) by (unfold msg_len_ok, RINGBUF_LEN_3BYTES_MAXVALUE in Hok; lia).
  assert (Hb : forall i, 0 <= i <= 2 -> z < 2 ^ (8 * i + 6) -> 0 <= byte_of z i < 64).
  { intros i Hi Hlt. split; [apply byte_of_range|]. apply (byte_of_small z 14 i); try lia.
    replace (8 * i + 14 - 8) with (8 * i + 6) by lia. lia. }
  unfold header, ringbuf_headlen_compress. fold z.
  rewrite !byte_of_ntohl_wrap by lia. cbn -[byte_of Z.lor Z.land Z.pow].
  unfold COMPRESS_LEN, RINGBUF_LEN_1BYTE_MAXVALUE, RINGBUF_LEN_2BYTES_MAXVALUE,
    RINGBUF_LEN_3BYTES_MAXVALUE.
  repeat case_decide; try lia; cbn -[byte_of Z.lor Z.land Z.pow].
  - left. split; [lia|]. f_equal. unfold byte_of. change (0x7f) with (Z.ones 7) at 1.
    change 0xff with (Z.ones 8). rewrite (Z.land_comm (Z.ones 7)), !Z.land_ones by lia.
    change (8 * (3 - 3)) with 0. rewrite Z.shiftr_0_r.
    by rewrite (Z.mod_small z), Z.mod_small by lia.
  - right; left. split; [lia|]. split; [done|]. apply (Hb 1); [lia|]. cbn. lia.
  - right; right. split; [lia|]. split; [done|]. apply (Hb 2); [lia|]. cbn. lia.
Qed.

Lemma length_header_bounds n : msg_len_ok n -> (1 <= length (header n) <= 3)%nat.
Proof.
  intros Hn. by destruct (header_cases n Hn) as [[_ ->]|[(_ & -> & _)|(_ & -> & _)]]; cbn; lia.
Qed.

Lemma header_compress n :
  msg_len_ok n -> exists c, ringbuf_headlen_compress (Z.of_nat n) = (length (header n), c).
Proof.
  intros Hn. unfold header, ringbuf_headlen_compress, COMPRESS_LEN. unfold msg_len_ok in Hn.
  destruct (decide (Z.of_nat n <= RINGBUF_LEN_1BYTE_MAXVALUE)); [by eexists|].
  destruct (decide (Z.of_nat n <= RINGBUF_LEN_2BYTES_MAXVALUE)); [by eexists|].
  rewrite decide_True by done. by eexists.
Qed.

(** The header determines its own length from its first byte, and the message's. *)
Lemma header_roundtrip n :
  msg_len_ok n ->
  exists b0 rest, header n = b0 :: rest /\ header_len b0 = Some (length (header n)) /\
    ringbuf_headlen_decompress (length (header n)) (header n) = Z.of_nat n.
Proof.
  intros Hn. assert (Hz : 0 <= Z.of_nat n < 2 ^ 22) by (unfold msg_len_ok, RINGBUF_LEN_3BYTES_MAXVALUE in Hn; lia).
  destruct (header_cases n Hn) as [[Hl ->]|[(Hl & -> & Hb)|(Hl & -> & Hb)]];
    eexists _, _; (split; [done|]); unfold header_len, ringbuf_headlen_decompress;
    cbn -[byte_of Z.lor Z.land krhino_ntohl le_word].
  - assert (Z.land (Z.of_nat n) 0x80 = 0) as ->.
    { apply Z.bits_inj'. intros i Hi. rewrite Z.land_spec, Z.testbit_0_l.
      destruct (decide (i < 7)).
      + each_below i 7%nat; by rewrite andb_false_r.
      + rewrite (testbit_above 7 (Z.of_nat n)) by lia. done. }
    split; [by rewrite decide_True|].
    apply be_word_inj; [lia|symmetry..]; try (apply byte_of_zero; lia).
    unfold byte_of. change 0xff with (Z.ones 8). rewrite Z.land_ones, Z.shiftr_0_r by lia.
    rewrite decide_False by lia. rewrite Z.mod_small; [done|lia].
  - destruct (tag_bits _ Hb) as (? & ? & ? & _).
    rewrite decide_False, decide_True by done. split; [done|].
    apply be_word_inj; [lia|symmetry..]; try (apply byte_of_zero; lia); done.
  - destruct (tag_bits _ Hb) as (_ & _ & _ & ? & Hc & ?).
    rewrite decide_False, Hc by done. rewrite decide_False, decide_True by done.
    split; [done|].
    apply be_word_inj; [lia|symmetry..]; try (apply byte_of_zero; lia); done.
Qed.

(** ** The stored byte sequence *)

(** [i] positions after [head], going round; defined for positions below twice the size. *)
Definition idx (cap k : nat) : nat := if decide (k < cap)%nat then k else (k - cap)%nat.

Definition used (rb : k_ringbuf_t) : nat := (rend rb - freesize rb)%nat.

Definition contents (rb : k_ringbuf_t) : list Z :=
  (fun i => mem rb !!! idx (rend rb) (head rb + i)) <$> seq 0 (used rb).

(** Both ends lie in the buffer and [tail] is [used] bytes after [head], up to the lazy
    normalisation of [end] to [buf]. *)
Definition rb_wf (rb : k_ringbuf_t) : Prop :=
  (0 < rend rb /\ head rb <= rend rb /\ tail rb <= rend rb /\ freesize rb <= rend rb /\
   (tail rb = head rb + used rb \/ tail rb + rend rb = head rb + used rb \/
    tail rb = head rb + used rb + rend rb \/ tail rb + 2 * rend rb = head rb + used rb))%nat.

Lemma length_contents rb : length (contents rb) = used rb.
Proof. unfold contents. by rewrite length_fmap, length_seq. Qed.

Lemma contents_lookup rb i :
  rb_wf rb -> contents rb !! i =
    if decide (i < used rb)%nat then mem rb !! idx (rend rb) (head rb + i) else None.
Proof.
  intros (Hc & Hh & Ht & Hf & _). unfold contents. rewrite list_lookup_fmap.
  case_decide as Hi.
  - rewrite lookup_seq_lt by lia. cbn. symmetry. apply list_lookup_lookup_total_lt.
    unfold used, idx, rend in *. case_decide; lia.
  - rewrite lookup_seq_ge by lia. done.
Qed.

Lemma mem_write_spec m off b :
  (off + length b <= length m)%nat ->
  exists m', mem_write m off b = Some m' /\ length m' = length m /\
    forall j, m' !! j = if decide (off <= j < off + length b)%nat
                        then b !! (j - off)%nat else m !! j.
Proof.
  intros Hl. unfold mem_write. rewrite decide_True by done. eexists; split; [done|]. split.
  - rewrite !length_app, length_take, length_drop. lia.
  - intros j. case_decide as Hj.
    + rewrite lookup_app_r; rewrite length_take; [|lia].
      rewrite lookup_app_l by lia. f_equal. lia.
    + destruct (decide (j < off)%nat).
      * rewrite lookup_app_l, lookup_take_lt by (rewrite ?length_take; lia). done.
      * rewrite lookup_app_r; rewrite length_take; [|lia].
        rewrite lookup_app_r by lia. rewrite lookup_drop. f_equal. lia.
Qed.

Lemma mem_read_spec m off n :
  (off + n <= length m)%nat ->
  exists b, mem_read m off n = Some b /\ length b = n /\
    forall j, (j < n)%nat -> b !! j = m !! (off + j)%nat.
Proof.
  intros Hl. unfold mem_read. rewrite decide_True by done. eexists; split; [done|]. split.
  - rewrite length_take, length_drop. lia.
  - intros j Hj. by rewrite lookup_take_lt, lookup_drop by lia.
Qed.

Lemma mem_read_all m : mem_read m 0 (length m) = Some m.
Proof. unfold mem_read. rewrite decide_True by lia. by rewrite drop_0, firstn_all. Qed.

(** Same configuration: what no operation changes. *)
Definition same_shape (rb rb' : k_ringbuf_t) : Prop :=
  rend rb' = rend rb /\ type rb' = type rb /\ blk_size rb' = blk_size rb.

#[export] Instance same_shape_preorder : PreOrder same_shape.
Proof. split; [done|]. intros ? ? ? (? & ? & ?) (? & ? & ?). repeat split; congruence. Qed.

Lemma norm_tail_spec rb :
  rb_wf rb -> rb_wf (norm_tail rb) /\ contents (norm_tail rb) = contents rb /\
    (tail (norm_tail rb) < rend rb)%nat /\ same_shape rb (norm_tail rb) /\
    freesize (norm_tail rb) = freesize rb /\ head (norm_tail rb) = head rb.
Proof.
  destruct rb as [m h t f ty b]. intros Hwf. unfold norm_tail. cbn.
  unfold rb_wf, same_shape, contents, used, rend in *; cbn in *. case_decide; cbn; repeat split; lia || done.
Qed.

Lemma norm_head_spec rb :
  rb_wf rb -> rb_wf (norm_head rb) /\ contents (norm_head rb) = contents rb /\
    (head (norm_head rb) < rend rb)%nat /\ same_shape rb (norm_head rb) /\
    freesize (norm_head rb) = freesize rb /\ tail (norm_head rb) = tail rb.
Proof.
  destruct rb as [m h t f ty b]. intros Hwf. unfold norm_head. cbn.
  case_decide as Hd; [|unfold rb_wf, same_shape, contents, used, rend in *; cbn in *; repeat split; lia || done].
  unfold rb_wf, same_shape, used, rend in *; cbn in *. repeat split; try lia.
  unfold contents, used, rend; cbn. apply list_fmap_ext. intros i j Hj.
  apply lookup_seq in Hj as [-> Hi]. f_equal. unfold idx. repeat case_decide; lia.
Qed.

Lemma push_split_spec rb bytes :
  rb_wf rb -> (tail rb < rend rb)%nat -> (length bytes <= freesize rb)%nat ->
  exists rb', push_split rb bytes = Some rb' /\ rb_wf rb' /\ same_shape rb rb' /\
    contents rb' = contents rb ++ bytes /\ freesize rb' = (freesize rb - length bytes)%nat /\
    head rb' = head rb.
Proof.
  intros Hwf Ht Hlen. pose proof Hwf as (Hc & Hh & _ & Hf & Hg). unfold push_split.
  assert (Hfin : forall m' t', length m' = length (mem rb) ->
    (forall i, (i < used rb)%nat -> m' !! idx (rend rb) (head rb + i) = mem rb !! idx (rend rb) (head rb + i)) ->
    (forall i, (i < length bytes)%nat -> m' !! idx (rend rb) (head rb + (used rb + i)) = bytes !! i) ->
    forall rb', rb' = mk_ringbuf m' (head rb) t' (freesize rb - length bytes) (type rb) (blk_size rb) ->
    rb_wf rb' -> rb_wf rb' /\ same_shape rb rb' /\ contents rb' = contents rb ++ bytes /\
      freesize rb' = (freesize rb - length bytes)%nat /\ head rb' = head rb).
  { intros m' t' Hl Hold Hnew rb' -> Hwf'. split; [done|]. split; [done|]. split; [|done].
    apply list_eq. intros i. rewrite contents_lookup by done.
    unfold used in *; unfold rend in *; cbn in *. rewrite Hl.
    destruct (decide (i < length (mem rb) - freesize rb)%nat).
    - rewrite decide_True, lookup_app_l, contents_lookup by (rewrite ?length_contents; unfold used, rend; done || lia).
      unfold used, rend. rewrite decide_True by done. by apply Hold.
    - rewrite lookup_app_r by (rewrite length_contents; unfold used, rend; lia).
      rewrite length_contents. unfold used, rend. case_decide.
      + rewrite <- Hnew by lia. do 2 f_equal. lia.
      + symmetry. apply lookup_ge_None_2. lia. }
  case_decide as Hd.
  - destruct (mem_write_spec (mem rb) (tail rb) (take (rend rb - tail rb) bytes)) as (m1 & -> & Hl1 & Hm1).
    { rewrite length_take. unfold rend in *. lia. }
    cbn. destruct (mem_write_spec m1 0 (drop (rend rb - tail rb) bytes)) as (m2 & -> & Hl2 & Hm2).
    { rewrite length_drop. unfold rend in *. lia. }
    cbn. rewrite length_take in Hm1. rewrite length_drop in Hm2.
    eexists; split; [done|].
    apply (Hfin m2 (length bytes - (rend rb - tail rb))%nat).
    + lia.
    + intros i Hi. rewrite Hm2, Hm1. unfold idx, used, rend in *.
      repeat case_decide; try lia; done.
    + intros i Hi. rewrite Hm2, Hm1. unfold idx, used, rend in *.
      repeat case_decide; try lia; rewrite ?lookup_drop, ?lookup_take_lt by lia; f_equal; lia.
    + unfold upd; cbn. f_equal. lia.
    + unfold rb_wf, used, rend in *; cbn in *. lia.
  - destruct (mem_write_spec (mem rb) (tail rb) bytes) as (m1 & -> & Hl1 & Hm1).
    { unfold used, rend in *. lia. }
    cbn. eexists; split; [done|].
    apply (Hfin m1 (tail rb + length bytes)%nat); try done.
    + intros i Hi. rewrite Hm1. unfold idx, used, rend in *. repeat case_decide; try lia; done.
    + intros i Hi. rewrite Hm1. unfold idx, used, rend in *.
      repeat case_decide; try lia; f_equal; lia.
    + unfold rb_wf, used, rend in *; cbn in *. lia.
Qed.

Lemma take_contents rb n :
  rb_wf rb -> (n <= used rb)%nat ->
  forall b, length b = n ->
    (forall j, (j < n)%nat -> b !! j = mem rb !! idx (rend rb) (head rb + j)) ->
    b = take n (contents rb).
Proof.
  intros Hwf Hn b Hl Hb. apply list_eq. intros j.
  destruct (decide (j < n)%nat).
  - rewrite Hb, lookup_take_lt, contents_lookup, decide_True by (done || lia). done.
  - rewrite !lookup_ge_None_2; rewrite ?length_take; done || lia.
Qed.

(** Moving [head] forward by [n] bytes leaves the rest of the sequence. *)
Lemma advance_head rb n h' :
  rb_wf rb -> (n <= used rb)%nat -> (head rb < rend rb)%nat ->
  (h' = head rb + n \/ h' + rend rb = head rb + n)%nat -> (h' <= rend rb)%nat ->
  let rb' := rb <| head := h' |> <| freesize := (freesize rb + n)%nat |> in
  rb_wf rb' /\ same_shape rb rb' /\ contents rb' = drop n (contents rb).
Proof.
  intros Hwf Hn Hh Hh' Hle rb'. pose proof Hwf as (Hc & _ & Ht & Hf & Hg).
  assert (Hwf' : rb_wf rb') by (unfold rb_wf, used, rend in *; cbn in *; lia).
  split; [done|]. split; [done|].
  apply list_eq. intros i. rewrite lookup_drop, !contents_lookup by done.
  unfold used, rend in *; cbn in *. repeat case_decide; try lia; try done.
  f_equal. unfold idx. repeat case_decide; lia.
Qed.

Lemma pop_split_spec rb n w :
  rb_wf rb -> (head rb < rend rb)%nat -> (n <= used rb)%nat ->
  (rend rb < head rb + n -> w = true)%nat ->
  exists rb', pop_split rb n w = Some (take n (contents rb), rb') /\ rb_wf rb' /\
    same_shape rb rb' /\ contents rb' = drop n (contents rb) /\ tail rb' = tail rb /\
    freesize rb' = (freesize rb + n)%nat.
Proof.
  intros Hwf Hh Hn Hw. pose proof Hwf as (Hc & _ & Ht & Hf & Hg). unfold pop_split.
  case_decide as Hd.
  - destruct (mem_read_spec (mem rb) (head rb) (rend rb - head rb)) as (b1 & -> & Hl1 & Hb1).
    { unfold rend in *. lia. }
    cbn. destruct (mem_read_spec (mem rb) 0 (n - (rend rb - head rb))) as (b2 & -> & Hl2 & Hb2).
    { unfold used, rend in *. lia. }
    cbn. eexists; split; [do 2 f_equal|].
    + apply take_contents; [done..| |].
      * rewrite length_app. lia.
      * intros j Hj. unfold idx, used in *. destruct (decide (j < rend rb - head rb)%nat).
        -- rewrite lookup_app_l, Hb1, decide_True by lia. done.
        -- rewrite lookup_app_r, Hl1, Hb2, decide_False by lia. f_equal. lia.
    + destruct (advance_head rb n (n - (rend rb - head rb))) as (? & ? & Hcd); try done;
        [unfold used in *; lia..|].
      replace (freesize rb + (rend rb - head rb) + (n - (rend rb - head rb)))%nat
        with (freesize rb + n)%nat by lia. done.
  - destruct (mem_read_spec (mem rb) (head rb) n) as (b & -> & Hl & Hb).
    { destruct w; [|assert (~ (rend rb < head rb + n)%nat) by (intros ?%Hw; done)];
      unfold rend in *; lia. }
    cbn. assert (head rb + n <= rend rb)%nat.
    { destruct w; [lia|]. assert (~ (rend rb < head rb + n)%nat) by (intros ?%Hw; done). lia. }
    eexists; split; [do 2 f_equal|].
    + apply take_contents; [done..|]. intros j Hj. rewrite Hb by done.
      unfold idx. rewrite decide_True by lia. done.
    + destruct (advance_head rb n (head rb + n)) as (? & ? & ?); try done. lia.
Qed.

(** ** The abstract queue of messages *)

(** The bytes a message occupies. *)
Definition encode (rb : k_ringbuf_t) (m : list Z) : list Z :=
  match type rb with
  | RINGBUF_TYPE_DYN => header (length m) ++ m
  | RINGBUF_TYPE_FIX => m
  end.

Definition msg_ok (rb : k_ringbuf_t) (m : list Z) : Prop :=
  match type rb with
  | RINGBUF_TYPE_DYN => msg_len_ok (length m)
  | RINGBUF_TYPE_FIX => length m = blk_size rb
  end.

(** Blocks of a fixed-size buffer never straddle its end. *)
Definition aligned (rb : k_ringbuf_t) : Prop :=
  type rb = RINGBUF_TYPE_FIX ->
  (0 < blk_size rb)%nat /\ exists c h t, rend rb = (c * blk_size rb)%nat /\
    head rb = (h * blk_size rb)%nat /\ tail rb = (t * blk_size rb)%nat.

(** The buffer stores exactly the messages [msgs], oldest first. *)
Definition holds (rb : k_ringbuf_t) (msgs : list (list Z)) : Prop :=
  rb_wf rb /\ aligned rb /\ Forall (msg_ok rb) msgs /\
  contents rb = concat (encode rb <$> msgs).

(** Bytes taken by a queue of messages, and whether one more fits. *)
Definition occupied (rb : k_ringbuf_t) (msgs : list (list Z)) : nat :=
  length (concat (encode rb <$> msgs)).

Definition fits (rb : k_ringbuf_t) (msgs : list (list Z)) (m : list Z) : bool :=
  bool_decide (occupied rb msgs + length (encode rb m) <= rend rb)%nat.

Lemma same_shape_encode rb rb' : same_shape rb rb' -> encode rb' = encode rb /\ msg_ok rb' = msg_ok rb.
Proof. intros (_ & Ht & Hb). unfold encode, msg_ok. by rewrite Ht, Hb. Qed.

Lemma holds_occupied rb msgs : holds rb msgs -> (occupied rb msgs + freesize rb = rend rb)%nat.
Proof.
  intros ((_ & _ & _ & Hf & _) & _ & _ & Hc). unfold occupied. rewrite <- Hc, length_contents.
  unfold used. lia.
Qed.

Lemma norm_tail_aligned rb : aligned rb -> aligned (norm_tail rb).
Proof.
  intros Ha. unfold norm_tail. case_decide; [|done]. intros Hty.
  destruct (Ha Hty) as (? & c & h & t & ? & ? & ?). split; [done|]. by exists c, h, 0%nat.
Qed.

Lemma norm_head_aligned rb : aligned rb -> aligned (norm_head rb).
Proof.
  intros Ha. unfold norm_head. case_decide; [|done]. intros Hty.
  destruct (Ha Hty) as (? & c & h & t & ? & ? & ?). split; [done|]. by exists c, 0%nat, t.
Qed.

Lemma holds_snoc rb rb' msgs m :
  holds rb msgs -> rb_wf rb' -> aligned rb' -> same_shape rb rb' -> msg_ok rb m ->
  contents rb' = contents rb ++ encode rb m -> holds rb' (msgs ++ [m]).
Proof.
  intros (Hwf & Ha & Hm & Hc) Hwf' Ha' Hs Hok Hc'. destruct (same_shape_encode _ _ Hs) as [He Ho].
  split; [done|]. split; [done|]. rewrite He, Ho. split; [by apply Forall_app; auto|].
  rewrite fmap_app, concat_app, Hc', Hc. cbn. by rewrite app_nil_r.
Qed.

Lemma holds_tail rb rb' msgs m :
  holds rb (m :: msgs) -> rb_wf rb' -> aligned rb' -> same_shape rb rb' ->
  contents rb' = drop (length (encode rb m)) (contents rb) -> holds rb' msgs.
Proof.
  intros (Hwf & Ha & Hm & Hc) Hwf' Ha' Hs Hc'. destruct (same_shape_encode _ _ Hs) as [He Ho].
  apply Forall_cons in Hm as [_ Hm].
  split; [done|]. split; [done|]. rewrite He, Ho. split; [done|].
  rewrite Hc', Hc. cbn. by rewrite drop_app_length.
Qed.

Lemma aligned_dyn rb rb' : type rb = RINGBUF_TYPE_DYN -> same_shape rb rb' -> aligned rb'.
Proof. intros Hd (_ & Ht & _) Hty. congruence. Qed.

Lemma fix_room rb :
  aligned rb -> type rb = RINGBUF_TYPE_FIX ->
  ((tail rb < rend rb -> tail rb + blk_size rb <= rend rb) /\
   (head rb < rend rb -> head rb + blk_size rb <= rend rb))%nat.
Proof.
  intros Ha Hty. destruct (Ha Hty) as (Hb & c & h & t & -> & -> & ->).
  assert (Hm : forall a, (a * blk_size rb < c * blk_size rb -> a * blk_size rb + blk_size rb <= c * blk_size rb)%nat).
  { intros a Hlt%Nat.mul_lt_mono_pos_r; [|done].
    pose proof (Nat.mul_le_mono_r (S a) c (blk_size rb) ltac:(lia)). lia. }
  split; apply Hm.
Qed.

(** ** Push and pop implement the bounded queue *)

Lemma push_fix_spec rb bytes :
  rb_wf rb -> aligned rb -> type rb = RINGBUF_TYPE_FIX -> (tail rb < rend rb)%nat ->
  length bytes = blk_size rb -> (blk_size rb <= freesize rb)%nat ->
  exists m', mem_write (mem rb) (tail rb) bytes = Some m' /\
    let rb' := rb <| mem := m' |> <| tail := (tail rb + blk_size rb)%nat |>
                  <| freesize := (freesize rb - blk_size rb)%nat |> in
    rb_wf rb' /\ aligned rb' /\ same_shape rb rb' /\ contents rb' = contents rb ++ bytes.
Proof.
  intros Hwf Ha Hty Ht Hl Hf. destruct (fix_room rb Ha Hty) as [Hroom _]. specialize (Hroom Ht).
  destruct (push_split_spec rb bytes Hwf Ht ltac:(lia)) as (rb' & Hp & Hwf' & Hs' & Hc' & _ & _).
  unfold push_split in Hp. rewrite decide_False in Hp by lia.
  destruct (mem_write _ _ _) as [m'|]; [|done]. cbn in Hp. injection Hp as <-.
  exists m'. rewrite <- Hl. split; [done|]. split; [done|]. split; [|done].
  intros _. destruct (Ha Hty) as (Hb & c & h & t & Hc & Hh & Htt). split; [done|].
  exists c, h, (S t). destruct Hs' as (Hs' & _). rewrite Hs'. cbn. repeat split; try done. lia.
Qed.

Lemma push_dyn_spec rb msgs m :
  holds rb msgs -> type rb = RINGBUF_TYPE_DYN -> msg_len_ok (length m) ->
  (length (encode rb m) <= freesize rb)%nat ->
  exists rb', (rb1 ← push_split (norm_tail rb) (header (length m)); push_split (norm_tail rb1) m)
    = Some rb' /\ holds rb' (msgs ++ [m]) /\ same_shape rb rb'.
Proof.
  intros Hh Hty Hok Hlen. unfold encode in Hlen. rewrite Hty, length_app in Hlen.
  pose proof Hh as (Hwf & _).
  destruct (norm_tail_spec rb Hwf) as (Hwf0 & Hc0 & Ht0 & Hs0 & Hf0 & _).
  destruct (push_split_spec (norm_tail rb) (header (length m)) Hwf0) as
    (rb1 & -> & Hwf1 & Hs1 & Hc1 & Hf1 & _); [destruct Hs0; lia|lia|]. cbn.
  destruct (norm_tail_spec rb1 Hwf1) as (Hwf2 & Hc2 & Ht2 & Hs2 & Hf2 & _).
  destruct (push_split_spec (norm_tail rb1) m Hwf2) as
    (rb3 & -> & Hwf3 & Hs3 & Hc3 & _ & _); [destruct Hs2; lia|lia|].
  exists rb3. split; [done|].
  assert (Hs : same_shape rb rb3) by (do 3 (etrans; [done|]); done). split; [|done].
  eapply (holds_snoc rb); try done; [by apply (aligned_dyn rb)|by unfold msg_ok; rewrite Hty|].
  unfold encode. rewrite Hty, Hc3, Hc2, Hc1, Hc0. by rewrite app_assoc.
Qed.

(** On a buffer that stores [msgs], a push appends the message exactly when its encoding
    fits in the free bytes; otherwise it reports a full buffer and changes nothing. *)
Lemma ringbuf_push_enqueues (rb : k_ringbuf_t) (msgs : list (list Z)) (m : list Z)
    (Hh : holds rb msgs) (Hm : msg_ok rb m) (Hne : (0 < length m)%nat) :
  if fits rb msgs m
  then exists rb', ringbuf_push rb m (length m) = Some (RHINO_SUCCESS, rb') /\
         holds rb' (msgs ++ [m]) /\ same_shape rb rb'
  else ringbuf_push rb m (length m) = Some (RHINO_RINGBUF_FULL, rb).
Proof.
  pose proof (holds_occupied rb msgs Hh) as Hocc. pose proof Hh as (Hwf & Ha & _ & _).
  assert (Hfits : fits rb msgs m = bool_decide (length (encode rb m) <= freesize rb)%nat).
  { unfold fits. apply bool_decide_ext. lia. }
  rewrite Hfits; clear Hfits. unfold ringbuf_push, ringbuf_is_full, msg_ok in *. destruct (type rb) eqn:Hty.
  - assert (He : length (encode rb m) = blk_size rb) by (unfold encode; by rewrite Hty).
    rewrite He. case_bool_decide as Hb; case_bool_decide; try lia; [|done].
    destruct (norm_tail_spec rb Hwf) as (Hwf0 & Hc0 & Ht0 & Hs0 & Hf0 & _).
    pose proof Hs0 as (Hr0 & Hy0 & Hz0). rewrite Hz0, <- Hm, mem_read_all. cbn.
    destruct (push_fix_spec (norm_tail rb) m) as (m' & -> & Hwf1 & Ha1 & Hs1 & Hc1);
      try done || congruence || lia; [by apply norm_tail_aligned|].
    cbv zeta in *. cbn [mbind option_bind]. rewrite Hz0, <- Hm in Hwf1, Ha1, Hs1, Hc1.
    eexists; split; [done|]. split; [|by etrans].
    eapply (holds_snoc rb); try done.
    + by etrans.
    + unfold msg_ok. by rewrite Hty.
    + rewrite Hc1, Hc0. unfold encode. by rewrite Hty.
  - pose proof (length_header_bounds _ Hm) as Hhl.
    assert (He : length (encode rb m) = (length (header (length m)) + length m)%nat).
    { unfold encode. by rewrite Hty, length_app. }
    unfold header in Hhl, He |- *. destruct (ringbuf_headlen_compress _) as [k c] eqn:Hcmp.
    assert (Hk : length (take k c) = k).
    { destruct (header_compress _ Hm) as [c' Hc']. unfold header in Hc'.
      rewrite Hcmp in Hc'. congruence. }
    rewrite Hk in *. unfold RINGBUF_LEN_MAX_SIZE.
    rewrite He. case_bool_decide as Hb; case_bool_decide as Hfull; try lia; [|done|].
    + rewrite decide_False, decide_False by lia.
      destruct (push_dyn_spec rb msgs m Hh Hty Hm) as (rb' & Hp & Hh');
        [unfold encode, header; rewrite Hty, Hcmp, length_app; lia|].
      unfold header in Hp. rewrite Hcmp in Hp.
      destruct (push_split (norm_tail rb) _) as [rb1|]; [|done]. cbn in *.
      rewrite mem_read_all. cbn. rewrite Hp. cbn. by exists rb'.
    + rewrite decide_False, decide_True by lia. done.
Qed.

Lemma holds_nil_empty rb msgs : holds rb msgs -> ringbuf_is_empty rb = bool_decide (msgs = []).
Proof.
  intros Hh. pose proof (holds_occupied rb msgs Hh) as Ho. destruct Hh as ((Hc & _) & Ha & Hm & _).
  unfold ringbuf_is_empty. apply bool_decide_ext. split; [|intros ->; cbn in *; unfold occupied in Ho; cbn in Ho; lia].
  intros Hf. destruct msgs as [|m msgs]; [done|]. exfalso.
  unfold occupied in Ho. cbn in Ho. rewrite length_app in Ho.
  apply Forall_cons in Hm as [Hm _]. unfold msg_ok in Hm. unfold encode at 1 in Ho. destruct (type rb) eqn:Hty.
  - destruct (Ha Hty) as [Hb _]. lia.
  - pose proof (length_header_bounds _ Hm). rewrite length_app in Ho. lia.
Qed.

Lemma contents_head_lookup rb :
  rb_wf rb -> (head rb < rend rb)%nat -> (0 < used rb)%nat ->
  mem rb !! head rb = contents rb !! 0%nat.
Proof.
  intros Hwf Hh Hu. rewrite contents_lookup, decide_True by done.
  unfold idx. by rewrite Nat.add_0_r, decide_True by done.
Qed.

Lemma pop_dyn_spec rb m msgs :
  holds rb (m :: msgs) -> type rb = RINGBUF_TYPE_DYN -> (head rb < rend rb)%nat ->
  exists rb1 rb2,
    pop_split rb (length (header (length m))) (bool_decide (0 < rend rb - head rb)%nat)
      = Some (header (length m), rb1) /\
    pop_split (norm_head rb1) (length m) (bool_decide (tail (norm_head rb1) < head (norm_head rb1))%nat)
      = Some (m, rb2) /\ holds rb2 msgs /\ same_shape rb rb2.
Proof.
  intros Hh Hty Hhd. pose proof (holds_occupied _ _ Hh) as Ho. pose proof Hh as (Hwf & _ & Hm & Hc).
  apply Forall_cons in Hm as [Hm _]. unfold msg_ok in Hm. rewrite Hty in Hm.
  pose proof (length_header_bounds _ Hm) as Hl.
  assert (He : encode rb m = header (length m) ++ m) by (unfold encode; by rewrite Hty).
  assert (Hu : (length (header (length m)) + length m <= used rb)%nat).
  { unfold used. unfold occupied in Ho. cbn in Ho. rewrite He, !length_app in Ho. lia. }
  cbn in Hc. rewrite He, <- app_assoc in Hc.
  destruct (pop_split_spec rb (length (header (length m))) (bool_decide (0 < rend rb - head rb)%nat))
    as (rb1 & Hp1 & Hwf1 & Hs1 & Hc1 & Ht1 & Hf1); [done..|lia| |].
  { intros _. apply bool_decide_true. lia. }
  destruct (norm_head_spec rb1 Hwf1) as (Hwf2 & Hc2 & Hh2 & Hs2 & Hf2 & Ht2).
  assert (Hcon : contents (norm_head rb1) = m ++ concat (encode rb <$> msgs)).
  { by rewrite Hc2, Hc1, Hc, drop_app_length. }
  pose proof Hwf2 as (_ & _ & Htl & Hfr & Hg). pose proof (length_contents (norm_head rb1)) as Hlc.
  rewrite Hcon, length_app in Hlc.
  destruct (pop_split_spec (norm_head rb1) (length m)
    (bool_decide (tail (norm_head rb1) < head (norm_head rb1))%nat))
    as (rb2 & Hp2 & Hwf3 & Hs3 & Hc3 & _ & _); [done|..].
  { destruct Hs2; lia. }
  { lia. }
  { intros Hlt. apply bool_decide_true. unfold used in *. destruct Hs2; lia. }
  exists rb1, rb2. split; [rewrite Hp1, Hc, take_app_length; done|].
  split; [rewrite Hp2, Hcon, take_app_length; done|].
  assert (Hs : same_shape rb rb2) by (do 2 (etrans; [done|]); done). split; [|done].
  eapply (holds_tail rb); try done; [by apply (aligned_dyn rb)|].
  rewrite Hc3, Hcon, drop_app_length, Hc, He, app_assoc, drop_app_length. done.
Qed.

(** A pop returns the oldest message, byte for byte, and leaves the rest; on an empty
    buffer it says so and changes nothing. *)
Lemma ringbuf_pop_dequeues (rb : k_ringbuf_t) (msgs : list (list Z)) (Hh : holds rb msgs) :
  match msgs with
  | [] => ringbuf_pop rb = Some (RHINO_RINGBUF_EMPTY, rb, [])
  | m :: rest => exists rb', ringbuf_pop rb = Some (RHINO_SUCCESS, rb', m) /\ holds rb' rest /\ same_shape rb rb'
  end.
Proof.
  unfold ringbuf_pop. rewrite (holds_nil_empty rb msgs Hh). destruct msgs as [|m msgs]; [done|].
  rewrite bool_decide_false by done. pose proof Hh as (Hwf & Ha & Hm & Hc).
  destruct (norm_head_spec rb Hwf) as (Hwf0 & Hc0 & Hh0 & Hs0 & Hf0 & Ht0).
  destruct (same_shape_encode _ _ Hs0) as [He0 Ho0]. pose proof Hs0 as (Hr0 & Hty0 & Hb0).
  assert (Hhold : holds (norm_head rb) (m :: msgs)).
  { split; [done|]. split; [by apply norm_head_aligned|]. rewrite He0, Ho0, Hc0. done. }
  rewrite <- Hr0 in Hh0. revert Hhold Hh0 Hs0. generalize (norm_head rb) as rb0.
  clear. revert rb. intros rb1 rb Hh Hhd Hs0. pose proof (holds_occupied _ _ Hh) as Ho.
  pose proof Hh as (Hwf & Ha & Hm & Hc). apply Forall_cons in Hm as [Hm _].
  unfold msg_ok in Hm. unfold occupied in Ho. cbn in Hc, Ho. rewrite length_app in Ho.
  destruct (type rb) eqn:Hty.
  - assert (He : encode rb m = m) by (unfold encode; by rewrite Hty). rewrite He in *.
    destruct (fix_room rb Ha Hty) as [_ Hroom]. specialize (Hroom Hhd).
    destruct (pop_split_spec rb (blk_size rb) false Hwf Hhd) as (rb' & Hp & Hwf' & Hs & Hc' & _);
      [unfold used; lia|lia|].
    unfold pop_split in Hp. rewrite decide_False in Hp by (intros [? _]; done).
    destruct (mem_read _ _ _) as [b|]; [|done]. cbn in *. injection Hp as -> <-.
    rewrite Hc, <- Hm, take_app_length. rewrite Hm. eexists; split; [done|].
    split; [|by etrans]. eapply (holds_tail rb); try done; [|by rewrite He, Hm].
    intros _. destruct (Ha Hty) as (Hb & c & h & t & ? & ? & ?). split; [done|].
    exists c, (S h), t. destruct Hs as (-> & _). cbn. repeat split; try done. lia.
  - destruct (pop_dyn_spec rb m msgs Hh Hty Hhd) as (rb2 & rb3 & Hp1 & Hp2 & Hh2 & Hs2).
    pose proof (length_header_bounds _ Hm) as Hl.
    destruct (header_roundtrip _ Hm) as (b0 & rest & Hb0 & Hhl & Hdec).
    assert (mem rb !! head rb = Some b0) as ->.
    { rewrite contents_head_lookup; [|done..|].
      - rewrite Hc. unfold encode. by rewrite Hty, Hb0.
      - unfold used. unfold encode at 1 in Ho. rewrite Hty, length_app in Ho. lia. }
    cbn [mbind option_bind]. rewrite Hhl, Hp1. cbn [mbind option_bind].
    rewrite Hdec, Nat2Z.id, Hp2. cbn [mbind option_bind]. exists rb3.
    split; [done|]. split; [done|by etrans].
Qed.

(** ** Sequences of operations *)

Inductive ring_op := OpPush (m : list Z) | OpPop.

(** The bounded queue a ring buffer implements, and what each operation reports. *)
Definition spec_step (rb : k_ringbuf_t) (q : list (list Z)) (op : ring_op)
  : list (list Z) * (kstat_t * list Z) :=
  match op with
  | OpPush m => if fits rb q m then (q ++ [m], (RHINO_SUCCESS, [])) else (q, (RHINO_RINGBUF_FULL, []))
  | OpPop => match q with
             | [] => (q, (RHINO_RINGBUF_EMPTY, []))
             | m :: q' => (q', (RHINO_SUCCESS, m))
             end
  end.

Fixpoint spec_run (rb : k_ringbuf_t) (q : list (list Z)) (ops : list ring_op)
  : list (list Z) * list (kstat_t * list Z) :=
  match ops with
  | [] => (q, [])
  | op :: ops' =>
      let '(q1, r) := spec_step rb q op in
      let '(q2, rs) := spec_run rb q1 ops' in (q2, r :: rs)
  end.

Definition ring_step (rb : k_ringbuf_t) (op : ring_op) : option (k_ringbuf_t * (kstat_t * list Z)) :=
  match op with
  | OpPush m => '(st, rb') ← ringbuf_push rb m (length m); Some (rb', (st, []))
  | OpPop => '(st, rb', m) ← ringbuf_pop rb; Some (rb', (st, m))
  end.

Fixpoint ring_run (rb : k_ringbuf_t) (ops : list ring_op)
  : option (k_ringbuf_t * list (kstat_t * list Z)) :=
  match ops with
  | [] => Some (rb, [])
  | op :: ops' =>
      '(rb1, r) ← ring_step rb op;
      '(rb2, rs) ← ring_run rb1 ops'; Some (rb2, r :: rs)
  end.

Definition op_ok (rb : k_ringbuf_t) (op : ring_op) : Prop :=
  match op with OpPush m => msg_ok rb m /\ (0 < length m)%nat | OpPop => True end.

Lemma spec_step_shape rb rb' q op : same_shape rb rb' -> spec_step rb' q op = spec_step rb q op.
Proof.
  intros Hs. destruct (same_shape_encode _ _ Hs) as [He _]. destruct Hs as (Hr & _).
  unfold spec_step, fits, occupied. by rewrite He, Hr.
Qed.

Lemma spec_run_shape rb rb' q ops : same_shape rb rb' -> spec_run rb' q ops = spec_run rb q ops.
Proof.
  intros Hs. revert q. induction ops as [|op ops IH]; intros q; cbn; [done|].
  rewrite (spec_step_shape rb rb') by done. destruct (spec_step rb q op). by rewrite IH.
Qed.

Lemma ring_step_refines rb q op :
  holds rb q -> op_ok rb op ->
  exists rb', ring_step rb op = Some (rb', (spec_step rb q op).2) /\
    holds rb' (spec_step rb q op).1 /\ same_shape rb rb'.
Proof.
  intros Hh Hop. destruct op as [m|]; cbn.
  - destruct Hop as [Hm Hl]. pose proof (ringbuf_push_enqueues rb q m Hh Hm Hl) as Hp.
    destruct (fits rb q m).
    + destruct Hp as (rb' & -> & ? & ?). by exists rb'.
    + rewrite Hp. by exists rb.
  - pose proof (ringbuf_pop_dequeues rb q Hh) as Hp. destruct q as [|m q].
    + rewrite Hp. by exists rb.
    + destruct Hp as (rb' & -> & ? & ?). by exists rb'.
Qed.

(** C31: a ring buffer is a bounded FIFO queue of messages.  From a buffer that stores [q],
    every sequence of pushes (of messages of a legal length) and pops reports, operation
    by operation, the same statuses and the same message bytes as the abstract queue, in
    which a push is refused exactly when the encodings no longer fit in the memory; the
    buffer ends up storing the abstract queue's contents, and no access leaves the memory. *)
Theorem ringbuf_refines_fifo (rb : k_ringbuf_t) (q : list (list Z)) (ops : list ring_op)
    (Hh : holds rb q) (Hops : Forall (op_ok rb) ops) :
  exists rb', ring_run rb ops = Some (rb', (spec_run rb q ops).2) /\
    holds rb' (spec_run rb q ops).1.
Proof.
  revert rb q Hh Hops. induction ops as [|op ops IH]; intros rb q Hh Hops; cbn.
  - by exists rb.
  - apply Forall_cons in Hops as [Hop Hops].
    destruct (ring_step_refines rb q op Hh Hop) as (rb1 & -> & Hh1 & Hs1). cbn.
    destruct (spec_step rb q op) as [q1 r]; cbn in *.
    destruct (IH rb1 q1 Hh1) as (rb2 & Hr & Hh2).
    { eapply Forall_impl; [done|]. intros [m|]; [|done]. unfold op_ok.
      by rewrite (proj2 (same_shape_encode _ _ Hs1)). }
    rewrite (spec_run_shape rb rb1) in Hr, Hh2 by done. rewrite Hr. cbn.
    destruct (spec_run rb q1 ops). by exists rb2.
Qed.

Lemma holds_init buf ty b :
  (0 < length buf)%nat ->
  (ty = RINGBUF_TYPE_FIX -> 0 < b /\ exists c, length buf = c * b)%nat ->
  holds (ringbuf_init buf ty b) [].
Proof.
  intros Hb Hfix. unfold ringbuf_init, ringbuf_reset. split; [|split; [|split; [done|]]].
  - unfold rb_wf, used, rend; cbn. lia.
  - intros Hty. cbn in Hty. destruct (Hfix Hty) as [? [c ?]]. split; [done|].
    exists c, 0%nat, 0%nat. done.
  - unfold contents, used, rend. cbn. by rewrite Nat.sub_diag.
Qed.

(** Five operations on an eight-byte buffer, the third of which wraps. *)
Definition fifo_example : list ring_op :=
  [OpPush [1; 2; 3; 4]; OpPop; OpPush [5; 6; 7; 8]; OpPush [9; 10; 11]; OpPop].

Lemma ringbuf_refines_fifo_witness :
  let rb := ringbuf_init (replicate 8 0) RINGBUF_TYPE_DYN 0 in
  holds rb [] /\ Forall (op_ok rb) fifo_example /\
  exists rb', ring_run rb fifo_example = Some (rb', (spec_run rb [] fifo_example).2).
Proof.
  cbv zeta. assert (Hh : holds (ringbuf_init (replicate 8 0) RINGBUF_TYPE_DYN 0) [])
    by (apply holds_init; [cbn; lia|done]).
  assert (Hops : Forall (op_ok (ringbuf_init (replicate 8 0) RINGBUF_TYPE_DYN 0)) fifo_example)
    by (repeat constructor; cbn; try lia; done).
  split; [done|]. split; [done|].
  destruct (ringbuf_refines_fifo _ _ _ Hh Hops) as (rb' & Hr & _). by exists rb'.
Defined.

(** ** Pushing to the front *)

Lemma wrap_head_spec rb :
  rb_wf rb -> rb_wf (wrap_head rb) /\ contents (wrap_head rb) = contents rb /\
    (0 < head (wrap_head rb))%nat /\ same_shape rb (wrap_head rb) /\
    freesize (wrap_head rb) = freesize rb /\ (aligned rb -> aligned (wrap_head rb)).
Proof.
  destruct rb as [m h t f ty b]. intros Hwf. unfold wrap_head. cbn.
  case_decide as Hd; [subst h|unfold rb_wf, same_shape, contents, used, rend in *; cbn in *; split_and!; lia || done || tauto].
  split_and!; [unfold rb_wf, used, rend in *; cbn in *; lia| | |done|done|].
  - unfold contents, used, rend; cbn. apply list_fmap_ext. intros i j Hj.
    apply lookup_seq in Hj as [-> Hi]. f_equal. unfold rb_wf, used, idx, rend in *; cbn in *.
    repeat case_decide; lia.
  - unfold rb_wf, rend in *; cbn in *. lia.
  - intros Ha Hty. destruct (Ha Hty) as (? & c & h & t' & ? & ? & ?). split; [done|].
    by exists c, c, t'.
Qed.

Lemma head_write_spec rb bytes :
  rb_wf rb -> (length bytes <= head rb)%nat -> (length bytes <= freesize rb)%nat ->
  exists m', mem_write (mem rb) (head rb - length bytes) bytes = Some m' /\
    let rb' := rb <| head := (head rb - length bytes)%nat |> <| mem := m' |>
                  <| freesize := (freesize rb - length bytes)%nat |> in
    rb_wf rb' /\ same_shape rb rb' /\ contents rb' = bytes ++ contents rb.
Proof.
  intros Hwf Hlh Hlf. pose proof Hwf as (Hc & Hh & Ht & Hf & Hg).
  destruct (mem_write_spec (mem rb) (head rb - length bytes) bytes) as (m' & -> & Hl & Hm).
  { unfold rend in *. lia. }
  exists m'. split; [done|]. cbv zeta. set (rb' := rb <| head := _ |> <| mem := _ |> <| freesize := _ |>).
  assert (Hwf' : rb_wf rb').
  { unfold rb', rb_wf, used, rend in *; cbn in *. rewrite Hl. lia. }
  split; [done|]. split; [done|]. apply list_eq. intros i.
  rewrite contents_lookup by done. unfold rb', used, rend in *; cbn in *. rewrite Hl.
  destruct (decide (i < length bytes)%nat).
  - rewrite decide_True, lookup_app_l, Hm by lia. unfold idx.
    repeat case_decide; try lia. f_equal. lia.
  - rewrite lookup_app_r, contents_lookup by (done || lia). unfold used, idx, rend.
    repeat case_decide; try lia; try done; rewrite Hm; case_decide; try lia; f_equal; lia.
Qed.

Lemma holds_cons rb rb' msgs m :
  holds rb msgs -> rb_wf rb' -> aligned rb' -> same_shape rb rb' -> msg_ok rb m ->
  contents rb' = encode rb m ++ contents rb -> holds rb' (m :: msgs).
Proof.
  intros (Hwf & Ha & Hm & Hc) Hwf' Ha' Hs Hok Hc'. destruct (same_shape_encode _ _ Hs) as [He Ho].
  split; [done|]. split; [done|]. rewrite He, Ho. split; [by constructor|].
  by rewrite Hc', Hc.
Qed.

Lemma off_sub_ok a n : (n <= a)%nat -> off_sub a n = Some (a - n)%nat.
Proof. intros. unfold off_sub. by rewrite decide_True. Qed.

Lemma head_push_prepends (rb : k_ringbuf_t) (msgs : list (list Z)) (m : list Z)
    (Hh : holds rb msgs) (Hm : msg_ok rb m) (Hne : (0 < length m)%nat)
    (Hfit : fits rb msgs m = true) (Hroom : (length (encode rb m) <= head (wrap_head rb))%nat) :
  exists rb', ringbuf_head_push rb m (length m) = Some (RHINO_SUCCESS, rb') /\ holds rb' (m :: msgs) /\ same_shape rb rb'.
Proof.
  pose proof (holds_occupied rb msgs Hh) as Hocc. pose proof Hh as (Hwf & Ha & _ & _).
  apply bool_decide_eq_true in Hfit. destruct (wrap_head_spec rb Hwf) as (Hwf0 & Hc0 & Hp0 & Hs0 & Hf0 & Ha0).
  specialize (Ha0 Ha). pose proof Hs0 as (Hr0 & Hty0 & Hb0).
  unfold ringbuf_head_push, ringbuf_is_full, msg_ok, encode in *. destruct (type rb) eqn:Hty.
  - rewrite bool_decide_false by lia.
    destruct (head_write_spec (wrap_head rb) m Hwf0) as (m' & Hw & Hwf1 & Hs1 & Hc1); [lia..|].
    rewrite off_sub_ok, mem_read_all by lia. cbn [mbind option_bind]. rewrite Hw. cbn [mbind option_bind].
    eexists; split; [done|]. split; [|by etrans]. eapply (holds_cons rb); try done.
    + intros _. destruct (Ha0 ltac:(congruence)) as (Hb & c & h & t & Hc & Hhd & Ht). split; [done|].
      exists c, (h - 1)%nat, t. destruct Hs1 as (-> & _). rewrite Hb0 in *. cbn. rewrite Hb0.
      repeat split; try done. rewrite Hhd, Hm. rewrite Nat.mul_sub_distr_r. lia.
    + by etrans.
    + unfold msg_ok. by rewrite Hty.
    + rewrite Hc1, Hc0. unfold encode. by rewrite Hty.
  - pose proof (length_header_bounds _ Hm) as Hhl. destruct (header_compress _ Hm) as [c Hcmp].
    assert (Htk : take (length (header (length m))) c = header (length m)).
    { unfold header at 2. by rewrite Hcmp. }
    rewrite length_app in *. rewrite bool_decide_false by lia. rewrite Hcmp.
    unfold RINGBUF_LEN_MAX_SIZE. rewrite decide_False, decide_False by lia.
    rewrite (decide_False (P := (head (wrap_head rb) <= tail (wrap_head rb) /\ _ /\ _)%nat)) by lia.
    cbn [mbind option_bind]. rewrite off_sub_ok, mem_read_all by lia. cbn [mbind option_bind].
    destruct (head_write_spec (wrap_head rb) m Hwf0) as (m1 & -> & Hwf1 & Hs1 & Hc1); [lia..|].
    cbn [mbind option_bind]. cbv zeta in *.
    revert Hwf1 Hs1 Hc1. set (rb1 := (wrap_head rb) <| head := _ |> <| mem := _ |> <| freesize := _ |>).
    intros Hwf1 Hs1 Hc1.
    assert (Hh1 : head rb1 = (head (wrap_head rb) - length m)%nat) by done.
    assert (Hf1 : freesize rb1 = (freesize rb - length m)%nat) by (rewrite <- Hf0; done).
    assert (wrap_head rb1 = rb1) as ->. { unfold wrap_head. rewrite decide_False by lia. done. }
    rewrite (decide_False (P := (head rb1 <= tail rb1 /\ _ /\ _)%nat)) by lia.
    cbn [mbind option_bind]. rewrite decide_True by lia. rewrite off_sub_ok by lia.
    assert (mem_read c 0 (length (header (length m))) = Some (header (length m))) as ->.
    { unfold mem_read. rewrite decide_True, drop_0, Htk; [done|]. rewrite <- Htk, length_take. lia. }
    cbn [mbind option_bind].
    destruct (head_write_spec rb1 (header (length m)) Hwf1) as (m2 & -> & Hwf2 & Hs2 & Hc2); [lia..|].
    cbn [mbind option_bind]. eexists; split; [done|]. cbv zeta in *.
    match goal with |- holds ?r _ /\ _ => assert (Hs : same_shape rb r) by exact (transitivity Hs0 (transitivity Hs1 Hs2)) end.
    split; [|done]. eapply (holds_cons rb); try done; [by apply (aligned_dyn rb)|by unfold msg_ok; rewrite Hty|].
    rewrite Hc2, Hc1, Hc0. unfold encode. by rewrite Hty, <- app_assoc.
Qed.

(** With blocks of one size there always is room below [head]. *)
Lemma head_push_fix (rb : k_ringbuf_t) (msgs : list (list Z)) (m : list Z) :
  holds rb msgs -> msg_ok rb m -> (0 < length m)%nat -> type rb = RINGBUF_TYPE_FIX ->
  fits rb msgs m = true ->
  exists rb', ringbuf_head_push rb m (length m) = Some (RHINO_SUCCESS, rb') /\ holds rb' (m :: msgs) /\
    same_shape rb rb'.
Proof.
  intros Hh Hm Hne Hty Hfit. apply head_push_prepends; try done. pose proof Hh as (Hwf & Ha & _ & _).
  destruct (wrap_head_spec rb Hwf) as (_ & _ & Hpos & (_ & Hty' & Hb) & _ & Ha').
  destruct (Ha' Ha ltac:(congruence)) as (_ & c & h & t & _ & Hh' & _).
  unfold encode, msg_ok in *. rewrite Hty in *. rewrite Hm, Hh', Hb in *.
  destruct h as [|h]; cbn in *; lia.
Qed.

(** Pushing to the front: when the encoding fits in the free bytes and the bytes below
    [head] (the whole buffer when [head] is at its start) hold it without wrapping, the
    message becomes the oldest one and everything else stays. *)
Theorem ringbuf_head_push_prepends (rb : k_ringbuf_t) (msgs : list (list Z)) (m : list Z)
    (Hh : holds rb msgs) (Hm : msg_ok rb m) (Hne : (0 < length m)%nat)
    (Hfit : fits rb msgs m = true) (Hroom : (length (encode rb m) <= head (wrap_head rb))%nat) :
  exists rb', ringbuf_head_push rb m (length m) = Some (RHINO_SUCCESS, rb') /\ holds rb' (m :: msgs).
Proof.
  destruct (head_push_prepends rb msgs m Hh Hm Hne Hfit Hroom) as (rb' & ? & ? & _). by exists rb'.
Qed.

(** A sixteen-byte buffer after a four-byte message went through it. *)
Definition wrapped_ring : k_ringbuf_t :=
  mk_ringbuf (replicate 16 0) 4 4 16 RINGBUF_TYPE_DYN 0.

(** When the data wraps, pushing to the front stores the message rotated: the piece
    that goes to the start of the buffer is taken from the front of the message instead
    of its back, so the next pop returns other bytes than were pushed. *)
Theorem ringbuf_head_push_wrap_rotates :
  holds wrapped_ring [] /\ fits wrapped_ring [] [1; 2; 3; 4; 5; 6] = true /\
  (pushed ← ringbuf_head_push wrapped_ring [1; 2; 3; 4; 5; 6] 6;
   popped ← ringbuf_pop pushed.2;
   Some (pushed.1, popped.1.1, popped.2)) = Some (RHINO_SUCCESS, RHINO_SUCCESS, [5; 6; 1; 2; 3; 4]).
Proof.
  split.
  - split; [unfold rb_wf, used, rend; cbn; lia|]. split; [done|]. by split.
  - split; vm_compute; reflexivity.
Qed.

End Ringbuf.
