(* ===== verification/Fifo.v ===== *)
(** * The byte queue of the kernel ([common/k_fifo.c], [k_fifo.h])

    A ring of bytes whose size is a power of two.  The counters [fin] and [fout] are never
    brought back into the buffer: they run through all of [uint32_t] and wrap, and an index
    is a counter masked with the size.  Each function below is the body of one critical
    section.  Its buffers are lists of bytes; a copy outside a buffer is undefined. *)
From S2P Require Import Prelude Config Ringbuf.

Module Fifo.

Record k_fifo := mk_fifo {
  fin : Z;                  (* in *)
  fout : Z;                 (* out *)
  mask : Z;
  data : list Z;            (* the memory behind data *)
  free_bytes : Z;
  size : Z;
}.
#[export] Instance k_fifo_settable : Settable k_fifo := fun f =>
  mk_fifo (fin f) (fout f) (mask f) (data f) (free_bytes f) (size f).

Definition fifo_min (x y : Z) : Z := if decide (y < x) then y else x.

Definition fifo_unused (fifo : k_fifo) : Z :=
  wrap 32 (wrap 32 (mask fifo + 1) - wrap 32 (fin fifo - fout fifo)).

Definition is_power_of_2 (n : Z) : bool :=
  bool_decide (n <> 0) && bool_decide (Z.land n (wrap 32 (n - 1)) = 0).

(** A refused size of 1 leaves the structure half set up. *)
Definition fifo_init (fifo : k_fifo) (buffer : list Z) (sz : Z) : Z * k_fifo :=
  if negb (is_power_of_2 sz) then (1, fifo) else
  let fifo := fifo <| fin := 0 |> <| fout := 0 |> <| data := buffer |> in
  if decide (sz < 2) then (1, fifo <| mask := 0 |>)
  else (0, fifo <| mask := sz - 1 |> <| free_bytes := sz |> <| size := sz |>).

Definition fifo_copy_in (fifo : k_fifo) (src : list Z) (len off : Z) : option k_fifo :=
  let sz := wrap 32 (mask fifo + 1) in
  let off := Z.land off (mask fifo) in
  let l := fifo_min len (wrap 32 (sz - off)) in
  b1 ← Ringbuf.mem_read src 0 (Z.to_nat l);
  m1 ← Ringbuf.mem_write (data fifo) (Z.to_nat off) b1;
  b2 ← Ringbuf.mem_read src (Z.to_nat l) (Z.to_nat (wrap 32 (len - l)));
  m2 ← Ringbuf.mem_write m1 0 b2;
  Some (fifo <| data := m2 |>).

(** the number of bytes that were taken *)
Definition fifo_in (fifo : k_fifo) (buf : list Z) (len : Z) : option (Z * k_fifo) :=
  let l := fifo_unused fifo in
  let len := if decide (l < len) then l else len in
  fifo ← fifo_copy_in fifo buf len (fin fifo);
  let fifo := fifo <| fin ::= fun n => wrap 32 (n + len) |>
                   <| free_bytes ::= fun n => wrap 32 (n - len) |> in
  Some (len, fifo).

(** the bytes written to [dst] *)
Definition kfifo_copy_out (fifo : k_fifo) (len off : Z) : option (list Z) :=
  let sz := wrap 32 (mask fifo + 1) in
  let off := Z.land off (mask fifo) in
  let l := fifo_min len (wrap 32 (sz - off)) in
  b1 ← Ringbuf.mem_read (data fifo) (Z.to_nat off) (Z.to_nat l);
  b2 ← Ringbuf.mem_read (data fifo) 0 (Z.to_nat (wrap 32 (len - l)));
  Some (b1 ++ b2).

Definition internal_fifo_out_peek (fifo : k_fifo) (len : Z) : option (Z * list Z) :=
  let l := wrap 32 (fin fifo - fout fifo) in
  let len := if decide (l < len) then l else len in
  b ← kfifo_copy_out fifo len (fout fifo);
  Some (len, b).

Definition fifo_out_peek (fifo : k_fifo) (len : Z) : option (Z * list Z) :=
  internal_fifo_out_peek fifo len.

(** the counters after [len] bytes were taken out *)
Definition fifo_drop (fifo : k_fifo) (len : Z) : k_fifo :=
  fifo <| fout ::= fun n => wrap 32 (n + len) |> <| free_bytes ::= fun n => wrap 32 (n + len) |>.

Definition fifo_out (fifo : k_fifo) (len : Z) : option (Z * list Z * k_fifo) :=
  '(len, b) ← internal_fifo_out_peek fifo len;
  Some (len, b, fifo_drop fifo len).

Definition fifo_out_all (fifo : k_fifo) : option (Z * list Z * k_fifo) :=
  let len := wrap 32 (size fifo - free_bytes fifo) in
  if decide (len = 0) then Some (0, [], fifo) else
  '(len, b) ← internal_fifo_out_peek fifo len;
  Some (len, b, fifo_drop fifo len).

(** ** What a byte queue is *)

(** the number of bytes inside *)
Definition used (f : k_fifo) : Z := wrap 32 (fin f - fout f).

(** the place of the counter [z] *)
Definition place (f : k_fifo) (z : Z) : nat := Z.to_nat (Z.land z (mask f)).

Definition contents (f : k_fifo) : list Z :=
  (fun i => data f !!! place f (fout f + Z.of_nat i)) <$> seq 0 (Z.to_nat (used f)).

(** A byte queue of [2 ^ k] bytes; [free_bytes] agrees with the counters. *)
Record fifo_wf (k : Z) (f : k_fifo) : Prop := {
  wf_k : 1 <= k <= 31;
  wf_mask : mask f = Z.ones k;
  wf_size : size f = 2 ^ k;
  wf_data : length (data f) = Z.to_nat (2 ^ k);
  wf_used : used f <= 2 ^ k;
  wf_free : free_bytes f = 2 ^ k - used f;
}.

Lemma mod_mod_pow2 x w k : 0 <= k <= w -> (x mod 2 ^ w) mod 2 ^ k = x mod 2 ^ k.
Proof.
  intros Hk. rewrite <- !Z.land_ones by lia. rewrite <- Z.land_assoc. f_equal.
  apply Z.bits_inj'. intros n Hn. rewrite Z.land_spec.
  rewrite !Z.testbit_ones by lia. destruct (Z.ltb_spec n k), (Z.ltb_spec n w); cbn; lia || by rewrite ?andb_false_r.
Qed.

(** one step further round, without division *)
Lemma mod_step x j P : 0 < P -> 0 <= j <= P ->
  (x + j) mod P = if decide (x mod P + j < P) then x mod P + j else x mod P + j - P.
Proof.
  intros HP Hj. pose proof (Z.mod_pos_bound x P HP). rewrite <- Zplus_mod_idemp_l.
  case_decide as H1; [apply Z.mod_small; lia|].
  rewrite <- (Z.mod_add _ (-1)) by lia. apply Z.mod_small. lia.
Qed.

Section facts.
Context (k : Z) (Hk : 1 <= k <= 31).

Lemma pow_bound : 2 <= 2 ^ k <= 2 ^ 31.
Proof. split; [change 2 with (2 ^ 1) at 1|]; apply Z.pow_le_mono_r; lia. Qed.

Lemma wrap_mask f : mask f = Z.ones k -> wrap 32 (mask f + 1) = 2 ^ k.
Proof. intros ->. pose proof pow_bound. rewrite Z.ones_equiv, wrap_small; lia. Qed.

Lemma place_mod f z : mask f = Z.ones k -> place f z = Z.to_nat (z mod 2 ^ k).
Proof. intros Hm. unfold place. by rewrite Hm, Z.land_ones by lia. Qed.

Lemma place_wrap f z : mask f = Z.ones k -> place f (wrap 32 z) = place f z.
Proof. intros Hm. rewrite !(place_mod f) by done. unfold wrap. by rewrite mod_mod_pow2 by lia. Qed.

Lemma place_wrap_add f z j : mask f = Z.ones k -> place f (wrap 32 z + j) = place f (z + j).
Proof.
  intros Hm. rewrite !(place_mod f) by done. unfold wrap.
  rewrite <- Zplus_mod_idemp_l, mod_mod_pow2 by lia. by rewrite Zplus_mod_idemp_l.
Qed.

(** Copying in writes [len] bytes from the place of [off] on, going round. *)
Lemma fifo_copy_in_spec f src len off :
  mask f = Z.ones k -> length (data f) = Z.to_nat (2 ^ k) -> 0 <= len <= 2 ^ k -> (Z.to_nat len <= length src)%nat ->
  exists m, fifo_copy_in f src len off = Some (f <| data := m |>) /\ length m = length (data f) /\
    forall j, 0 <= j < 2 ^ k ->
      m !!! place f (off + j) = if decide (j < len) then src !!! Z.to_nat j else data f !!! place f (off + j).
Proof.
  intros Hm Hd Hl Hs. pose proof pow_bound as HP. unfold fifo_copy_in. rewrite wrap_mask by done.
  assert (Z.land off (mask f) = off mod 2 ^ k) as -> by by rewrite Hm, Z.land_ones by lia.
  pose proof (Z.mod_pos_bound off (2 ^ k) ltac:(lia)) as Ho. rewrite wrap_small by lia.
  set (o := off mod 2 ^ k) in *. set (l := fifo_min len (2 ^ k - o)).
  assert (Hl' : 0 <= l <= len /\ l <= 2 ^ k - o /\ (l < len -> l = 2 ^ k - o)).
  { unfold l, fifo_min. case_decide; lia. }
  rewrite (wrap_small 32 (len - l)) by lia.
  destruct (Ringbuf.mem_read_spec src 0 (Z.to_nat l)) as (b1 & -> & Hb1 & Hr1); [lia|]. cbn.
  destruct (Ringbuf.mem_write_spec (data f) (Z.to_nat o) b1) as (m1 & -> & Hm1 & Hw1); [lia|]. cbn.
  destruct (Ringbuf.mem_read_spec src (Z.to_nat l) (Z.to_nat (len - l))) as (b2 & -> & Hb2 & Hr2); [lia|]. cbn.
  destruct (Ringbuf.mem_write_spec m1 0 b2) as (m2 & -> & Hm2 & Hw2); [lia|]. cbn.
  eexists; split; [done|]. split; [lia|]. intros j Hj.
  rewrite place_mod, mod_step by (done || lia). fold o. rewrite !list_lookup_total_alt, Hw2, Hw1.
  repeat case_decide; rewrite ?Hr2, ?Hr1 by lia; first [lia | do 2 f_equal; lia].
Qed.

(** Copying out reads [len] bytes from the place of [off] on, going round. *)
Lemma kfifo_copy_out_spec f len off :
  mask f = Z.ones k -> length (data f) = Z.to_nat (2 ^ k) -> 0 <= len <= 2 ^ k ->
  kfifo_copy_out f len off = Some ((fun i => data f !!! place f (off + Z.of_nat i)) <$> seq 0 (Z.to_nat len)).
Proof.
  intros Hm Hd Hl. pose proof pow_bound as HP. unfold kfifo_copy_out. rewrite wrap_mask by done.
  assert (Z.land off (mask f) = off mod 2 ^ k) as -> by by rewrite Hm, Z.land_ones by lia.
  pose proof (Z.mod_pos_bound off (2 ^ k) ltac:(lia)) as Ho. rewrite (wrap_small 32 (2 ^ k - _)) by lia.
  set (o := off mod 2 ^ k) in *. set (l := fifo_min len (2 ^ k - o)).
  assert (Hl' : 0 <= l <= len /\ l <= 2 ^ k - o /\ (l < len -> l = 2 ^ k - o)).
  { unfold l, fifo_min. case_decide; lia. }
  rewrite (wrap_small 32 (len - l)) by lia.
  destruct (Ringbuf.mem_read_spec (data f) (Z.to_nat o) (Z.to_nat l)) as (b1 & -> & Hb1 & Hr1); [lia|]. cbn.
  destruct (Ringbuf.mem_read_spec (data f) 0 (Z.to_nat (len - l))) as (b2 & -> & Hb2 & Hr2); [lia|]. cbn.
  f_equal. apply list_eq. intros i. rewrite list_lookup_fmap.
  destruct (decide (i < Z.to_nat len)%nat) as [Hi|Hi].
  - rewrite lookup_seq_lt by done. cbn. rewrite place_mod, mod_step by (done || lia). fold o.
    destruct (decide (i < Z.to_nat l)%nat).
    + rewrite lookup_app_l, Hr1 by lia. rewrite decide_True by lia.
      rewrite list_lookup_lookup_total_lt by lia. do 2 f_equal. lia.
    + rewrite lookup_app_r, Hb1, Hr2 by lia. rewrite decide_False by lia.
      rewrite list_lookup_lookup_total_lt by lia. do 2 f_equal. lia.
  - rewrite lookup_seq_ge by lia. cbn. apply lookup_ge_None. rewrite length_app. lia.
Qed.
End facts.

(** ** The calls on a queue *)

Lemma fifo_length_contents f : length (contents f) = Z.to_nat (used f).
Proof. unfold contents. by rewrite length_fmap, length_seq. Qed.

Lemma used_pos f : 0 <= used f.
Proof. apply wrap_range. lia. Qed.

(** the queue is refused unless its size is a power of two, of 2 at least *)
Lemma is_power_of_2_pow i : 0 <= i <= 31 -> is_power_of_2 (2 ^ i) = true.
Proof.
  intros Hi. unfold is_power_of_2. assert (0 < 2 ^ i <= 2 ^ 31).
  { split; [apply Z.pow_pos_nonneg; lia|]. apply Z.pow_le_mono_r; lia. }
  rewrite bool_decide_true by lia. rewrite bool_decide_true; [done|].
  rewrite wrap_small by lia. replace (2 ^ i - 1) with (Z.ones i) by (rewrite Z.ones_equiv; lia).
  rewrite Z.land_ones by lia. apply Z.mod_same. lia.
Qed.

Lemma fifo_init_correct k f buffer (Hk : 1 <= k <= 31) (Hb : length buffer = Z.to_nat (2 ^ k)) :
  exists f', fifo_init f buffer (2 ^ k) = (0, f') /\ fifo_wf k f' /\ contents f' = [].
Proof.
  pose proof (pow_bound k Hk). unfold fifo_init. rewrite is_power_of_2_pow by lia. cbn [negb].
  rewrite decide_False by lia. eexists; split; [done|]. split; [|done].
  split; cbn; try done; unfold used; cbn; rewrite ?wrap_small; cbn; try lia.
  rewrite Z.ones_equiv. lia.
Qed.

Section calls.
Context (k : Z) (f : k_fifo) (Hf : fifo_wf k f).

Lemma fifo_unused_eq : fifo_unused f = 2 ^ k - used f.
Proof using Hf.
  destruct Hf as [Hk Hm Hs Hd Hu Hr]. pose proof (pow_bound k Hk). pose proof (used_pos f).
  unfold fifo_unused. rewrite (wrap_mask k) by done. rewrite wrap_small by (unfold used in *; lia). done.
Qed.

Lemma fifo_in_correct b : Z.of_nat (length b) < 2 ^ 32 ->
  let n := Nat.min (length b) (Z.to_nat (2 ^ k) - length (contents f)) in
  exists f', fifo_in f b (Z.of_nat (length b)) = Some (Z.of_nat n, f') /\ fifo_wf k f' /\ contents f' = contents f ++ take n b.
Proof using Hf.
  intros Hb n. pose proof Hf as [Hk Hm Hs Hd Hu Hr]. pose proof (pow_bound k Hk) as HP. pose proof (used_pos f) as Hu0.
  unfold fifo_in. rewrite fifo_unused_eq.
  assert ((if decide (2 ^ k - used f < Z.of_nat (length b)) then 2 ^ k - used f else Z.of_nat (length b)) = Z.of_nat n) as ->.
  { unfold n. rewrite fifo_length_contents. case_decide; lia. }
  assert (Hn : Z.of_nat n <= 2 ^ k - used f /\ (n <= length b)%nat) by (unfold n; rewrite fifo_length_contents; lia).
  destruct (fifo_copy_in_spec k Hk f b (Z.of_nat n) (fin f)) as (m & -> & Hlm & Hw); [done|done|lia|lia|]. cbn.
  assert (Hu' : used ((f <| data := m |> <| fin ::= fun x => wrap 32 (x + Z.of_nat n) |>) <| free_bytes ::= fun x => wrap 32 (x - Z.of_nat n) |>) = used f + Z.of_nat n).
  { unfold used. cbn. rewrite wrap_wrap_sub. replace (fin f + Z.of_nat n - fout f) with ((fin f - fout f) + Z.of_nat n) by lia.
    unfold wrap at 1. rewrite <- Zplus_mod_idemp_l. apply Z.mod_small. fold (wrap 32 (fin f - fout f)). unfold used in *. lia. }
  eexists; split; [done|]. split.
  - split; rewrite ?Hu'; cbn; try done; try lia. rewrite Hr, wrap_small by lia. lia.
  - unfold contents. rewrite Hu'. cbn.
    replace (Z.to_nat (used f + Z.of_nat n)) with (Z.to_nat (used f) + n)%nat by lia.
    rewrite seq_app, fmap_app. f_equal.
    + apply list_fmap_ext. intros i x Hx. apply lookup_seq in Hx as [-> Hi].
      assert (Hp : place f (fout f + Z.of_nat (0 + i)) = place f (fin f + (Z.of_nat i - used f + 2 ^ k))).
      { rewrite !(place_mod k) by done. f_equal. replace (fin f + (Z.of_nat i - used f + 2 ^ k)) with (fin f - used f + Z.of_nat i + 1 * 2 ^ k) by lia.
        rewrite Z.mod_add by lia. rewrite <- (Zplus_mod_idemp_l (fin f - used f)), <- (Zminus_mod_idemp_r (fin f)).
        unfold used, wrap. rewrite mod_mod_pow2, Zminus_mod_idemp_r, Zplus_mod_idemp_l by lia. f_equal. lia. }
      change (place _ _) with (place f (fout f + Z.of_nat (0 + i))). rewrite Hp, Hw by lia. rewrite decide_False by lia. done.
    + apply list_eq. intros i. rewrite list_lookup_fmap. destruct (decide (i < n)%nat) as [Hi|Hi].
      * rewrite lookup_seq_lt by done. cbn. rewrite lookup_take_lt by done.
        change (place _ _) with (place f (fout f + Z.of_nat (Z.to_nat (used f) + i))).
        assert (place f (fout f + Z.of_nat (Z.to_nat (used f) + i)) = place f (fin f + Z.of_nat i)) as ->.
        { rewrite !(place_mod k) by done. f_equal. replace (fout f + Z.of_nat (Z.to_nat (used f) + i)) with (used f + (fout f + Z.of_nat i)) by lia.
          rewrite <- Zplus_mod_idemp_l. unfold used, wrap. rewrite mod_mod_pow2, Zplus_mod_idemp_l by lia. f_equal. lia. }
        rewrite Hw by lia. rewrite decide_True by lia. rewrite Nat2Z.id. symmetry. apply list_lookup_lookup_total_lt. lia.
      * rewrite lookup_seq_ge, lookup_take_ge by lia. done.
Qed.

Lemma fifo_peek_correct n : 0 <= n < 2 ^ 32 ->
  internal_fifo_out_peek f n = Some (Z.of_nat (length (take (Z.to_nat n) (contents f))), take (Z.to_nat n) (contents f)).
Proof using Hf.
  intros Hn. pose proof Hf as [Hk Hm Hs Hd Hu Hr]. pose proof (pow_bound k Hk). pose proof (used_pos f).
  unfold internal_fifo_out_peek. fold (used f).
  rewrite length_take, fifo_length_contents.
  set (l := if decide (used f < n) then used f else n).
  assert (Hl : l = Z.of_nat (Z.to_nat n `min` Z.to_nat (used f))) by (unfold l; case_decide; lia). rewrite <- Hl.
  rewrite (kfifo_copy_out_spec k) by (done || lia). cbn. do 2 f_equal.
  unfold contents. rewrite <- fmap_take, take_seq. do 2 f_equal. lia.
Qed.

(** Taking [n] bytes that are there out of the queue moves the counters only. *)
Lemma fifo_drop_correct n : 0 <= n <= used f ->
  fifo_wf k (fifo_drop f n) /\ contents (fifo_drop f n) = drop (Z.to_nat n) (contents f).
Proof using Hf.
  intros Hn. pose proof Hf as [Hk Hm Hs Hd Hu Hr]. pose proof (pow_bound k Hk). pose proof (used_pos f).
  assert (Hu' : used (fifo_drop f n) = used f - n).
  { unfold used, wrap. cbn. unfold wrap. rewrite Zminus_mod_idemp_r.
    replace (fin f - (fout f + n)) with ((fin f - fout f) - n) by lia. rewrite <- Zminus_mod_idemp_l.
    apply Z.mod_small. fold (wrap 32 (fin f - fout f)). unfold used in *. lia. }
  split.
  - split; rewrite ?Hu'; cbn; try done; try lia. rewrite Hr, wrap_small by lia. lia.
  - unfold contents. rewrite Hu', <- fmap_drop, drop_seq. cbn.
    replace (Z.to_nat (used f) - Z.to_nat n)%nat with (Z.to_nat (used f - n)) by lia.
    apply list_eq. intros i. rewrite !list_lookup_fmap. destruct (decide (i < Z.to_nat (used f - n))%nat).
    + rewrite !lookup_seq_lt by done. cbn. change (place (fifo_drop f n)) with (place f).
      rewrite (place_wrap_add k) by done. do 3 f_equal. lia.
    + rewrite !lookup_seq_ge by lia. done.
Qed.
End calls.

(** ** The queue as a bounded list *)

Inductive fifo_op := OpIn (b : list Z) | OpPeek (n : Z) | OpOut (n : Z) | OpAll.

Definition op_ok (op : fifo_op) : Prop :=
  match op with
  | OpIn b => Z.of_nat (length b) < 2 ^ 32
  | OpPeek n | OpOut n => 0 <= n < 2 ^ 32
  | OpAll => True
  end.

Definition fifo_step (f : k_fifo) (op : fifo_op) : option (Z * list Z * k_fifo) :=
  match op with
  | OpIn b => '(n, f) ← fifo_in f b (Z.of_nat (length b)); Some (n, [], f)
  | OpPeek n => '(l, b) ← fifo_out_peek f n; Some (l, b, f)
  | OpOut n => fifo_out f n
  | OpAll => fifo_out_all f
  end.

(** what a list of at most [cap] bytes answers, and the list it becomes *)
Definition spec_step (cap : nat) (q : list Z) (op : fifo_op) : Z * list Z * list Z :=
  match op with
  | OpIn b => let n := Nat.min (length b) (cap - length q) in (Z.of_nat n, [], q ++ take n b)
  | OpPeek n => let b := take (Z.to_nat n) q in (Z.of_nat (length b), b, q)
  | OpOut n => let b := take (Z.to_nat n) q in (Z.of_nat (length b), b, drop (Z.to_nat n) q)
  | OpAll => (Z.of_nat (length q), q, [])
  end.

Fixpoint fifo_run (f : k_fifo) (ops : list fifo_op) : option (list (Z * list Z) * k_fifo) :=
  match ops with
  | [] => Some ([], f)
  | op :: ops' => '(r, f) ← fifo_step f op; '(rs, f) ← fifo_run f ops'; Some (r :: rs, f)
  end.

Fixpoint spec_run (cap : nat) (q : list Z) (ops : list fifo_op) : list (Z * list Z) * list Z :=
  match ops with
  | [] => ([], q)
  | op :: ops' => let '(r, q) := spec_step cap q op in let '(rs, q) := spec_run cap q ops' in (r :: rs, q)
  end.

Lemma fifo_step_refines k f op (Hf : fifo_wf k f) (Hop : op_ok op) :
  let r := spec_step (Z.to_nat (2 ^ k)) (contents f) op in
  exists f', fifo_step f op = Some (r.1, f') /\ fifo_wf k f' /\ contents f' = r.2.
Proof.
  pose proof (used_pos f) as Hu0. destruct op as [b|n|n|]; cbn in *.
  - destruct (fifo_in_correct k f Hf b Hop) as (f' & -> & Hf' & Hc). cbn. by exists f'.
  - unfold fifo_out_peek. rewrite (fifo_peek_correct k f Hf n Hop). cbn. by exists f.
  - unfold fifo_out. rewrite (fifo_peek_correct k f Hf n Hop). cbn. rewrite length_take, fifo_length_contents.
    destruct (fifo_drop_correct k f Hf (Z.of_nat (Z.to_nat n `min` Z.to_nat (used f)))) as [Hf' Hc]; [lia|].
    eexists; split; [done|]. split; [done|]. rewrite Hc, Nat2Z.id.
    destruct (decide (Z.to_nat n <= Z.to_nat (used f))%nat); [by rewrite Nat.min_l by lia|].
    rewrite !drop_ge; [done|rewrite fifo_length_contents; lia..].
  - unfold fifo_out_all. destruct Hf as [Hk Hm Hs Hd Hu Hr] eqn:E. pose proof (pow_bound k Hk).
    rewrite Hs, Hr. replace (2 ^ k - (2 ^ k - used f)) with (used f) by lia. rewrite wrap_small by lia.
    case_decide as H0.
    + exists f. assert (contents f = []) as ->; [|done]. apply nil_length_inv. rewrite fifo_length_contents. lia.
    + rewrite (fifo_peek_correct k f Hf (used f)) by lia. cbn.
      rewrite (take_ge (contents f)) by (rewrite fifo_length_contents; lia). rewrite fifo_length_contents.
      destruct (fifo_drop_correct k f Hf (Z.of_nat (Z.to_nat (used f)))) as [Hf' Hc]; [lia|].
      eexists; split; [done|]. split; [done|]. rewrite Hc. apply drop_ge. rewrite fifo_length_contents. lia.
Qed.

(** C23: the byte queue of 2^k bytes behaves like a list of at most as many bytes in any order
    of calls: bytes come out in the order they went in, a call moves as many as there are or
    as fit and says so, and the counters may wrap round 2^32 at any time on the way. *)
Theorem fifo_refines_queue k f ops (Hf : fifo_wf k f) (Hops : Forall op_ok ops) :
  let r := spec_run (Z.to_nat (2 ^ k)) (contents f) ops in
  exists f', fifo_run f ops = Some (r.1, f') /\ fifo_wf k f' /\ contents f' = r.2.
Proof.
  revert f Hf. induction Hops as [|op ops Hop Hops IH]; intros f Hf; cbn; [by exists f|].
  destruct (fifo_step_refines k f op Hf Hop) as (f1 & -> & Hf1 & Hc1). cbn.
  destruct (spec_step _ (contents f) op) as [r q]; cbn in *. subst q.
  destruct (IH f1 Hf1) as (f2 & -> & Hf2 & Hc2). cbn. destruct (spec_run _ (contents f1) ops) as [rs q]; cbn in *.
  by exists f2.
Qed.

(** four bytes, two bytes before the counters wrap *)
Definition wrapping_fifo : k_fifo := mk_fifo (2 ^ 32 - 2) (2 ^ 32 - 3) 3 [7; 8; 9; 10] 3 4.

Lemma fifo_refines_queue_witness :
  fifo_wf 2 wrapping_fifo /\ contents wrapping_fifo = [8] /\
  exists f', fifo_run wrapping_fifo [OpIn [1; 2; 3; 4]; OpPeek 2; OpOut 3; OpIn [5]; OpAll] =
      Some ([(3, []); (2, [8; 1]); (3, [8; 1; 2]); (1, []); (2, [3; 5])], f') /\ fifo_wf 2 f' /\ contents f' = [].
Proof.
  assert (Hf : fifo_wf 2 wrapping_fifo) by (split; vm_compute; done).
  split; [done|]. split; [reflexivity|].
  apply (fifo_refines_queue 2 wrapping_fifo [OpIn [1; 2; 3; 4]; OpPeek 2; OpOut 3; OpIn [5]; OpAll] Hf).
  repeat (apply Forall_cons; split; [cbn; lia|]). done.
Defined.

End Fifo.
