(* ===== verification/Kv.v ===== *)
(** * The key-value store in flash ([kernel/modules/fs/kv/kvmgr.c])

    The store keeps items in blocks of 4 KB, each item behind the last one; an update writes
    the new version first and marks the old one deleted then, and a garbage collection copies
    the items that are left to the clean block.  With the default size there are two blocks.

    A call runs under the mutex of the store, so calls are modelled one after another; the
    wait for a running collection at the start of [aos_kv_set] and the collecting task are
    definitions of their own.  The state is the manager [g_kv_mgr], the flash, and what the
    surroundings will do: when the power goes, which operations of the HAL and which
    allocations fail. *)
From S2P Require Import Prelude Errno Ringbuf.
Import Errno.

Module Kv.

(** ** The flash

    What a flash cell holds after a write is the device's: programming can clear bits, and
    only an erasure sets them.  A write that only clears bits stores what was written. *)
Class FlashMem := {
  prog : Z -> Z -> Z;
  prog_clears : forall old new, Z.land old new = new -> prog old new = new;
}.

(** NOR flash, and memory that simply stores *)
Definition nor_flash : FlashMem.
Proof. by refine {| prog := Z.land |}. Defined.
Definition plain_memory : FlashMem.
Proof. by refine {| prog := fun _ new => new |}. Defined.

(** ** Sizes and marks *)

Definition KV_TOTAL_SIZE : Z := 8 * 1024.
Definition BLK_BITS : Z := 12.
Definition BLK_SIZE : Z := Z.shiftl 1 BLK_BITS.
Definition BLK_NUMS : Z := Z.shiftr KV_TOTAL_SIZE BLK_BITS.
Definition BLK_OFF_MASK : Z := Z.lnot (BLK_SIZE - 1).
Definition BLK_STATE_USED : Z := 0xCC.
Definition BLK_STATE_CLEAN : Z := 0xEE.
Definition BLK_STATE_DIRTY : Z := 0x44.
Definition BLK_HEADER_SIZE : Z := 4.

Definition INVALID_BLK_STATE (state : Z) : bool :=
  bool_decide (state <> BLK_STATE_USED) && bool_decide (state <> BLK_STATE_CLEAN) &&
  bool_decide (state <> BLK_STATE_DIRTY).

Definition ITEM_HEADER_SIZE : Z := 8.
Definition ITEM_STATE_NORMAL : Z := 0xEE.
Definition ITEM_STATE_DELETE : Z := 0.
Definition ITEM_MAX_KEY_LEN : Z := 128.
Definition ITEM_MAX_VAL_LEN : Z := 512.
Definition ITEM_MAX_LEN : Z := ITEM_HEADER_SIZE + ITEM_MAX_KEY_LEN + ITEM_MAX_VAL_LEN.
Definition KV_STATE_OFF : Z := 1.
Definition KV_ALIGN_MASK : Z := Z.lnot (4 - 1).        (* pointers have four bytes *)
Definition KV_GC_RESERVED : Z := 1.
Definition BLK_MAGIC_NUM : Z := 0x4B.                  (* 'K' *)
Definition ITEM_MAGIC_NUM : Z := 0x49.                 (* 'I' *)

Definition RES_OK : Z := 0.
Definition RES_CONT : Z := - EAGAIN.
Definition RES_NO_SPACE : Z := - ENOSPC.
Definition RES_INVALID_PARAM : Z := - EINVAL.
Definition RES_MALLOC_FAILED : Z := - ENOMEM.
Definition RES_ITEM_NOT_FOUND : Z := - ENOENT.
Definition RES_FLASH_READ_ERR : Z := - EIO.
Definition RES_FLASH_WRITE_ERR : Z := - EIO.
Definition RES_FLASH_EARSE_ERR : Z := - EIO.

(** how an item is removed: itself, or the version it replaced *)
Inductive remove_mode := KV_SELF_REMOVE | KV_ORIG_REMOVE.

(** the size of an item of [n] bytes in flash *)
Definition item_align (n : Z) : Z := wrap 16 (Z.land (n + Z.lnot KV_ALIGN_MASK) KV_ALIGN_MASK).

(** ** Data *)

Record block_hdr_t := mk_block_hdr { bh_magic : Z; bh_state : Z }.

Record item_hdr_t := mk_item_hdr {
  magic : Z;
  state : Z;
  crc : Z;
  key_len : Z;
  val_len : Z;
  origin_off : Z;
}.
#[export] Instance item_hdr_settable : Settable item_hdr_t := fun h =>
  mk_item_hdr (magic h) (state h) (crc h) (key_len h) (val_len h) (origin_off h).

Record kv_item_t := mk_kv_item {
  hdr : item_hdr_t;
  istore : option (list Z);          (* store *)
  len : Z;
  pos : Z;
}.
#[export] Instance kv_item_settable : Settable kv_item_t := fun i =>
  mk_kv_item (hdr i) (istore i) (len i) (pos i).

Record block_info_t := mk_block_info { space : Z; blk_state : Z }.
#[export] Instance block_info_settable : Settable block_info_t := fun b =>
  mk_block_info (space b) (blk_state b).

Record kv_mgr_t := mk_kv_mgr {
  kv_initialize : Z;
  gc_triggered : Z;
  gc_waiter : Z;
  clean_blk_nums : Z;
  write_pos : Z;
  gc_sem : bool;                     (* created *)
  kv_mutex : option bool;            (* created, and held *)
  block_info : list block_info_t;
}.
#[export] Instance kv_mgr_settable : Settable kv_mgr_t := fun m =>
  mk_kv_mgr (kv_initialize m) (gc_triggered m) (gc_waiter m) (clean_blk_nums m) (write_pos m)
    (gc_sem m) (kv_mutex m) (block_info m).

Record kv_state := mk_kv {
  g_kv_mgr : kv_mgr_t;
  flash : list Z;                    (* the partition *)
  power : option nat;                (* operations on the flash until the power goes *)
  hal_fails : list bool;             (* which of the next operations of the HAL fail *)
  mem_fails : list bool;             (* which of the next allocations fail *)
  allocated : Z;                     (* blocks of memory the store holds *)
  gc_tasks : Z;                      (* collecting tasks started *)
  gc_wakes : Z;                      (* [aos_sem_signal_all] of [gc_sem] *)
}.
#[export] Instance kv_settable : Settable kv_state := fun s =>
  mk_kv (g_kv_mgr s) (flash s) (power s) (hal_fails s) (mem_fails s) (allocated s) (gc_tasks s) (gc_wakes s).

(** ** Results

    A call ends, or the power goes and the flash is all that is left, or it does what C does
    not define. *)
Inductive outcome (A : Type) := Done (a : A) (s : kv_state) | Lost (fl : list Z) | Wrong.
Arguments Done {_} _ _.
Arguments Lost {_} _.
Arguments Wrong {_}.

Definition M (A : Type) : Type := kv_state -> outcome A.
#[export] Instance M_ret : MRet M := fun A a s => Done a s.
#[export] Instance M_bind : MBind M := fun A B f m s =>
  match m s with Done a s' => f a s' | Lost fl => Lost fl | Wrong => Wrong end.

#[export] Instance M_fmap : FMap M := fun A B f m s =>
  match m s with Done a s' => Done (f a) s' | Lost fl => Lost fl | Wrong => Wrong end.

Definition gets {A} (f : kv_state -> A) : M A := fun s => Done (f s) s.
Definition modify (f : kv_state -> kv_state) : M unit := fun s => Done tt (f s).
Definition upd_mgr (f : kv_mgr_t -> kv_mgr_t) : M unit := modify (fun s => s <| g_kv_mgr ::= f |>).
Definition wrong {A} : M A := fun _ => Wrong.
Definition of_option {A} (o : option A) : M A := fun s => match o with Some a => Done a s | None => Wrong end.

(** [g_kv_mgr.block_info[i]] *)
Definition blk_get (i : Z) : M block_info_t := fun s =>
  match block_info (g_kv_mgr s) !! Z.to_nat i with Some b => Done b s | None => Wrong end.
Definition blk_upd (i : Z) (f : block_info_t -> block_info_t) : M unit :=
  b ← blk_get i; upd_mgr (fun m => m <| block_info ::= <[Z.to_nat i := f b]> |>).

(** the next answer of the surroundings *)
Definition next_fails (l : list bool) : bool := match l with b :: _ => b | [] => false end.

(** An operation of the HAL that changes the flash: the power may be gone before it, and it
    may report an error, with no effect. *)
Definition hal_op (eff : list Z -> option (list Z)) : M Z := fun s =>
  match power s with
  | Some O => Lost (flash s)
  | _ =>
      let fails := next_fails (hal_fails s) in
      let s := s <| power ::= fmap pred |> <| hal_fails ::= tail |> in
      if fails then Done (- EIO) s else
      match eff (flash s) with Some fl => Done 0 (s <| flash := fl |>) | None => Wrong end
  end.

Section kv.
Context `{FlashMem}.

(** Outside the partition nothing is defined. *)
Definition raw_write (offset : Z) (buf : list Z) : M Z := hal_op (fun fl =>
  old ← Ringbuf.mem_read fl (Z.to_nat offset) (length buf);
  Ringbuf.mem_write fl (Z.to_nat offset) (zip_with prog old buf)).

Definition raw_erase (offset size : Z) : M Z := hal_op (fun fl =>
  Ringbuf.mem_write fl (Z.to_nat offset) (replicate (Z.to_nat size) 255)).

(** The buffer [buf] is filled, or left as it is. *)
Definition raw_read (offset : Z) (buf : list Z) : M (Z * list Z) := fun s =>
  let fails := next_fails (hal_fails s) in
  let s := s <| hal_fails ::= tail |> in
  if fails then Done (- EIO, buf) s else
  match Ringbuf.mem_read (flash s) (Z.to_nat offset) (length buf) with
  | Some b => Done (0, b) s
  | None => Wrong
  end.

(** ** Memory: the blocks are values, their number is counted; 0 bytes are refused *)

Definition aos_malloc (size : Z) : M bool := fun s =>
  if decide (size = 0) then Done false s else
  let fails := next_fails (mem_fails s) in
  let s := s <| mem_fails ::= tail |> in
  if fails then Done false s else Done true (s <| allocated ::= Z.succ |>).

Definition aos_free : M unit := modify (fun s => s <| allocated ::= Z.pred |>).

(** ** The mutex and the task *)

Definition aos_mutex_lock : M Z :=
  m ← gets (fun s => kv_mutex (g_kv_mgr s));
  match m with
  | None => mret (- EFAULT)
  | Some true => wrong                 (* would wait: calls come one after another *)
  | Some false => upd_mgr (fun m => m <| kv_mutex := Some true |>);; mret 0
  end.

Definition aos_mutex_unlock : M unit := upd_mgr (fun m => m <| kv_mutex ::= fmap (fun _ => false) |>).

(** Starting a task takes memory, and may fail. *)
Definition aos_task_new_gc : M unit := fun s =>
  let fails := next_fails (mem_fails s) in
  let s := s <| mem_fails ::= tail |> in
  if fails then Done tt s else Done tt (s <| gc_tasks ::= Z.succ |>).

Definition trigger_gc : M unit :=
  t ← gets (fun s => gc_triggered (g_kv_mgr s));
  if decide (t <> 0) then mret tt else
  upd_mgr (fun m => m <| gc_waiter := 0 |> <| gc_triggered := 1 |>);;
  aos_task_new_gc.

(** ** Checksum and headers *)

(** the eight turns of the inner loop *)
Fixpoint crc_bits (n : nat) (crc : Z) : Z :=
  match n with
  | O => crc
  | S n => crc_bits n (wrap 8 (if decide (Z.land crc 0x80 <> 0) then Z.lxor (Z.shiftl crc 1) 0x31 else Z.shiftl crc 1))
  end.

Definition utils_crc8 (buf : list Z) : Z := foldl (fun crc b => crc_bits 8 (Z.lxor crc b)) 0 buf.

#[global] Arguments crc_bits : simpl never.
#[global] Arguments utils_crc8 : simpl never.

(** the structures as the bytes of a little-endian core *)
Definition item_hdr_bytes (h : item_hdr_t) : list Z :=
  [magic h; state h; crc h; key_len h; Ringbuf.byte_of (val_len h) 0; Ringbuf.byte_of (val_len h) 1;
   Ringbuf.byte_of (origin_off h) 0; Ringbuf.byte_of (origin_off h) 1].

Definition item_hdr_of_bytes (b : list Z) : option item_hdr_t :=
  match b with
  | [m; st; c; kl; v0; v1; o0; o1] => Some (mk_item_hdr m st c kl (Z.lor v0 (Z.shiftl v1 8)) (Z.lor o0 (Z.shiftl o1 8)))
  | _ => None
  end.

Definition block_hdr_bytes (h : block_hdr_t) : list Z := [bh_magic h; bh_state h; 0; 0].

Definition block_hdr_of_bytes (b : list Z) : option block_hdr_t :=
  match b with m :: st :: _ => Some (mk_block_hdr m st) | _ => None end.

(** ** Blocks and items *)

Definition kv_item_free (item : kv_item_t) : M unit :=
  (match istore item with Some _ => aos_free | None => mret tt end);; aos_free.

Definition kv_state_set (pos state : Z) : M Z := raw_write (pos + KV_STATE_OFF) [state].

Definition kv_block_format (index : Z) : M Z :=
  let pos := wrap 16 (Z.shiftl index BLK_BITS) in
  r ← raw_erase pos BLK_SIZE;
  if decide (r <> 0) then mret RES_FLASH_EARSE_ERR else
  r ← raw_write pos (block_hdr_bytes (mk_block_hdr BLK_MAGIC_NUM BLK_STATE_CLEAN));
  if decide (r <> RES_OK) then mret RES_FLASH_WRITE_ERR else
  blk_upd index (fun b => b <| blk_state := BLK_STATE_CLEAN |> <| space := BLK_SIZE - BLK_HEADER_SIZE |>);;
  upd_mgr (fun m => m <| clean_blk_nums ::= fun n => wrap 8 (n + 1) |>);;
  mret RES_OK.

(** With two blocks the search in other blocks is not compiled. *)
Definition kv_item_calc_pos (len : Z) : M Z :=
  wp ← gets (fun s => write_pos (g_kv_mgr s));
  b ← blk_get (Z.shiftr wp BLK_BITS);
  if decide (len < space b) then
    clean ← gets (fun s => clean_blk_nums (g_kv_mgr s));
    (if decide (space b - len < ITEM_MAX_LEN /\ clean <= KV_GC_RESERVED) then trigger_gc else mret tt);;
    mret wp
  else trigger_gc;; mret 0.

(** the block of a deleted item is dirty *)
Definition kv_item_delete_at (offset : Z) : M Z :=
  ret ← kv_state_set offset ITEM_STATE_DELETE;
  if decide (ret <> RES_OK) then mret ret else
  let i := Z.shiftr offset BLK_BITS in
  b ← blk_get i;
  if decide (blk_state b = BLK_STATE_USED) then
    ret ← kv_state_set (Z.land offset BLK_OFF_MASK) BLK_STATE_DIRTY;
    if decide (ret <> RES_OK) then mret ret else
    blk_upd i (fun b => b <| blk_state := BLK_STATE_DIRTY |>);;
    mret ret
  else mret ret.

(** a read whose result is not looked at: the buffer is fresh memory *)
Definition raw_read_fresh (offset n : Z) : M (list Z) :=
  r ← raw_read offset (replicate (Z.to_nat n) 0);
  if decide (r.1 = 0) then mret r.2 else wrong.

Definition kv_item_del (item : kv_item_t) (mode : remove_mode) : M Z :=
  match mode with
  | KV_SELF_REMOVE => kv_item_delete_at (pos item)
  | KV_ORIG_REMOVE =>
      let offset := origin_off (hdr item) in
      r ← raw_read offset (replicate (Z.to_nat ITEM_HEADER_SIZE) 0);
      if decide (r.1 <> RES_OK) then mret RES_FLASH_READ_ERR else
      h ← of_option (item_hdr_of_bytes r.2);
      if decide (magic h <> ITEM_MAGIC_NUM \/ state h <> ITEM_STATE_NORMAL \/ key_len h <> key_len (hdr item))
      then mret RES_OK else
      ok ← aos_malloc (key_len h);
      if negb ok then mret RES_MALLOC_FAILED else
      ok ← aos_malloc (key_len h);
      if negb ok then aos_free;; mret RES_MALLOC_FAILED else
      origin_key ← raw_read_fresh (offset + ITEM_HEADER_SIZE) (key_len h);
      new_key ← raw_read_fresh (pos item + ITEM_HEADER_SIZE) (key_len h);
      aos_free;; aos_free;;
      if decide (origin_key <> new_key) then mret RES_OK else kv_item_delete_at offset
  end.

(** ** What is done at each item of a block *)

(** the answer, and the item with what was stored in it *)
Definition item_func : Type := kv_item_t -> list Z -> M (Z * kv_item_t).

Definition __item_recovery_cb : item_func := fun item key =>
  ok ← aos_malloc (len item);
  if negb ok then mret (RES_MALLOC_FAILED, item) else
  r ← raw_read (pos item + ITEM_HEADER_SIZE) (replicate (Z.to_nat (len item)) 0);
  if decide (r.1 <> RES_OK) then aos_free;; mret (RES_FLASH_READ_ERR, item) else
  (if decide (crc (hdr item) = utils_crc8 r.2) then
     if decide (origin_off (hdr item) <> 0 /\ pos item <> origin_off (hdr item)) then
       _ ← kv_item_del item KV_ORIG_REMOVE; mret tt
     else mret tt
   else _ ← kv_item_del item KV_SELF_REMOVE; mret tt);;
  aos_free;;
  mret (RES_CONT, item).

Definition __item_find_cb : item_func := fun item key =>
  if decide (key_len (hdr item) <> Z.of_nat (length key)) then mret (RES_CONT, item) else
  ok ← aos_malloc (key_len (hdr item) + val_len (hdr item));
  if negb ok then mret (RES_MALLOC_FAILED, item) else
  r ← raw_read (pos item + ITEM_HEADER_SIZE) (replicate (Z.to_nat (len item)) 0);
  let item := item <| istore := Some r.2 |> in
  if decide (r.1 <> RES_OK) then mret (RES_FLASH_READ_ERR, item) else
  if decide (take (length key) r.2 = key) then mret (RES_OK, item) else mret (RES_CONT, item).

Definition __item_gc_cb : item_func := fun item key =>
  let len := item_align (ITEM_HEADER_SIZE + len item) in
  ok ← aos_malloc len;
  if negb ok then mret (RES_MALLOC_FAILED, item) else
  r ← raw_read (pos item) (replicate (Z.to_nat len) 0);
  if decide (r.1 <> RES_OK) then aos_free;; mret (RES_FLASH_READ_ERR, item) else
  wpos ← gets (fun s => write_pos (g_kv_mgr s));
  w ← raw_write wpos r.2;
  if decide (w <> RES_OK) then aos_free;; mret (RES_FLASH_WRITE_ERR, item) else
  upd_mgr (fun m => m <| write_pos ::= fun p => wrap 16 (p + len) |>);;
  wpos ← gets (fun s => write_pos (g_kv_mgr s));
  blk_upd (Z.shiftr wpos BLK_BITS) (fun b => b <| space ::= fun n => wrap 16 (n - len) |>);;
  aos_free;;
  mret (RES_CONT, item).

Definition SIZEOF_KV_ITEM : Z := 16.

(** a block in use in which something deleted or broken was seen *)
Definition mark_dirty (blk_index : Z) : M unit :=
  b ← blk_get blk_index;
  if decide (blk_state b = BLK_STATE_USED) then
    _ ← kv_state_set (Z.shiftl blk_index BLK_BITS) BLK_STATE_DIRTY;
    blk_upd blk_index (fun b => b <| blk_state := BLK_STATE_DIRTY |>)
  else mret tt.

(** The loop gives the item it returns, or the place where it left the block. *)
Fixpoint item_loop (fuel : nat) (func : item_func) (blk_index : Z) (key : list Z) (pos endp : Z)
  : M (option kv_item_t + Z) :=
  match fuel with
  | O => wrong
  | S fuel =>
      let next pos := if decide (pos + ITEM_HEADER_SIZE < endp) then item_loop fuel func blk_index key pos endp
                      else mret (inr pos) in
      ok ← aos_malloc SIZEOF_KV_ITEM;
      if negb ok then mret (inl None) else
      r ← raw_read pos (replicate (Z.to_nat ITEM_HEADER_SIZE) 0);
      if decide (r.1 <> RES_OK) then aos_free;; mret (inl None) else
      h ← of_option (item_hdr_of_bytes r.2);
      if decide (magic h <> ITEM_MAGIC_NUM /\ magic h = 0xFF /\ state h = 0xFF) then aos_free;; mret (inr pos) else
      let h := if decide (magic h <> ITEM_MAGIC_NUM) then h <| val_len := 0xFFFF |> else h in
      if decide (ITEM_MAX_VAL_LEN < val_len h \/ ITEM_MAX_KEY_LEN < key_len h) then
        aos_free;; mark_dirty blk_index;; next (wrap 16 (pos + ITEM_HEADER_SIZE))
      else
        let ilen := item_align (ITEM_HEADER_SIZE + key_len h + val_len h) in
        if decide (state h = ITEM_STATE_NORMAL) then
          r ← func (mk_kv_item h None (wrap 16 (key_len h + val_len h)) pos) key;
          if decide (r.1 = RES_OK) then mret (inl (Some r.2)) else
          kv_item_free r.2;;
          if decide (r.1 <> RES_CONT) then mret (inl None) else next (wrap 16 (pos + ilen))
        else
          mark_dirty blk_index;; aos_free;; next (wrap 16 (pos + ilen))
  end.

(** an item takes at least its header *)
Definition item_fuel : nat := Z.to_nat (BLK_SIZE / ITEM_HEADER_SIZE).

Definition kv_item_traverse (func : item_func) (blk_index : Z) (key : list Z) : M (option kv_item_t) :=
  let endp := wrap 16 (Z.shiftl blk_index BLK_BITS + BLK_SIZE) in
  r ← item_loop item_fuel func blk_index key (wrap 16 (Z.shiftl blk_index BLK_BITS + BLK_HEADER_SIZE)) endp;
  match r with
  | inl ret => mret ret
  | inr pos =>
      blk_upd blk_index (fun b => b <| space := if decide (pos < endp) then endp - pos else ITEM_HEADER_SIZE |>);;
      mret None
  end.

(** [n] blocks from the [i]-th on *)
Fixpoint get_loop (n : nat) (i : Z) (key : list Z) : M (option kv_item_t) :=
  match n with
  | O => mret None
  | S n =>
      b ← blk_get i;
      if decide (blk_state b <> BLK_STATE_CLEAN) then
        item ← kv_item_traverse __item_find_cb i key;
        match item with
        | Some item => mret (Some item)
        | None => get_loop n (i + 1) key
        end
      else get_loop n (i + 1) key
  end.

Definition kv_item_get (key : list Z) : M (option kv_item_t) := get_loop (Z.to_nat BLK_NUMS) 0 key.

(** the image of an item, zero up to its end *)
Definition item_image (h : item_hdr_t) (key val : list Z) : list Z :=
  item_hdr_bytes h ++ key ++ val ++
  replicate (Z.to_nat (item_align (ITEM_HEADER_SIZE + key_len h + val_len h) - ITEM_HEADER_SIZE - key_len h - val_len h)) 0.

Definition kv_item_store (key val : list Z) (len origin : Z) : M Z :=
  let h := mk_item_hdr ITEM_MAGIC_NUM ITEM_STATE_NORMAL 0 (wrap 8 (Z.of_nat (length key))) (wrap 16 len) origin in
  let slen := item_align (ITEM_HEADER_SIZE + key_len h + val_len h) in
  ok ← aos_malloc slen;
  if negb ok then mret RES_MALLOC_FAILED else
  k ← of_option (Ringbuf.mem_read key 0 (Z.to_nat (key_len h)));
  v ← of_option (Ringbuf.mem_read val 0 (Z.to_nat (val_len h)));
  let h := h <| crc := utils_crc8 (k ++ v) |> in
  pos ← kv_item_calc_pos slen;
  ret ← (if decide (0 < pos) then
           r ← raw_write pos (item_image h k v);
           if decide (r = RES_OK) then
             upd_mgr (fun m => m <| write_pos := wrap 16 (pos + slen) |>);;
             wpos ← gets (fun s => write_pos (g_kv_mgr s));
             blk_upd (Z.shiftr wpos BLK_BITS) (fun b => b <| space ::= fun n => wrap 16 (n - slen) |>);;
             mret r
           else mret r
         else mret RES_NO_SPACE);
  aos_free;;
  mret ret.

Definition kv_item_update (item : kv_item_t) (key val : list Z) (len : Z) : M Z :=
  st ← of_option (istore item);
  v ← of_option (Ringbuf.mem_read val 0 (Z.to_nat len));
  if decide (val_len (hdr item) = len /\ drop (Z.to_nat (key_len (hdr item))) st = v) then mret RES_OK else
  ret ← kv_item_store key val len (pos item);
  if decide (ret <> RES_OK) then mret ret else
  kv_item_del item KV_SELF_REMOVE.

(** ** Start *)

(** The loop over the blocks: a status it returns with, or the blocks marked clean that are
    not empty, last first. *)
Fixpoint init_loop (n : nat) (i : Z) (unclean : list Z) : M (Z + list Z) :=
  match n with
  | O => mret (inr unclean)
  | S n =>
      let format :=
        ret ← kv_block_format i;
        if decide (ret <> RES_OK) then mret (inl ret) else init_loop n (i + 1) unclean in
      r ← raw_read (Z.shiftl i BLK_BITS) (replicate (Z.to_nat BLK_HEADER_SIZE) 0);
      h ← of_option (block_hdr_of_bytes r.2);
      if decide (bh_magic h = BLK_MAGIC_NUM) then
        if INVALID_BLK_STATE (bh_state h) then format else
        blk_upd i (fun b => b <| blk_state := bh_state h |>);;
        _ ← kv_item_traverse __item_recovery_cb i [];
        if decide (bh_state h = BLK_STATE_CLEAN) then
          b ← blk_get i;
          if decide (space b <> BLK_SIZE - BLK_HEADER_SIZE) then init_loop n (i + 1) (i :: unclean)
          else upd_mgr (fun m => m <| clean_blk_nums ::= fun n => wrap 8 (n + 1) |>);; init_loop n (i + 1) unclean
        else init_loop n (i + 1) unclean
      else format
  end.

(** Blocks that a collection was filling: they are kept when there is a clean one besides. *)
Fixpoint init_unclean (unclean : list Z) : M Z :=
  match unclean with
  | [] => mret RES_OK
  | i :: unclean =>
      clean ← gets (fun s => clean_blk_nums (g_kv_mgr s));
      if decide (KV_GC_RESERVED <= clean) then
        ret ← kv_state_set (Z.shiftl i BLK_BITS) BLK_STATE_DIRTY;
        if decide (ret <> RES_OK) then mret ret else
        blk_upd i (fun b => b <| blk_state := BLK_STATE_DIRTY |>);;
        init_unclean unclean
      else
        ret ← kv_block_format i;
        if decide (ret <> RES_OK) then mret ret else init_unclean unclean
  end.

(** The place to write at is behind the items of a block before a clean one. *)
Fixpoint init_write_pos (n : nat) (i : Z) : M unit :=
  match n with
  | O => mret tt
  | S n =>
      b ← blk_get i;
      if decide (blk_state b = BLK_STATE_USED \/ blk_state b = BLK_STATE_DIRTY) then
        let next := if decide (i + 1 = BLK_NUMS) then 0 else i + 1 in
        b' ← blk_get next;
        if decide (blk_state b' = BLK_STATE_CLEAN) then
          upd_mgr (fun m => m <| write_pos := wrap 16 (Z.shiftl i BLK_BITS + BLK_SIZE - space b) |>)
        else init_write_pos n (i + 1)
      else init_write_pos n (i + 1)
  end.

Definition kv_init : M Z :=
  r ← init_loop (Z.to_nat BLK_NUMS) 0 [];
  match r with
  | inl ret => mret ret
  | inr unclean =>
      ret ← init_unclean unclean;
      if decide (ret <> RES_OK) then mret ret else
      clean ← gets (fun s => clean_blk_nums (g_kv_mgr s));
      ret ← (if decide (clean = 0) then kv_block_format 0 else mret RES_OK);
      if decide (ret <> RES_OK) then mret ret else
      clean ← gets (fun s => clean_blk_nums (g_kv_mgr s));
      (if decide (clean = BLK_NUMS) then
         upd_mgr (fun m => m <| write_pos := BLK_HEADER_SIZE |>);;
         ret ← kv_state_set (Z.land BLK_HEADER_SIZE BLK_OFF_MASK) BLK_STATE_USED;
         if decide (ret = 0) then
           blk_upd 0 (fun b => b <| blk_state := BLK_STATE_USED |>);;
           upd_mgr (fun m => m <| clean_blk_nums ::= fun n => wrap 8 (n - 1) |>)
         else mret tt
       else init_write_pos (Z.to_nat BLK_NUMS) 0);;
      mret RES_OK
  end.

(** ** The collecting task *)

Fixpoint find_clean (n : nat) (i : Z) : M (option Z) :=
  match n with
  | O => mret None
  | S n => b ← blk_get i; if decide (blk_state b = BLK_STATE_CLEAN) then mret (Some i) else find_clean n (i + 1)
  end.

(** The first dirty block behind that of [origin_pos], going round, is copied and formatted;
    whether there was one. *)
Fixpoint gc_loop (fuel : nat) (i gc_index origin_pos : Z) : M bool :=
  match fuel with
  | O => wrong
  | S fuel =>
      let i := if decide (i = BLK_NUMS) then 0 else i in
      b ← blk_get i;
      if decide (blk_state b = BLK_STATE_DIRTY) then
        _ ← kv_item_traverse __item_gc_cb i [];
        ret ← kv_block_format i;
        if decide (ret <> RES_OK) then mret true else
        wpos ← gets (fun s => write_pos (g_kv_mgr s));
        _ ← kv_state_set (Z.land wpos BLK_OFF_MASK) BLK_STATE_USED;
        blk_upd gc_index (fun b => b <| blk_state := BLK_STATE_USED |>);;
        upd_mgr (fun m => m <| clean_blk_nums ::= fun n => wrap 8 (n - 1) |>);;
        mret true
      else if decide (i = Z.shiftr origin_pos BLK_BITS) then mret false
      else gc_loop fuel (i + 1) gc_index origin_pos
  end.

Definition gc_locked : M unit :=
  origin_pos ← gets (fun s => write_pos (g_kv_mgr s));
  clean ← gets (fun s => clean_blk_nums (g_kv_mgr s));
  if decide (clean = 0) then mret tt else
  g ← find_clean (Z.to_nat BLK_NUMS) 0;
  match g with
  | None => mret tt
  | Some gc_index =>
      upd_mgr (fun m => m <| write_pos := wrap 16 (Z.shiftl gc_index BLK_BITS + BLK_HEADER_SIZE) |>);;
      gc_copy ← gc_loop (S (Z.to_nat BLK_NUMS)) (Z.shiftr origin_pos BLK_BITS + 1) gc_index origin_pos;
      if (gc_copy : bool) then mret tt else upd_mgr (fun m => m <| write_pos := origin_pos |>)
  end.

Definition aos_kv_gc : M unit :=
  r ← aos_mutex_lock;
  (if decide (r <> 0) then mret tt else gc_locked);;
  upd_mgr (fun m => m <| gc_triggered := 0 |>);;
  aos_mutex_unlock;;
  w ← gets (fun s => gc_waiter (g_kv_mgr s));
  if decide (0 < w) then modify (fun s => s <| gc_wakes ::= Z.succ |>) else mret tt.

(** ** The calls *)

Definition aos_kv_del (key : list Z) : M Z :=
  ret ← aos_mutex_lock;
  if decide (ret <> RES_OK) then mret ret else
  item ← kv_item_get key;
  match item with
  | None => aos_mutex_unlock;; mret RES_ITEM_NOT_FOUND
  | Some item =>
      ret ← kv_item_del item KV_SELF_REMOVE;
      kv_item_free item;;
      aos_mutex_unlock;;
      mret ret
  end.

(** the part of [aos_kv_set] behind the wait for a collection *)
Definition kv_set_locked (key val : list Z) (len : Z) : M Z :=
  ret ← aos_mutex_lock;
  if decide (ret <> RES_OK) then mret ret else
  item ← kv_item_get key;
  ret ← match item with
        | Some item => ret ← kv_item_update item key val len; kv_item_free item;; mret ret
        | None => kv_item_store key val len 0
        end;
  aos_mutex_unlock;;
  mret ret.

(** [None] when the caller waits for the collection to end; it goes on with [kv_set_locked].
    A missing argument is [None]. *)
Definition aos_kv_set (key val : option (list Z)) (len : Z) : M (option Z) :=
  match key, val with
  | Some key, Some val =>
      if decide (len <= 0 \/ ITEM_MAX_KEY_LEN < Z.of_nat (length key) \/ ITEM_MAX_VAL_LEN < len)
      then mret (Some RES_INVALID_PARAM) else
      t ← gets (fun s => gc_triggered (g_kv_mgr s));
      if decide (t <> 0) then
        upd_mgr (fun m => m <| gc_waiter ::= fun n => wrap 8 (n + 1) |>);; mret None
      else Some <$> kv_set_locked key val len
  | _, _ => mret (Some RES_INVALID_PARAM)
  end.

(** The status, the bytes written to [buffer] and the new [\*buffer_len]; [buffer_len] is
    [None] for a missing argument. *)
Definition aos_kv_get (key : option (list Z)) (buffer_len : option Z) : M (Z * list Z * option Z) :=
  match key, buffer_len with
  | Some key, Some blen =>
      if decide (blen <= 0) then mret (RES_INVALID_PARAM, [], Some blen) else
      ret ← aos_mutex_lock;
      if decide (ret <> RES_OK) then mret (ret, [], Some blen) else
      item ← kv_item_get key;
      aos_mutex_unlock;;
      match item with
      | None => mret (RES_ITEM_NOT_FOUND, [], Some blen)
      | Some item =>
          if decide (blen < val_len (hdr item)) then
            kv_item_free item;; mret (RES_NO_SPACE, [], Some (val_len (hdr item)))
          else
            st ← of_option (istore item);
            v ← of_option (Ringbuf.mem_read st (Z.to_nat (key_len (hdr item))) (Z.to_nat (val_len (hdr item))));
            kv_item_free item;;
            mret (RES_OK, v, Some (val_len (hdr item)))
      end
  | _, _ => mret (RES_INVALID_PARAM, [], buffer_len)
  end.

Definition blank_mgr : kv_mgr_t :=
  mk_kv_mgr 0 0 0 0 0 false None (replicate (Z.to_nat BLK_NUMS) (mk_block_info 0 0)).

(** creating the mutex or the semaphore takes a block of memory of the kernel's *)
Definition sync_new (upd : kv_mgr_t -> kv_mgr_t) : M Z := fun s =>
  let fails := next_fails (mem_fails s) in
  let s := s <| mem_fails ::= tail |> in
  if fails then Done (- ENOMEM) s else Done 0 (s <| g_kv_mgr ::= upd |>).

Definition aos_kv_init : M Z :=
  i ← gets (fun s => kv_initialize (g_kv_mgr s));
  if decide (i <> 0) then mret RES_OK else
  if decide (BLK_NUMS <= KV_GC_RESERVED) then mret (- EINVAL) else
  upd_mgr (fun _ => blank_mgr);;
  ret ← sync_new (fun m => m <| kv_mutex := Some false |>);
  if decide (ret <> 0) then mret ret else
  ret ← kv_init;
  if decide (ret <> RES_OK) then mret ret else
  ret ← sync_new (fun m => m <| gc_sem := true |>);
  if decide (ret <> RES_OK) then mret ret else
  upd_mgr (fun m => m <| kv_initialize := 1 |>);;
  wpos ← gets (fun s => write_pos (g_kv_mgr s));
  b ← blk_get (Z.shiftr wpos BLK_BITS);
  clean ← gets (fun s => clean_blk_nums (g_kv_mgr s));
  (if decide (space b < ITEM_MAX_LEN /\ clean < KV_GC_RESERVED + 1) then trigger_gc else mret tt);;
  mret RES_OK.

Definition aos_kv_deinit : M unit :=
  upd_mgr (fun m => m <| kv_initialize := 0 |> <| gc_sem := false |> <| kv_mutex := None |>).

End kv.

(** what is left when the power comes back *)
Definition powered_up (fl : list Z) (power : option nat) : kv_state :=
  mk_kv blank_mgr fl power [] [] 0 0 0.
End Kv.
