(* ===== verification/KvBlock.v ===== *)
(** * What a block of the key-value store holds

    Items as abstract entries, the bytes of a block that holds them, and reading and writing
    such a block at the place of an entry. *)
From S2P Require Import Prelude Errno Ringbuf Kv.
Import Kv.

Module KvBlock.

(** The size of a block; it is sealed, so that no proof computes with it in unary, and linear
    arithmetic knows its value. *)
Lemma BS_sig : {n : nat | Z.of_nat n = 4096}.
Proof. by exists (Z.to_nat 4096). Qed.
Definition BS : nat := proj1_sig BS_sig.
#[global] Instance zify_BS : ZifyClasses.CstOp BS := { TCst := 4096; TCstInj := proj2_sig BS_sig }.
Add Zify CstOp zify_BS.

Lemma BS_eq : BS = Z.to_nat 4096.
Proof. lia. Qed.

(** An entry is a version of a key: live, or deleted; and where the version it replaced was. *)
Record entry := mk_entry {
  elive : bool;
  ekey : list Z;
  evalue : list Z;
  eorigin : Z;
}.
#[export] Instance entry_settable : Settable entry := fun e =>
  mk_entry (elive e) (ekey e) (evalue e) (eorigin e).

Definition entry_hdr (e : entry) : item_hdr_t :=
  mk_item_hdr ITEM_MAGIC_NUM (if elive e then ITEM_STATE_NORMAL else ITEM_STATE_DELETE)
    (utils_crc8 (ekey e ++ evalue e)) (Z.of_nat (length (ekey e))) (Z.of_nat (length (evalue e))) (eorigin e).

Definition entry_bytes (e : entry) : list Z := item_image (entry_hdr e) (ekey e) (evalue e).

Definition esize (e : entry) : nat := length (entry_bytes e).

(** No byte that marks an item is followed by the mark of a live one. *)
Definition plain (l : list Z) : Prop :=
  forall i, l !! i = Some ITEM_MAGIC_NUM -> l !! S i <> Some ITEM_STATE_NORMAL.

Definition is_byte (b : Z) : Prop := 0 <= b < 256.

(** an offset at which an item may have been *)
Definition origin_ok (o : Z) : Prop :=
  o = 0 \/ (0 <= o < 8192 /\ o mod 4 = 0 /\ 4 <= o mod 4096 <= 4088).

Record entry_ok (e : entry) : Prop := {
  key_ok : (1 <= length (ekey e) <= 128)%nat;
  value_ok : (1 <= length (evalue e) <= 512)%nat;
  bytes_ok : Forall is_byte (ekey e ++ evalue e);
  plain_ok : plain (ekey e ++ evalue e);
  eorigin_ok : origin_ok (eorigin e);
}.

Definition total (es : list entry) : nat := sum_list (esize <$> es).

(** A block: its header, the entries, and erased flash behind them. *)
Definition blk_bytes (st : Z) (es : list entry) : list Z :=
  block_hdr_bytes (mk_block_hdr BLK_MAGIC_NUM st) ++ concat (entry_bytes <$> es) ++ replicate (BS - 4 - total es) 255.

(** the [i]-th block of the partition *)
Definition blk (fl : list Z) (i : nat) : list Z := take BS (drop (BS * i) fl).

Record blk_is (fl : list Z) (i : nat) (st : Z) (es : list entry) : Prop := {
  blk_holds : blk fl i = blk_bytes st es;
  blk_room : (total es < BS - 4)%nat;
  blk_entries : Forall entry_ok es;
}.

Definition erased (fl : list Z) (i : nat) : Prop := blk fl i = replicate BS 255.

#[global] Arguments esize : simpl never.
#[global] Arguments entry_bytes : simpl never.
#[global] Arguments total : simpl never.
#[global] Arguments blk_bytes : simpl never.

(** ** Checksums are bytes *)

Lemma crc_bits_byte n c : is_byte c -> is_byte (crc_bits n c).
Proof.
  revert c. induction n as [|n IH]; intros c Hc; cbn; [done|]. apply IH.
  unfold is_byte. set (x := if decide _ then _ else _). pose proof (wrap_range 8 x). lia.
Qed.

Lemma byte_bits b : is_byte b <-> b = Z.land b 255.
Proof.
  unfold is_byte. replace 255 with (Z.ones 8) by done. rewrite Z.land_ones by lia.
  split; intros; [rewrite Z.mod_small; lia|]. pose proof (Z.mod_pos_bound b (2 ^ 8)). lia.
Qed.

Lemma lxor_byte a b : is_byte a -> is_byte b -> is_byte (Z.lxor a b).
Proof.
  rewrite !byte_bits. intros Ha Hb. rewrite Ha at 1. rewrite Hb at 1.
  apply Z.bits_inj'. intros i Hi. rewrite !Z.land_spec, !Z.lxor_spec, !Z.land_spec.
  by destruct (Z.testbit a i), (Z.testbit b i), (Z.testbit 255 i).
Qed.

Lemma crc8_byte l : Forall is_byte l -> is_byte (utils_crc8 l).
Proof.
  unfold utils_crc8. assert (Hz : is_byte 0) by (unfold is_byte; lia). revert Hz. generalize 0.
  induction l as [|b l IH]; intros c Hc Hl; cbn [foldl]; [done|]. apply Forall_cons in Hl as [Hb Hl].
  apply IH; [|done]. by apply crc_bits_byte, lxor_byte.
Qed.

(** ** Sizes *)

Lemma item_align_eq n : 0 <= n < 65000 -> item_align n = 4 * ((n + 3) / 4).
Proof.
  intros Hn. unfold item_align, KV_ALIGN_MASK. rewrite Z.lnot_involutive.
  replace (Z.land (n + (4 - 1)) (Z.lnot (4 - 1))) with (4 * ((n + 3) / 4)).
  - apply wrap_small. pose proof (Z.mul_div_le (n + 3) 4 ltac:(lia)). pose proof (Z.div_pos (n + 3) 4 ltac:(lia) ltac:(lia)). lia.
  - replace (4 - 1) with (Z.ones 2) by done. rewrite <- Z.ldiff_land, Z.ldiff_ones_r by lia.
    rewrite Z.shiftl_mul_pow2, Z.shiftr_div_pow2 by lia. replace (Z.ones 2) with 3 by done. replace (2 ^ 2) with 4 by done. lia.
Qed.

Lemma item_align_bounds n : 0 <= n < 65000 -> n <= item_align n < n + 4.
Proof. intros Hn. rewrite item_align_eq by done. pose proof (Z.div_mod (n + 3) 4 ltac:(lia)). pose proof (Z.mod_pos_bound (n + 3) 4 ltac:(lia)). lia. Qed.

Definition dsize (e : entry) : nat := length (ekey e) + length (evalue e).

Lemma esize_eq e : entry_ok e -> Z.of_nat (esize e) = item_align (8 + Z.of_nat (dsize e)).
Proof.
  intros [Hk Hv _ _ _]. unfold esize, entry_bytes, item_image, dsize. rewrite !length_app, length_replicate. cbn -[item_align].
  unfold ITEM_HEADER_SIZE. replace (8 + Z.of_nat (length (ekey e) + length (evalue e)))
    with (8 + Z.of_nat (length (ekey e)) + Z.of_nat (length (evalue e))) by lia.
  pose proof (item_align_bounds (8 + Z.of_nat (length (ekey e)) + Z.of_nat (length (evalue e)))). lia.
Qed.

Lemma esize_bounds e : entry_ok e -> (12 <= esize e <= 648)%nat.
Proof.
  intros He. pose proof (esize_eq e He) as Hs. destruct He as [Hk Hv _ _ _]. unfold dsize in Hs.
  rewrite item_align_eq in Hs by lia.
  pose proof (Z.div_mod (8 + Z.of_nat (length (ekey e) + length (evalue e)) + 3) 4 ltac:(lia)).
  pose proof (Z.mod_pos_bound (8 + Z.of_nat (length (ekey e) + length (evalue e)) + 3) 4 ltac:(lia)). lia.
Qed.

Lemma esize_mult4 e : entry_ok e -> (Z.of_nat (esize e)) mod 4 = 0.
Proof.
  intros He. rewrite esize_eq by done. destruct He as [Hk Hv _ _ _]. unfold dsize. rewrite item_align_eq by lia.
  rewrite Z.mul_comm. apply Z.mod_mul. lia.
Qed.

Lemma total_nil : total [] = 0%nat.
Proof. done. Qed.
Lemma total_cons e es : total (e :: es) = (esize e + total es)%nat.
Proof. done. Qed.
Lemma total_app es es' : total (es ++ es') = (total es + total es')%nat.
Proof. unfold total. by rewrite fmap_app, sum_list_with_app. Qed.

Lemma length_concat_entries es : length (concat (entry_bytes <$> es)) = total es.
Proof.
  induction es as [|e es IH]; [done|]. cbn. rewrite length_app. by rewrite IH.
Qed.

Lemma total_mult4 es : Forall entry_ok es -> (Z.of_nat (total es)) mod 4 = 0.
Proof.
  induction 1 as [|e es He Hes IH]; [done|]. rewrite total_cons, Nat2Z.inj_add, Zplus_mod, IH, esize_mult4; done.
Qed.

Lemma length_blk_bytes st es : (total es <= BS - 4)%nat -> length (blk_bytes st es) = BS.
Proof. intros. unfold blk_bytes. rewrite !length_app, length_replicate, length_concat_entries. cbn. lia. Qed.

(** the place of the [k]-th entry in its block *)
Definition offset (es : list entry) (k : nat) : nat := 4 + total (take k es).

Lemma offset_app es1 es2 : offset (es1 ++ es2) (length es1) = (4 + total es1)%nat.
Proof. unfold offset. by rewrite take_app_length. Qed.
End KvBlock.
