(* ===== verification/KvLogic.v ===== *)
(** * Reasoning about the key-value store

    [wpc m Q C s]: from [s] the call [m] does nothing undefined; when it ends, its result and
    state satisfy [Q], and when the power goes on the way, the flash satisfies [C].  Then the
    rules of the operations on flash and memory, and of reading and writing blocks. *)
From S2P Require Import Prelude Errno Ringbuf Kv KvBlock.
Import Kv KvBlock.

Module KvLogic.

Definition wpc {A} (m : M A) (Q : A -> kv_state -> Prop) (C : list Z -> Prop) (s : kv_state) : Prop :=
  match m s with Done a s' => Q a s' | Lost fl => C fl | Wrong => False end.

(** a state in which the operations of the HAL and the allocations to come succeed *)
Notation kvs m fl pw n t w := (mk_kv m fl pw [] [] n t w).

(** The flash holds [B] in its block [i] and [B'] in the other one. *)
Record halves (fl : list Z) (i : nat) (B B' : list Z) : Prop := {
  halves_index : (i < 2)%nat;
  halves_length : length fl = (2 * BS)%nat;
  halves_this : blk fl i = B;
  halves_other : blk fl (1 - i) = B';
}.

Lemma halves_swap fl i B B' : halves fl i B B' -> halves fl (1 - i) B' B.
Proof.
  intros [Hi Hl H1 H2]. split; [lia|done|done|]. by replace (1 - (1 - i))%nat with i by lia.
Qed.

(** the test of a status that reports success *)
Ltac no_err := rewrite decide_False by (let Hne := fresh in intros Hne; by apply Hne).

Section rules.
Context {A B : Type}.

Lemma wpc_ret (a : A) Q C s : Q a s -> wpc (mret a) Q C s.
Proof. done. Qed.

Lemma wpc_bind (m : M A) (f : A -> M B) Q C s :
  wpc m (fun a s' => wpc (f a) Q C s') C s -> wpc (m ≫= f) Q C s.
Proof. unfold wpc, mbind, M_bind. by destruct (m s). Qed.

Lemma wpc_mono (m : M A) (P Q : A -> kv_state -> Prop) (C D : list Z -> Prop) s :
  wpc m P C s -> (forall a s', P a s' -> Q a s') -> (forall fl, C fl -> D fl) -> wpc m Q D s.
Proof. unfold wpc. destruct (m s); eauto. Qed.

Lemma wpc_fmap (f : A -> B) (m : M A) Q C s : wpc m (fun a s' => Q (f a) s') C s -> wpc (f <$> m) Q C s.
Proof. unfold wpc, fmap, M_fmap. by destruct (m s). Qed.

Lemma wpc_gets (f : kv_state -> A) Q C s : Q (f s) s -> wpc (gets f) Q C s.
Proof. done. Qed.

Lemma wpc_modify (f : kv_state -> kv_state) Q C s : Q tt (f s) -> wpc (modify f) Q C s.
Proof. done. Qed.

Lemma wpc_of_option (o : option A) a Q C s : o = Some a -> Q a s -> wpc (of_option o) Q C s.
Proof. by intros ->. Qed.
End rules.

Section kv.
Context `{FlashMem}.
Implicit Types (m : kv_mgr_t) (fl B : list Z) (pw : option nat) (n t w : Z).

Lemma wpc_upd_mgr f Q C m fl pw n t w : Q tt (kvs (f m) fl pw n t w) -> wpc (upd_mgr f) Q C (kvs m fl pw n t w).
Proof. done. Qed.

Lemma wpc_blk_get i b Q C m fl pw n t w :
  block_info m !! Z.to_nat i = Some b -> Q b (kvs m fl pw n t w) -> wpc (blk_get i) Q C (kvs m fl pw n t w).
Proof. unfold wpc, blk_get. cbn. intros ->. done. Qed.

Lemma wpc_blk_upd i f b Q C m fl pw n t w :
  block_info m !! Z.to_nat i = Some b ->
  Q tt (kvs (m <| block_info ::= <[Z.to_nat i := f b]> |>) fl pw n t w) -> wpc (blk_upd i f) Q C (kvs m fl pw n t w).
Proof. intros Hb HQ. unfold blk_upd. apply wpc_bind. eapply wpc_blk_get; [done|]. done. Qed.

Lemma wpc_malloc sz Q C m fl pw n t w :
  sz <> 0 -> Q true (kvs m fl pw (n + 1) t w) -> wpc (aos_malloc sz) Q C (kvs m fl pw n t w).
Proof. intros Hs HQ. unfold wpc, aos_malloc. rewrite decide_False by done. cbn. unfold Z.succ. done. Qed.

Lemma wpc_free Q C m fl pw n t w : Q tt (kvs m fl pw (n - 1) t w) -> wpc aos_free Q C (kvs m fl pw n t w).
Proof. done. Qed.

(** ** The flash by blocks *)

Lemma blk_read fl i off k : (i < 2)%nat -> length fl = (2 * BS)%nat -> (off + k <= BS)%nat ->
  Ringbuf.mem_read fl (BS * i + off) k = Some (take k (drop off (blk fl i))).
Proof.
  intros Hi Hl Ho. unfold Ringbuf.mem_read. rewrite decide_True by lia. f_equal. unfold blk.
  apply list_eq. intros j. destruct (decide (j < k)%nat); [|by rewrite !lookup_take_ge by lia].
  rewrite !(lookup_take_lt _ k), !lookup_drop, lookup_take_lt, lookup_drop by lia. f_equal. lia.
Qed.

Lemma length_blk fl i : (i < 2)%nat -> length fl = (2 * BS)%nat -> length (blk fl i) = BS.
Proof. intros. unfold blk. rewrite length_take, length_drop. lia. Qed.

Lemma blk_lookup fl i j : (j < BS)%nat -> blk fl i !! j = fl !! (BS * i + j)%nat.
Proof. intros. unfold blk. by rewrite lookup_take_lt, lookup_drop. Qed.

Lemma blk_write fl i pre old post B' new :
  halves fl i (pre ++ old ++ post) B' -> length new = length old ->
  exists fl', Ringbuf.mem_write fl (BS * i + length pre) new = Some fl' /\ halves fl' i (pre ++ new ++ post) B'.
Proof.
  intros [Hi Hl H1 H2] Hn. pose proof (length_blk fl i Hi Hl) as Hlb. rewrite H1, !length_app in Hlb.
  destruct (Ringbuf.mem_write_spec fl (BS * i + length pre) new) as (fl' & -> & Hl' & Hw); [lia|].
  exists fl'. split; [done|]. split; [done|lia| |].
  - apply list_eq. intros j. destruct (decide (j < BS)%nat).
    + rewrite blk_lookup, Hw by done. assert (Hj : blk fl i !! j = fl !! (BS * i + j)%nat) by by apply blk_lookup.
      rewrite <- Hj, H1. destruct (decide (j < length pre)%nat).
      { rewrite decide_False by lia. by rewrite !lookup_app_l by lia. }
      rewrite !(lookup_app_r pre) by lia. destruct (decide (j < length pre + length new)%nat).
      { rewrite decide_True, (lookup_app_l new) by lia. f_equal. lia. }
      rewrite decide_False by lia. rewrite !lookup_app_r by lia. f_equal. lia.
    + rewrite !lookup_ge_None_2; [done|rewrite !length_app; lia|].
      rewrite (length_blk fl' i); lia.
  - rewrite <- H2. apply list_eq. intros j. destruct (decide (j < BS)%nat).
    + rewrite !blk_lookup, Hw by done. rewrite decide_False; [done|lia].
    + rewrite !lookup_ge_None_2; [done|rewrite (length_blk fl); lia|rewrite (length_blk fl'); lia].
Qed.

Lemma wpc_raw_read pos buf i off B B' Q C m fl pw n t w :
  halves fl i B B' -> pos = Z.of_nat (BS * i + off) -> (off + length buf <= BS)%nat ->
  Q (0, take (length buf) (drop off B)) (kvs m fl pw n t w) ->
  wpc (raw_read pos buf) Q C (kvs m fl pw n t w).
Proof.
  intros [Hi Hl H1 H2] -> Ho HQ. unfold wpc, raw_read. cbn.
  rewrite Nat2Z.id, blk_read by done. by rewrite H1.
Qed.

(** what programming can do to a cell *)
Definition clears (old new : Z) : Prop := Z.land old new = new.

Lemma prog_zip old new : Forall2 clears old new -> zip_with prog old new = new.
Proof. induction 1 as [|o b old new Ho HF IH]; [done|]. cbn. by rewrite IH, prog_clears. Qed.

Lemma wpc_hal_op eff fl' Q (C : list Z -> Prop) m fl pw n t w :
  C fl -> eff fl = Some fl' -> (forall pw', Q 0 (kvs m fl' pw' n t w)) -> wpc (hal_op eff) Q C (kvs m fl pw n t w).
Proof.
  intros HC He HQ. unfold wpc, hal_op. cbn. destruct pw as [[|k]|]; cbn; [done|..]; rewrite He; apply HQ.
Qed.

Lemma wpc_raw_write pos new i pre old post B' Q (C : list Z -> Prop) m fl pw n t w :
  halves fl i (pre ++ old ++ post) B' -> pos = Z.of_nat (BS * i + length pre) -> Forall2 clears old new ->
  C fl -> (forall fl' pw', halves fl' i (pre ++ new ++ post) B' -> Q 0 (kvs m fl' pw' n t w)) ->
  wpc (raw_write pos new) Q C (kvs m fl pw n t w).
Proof.
  intros Hh -> Hc HC HQ. pose proof (Forall2_length _ _ _ Hc) as Hlen. pose proof Hh as [Hi Hl H1 H2].
  pose proof (length_blk fl i Hi Hl) as Hlb. rewrite H1, !length_app in Hlb.
  destruct (blk_write fl i pre old post B' new Hh) as (fl' & Hw & Hh'); [done|].
  unfold raw_write. eapply wpc_hal_op; [done| |intros; by apply HQ].
  rewrite Nat2Z.id, blk_read by (done || lia). cbn. rewrite H1, drop_app_length, <- Hlen, take_app_length.
  by rewrite prog_zip.
Qed.

Lemma wpc_raw_erase pos i B B' Q (C : list Z -> Prop) m fl pw n t w :
  halves fl i B B' -> pos = Z.of_nat (BS * i) -> C fl ->
  (forall fl' pw', halves fl' i (replicate BS 255) B' -> Q 0 (kvs m fl' pw' n t w)) ->
  wpc (raw_erase pos BLK_SIZE) Q C (kvs m fl pw n t w).
Proof.
  intros Hh -> HC HQ. pose proof Hh as [Hi Hl H1 H2]. pose proof (length_blk fl i Hi Hl) as Hlb.
  destruct (blk_write fl i [] B [] B' (replicate BS 255)) as (fl' & Hw & Hh').
  { by rewrite app_nil_r. }
  { rewrite length_replicate. by rewrite <- H1, Hlb. }
  unfold raw_erase. eapply wpc_hal_op; [done| |intros; apply HQ; by rewrite app_nil_r in Hh'].
  rewrite Nat2Z.id. rewrite Nat.add_0_r in Hw. replace (Z.to_nat BLK_SIZE) with BS; [done|]. by rewrite BS_eq.
Qed.
End kv.
End KvLogic.
