(* ===== verification/KvItems.v ===== *)
(** * Reading and writing the entries of a block *)
From S2P Require Import Prelude Errno Ringbuf Kv KvBlock KvLogic.
Import Kv KvBlock KvLogic.

Module KvItems.

(** ** Headers *)

Lemma word_of_bytes v : 0 <= v < 65536 ->
  Z.lor (Ringbuf.byte_of v 0) (Z.shiftl (Ringbuf.byte_of v 1) 8) = v.
Proof.
  intros Hv. apply Z.bits_inj'. intros j Hj. rewrite Z.lor_spec, Z.shiftl_spec by lia.
  rewrite Ringbuf.byte_of_bits by lia. destruct (decide (j < 8)).
  - rewrite bool_decide_true by lia. rewrite andb_true_r, (Z.testbit_neg_r _ (j - 8)) by lia.
    by rewrite orb_false_r.
  - rewrite bool_decide_false by lia. rewrite andb_false_r. cbn [orb]. rewrite Ringbuf.byte_of_bits by lia.
    replace (8 * 1 + (j - 8)) with j by lia. destruct (decide (j - 8 < 8)).
    + rewrite bool_decide_true by lia. by rewrite andb_true_r.
    + rewrite (testbit_above 16 v j) by lia. done.
Qed.

Lemma item_hdr_roundtrip h : 0 <= val_len h < 65536 -> 0 <= origin_off h < 65536 ->
  item_hdr_of_bytes (item_hdr_bytes h) = Some h.
Proof. intros Hv Ho. destruct h. cbn in *. by rewrite !word_of_bytes. Qed.

Lemma origin_bound o : origin_ok o -> 0 <= o < 65536.
Proof. intros [->|?]; lia. Qed.

Lemma entry_hdr_roundtrip e : entry_ok e -> item_hdr_of_bytes (item_hdr_bytes (entry_hdr e)) = Some (entry_hdr e).
Proof. intros [Hk Hv _ _ Ho]. apply item_hdr_roundtrip; cbn; [lia|]. by apply origin_bound. Qed.

Lemma byte_of_is_byte v i : is_byte (Ringbuf.byte_of v i).
Proof. apply Ringbuf.byte_of_range. Qed.

Lemma entry_bytes_are_bytes e : entry_ok e -> Forall is_byte (entry_bytes e).
Proof.
  intros [Hk Hv Hb _ _]. unfold entry_bytes, item_image, item_hdr_bytes.
  rewrite (app_assoc (ekey e)). apply Forall_app_2; [|apply Forall_app_2; [done|]].
  - cbn. repeat apply Forall_cons_2; try apply byte_of_is_byte; try by apply crc8_byte.
    + done.
    + by destruct (elive e).
    + unfold is_byte. lia.
    + done.
  - apply Forall_replicate. done.
Qed.

(** ** The parts of a block *)

(** everything before the next entry *)
Definition lead (st : Z) (es : list entry) : list Z :=
  block_hdr_bytes (mk_block_hdr BLK_MAGIC_NUM st) ++ concat (entry_bytes <$> es).

Lemma length_lead st es : length (lead st es) = (4 + total es)%nat.
Proof. unfold lead. rewrite length_app, length_concat_entries. done. Qed.

Lemma blk_bytes_lead st es : blk_bytes st es = lead st es ++ replicate (BS - 4 - total es) 255.
Proof. unfold blk_bytes, lead. by rewrite app_assoc. Qed.

(** what follows an entry *)
Definition rest (es1 : list entry) (e : entry) (es2 : list entry) : list Z :=
  concat (entry_bytes <$> es2) ++ replicate (BS - 4 - total (es1 ++ e :: es2)) 255.

Lemma blk_bytes_split st es1 e es2 :
  blk_bytes st (es1 ++ e :: es2) = lead st es1 ++ entry_bytes e ++ rest es1 e es2.
Proof. unfold blk_bytes, lead, rest. rewrite fmap_app, concat_app. cbn [fmap list_fmap concat]. by rewrite <- !app_assoc. Qed.

(** the padding of an entry *)
Definition padding (e : entry) : list Z := drop (8 + dsize e) (entry_bytes e).

Lemma entry_bytes_parts e : entry_ok e ->
  exists n, entry_bytes e = item_hdr_bytes (entry_hdr e) ++ (ekey e ++ evalue e) ++ replicate n 0 /\
    esize e = (8 + dsize e + n)%nat.
Proof.
  intros He. eexists. split; [unfold entry_bytes, item_image; by rewrite <- app_assoc|].
  unfold esize, entry_bytes, item_image, dsize. rewrite !length_app, length_replicate. cbn -[item_align]. lia.
Qed.

Section reads.
Context (st : Z) (es1 : list entry) (e : entry) (es2 : list entry) (He : entry_ok e).

Lemma drop_entry k :
  drop (4 + total es1 + k) (blk_bytes st (es1 ++ e :: es2)) = drop k (entry_bytes e ++ rest es1 e es2).
Proof using. rewrite blk_bytes_split, <- drop_drop, <- (length_lead st), drop_app_length. done. Qed.

Lemma read_entry : take (esize e) (drop (4 + total es1) (blk_bytes st (es1 ++ e :: es2))) = entry_bytes e.
Proof using. rewrite <- (Nat.add_0_r (4 + total es1)), drop_entry. cbn [drop]. apply take_app_length. Qed.

Lemma read_entry_hdr : take 8 (drop (4 + total es1) (blk_bytes st (es1 ++ e :: es2))) = item_hdr_bytes (entry_hdr e).
Proof using He.
  rewrite <- (Nat.add_0_r (4 + total es1)), drop_entry. cbn [drop].
  destruct (entry_bytes_parts e He) as (n & -> & _). by rewrite <- app_assoc.
Qed.

Lemma read_entry_data k : (k <= dsize e)%nat ->
  take k (drop (4 + total es1 + 8) (blk_bytes st (es1 ++ e :: es2))) = take k (ekey e ++ evalue e).
Proof using He.
  intros Hk. rewrite drop_entry. destruct (entry_bytes_parts e He) as (n & -> & _).
  rewrite <- !app_assoc. change 8%nat with (length (item_hdr_bytes (entry_hdr e))).
  rewrite drop_app_length, app_assoc, take_app_le; [done|]. rewrite length_app. done.
Qed.
End reads.

(** behind the last entry the flash is erased *)
Lemma read_behind st es k : (4 + total es + k <= BS)%nat ->
  take k (drop (4 + total es) (blk_bytes st es)) = replicate k 255.
Proof.
  intros Hk. rewrite blk_bytes_lead, <- (length_lead st), drop_app_length, take_replicate. f_equal. lia.
Qed.

(** ** Positions *)

Lemma shift_blk i : Z.shiftl (Z.of_nat i) BLK_BITS = Z.of_nat (BS * i).
Proof. unfold BLK_BITS. rewrite Z.shiftl_mul_pow2 by lia. lia. Qed.

Lemma blk_of_pos i off : (off < BS)%nat -> Z.shiftr (Z.of_nat (BS * i + off)) BLK_BITS = Z.of_nat i.
Proof.
  intros Ho. unfold BLK_BITS. rewrite Z.shiftr_div_pow2 by lia. change (2 ^ 12) with 4096.
  replace (Z.of_nat (BS * i + off)) with (Z.of_nat off + Z.of_nat i * 4096) by lia.
  rewrite Z.div_add, Z.div_small by lia. lia.
Qed.

Lemma off_mask i off : (off < BS)%nat -> Z.land (Z.of_nat (BS * i + off)) BLK_OFF_MASK = Z.of_nat (BS * i).
Proof.
  intros Ho. unfold BLK_OFF_MASK. change (BLK_SIZE - 1) with (Z.ones 12).
  rewrite <- Z.ldiff_land, Z.ldiff_ones_r by lia. change 12 with BLK_BITS at 1.
  rewrite blk_of_pos by done. unfold BLK_BITS. rewrite Z.shiftl_mul_pow2 by lia. lia.
Qed.

(** ** Writes *)

Section writes.
Context `{FlashMem}.
Implicit Types (Q : Z -> kv_state -> Prop) (C : list Z -> Prop).

(** the bytes of an entry behind its state *)
Definition entry_tail (e : entry) : list Z :=
  [crc (entry_hdr e); key_len (entry_hdr e); Ringbuf.byte_of (val_len (entry_hdr e)) 0; Ringbuf.byte_of (val_len (entry_hdr e)) 1;
   Ringbuf.byte_of (eorigin e) 0; Ringbuf.byte_of (eorigin e) 1] ++ drop 8 (entry_bytes e).

Lemma entry_bytes_state e :
  entry_bytes e = [ITEM_MAGIC_NUM; if elive e then ITEM_STATE_NORMAL else ITEM_STATE_DELETE] ++ entry_tail e.
Proof. done. Qed.

Lemma entry_tail_dead e : entry_tail (e <| elive := false |>) = entry_tail e.
Proof. done. Qed.

Lemma esize_dead e : esize (e <| elive := false |>) = esize e.
Proof. done. Qed.

Lemma entry_ok_dead e : entry_ok e -> entry_ok (e <| elive := false |>).
Proof. intros [? ? ? ? ?]. by split. Qed.

Lemma wpc_kill i st es1 e es2 B' Q C m fl pw n t w :
  halves fl i (blk_bytes st (es1 ++ e :: es2)) B' -> C fl ->
  (forall fl' pw', halves fl' i (blk_bytes st (es1 ++ e <| elive := false |> :: es2)) B' -> Q 0 (kvs m fl' pw' n t w)) ->
  wpc (kv_state_set (Z.of_nat (BS * i + (4 + total es1))) ITEM_STATE_DELETE) Q C (kvs m fl pw n t w).
Proof.
  intros Hh HC HQ. unfold kv_state_set, KV_STATE_OFF.
  set (sb := if elive e then ITEM_STATE_NORMAL else ITEM_STATE_DELETE).
  eapply (wpc_raw_write _ _ i (lead st es1 ++ [ITEM_MAGIC_NUM]) [sb] (entry_tail e ++ rest es1 e es2)); [..|done|].
  - rewrite blk_bytes_split, entry_bytes_state in Hh. by rewrite <- app_assoc in *.
  - rewrite length_app, length_lead. cbn. lia.
  - repeat constructor. apply Z.land_0_r.
  - intros fl' pw' Hh'. apply HQ. rewrite blk_bytes_split, entry_bytes_state, entry_tail_dead.
    cbn [elive]. rewrite <- app_assoc in Hh'.
    assert (rest es1 (e <| elive := false |>) es2 = rest es1 e es2) as ->; [|done].
    unfold rest. by rewrite !total_app, !total_cons, esize_dead.
Qed.

Lemma wpc_mark i st st' es B' Q C m fl pw n t w :
  halves fl i (blk_bytes st es) B' -> Z.land st st' = st' -> C fl ->
  (forall fl' pw', halves fl' i (blk_bytes st' es) B' -> Q 0 (kvs m fl' pw' n t w)) ->
  wpc (kv_state_set (Z.of_nat (BS * i)) st') Q C (kvs m fl pw n t w).
Proof.
  intros Hh Hst HC HQ. unfold kv_state_set, KV_STATE_OFF.
  eapply (wpc_raw_write _ _ i [BLK_MAGIC_NUM] [st] ([0; 0] ++ concat (entry_bytes <$> es) ++ replicate (BS - 4 - total es) 255)); [..|done|].
  - done.
  - cbn. lia.
  - by repeat constructor.
  - intros fl' pw' Hh'. by apply HQ.
Qed.

Lemma clears_erased l : Forall is_byte l -> Forall2 clears (replicate (length l) 255) l.
Proof.
  induction 1 as [|b l Hb Hl IH]; cbn; constructor; [|done]. unfold clears. rewrite Z.land_comm. symmetry. by apply byte_bits.
Qed.

Lemma wpc_append i st es e B' Q C m fl pw n t w :
  halves fl i (blk_bytes st es) B' -> entry_ok e -> (total es + esize e <= BS - 4)%nat -> C fl ->
  (forall fl' pw', halves fl' i (blk_bytes st (es ++ [e])) B' -> Q 0 (kvs m fl' pw' n t w)) ->
  wpc (raw_write (Z.of_nat (BS * i + (4 + total es))) (entry_bytes e)) Q C (kvs m fl pw n t w).
Proof.
  intros Hh He Hr HC HQ.
  eapply (wpc_raw_write _ _ i (lead st es) (replicate (esize e) 255) (replicate (BS - 4 - total (es ++ [e])) 255)); [..|done|].
  - rewrite blk_bytes_lead in Hh. rewrite <- replicate_add. rewrite total_app, total_cons, total_nil.
    by replace (esize e + (BS - 4 - (total es + (esize e + 0))))%nat with (BS - 4 - total es)%nat by lia.
  - by rewrite length_lead.
  - apply clears_erased. by apply entry_bytes_are_bytes.
  - intros fl' pw' Hh'. apply HQ. rewrite blk_bytes_split. unfold rest. cbn. done.
Qed.

Lemma wpc_format_hdr i B' Q C m fl pw n t w :
  halves fl i (replicate BS 255) B' -> C fl ->
  (forall fl' pw', halves fl' i (blk_bytes BLK_STATE_CLEAN []) B' -> Q 0 (kvs m fl' pw' n t w)) ->
  wpc (raw_write (Z.of_nat (BS * i)) (block_hdr_bytes (mk_block_hdr BLK_MAGIC_NUM BLK_STATE_CLEAN))) Q C (kvs m fl pw n t w).
Proof.
  intros Hh HC HQ.
  eapply (wpc_raw_write _ _ i [] (replicate 4 255) (replicate (BS - 4) 255)); [..|done|].
  - cbn [app]. rewrite <- replicate_add. by replace (4 + (BS - 4))%nat with BS by lia.
  - cbn. lia.
  - repeat constructor.
  - intros fl' pw' Hh'. apply HQ. unfold blk_bytes. rewrite total_nil, Nat.sub_0_r. done.
Qed.
End writes.

(** ** An offset that looks like a live item is one

    [seen B off] are the marks at the place [off] of the block [B]. *)
Definition looks_live (B : list Z) (off : nat) : Prop :=
  B !! off = Some ITEM_MAGIC_NUM /\ B !! S off = Some ITEM_STATE_NORMAL.

Lemma entry_looks_live e j : entry_ok e -> (j < esize e)%nat -> (Z.of_nat j) mod 4 = 0 ->
  entry_bytes e !! j = Some ITEM_MAGIC_NUM -> entry_bytes e !! S j = Some ITEM_STATE_NORMAL ->
  j = 0%nat /\ elive e = true.
Proof.
  intros He Hj Hm H1 H2. destruct (decide (j = 0%nat)) as [->|Hj0].
  { split; [done|]. rewrite entry_bytes_state in H2. cbn in H2. by destruct (elive e). }
  exfalso. destruct (entry_bytes_parts e He) as (n & Heq & Hsz). rewrite Heq in H1, H2.
  destruct He as [Hk Hv Hb Hp Ho].
  assert (4 <= j)%nat as Hj4 by (pose proof (Z.div_mod (Z.of_nat j) 4 ltac:(lia)); lia).
  destruct (decide (j < 8)%nat) as [Hj8|Hj8].
  { assert (j = 4%nat) as ->. { pose proof (Z.div_mod (Z.of_nat j) 4 ltac:(lia)). lia. }
    cbn in H2. injection H2 as H2. assert (Z.testbit 238 7 = true) as Hb7 by done.
    change ITEM_STATE_NORMAL with 238 in H2. rewrite <- H2, Ringbuf.byte_of_bits in Hb7 by lia.
    rewrite (testbit_above 10) in Hb7 by lia. done. }
  rewrite lookup_app_r in H1, H2 by (cbn; lia). cbn [length item_hdr_bytes] in H1, H2.
  replace (S j - 8)%nat with (S (j - 8)) in H2 by lia.
  destruct (decide (j - 8 < length (ekey e ++ evalue e))%nat) as [Hd|Hd].
  - rewrite lookup_app_l in H1 by done. destruct (decide (S (j - 8) < length (ekey e ++ evalue e))%nat).
    + rewrite lookup_app_l in H2 by done. by apply (Hp _ H1).
    + rewrite lookup_app_r in H2 by lia. apply lookup_replicate in H2 as [? _]. done.
  - rewrite lookup_app_r in H1 by lia. apply lookup_replicate in H1 as [? _]. done.
Qed.

Lemma blk_looks_live st es off : Forall entry_ok es -> (4 <= off)%nat -> (Z.of_nat off) mod 4 = 0 ->
  looks_live (blk_bytes st es) off ->
  exists es1 e es2, es = es1 ++ e :: es2 /\ off = (4 + total es1)%nat /\ elive e = true.
Proof.
  intros Hes Ho Hm Hl.
  assert (Hg : forall tl es off, Forall entry_ok es -> (Z.of_nat off) mod 4 = 0 -> (forall j, tl !! j <> Some ITEM_MAGIC_NUM) ->
    looks_live (concat (entry_bytes <$> es) ++ tl) off ->
    exists es1 e es2, es = es1 ++ e :: es2 /\ off = total es1 /\ elive e = true).
  { clear. intros tl es. induction es as [|e es IH]; intros off Hes Hm Ht [H1 H2]; [by apply Ht in H1|].
    apply Forall_cons in Hes as [He Hes]. cbn [fmap list_fmap concat] in H1, H2. rewrite <- app_assoc in H1, H2.
    pose proof (esize_mult4 e He) as Hs4. destruct (decide (off < esize e)%nat) as [Hoff|Hoff].
    - rewrite lookup_app_l in H1 by done.
      assert (Hs : (S off < esize e)%nat).
      { pose proof (Z.div_mod (Z.of_nat off) 4 ltac:(lia)). pose proof (Z.div_mod (Z.of_nat (esize e)) 4 ltac:(lia)). lia. }
      rewrite lookup_app_l in H2 by done.
      destruct (entry_looks_live e off He Hoff Hm H1 H2) as [-> Hl]. by exists [], e, es.
    - rewrite lookup_app_r in H1, H2 by (fold (esize e); lia). fold (esize e) in H1, H2.
      destruct (IH (off - esize e)%nat) as (es1 & e' & es2 & -> & Heq & Hl'); [done| |done| |].
      + rewrite Nat2Z.inj_sub, Zminus_mod, Hm, Hs4 by lia. done.
      + split; [done|]. by replace (S (off - esize e)) with (S off - esize e)%nat by lia.
      + exists (e :: es1), e', es2. split; [done|]. split; [rewrite total_cons; lia|done]. }
  destruct Hl as [H1 H2]. unfold blk_bytes in H1, H2. rewrite lookup_app_r in H1, H2 by (cbn; lia).
  destruct (Hg (replicate (BS - 4 - total es) 255) es (off - 4)%nat) as (es1 & e & es2 & -> & Heq & Hl); [done| | | |].
  - rewrite Nat2Z.inj_sub, Zminus_mod, Hm by lia. done.
  - intros j Hj. apply lookup_replicate in Hj as [? _]. done.
  - split; [done|]. by replace (S (off - 4)) with (S off - 4)%nat by lia.
  - exists es1, e, es2. split; [done|]. split; [lia|done].
Qed.

Lemma erased_looks_dead off : ~ looks_live (replicate BS 255) off.
Proof. intros [H1 _]. apply lookup_replicate in H1 as [? _]. done. Qed.
End KvItems.
