(* ===== verification/KvWalk.v ===== *)
(** * Walking along the items of a block ([kv_item_traverse])

    The rule of the loop: with an invariant for each number of entries behind, that each kind
    of entry takes to the next number, the walk ends, and ends behind the last entry unless
    the function that is called at live entries answers otherwise. *)
From S2P Require Import Prelude Errno Ringbuf Kv KvBlock KvLogic KvItems.
Import Kv KvBlock KvLogic KvItems.

Module KvWalk.

(** the place of an offset of the [i]-th block in the partition *)
Definition place (i off : nat) : Z := Z.of_nat (BS * i + off).

Lemma blk_of_place i off : (off < BS)%nat -> Z.shiftr (place i off) BLK_BITS = Z.of_nat i.
Proof. apply blk_of_pos. Qed.

(** what the walk shows to the function at an entry *)
Definition item_at (e : entry) (p : Z) : kv_item_t :=
  mk_kv_item (entry_hdr e) None (Z.of_nat (dsize e)) p.

Lemma entry_at (es : list entry) k e : es !! k = Some e ->
  exists es1 es2, es = es1 ++ e :: es2 /\ length es1 = k /\ offset es k = (4 + total es1)%nat.
Proof.
  intros Hk. exists (take k es), (drop (S k) es). split; [by rewrite take_drop_middle|].
  split; [|done]. rewrite length_take_le; [done|]. apply lookup_lt_Some in Hk. lia.
Qed.

Lemma offset_S es k e : es !! k = Some e -> offset es (S k) = (offset es k + esize e)%nat.
Proof.
  intros Hk. unfold offset. rewrite (take_S_r _ _ e), total_app, total_cons, total_nil by done. lia.
Qed.

Lemma offset_le es k : (offset es k <= 4 + total es)%nat.
Proof. unfold offset. rewrite <- (take_drop k es) at 2. rewrite total_app. lia. Qed.

Lemma offset_all es : offset es (length es) = (4 + total es)%nat.
Proof. unfold offset. by rewrite take_ge. Qed.

(** Entries of the same sizes are at the same places. *)
Lemma offset_sizes es es' k : esize <$> es = esize <$> es' -> offset es k = offset es' k.
Proof. intros Hs. unfold offset, total. by rewrite !fmap_take, Hs. Qed.

Lemma offset_room es k : Forall entry_ok es -> (k < length es)%nat -> (offset es k + 12 <= 4 + total es)%nat.
Proof.
  intros Hes Hk. destruct (lookup_lt_is_Some_2 es k Hk) as [e He].
  pose proof (offset_S es k e He). pose proof (offset_le es (S k)).
  pose proof (esize_bounds e ltac:(by eapply Forall_lookup_1)). lia.
Qed.

Lemma item_align_entry e : entry_ok e ->
  item_align (ITEM_HEADER_SIZE + key_len (entry_hdr e) + val_len (entry_hdr e)) = Z.of_nat (esize e).
Proof.
  intros He. rewrite esize_eq by done. f_equal. unfold ITEM_HEADER_SIZE, dsize. cbn. lia.
Qed.

Record walkable (es : list entry) : Prop := {
  walk_entries : Forall entry_ok es;
  walk_room : (total es < BS - 4)%nat;
}.

Section walk.
Context `{FlashMem}.
Context (func : item_func) (key : list Z) (i : nat) (Hi : (i < 2)%nat) (szs : list nat).
Context (Inv : nat -> Z -> list entry -> kv_state -> Prop).
Context (Q : option kv_item_t + Z -> kv_state -> Prop) (C : list Z -> Prop).

Context (HI : forall k st es s, Inv k st es s ->
  (exists m fl pw n t w B', s = kvs m fl pw n t w /\ halves fl i (blk_bytes st es) B') /\
  walkable es /\ esize <$> es = szs).
Context (Hlive : forall k st es m fl pw n t w e,
  Inv k st es (kvs m fl pw n t w) -> es !! k = Some e -> elive e = true ->
  wpc (func (item_at e (place i (offset es k))) key)
    (fun r s' => (r.1 = RES_OK /\ Q (inl (Some r.2)) s') \/
                 (r.1 = RES_CONT /\ wpc (kv_item_free r.2) (fun _ s'' => exists st' es', Inv (S k) st' es' s'') C s')) C
    (kvs m fl pw (n + 1) t w)).
Context (Hdead : forall k st es m fl pw n t w e,
  Inv k st es (kvs m fl pw n t w) -> es !! k = Some e -> elive e = false ->
  wpc (mark_dirty (Z.of_nat i)) (fun _ s' => wpc aos_free (fun _ s'' => exists st' es', Inv (S k) st' es' s'') C s') C
    (kvs m fl pw (n + 1) t w)).
Context (Hend : forall st es s, Inv (length szs) st es s -> Q (inr (place i (4 + sum_list szs))) s).

Let endp : Z := Z.of_nat (BS * i + BS).

Lemma offset_of es k : esize <$> es = szs -> offset es k = (4 + sum_list (take k szs))%nat.
Proof using. intros Hs. unfold offset, total. by rewrite fmap_take, Hs. Qed.

(** the end of a turn, at the place of the next entry *)
Lemma wpc_next fuel k e es st' es' s :
  walkable es -> esize <$> es = szs -> es !! k = Some e -> Inv (S k) st' es' s ->
  ((S k <= length szs)%nat -> place i (4 + sum_list (take (S k) szs)) + 8 < endp ->
    wpc (item_loop fuel func (Z.of_nat i) key (place i (4 + sum_list (take (S k) szs))) endp) Q C s) ->
  wpc (let p := wrap 16 (place i (offset es k) + Z.of_nat (esize e)) in
       if decide (p + ITEM_HEADER_SIZE < endp) then item_loop fuel func (Z.of_nat i) key p endp else mret (inr p)) Q C s.
Proof using HI Hend Hi.
  clear Hlive Hdead. intros [Hes Hroom] Hszs He HInv Hrec.
  assert (Hk : (k < length es)%nat) by by eapply lookup_lt_Some.
  assert (Hlen : length es = length szs) by by rewrite <- Hszs, length_fmap.
  assert (wrap 16 (place i (offset es k) + Z.of_nat (esize e)) = place i (4 + sum_list (take (S k) szs))) as ->.
  { rewrite <- (offset_of es) by done. rewrite (offset_S _ _ e) by done. pose proof (offset_le es (S k)) as Hle.
    rewrite (offset_S _ _ e) in Hle by done. unfold place. rewrite wrap_small; [lia|]. nia. }
  cbv zeta. unfold ITEM_HEADER_SIZE. destruct (decide _) as [Hd|Hd]; [apply Hrec; [lia|done]|].
  apply wpc_ret. destruct (decide (S k = length szs)) as [Hl|Hl].
  - rewrite Hl, firstn_all in *. by eapply Hend.
  - exfalso. pose proof (offset_room es (S k) Hes ltac:(lia)). rewrite (offset_of es) in * by done.
    unfold place, endp in Hd. lia.
Qed.

Lemma wpc_item_loop fuel k st es s :
  (length szs < fuel + k)%nat -> (k <= length szs)%nat -> Inv k st es s ->
  place i (4 + sum_list (take k szs)) + 8 < endp ->
  wpc (item_loop fuel func (Z.of_nat i) key (place i (4 + sum_list (take k szs))) endp) Q C s.
Proof using HI Hlive Hdead Hend Hi.
  revert k st es s. induction fuel as [|fuel IH]; intros k st es s Hf Hk HInv Hp; [lia|].
  destruct (HI _ _ _ _ HInv) as ((m & fl & pw & n & t & w & B' & -> & Hh) & Hw & Hszs).
  pose proof Hw as [Hes Hroom].
  assert (Hlen : length es = length szs) by by rewrite <- Hszs, length_fmap.
  rewrite <- (offset_of es) in * by done. cbn [item_loop].
  apply wpc_bind, wpc_malloc; [done|]. cbn [negb]. apply wpc_bind.
  eapply (wpc_raw_read _ _ i (offset es k)); [done|done| |].
  { rewrite length_replicate. unfold place, endp in Hp. change (Z.to_nat ITEM_HEADER_SIZE) with 8%nat. lia. }
  rewrite length_replicate. change (Z.to_nat ITEM_HEADER_SIZE) with 8%nat. cbn [fst snd].
  no_err. destruct (decide (k = length es)) as [->|Hkl].
  { rewrite offset_all, read_behind. 2:{ rewrite offset_all in Hp. unfold place, endp in Hp. lia. }
    apply wpc_bind. eapply wpc_of_option; [done|]. cbn [magic state]. rewrite decide_True by done.
    apply wpc_bind, wpc_free, wpc_ret. rewrite Z.add_simpl_r. unfold total. rewrite Hszs.
    rewrite Hlen in HInv. by eapply Hend. }
  destruct (lookup_lt_is_Some_2 es k) as [e He]; [lia|].
  assert (Hok : entry_ok e) by by eapply Forall_lookup_1.
  destruct (entry_at es k e He) as (es1 & es2 & Heq & Hl1 & Hoff).
  rewrite Hoff, Heq, read_entry_hdr by done. rewrite <- Hoff.
  apply wpc_bind. eapply wpc_of_option; [by apply entry_hdr_roundtrip|].
  rewrite decide_False by (intros [Hne _]; by apply Hne).
  rewrite !(decide_False (P := magic (entry_hdr e) <> ITEM_MAGIC_NUM)) by (intros Hne; by apply Hne).
  rewrite decide_False.
  2:{ destruct Hok as [Hk1 Hv1 _ _ _]. cbn. unfold ITEM_MAX_VAL_LEN, ITEM_MAX_KEY_LEN. lia. }
  rewrite item_align_entry by done.
  assert (Hnext : forall st' es' s', Inv (S k) st' es' s' -> wpc
    (let p := wrap 16 (place i (offset es k) + Z.of_nat (esize e)) in
     if decide (p + ITEM_HEADER_SIZE < endp) then item_loop fuel func (Z.of_nat i) key p endp else mret (inr p)) Q C s').
  { intros st' es' s' HInv'. eapply wpc_next; [done..|]. intros ? ?. eapply IH; [lia|done|done|done]. }
  cbv zeta in Hnext |- *. destruct (elive e) eqn:Hl.
  - rewrite decide_True by (cbn; by rewrite Hl). apply wpc_bind.
    assert (wrap 16 (key_len (entry_hdr e) + val_len (entry_hdr e)) = Z.of_nat (dsize e)) as ->.
    { destruct Hok as [Hk1 Hv1 _ _ _]. unfold dsize. cbn. rewrite wrap_small; lia. }
    eapply wpc_mono; [by apply (Hlive k st es m fl pw n t w e)| |done].
    intros r s' [[Hr HQ]|[Hr HF]].
    + rewrite decide_True by done. by apply wpc_ret.
    + rewrite decide_False by (by rewrite Hr). apply wpc_bind. eapply wpc_mono; [apply HF| |done].
      intros [] s'' (st' & es' & HInv'). cbn beta. no_err. by eapply Hnext.
  - rewrite decide_False by (cbn; by rewrite Hl). apply wpc_bind.
    eapply wpc_mono; [by apply (Hdead k st es m fl pw n t w e)| |done]. intros [] s' HF.
    apply wpc_bind. eapply wpc_mono; [apply HF| |done]. intros [] s'' (st' & es' & HInv'). by eapply Hnext.
Qed.
End walk.

(** ** The traversal of a block as a whole *)

Section traverse.
Context `{FlashMem}.
Context (func : item_func) (key : list Z) (i : nat) (Hi : (i < 2)%nat) (szs : list nat).
Context (Inv : nat -> Z -> list entry -> kv_state -> Prop).
Context (Q : option kv_item_t -> kv_state -> Prop) (C : list Z -> Prop).

Lemma wpc_traverse st es s
  (HI : forall k st es s, Inv k st es s ->
    (exists m fl pw n t w B', s = kvs m fl pw n t w /\ halves fl i (blk_bytes st es) B') /\
    walkable es /\ esize <$> es = szs)
  (Hlive : forall k st es m fl pw n t w e,
    Inv k st es (kvs m fl pw n t w) -> es !! k = Some e -> elive e = true ->
    wpc (func (item_at e (place i (offset es k))) key)
      (fun r s' => (r.1 = RES_OK /\ Q (Some r.2) s') \/
                   (r.1 = RES_CONT /\ wpc (kv_item_free r.2) (fun _ s'' => exists st' es', Inv (S k) st' es' s'') C s')) C
      (kvs m fl pw (n + 1) t w))
  (Hdead : forall k st es m fl pw n t w e,
    Inv k st es (kvs m fl pw n t w) -> es !! k = Some e -> elive e = false ->
    wpc (mark_dirty (Z.of_nat i)) (fun _ s' => wpc aos_free (fun _ s'' => exists st' es', Inv (S k) st' es' s'') C s') C
      (kvs m fl pw (n + 1) t w))
  (Hend : forall st es m fl pw n t w, Inv (length szs) st es (kvs m fl pw n t w) ->
    exists b, block_info m !! i = Some b /\
      Q None (kvs (m <| block_info ::= <[i := b <| space := Z.of_nat (BS - 4 - sum_list szs) |>]> |>) fl pw n t w)) :
  Inv 0%nat st es s -> wpc (kv_item_traverse func (Z.of_nat i) key) Q C s.
Proof using Hi.
  intros HInv. unfold kv_item_traverse. rewrite shift_blk. cbv zeta.
  assert (wrap 16 (Z.of_nat (BS * i) + BLK_SIZE) = Z.of_nat (BS * i + BS)) as ->.
  { unfold BLK_SIZE. change (Z.shiftl 1 BLK_BITS) with 4096. rewrite wrap_small; lia. }
  assert (wrap 16 (Z.of_nat (BS * i) + BLK_HEADER_SIZE) = place i (4 + sum_list (take 0 szs))) as ->.
  { unfold BLK_HEADER_SIZE, place. change (sum_list (take 0 szs)) with 0%nat. rewrite wrap_small; lia. }
  apply wpc_bind. eapply (wpc_item_loop func key i Hi szs Inv
    (fun r s' => wpc (match r with inl ret => mret ret | inr pos => _ end) Q C s')); [done|done|done| | |lia|done|].
  - intros st' es' s' HInv'. pose proof HInv' as HInv2.
    apply HI in HInv2 as ((m & fl & pw & n & t & w & B' & -> & Hh) & [Hes Hroom] & Hszs).
    destruct (Hend _ _ _ _ _ _ _ _ HInv') as (b & Hb & HQ).
    apply wpc_bind. eapply wpc_blk_upd; [by rewrite Nat2Z.id|]. rewrite Nat2Z.id. apply wpc_ret.
    assert (Hsum : sum_list szs = total es') by (unfold total; by rewrite Hszs). rewrite Hsum in HQ |- *.
    rewrite decide_True by (unfold place; lia).
    replace (Z.of_nat (BS * i + BS) - place i (4 + total es')) with (Z.of_nat (BS - 4 - total es')) by (unfold place; lia).
    done.
  - destruct (HI _ _ _ _ HInv) as (_ & [Hes Hroom] & Hszs).
    assert (length szs = length es) as -> by by rewrite <- Hszs, length_fmap.
    enough (Z.of_nat (length es) * 12 <= Z.of_nat (total es)).
    { unfold item_fuel. change (Z.to_nat (BLK_SIZE / ITEM_HEADER_SIZE)) with (Z.to_nat 512). lia. }
    clear -Hes. induction Hes as [|e es He Hes IH]; [done|]. rewrite total_cons. pose proof (esize_bounds e He). cbn [length]. lia.
  - unfold place. change (sum_list (take 0 szs)) with 0%nat. lia.
Qed.
End traverse.

(** ** Looking for a key *)

Section find.
Context `{FlashMem}.

(** the item that is found, with its data *)
Definition found (e : entry) (p : Z) : kv_item_t := (item_at e p) <| istore := Some (ekey e ++ evalue e) |>.

Definition has_key (key : list Z) (e : entry) : Prop := elive e = true /\ ekey e = key.

(** The answers of the function: found, or go on with the memory taken to be given back. *)
Lemma wpc_find_cb key i st es k e B' Q C m fl pw n t w :
  halves fl i (blk_bytes st es) B' -> walkable es -> es !! k = Some e -> elive e = true ->
  (ekey e = key -> Q (RES_OK, found e (place i (offset es k))) (kvs m fl pw (n + 1) t w)) ->
  (ekey e <> key -> forall it n', (istore it = None /\ n' = n \/ (exists b, istore it = Some b) /\ n' = n + 1) ->
    Q (RES_CONT, it) (kvs m fl pw n' t w)) ->
  wpc (__item_find_cb (item_at e (place i (offset es k))) key) Q C (kvs m fl pw n t w).
Proof.
  intros Hh [Hes Hroom] He Hl HQ1 HQ2. assert (Hok : entry_ok e) by by eapply Forall_lookup_1.
  pose proof Hok as [Hk Hv _ _ _]. destruct (entry_at es k e He) as (es1 & es2 & Heq & Hl1 & Hoff).
  pose proof (offset_S es k e He) as HoS. pose proof (offset_le es (S k)) as Hole. pose proof (esize_eq e Hok) as Hsz.
  pose proof (item_align_bounds (8 + Z.of_nat (dsize e)) ltac:(unfold dsize; lia)).
  unfold __item_find_cb. unfold item_at at 1 2. cbn [hdr len pos key_len entry_hdr].
  destruct (decide (Z.of_nat (length (ekey e)) <> Z.of_nat (length key))) as [Hkl|Hkl].
  { apply wpc_ret, HQ2; [congruence|by left]. }
  apply wpc_bind, wpc_malloc. { unfold item_at. cbn. lia. }
  cbn [negb]. apply wpc_bind. unfold item_at at 1 2. cbn [len pos].
  eapply (wpc_raw_read _ _ i (offset es k + 8)); [done|unfold place, ITEM_HEADER_SIZE; lia| |];
    rewrite length_replicate, Nat2Z.id; [lia|].
  rewrite Hoff, Heq, read_entry_data by done. cbn [fst snd].
  assert (take (dsize e) (ekey e ++ evalue e) = ekey e ++ evalue e) as ->.
  { apply take_ge. rewrite length_app. done. }
  no_err. rewrite take_app_le by lia. rewrite take_ge by lia. rewrite <- Hoff.
  destruct (decide (ekey e = key)) as [Hkey|Hkey]; apply wpc_ret.
  - by apply HQ1.
  - apply HQ2; [done|]. right. split; [by eexists|done].
Qed.

Lemma wpc_item_free it Q C m fl pw n t w n' :
  (istore it = None /\ n' = n - 1 \/ (exists b, istore it = Some b) /\ n' = n - 2) ->
  Q tt (kvs m fl pw n' t w) -> wpc (kv_item_free it) Q C (kvs m fl pw n t w).
Proof.
  intros [[Hs ->]|[[b Hs] ->]] HQ; unfold kv_item_free; rewrite Hs; apply wpc_bind.
  - apply wpc_ret, wpc_free. done.
  - apply wpc_free, wpc_free. by replace (n - 1 - 1) with (n - 2) by lia.
Qed.

(** [mark_dirty] leaves a block that is not in use, or dirty already, alone. *)
Lemma wpc_mark_dirty_idle i b Q C m fl pw n t w :
  block_info m !! i = Some b -> blk_state b <> BLK_STATE_USED -> Q tt (kvs m fl pw n t w) ->
  wpc (mark_dirty (Z.of_nat i)) Q C (kvs m fl pw n t w).
Proof.
  intros Hb Hs HQ. unfold mark_dirty. apply wpc_bind. eapply wpc_blk_get; [by rewrite Nat2Z.id|].
  by rewrite decide_False.
Qed.

Lemma block_info_same m i b : block_info m !! i = Some b -> m <| block_info ::= <[i := b]> |> = m.
Proof. intros Hb. destruct m. cbn in *. unfold upd. cbn. by rewrite list_insert_id. Qed.

Lemma block_info_space b n : space b = n -> b <| space := n |> = b.
Proof. intros <-. by destruct b. Qed.

(** The first entry with the key is found, and nothing changes. *)
Lemma wpc_find key i st es b B' Q C m fl pw n t w :
  halves fl i (blk_bytes st es) B' -> walkable es -> block_info m !! i = Some b ->
  space b = Z.of_nat (BS - 4 - total es) -> (blk_state b = BLK_STATE_USED -> Forall (fun e => elive e = true) es) ->
  (forall k e, es !! k = Some e -> has_key key e -> Q (Some (found e (place i (offset es k)))) (kvs m fl pw (n + 2) t w)) ->
  ((forall e, e ∈ es -> ~ has_key key e) -> Q None (kvs m fl pw n t w)) ->
  wpc (kv_item_traverse __item_find_cb (Z.of_nat i) key) Q C (kvs m fl pw n t w).
Proof.
  intros Hh Hw Hb Hsp Hst HQ1 HQ2. pose proof (halves_index _ _ _ _ Hh) as Hi.
  eapply (wpc_traverse __item_find_cb key i Hi (esize <$> es)
    (fun k st' es' s => st' = st /\ es' = es /\ s = kvs m fl pw n t w /\ forall e, e ∈ take k es -> ~ has_key key e)).
  - intros k st' es' s (-> & -> & -> & _). split; [|done]. exists m, fl, pw, n, t, w, B'. by split.
  - intros k st' es' m' fl' pw' n' t' w' e (-> & -> & [= -> -> -> -> -> ->] & Hno) He Hl.
    eapply wpc_find_cb; [done..| |].
    + intros Hk. left. split; [done|]. cbn. replace (n + 1 + 1) with (n + 2) by lia. by apply HQ1.
    + intros Hk it n'' Hit. right. split; [done|]. cbn.
      eapply (wpc_item_free _ _ _ _ _ _ _ _ _ n). { destruct Hit as [[? ->]|[? ->]]; [left|right]; split; done || lia. }
      exists st, es. split; [done|]. split; [done|]. split; [done|]. intros e'.
      rewrite (take_S_r _ _ e) by done. rewrite elem_of_app. intros [Hin|Hin]; [by apply Hno|].
      apply list_elem_of_singleton in Hin as ->. intros [_ ?]. done.
  - intros k st' es' m' fl' pw' n' t' w' e (-> & -> & [= -> -> -> -> -> ->] & Hno) He Hl.
    eapply wpc_mark_dirty_idle; [done| |].
    { intros Hu. pose proof (Forall_lookup_1 _ _ _ _ (Hst Hu) He). cbn in *. congruence. }
    apply wpc_free. rewrite Z.add_simpl_r. exists st, es. split; [done|]. split; [done|]. split; [done|]. intros e'.
    rewrite (take_S_r _ _ e) by done. rewrite elem_of_app. intros [Hin|Hin]; [by apply Hno|].
    apply list_elem_of_singleton in Hin as ->. intros [? _]. congruence.
  - intros st' es' m' fl' pw' n' t' w' (-> & -> & [= -> -> -> -> -> ->] & Hno). exists b. split; [done|].
    fold (total es). rewrite block_info_space by done. rewrite block_info_same by done. apply HQ2.
    intros e Hin. apply Hno. rewrite take_ge; [done|]. by rewrite length_fmap.
  - split; [done|]. split; [done|]. split; [done|]. intros e Hin. by apply elem_of_nil in Hin.
Qed.
End find.
End KvWalk.
