(* ===== verification/KvSpec.v ===== *)
(** * What the key-value store is

    The map from keys to values a block holds, the state of a store between two calls, and
    the flash a loss of power may leave. *)
From S2P Require Import Prelude Errno Ringbuf Kv KvBlock KvLogic KvItems KvWalk.
Import Kv KvBlock KvLogic KvItems KvWalk.

Module KvSpec.

Notation kvmap := (gmap (list Z) (list Z)).

(** ** The map of a block *)

Definition lives (es : list entry) : list entry := filter (fun e => elive e = true) es.

Definition live_map (es : list entry) : kvmap := list_to_map ((fun e => (ekey e, evalue e)) <$> lives es).

(** no key is live twice *)
Definition distinct (es : list entry) : Prop := NoDup (ekey <$> lives es).

Lemma elem_of_lives e es : e ∈ lives es <-> e ∈ es /\ elive e = true.
Proof. unfold lives. rewrite list_elem_of_filter. tauto. Qed.

Lemma lives_app es1 es2 : lives (es1 ++ es2) = lives es1 ++ lives es2.
Proof. apply filter_app. Qed.

Lemma lives_cons_live e es : elive e = true -> lives (e :: es) = e :: lives es.
Proof. intros He. unfold lives. by rewrite filter_cons_True. Qed.

Lemma lives_cons_dead e es : elive e = false -> lives (e :: es) = lives es.
Proof. intros He. unfold lives. rewrite filter_cons_False; [done|]. congruence. Qed.

Lemma live_map_None key es : live_map es !! key = None <-> forall e, e ∈ es -> ~ has_key key e.
Proof.
  unfold live_map. rewrite <- not_elem_of_list_to_map, <- list_fmap_compose. split.
  - intros Hn e Hin [Hl Hk]. apply Hn. rewrite list_elem_of_fmap. exists e. split; [done|]. by apply elem_of_lives.
  - intros Hn Hin. apply list_elem_of_fmap in Hin as (e & Hk & Hin). apply elem_of_lives in Hin as [Hin Hl].
    by apply (Hn e Hin).
Qed.

Lemma live_map_Some e es : distinct es -> e ∈ es -> elive e = true -> live_map es !! ekey e = Some (evalue e).
Proof.
  intros Hd Hin Hl. apply elem_of_list_to_map.
  - by rewrite <- list_fmap_compose.
  - apply list_elem_of_fmap. exists e. split; [done|]. by apply elem_of_lives.
Qed.

(** A new key goes behind the others. *)
Lemma live_map_snoc es e : elive e = true -> live_map es !! ekey e = None ->
  live_map (es ++ [e]) = <[ekey e := evalue e]> (live_map es).
Proof.
  intros Hl Hn. unfold live_map. rewrite lives_app, lives_cons_live, fmap_app by done. cbn.
  apply list_to_map_snoc. by apply not_elem_of_list_to_map.
Qed.

Lemma distinct_snoc es e : elive e = true -> distinct es -> live_map es !! ekey e = None -> distinct (es ++ [e]).
Proof.
  intros Hl Hd Hn. unfold distinct. rewrite lives_app, lives_cons_live, fmap_app by done. cbn.
  apply NoDup_app. split; [done|]. split; [|apply NoDup_singleton]. intros k Hk Hin.
  apply list_elem_of_singleton in Hin as ->. apply list_elem_of_fmap in Hk as (e' & Heq & Hin).
  apply elem_of_lives in Hin as [Hin Hl']. by apply (proj1 (live_map_None _ _) Hn e' Hin).
Qed.

Definition dead (e : entry) : entry := e <| elive := false |>.

Lemma lives_kill es1 e es2 : lives (es1 ++ dead e :: es2) = lives es1 ++ lives es2.
Proof. by rewrite lives_app, lives_cons_dead. Qed.

Lemma distinct_kill es1 e es2 : distinct (es1 ++ e :: es2) -> distinct (es1 ++ dead e :: es2).
Proof.
  unfold distinct. rewrite lives_kill, lives_app. destruct (elive e) eqn:Hl.
  - rewrite lives_cons_live, !fmap_app by done. cbn. rewrite !NoDup_app, NoDup_cons. set_solver.
  - by rewrite lives_cons_dead.
Qed.

(** Deleting an entry deletes its key. *)
Lemma live_map_kill es1 e es2 : distinct (es1 ++ e :: es2) -> elive e = true ->
  live_map (es1 ++ dead e :: es2) = delete (ekey e) (live_map (es1 ++ e :: es2)).
Proof.
  intros Hd Hl. unfold live_map. rewrite lives_kill, lives_app, lives_cons_live by done.
  unfold distinct in Hd. rewrite lives_app, lives_cons_live, fmap_app in Hd by done. cbn in Hd.
  apply NoDup_app in Hd as (_ & Hd1 & Hd2). apply NoDup_cons in Hd2 as [Hd2 _].
  rewrite !fmap_app, !list_to_map_app. cbn [fmap list_fmap]. rewrite list_to_map_cons, delete_union, delete_insert_eq. f_equal; symmetry; apply delete_id; apply not_elem_of_list_to_map;
    rewrite <- list_fmap_compose; [|done]. intros Hin. apply (Hd1 (ekey e)); [done|]. set_solver.
Qed.

(** Two versions of a key: deleting the old one leaves the map with the new value. *)
Lemma live_map_update es1 old es2 new : distinct (es1 ++ old :: es2) -> has_key (ekey new) old -> elive new = true ->
  distinct (es1 ++ dead old :: es2 ++ [new]) /\
  live_map (es1 ++ dead old :: es2 ++ [new]) = <[ekey new := evalue new]> (live_map (es1 ++ old :: es2)).
Proof.
  intros Hd [Hlo Hk] Hln. assert (Hn : live_map (es1 ++ dead old :: es2) !! ekey new = None).
  { rewrite live_map_kill, <- Hk, lookup_delete_eq by done. done. }
  replace (es1 ++ dead old :: es2 ++ [new]) with ((es1 ++ dead old :: es2) ++ [new]) by by rewrite <- app_assoc.
  split; [by apply distinct_snoc; [|apply distinct_kill|]|].
  rewrite live_map_snoc by done. rewrite live_map_kill, <- Hk by done. by rewrite insert_delete_eq.
Qed.

(** ** The store between two calls *)

(** The manager knows the blocks: [c] is written to, the other one is clean. *)
Record mgr_ok (m : kv_mgr_t) (c : nat) (st : Z) (es : list entry) : Prop := {
  mgr_this : block_info m !! c = Some (mk_block_info (Z.of_nat (BS - 4 - total es)) st);
  mgr_other : block_info m !! (1 - c)%nat = Some (mk_block_info 4092 BLK_STATE_CLEAN);
  mgr_blocks : length (block_info m) = 2%nat;
  mgr_clean : clean_blk_nums m = 1;
  mgr_pos : write_pos m = place c (4 + total es);
}.

(** A block with something deleted in it is dirty. *)
Definition dirty_ok (st : Z) (es : list entry) : Prop :=
  st = BLK_STATE_DIRTY \/ st = BLK_STATE_USED /\ Forall (fun e => elive e = true) es.

Record store_ok (m : kv_mgr_t) (fl : list Z) (c : nat) (st : Z) (es : list entry) : Prop := {
  store_halves : halves fl c (blk_bytes st es) (blk_bytes BLK_STATE_CLEAN []);
  store_walk : walkable es;
  store_dirty : dirty_ok st es;
  store_distinct : distinct es;
  store_mgr : mgr_ok m c st es;
}.

(** The store holds the map [kv], nobody is in it, and it has no memory. *)
Definition kv_ok (s : kv_state) (kv : kvmap) : Prop :=
  exists m fl pw t w c st es, s = kvs m fl pw 0 t w /\ store_ok m fl c st es /\ kv_mutex m = Some false /\
    kv_initialize m = 1 /\ kv = live_map es.

(** ** What a loss of power may leave *)

(** The version in the last entry may not have replaced the old one yet. *)
Inductive versions (d : nat) (es : list entry) (P : kvmap -> Prop) : Prop :=
| one_version : distinct es -> P (live_map es) -> versions d es P
| two_versions es1 old es2 new :
    es = es1 ++ old :: es2 ++ [new] -> has_key (ekey new) old -> elive new = true ->
    eorigin new = place d (4 + total es1) -> distinct (es1 ++ old :: es2) ->
    P (live_map (es1 ++ old :: es2)) -> P (<[ekey new := evalue new]> (live_map (es1 ++ old :: es2))) ->
    versions d es P.

(** no live item is where the version it replaced was *)
Definition no_self_origin (d : nat) (es : list entry) : Prop :=
  forall k e, es !! k = Some e -> elive e = true -> eorigin e <> place d (offset es k).

(** A collection that did not end leaves copies of live items. *)
Definition copied (d : nat) (es cs : list entry) : Prop :=
  cs = [] \/
  distinct es /\ no_self_origin d es /\
  forall c, c ∈ cs -> exists e, e ∈ es /\ elive e = true /\ ekey c = ekey e /\ eorigin c = eorigin e.

(** The other block is erased, or looks clean and holds copies. *)
Definition other_bytes (oth : option (list entry)) : list Z :=
  match oth with None => replicate BS 255 | Some cs => blk_bytes BLK_STATE_CLEAN cs end.

Definition other_ok (d : nat) (es : list entry) (oth : option (list entry)) : Prop :=
  match oth with None => True | Some cs => walkable cs /\ copied d es cs end.

(** The data is in the block [d]; when that looks clean, the other one is empty. *)
Record rec_ok (fl : list Z) (d : nat) (st : Z) (es : list entry) (oth : option (list entry)) (P : kvmap -> Prop) : Prop := {
  rec_halves : halves fl d (blk_bytes st es) (other_bytes oth);
  rec_walk : walkable es;
  rec_state : st = BLK_STATE_USED \/ st = BLK_STATE_DIRTY \/ st = BLK_STATE_CLEAN /\ (oth = None \/ oth = Some []);
  rec_other : other_ok d es oth;
  rec_versions : versions d es P;
}.

(** One of the maps of [P] can be recovered from the flash. *)
Inductive recov (fl : list Z) (P : kvmap -> Prop) : Prop :=
| recov_blank : halves fl 0 (replicate BS 255) (replicate BS 255) -> P ∅ -> recov fl P
| recov_data d st es oth : rec_ok fl d st es oth P -> recov fl P.

Lemma other_nil d es : other_ok d es (Some []).
Proof. split; [split; [done|]|by left]. change (total []) with 0%nat. lia. Qed.

Lemma versions_mono (d : nat) (es : list entry) (P Q : kvmap -> Prop) :
  (forall kv, P kv -> Q kv) -> versions d es P -> versions d es Q.
Proof.
  intros HPQ [Hd HP|es1 old es2 new Heq Hk Hl Hor Hd HP1 HP2]; [apply one_version|eapply two_versions]; eauto.
Qed.

Lemma recov_mono (fl : list Z) (P Q : kvmap -> Prop) : (forall kv, P kv -> Q kv) -> recov fl P -> recov fl Q.
Proof.
  intros HPQ [Hh HP|d st es oth [Hh Hw Hst Ho Hv]]; [apply recov_blank; auto|].
  eapply recov_data. split; try done. by eapply versions_mono.
Qed.

(** The flash of a store is one of those. *)
Lemma store_recov (m : kv_mgr_t) (fl : list Z) (c : nat) (st : Z) (es : list entry) (P : kvmap -> Prop) :
  store_ok m fl c st es -> P (live_map es) -> recov fl P.
Proof.
  intros [Hh Hw Hst Hd Hm] HP. apply (recov_data _ _ c st es (Some [])).
  split; [done|done| |apply other_nil|by apply one_version]. destruct Hst as [-> |[-> _]]; auto.
Qed.
End KvSpec.
