(* ===== verification/KvOps.v ===== *)
(** * Reading, writing and deleting keys *)
From S2P Require Import Prelude Errno Ringbuf Kv KvBlock KvLogic KvItems KvWalk KvSpec.
Import Kv KvBlock KvLogic KvItems KvWalk KvSpec.

Module KvOps.

(** The parts of the manager that say where the data is are the same. *)
Record same_blocks (m m' : kv_mgr_t) : Prop := {
  same_info : block_info m' = block_info m;
  same_clean : clean_blk_nums m' = clean_blk_nums m;
  same_pos : write_pos m' = write_pos m;
}.

(** and so is the rest, but for a collection that was started *)
Record only_gc (m m' : kv_mgr_t) : Prop := {
  only_blocks : same_blocks m m';
  only_mutex : kv_mutex m' = kv_mutex m;
  only_init : kv_initialize m' = kv_initialize m;
}.

Lemma only_gc_refl m : only_gc m m.
Proof. by split; [split| |]. Qed.

Lemma mgr_ok_same m m' c st es : same_blocks m m' -> mgr_ok m c st es -> mgr_ok m' c st es.
Proof. intros [Hi Hc Hp] [? ? ? ? ?]. by split; rewrite ?Hi, ?Hc, ?Hp. Qed.

(** the place of an entry, as the origin of the version that replaces it *)
Lemma place_origin_ok (es1 : list entry) e es2 c : (c < 2)%nat -> walkable (es1 ++ e :: es2) ->
  origin_ok (place c (4 + total es1)).
Proof.
  intros Hc [Hes Hroom]. right. apply Forall_app in Hes as [Hes1 Hes]. apply Forall_cons in Hes as [He _].
  rewrite total_app, total_cons in Hroom. pose proof (esize_bounds e He). pose proof (total_mult4 es1 Hes1).
  unfold place. replace (Z.of_nat (BS * c + (4 + total es1))) with (Z.of_nat (total es1) + 4 + Z.of_nat c * 4096) by lia.
  split; [lia|]. split.
  - replace (Z.of_nat (total es1) + 4 + Z.of_nat c * 4096) with (Z.of_nat (total es1) + (1 + Z.of_nat c * 1024) * 4) by lia.
    by rewrite Z.mod_add.
  - rewrite Z.mod_add by lia. rewrite Z.mod_small; lia.
Qed.

Lemma total_kill es1 e es2 : total (es1 ++ dead e :: es2) = total (es1 ++ e :: es2).
Proof. by rewrite !total_app, !total_cons. Qed.

Lemma walkable_kill es1 e es2 : walkable (es1 ++ e :: es2) -> walkable (es1 ++ dead e :: es2).
Proof.
  intros [Hes Hr]. split; [|by rewrite total_kill]. apply Forall_app in Hes as [? Hes].
  apply Forall_cons in Hes as [? ?]. apply Forall_app. split; [done|]. constructor; [by apply entry_ok_dead|done].
Qed.

Lemma dirty_ok_used st es : dirty_ok st es -> st = BLK_STATE_USED \/ st = BLK_STATE_DIRTY.
Proof. intros [->|[-> _]]; auto. Qed.

(** With the other block clean, a block in use may be left with one version of each key, or
    with two of the last one. *)
Lemma recov_in_use (fl : list Z) (c : nat) (st : Z) (es : list entry) (P : kvmap -> Prop) :
  halves fl c (blk_bytes st es) (blk_bytes BLK_STATE_CLEAN []) -> walkable es ->
  (st = BLK_STATE_USED \/ st = BLK_STATE_DIRTY) -> versions c es P -> recov fl P.
Proof.
  intros Hh Hw Hst Hv. eapply (recov_data _ _ c st es (Some [])). split; [done|done|tauto| |done].
  apply other_nil.
Qed.

Section ops.
Context `{FlashMem}.
Implicit Types (m : kv_mgr_t) (fl : list Z) (c i : nat) (st n t w : Z) (es : list entry) (e : entry) (pw : option nat).
Implicit Types (C : list Z -> Prop).

Lemma wpc_trigger_gc Q C m fl pw n t w :
  (forall m' t', only_gc m m' -> gc_triggered m' <> 0 -> Q tt (kvs m' fl pw n t' w)) -> wpc trigger_gc Q C (kvs m fl pw n t w).
Proof.
  intros HQ. unfold trigger_gc. apply wpc_bind, wpc_gets. cbn [g_kv_mgr]. destruct (decide _) as [Ht|Ht].
  - apply wpc_ret, HQ; [apply only_gc_refl|done].
  - apply wpc_bind, wpc_upd_mgr. unfold wpc, aos_task_new_gc. cbn. by apply HQ; [split; [split| |]|].
Qed.

(** ** Looking a key up *)

Lemma wpc_item_get key c st es Q C m fl pw n t w :
  halves fl c (blk_bytes st es) (blk_bytes BLK_STATE_CLEAN []) -> walkable es -> dirty_ok st es -> mgr_ok m c st es ->
  (forall k e, es !! k = Some e -> has_key key e -> Q (Some (found e (place c (offset es k)))) (kvs m fl pw (n + 2) t w)) ->
  ((forall e, e ∈ es -> ~ has_key key e) -> Q None (kvs m fl pw n t w)) ->
  wpc (kv_item_get key) Q C (kvs m fl pw n t w).
Proof.
  intros Hh Hw Hst [Hthis Hother Hlen Hclean Hpos] HQ1 HQ2. pose proof (halves_index _ _ _ _ Hh) as Hc.
  assert (Hfind : forall Q', (forall k e, es !! k = Some e -> has_key key e -> Q' (Some (found e (place c (offset es k)))) (kvs m fl pw (n + 2) t w)) ->
    ((forall e, e ∈ es -> ~ has_key key e) -> Q' None (kvs m fl pw n t w)) ->
    wpc (kv_item_traverse __item_find_cb (Z.of_nat c) key) Q' C (kvs m fl pw n t w)).
  { intros Q' H1 H2. eapply wpc_find; [done|done|done|done| |done|done]. cbn. intros ->. by destruct Hst as [?|[_ ?]]. }
  assert (Hns : st <> BLK_STATE_CLEAN) by (by destruct Hst as [->|[-> _]]).
  unfold kv_item_get. change (Z.to_nat BLK_NUMS) with 2%nat. cbn [get_loop].
  destruct c as [|[|c]]; [| |lia]; cbn [Nat.sub] in Hother.
  - apply wpc_bind. eapply wpc_blk_get; [done|]. cbn [blk_state]. rewrite decide_True by done. apply wpc_bind.
    change 0 with (Z.of_nat 0) at 1. apply Hfind.
    + intros k e He Hk. apply wpc_ret. by apply HQ1.
    + intros Hno. apply wpc_bind. eapply wpc_blk_get; [done|]. cbn [blk_state]. no_err. apply wpc_ret. by apply HQ2.
  - apply wpc_bind. eapply wpc_blk_get; [done|]. cbn [blk_state]. no_err.
    apply wpc_bind. eapply wpc_blk_get; [done|]. cbn [blk_state]. rewrite decide_True by done. apply wpc_bind.
    change (0 + 1) with (Z.of_nat 1). apply Hfind.
    + intros k e He Hk. apply wpc_ret. by apply HQ1.
    + intros Hno. apply wpc_ret. by apply HQ2.
Qed.

(** ** Storing a version *)

Lemma wpc_calc_pos c st es l Q C m fl pw n t w :
  (c < 2)%nat -> (total es < BS - 4)%nat -> mgr_ok m c st es ->
  (forall m' t', only_gc m m' -> Z.of_nat (BS - 4 - total es) <= l -> gc_triggered m' <> 0 -> Q 0 (kvs m' fl pw n t' w)) ->
  (forall m' t', only_gc m m' -> l < Z.of_nat (BS - 4 - total es) -> Q (place c (4 + total es)) (kvs m' fl pw n t' w)) ->
  wpc (kv_item_calc_pos l) Q C (kvs m fl pw n t w).
Proof.
  intros Hc Hr [Hthis Hother Hlen Hclean Hpos] HQ1 HQ2. unfold kv_item_calc_pos.
  apply wpc_bind, wpc_gets. cbn [g_kv_mgr]. rewrite Hpos. rewrite blk_of_place by lia.
  apply wpc_bind. eapply wpc_blk_get; [by rewrite Nat2Z.id|]. cbn [space].
  destruct (decide (l < _)) as [Hl|Hl].
  - apply wpc_bind, wpc_gets. cbn [g_kv_mgr]. apply wpc_bind. destruct (decide _) as [Hg|Hg].
    + apply wpc_trigger_gc. intros m' t' Hm _. apply wpc_ret. by apply HQ2.
    + apply wpc_ret, wpc_ret. apply HQ2; [apply only_gc_refl|done].
  - apply wpc_bind, wpc_trigger_gc. intros m' t' Hm Hg. apply wpc_ret. apply HQ1; [done|lia|done].
Qed.

(** the manager after an item of [sz] bytes was written behind the others *)
Lemma mgr_ok_snoc m c st es e : (c < 2)%nat -> entry_ok e -> (total es + esize e < BS - 4)%nat -> mgr_ok m c st es ->
  mgr_ok (m <| write_pos := place c (4 + total (es ++ [e])) |>
            <| block_info ::= <[c := mk_block_info (wrap 16 (Z.of_nat (BS - 4 - total es) - Z.of_nat (esize e))) st]> |>) c st (es ++ [e]).
Proof.
  intros Hc He Hr [Hthis Hother Hlen Hclean Hpos]. split; cbn; rewrite ?total_app, ?total_cons, ?total_nil.
  - rewrite list_lookup_insert_eq by lia. do 2 f_equal. rewrite wrap_small; lia.
  - rewrite list_lookup_insert_ne by lia. done.
  - by rewrite length_insert.
  - done.
  - done.
Qed.

Lemma place_snoc c es e : (c < 2)%nat -> (total es + esize e < BS - 4)%nat ->
  wrap 16 (place c (4 + total es) + Z.of_nat (esize e)) = place c (4 + total (es ++ [e])).
Proof. intros. rewrite total_app, total_cons, total_nil. unfold place. rewrite wrap_small; lia. Qed.

Lemma wpc_item_store key val v origin c st es B' Q C m fl pw n t w (e := mk_entry true key v origin) :
  halves fl c (blk_bytes st es) B' -> walkable es -> mgr_ok m c st es -> entry_ok e ->
  Ringbuf.mem_read val 0 (length v) = Some v -> C fl ->
  (forall m' t', only_gc m m' -> (BS - 4 <= total es + esize e)%nat -> gc_triggered m' <> 0 ->
    Q RES_NO_SPACE (kvs m' fl pw n t' w)) ->
  (forall m' fl' pw' t', (total es + esize e < BS - 4)%nat -> halves fl' c (blk_bytes st (es ++ [e])) B' -> mgr_ok m' c st (es ++ [e]) ->
    kv_mutex m' = kv_mutex m -> kv_initialize m' = kv_initialize m -> Q RES_OK (kvs m' fl' pw' n t' w)) ->
  wpc (kv_item_store key val (Z.of_nat (length v)) origin) Q C (kvs m fl pw n t w).
Proof.
  intros Hh [Hes Hroom] Hm He Hval HC HQ1 HQ2. pose proof (halves_index _ _ _ _ Hh) as Hc.
  pose proof (esize_bounds e He) as Hsz. pose proof (item_align_entry e He) as Hal.
  pose proof (key_ok e He) as Hk. pose proof (value_ok e He) as Hv. cbn [ekey evalue e] in Hk, Hv.
  unfold kv_item_store. cbn [key_len val_len].
  rewrite (wrap_small 8) by lia. rewrite (wrap_small 16 (Z.of_nat (length v))) by lia.
  change (item_align (ITEM_HEADER_SIZE + Z.of_nat (length key) + Z.of_nat (length v)) = Z.of_nat (esize e)) in Hal. rewrite Hal.
  apply wpc_bind, wpc_malloc; [lia|]. cbn [negb].
  apply wpc_bind. eapply wpc_of_option; [rewrite Nat2Z.id; apply Ringbuf.mem_read_all|].
  apply wpc_bind. eapply wpc_of_option; [by rewrite Nat2Z.id|].
  assert (Himg : item_image ((mk_item_hdr ITEM_MAGIC_NUM ITEM_STATE_NORMAL 0 (Z.of_nat (length key)) (Z.of_nat (length v)) origin)
      <| crc := utils_crc8 (key ++ v) |>) key v = entry_bytes e) by done.
  rewrite Himg. apply wpc_bind. eapply wpc_calc_pos; [done|done|done| |].
  - intros m' t' Hgc Hl Hg. apply wpc_bind. rewrite decide_False by lia. apply wpc_ret. apply wpc_bind, wpc_free, wpc_ret.
    rewrite Z.add_simpl_r. apply HQ1; [done|lia|done].
  - intros m' t' Hgc Hl. destruct Hgc as [Hb Hmu Hin]. apply wpc_bind. rewrite decide_True by (unfold place; lia).
    apply wpc_bind. eapply wpc_append; [done|done|lia|done|]. intros fl' pw' Hh'. rewrite decide_True by done.
    rewrite place_snoc by (done || lia). apply wpc_bind, wpc_upd_mgr. apply wpc_bind, wpc_gets.
    pose proof (mgr_ok_snoc m' c st es e Hc He ltac:(lia) (mgr_ok_same _ _ _ _ _ Hb Hm)) as Hm2.
    cbn [g_kv_mgr].
    change (write_pos _) with (place c (4 + total (es ++ [e]))) at 1. rewrite blk_of_place by (rewrite total_app, total_cons, total_nil; lia).
    apply wpc_bind. eapply wpc_blk_upd.
    { rewrite Nat2Z.id. cbn. rewrite (same_info _ _ Hb). apply (mgr_this _ _ _ _ Hm). }
    rewrite Nat2Z.id. apply wpc_ret. apply wpc_bind, wpc_free, wpc_ret. rewrite Z.add_simpl_r.
    apply HQ2; [lia|done|exact Hm2|done|done].
Qed.

(** ** Deleting a version *)

Lemma wpc_delete_at i st es1 e es2 B' b Q C m fl pw n t w :
  halves fl i (blk_bytes st (es1 ++ e :: es2)) B' -> (4 + total es1 < BS)%nat ->
  block_info m !! i = Some b -> (blk_state b = BLK_STATE_USED -> st = BLK_STATE_USED) -> C fl ->
  (forall fl', halves fl' i (blk_bytes st (es1 ++ dead e :: es2)) B' -> C fl') ->
  (forall fl' pw' st' b', halves fl' i (blk_bytes st' (es1 ++ dead e :: es2)) B' ->
    (blk_state b = BLK_STATE_USED /\ st' = BLK_STATE_DIRTY /\ b' = b <| blk_state := BLK_STATE_DIRTY |> \/
     blk_state b <> BLK_STATE_USED /\ st' = st /\ b' = b) ->
    Q RES_OK (kvs (m <| block_info ::= <[i := b']> |>) fl' pw' n t w)) ->
  wpc (kv_item_delete_at (place i (4 + total es1))) Q C (kvs m fl pw n t w).
Proof.
  intros Hh Hoff Hb Hst HC HC1 HQ. unfold kv_item_delete_at. apply wpc_bind. eapply wpc_kill; [done|done|].
  intros fl1 pw1 Hh1. fold (dead e) in Hh1. no_err. unfold place. rewrite blk_of_pos by done. cbv zeta.
  apply wpc_bind. eapply wpc_blk_get; [by rewrite Nat2Z.id|]. destruct (decide (blk_state b = BLK_STATE_USED)) as [Hu|Hu].
  - rewrite (Hst Hu) in *. rewrite off_mask by done. apply wpc_bind. eapply wpc_mark; [done|done|by apply HC1|].
    intros fl2 pw2 Hh2. no_err. apply wpc_bind. eapply wpc_blk_upd; [by rewrite Nat2Z.id|]. apply wpc_ret. rewrite Nat2Z.id.
    eapply HQ; [done|]. by left.
  - apply wpc_ret. rewrite <- (block_info_same m i b) at 1 by done. eapply HQ; [done|]. by right.
Qed.

(** In the block written to: the state of a store stays one. *)
Lemma wpc_item_delete c st es1 e es2 Q C m fl pw n t w :
  halves fl c (blk_bytes st (es1 ++ e :: es2)) (blk_bytes BLK_STATE_CLEAN []) -> walkable (es1 ++ e :: es2) ->
  (st = BLK_STATE_USED \/ st = BLK_STATE_DIRTY) -> mgr_ok m c st (es1 ++ e :: es2) -> distinct (es1 ++ dead e :: es2) ->
  C fl -> (forall fl', halves fl' c (blk_bytes st (es1 ++ dead e :: es2)) (blk_bytes BLK_STATE_CLEAN []) -> C fl') ->
  (forall m' fl' pw', store_ok m' fl' c BLK_STATE_DIRTY (es1 ++ dead e :: es2) ->
    kv_mutex m' = kv_mutex m -> kv_initialize m' = kv_initialize m -> Q RES_OK (kvs m' fl' pw' n t w)) ->
  wpc (kv_item_delete_at (place c (4 + total es1))) Q C (kvs m fl pw n t w).
Proof.
  intros Hh Hw Hst Hm Hd HC HC1 HQ. pose proof Hm as [Hthis Hother Hlen Hclean Hpos].
  pose proof (walk_room _ Hw) as Hr'. rewrite total_app, total_cons in Hr'. pose proof (halves_index _ _ _ _ Hh) as Hc.
  eapply wpc_delete_at; [done|lia|done|done|done|done|].
  intros fl' pw' st' b' Hh' Hcase.
  assert (st' = BLK_STATE_DIRTY /\ b' = mk_block_info (Z.of_nat (BS - 4 - total (es1 ++ e :: es2))) BLK_STATE_DIRTY) as [-> ->].
  { cbn in Hcase. destruct Hcase as [(_ & -> & ->)|(Hu & -> & ->)]; [done|].
    destruct Hst as [-> | ->]; [by destruct Hu|done]. }
  apply HQ; [|done|done]. split; [done|by apply walkable_kill|by left|done|].
  split; cbn; rewrite ?total_kill; [|by rewrite list_lookup_insert_ne by lia|by rewrite length_insert|done|done].
  by rewrite list_lookup_insert_eq by lia.
Qed.
End ops.
End KvOps.
