(* ===== verification/KvCalls.v ===== *)
(** * The calls of the key-value store

    [aos_kv_get], [aos_kv_set] and [aos_kv_del] on a store that holds a map, and what they
    leave when the power goes on the way. *)
From S2P Require Import Prelude Errno Ringbuf Kv KvBlock KvLogic KvItems KvWalk KvSpec KvOps.
Import Kv KvBlock KvLogic KvItems KvWalk KvSpec KvOps.

Module KvCalls.

(** what an item has to be, but for the place of the version before *)
Record item_ok (key v : list Z) : Prop := {
  item_key : (1 <= length key <= 128)%nat;
  item_value : (1 <= length v <= 512)%nat;
  item_bytes : Forall is_byte (key ++ v);
  item_plain : plain (key ++ v);
}.

Lemma entry_of_item key v o : item_ok key v -> origin_ok o -> entry_ok (mk_entry true key v o).
Proof. intros [? ? ? ?] ?. by split. Qed.

(** the bytes of flash an item takes *)
Definition item_size (key v : list Z) : Z := item_align (ITEM_HEADER_SIZE + Z.of_nat (length key) + Z.of_nat (length v)).

(** the bytes left in the block that is written to *)
Definition free_space (s : kv_state) : Z :=
  match block_info (g_kv_mgr s) !! Z.to_nat (Z.shiftr (write_pos (g_kv_mgr s)) BLK_BITS) with
  | Some b => space b
  | None => 0
  end.

Section calls.
Context `{FlashMem}.

Lemma wpc_lock Q C m fl pw n t w : kv_mutex m = Some false ->
  Q 0 (kvs (m <| kv_mutex := Some true |>) fl pw n t w) -> wpc aos_mutex_lock Q C (kvs m fl pw n t w).
Proof. intros Hm HQ. unfold aos_mutex_lock. apply wpc_bind, wpc_gets. cbn [g_kv_mgr]. rewrite Hm. done. Qed.

Lemma wpc_unlock Q C m fl pw n t w :
  Q tt (kvs (m <| kv_mutex ::= fmap (fun _ => false) |>) fl pw n t w) -> wpc aos_mutex_unlock Q C (kvs m fl pw n t w).
Proof. done. Qed.

#[local] Hint Extern 1 (same_blocks _ _) => (split; reflexivity) : core.

Lemma store_ok_same m m' fl c st es : same_blocks m m' -> store_ok m fl c st es -> store_ok m' fl c st es.
Proof. intros Hs [? ? ? ? Hm]. split; try done. by eapply mgr_ok_same. Qed.

Lemma kv_ok_intro m fl pw t w c st es : store_ok m fl c st es -> kv_mutex m = Some false -> kv_initialize m = 1 ->
  kv_ok (kvs m fl pw 0 t w) (live_map es).
Proof. intros. by exists m, fl, pw, t, w, c, st, es. Qed.

Lemma kv_ok_unlock m fl pw t w c st es : store_ok m fl c st es -> kv_mutex m = Some true -> kv_initialize m = 1 ->
  kv_ok (kvs (m <| kv_mutex ::= fmap (fun _ => false) |>) fl pw 0 t w) (live_map es).
Proof. intros Hs Hm Hi. eapply kv_ok_intro; [by apply (store_ok_same m)|cbn; by rewrite Hm|done]. Qed.

Lemma free_space_eq m fl pw t w c st es : store_ok m fl c st es ->
  free_space (kvs m fl pw 0 t w) = Z.of_nat (BS - 4 - total es).
Proof.
  intros [Hh [_ Hr] _ _ [Hthis _ _ _ Hpos]]. pose proof (halves_index _ _ _ _ Hh).
  unfold free_space. cbn [g_kv_mgr]. rewrite Hpos. rewrite blk_of_place, Nat2Z.id by lia. by rewrite Hthis.
Qed.

(** A key that is found is in the map, with its value. *)
Lemma found_lookup es k e key : distinct es -> es !! k = Some e -> has_key key e -> live_map es !! key = Some (evalue e).
Proof. intros Hd He [Hl <-]. apply live_map_Some; [done| |done]. by eapply list_elem_of_lookup_2. Qed.

(** ** Reading *)

Lemma wpc_kv_get key blen kv s C : kv_ok s kv -> 0 < blen ->
  wpc (aos_kv_get (Some key) (Some blen)) (fun r s' => s' = s /\ r =
    match kv !! key with
    | None => (RES_ITEM_NOT_FOUND, [], Some blen)
    | Some v => if decide (blen < Z.of_nat (length v)) then (RES_NO_SPACE, [], Some (Z.of_nat (length v)))
                else (RES_OK, v, Some (Z.of_nat (length v)))
    end) C s.
Proof.
  intros (m & fl & pw & t & w & c & st & es & -> & [Hh Hw Hst Hd Hm] & Hmu & Hin & ->) Hbl.
  unfold aos_kv_get. rewrite decide_False by lia. apply wpc_bind, wpc_lock; [done|]. no_err.
  assert (Hback : forall t' n, kvs ((m <| kv_mutex := Some true |>) <| kv_mutex ::= fmap (fun _ => false) |>) fl pw n t' w = kvs m fl pw n t' w).
  { intros. destruct m; cbn in *. by subst. }
  apply wpc_bind. eapply wpc_item_get; [done|done|done|by apply (mgr_ok_same m)| |].
  - intros k e He Hk. rewrite (found_lookup es k e key) by done. destruct Hk as [Hl Hk].
    apply wpc_bind, wpc_unlock. rewrite Hback. unfold found at 1. cbn [hdr item_at val_len entry_hdr].
    destruct (decide (blen < _)) as [Hb|Hb].
    + apply wpc_bind. eapply (wpc_item_free _ _ _ _ _ _ _ _ _ 0); [right; split; [by eexists|lia]|]. by apply wpc_ret.
    + apply wpc_bind. eapply wpc_of_option; [done|]. change (hdr (found e _)) with (entry_hdr e).
      cbn [entry_hdr key_len val_len].
      apply wpc_bind. eapply wpc_of_option.
      { rewrite !Nat2Z.id. unfold Ringbuf.mem_read. rewrite decide_True by (rewrite length_app; lia).
        rewrite drop_app_length, take_ge; done. }
      apply wpc_bind. eapply (wpc_item_free _ _ _ _ _ _ _ _ _ 0); [right; split; [by eexists|lia]|]. by apply wpc_ret.
  - intros Hno. apply live_map_None in Hno. rewrite Hno. apply wpc_bind, wpc_unlock. rewrite Hback. by apply wpc_ret.
Qed.

(** ** Deleting *)

Lemma wpc_kv_del key kv s : kv_ok s kv ->
  wpc (aos_kv_del key) (fun r s' => kv_ok s' (delete key kv) /\
    r = if decide (kv !! key = None) then RES_ITEM_NOT_FOUND else RES_OK)
    (fun fl => recov fl (fun kv' => kv' = kv \/ kv' = delete key kv)) s.
Proof.
  intros (m & fl & pw & t & w & c & st & es & -> & Hs & Hmu & Hin & ->). pose proof Hs as [Hh Hw Hst Hd Hm].
  unfold aos_kv_del. apply wpc_bind, wpc_lock; [done|]. no_err. set (m1 := m <| kv_mutex := Some true |>).
  assert (Hs1 : store_ok m1 fl c st es) by by apply (store_ok_same m).
  apply wpc_bind. eapply wpc_item_get; [done|done|done|by apply (store_mgr _ _ _ _ _ Hs1)| |].
  - intros k e He Hk. destruct (entry_at es k e He) as (es1 & es2 & -> & Hl1 & Hoff).
    pose proof (found_lookup _ _ _ _ Hd He Hk) as Hlook. destruct Hk as [Hl Hk].
    apply wpc_bind. cbn [kv_item_del]. unfold found. cbn [pos item_at]. rewrite Hoff. 
    apply (wpc_item_delete c st es1 e es2); [done|done|by eapply dirty_ok_used|by apply (mgr_ok_same m)|by apply distinct_kill|..].
    + eapply store_recov; [done|by left].
    + intros fl' Hh'. eapply recov_in_use; [done|by apply walkable_kill|by eapply dirty_ok_used|].
      apply one_version; [by apply distinct_kill|]. right. rewrite live_map_kill by done. by rewrite Hk.
    + intros m2 fl2 pw2 Hs2 Hmu2 Hin2. apply wpc_bind.
      eapply (wpc_item_free _ _ _ _ _ _ _ _ _ 0); [right; split; [by eexists|lia]|].
      apply wpc_bind, wpc_unlock, wpc_ret. rewrite decide_False by congruence. split; [|done].
      rewrite <- Hk, <- live_map_kill by done. eapply kv_ok_unlock; [done|done|by rewrite Hin2].
  - intros Hno. apply live_map_None in Hno. apply wpc_bind, wpc_unlock, wpc_ret.
    rewrite decide_True, delete_id by done. split; [|done].
    by eapply (kv_ok_unlock m1).
Qed.

(** ** Writing *)

(** the place of an item is not that of the clean start *)
Lemma versions_append c es e key v : elive e = true -> ekey e = key -> evalue e = v -> distinct es ->
  live_map es !! key = None -> versions c (es ++ [e]) (fun kv => kv = live_map es \/ kv = <[key := v]> (live_map es)).
Proof.
  intros Hl Hk Hv Hd Hn. apply one_version; [by apply distinct_snoc; rewrite ?Hk|]. right.
  by rewrite live_map_snoc, Hk, Hv by (done || by rewrite Hk).
Qed.

Lemma item_size_entry key v o : item_ok key v -> origin_ok o ->
  item_size key v = Z.of_nat (esize (mk_entry true key v o)).
Proof. intros Hi Ho. by rewrite <- (item_align_entry _ (entry_of_item key v o Hi Ho)). Qed.

(** What is left in the critical section after the item was written, or was not for want of
    room: [n] blocks of memory are still held. *)
Inductive written (m : kv_mgr_t) (kv kv' : kvmap) (room : Prop) (n w : Z) (r : Z) (s' : kv_state) : Prop :=
| written_ok m' fl' pw' t' c st' es' :
    r = RES_OK -> s' = kvs m' fl' pw' n t' w -> store_ok m' fl' c st' es' -> kv_mutex m' = kv_mutex m ->
    kv_initialize m' = kv_initialize m -> live_map es' = kv' -> room -> written m kv kv' room n w r s'
| written_not m' fl' pw' t' c st' es' :
    r = RES_NO_SPACE -> s' = kvs m' fl' pw' n t' w -> store_ok m' fl' c st' es' -> kv_mutex m' = kv_mutex m ->
    kv_initialize m' = kv_initialize m -> live_map es' = kv -> ~ room -> gc_triggered m' <> 0 ->
    written m kv kv' room n w r s'.

(** the entries of a block with one more behind them *)
Lemma walkable_snoc es e : walkable es -> entry_ok e -> (total es + esize e < BS - 4)%nat -> walkable (es ++ [e]).
Proof.
  intros [Hes _] He Hr. split; [apply Forall_app; auto|]. rewrite total_app, total_cons, total_nil. lia.
Qed.

Lemma dirty_ok_snoc st es e : dirty_ok st es -> elive e = true -> dirty_ok st (es ++ [e]).
Proof. intros [->|[-> Hl]] He; [by left|]. right. split; [done|]. apply Forall_app; auto. Qed.

Lemma wpc_store_new m fl pw n t w c st es key val v :
  store_ok m fl c st es -> item_ok key v -> Ringbuf.mem_read val 0 (length v) = Some v -> live_map es !! key = None ->
  wpc (kv_item_store key val (Z.of_nat (length v)) 0)
    (written m (live_map es) (<[key := v]> (live_map es)) (item_size key v < Z.of_nat (BS - 4 - total es)) n w)
    (fun fl => recov fl (fun kv' => kv' = live_map es \/ kv' = <[key := v]> (live_map es))) (kvs m fl pw n t w).
Proof.
  intros Hs Hitem Hval Hn. pose proof Hs as [Hh Hw Hst Hd Hm]. set (e := mk_entry true key v 0).
  assert (He : entry_ok e) by (apply entry_of_item; [done|by left]).
  rewrite (item_size_entry key v 0) by (done || by left). fold e. eapply wpc_item_store; [done..| | |]; fold e.
  - eapply store_recov; [done|by left].
  - intros m' t' [Hb Hmu Hin] Hr Hg. eapply written_not; try done; [by eapply store_ok_same|lia].
  - intros m' fl' pw' t' Hr Hh' Hm' Hmu Hin.
    eapply (written_ok _ _ _ _ _ _ _ _ m' fl' pw' t' c st (es ++ [e])); try done; [|by apply live_map_snoc|lia].
    split; [done|by apply walkable_snoc|by apply dirty_ok_snoc|by apply distinct_snoc|done].
Qed.

(** The new version behind the others, the old one not deleted yet: a loss of power is one of
    either version. *)
Lemma recov_update (fl : list Z) (c : nat) (st : Z) (es1 : list entry) (old : entry) (es2 : list entry) (new : entry)
    (key : list Z) (P : kvmap -> Prop) :
  halves fl c (blk_bytes st (es1 ++ old :: es2 ++ [new])) (blk_bytes BLK_STATE_CLEAN []) ->
  walkable (es1 ++ old :: es2 ++ [new]) -> dirty_ok st (es1 ++ old :: es2) -> has_key key old -> ekey new = key ->
  elive new = true -> eorigin new = place c (4 + total es1) -> distinct (es1 ++ old :: es2) ->
  P (live_map (es1 ++ old :: es2)) -> P (<[key := evalue new]> (live_map (es1 ++ old :: es2))) -> recov fl P.
Proof.
  intros Hh Hw Hst Hk <- Hl Ho Hd HP1 HP2. eapply recov_in_use; [done|done|by eapply dirty_ok_used|].
  by eapply two_versions.
Qed.

Lemma wpc_set_update m fl pw n t w c st es1 old es2 key val v p :
  store_ok m fl c st (es1 ++ old :: es2) -> item_ok key v -> Ringbuf.mem_read val 0 (length v) = Some v ->
  has_key key old -> p = place c (4 + total es1) ->
  wpc (kv_item_update (found old p) key val (Z.of_nat (length v)))
    (written m (live_map (es1 ++ old :: es2)) (<[key := v]> (live_map (es1 ++ old :: es2)))
      (evalue old = v \/ item_size key v < Z.of_nat (BS - 4 - total (es1 ++ old :: es2))) n w)
    (fun fl => recov fl (fun kv' => kv' = live_map (es1 ++ old :: es2) \/ kv' = <[key := v]> (live_map (es1 ++ old :: es2))))
    (kvs m fl pw n t w).
Proof.
  intros Hs Hitem Hval Hk ->. pose proof Hs as [Hh Hw Hst Hd Hm]. pose proof (halves_index _ _ _ _ Hh) as Hc.
  pose proof (found_lookup (es1 ++ old :: es2) (length es1) old key Hd ltac:(by rewrite list_lookup_middle) Hk) as Hlook.
  pose proof (place_origin_ok es1 old es2 c Hc Hw) as Ho.
  unfold kv_item_update. apply wpc_bind. eapply wpc_of_option; [done|].
  apply wpc_bind. eapply wpc_of_option; [by rewrite Nat2Z.id|].
  change (hdr (found old _)) with (entry_hdr old). cbn [val_len key_len entry_hdr]. rewrite Nat2Z.id, drop_app_length.
  destruct (decide _) as [[_ Hsame]|Hdiff].
  { apply wpc_ret. eapply written_ok; try done; [by rewrite insert_id; [|by rewrite Hlook, Hsame]|by left]. }
  assert (Hne : evalue old <> v) by (intros Heq; apply Hdiff; by rewrite Heq).
  apply wpc_bind. change (pos (found old ?q)) with q.
  set (new := mk_entry true key v (place c (4 + total es1))).
  assert (Hnew : entry_ok new) by by apply entry_of_item.
  rewrite (item_size_entry key v _ Hitem Ho). fold new.
  destruct (live_map_update es1 old es2 new Hd Hk eq_refl) as [Hd' Hmap].
  assert (Happ : (es1 ++ old :: es2) ++ [new] = es1 ++ old :: es2 ++ [new]) by by rewrite <- app_assoc.
  eapply wpc_item_store; [done..| | |]; fold new.
  - eapply store_recov; [done|by left].
  - intros m' t' [Hb Hmu Hin] Hr Hg. rewrite decide_True by done. apply wpc_ret.
    eapply written_not; try done; [by eapply store_ok_same|]. intros [?|?]; [done|lia].
  - intros m' fl' pw' t' Hr Hh' Hm' Hmu Hin. no_err. cbn [kv_item_del]. change (pos (found old ?q)) with q.
    assert (Hw2 : walkable (es1 ++ old :: es2 ++ [new])) by (rewrite <- Happ; by apply walkable_snoc).
    rewrite Happ in Hh', Hm'.
    apply (wpc_item_delete c st es1 old (es2 ++ [new])); [done|done|by eapply dirty_ok_used|done|done| | |].
    + by eapply recov_update; [..|left|right].
    + intros fl2 Hh2. eapply recov_in_use; [done|by apply walkable_kill|by eapply dirty_ok_used|].
      apply one_version; [done|]. by right.
    + intros m2 fl2 pw2 Hs2 Hmu2 Hin2. eapply written_ok; try done; [by rewrite Hmu2|by rewrite Hin2|lia].
Qed.

(** giving back the item that was looked up *)
Lemma wpc_written_free m kv kv' room w r s' it C (Q : unit -> kv_state -> Prop) :
  written m kv kv' room 2 w r s' -> (exists b, istore it = Some b) ->
  (forall s'', written m kv kv' room 0 w r s'' -> Q tt s'') -> wpc (kv_item_free it) Q C s'.
Proof.
  intros Hwr Hit HQ.
  destruct Hwr as [m' fl' pw' t' c' st' es' Hr -> Hs' Hmu' Hin' Hkv Hroom|m' fl' pw' t' c' st' es' Hr -> Hs' Hmu' Hin' Hkv Hroom Hg];
    (eapply (wpc_item_free _ _ _ _ _ _ _ _ _ 0); [right; split; [done|lia]|]); apply HQ;
    [by eapply written_ok|by eapply written_not].
Qed.

(** What setting a key answers and leaves.  There has to be room for a new item, unless the
    value is there already. *)
Definition set_post (key v : list Z) (kv : kvmap) (free : Z) (r : Z) (s' : kv_state) : Prop :=
  r = RES_OK /\ kv_ok s' (<[key := v]> kv) /\ (kv !! key = Some v \/ item_size key v < free) \/
  r = RES_NO_SPACE /\ kv_ok s' kv /\ kv !! key <> Some v /\ free <= item_size key v /\ gc_triggered (g_kv_mgr s') <> 0.

Lemma wpc_set_end m key v kv free room w r s' C :
  written m kv (<[key := v]> kv) room 0 w r s' -> kv_mutex m = Some true -> kv_initialize m = 1 ->
  (room <-> kv !! key = Some v \/ item_size key v < free) ->
  wpc (aos_mutex_unlock;; mret r) (set_post key v kv free) C s'.
Proof.
  intros Hwr Hmu Hin Hroom.
  destruct Hwr as [m' fl' pw' t' c' st' es' -> -> Hs' Hmu' Hin' Hkv Hr|m' fl' pw' t' c' st' es' -> -> Hs' Hmu' Hin' Hkv Hr Hg];
    apply wpc_bind, wpc_unlock, wpc_ret; [left|right]; (split; [done|]); rewrite <- Hkv at 1.
  - split; [by eapply kv_ok_unlock; [|rewrite Hmu'|rewrite Hin']|by apply Hroom].
  - split; [by eapply kv_ok_unlock; [|rewrite Hmu'|rewrite Hin']|]. rewrite Hroom in Hr.
    split; [by intros ?; apply Hr; left|]. split; [|done]. destruct (decide (item_size key v < free)); [|lia].
    exfalso. apply Hr. by right.
Qed.

Lemma wpc_set_locked key val v kv s : kv_ok s kv -> item_ok key v -> Ringbuf.mem_read val 0 (length v) = Some v ->
  wpc (kv_set_locked key val (Z.of_nat (length v))) (set_post key v kv (free_space s))
    (fun fl => recov fl (fun kv' => kv' = kv \/ kv' = <[key := v]> kv)) s.
Proof.
  intros (m & fl & pw & t & w & c & st & es & -> & Hs & Hmu & Hin & ->) Hitem Hval.
  rewrite (free_space_eq m fl pw t w c st es) by done. pose proof Hs as [Hh Hw Hst Hd Hm].
  unfold kv_set_locked. apply wpc_bind, wpc_lock; [done|]. no_err. set (m1 := m <| kv_mutex := Some true |>).
  assert (Hs1 : store_ok m1 fl c st es) by by apply (store_ok_same m).
  apply wpc_bind. eapply wpc_item_get; [done|done|done|by apply (mgr_ok_same m)| |].
  - intros k e He Hk. destruct (entry_at es k e He) as (es1 & es2 & -> & Hl1 & Hoff).
    pose proof (found_lookup _ _ _ _ Hd He Hk) as Hlook. rewrite Hoff. apply wpc_bind, wpc_bind.
    eapply wpc_mono; [by apply (wpc_set_update m1 fl pw 2 t w c st es1 e es2)| |done].
    intros r s' Hwr. cbn beta. apply wpc_bind. eapply wpc_written_free; [done|by eexists|].
    intros s'' Hwr'. apply wpc_ret. eapply wpc_set_end; [done|done|done|]. rewrite Hlook. split; intros [?|?]; auto; left; congruence.
  - intros Hno. apply live_map_None in Hno. apply wpc_bind. eapply wpc_mono; [by eapply wpc_store_new| |done].
    intros r s' Hwr. eapply wpc_set_end; [done|done|done|]. rewrite Hno. split; [by right|]. by intros [?|?].
Qed.

(** A call without an argument, or with one out of range, changes nothing; one that comes
    while a collection is due waits for it. *)
Lemma wpc_kv_set key val v kv s : kv_ok s kv -> item_ok key v -> Ringbuf.mem_read val 0 (length v) = Some v ->
  wpc (aos_kv_set (Some key) (Some val) (Z.of_nat (length v)))
    (fun r s' => match r with
       | Some r => gc_triggered (g_kv_mgr s) = 0 /\ set_post key v kv (free_space s) r s'
       | None => gc_triggered (g_kv_mgr s) <> 0 /\ kv_ok s' kv
       end)
    (fun fl => recov fl (fun kv' => kv' = kv \/ kv' = <[key := v]> kv)) s.
Proof.
  intros Hs Hitem Hval. pose proof Hitem as [Hk Hv _ _]. unfold aos_kv_set.
  rewrite decide_False by (unfold ITEM_MAX_KEY_LEN, ITEM_MAX_VAL_LEN; lia). apply wpc_bind, wpc_gets.
  destruct (decide _) as [Hg|Hg].
  - destruct Hs as (m & fl & pw & t & w & c & st & es & -> & Hs & Hmu & Hin & ->).
    apply wpc_bind, wpc_upd_mgr, wpc_ret. split; [done|]. apply (kv_ok_intro _ _ _ _ _ c st); [by apply (store_ok_same m)|done|done].
  - apply wpc_fmap. eapply wpc_mono; [by apply wpc_set_locked| |done]. intros r s' Hr. split; [lia|done].
Qed.
End calls.
End KvCalls.
