(* ===== verification/KvGc.v ===== *)
(** * Collecting what was deleted

    [aos_kv_gc] copies the live items of a dirty block to the clean one and erases it: the map
    stays, and all the flash the map does not need is free again. *)
From S2P Require Import Prelude Errno Ringbuf Kv KvBlock KvLogic KvItems KvWalk KvSpec KvOps KvCalls.
Import Kv KvBlock KvLogic KvItems KvWalk KvSpec KvOps KvCalls.

Module KvGc.

Lemma total_lives es : (total (lives es) <= total es)%nat.
Proof.
  induction es as [|e es IH]; [done|]. destruct (elive e) eqn:Hl.
  - rewrite lives_cons_live, !total_cons by done. lia.
  - rewrite lives_cons_dead, !total_cons by done. lia.
Qed.

Lemma walkable_lives es : walkable es -> walkable (lives es).
Proof.
  intros [Hes Hr]. split; [|pose proof (total_lives es); lia].
  apply Forall_forall. intros e [He _]%elem_of_lives. by eapply Forall_forall in Hes.
Qed.

Lemma walkable_take k es : walkable es -> walkable (take k es).
Proof.
  intros [Hes Hr]. split; [by apply Forall_take|]. rewrite <- (take_drop k es), total_app in Hr. lia.
Qed.

Lemma lives_lives es : lives (lives es) = lives es.
Proof. apply filter_id. intros e [_ He]%elem_of_lives. done. Qed.

Lemma live_map_lives es : live_map (lives es) = live_map es.
Proof. unfold live_map. by rewrite lives_lives. Qed.

Lemma distinct_lives es : distinct es -> distinct (lives es).
Proof. unfold distinct. by rewrite lives_lives. Qed.

Lemma lives_all es : Forall (fun e => elive e = true) es -> lives es = es.
Proof. intros Hes. apply filter_id. intros e He. by eapply Forall_forall in Hes. Qed.

(** the flash the items of a map take *)
Definition kv_size (kv : kvmap) : Z :=
  Z.of_nat (sum_list_with (fun p => Z.to_nat (item_size p.1 p.2)) (map_to_list kv)).

Lemma item_size_eq e : entry_ok e -> item_size (ekey e) (evalue e) = Z.of_nat (esize e).
Proof. intros He. by rewrite <- item_align_entry. Qed.

Lemma kv_size_live es : walkable es -> distinct es -> kv_size (live_map es) = Z.of_nat (total (lives es)).
Proof.
  intros Hw Hd. unfold kv_size, live_map. f_equal. rewrite map_to_list_to_map by by rewrite <- list_fmap_compose.
  apply walkable_lives in Hw as [Hes _]. clear Hd. induction Hes as [|e l He Hl IH]; [done|].
  cbn. rewrite total_cons, IH, item_size_eq, Nat2Z.id by done. done.
Qed.

(** the manager while the entries [cs] are in the block [g] that is filled *)
Definition gc_mgr (m : kv_mgr_t) (g : nat) (cs : list entry) : kv_mgr_t :=
  m <| write_pos := place g (4 + total cs) |>
    <| block_info ::= <[g := mk_block_info (Z.of_nat (BS - 4 - total cs)) BLK_STATE_CLEAN]> |>.

Section gc.
Context `{FlashMem}.
Implicit Types (m : kv_mgr_t) (fl : list Z) (c g i : nat) (st n t w : Z) (es cs : list entry) (e : entry) (pw : option nat).
Implicit Types (C : list Z -> Prop) (P : kvmap -> Prop).

Lemma wpc_format i b B B' Q C m fl pw n t w :
  halves fl i B B' -> block_info m !! i = Some b -> C fl ->
  (forall fl', halves fl' i (replicate BS 255) B' -> C fl') ->
  (forall fl' pw', halves fl' i (blk_bytes BLK_STATE_CLEAN []) B' ->
    Q RES_OK (kvs (m <| block_info ::= <[i := mk_block_info 4092 BLK_STATE_CLEAN]> |>
                     <| clean_blk_nums ::= fun x => wrap 8 (x + 1) |>) fl' pw' n t w)) ->
  wpc (kv_block_format (Z.of_nat i)) Q C (kvs m fl pw n t w).
Proof.
  intros Hh Hb HC HC1 HQ. pose proof (halves_index _ _ _ _ Hh) as Hi. unfold kv_block_format. rewrite shift_blk.
  rewrite wrap_small by lia. apply wpc_bind. eapply wpc_raw_erase; [done|done|done|]. intros fl1 pw1 Hh1. no_err.
  apply wpc_bind. eapply wpc_format_hdr; [done|by apply HC1|]. intros fl2 pw2 Hh2. no_err.
  apply wpc_bind. eapply wpc_blk_upd; [by rewrite Nat2Z.id|]. rewrite Nat2Z.id. apply wpc_bind, wpc_upd_mgr, wpc_ret.
  by apply HQ.
Qed.

(** ** Copying *)

(** One more entry behind those of the block that is filled. *)
Lemma gc_mgr_snoc m g cs e : (g < 2)%nat -> length (block_info m) = 2%nat -> (total cs + esize e < BS - 4)%nat ->
  (gc_mgr m g cs) <| write_pos ::= fun p => wrap 16 (p + Z.of_nat (esize e)) |>
    <| block_info ::= <[g := mk_block_info (wrap 16 (Z.of_nat (BS - 4 - total cs) - Z.of_nat (esize e))) BLK_STATE_CLEAN]> |>
  = gc_mgr m g (cs ++ [e]).
Proof.
  intros Hg Hl Hr. pose proof (place_snoc g cs e Hg Hr) as Hp. unfold gc_mgr. destruct m; cbn in *. unfold upd; cbn.
  rewrite Hp, list_insert_insert_eq. do 3 f_equal. rewrite total_app, total_cons, total_nil, wrap_small by lia. lia.
Qed.

(** the flash in the middle of a collection *)
Lemma recov_copying (fl : list Z) (c : nat) (st : Z) (es : list entry) (k : nat) (P : kvmap -> Prop) :
  halves fl c (blk_bytes st es) (blk_bytes BLK_STATE_CLEAN (lives (take k es))) -> walkable es ->
  (st = BLK_STATE_USED \/ st = BLK_STATE_DIRTY) -> distinct es -> P (live_map es) -> no_self_origin c es -> recov fl P.
Proof.
  intros Hh Hw Hst Hd HP Hno. apply (recov_data _ _ c st es (Some (lives (take k es)))).
  split; [done|done|tauto| |by apply one_version].
  split; [by apply walkable_lives, walkable_take|]. right. split; [done|]. split; [done|].
  intros e [He Hl]%elem_of_lives. exists e. split; [|done]. rewrite <- (take_drop k es). set_solver.
Qed.

Lemma wpc_gc_cb c st es k e m fl pw n t w Q C :
  halves fl c (blk_bytes st es) (blk_bytes BLK_STATE_CLEAN (lives (take k es))) -> walkable es -> es !! k = Some e ->
  elive e = true -> length (block_info m) = 2%nat -> C fl ->
  (forall fl' pw', halves fl' c (blk_bytes st es) (blk_bytes BLK_STATE_CLEAN (lives (take (S k) es))) ->
    Q (RES_CONT, item_at e (place c (offset es k))) (kvs (gc_mgr m (1 - c) (lives (take (S k) es))) fl' pw' n t w)) ->
  wpc (__item_gc_cb (item_at e (place c (offset es k))) []) Q C
    (kvs (gc_mgr m (1 - c) (lives (take k es))) fl pw n t w).
Proof.
  intros Hh Hw He Hl Hlen HC HQ. pose proof Hw as [Hes Hr]. pose proof (halves_index _ _ _ _ Hh) as Hc.
  assert (Hok : entry_ok e) by by eapply Forall_lookup_1. destruct (entry_at es k e He) as (es1 & es2 & Heq & Hl1 & Hoff).
  pose proof (offset_S es k e He) as HoS. pose proof (offset_le es (S k)) as Hole. pose proof (esize_bounds e Hok).
  assert (Hsz : item_align (ITEM_HEADER_SIZE + len (item_at e (place c (offset es k)))) = Z.of_nat (esize e)).
  { rewrite <- item_align_entry by done. f_equal. unfold dsize. cbn. unfold dsize. lia. }
  assert (Htk : take (S k) es = take k es ++ [e]) by by apply take_S_r.
  rewrite Htk, lives_app, (lives_cons_live e []) in HQ by done. set (cs := lives (take k es)) in *.
  assert (Hroom : (total cs + esize e < BS - 4)%nat).
  { pose proof (total_lives (take k es)). unfold offset in *. fold cs in H1. lia. }
  unfold __item_gc_cb. rewrite Hsz. cbv zeta. apply wpc_bind, wpc_malloc; [lia|]. cbn [negb]. apply wpc_bind.
  eapply (wpc_raw_read _ _ c (offset es k)); [done|done| |]; rewrite length_replicate, Nat2Z.id; [lia|].
  rewrite Hoff, Heq, read_entry. cbn [fst snd]. no_err. apply wpc_bind, wpc_gets. cbn [g_kv_mgr].
  change (write_pos (gc_mgr m (1 - c) cs)) with (place (1 - c) (4 + total cs)).
  apply wpc_bind. eapply wpc_append; [by apply halves_swap|done|lia|done|]. intros fl' pw' Hh'. no_err.
  apply wpc_bind, wpc_upd_mgr. apply wpc_bind, wpc_gets. cbn [g_kv_mgr].
  change (write_pos _) with (wrap 16 (place (1 - c) (4 + total cs) + Z.of_nat (esize e))) at 1.
  rewrite place_snoc by (done || lia).
  rewrite blk_of_place by (rewrite total_app, total_cons, total_nil; lia).
  apply wpc_bind. eapply wpc_blk_upd; [rewrite Nat2Z.id; cbn; rewrite list_lookup_insert_eq by lia; done|]. rewrite Nat2Z.id.
  cbn [space]. apply wpc_bind, wpc_free, wpc_ret. rewrite Z.add_simpl_r.
  rewrite <- Hoff. rewrite <- gc_mgr_snoc in HQ by (done || lia). apply HQ.
  apply halves_swap in Hh'. by replace (1 - (1 - c))%nat with c in Hh' by lia.
Qed.

(** The whole block: its live items end up in the other one. *)
Lemma wpc_gc_traverse c es m fl pw n t w Q C :
  halves fl c (blk_bytes BLK_STATE_DIRTY es) (blk_bytes BLK_STATE_CLEAN []) -> walkable es -> length (block_info m) = 2%nat ->
  block_info m !! c = Some (mk_block_info (Z.of_nat (BS - 4 - total es)) BLK_STATE_DIRTY) ->
  (forall fl' k, halves fl' c (blk_bytes BLK_STATE_DIRTY es) (blk_bytes BLK_STATE_CLEAN (lives (take k es))) -> C fl') ->
  (forall fl' pw', halves fl' c (blk_bytes BLK_STATE_DIRTY es) (blk_bytes BLK_STATE_CLEAN (lives es)) ->
    Q None (kvs (gc_mgr m (1 - c) (lives es)) fl' pw' n t w)) ->
  wpc (kv_item_traverse __item_gc_cb (Z.of_nat c) []) Q C (kvs (gc_mgr m (1 - c) []) fl pw n t w).
Proof.
  intros Hh Hw Hlen Hb HC HQ. pose proof (halves_index _ _ _ _ Hh) as Hc.
  assert (Hbi : forall cs, block_info (gc_mgr m (1 - c) cs) !! c = Some (mk_block_info (Z.of_nat (BS - 4 - total es)) BLK_STATE_DIRTY)).
  { intros cs. cbn. by rewrite list_lookup_insert_ne by lia. }
  eapply (wpc_traverse __item_gc_cb [] c Hc (esize <$> es)
    (fun k st' es' s => st' = BLK_STATE_DIRTY /\ es' = es /\ exists fl pw, s = kvs (gc_mgr m (1 - c) (lives (take k es))) fl pw n t w /\
       halves fl c (blk_bytes BLK_STATE_DIRTY es) (blk_bytes BLK_STATE_CLEAN (lives (take k es))))).
  - intros k st' es' s (-> & -> & fl' & pw' & -> & Hh'). split; [|done].
    exists (gc_mgr m (1 - c) (lives (take k es))), fl', pw', n, t, w, (blk_bytes BLK_STATE_CLEAN (lives (take k es))). by split.
  - intros k st' es' m' fl' pw' n' t' w' e (-> & -> & fl2 & pw2 & [= -> -> -> -> -> ->] & Hh') He Hl.
    eapply wpc_gc_cb; [done|done|done|done|done|by eapply HC|]. intros fl3 pw3 Hh3. right. split; [done|].
    eapply (wpc_item_free _ _ _ _ _ _ _ _ _ n); [left; split; [done|lia]|].
    exists BLK_STATE_DIRTY, es. split; [done|]. split; [done|]. by exists fl3, pw3.
  - intros k st' es' m' fl' pw' n' t' w' e (-> & -> & fl2 & pw2 & [= -> -> -> -> -> ->] & Hh') He Hl.
    eapply wpc_mark_dirty_idle; [apply Hbi|done|]. apply wpc_free. rewrite Z.add_simpl_r.
    exists BLK_STATE_DIRTY, es. split; [done|]. split; [done|]. exists fl2, pw2.
    rewrite (take_S_r _ _ e), lives_app, (lives_cons_dead e []) by done. by rewrite app_nil_r.
  - intros st' es' m' fl' pw' n' t' w' (-> & -> & fl2 & pw2 & [= -> -> -> -> -> ->] & Hh').
    rewrite take_ge in * by (by rewrite length_fmap). eexists. split; [apply Hbi|]. fold (total es).
    rewrite block_info_space by done. rewrite block_info_same by apply Hbi. by apply HQ.
  - split; [done|]. split; [done|]. by exists fl, pw.
Qed.

(** ** The collection *)

Lemma store_ok_gc m fl c es (g := (1 - c)%nat) :
  halves fl g (blk_bytes BLK_STATE_USED (lives es)) (blk_bytes BLK_STATE_CLEAN []) -> walkable es -> distinct es ->
  length (block_info m) = 2%nat -> write_pos m = place g (4 + total (lives es)) -> clean_blk_nums m = 1 ->
  block_info m !! g = Some (mk_block_info (Z.of_nat (BS - 4 - total (lives es))) BLK_STATE_USED) ->
  block_info m !! c = Some (mk_block_info 4092 BLK_STATE_CLEAN) -> (c < 2)%nat ->
  store_ok m fl g BLK_STATE_USED (lives es).
Proof.
  intros Hh Hw Hd Hl Hp Hcl Hg Hc Hc2. split; [done|by apply walkable_lives| |by apply distinct_lives|].
  - right. split; [done|]. apply Forall_forall. by intros e [_ He]%elem_of_lives.
  - split; try done. unfold g. by replace (1 - (1 - c))%nat with c by lia.
Qed.

(** The flash may lose its data on the way only when an item is where its last version was. *)
Lemma wpc_collect c es m fl pw t w Q C (g := (1 - c)%nat) fuel op :
  store_ok m fl c BLK_STATE_DIRTY es ->
  (forall fl', (no_self_origin c es -> recov fl' (fun kv => kv = live_map es)) -> C fl') ->
  (forall m' fl' pw', store_ok m' fl' g BLK_STATE_USED (lives es) -> kv_mutex m' = kv_mutex m -> kv_initialize m' = kv_initialize m ->
    Q true (kvs m' fl' pw' 0 t w)) ->
  wpc (gc_loop (S fuel) (Z.of_nat c) (Z.of_nat g) op) Q C (kvs (gc_mgr m g []) fl pw 0 t w).
Proof.
  intros [Hh Hw _ Hd [Hthis Hother Hlen Hclean Hpos]] HC HQ. pose proof (halves_index _ _ _ _ Hh) as Hc.
  assert (Hg : (g < 2)%nat /\ g <> c) by (unfold g; lia). destruct Hg as [Hg Hgc].
  pose proof (walk_room _ Hw). pose proof (total_lives es) as Htl.
  assert (Hwl : walkable (lives es)) by by apply walkable_lives.
  assert (Hdata : forall oth fl', halves fl' g (blk_bytes BLK_STATE_CLEAN (lives es)) (other_bytes oth) ->
    oth = None \/ oth = Some [] -> recov fl' (fun kv => kv = live_map es)).
  { intros oth fl' Hh' Hoth. apply (recov_data _ _ g BLK_STATE_CLEAN (lives es) oth). split; [done|done|auto| |].
    - destruct Hoth as [-> | ->]; [done|apply other_nil].
    - apply one_version; [by apply distinct_lives|]. by apply live_map_lives. }
  cbn [gc_loop]. rewrite decide_False by (change BLK_NUMS with 2; lia). apply wpc_bind.
  eapply wpc_blk_get; [rewrite Nat2Z.id; cbn; by rewrite list_lookup_insert_ne|]. cbn [blk_state]. rewrite decide_True by done.
  apply wpc_bind. eapply wpc_gc_traverse; [done|done|done|done| |].
  { intros fl' k Hh'. apply HC. intros Hno. eapply recov_copying; [done|done|by right|done|done|done]. }
  intros fl1 pw1 Hh1. apply wpc_bind.
  eapply wpc_format; [done|cbn; by rewrite list_lookup_insert_ne| | |].
  { apply HC. intros Hno. rewrite <- (take_ge es (length es)) in Hh1 at 2 by done.
    eapply recov_copying; [done|done|by right|done|done|done]. }
  { intros fl' Hh'. apply HC. intros _. apply halves_swap in Hh'. fold g in Hh'. apply (Hdata None); auto. }
  intros fl2 pw2 Hh2. apply halves_swap in Hh2. fold g in Hh2. no_err. apply wpc_bind, wpc_gets. cbn [g_kv_mgr].
  match goal with |- context [write_pos ?x] => change (write_pos x) with (place g (4 + total (lives es))) end.
  unfold place. rewrite off_mask by lia.
  apply wpc_bind. eapply wpc_mark; [done|done| |].
  { apply HC. intros _. apply (Hdata (Some [])); auto. }
  intros fl3 pw3 Hh3. apply wpc_bind. fold g.
  eapply wpc_blk_upd; [rewrite Nat2Z.id; cbn; rewrite list_lookup_insert_ne by done; by rewrite list_lookup_insert_eq by lia|].
  rewrite Nat2Z.id. apply wpc_bind, wpc_upd_mgr, wpc_ret. apply HQ; [|done|done].
  apply store_ok_gc; cbn; try done; rewrite ?length_insert; try done.
  - by rewrite Hclean.
  - fold g. by rewrite list_lookup_insert_eq by (rewrite !length_insert; lia).
  - fold g. rewrite list_lookup_insert_ne by done. by rewrite list_lookup_insert_eq by (rewrite !length_insert; lia).
Qed.

(** The search for the clean block finds the other one. *)
Lemma wpc_find_clean c st es m fl pw n t w Q C : (c < 2)%nat -> st <> BLK_STATE_CLEAN -> mgr_ok m c st es ->
  Q (Some (Z.of_nat (1 - c))) (kvs m fl pw n t w) -> wpc (find_clean (Z.to_nat BLK_NUMS) 0) Q C (kvs m fl pw n t w).
Proof.
  intros Hc Hst [Hthis Hother Hlen Hclean Hpos] HQ. change (Z.to_nat BLK_NUMS) with 2%nat. cbn [find_clean].
  destruct c as [|[|c]]; [| |lia]; cbn [Nat.sub] in *.
  - apply wpc_bind. eapply wpc_blk_get; [done|]. cbn [blk_state]. rewrite decide_False by done.
    apply wpc_bind. eapply wpc_blk_get; [done|]. cbn [blk_state]. rewrite decide_True by done. by apply wpc_ret.
  - apply wpc_bind. eapply wpc_blk_get; [done|]. cbn [blk_state]. rewrite decide_True by done. by apply wpc_ret.
Qed.

(** Going round from the block behind the one written to, the first one is clean. *)
Lemma wpc_gc_skip c st es fuel m fl pw n t w Q C (g := (1 - c)%nat) : (c < 2)%nat -> mgr_ok m c st es ->
  wpc (gc_loop fuel (Z.of_nat c) (Z.of_nat g) (place c (4 + total es))) Q C (kvs (gc_mgr m g []) fl pw n t w) ->
  (total es < BS - 4)%nat ->
  wpc (gc_loop (S fuel) (Z.of_nat c + 1) (Z.of_nat g) (place c (4 + total es))) Q C (kvs (gc_mgr m g []) fl pw n t w).
Proof.
  intros Hc [Hthis Hother Hlen Hclean Hpos] HF Hr. cbn [gc_loop].
  assert (Hi : (if decide (Z.of_nat c + 1 = BLK_NUMS) then 0 else Z.of_nat c + 1) = Z.of_nat g).
  { change BLK_NUMS with 2. unfold g. destruct (decide _); lia. }
  rewrite Hi. apply wpc_bind. eapply wpc_blk_get.
  { rewrite Nat2Z.id. cbn. rewrite list_lookup_insert_eq by (unfold g; lia). done. }
  cbn [blk_state]. rewrite decide_False by done. rewrite blk_of_place by lia. rewrite decide_False by (unfold g; lia).
  destruct fuel as [|fuel]; [done|]. cbn [gc_loop] in HF |- *.
  replace (if decide (Z.of_nat g + 1 = BLK_NUMS) then 0 else Z.of_nat g + 1) with
    (if decide (Z.of_nat c = BLK_NUMS) then 0 else Z.of_nat c); [done|].
  change BLK_NUMS with 2. unfold g. repeat case_decide; lia.
Qed.

Lemma gc_mgr_nil m c st es : mgr_ok m c st es ->
  gc_mgr m (1 - c) [] = m <| write_pos := place (1 - c) 4 |>.
Proof.
  intros [_ Hother _ _ _]. unfold gc_mgr. f_equal. change (total []) with 0%nat.
  replace (Z.of_nat (BS - 4 - 0)) with 4092 by lia. destruct m; cbn in *. unfold upd; cbn. by rewrite list_insert_id.
Qed.

Lemma wpc_gc_locked c st es m fl pw t w Q C :
  store_ok m fl c st es ->
  (forall fl', (no_self_origin c es -> recov fl' (fun kv => kv = live_map es)) -> C fl') ->
  (forall m' fl' pw' c' st', store_ok m' fl' c' st' (lives es) -> kv_mutex m' = kv_mutex m -> kv_initialize m' = kv_initialize m ->
    Q tt (kvs m' fl' pw' 0 t w)) ->
  wpc gc_locked Q C (kvs m fl pw 0 t w).
Proof.
  intros Hs HC HQ. pose proof Hs as [Hh Hw Hst Hd Hm]. pose proof (halves_index _ _ _ _ Hh) as Hc.
  pose proof (walk_room _ Hw) as Hr. pose proof Hm as [Hthis Hother Hlen Hclean Hpos].
  assert (Hne : st <> BLK_STATE_CLEAN) by by destruct Hst as [-> |[-> _]].
  unfold gc_locked. apply wpc_bind, wpc_gets. cbn [g_kv_mgr]. apply wpc_bind, wpc_gets. cbn [g_kv_mgr]. rewrite Hclean. rewrite decide_False by lia.
  apply wpc_bind. eapply wpc_find_clean; [done|done|done|]. apply wpc_bind, wpc_upd_mgr.
  assert (wrap 16 (Z.shiftl (Z.of_nat (1 - c)) BLK_BITS + BLK_HEADER_SIZE) = place (1 - c) 4) as ->.
  { rewrite shift_blk. unfold BLK_HEADER_SIZE, place. rewrite wrap_small; lia. }
  rewrite Hpos, blk_of_place by lia. rewrite <- (gc_mgr_nil m c st es) by done.
  apply wpc_bind. change (S (Z.to_nat BLK_NUMS)) with 3%nat. eapply wpc_gc_skip; [done|done| |done].
  destruct Hst as [-> |[-> Hl]].
  - eapply wpc_collect; [done|done|]. intros m' fl' pw' Hs' Hmu Hin. cbn iota. by eapply HQ.
  - cbn [gc_loop]. rewrite decide_False by (change BLK_NUMS with 2; lia). apply wpc_bind.
    eapply wpc_blk_get; [rewrite Nat2Z.id; cbn; rewrite list_lookup_insert_ne by lia; done|]. cbn [blk_state].
    rewrite decide_False by done. rewrite blk_of_place by lia. rewrite decide_True by done. apply wpc_ret. cbn iota. apply wpc_upd_mgr.
    rewrite (gc_mgr_nil m c _ es) by done. eapply (HQ _ fl pw c BLK_STATE_USED); [|done|done].
    rewrite lives_all by done. by apply (store_ok_same m).
Qed.

(** no live item of the store is where the version it replaced was *)
Definition nothing_returned (s : kv_state) : Prop := forall c st es,
  halves (flash s) c (blk_bytes st es) (blk_bytes BLK_STATE_CLEAN []) -> walkable es -> no_self_origin c es.

(** A collection keeps the map and leaves all the flash the map does not take. *)
Lemma wpc_kv_gc kv s : kv_ok s kv ->
  wpc aos_kv_gc (fun _ s' => kv_ok s' kv /\ gc_triggered (g_kv_mgr s') = 0 /\ free_space s' = 4092 - kv_size kv)
    (fun fl => nothing_returned s -> recov fl (fun kv' => kv' = kv)) s.
Proof.
  intros (m & fl & pw & t & w & c & st & es & -> & Hs & Hmu & Hin & ->).
  unfold aos_kv_gc. apply wpc_bind, wpc_lock; [done|]. no_err. apply wpc_bind.
  set (m1 := m <| kv_mutex := Some true |>). assert (Hs1 : store_ok m1 fl c st es) by by apply (store_ok_same m).
  pose proof Hs as [Hh Hw _ Hd _].
  eapply wpc_gc_locked; [done| |].
  { intros fl' Hrec Hno. apply Hrec. by eapply Hno. }
  intros m2 fl2 pw2 c2 st2 Hs2 Hmu2 Hin2. apply wpc_bind, wpc_upd_mgr. apply wpc_bind, wpc_unlock. apply wpc_bind, wpc_gets. cbn [g_kv_mgr].
  set (m3 := _ <| kv_mutex ::= _ |>).
  assert (Hend : forall w', kv_ok (kvs m3 fl2 pw2 0 t w') (live_map es) /\ gc_triggered m3 = 0 /\
    free_space (kvs m3 fl2 pw2 0 t w') = 4092 - kv_size (live_map es)).
  { intros w'. assert (Hs3 : store_ok m3 fl2 c2 st2 (lives es)) by by apply (store_ok_same m2).
    split; [|split; [done|]].
    - rewrite <- live_map_lives. eapply kv_ok_intro; [done|unfold m3; cbn; by rewrite Hmu2|unfold m3; cbn; by rewrite Hin2].
    - rewrite (free_space_eq _ _ _ _ _ c2 st2 (lives es)) by done. rewrite kv_size_live by done.
      pose proof (walk_room _ Hw). pose proof (total_lives es). lia. }
  destruct (decide _); [apply wpc_modify|apply wpc_ret]; apply Hend.
Qed.
End gc.
End KvGc.
