(* ===== verification/KvRecover.v ===== *)
(** * Recovery: what is done at each item when the store starts

    An item whose predecessor is still live deletes it.  The place of the predecessor is an
    offset that may be out of date; what is found there is deleted only when it looks like a
    live item with the same key. *)
From S2P Require Import Prelude Errno Ringbuf Kv KvBlock KvLogic KvItems KvWalk KvSpec KvOps.
Import Kv KvBlock KvLogic KvItems KvWalk KvSpec KvOps.

Module KvRecover.

(** a possible origin as a block and a place in it *)
Lemma origin_place o : origin_ok o -> o <> 0 ->
  exists j off, (j < 2)%nat /\ o = place j off /\ (4 <= off <= 4088)%nat /\ (Z.of_nat off) mod 4 = 0.
Proof.
  intros [->|(Ho & Hm & Hb)] Hne; [done|]. exists (Z.to_nat (o / 4096)), (Z.to_nat (o mod 4096)).
  pose proof (Z.div_mod o 4096 ltac:(lia)) as Hdm. pose proof (Z.mod_pos_bound o 4096 ltac:(lia)) as Hmb.
  assert (0 <= o / 4096 < 2) by (split; [apply Z.div_pos; lia|apply Z.div_lt_upper_bound; lia]).
  split; [lia|]. split; [unfold place; lia|]. split; [lia|]. rewrite Z2Nat.id by lia.
  replace (o mod 4096) with (o + (- (1024 * (o / 4096))) * 4) by lia. by rewrite Z.mod_add.
Qed.

Lemma place_inj i off j off' : (off < BS)%nat -> (off' < BS)%nat -> place i off = place j off' -> i = j /\ off = off'.
Proof. unfold place. intros. assert (i = j) by nia. subst. split; [done|lia]. Qed.

(** the marks of a header are those at its place *)
Lemma hdr_marks B off h : item_hdr_of_bytes (take 8 (drop off B)) = Some h ->
  B !! off = Some (magic h) /\ B !! S off = Some (state h).
Proof.
  intros Hh. rewrite <- (Nat.add_0_r off) at 1. rewrite <- Nat.add_1_r. rewrite <- !lookup_drop.
  destruct (drop off B) as [|b0 [|b1 [|b2 [|b3 [|b4 [|b5 [|b6 [|b7 l]]]]]]]]; try done.
  cbn in Hh. injection Hh as <-. done.
Qed.

Lemma hdr_of_eight (b : list Z) : length b = 8%nat -> exists h, item_hdr_of_bytes b = Some h.
Proof. destruct b as [|? [|? [|? [|? [|? [|? [|? [|? [|? ?]]]]]]]]]; try done. eauto. Qed.

(** Entries of a block at the same place are the same. *)
Lemma same_offset b1 e1 b2 d1 e2 d2 : Forall entry_ok (b1 ++ e1 :: b2) -> b1 ++ e1 :: b2 = d1 ++ e2 :: d2 ->
  total b1 = total d1 -> length b1 = length d1.
Proof.
  assert (Hpos : forall x l, entry_ok x -> total [] <> total (x :: l)).
  { intros x l Hx. rewrite total_cons, total_nil. pose proof (esize_bounds x Hx). lia. }
  revert d1. induction b1 as [|x b1 IH]; intros [|y d1] Hf Heq Ht; [done| | |].
  - cbn in Heq. injection Heq as <- Heq. apply Forall_cons in Hf as [Hx _]. by apply (Hpos e1 d1) in Hx.
  - apply Forall_cons in Hf as [Hx _]. by apply (Hpos x b1) in Hx.
  - cbn in Heq. injection Heq as <- Heq. rewrite !total_cons in Ht. apply Forall_cons in Hf as [_ Hf].
    cbn. f_equal. apply IH; [done|done|lia].
Qed.

Section del.
Context `{FlashMem}.
Implicit Types (m : kv_mgr_t) (fl : list Z) (c i : nat) (st n t w : Z) (es : list entry) (e : entry) (pw : option nat).

(** the entries of a block that is not erased *)
Definition holds (B : list Z) (cs : list entry) : Prop :=
  B = replicate BS 255 /\ cs = [] \/ exists st, B = blk_bytes st cs /\ walkable cs.

Lemma holds_length B cs : holds B cs -> length B = BS.
Proof. intros [[-> _]|(st & -> & [_ Hr])]; [apply length_replicate|]. apply length_blk_bytes. lia. Qed.

(** What looks live in a block is one of its live entries. *)
Lemma holds_looks_live B cs off : holds B cs -> (4 <= off)%nat -> (Z.of_nat off) mod 4 = 0 -> looks_live B off ->
  exists st es1 e es2, B = blk_bytes st cs /\ cs = es1 ++ e :: es2 /\ off = (4 + total es1)%nat /\ elive e = true.
Proof.
  intros [[-> _]|(st & -> & [Hes Hr])] Ho Hm Hl; [by apply erased_looks_dead in Hl|].
  destruct (blk_looks_live st cs off Hes Ho Hm Hl) as (es1 & e & es2 & ? & ? & ?). by exists st, es1, e, es2.
Qed.

Lemma wpc_read_key j B B' cs1 e cs2 st p Q C m fl pw n t w :
  halves fl j B B' -> B = blk_bytes st (cs1 ++ e :: cs2) -> walkable (cs1 ++ e :: cs2) -> p = place j (4 + total cs1) ->
  Q (ekey e) (kvs m fl pw n t w) ->
  wpc (raw_read_fresh (p + ITEM_HEADER_SIZE) (Z.of_nat (length (ekey e)))) Q C (kvs m fl pw n t w).
Proof.
  intros Hh -> [Hes Hr] -> HQ. assert (Hok : entry_ok e) by (apply Forall_app in Hes as [_ Hes]; by apply Forall_cons in Hes as [? _]).
  pose proof (esize_bounds e Hok). pose proof (esize_eq e Hok) as Hsz. pose proof Hok as [Hk Hv _ _ _].
  pose proof (item_align_bounds (8 + Z.of_nat (dsize e)) ltac:(unfold dsize; lia)).
  rewrite total_app, total_cons in Hr. assert (Hds : (length (ekey e) <= dsize e)%nat) by (unfold dsize; lia).
  unfold raw_read_fresh. apply wpc_bind.
  eapply (wpc_raw_read _ _ j (4 + total cs1 + 8)); [done|unfold place, ITEM_HEADER_SIZE; lia| |];
    rewrite length_replicate, Nat2Z.id; [lia|].
  rewrite read_entry_data by done. cbn [fst snd]. rewrite decide_True by done. apply wpc_ret. by rewrite take_app_length.
Qed.

(** The version an item replaced: it is deleted if it is still live, whether in the same block
    or, when the offset is out of date, in the other one; otherwise nothing is done. *)
Lemma wpc_del_orig i st es k e B' cs Q C m fl pw n t w :
  halves fl i (blk_bytes st es) B' -> walkable es -> es !! k = Some e -> eorigin e <> 0 -> holds B' cs ->
  ((forall es1 e' es2, es = es1 ++ e' :: es2 -> eorigin e = place i (4 + total es1) -> ~ has_key (ekey e) e') ->
    forall r, Q r (kvs m fl pw n t w)) ->
  (forall es1 e' es2, es = es1 ++ e' :: es2 -> eorigin e = place i (4 + total es1) -> has_key (ekey e) e' ->
    wpc (kv_item_delete_at (place i (4 + total es1))) Q C (kvs m fl pw n t w)) ->
  (forall st' cs1 e' cs2, B' = blk_bytes st' cs -> cs = cs1 ++ e' :: cs2 -> eorigin e = place (1 - i) (4 + total cs1) ->
    has_key (ekey e) e' -> wpc (kv_item_delete_at (place (1 - i) (4 + total cs1))) Q C (kvs m fl pw n t w)) ->
  wpc (kv_item_del (item_at e (place i (offset es k))) KV_ORIG_REMOVE) Q C (kvs m fl pw n t w).
Proof.
  intros Hh Hw He Ho Hcs HQ0 HQ1 HQ2. pose proof Hw as [Hes Hr]. pose proof (halves_index _ _ _ _ Hh) as Hi.
  assert (Hok : entry_ok e) by by eapply Forall_lookup_1. pose proof Hok as [Hk Hv _ _ Hor].
  destruct (entry_at es k e He) as (a1 & a2 & Heq & Hl1 & Hoff).
  destruct (origin_place _ Hor Ho) as (j & off & Hj & Hpl & Hoffb & Hmod).
  assert (HB : exists Bj Bj' cj, halves fl j Bj Bj' /\ holds Bj cj /\
    (j = i /\ cj = es /\ Bj = blk_bytes st es \/ j = (1 - i)%nat /\ cj = cs /\ Bj = B')).
  { destruct (decide (j = i)) as [->|Hji].
    - exists (blk_bytes st es), B', es. split; [done|]. split; [|by left]. right. by exists st.
    - assert (j = (1 - i)%nat) as -> by lia. exists B', (blk_bytes st es), cs. split; [by apply halves_swap|]. split; [done|by right]. }
  destruct HB as (Bj & Bj' & cj & Hhj & Hcj & Hcase). pose proof (holds_length _ _ Hcj) as Hlen.
  unfold kv_item_del. cbn [hdr item_at origin_off entry_hdr key_len pos].
  apply wpc_bind. rewrite Hpl.
  eapply (wpc_raw_read _ _ j off); [done|done| |]; rewrite length_replicate; change (Z.to_nat ITEM_HEADER_SIZE) with 8%nat; [lia|].
  cbn [fst snd]. no_err.
  destruct (hdr_of_eight (take 8 (drop off Bj))) as [h Hdec]. { rewrite length_take, length_drop. lia. }
  apply wpc_bind. eapply wpc_of_option; [done|]. pose proof (hdr_marks _ _ _ Hdec) as [Hm1 Hm2].
  (* an entry of the block at the origin is the one whose header was read *)
  assert (Hsame : forall b1 e' b2, cj = b1 ++ e' :: b2 -> off = (4 + total b1)%nat -> (exists s, Bj = blk_bytes s cj) -> h = entry_hdr e').
  { intros b1 e' b2 -> -> [s ->]. destruct Hcj as [[_ Hnil]|(s' & Hb & [Hfe _])]; [by destruct b1|].
    assert (entry_ok e') by (apply Forall_app in Hfe as [_ Hfe]; by apply Forall_cons in Hfe as [? _]).
    rewrite read_entry_hdr, entry_hdr_roundtrip in Hdec by done. by injection Hdec. }
  assert (Hnone : (forall b1 e' b2, cj = b1 ++ e' :: b2 -> off = (4 + total b1)%nat -> (exists s, Bj = blk_bytes s cj) -> ~ has_key (ekey e) e') ->
    forall r, Q r (kvs m fl pw n t w)).
  { intros Hno r. apply HQ0. intros es1 e' es2 Hes1 Hor1.
    destruct Hcase as [(-> & -> & ->)|(-> & -> & ->)].
    - apply (Hno es1 e' es2 Hes1); [|by eexists]. rewrite Hpl in Hor1. apply place_inj in Hor1 as [_ ?]; [done|lia|].
      rewrite Hes1, total_app, total_cons in Hr. lia.
    - exfalso. rewrite Hpl in Hor1. apply place_inj in Hor1 as [? _]; [lia|lia|]. rewrite Hes1, total_app, total_cons in Hr. lia. }
  destruct (decide _) as [Hd|Hd].
  { apply wpc_ret, Hnone. intros b1 e' b2 Hb Hof Hs [Hl' Hk']. rewrite (Hsame b1 e' b2 Hb Hof Hs) in Hd. cbn in Hd.
    rewrite Hl', Hk' in Hd. destruct Hd as [Hd|[Hd|Hd]]; by apply Hd. }
  assert (Hlive : looks_live Bj off).
  { split; [rewrite Hm1|rewrite Hm2]; f_equal; apply dec_stable; tauto. }
  assert (Hkl : key_len h = Z.of_nat (length (ekey e))) by (apply dec_stable; tauto).
  destruct (holds_looks_live Bj cj off Hcj ltac:(lia) Hmod Hlive) as (s & b1 & e' & b2 & HBj & Hcjeq & Hofe & Hl').
  pose proof (Hsame b1 e' b2 Hcjeq Hofe ltac:(by eexists)) as Hhe. rewrite Hhe in Hkl |- *. cbn [key_len entry_hdr] in Hkl |- *.
  assert (Hwj : walkable (b1 ++ e' :: b2)).
  { rewrite <- Hcjeq. destruct Hcj as [[_ ->]|(s' & _ & ?)]; [by destruct b1|done]. }
  apply wpc_bind, wpc_malloc; [lia|]. cbn [negb]. apply wpc_bind, wpc_malloc; [lia|]. cbn [negb].
  apply wpc_bind. eapply (wpc_read_key j Bj Bj' b1 e' b2 s); [done|by rewrite <- Hcjeq|done|by rewrite Hofe|].
  apply wpc_bind. rewrite Hkl. eapply (wpc_read_key i _ B' a1 e a2 st); [done|by rewrite <- Heq|by rewrite <- Heq|by rewrite Hoff|].
  apply wpc_bind, wpc_free. apply wpc_bind, wpc_free. replace (n + 1 + 1 - 1 - 1) with n by lia.
  destruct (decide (ekey e' <> ekey e)) as [Hke|Hke].
  { apply wpc_ret, Hnone. intros d1 e2 d2 Hd1 Hof2 _ [Hl2 Hk2]. apply Hke.
    assert (e2 = e') as ->; [|done]. pose proof (Hsame b1 e' b2 Hcjeq Hofe ltac:(by eexists)).
    assert (length b1 = length d1) as Hlen'.
    { eapply (same_offset b1 e' b2 d1 e2 d2); [apply Hwj|by rewrite <- Hcjeq|lia]. }
    rewrite Hcjeq in Hd1. apply app_inj_1 in Hd1 as [_ Hd1]; [|done]. by injection Hd1. }
  assert (Hhas : has_key (ekey e) e') by (split; [done|by apply dec_stable]).
  destruct Hcase as [(-> & -> & ->)|(-> & -> & ->)].
  - rewrite Hofe. eapply HQ1; [done|by rewrite Hpl, Hofe|done].
  - rewrite Hofe. eapply HQ2; [done|done|by rewrite Hpl, Hofe|done].
Qed.

(** What is done at a live entry: its checksum is right, so that only the version it replaced,
    when that is another entry and live, is deleted. *)
Lemma wpc_recovery_cb i st es k e B' cs Q C m fl pw n t w :
  halves fl i (blk_bytes st es) B' -> walkable es -> es !! k = Some e -> holds B' cs ->
  ((forall es1 e' es2, es = es1 ++ e' :: es2 -> eorigin e = place i (4 + total es1) -> has_key (ekey e) e' ->
      length es1 = k) -> Q (RES_CONT, item_at e (place i (offset es k))) (kvs m fl pw n t w)) ->
  (forall es1 e' es2, es = es1 ++ e' :: es2 -> length es1 <> k -> has_key (ekey e) e' ->
    wpc (kv_item_delete_at (place i (4 + total es1)))
      (fun _ s => wpc aos_free (fun _ s => Q (RES_CONT, item_at e (place i (offset es k))) s) C s) C (kvs m fl pw (n + 1) t w)) ->
  (forall cs1 e' cs2, cs = cs1 ++ e' :: cs2 -> eorigin e = place (1 - i) (4 + total cs1) -> has_key (ekey e) e' ->
    wpc (kv_item_delete_at (place (1 - i) (4 + total cs1)))
      (fun _ s => wpc aos_free (fun _ s => Q (RES_CONT, item_at e (place i (offset es k))) s) C s) C (kvs m fl pw (n + 1) t w)) ->
  wpc (__item_recovery_cb (item_at e (place i (offset es k))) []) Q C (kvs m fl pw n t w).
Proof.
  intros Hh Hw He Hcs HQ0 HQ1 HQ2. pose proof Hw as [Hes Hr]. pose proof (halves_index _ _ _ _ Hh) as Hi.
  assert (Hok : entry_ok e) by by eapply Forall_lookup_1. pose proof Hok as [Hk Hv _ _ _].
  destruct (entry_at es k e He) as (es1 & es2 & Heq & Hl1 & Hoff).
  pose proof (offset_S es k e He) as HoS. pose proof (offset_le es (S k)) as Hole. pose proof (esize_eq e Hok) as Hsz.
  pose proof (item_align_bounds (8 + Z.of_nat (dsize e)) ltac:(unfold dsize; lia)).
  assert (Hds : (1 <= dsize e)%nat) by (unfold dsize; lia).
  assert (Hself : forall es1' e' es2', es = es1' ++ e' :: es2' -> length es1' = k -> place i (offset es k) = place i (4 + total es1')).
  { intros es1' e' es2' -> <-. by rewrite offset_app. }
  unfold __item_recovery_cb. cbn [len item_at pos].
  apply wpc_bind, wpc_malloc; [lia|]. cbn [negb]. apply wpc_bind.
  eapply (wpc_raw_read _ _ i (offset es k + 8)); [done|unfold place, ITEM_HEADER_SIZE; lia| |];
    rewrite length_replicate, Nat2Z.id; [lia|].
  rewrite Hoff, Heq, read_entry_data by done. cbn [fst snd]. no_err. rewrite <- Hoff.
  rewrite take_ge by (rewrite length_app; done). rewrite decide_True by done.
  cbn [hdr item_at origin_off entry_hdr pos].
  assert (Hn : n = n + 1 - 1) by lia.
  destruct (decide (eorigin e <> 0 /\ place i (offset es k) <> eorigin e)) as [[Ho Hp]|Hd].
  - apply wpc_bind, wpc_bind. eapply wpc_del_orig; [done|done|done|done|done| | |].
    + intros Hno r. apply wpc_ret, wpc_bind, wpc_free, wpc_ret. rewrite <- Hn. apply HQ0. intros a e' b Ha Hor Hk'.
      by destruct (Hno a e' b Ha Hor).
    + intros a e' b Ha Hor Hk'. eapply wpc_mono; [apply (HQ1 a e' b Ha)|done|done]; [|done]. intros Hl. apply Hp.
      rewrite Hor. by eapply Hself.
    + intros st' a e' b _ Ha Hor Hk'. eapply wpc_mono; [by eapply HQ2|done|done].
  - apply wpc_bind, wpc_ret, wpc_bind, wpc_free, wpc_ret. rewrite <- Hn. apply HQ0. intros a e' b Ha Hor Hk'.
    destruct (decide (eorigin e = 0)) as [Ho|Ho]; [unfold place in Hor; lia|].
    assert (place i (offset es k) = eorigin e) as Hpl by (apply dec_stable; tauto). rewrite Hor in Hpl.
    apply place_inj in Hpl as [_ Hpl]; [|lia|rewrite Ha, total_app, total_cons in Hr; lia]. rewrite Hoff in Hpl.
    assert (length es1 = length a) as <-; [|done]. eapply (same_offset es1 e es2 a e' b); [by rewrite <- Heq|by rewrite <- Heq|lia].
Qed.
End del.

(** ** What a deletion during recovery leaves *)

(** A live key of a block without two versions is in one place. *)
Lemma distinct_index es k e a e' b : distinct es -> es !! k = Some e -> es = a ++ e' :: b -> elive e = true ->
  has_key (ekey e) e' -> length a = k.
Proof.
  intros Hd He -> Hl [Hl' Hk]. destruct (decide (k = length a)) as [->|Hne]; [done|]. exfalso.
  unfold distinct in Hd. rewrite lives_app, lives_cons_live, fmap_app in Hd by done. cbn in Hd.
  apply NoDup_app in Hd as (_ & Hd1 & Hd2). apply NoDup_cons in Hd2 as [Hd2 _].
  assert (Hin : forall l, e ∈ l -> ekey e ∈ ekey <$> lives l).
  { intros l He'. apply list_elem_of_fmap. exists e. split; [done|]. by apply elem_of_lives. }
  apply lookup_app_Some in He as [He|[Hle He]].
  - apply list_elem_of_lookup_2 in He. apply (Hd1 (ekey e)); [by apply Hin|]. rewrite <- Hk. constructor.
  - destruct (k - length a)%nat eqn:Hka; [lia|]. cbn in He. apply list_elem_of_lookup_2 in He. apply Hd2. rewrite Hk. by apply Hin.
Qed.

(** Deleting one of two versions leaves one. *)
Lemma versions_kill d es P k e a e' b : versions d es P -> es = a ++ e' :: b -> length a <> k -> es !! k = Some e ->
  elive e = true -> has_key (ekey e) e' -> distinct (a ++ dead e' :: b) /\ P (live_map (a ++ dead e' :: b)).
Proof.
  intros [Hd HP|es1 old es2 new Heq Hk Hl Hor Hd HP1 HP2] Hes Hne He Hle Hke.
  { exfalso. apply Hne. by eapply distinct_index. }
  destruct Hke as [Hl' Hke]. destruct Hk as [Hlo Hko].
  assert (Heq' : es = (es1 ++ old :: es2) ++ [new]) by by rewrite Heq, <- app_assoc.
  destruct (live_map_update es1 old es2 new Hd) as [Hd1 Hm1]; [done|done|].
  (* the entry that is deleted is the old version or the new one *)
  assert (Hcase : length a = length es1 \/ b = []).
  { destruct (decide (length a = length (es1 ++ old :: es2))) as [Hla|Hla].
    - right. rewrite Hes in Heq'. apply app_inj_1 in Heq' as [_ Heq']; [|done]. by injection Heq'.
    - left. assert (Hla' : (length a < length (es1 ++ old :: es2))%nat).
      { apply (f_equal length) in Heq'. rewrite Hes, !length_app in Heq'. rewrite length_app in Hla |- *. cbn in *. lia. }
      destruct (lookup_app_Some (es1 ++ old :: es2) [new] k e) as [Hk1 _].
      rewrite <- Heq' in Hk1. destruct (Hk1 He) as [Hk2|[Hge Hk2]].
      + exfalso. apply Hne. assert (Ha : (es1 ++ old :: es2) !! length a = Some e').
        { rewrite <- (lookup_app_l _ [new]) by done. rewrite <- Heq', Hes. by apply list_lookup_middle. }
        destruct (entry_at _ _ _ Ha) as (a1 & b1 & Ha1 & Hla1 & _). rewrite <- Hla1.
        by eapply (distinct_index (es1 ++ old :: es2) k e a1 e' b1).
      + assert (e = new) as ->. { destruct (k - _)%nat; cbn in Hk2; [by injection Hk2|done]. }
        assert (Ha : (es1 ++ old :: es2) !! length a = Some e').
        { rewrite <- (lookup_app_l _ [new]) by done. rewrite <- Heq', Hes. by apply list_lookup_middle. }
        symmetry. apply (distinct_index (es1 ++ old :: es2) (length a) e' es1 old es2); try done. split; [done|]. congruence. }
  destruct Hcase as [Hla | ->].
  - rewrite Hes in Heq. apply app_inj_1 in Heq as [-> Heq]; [|done]. injection Heq as -> ->.
    split; [done|]. by rewrite Hm1.
  - rewrite Hes in Heq'. apply app_inj_tail in Heq' as [-> ->].
    unfold distinct, live_map. rewrite (lives_app _ [_]), (lives_cons_dead (dead new) []) by done. rewrite app_nil_r. by split.
Qed.

Lemma two_live_not_distinct es k e a e' b : es = a ++ e' :: b -> length a <> k -> es !! k = Some e ->
  elive e = true -> has_key (ekey e) e' -> ~ distinct es.
Proof. intros ? Hne ? ? ? ?. apply Hne. by eapply distinct_index. Qed.

(** A copy that is deleted is still one. *)
Lemma copied_kill d es a c b : copied d es (a ++ c :: b) -> copied d es (a ++ dead c :: b).
Proof.
  intros [Hn|(Hd & Hno & Hc)]; [by destruct a|]. right. split; [done|]. split; [done|].
  intros c' Hin. apply elem_of_app in Hin as [Hin|Hin]; [apply Hc; set_solver|].
  apply elem_of_cons in Hin as [->|Hin]; [|apply Hc; set_solver].
  destruct (Hc c) as (e & ? & ? & ? & ?); [set_solver|]. by exists e.
Qed.
End KvRecover.
