(* ===== verification/KvInit.v ===== *)
(** * Starting the store on the flash a loss of power left

    Both blocks are walked along: in the one with the data one version of each key stays, and
    the other one is formatted unless it is clean and empty. *)
From S2P Require Import Prelude Errno Ringbuf Kv KvBlock KvLogic KvItems KvWalk KvSpec KvOps KvCalls KvGc KvRecover.
Import Kv KvBlock KvLogic KvItems KvWalk KvSpec KvOps KvCalls KvGc KvRecover.

Module KvInit.

Implicit Types (fl : list Z) (d k : nat) (st : Z) (es cs : list entry) (oth : option (list entry)) (P : kvmap -> Prop) (e : entry).

(** the state of a block in which something deleted was seen *)
Definition dirtied (st : Z) : Z := if decide (st = BLK_STATE_USED) then BLK_STATE_DIRTY else st.

(** one version of each key is left *)
Definition settled (es : list entry) (P : kvmap -> Prop) : Prop := distinct es /\ P (live_map es).

(** nothing is deleted in a block in use *)
Definition used_live (st : Z) (es : list entry) : Prop := st = BLK_STATE_USED -> Forall (fun e => elive e = true) es.

(** copies of the same sizes *)
Definition copy_sizes (oth : option (list entry)) : option (list nat) := (fun cs : list entry => esize <$> cs) <$> oth.

Lemma dirtied_not_used st : dirtied st <> BLK_STATE_USED.
Proof. unfold dirtied. by case_decide. Qed.

Lemma rec_holds fl d st es oth P : rec_ok fl d st es oth P ->
  exists cs, holds (other_bytes oth) cs /\ (oth = None /\ cs = [] \/ oth = Some cs).
Proof.
  intros [_ _ _ Ho _]. destruct oth as [cs|].
  - exists cs. split; [|by right]. right. exists BLK_STATE_CLEAN. by destruct Ho.
  - exists []. by split; [left|left].
Qed.

Lemma rec_recov fl d st es oth P : rec_ok fl d st es oth P -> recov fl P.
Proof. apply recov_data. Qed.

Lemma state_dirtied st st' oth : st' = st \/ st' = dirtied st ->
  st = BLK_STATE_USED \/ st = BLK_STATE_DIRTY \/ st = BLK_STATE_CLEAN /\ (oth = None \/ oth = Some []) ->
  st' = BLK_STATE_USED \/ st' = BLK_STATE_DIRTY \/ st' = BLK_STATE_CLEAN /\ (oth = None \/ oth = Some []).
Proof. unfold dirtied. intros [-> | ->]; [done|]. case_decide; [by right; left|done]. Qed.

Lemma rec_marked fl fl' d st es oth P : rec_ok fl d st es oth P ->
  halves fl' d (blk_bytes (dirtied st) es) (other_bytes oth) -> rec_ok fl' d (dirtied st) es oth P.
Proof. intros [Hh Hw Hs Ho Hv] Hh'. split; try done. eapply state_dirtied; [by right|done]. Qed.

(** A version of the data block is deleted: there were two, and one is left. *)
Lemma rec_kill_own fl fl' d st st' es oth P k e a e' b :
  rec_ok fl d st es oth P -> es = a ++ e' :: b -> length a <> k -> es !! k = Some e -> elive e = true ->
  has_key (ekey e) e' -> halves fl' d (blk_bytes st' (a ++ dead e' :: b)) (other_bytes oth) ->
  st' = st \/ st' = dirtied st -> rec_ok fl' d st' (a ++ dead e' :: b) oth P /\ settled (a ++ dead e' :: b) P.
Proof.
  intros [Hh Hw Hs Ho Hv] Heq Hne He Hl Hk Hh' Hst.
  pose proof (versions_kill _ _ _ _ _ _ _ _ Hv Heq Hne He Hl Hk) as [Hd HP]. split; [|by split].
  split; [done|subst es; by apply walkable_kill|by eapply state_dirtied| |by apply one_version].
  destruct oth as [cs|]; [|done]. destruct Ho as [Hwc [->|[Hd' _]]]; [split; [done|by left]|].
  by destruct (two_live_not_distinct _ _ _ _ _ _ Heq Hne He Hl Hk).
Qed.

(** A copy is deleted: nothing else changes. *)
Lemma rec_kill_other fl fl' d st es P a c b :
  rec_ok fl d st es (Some (a ++ c :: b)) P ->
  halves fl' d (blk_bytes st es) (blk_bytes BLK_STATE_CLEAN (a ++ dead c :: b)) ->
  rec_ok fl' d st es (Some (a ++ dead c :: b)) P.
Proof.
  intros [Hh Hw Hs [Hwc Hc] Hv] Hh'. split; [done|done| | |done].
  - destruct Hs as [?|[?|[? [?|[=]]]]]; [auto|auto|done|by destruct a].
  - split; [by apply walkable_kill|by apply copied_kill].
Qed.

Lemma rec_copies_settled fl d st es P cs : rec_ok fl d st es (Some cs) P -> cs <> [] -> settled es P.
Proof.
  intros [_ _ _ [_ Hc] Hv] Hne. destruct Hc as [?|[Hd _]]; [done|]. destruct Hv as [? HP|es1 old es2 new Heq Hk Hl _ _ _ _]; [done|].
  exfalso. assert (Hn : es !! length (es1 ++ old :: es2) = Some new).
  { rewrite Heq. replace (es1 ++ old :: es2 ++ [new]) with ((es1 ++ old :: es2) ++ [new]) by by rewrite <- app_assoc.
    by rewrite list_lookup_middle. }
  eapply (two_live_not_distinct es _ new es1 old (es2 ++ [new])); [done| |done|done|done|done].
  rewrite length_app. cbn. lia.
Qed.

(** Behind the last entry one version is left: if there were two, the last one is visited, is
    live, and its predecessor is not left alone. *)
Lemma versions_last d es P k e : versions d es P -> es !! k = Some e ->
  (elive e = true -> forall es1 e' es2, es = es1 ++ e' :: es2 -> eorigin e = place d (4 + total es1) -> has_key (ekey e) e' ->
    length es1 = k) -> settled es P \/ (S k < length es)%nat.
Proof.
  intros [Hd HP|es1 old es2 new Heq Hk Hl Hor Hd HP1 HP2] He Hno; [by left; split|].
  assert (Hlen : length es = (length es1 + S (length es2 + 1))%nat) by (by rewrite Heq, !length_app; cbn; rewrite length_app).
  pose proof (lookup_lt_Some _ _ _ He). destruct (decide (S k < length es)%nat); [by right|]. exfalso.
  assert (e = new) as ->.
  { replace (es1 ++ old :: es2 ++ [new]) with ((es1 ++ old :: es2) ++ [new]) in Heq by by rewrite <- app_assoc.
    rewrite Heq, list_lookup_middle in He; [by injection He|]. rewrite length_app. cbn. lia. }
  pose proof (Hno Hl es1 old (es2 ++ [new]) Heq Hor Hk). lia.
Qed.

(** ** Walking along the block with the data *)

Section walks.
Context `{FlashMem}.

Lemma wpc_mark_dirty i sp st es B' Q C m fl pw n t w :
  halves fl i (blk_bytes st es) B' -> block_info m !! i = Some (mk_block_info sp st) -> C fl ->
  (forall fl' pw', halves fl' i (blk_bytes (dirtied st) es) B' ->
    Q tt (kvs (m <| block_info ::= <[i := mk_block_info sp (dirtied st)]> |>) fl' pw' n t w)) ->
  wpc (mark_dirty (Z.of_nat i)) Q C (kvs m fl pw n t w).
Proof.
  intros Hh Hb HC HQ. unfold mark_dirty. apply wpc_bind. eapply wpc_blk_get; [by rewrite Nat2Z.id|]. cbn [blk_state].
  unfold dirtied in HQ. destruct (decide (st = BLK_STATE_USED)) as [->|Hst].
  - rewrite shift_blk. apply wpc_bind. eapply wpc_mark; [done|done|done|]. intros fl' pw' Hh'.
    eapply wpc_blk_upd; [by rewrite Nat2Z.id|]. rewrite Nat2Z.id. by apply HQ.
  - apply wpc_ret. rewrite <- (block_info_same m i (mk_block_info sp st)) at 1 by done. by apply HQ.
Qed.

Lemma wpc_delete_own i sp st es1 e es2 B' Q C m fl pw n t w :
  halves fl i (blk_bytes st (es1 ++ e :: es2)) B' -> (4 + total es1 < BS)%nat -> block_info m !! i = Some (mk_block_info sp st) ->
  C fl -> (forall fl', halves fl' i (blk_bytes st (es1 ++ dead e :: es2)) B' -> C fl') ->
  (forall fl' pw', halves fl' i (blk_bytes (dirtied st) (es1 ++ dead e :: es2)) B' ->
    Q RES_OK (kvs (m <| block_info ::= <[i := mk_block_info sp (dirtied st)]> |>) fl' pw' n t w)) ->
  wpc (kv_item_delete_at (place i (4 + total es1))) Q C (kvs m fl pw n t w).
Proof.
  intros Hh Hr Hb HC HC1 HQ. eapply wpc_delete_at; [done|done|done|done|done|done|].
  intros fl' pw' st' b' Hh' Hcase. cbn in Hcase. unfold dirtied in HQ.
  destruct Hcase as [(-> & -> & ->)|(Hu & -> & ->)]; [by apply HQ|]. rewrite decide_False in HQ by done. by apply HQ.
Qed.

Lemma wpc_delete_other i st es1 e es2 B' b Q C m fl pw n t w :
  halves fl i (blk_bytes st (es1 ++ e :: es2)) B' -> (4 + total es1 < BS)%nat -> block_info m !! i = Some b ->
  blk_state b <> BLK_STATE_USED -> C fl -> (forall fl', halves fl' i (blk_bytes st (es1 ++ dead e :: es2)) B' -> C fl') ->
  (forall fl' pw', halves fl' i (blk_bytes st (es1 ++ dead e :: es2)) B' -> Q RES_OK (kvs m fl' pw' n t w)) ->
  wpc (kv_item_delete_at (place i (4 + total es1))) Q C (kvs m fl pw n t w).
Proof.
  intros Hh Hr Hb Hu HC HC1 HQ. eapply wpc_delete_at; [done|done|done|done|done|done|].
  intros fl' pw' st' b' Hh' [(? & _ & _)|(_ & -> & ->)]; [done|]. rewrite block_info_same by done. by apply HQ.
Qed.

(** What is known when the first [k] entries of the data block were looked at. *)
Record data_walk (m : kv_mgr_t) (sp : Z) (d : nat) (st0 : Z) (es0 : list entry) (oth0 : option (list entry)) (P : kvmap -> Prop)
  (n t w : Z) (k : nat) (st : Z) (es : list entry) (s : kv_state) : Prop := data_walk_at {
  dw_state : exists fl pw oth, s = kvs (m <| block_info ::= <[d := mk_block_info sp st]> |>) fl pw n t w /\
    rec_ok fl d st es oth P /\ copy_sizes oth = copy_sizes oth0;
  dw_sizes : esize <$> es = esize <$> es0;
  dw_dirty : st = st0 \/ st = dirtied st0;
  dw_live : st = BLK_STATE_USED -> Forall (fun e => elive e = true) (take k es);
  dw_settled : settled es P \/ (k < length es)%nat;
}.

Lemma info_twice m i b b' : m <| block_info ::= <[i := b]> |> <| block_info ::= <[i := b']> |> = m <| block_info ::= <[i := b']> |>.
Proof. destruct m. unfold upd. cbn. by rewrite list_insert_insert_eq. Qed.

Lemma info_inserted m i b b0 : block_info m !! i = Some b0 -> block_info (m <| block_info ::= <[i := b]> |>) !! i = Some b.
Proof. intros Hb. cbn. rewrite list_lookup_insert_eq; [done|]. by eapply lookup_lt_Some. Qed.

Section data.
Context (m : kv_mgr_t) (sp : Z) (d : nat) (st0 : Z) (es0 : list entry) (oth0 : option (list entry)) (P : kvmap -> Prop).
Context (n t w : Z) (C : list Z -> Prop) (b0 bo : block_info_t).
Context (Hb0 : block_info m !! d = Some b0) (Hbo : block_info m !! (1 - d)%nat = Some bo) (Hnu : blk_state bo <> BLK_STATE_USED).
Context (HC : forall fl, recov fl P -> C fl).

#[local] Notation walked := (data_walk m sp d st0 es0 oth0 P n t w).
#[local] Notation mst st := (m <| block_info ::= <[d := mk_block_info sp st]> |>).

(** the end of a turn at a live entry *)
Lemma data_next k st es e fl pw oth (p : Z) :
  rec_ok fl d st es oth P -> copy_sizes oth = copy_sizes oth0 -> esize <$> es = esize <$> es0 ->
  st = st0 \/ st = dirtied st0 -> (st = BLK_STATE_USED -> Forall (fun e => elive e = true) (take (S k) es)) ->
  settled es P \/ (S k < length es)%nat ->
  (RES_CONT, item_at e p).1 = RES_CONT /\
  wpc (kv_item_free (RES_CONT, item_at e p).2) (fun _ s => exists st es, walked (S k) st es s) C (kvs (mst st) fl pw (n + 1) t w).
Proof using.
  intros Hr Ho Hs Hd Hl Hse. split; [done|]. eapply (wpc_item_free _ _ _ _ _ _ _ _ _ n); [left; split; [done|lia]|].
  exists st, es. split; try done. by exists fl, pw, oth.
Qed.

Lemma dirtied_trans st : st = st0 \/ st = dirtied st0 -> dirtied st = st0 \/ dirtied st = dirtied st0.
Proof using.
  intros [-> | ->]; [by right|]. right. unfold dirtied at 1. rewrite decide_False; [done|apply dirtied_not_used].
Qed.

Lemma data_live k st es e fl pw n1 t1 w1 m1 (Q : Z * kv_item_t -> kv_state -> Prop) :
  walked k st es (kvs m1 fl pw n1 t1 w1) -> es !! k = Some e -> elive e = true ->
  wpc (__item_recovery_cb (item_at e (place d (offset es k))) [])
    (fun r s' => r.1 = RES_OK /\ Q r s' \/ r.1 = RES_CONT /\
       wpc (kv_item_free r.2) (fun _ s'' => exists st' es', walked (S k) st' es' s'') C s') C (kvs m1 fl pw (n1 + 1) t1 w1).
Proof using Hb0 Hbo Hnu HC.
  intros [(fl2 & pw2 & oth & [= -> -> -> -> -> ->] & Hrec & Hsz) Hs Hdi Hlive Hset] He Hl.
  pose proof (rec_holds _ _ _ _ _ _ Hrec) as (cs & Hcs & Hoth). pose proof Hrec as [Hh Hw Hst Ho Hv].
  pose proof (halves_index _ _ _ _ Hh) as Hd. pose proof (walk_room _ Hw) as Hr.
  assert (Htk : take (S k) es = take k es ++ [e]) by by apply take_S_r.
  assert (Hbound : forall a e' b, es = a ++ e' :: b -> (4 + total a < BS)%nat).
  { intros a e' b Heq. rewrite Heq, total_app, total_cons in Hr. lia. }
  assert (Hlive' : st = BLK_STATE_USED -> Forall (fun e => elive e = true) (take (S k) es)).
  { intros Hu. rewrite Htk. apply Forall_app. split; [by apply Hlive|]. by constructor. }
  eapply wpc_recovery_cb; [done|done|done|done| | |].
  - intros Hno. right. eapply data_next; [done|done|done|done|done|]. eapply versions_last; [done|done|auto].
  - intros a e' b Heq Hne Hk. rewrite Heq in Hh. pose proof (Hbound a e' b Heq) as Hla.
    eapply wpc_delete_own; [done|done|by eapply info_inserted|apply HC; by eapply recov_data| |].
    + intros fl' Hh'. apply HC. eapply recov_data, (rec_kill_own _ fl' d st st); [done|done|done|done|done|done|done|by left].
    + intros fl' pw' Hh'. apply wpc_free. right.
      destruct (rec_kill_own fl2 fl' d st (dirtied st) es oth P k e a e' b Hrec) as [Hrec' Hset']; [done..|by right|].
      rewrite info_twice, Z.add_simpl_r. eapply (data_next k _ (a ++ dead e' :: b)); [done|done| |by apply dirtied_trans| |by left].
      * rewrite <- Hs, Heq, !fmap_app. done.
      * intros Hu. by apply dirtied_not_used in Hu.
  - intros a c b Heq Hor Hk. destruct Hoth as [[_ ->]|Hoth]; [by destruct a|]. subst oth.
    destruct Ho as [Hwc Hco]. pose proof (walk_room _ Hwc) as Hrc. rewrite Heq, total_app, total_cons in Hrc.
    cbn [other_bytes] in Hh. apply halves_swap in Hh. rewrite Heq in Hh.
    assert (Hwas : forall fl', halves fl' (1 - d) (blk_bytes BLK_STATE_CLEAN (a ++ dead c :: b)) (blk_bytes st es) ->
      rec_ok fl' d st es (Some (a ++ dead c :: b)) P).
    { intros fl' Hh'. apply halves_swap in Hh'. replace (1 - (1 - d))%nat with d in Hh' by lia.
      eapply rec_kill_other; [|done]. by rewrite <- Heq. }
    eapply wpc_delete_other; [done|lia| |done|apply HC; by eapply recov_data| |].
    + cbn. by rewrite list_lookup_insert_ne by lia.
    + intros fl' Hh'. apply HC. by eapply recov_data, Hwas.
    + intros fl' pw' Hh'. apply wpc_free. right. rewrite Z.add_simpl_r.
      eapply data_next; [by apply Hwas| |done|done|done|].
      * rewrite <- Hsz, Heq. cbn. by rewrite !fmap_app.
      * left. eapply rec_copies_settled; [exact Hrec|]. rewrite Heq. by destruct a.
Qed.

Lemma data_dead k st es e fl pw n1 t1 w1 m1 :
  walked k st es (kvs m1 fl pw n1 t1 w1) -> es !! k = Some e -> elive e = false ->
  wpc (mark_dirty (Z.of_nat d)) (fun _ s' => wpc aos_free (fun _ s'' => exists st' es', walked (S k) st' es' s'') C s') C
    (kvs m1 fl pw (n1 + 1) t1 w1).
Proof using Hb0 HC.
  intros [(fl2 & pw2 & oth & [= -> -> -> -> -> ->] & Hrec & Hsz) Hs Hdi Hlive Hset] He Hl. pose proof Hrec as [Hh Hw Hst Ho Hv].
  eapply wpc_mark_dirty; [done|by eapply info_inserted|apply HC; by eapply recov_data|].
  intros fl' pw' Hh'. apply wpc_free. rewrite info_twice, Z.add_simpl_r. exists (dirtied st), es. split.
  - exists fl', pw', oth. split; [done|]. split; [by eapply rec_marked|done].
  - done.
  - by apply dirtied_trans.
  - intros Hu. by apply dirtied_not_used in Hu.
  - eapply versions_last; [done|done|]. congruence.
Qed.

(** The whole block: one version of each key is left, and it is dirty if it has to be. *)
Lemma wpc_recover_data fl pw Q :
  b0 = mk_block_info sp st0 -> rec_ok fl d st0 es0 oth0 P ->
  (forall fl' pw' st es oth, rec_ok fl' d st es oth P -> copy_sizes oth = copy_sizes oth0 -> settled es P -> used_live st es ->
    st = st0 \/ st = dirtied st0 -> total es = total es0 ->
    Q None (kvs (m <| block_info ::= <[d := mk_block_info (Z.of_nat (BS - 4 - total es)) st]> |>) fl' pw' n t w)) ->
  wpc (kv_item_traverse __item_recovery_cb (Z.of_nat d) []) Q C (kvs m fl pw n t w).
Proof using Hb0 Hbo Hnu HC.
  intros Hbe Hrec HQ. pose proof Hrec as [Hh Hw Hst Ho Hv]. pose proof (halves_index _ _ _ _ Hh) as Hd.
  eapply (wpc_traverse __item_recovery_cb [] d Hd (esize <$> es0) walked).
  - intros k st es s [(fl2 & pw2 & oth & -> & [Hh2 Hw2 _ _ _] & _) Hs _ _ _]. split; [|done].
    eexists _, _, _, _, _, _, _. by split.
  - intros k st es m1 fl1 pw1 n1 t1 w1 e. apply (data_live k st es e fl1 pw1 n1 t1 w1 m1 (fun r s => Q (Some r.2) s)).
  - intros k st es m1 fl1 pw1 n1 t1 w1 e. apply data_dead.
  - intros st es m1 fl1 pw1 n1 t1 w1 [(fl2 & pw2 & oth & [= -> -> -> -> -> ->] & Hr2 & Hsz) Hs Hdi Hlive Hset].
    eexists. split; [by eapply info_inserted|]. rewrite info_twice.
    assert (Hlen : length (esize <$> es0) = length es) by by rewrite <- Hs, length_fmap. rewrite Hlen in *.
    assert (Htot : sum_list (esize <$> es0) = total es) by by rewrite <- Hs. rewrite Htot.
    apply (HQ fl2 pw2 st es oth); [done|done| | |done|by rewrite <- Htot].
    + destruct Hset as [?|?]; [done|lia].
    + intros Hu. rewrite <- (firstn_all es). by apply Hlive.
  - split; [|done|by left|by constructor|].
    + exists fl, pw, oth0. split; [|done]. by rewrite <- Hbe, block_info_same.
    + destruct Hv as [? ?|es1 old es2 new -> _ _ _ _ _ _]; [by left; split|]. right. rewrite length_app. cbn. lia.
Qed.
End data.

(** ** Walking along the other block *)

(** Copies may delete copies; the data stays. *)
Lemma wpc_recover_other m d st es P n t w (C : list Z -> Prop) sp cs fl pw Q (o := (1 - d)%nat) :
  block_info m !! o = Some (mk_block_info sp BLK_STATE_CLEAN) -> (forall fl, recov fl P -> C fl) ->
  rec_ok fl d st es (Some cs) P ->
  (forall fl' pw' cs', rec_ok fl' d st es (Some cs') P -> esize <$> cs' = esize <$> cs ->
    Q None (kvs (m <| block_info ::= <[o := mk_block_info (Z.of_nat (BS - 4 - total cs)) BLK_STATE_CLEAN]> |>) fl' pw' n t w)) ->
  wpc (kv_item_traverse __item_recovery_cb (Z.of_nat o) []) Q C (kvs m fl pw n t w).
Proof.
  intros Hb HC Hrec HQ. pose proof Hrec as [Hh Hw Hst [Hwc Hco] Hv]. pose proof (halves_index _ _ _ _ Hh) as Hd.
  assert (Ho : (o < 2)%nat /\ (1 - o)%nat = d) by (unfold o; lia). destruct Ho as [Ho Hod].
  eapply (wpc_traverse __item_recovery_cb [] o Ho (esize <$> cs)
    (fun k st' cs' s => st' = BLK_STATE_CLEAN /\ esize <$> cs' = esize <$> cs /\
       exists fl pw, s = kvs m fl pw n t w /\ rec_ok fl d st es (Some cs') P)).
  - intros k st' cs' s (-> & Hs & fl2 & pw2 & -> & [Hh2 _ _ [Hw2 _] _]). split; [|done].
    exists m, fl2, pw2, n, t, w, (blk_bytes st es). split; [done|]. by apply halves_swap.
  - intros k st' cs' m1 fl1 pw1 n1 t1 w1 c (-> & Hs & fl2 & pw2 & [= -> -> -> -> -> ->] & Hr2) Hc Hl.
    pose proof Hr2 as [Hh2 Hw2 Hst2 [Hwc2 Hco2] Hv2]. pose proof (walk_room _ Hwc2) as Hrc. pose proof (walk_room _ Hw2) as Hr.
    assert (Hend : forall fl pw cs2 (p : Z), rec_ok fl d st es (Some cs2) P -> esize <$> cs2 = esize <$> cs ->
      (RES_CONT, item_at c p).1 = RES_CONT /\
      wpc (kv_item_free (RES_CONT, item_at c p).2) (fun _ s => exists st' cs', st' = BLK_STATE_CLEAN /\ esize <$> cs' = esize <$> cs /\
        exists fl pw, s = kvs m fl pw n t w /\ rec_ok fl d st es (Some cs') P) C (kvs m fl pw (n + 1) t w)).
    { intros fl3 pw3 cs2 p Hr3 Hs3. split; [done|]. eapply (wpc_item_free _ _ _ _ _ _ _ _ _ n); [left; split; [done|lia]|].
      exists BLK_STATE_CLEAN, cs2. split; [done|]. split; [done|]. by exists fl3, pw3. }
    apply halves_swap in Hh2. fold o in Hh2. cbn [other_bytes] in Hh2.
    eapply (wpc_recovery_cb o _ cs' k c _ es); [done|done|done|right; by exists st| | |].
    + intros _. right. by apply (Hend _ _ cs').
    + intros a c' b Heq Hne Hk. rewrite Heq in Hh2, Hr2. rewrite Heq, total_app, total_cons in Hrc.
      assert (Hwas : forall fl', halves fl' o (blk_bytes BLK_STATE_CLEAN (a ++ dead c' :: b)) (blk_bytes st es) ->
        rec_ok fl' d st es (Some (a ++ dead c' :: b)) P).
      { intros fl' Hh'. apply halves_swap in Hh'. rewrite Hod in Hh'. by eapply rec_kill_other. }
      eapply wpc_delete_other; [done|lia|done|done|apply HC; by eapply recov_data| |].
      * intros fl' Hh'. apply HC. by eapply recov_data, Hwas.
      * intros fl' pw' Hh'. apply wpc_free. right. rewrite Z.add_simpl_r.
        eapply Hend; [by apply Hwas|]. rewrite <- Hs, Heq, !fmap_app. done.
    + intros a e' b Heq Hor Hk. exfalso. rewrite Hod in Hor. destruct Hco2 as [->|(Hdi & Hno & Hcop)]; [done|].
      destruct (Hcop c) as (e & Hin & Hle & Hke & Hoe); [by eapply list_elem_of_lookup_2|].
      apply list_elem_of_lookup in Hin as [j Hj]. rewrite Hke in Hk.
      pose proof (distinct_index es j e a e' b Hdi Hj Heq Hle Hk) as Hla.
      assert (e = e') as ->. { rewrite Heq, list_lookup_middle in Hj by done. by injection Hj. }
      apply (Hno j e' Hj Hle). rewrite <- Hoe, Hor, <- Hla, Heq. by rewrite offset_app.
  - intros k st' cs' m1 fl1 pw1 n1 t1 w1 c (-> & Hs & fl2 & pw2 & [= -> -> -> -> -> ->] & Hr2) Hc Hl.
    eapply wpc_mark_dirty_idle; [done|done|]. apply wpc_free. rewrite Z.add_simpl_r. exists BLK_STATE_CLEAN, cs'.
    split; [done|]. split; [done|]. by exists fl2, pw2.
  - intros st' cs' m1 fl1 pw1 n1 t1 w1 (-> & Hs & fl2 & pw2 & [= -> -> -> -> -> ->] & Hr2). eexists. split; [done|].
    fold (total cs). by eapply HQ.
  - split; [done|]. split; [done|]. by exists fl, pw.
Qed.
End walks.
End KvInit.
