(* ===== verification/KvStart.v ===== *)
(** * [aos_kv_init]: what the blocks turn out to be, and where writing goes on *)
From S2P Require Import Prelude Errno Ringbuf Kv KvBlock KvLogic KvItems KvWalk KvSpec KvOps KvCalls KvGc KvRecover KvInit.
Import Kv KvBlock KvLogic KvItems KvWalk KvSpec KvOps KvCalls KvGc KvRecover KvInit.

Module KvStart.
Implicit Types (fl : list Z) (d k : nat) (st : Z) (es cs : list entry) (oth : option (list entry)) (P : kvmap -> Prop) (e : entry).
Implicit Types (m : kv_mgr_t) (n t w : Z) (pw : option nat) (unclean : list Z) (C : list Z -> Prop).

(** What the loop notes of a block: a clean one with no items counts, one with items is put on
    the list. *)
Definition note_block (i : nat) (st : Z) (es : list entry) (m : kv_mgr_t) : kv_mgr_t :=
  let m := m <| block_info ::= <[i := mk_block_info (Z.of_nat (BS - 4 - total es)) st]> |> in
  if decide (st = BLK_STATE_CLEAN /\ es = []) then m <| clean_blk_nums ::= fun n => wrap 8 (n + 1) |> else m.

Definition note_unclean (i : nat) (st : Z) (es : list entry) : list Z :=
  if decide (st = BLK_STATE_CLEAN /\ es <> []) then [Z.of_nat i] else [].

Lemma note_block_empty i m : note_block i BLK_STATE_CLEAN [] m =
  m <| block_info ::= <[i := mk_block_info 4092 BLK_STATE_CLEAN]> |> <| clean_blk_nums ::= fun n => wrap 8 (n + 1) |>.
Proof. unfold note_block. rewrite decide_True by done. do 4 f_equal. rewrite total_nil. lia. Qed.

Lemma total_zero es : Forall entry_ok es -> (total es = 0)%nat -> es = [].
Proof.
  intros [|e es' He _]; [done|]. rewrite total_cons. pose proof (esize_bounds e He). lia.
Qed.

Section start.
Context `{FlashMem}.

(** An erased block is formatted. *)
Lemma wpc_init_format N i B' b unclean Q C m fl pw n t w :
  halves fl i (replicate BS 255) B' -> block_info m !! i = Some b -> C fl ->
  (forall fl', halves fl' i (replicate BS 255) B' -> C fl') ->
  (forall fl' pw', halves fl' i (blk_bytes BLK_STATE_CLEAN []) B' ->
    wpc (init_loop N (Z.of_nat i + 1) unclean) Q C (kvs (note_block i BLK_STATE_CLEAN [] m) fl' pw' n t w)) ->
  wpc (init_loop (S N) (Z.of_nat i) unclean) Q C (kvs m fl pw n t w).
Proof.
  intros Hh Hb HC HC1 HQ. cbn [init_loop]. apply wpc_bind. rewrite shift_blk.
  eapply (wpc_raw_read _ _ i 0); [done|by rewrite Nat.add_0_r| |]; rewrite length_replicate; change (Z.to_nat BLK_HEADER_SIZE) with 4%nat; [lia|].
  rewrite drop_0, take_replicate, Nat.min_l by lia. cbn [fst snd].
  apply wpc_bind. eapply wpc_of_option; [done|]. cbn [bh_magic]. rewrite decide_False by done.
  apply wpc_bind. eapply wpc_format; [done|done|done|done|]. intros fl' pw' Hh'. rewrite decide_False by (intros Hne; by apply Hne).
  rewrite <- note_block_empty. by apply HQ.
Qed.

(** A block with a header is walked along, and noted. *)
Lemma wpc_init_walk N i st es B' b unclean Q C m fl pw n t w :
  halves fl i (blk_bytes st es) B' -> st = BLK_STATE_USED \/ st = BLK_STATE_DIRTY \/ st = BLK_STATE_CLEAN ->
  block_info m !! i = Some b ->
  wpc (kv_item_traverse __item_recovery_cb (Z.of_nat i) []) (fun _ s => exists fl' pw' st' es',
      s = kvs (m <| block_info ::= <[i := mk_block_info (Z.of_nat (BS - 4 - total es')) st']> |>) fl' pw' n t w /\
      (st' = st \/ st' = dirtied st) /\ walkable es' /\
      wpc (init_loop N (Z.of_nat i + 1) (note_unclean i st' es' ++ unclean)) Q C (kvs (note_block i st' es' m) fl' pw' n t w)) C
    (kvs (m <| block_info ::= <[i := b <| blk_state := st |>]> |>) fl pw n t w) ->
  wpc (init_loop (S N) (Z.of_nat i) unclean) Q C (kvs m fl pw n t w).
Proof.
  intros Hh Hst Hb HF. cbn [init_loop]. apply wpc_bind. rewrite shift_blk.
  eapply (wpc_raw_read _ _ i 0); [done|by rewrite Nat.add_0_r| |]; rewrite length_replicate; change (Z.to_nat BLK_HEADER_SIZE) with 4%nat; [lia|].
  rewrite drop_0. change (take 4 (blk_bytes st es)) with [BLK_MAGIC_NUM; st; 0; 0]. cbn [fst snd].
  apply wpc_bind. eapply wpc_of_option; [done|]. cbn [bh_magic bh_state]. rewrite decide_True by done.
  assert (INVALID_BLK_STATE st = false) as ->. { by destruct Hst as [-> |[-> | ->]]. }
  apply wpc_bind. eapply wpc_blk_upd; [by rewrite Nat2Z.id|]. rewrite Nat2Z.id. apply wpc_bind.
  eapply wpc_mono; [exact HF| |done]. intros _ s (fl' & pw' & st' & es' & -> & Hst' & [Hes Hr] & HI).
  assert (Hcl : st = BLK_STATE_CLEAN <-> st' = BLK_STATE_CLEAN).
  { unfold dirtied in Hst'. destruct Hst' as [-> | ->]; [done|]. case_decide; [by subst st|done]. }
  unfold note_block, note_unclean in HI. destruct (decide (st = BLK_STATE_CLEAN)) as [Hc|Hc].
  - assert (Hc' : st' = BLK_STATE_CLEAN) by by apply Hcl. apply wpc_bind. eapply wpc_blk_get.
    { rewrite Nat2Z.id. by eapply info_inserted. }
    cbn [space]. change (BLK_SIZE - BLK_HEADER_SIZE) with 4092. destruct (decide (_ <> 4092)) as [Hs|Hs].
    + assert (Hne : es' <> []) by (intros He; rewrite He, total_nil in Hs; lia).
      rewrite (decide_False (P := st' = BLK_STATE_CLEAN /\ es' = [])) in HI by tauto. by rewrite decide_True in HI.
    + assert (es' = []) as -> by (apply total_zero; [done|lia]).
      rewrite (decide_True (P := st' = BLK_STATE_CLEAN /\ [] = [])) in HI by done.
      rewrite decide_False in HI by tauto. by apply wpc_bind, wpc_upd_mgr.
  - rewrite !decide_False in HI by (intros [? _]; tauto). done.
Qed.

Lemma wpc_init_data N d st es oth P b0 bo unclean Q C m fl pw n t w :
  rec_ok fl d st es oth P -> (forall fl, recov fl P -> C fl) ->
  block_info m !! d = Some b0 -> block_info m !! (1 - d)%nat = Some bo -> blk_state bo <> BLK_STATE_USED ->
  (forall fl' pw' st' es' oth', rec_ok fl' d st' es' oth' P -> copy_sizes oth' = copy_sizes oth -> settled es' P -> used_live st' es' ->
    wpc (init_loop N (Z.of_nat d + 1) (note_unclean d st' es' ++ unclean)) Q C (kvs (note_block d st' es' m) fl' pw' n t w)) ->
  wpc (init_loop (S N) (Z.of_nat d) unclean) Q C (kvs m fl pw n t w).
Proof.
  intros Hrec HC Hb0 Hbo Hnu HQ. pose proof Hrec as [Hh Hw Hst _ _]. pose proof (halves_index _ _ _ _ Hh) as Hd.
  eapply wpc_init_walk; [done|tauto|done|].
  eapply (wpc_recover_data _ (space b0) d st es oth P n t w C (b0 <| blk_state := st |>) bo); [| |done|done|by destruct b0|done|].
  - by eapply info_inserted.
  - cbn. by rewrite list_lookup_insert_ne by lia.
  - intros fl' pw' st' es' oth' Hrec' Hcs Hset Hlive Hst' _. exists fl', pw', st', es'. rewrite info_twice.
    split; [done|]. split; [done|]. split; [by destruct Hrec'|]. by eapply HQ.
Qed.

Lemma wpc_init_other N d st es oth P b unclean Q C m fl pw n t w (o := (1 - d)%nat) :
  rec_ok fl d st es oth P -> (forall fl, recov fl P -> C fl) -> block_info m !! o = Some b ->
  (forall fl' pw' cs', rec_ok fl' d st es (Some cs') P -> copy_sizes oth = copy_sizes (Some cs') \/ cs' = [] ->
    wpc (init_loop N (Z.of_nat o + 1) (note_unclean o BLK_STATE_CLEAN cs' ++ unclean)) Q C (kvs (note_block o BLK_STATE_CLEAN cs' m) fl' pw' n t w)) ->
  wpc (init_loop (S N) (Z.of_nat o) unclean) Q C (kvs m fl pw n t w).
Proof.
  intros Hrec HC Hb HQ. pose proof Hrec as [Hh Hw Hst Ho Hv]. pose proof (halves_index _ _ _ _ Hh) as Hd.
  assert (Hod : (1 - o)%nat = d) by (unfold o; lia). apply halves_swap in Hh. fold o in Hh.
  destruct oth as [cs|].
  - cbn [other_bytes] in Hh. eapply wpc_init_walk; [done|tauto|done|].
    eapply (wpc_recover_other _ d st es P n t w C (space b) cs); [by eapply info_inserted|done|done|].
    intros fl' pw' cs' Hrec' Hs. exists fl', pw', BLK_STATE_CLEAN, cs'. fold o. rewrite info_twice.
    assert (total cs = total cs') as -> by (unfold total; by rewrite Hs).
    split; [done|]. split; [by left|]. split; [by destruct Hrec' as [_ _ _ [? _] _]|]. apply HQ; [done|].
    left. unfold copy_sizes. cbn. by rewrite Hs.
  - cbn [other_bytes] in Hh. assert (Hkeep : forall fl' B oth', halves fl' o B (blk_bytes st es) ->
      other_bytes oth' = B -> oth' = None \/ oth' = Some [] -> rec_ok fl' d st es oth' P).
    { intros fl' B oth' Hh' <- Hoth. apply halves_swap in Hh'. rewrite Hod in Hh'. split; [done|done| | |done].
      - tauto.
      - destruct Hoth as [-> | ->]; [done|apply other_nil]. }
    eapply wpc_init_format; [done|done|apply HC; by eapply recov_data| |].
    + intros fl' Hh'. apply HC. eapply recov_data, (Hkeep _ _ None); [done|done|by left].
    + intros fl' pw' Hh'. apply (HQ fl' pw' []); [|by right]. eapply Hkeep; [done|done|by right].
Qed.

(** ** Both blocks *)

Record ready (m0 m : kv_mgr_t) (fl : list Z) (d : nat) (st : Z) (es cs : list entry) (unclean : list Z) (P : kvmap -> Prop) : Prop := {
  rd_rec : rec_ok fl d st es (Some cs) P;
  rd_settled : settled es P;
  rd_live : used_live st es;
  rd_this : block_info m !! d = Some (mk_block_info (Z.of_nat (BS - 4 - total es)) st);
  rd_other : block_info m !! (1 - d)%nat = Some (mk_block_info (Z.of_nat (BS - 4 - total cs)) BLK_STATE_CLEAN);
  rd_blocks : length (block_info m) = 2%nat;
  rd_clean : clean_blk_nums m = (if decide (st = BLK_STATE_CLEAN /\ es = []) then 1 else 0) + (if decide (cs = []) then 1 else 0);
  rd_unclean : unclean = note_unclean d st es ++ note_unclean (1 - d) BLK_STATE_CLEAN cs;
  rd_mutex : kv_mutex m = kv_mutex m0;
}.

Lemma rec_state_clean fl d st es cs P : rec_ok fl d st es (Some cs) P -> st = BLK_STATE_CLEAN -> cs = [].
Proof. intros [_ _ [?|[?|[_ [?|[= ->]]]]] _ _] ->; done. Qed.

Lemma sizes_empty cs cs' : esize <$> cs = esize <$> cs' -> cs = [] <-> cs' = [].
Proof. destruct cs, cs'; done. Qed.

(** what was noted, in either order *)
Lemma ready_intro m0 fl d st es cs cs' P i1 i2 (l1 l2 : list entry) (s1 s2 : Z) :
  rec_ok fl d st es (Some cs) P -> settled es P -> used_live st es -> esize <$> cs' = esize <$> cs ->
  length (block_info m0) = 2%nat -> clean_blk_nums m0 = 0 ->
  (i1, s1, l1, (i2, s2, l2)) = (d, st, es, (1 - d, BLK_STATE_CLEAN, cs'))%nat \/
  (i1, s1, l1, (i2, s2, l2)) = ((1 - d), BLK_STATE_CLEAN, cs', (d, st, es))%nat ->
  ready m0 (note_block i2 s2 l2 (note_block i1 s1 l1 m0)) fl d st es cs (note_unclean i2 s2 l2 ++ note_unclean i1 s1 l1 ++ []) P.
Proof.
  intros Hrec Hset Hlive Hs Hl Hcl Hcase. assert (Htot : total cs' = total cs) by (unfold total; by rewrite Hs).
  pose proof (sizes_empty _ _ Hs) as He. pose proof (rec_halves _ _ _ _ _ _ Hrec) as Hh. pose proof (halves_index _ _ _ _ Hh) as Hd.
  rewrite app_nil_r. pose proof (rec_state_clean _ _ _ _ _ _ Hrec) as Hsc.
  assert (Hun : note_unclean (1 - d) BLK_STATE_CLEAN cs' = note_unclean (1 - d) BLK_STATE_CLEAN cs).
  { unfold note_unclean. repeat case_decide; tauto. }
  destruct Hcase as [[= -> -> -> -> -> ->]|[= -> -> -> -> -> ->]]; (split; [done|done|done|..]); unfold note_block; rewrite ?Htot, ?Hun.
  all: try (repeat case_decide; cbn; rewrite ?length_insert, ?list_lookup_insert_eq by (rewrite ?length_insert; lia);
    rewrite ?list_lookup_insert_ne by lia; rewrite ?list_lookup_insert_eq by (rewrite ?length_insert; lia); rewrite ?Hcl; tauto || done).
  - unfold note_unclean. repeat case_decide; try done. tauto.
Qed.

Lemma wpc_init_blocks P Q C m fl pw n t w :
  recov fl P -> (forall fl, recov fl P -> C fl) -> block_info m = replicate 2 (mk_block_info 0 0) -> clean_blk_nums m = 0 ->
  (forall m' fl' pw' d st es cs unclean, ready m m' fl' d st es cs unclean P -> Q (inr unclean) (kvs m' fl' pw' n t w)) ->
  wpc (init_loop (Z.to_nat BLK_NUMS) 0 []) Q C (kvs m fl pw n t w).
Proof.
  intros Hrec HC Hbi Hcl HQ. change (Z.to_nat BLK_NUMS) with 2%nat. change 0 with (Z.of_nat 0).
  assert (Hb : block_info m !! 0%nat = Some (mk_block_info 0 0) /\ block_info m !! 1%nat = Some (mk_block_info 0 0)) by by rewrite Hbi.
  assert (Hl : length (block_info m) = 2%nat) by by rewrite Hbi. destruct Hb as [Hb0 Hb1].
  assert (Hnote : forall st es, block_info (note_block 0 st es m) !! 1%nat = Some (mk_block_info 0 0)).
  { intros st es. unfold note_block. case_decide; cbn; by rewrite list_lookup_insert_ne. }
  (* the second block, when the first one holds the data *)
  assert (Hsecond : forall st es oth fl pw, rec_ok fl 0 st es oth P -> settled es P -> used_live st es ->
    wpc (init_loop 1 (Z.of_nat 0 + 1) (note_unclean 0 st es ++ [])) Q C (kvs (note_block 0 st es m) fl pw n t w)).
  { intros st es oth fl1 pw1 Hr Hset Hlive. change (Z.of_nat 0 + 1) with (Z.of_nat (1 - 0)).
    eapply wpc_init_other; [done|done|apply Hnote|]. intros fl2 pw2 cs' Hr2 _. cbn [init_loop]. apply wpc_ret. eapply HQ.
    eapply ready_intro; [done|done|done|done|done|done|by left]. }
  destruct Hrec as [Hh HP|d st es oth Hrec].
  - eapply wpc_init_format; [done|done|apply HC; by apply recov_blank| |].
    + intros fl' Hh'. apply HC. by apply recov_blank.
    + intros fl' pw' Hh'. change [] with (note_unclean 0 BLK_STATE_CLEAN [] ++ []) at 1. apply (Hsecond _ _ None).
      * split; [done|split; [done|rewrite total_nil; lia]|by auto|done|]. by apply one_version; [constructor|].
      * split; [constructor|done].
      * done.
  - pose proof Hrec as [Hh _ _ _ _]. pose proof (halves_index _ _ _ _ Hh) as Hd. destruct d as [|[|d]]; [| |lia].
    + eapply wpc_init_data; [done|done|done|done|done|]. intros. by eapply Hsecond.
    + change (Z.of_nat 0) with (Z.of_nat (1 - 1)). eapply wpc_init_other; [done|done|done|].
      intros fl1 pw1 cs1 Hr1 _. change (Z.of_nat (1 - 1) + 1) with (Z.of_nat 1).
      eapply wpc_init_data; [done|done| | | |].
      * apply Hnote.
      * unfold note_block. cbn [Nat.sub]. case_decide; cbn; rewrite list_lookup_insert_eq by lia; done.
      * done.
      * intros fl2 pw2 st2 es2 oth2 Hr2 Hcs Hset Hlive. destruct oth2 as [cs2|]; [|done]. cbn in Hcs. injection Hcs as Hcs.
        cbn [init_loop]. apply wpc_ret. eapply HQ. eapply (ready_intro m fl2 1 st2 es2 cs2 cs1); [done|done|done|by rewrite Hcs|done|done|by right].
Qed.

(** ** The place to write at *)

Lemma wpc_init_write_pos d st es Q C m fl pw n t w :
  (d < 2)%nat -> (total es < BS - 4)%nat -> st = BLK_STATE_USED \/ st = BLK_STATE_DIRTY ->
  block_info m !! d = Some (mk_block_info (Z.of_nat (BS - 4 - total es)) st) ->
  block_info m !! (1 - d)%nat = Some (mk_block_info 4092 BLK_STATE_CLEAN) ->
  Q tt (kvs (m <| write_pos := place d (4 + total es) |>) fl pw n t w) ->
  wpc (init_write_pos (Z.to_nat BLK_NUMS) 0) Q C (kvs m fl pw n t w).
Proof.
  intros Hd Hr Hst Hthis Hother HQ. change (Z.to_nat BLK_NUMS) with 2%nat. cbn [init_write_pos].
  assert (Hpos : forall b, wrap 16 (Z.shiftl (Z.of_nat d) BLK_BITS + BLK_SIZE - space (mk_block_info (Z.of_nat (BS - 4 - total es)) b)) = place d (4 + total es)).
  { intros b. rewrite shift_blk. cbn [space]. unfold place. change BLK_SIZE with 4096. rewrite wrap_small; lia. }
  destruct d as [|[|d]]; [| |lia]; cbn [Nat.sub] in *.
  - apply wpc_bind. eapply wpc_blk_get; [done|]. cbn [blk_state]. rewrite decide_True by done.
    apply wpc_bind. eapply wpc_blk_get; [done|]. cbn [blk_state]. rewrite decide_True by done.
    apply wpc_upd_mgr. change 0 with (Z.of_nat 0) at 1. by rewrite Hpos.
  - apply wpc_bind. eapply wpc_blk_get; [done|]. cbn [blk_state]. rewrite decide_False by (intros [?|?]; done).
    apply wpc_bind. eapply wpc_blk_get; [done|]. cbn [blk_state]. rewrite decide_True by done.
    apply wpc_bind. eapply wpc_blk_get; [done|]. cbn [blk_state]. rewrite decide_True by done.
    apply wpc_upd_mgr. change (0 + 1) with (Z.of_nat 1) at 1. by rewrite Hpos.
Qed.

(** ** The last steps *)

(** behind the blocks that a collection was filling *)
#[local] Notation init_end := (
  clean ← gets (fun s => clean_blk_nums (g_kv_mgr s));
  ret ← (if decide (clean = 0) then kv_block_format 0 else mret RES_OK);
  if decide (ret <> RES_OK) then mret ret else
  clean ← gets (fun s => clean_blk_nums (g_kv_mgr s));
  (if decide (clean = BLK_NUMS) then
     upd_mgr (fun m => m <| write_pos := BLK_HEADER_SIZE |>);;
     ret ← kv_state_set (Z.land BLK_HEADER_SIZE BLK_OFF_MASK) BLK_STATE_USED;
     if decide (ret = 0) then
       blk_upd 0 (fun b => b <| blk_state := BLK_STATE_USED |>);;
       upd_mgr (fun m => m <| clean_blk_nums ::= fun n => wrap 8 (n - 1) |>)
     else mret tt
   else init_write_pos (Z.to_nat BLK_NUMS) 0);;
  mret RES_OK).

Lemma wpc_init_in_use d st es Q C m fl pw n t w :
  halves fl d (blk_bytes st es) (blk_bytes BLK_STATE_CLEAN []) -> walkable es -> distinct es -> dirty_ok st es ->
  block_info m !! d = Some (mk_block_info (Z.of_nat (BS - 4 - total es)) st) ->
  block_info m !! (1 - d)%nat = Some (mk_block_info 4092 BLK_STATE_CLEAN) ->
  length (block_info m) = 2%nat -> clean_blk_nums m = 1 ->
  (forall m', store_ok m' fl d st es -> kv_mutex m' = kv_mutex m -> Q RES_OK (kvs m' fl pw n t w)) ->
  wpc init_end Q C (kvs m fl pw n t w).
Proof.
  intros Hh Hw Hdi Hdirty Hthis Hother Hl Hcl HQ. pose proof (halves_index _ _ _ _ Hh) as Hd.
  apply wpc_bind, wpc_gets. cbn [g_kv_mgr]. rewrite Hcl. rewrite decide_False by lia. apply wpc_bind, wpc_ret.
  rewrite decide_False by (intros Hne; by apply Hne). apply wpc_bind, wpc_gets. cbn [g_kv_mgr]. rewrite Hcl. rewrite decide_False by done.
  apply wpc_bind. eapply (wpc_init_write_pos d st es); [done|by destruct Hw|by eapply dirty_ok_used|done|done|].
  apply wpc_ret, HQ; [|done]. by split.
Qed.

Lemma wpc_init_empty P Q C m fl pw n t w :
  halves fl 0 (blk_bytes BLK_STATE_CLEAN []) (blk_bytes BLK_STATE_CLEAN []) -> P ∅ -> (forall fl, recov fl P -> C fl) ->
  block_info m = replicate 2 (mk_block_info 4092 BLK_STATE_CLEAN) -> clean_blk_nums m = 2 ->
  (forall m' fl' pw', store_ok m' fl' 0 BLK_STATE_USED [] -> kv_mutex m' = kv_mutex m -> Q RES_OK (kvs m' fl' pw' n t w)) ->
  wpc init_end Q C (kvs m fl pw n t w).
Proof.
  intros Hh HP HC Hbi Hcl HQ. assert (Hw : walkable []) by (split; [done|rewrite total_nil; lia]).
  apply wpc_bind, wpc_gets. cbn [g_kv_mgr]. rewrite Hcl. rewrite decide_False by lia. apply wpc_bind, wpc_ret.
  rewrite decide_False by (intros Hne; by apply Hne). apply wpc_bind, wpc_gets. cbn [g_kv_mgr]. rewrite Hcl. rewrite decide_True by done.
  apply wpc_bind, wpc_bind, wpc_upd_mgr. apply wpc_bind.
  replace (Z.land BLK_HEADER_SIZE BLK_OFF_MASK) with (Z.of_nat (BS * 0)) by (rewrite Nat.mul_0_r; done).
  eapply wpc_mark; [done|done| |].
  { apply HC. eapply (recov_data _ _ 0 BLK_STATE_CLEAN [] (Some [])). split; [done|done|auto|apply other_nil|].
    by apply one_version; [constructor|]. }
  intros fl' pw' Hh'. rewrite decide_True by done. apply wpc_bind. eapply wpc_blk_upd; [cbn; by rewrite Hbi|].
  apply wpc_upd_mgr, wpc_ret. apply HQ; [|done]. split; [done|done|by right|constructor|].
  split; cbn; rewrite ?Hbi, ?Hcl; [|done|done|done|].
  - by replace (Z.of_nat (BS - 4 - total [])) with 4092 by (rewrite total_nil; lia).
  - rewrite total_nil. unfold place. rewrite Nat.mul_0_r. done.
Qed.

Lemma wpc_kv_init P Q C m fl pw n t w :
  recov fl P -> (forall fl, recov fl P -> C fl) -> block_info m = replicate 2 (mk_block_info 0 0) -> clean_blk_nums m = 0 ->
  (forall m' fl' pw' c st es, store_ok m' fl' c st es -> P (live_map es) -> kv_mutex m' = kv_mutex m ->
    Q RES_OK (kvs m' fl' pw' n t w)) ->
  wpc kv_init Q C (kvs m fl pw n t w).
Proof.
  intros Hrec HC Hbi Hcl HQ. unfold kv_init. apply wpc_bind. eapply wpc_init_blocks; [done|done|done|done|].
  intros m1 fl1 pw1 d st es cs unclean [Hr [Hdi HP] Hlive Hthis Hother Hl Hc -> Hmu]. cbn iota.
  pose proof (rec_state_clean _ _ _ _ _ _ Hr) as Hsc. pose proof Hr as [Hh Hw Hst Ho _]. pose proof (halves_index _ _ _ _ Hh) as Hd.
  cbn [other_bytes] in Hh. apply wpc_bind.
  assert (Hnil : Z.of_nat (BS - 4 - total []) = 4092) by (rewrite total_nil; lia).
  destruct (decide (st = BLK_STATE_CLEAN)) as [->|Hne].
  - rewrite Hsc in * by done. rewrite Hnil in Hother. unfold note_unclean. rewrite (decide_False (P := _ /\ [] <> [])) by tauto. rewrite app_nil_r.
    destruct (decide (es = [])) as [->|Hes].
    + (* both are clean *)
      rewrite decide_False by tauto. cbn [init_unclean]. apply wpc_ret. rewrite decide_False by (intros Hne; by apply Hne).
      rewrite Hnil in Hthis. rewrite !decide_True in Hc by done.
      assert (Hh0 : halves fl1 0 (blk_bytes BLK_STATE_CLEAN []) (blk_bytes BLK_STATE_CLEAN [])).
      { destruct d as [|[|d]]; [done|by apply halves_swap in Hh|lia]. }
      eapply wpc_init_empty; [done|done|done| |done|].
      * destruct (block_info m1) as [|b0 [|b1 [|b2 l]]]; try done. destruct d as [|[|d]]; [| |lia]; cbn in Hthis, Hother |- *; congruence.
      * intros m2 fl2 pw2 Hs Hmu2. eapply HQ; [done|done|congruence].
    + (* a collection filled the block, and the other one was formatted *)
      rewrite decide_True by done. rewrite decide_False in Hc by tauto. rewrite decide_True in Hc by done.
      cbn [init_unclean]. apply wpc_bind, wpc_gets. cbn [g_kv_mgr]. rewrite Hc. rewrite decide_True by done. rewrite shift_blk.
      apply wpc_bind. eapply wpc_mark; [done|done|apply HC; by eapply recov_data|]. intros fl2 pw2 Hh2.
      rewrite decide_False by (intros Hne; by apply Hne). apply wpc_bind. eapply wpc_blk_upd; [by rewrite Nat2Z.id|]. rewrite Nat2Z.id.
      apply wpc_ret. rewrite decide_False by (intros Hne; by apply Hne).
      eapply (wpc_init_in_use d BLK_STATE_DIRTY es); [done|done|done|by left| | |by cbn; rewrite length_insert|done|].
      * cbn. by rewrite list_lookup_insert_eq by lia.
      * cbn. by rewrite list_lookup_insert_ne by lia.
      * intros m2 Hs Hmu2. eapply HQ; [done|done|]. rewrite Hmu2. done.
  - assert (Hdirty : dirty_ok st es).
    { destruct Hst as [->|[->|[? _]]]; [by right; split; [|apply Hlive]|by left|done]. }
    rewrite decide_False in Hc by tauto. unfold note_unclean. rewrite (decide_False (P := st = BLK_STATE_CLEAN /\ _)) by tauto. cbn [app].
    destruct (decide (cs = [])) as [->|Hcs].
    + rewrite decide_False by tauto. cbn [init_unclean]. apply wpc_ret. rewrite decide_False by (intros Hn; by apply Hn).
      rewrite Hnil in Hother. eapply (wpc_init_in_use d st es); [done|done|done|done|done|done|done|done|].
      intros m2 Hs Hmu2. eapply HQ; [done|done|congruence].
    + (* the copies of a collection that did not end *)
      rewrite decide_True by done. cbn [init_unclean].
      apply wpc_bind, wpc_gets. cbn [g_kv_mgr]. rewrite Hc. rewrite decide_False by (unfold KV_GC_RESERVED; lia). apply wpc_bind.
      eapply wpc_format; [by apply halves_swap|done|apply HC; by eapply recov_data| |].
      { intros fl' Hh'. apply HC. apply halves_swap in Hh'. replace (1 - (1 - d))%nat with d in Hh' by lia.
        apply (recov_data _ _ d st es None). split; [done|done| |done|by apply one_version]. tauto. }
      intros fl2 pw2 Hh2. apply halves_swap in Hh2. replace (1 - (1 - d))%nat with d in Hh2 by lia.
      rewrite decide_False by (intros Hn; by apply Hn). apply wpc_ret. rewrite decide_False by (intros Hn; by apply Hn).
      eapply (wpc_init_in_use d st es); [done|done|done|done| | |by cbn; rewrite length_insert|by cbn; rewrite Hc|].
      * cbn. by rewrite list_lookup_insert_ne by lia.
      * cbn. by rewrite list_lookup_insert_eq by lia.
      * intros m2 Hs Hmu2. eapply HQ; [done|done|]. rewrite Hmu2. done.
Qed.
End start.
End KvStart.
