(* ===== verification/KvDurable.v ===== *)
(** * The key-value store as a map that survives a loss of power

    The calls, their being cut short, and the start that follows, as steps of a system; and
    the map they implement. *)
From S2P Require Import Prelude Errno Ringbuf Kv KvBlock KvLogic KvItems KvWalk KvSpec KvOps KvCalls KvGc KvRecover KvInit KvStart.
Import Kv KvBlock KvLogic KvItems KvWalk KvSpec KvOps KvCalls KvGc KvRecover KvInit KvStart.

Module KvDurable.

Section durable.
Context `{FlashMem}.

Lemma wpc_sync_new upd Q C m fl pw n t w : Q 0 (kvs (upd m) fl pw n t w) -> wpc (sync_new upd) Q C (kvs m fl pw n t w).
Proof. done. Qed.

(** From a flash from which a map of [P] can be recovered, the start recovers one; when the
    power goes again on the way, one can still be recovered. *)
Lemma wpc_aos_kv_init (fl : list Z) (P : kvmap -> Prop) pw : recov fl P ->
  wpc aos_kv_init (fun r s => r = RES_OK /\ exists kv, P kv /\ kv_ok s kv) (fun fl' => recov fl' P) (powered_up fl pw).
Proof.
  intros Hrec. unfold aos_kv_init, powered_up. apply wpc_bind, wpc_gets. cbn [g_kv_mgr kv_initialize blank_mgr].
  rewrite decide_False by (intros Hne; by apply Hne). rewrite decide_False by (change BLK_NUMS with 2; unfold KV_GC_RESERVED; lia).
  apply wpc_bind, wpc_upd_mgr. apply wpc_bind, wpc_sync_new.
  rewrite decide_False by (intros Hne; by apply Hne). apply wpc_bind.
  eapply (wpc_kv_init P); [done|done|done|done|]. intros m' fl' pw' c st es Hs HP Hmu. cbn in Hmu.
  rewrite decide_False by (intros Hne; by apply Hne). apply wpc_bind, wpc_sync_new.
  rewrite decide_False by (intros Hne; by apply Hne). apply wpc_bind, wpc_upd_mgr. apply wpc_bind, wpc_gets.
  set (m2 := _ <| kv_initialize := 1 |>). assert (Hs2 : store_ok m2 fl' c st es) by by apply (store_ok_same m').
  pose proof Hs2 as [Hh [_ Hr] _ _ [Hthis _ _ _ Hpos]]. cbn [g_kv_mgr]. rewrite Hpos, blk_of_place by lia.
  apply wpc_bind. eapply wpc_blk_get; [by rewrite Nat2Z.id|]. apply wpc_bind, wpc_gets. cbn [g_kv_mgr].
  assert (Hend : forall m3 t, only_gc m2 m3 -> wpc (mret RES_OK) (fun r s => r = RES_OK /\ exists kv, P kv /\ kv_ok s kv)
    (fun fl' => recov fl' P) (kvs m3 fl' pw' 0 t 0)).
  { intros m3 t [Hb Hmu3 Hin]. apply wpc_ret. split; [done|]. exists (live_map es). split; [done|].
    eapply kv_ok_intro; [by eapply store_ok_same|by rewrite Hmu3|by rewrite Hin]. }
  apply wpc_bind. destruct (decide _).
  - apply wpc_trigger_gc. intros m3 t Hm _. by apply Hend.
  - apply wpc_ret, Hend, only_gc_refl.
Qed.

(** ** A system of calls, losses of power and starts *)

Inductive kv_call :=
| Get (key : list Z) (buffer_len : Z)
| Put (key v : list Z)
| PutOn (key v : list Z)   (* a caller that waited for a collection goes on *)
| Del (key : list Z)
| Gc.

Inductive kv_answer :=
| Status (r : Z)
| Waits
| Bytes (r : Z) (v : list Z) (buffer_len : option Z)
| Nothing.

Definition run (c : kv_call) : M kv_answer :=
  match c with
  | Get key blen => (fun r => Bytes r.1.1 r.1.2 r.2) <$> aos_kv_get (Some key) (Some blen)
  | Put key v => (fun r => match r with Some r => Status r | None => Waits end) <$>
      aos_kv_set (Some key) (Some v) (Z.of_nat (length v))
  | PutOn key v => Status <$> kv_set_locked key v (Z.of_nat (length v))
  | Del key => Status <$> aos_kv_del key
  | Gc => (fun _ => Nothing) <$> aos_kv_gc
  end.

Definition call_ok (c : kv_call) : Prop :=
  match c with
  | Get _ blen => 0 < blen
  | Put key v | PutOn key v => item_ok key v
  | Del _ | Gc => True
  end.

Inductive kv_sys := On (s : kv_state) | Off (fl : list Z) | Undefined.

Inductive kv_label :=
| Called (c : kv_call) (a : kv_answer)
| Cut (c : kv_call)
| PowerOff
| Started (r : Z)
| StartCut.

(** A collection is cut short only when no item is back where its last version was. *)
Inductive kv_step : kv_sys -> kv_label -> kv_sys -> Prop :=
| kv_called c a s s' : call_ok c -> run c s = Done a s' -> kv_step (On s) (Called c a) (On s')
| kv_cut c s fl : call_ok c -> (c = Gc -> nothing_returned s) -> run c s = Lost fl -> kv_step (On s) (Cut c) (Off fl)
| kv_called_wrong c s : call_ok c -> run c s = Wrong -> kv_step (On s) (Cut c) Undefined
| kv_power_off s : kv_step (On s) PowerOff (Off (flash s))
| kv_started fl pw r s : aos_kv_init (powered_up fl pw) = Done r s -> kv_step (Off fl) (Started r) (On s)
| kv_start_cut fl pw fl' : aos_kv_init (powered_up fl pw) = Lost fl' -> kv_step (Off fl) StartCut (Off fl')
| kv_start_wrong fl pw : aos_kv_init (powered_up fl pw) = Wrong -> kv_step (Off fl) StartCut Undefined.
End durable.

(** ** The map it implements *)

(** what a call answers, and the map it leaves *)
Definition put_spec (key v : list Z) (r : Z) (kv kv' : kvmap) : Prop :=
  r = RES_OK /\ kv' = <[key := v]> kv \/ r = RES_NO_SPACE /\ kv' = kv /\ kv !! key <> Some v.

Definition call_spec (c : kv_call) (a : kv_answer) (kv kv' : kvmap) : Prop :=
  match c with
  | Get key blen => kv' = kv /\ a =
      match kv !! key with
      | None => Bytes RES_ITEM_NOT_FOUND [] (Some blen)
      | Some v => if decide (blen < Z.of_nat (length v)) then Bytes RES_NO_SPACE [] (Some (Z.of_nat (length v)))
                  else Bytes RES_OK v (Some (Z.of_nat (length v)))
      end
  | Put key v => a = Waits /\ kv' = kv \/ exists r, a = Status r /\ put_spec key v r kv kv'
  | PutOn key v => exists r, a = Status r /\ put_spec key v r kv kv'
  | Del key => kv' = delete key kv /\ a = Status (if decide (kv !! key = None) then RES_ITEM_NOT_FOUND else RES_OK)
  | Gc => kv' = kv /\ a = Nothing
  end.

(** the map when a call is done *)
Definition effect (c : kv_call) (kv : kvmap) : kvmap :=
  match c with
  | Put key v | PutOn key v => <[key := v]> kv
  | Del key => delete key kv
  | Get _ _ | Gc => kv
  end.

(** Without power the map is one of those that may come back. *)
Inductive map_sys := Up (kv : kvmap) | Down (P : kvmap -> Prop).

Inductive map_step : map_sys -> kv_label -> map_sys -> Prop :=
| map_called c a kv kv' : call_spec c a kv kv' -> map_step (Up kv) (Called c a) (Up kv')
| map_cut c kv : map_step (Up kv) (Cut c) (Down (fun kv' => kv' = kv \/ kv' = effect c kv))
| map_power_off kv : map_step (Up kv) PowerOff (Down (fun kv' => kv' = kv))
| map_started (P : kvmap -> Prop) kv : P kv -> map_step (Down P) (Started RES_OK) (Up kv)
| map_start_cut (P : kvmap -> Prop) : map_step (Down P) StartCut (Down P).

(** a run, step by step *)
Inductive trace {S : Type} (step : S -> kv_label -> S -> Prop) : S -> list kv_label -> S -> Prop :=
| trace_nil s : trace step s [] s
| trace_cons s l s1 ls s2 : step s l s1 -> trace step s1 ls s2 -> trace step s (l :: ls) s2.

Definition represents (s : kv_sys) (a : map_sys) : Prop :=
  match s, a with
  | On s, Up kv => kv_ok s kv
  | Off fl, Down P => recov fl P
  | _, _ => False
  end.

Section refines.
Context `{FlashMem}.

Lemma set_post_spec key v kv free r s' : set_post key v kv free r s' -> exists kv', kv_ok s' kv' /\ put_spec key v r kv kv'.
Proof.
  intros [(-> & Hs & _)|(-> & Hs & Hne & _)]; [exists (<[key := v]> kv)|exists kv]; (split; [done|]); [by left|by right].
Qed.

(** Every call does what the map does, or is cut short and leaves one of the two maps. *)
Lemma wpc_run c s kv : call_ok c -> kv_ok s kv ->
  wpc (run c) (fun a s' => exists kv', kv_ok s' kv' /\ call_spec c a kv kv')
    (fun fl => (c = Gc -> nothing_returned s) -> recov fl (fun kv' => kv' = kv \/ kv' = effect c kv)) s.
Proof.
  intros Hc Hs. destruct c as [key blen|key v|key v|key|]; cbn [run effect]; apply wpc_fmap.
  - eapply wpc_mono; [by apply (wpc_kv_get key blen kv s (fun _ => False))| |done].
    intros r s' [-> ->]. exists kv. split; [done|]. cbn. split; [done|]. destruct (kv !! key); [by case_decide|done].
  - eapply wpc_mono; [apply (wpc_kv_set key v v kv s Hs Hc); apply Ringbuf.mem_read_all| |by intros].
    intros [r|] s'; cbn.
    + intros [_ Hp]. destruct (set_post_spec _ _ _ _ _ _ Hp) as (kv' & Hs' & Hput). exists kv'. split; [done|]. right. by exists r.
    + intros [_ Hs']. exists kv. split; [done|]. by left.
  - eapply wpc_mono; [apply (wpc_set_locked key v v kv s Hs Hc); apply Ringbuf.mem_read_all| |by intros].
    intros r s' Hp. destruct (set_post_spec _ _ _ _ _ _ Hp) as (kv' & Hs' & Hput). exists kv'. split; [done|]. by exists r.
  - eapply wpc_mono; [by apply wpc_kv_del| |by intros]. intros r s' [Hs' ->]. by exists (delete key kv).
  - eapply wpc_mono; [by apply wpc_kv_gc| |].
    + intros r s' [Hs' _]. by exists kv.
    + intros fl Hr Hno. apply (recov_mono fl (fun kv' => kv' = kv)); [auto|]. by apply Hr, Hno.
Qed.

Lemma step_refines s l s' a : kv_step s l s' -> represents s a -> exists a', map_step a l a' /\ represents s' a'.
Proof.
  intros Hstep Ha. destruct Hstep as [c r s s' Hc Hr|c s fl Hc Hno Hr|c s Hc Hr|s|fl pw r s Hr|fl pw fl' Hr|fl pw Hr];
    destruct a as [kv|P]; try done; cbn in Ha.
  - pose proof (wpc_run c s kv Hc Ha) as Hw. unfold wpc in Hw. rewrite Hr in Hw. destruct Hw as (kv' & Hs' & Hspec).
    exists (Up kv'). by split; [constructor|].
  - pose proof (wpc_run c s kv Hc Ha) as Hw. unfold wpc in Hw. rewrite Hr in Hw.
    eexists. split; [constructor|]. by apply Hw.
  - pose proof (wpc_run c s kv Hc Ha) as Hw. unfold wpc in Hw. by rewrite Hr in Hw.
  - eexists. split; [constructor|]. destruct Ha as (m & fl & pw & t & w & c & st & es & -> & Hs & _ & _ & ->). by eapply store_recov.
  - pose proof (wpc_aos_kv_init fl P pw Ha) as Hw. unfold wpc in Hw. rewrite Hr in Hw. destruct Hw as (-> & kv & HP & Hs).
    exists (Up kv). by split; [constructor|].
  - pose proof (wpc_aos_kv_init fl P pw Ha) as Hw. unfold wpc in Hw. rewrite Hr in Hw. exists (Down P). by split; [constructor|].
  - pose proof (wpc_aos_kv_init fl P pw Ha) as Hw. unfold wpc in Hw. by rewrite Hr in Hw.
Qed.

Lemma trace_refines s ls s' a : trace kv_step s ls s' -> represents s a -> exists a', trace map_step a ls a' /\ represents s' a'.
Proof.
  intros Ht. revert a. induction Ht as [s|s l s1 ls s2 Hstep Ht IH]; intros a Ha.
  - exists a. by split; [constructor|].
  - destruct (step_refines _ _ _ _ Hstep Ha) as (a1 & Hm & Ha1). destruct (IH a1 Ha1) as (a2 & Ht2 & Ha2).
    exists a2. by split; [econstructor|].
Qed.

(** An erased flash holds the empty map. *)
Lemma blank_recov : recov (replicate (2 * BS) 255) (fun kv => kv = ∅).
Proof.
  apply recov_blank; [|done]. split; [lia|by rewrite length_replicate| |].
  - unfold blk. rewrite drop_replicate, take_replicate. f_equal. lia.
  - unfold blk. rewrite drop_replicate, take_replicate. f_equal. lia.
Qed.
End refines.
End KvDurable.
