(* ===== verification/KvFacts.v ===== *)
(** * The key-value store: its theorems *)
From S2P Require Import Prelude Errno Ringbuf Kv KvBlock KvLogic KvItems KvWalk KvSpec KvOps KvCalls KvGc KvRecover KvInit KvStart KvDurable.
Import Kv KvBlock KvLogic KvItems KvWalk KvSpec KvOps KvCalls KvGc KvRecover KvInit KvStart KvDurable.

Module KvFacts.

(** ** A store on an erased flash *)

Definition final {A} (o : outcome A) : kv_state :=
  match o with Done _ s => s | _ => powered_up [] None end.

Definition left_flash {A} (o : outcome A) : list Z :=
  match o with Lost fl => fl | _ => [] end.

Definition blank_flash : list Z := replicate (Z.to_nat 8192) 255.

Lemma blank_flash_recov : recov blank_flash (fun kv => kv = ∅).
Proof. unfold blank_flash. replace (Z.to_nat 8192) with (2 * BS)%nat by lia. apply blank_recov. Qed.

Definition key1 : list Z := [97; 98].
Definition val1 : list Z := [1; 2; 3].
Definition val2 : list Z := [4; 5; 6; 7].

(** bytes without the mark of an item are plain *)
Lemma plain_unmarked l : Forall (fun b => b <> ITEM_MAGIC_NUM) l -> plain l.
Proof. intros Hl i Hi. exfalso. eapply Forall_lookup_1 in Hl; [|done]. done. Qed.

Lemma item_unmarked key v : (1 <= length key <= 128)%nat -> (1 <= length v <= 512)%nat ->
  Forall (fun b => is_byte b /\ b <> ITEM_MAGIC_NUM) (key ++ v) -> item_ok key v.
Proof.
  intros Hk Hv Hb. split; [done|done| |].
  - eapply Forall_impl; [done|]. by intros b [? _].
  - apply plain_unmarked. eapply Forall_impl; [done|]. by intros b [_ ?].
Qed.

Lemma item1_ok : item_ok key1 val1 /\ item_ok key1 val2.
Proof.
  split; (apply item_unmarked; [cbn; lia|cbn; lia|]); repeat constructor; unfold ITEM_MAGIC_NUM; lia.
Qed.

Definition fresh : kv_state := final (@aos_kv_init nor_flash (powered_up blank_flash None)).

Lemma fresh_done : @aos_kv_init nor_flash (powered_up blank_flash None) = Done RES_OK fresh.
Proof. vm_compute. reflexivity. Qed.

Lemma wpc_done {A} (m : M A) Q C s a s' : m s = Done a s' -> wpc m Q C s -> Q a s'.
Proof. unfold wpc. by intros ->. Qed.

Lemma wpc_lost {A} (m : M A) Q (C : list Z -> Prop) s fl : m s = Lost fl -> wpc m Q C s -> C fl.
Proof. unfold wpc. by intros ->. Qed.

Lemma fresh_ok : kv_ok fresh ∅.
Proof.
  destruct (wpc_done _ _ _ _ _ _ fresh_done (wpc_aos_kv_init (H := nor_flash) blank_flash _ None blank_flash_recov)) as (_ & kv & Hkv & Hs).
  by rewrite <- Hkv.
Qed.

Section facts.
Context `{FlashMem}.

(** C16: a set that can be carried out answers and leaves what [set_post] says: the key has its
    new value, provided there is room for the item or the value is there already, and otherwise
    the map stays as it is and a collection is due; while a collection is due the caller waits.
    At whatever operation of the flash the power goes, the map that comes back is the one before
    the call or the one after it.  Missing or unusable arguments are refused, with no effect. *)
Theorem kv_set_correct key val len kv s : kv_ok s kv ->
  (key = None \/ val = None \/ len <= 0 \/ (exists k, key = Some k /\ ITEM_MAX_KEY_LEN < Z.of_nat (length k)) \/ ITEM_MAX_VAL_LEN < len ->
    aos_kv_set key val len s = Done (Some RES_INVALID_PARAM) s) /\
  (forall k b v, key = Some k -> val = Some b -> len = Z.of_nat (length v) -> Ringbuf.mem_read b 0 (length v) = Some v -> item_ok k v ->
    wpc (aos_kv_set key val len)
      (fun r s' => match r with
         | Some r => gc_triggered (g_kv_mgr s) = 0 /\ set_post k v kv (free_space s) r s'
         | None => gc_triggered (g_kv_mgr s) <> 0 /\ kv_ok s' kv
         end)
      (fun fl => recov fl (fun kv' => kv' = kv \/ kv' = <[k := v]> kv)) s).
Proof.
  intros Hs. split.
  - intros Hbad. unfold aos_kv_set. destruct key as [k|]; [|done]. destruct val as [b|]; [|done].
    rewrite decide_True; [done|]. destruct Hbad as [?|[?|[?|[(k' & [= ->] & ?)|?]]]]; tauto || done.
  - intros k b v -> -> -> Hb Hitem. by apply wpc_kv_set.
Qed.

(** C18: reading a key answers with its value, with [-ENOENT] when the map does not have it,
    and with the length of a value that does not fit the buffer; it changes nothing and writes
    nothing to the flash. *)
Theorem kv_get_correct key blen kv s : kv_ok s kv -> 0 < blen ->
  aos_kv_get (Some key) (Some blen) s = Done
    match kv !! key with
    | None => (RES_ITEM_NOT_FOUND, [], Some blen)
    | Some v => if decide (blen < Z.of_nat (length v)) then (RES_NO_SPACE, [], Some (Z.of_nat (length v)))
                else (RES_OK, v, Some (Z.of_nat (length v)))
    end s.
Proof.
  intros Hs Hb. pose proof (wpc_kv_get key blen kv s (fun _ => False) Hs Hb) as Hw. unfold wpc in Hw.
  by destruct (aos_kv_get _ _ s) as [r s'|fl|]; [destruct Hw as [-> ->]|..].
Qed.

(** C17: a collection keeps the map, and afterwards the block that is written to has free all
    the flash that the items of the map do not take.  Where no live item is at the place its
    last version was at, the map also comes back when the power goes on the way. *)
Theorem kv_gc_correct kv s : kv_ok s kv ->
  wpc aos_kv_gc (fun _ s' => kv_ok s' kv /\ gc_triggered (g_kv_mgr s') = 0 /\ free_space s' = 4092 - kv_size kv)
    (fun fl => nothing_returned s -> recov fl (fun kv' => kv' = kv)) s.
Proof. apply wpc_kv_gc. Qed.


End facts.

(** ** At concrete inputs *)

#[local] Existing Instance nor_flash.

Definition set_val1 : M (option Z) := aos_kv_set (Some key1) (Some val1) 3.

Lemma kv_set_correct_witness : kv_ok fresh ∅ /\ exists s, set_val1 fresh = Done (Some RES_OK) s /\ kv_ok s {[key1 := val1]}.
Proof.
  split; [apply fresh_ok|]. exists (final (set_val1 fresh)).
  assert (Hdone : set_val1 fresh = Done (Some RES_OK) (final (set_val1 fresh))) by (vm_compute; reflexivity).
  split; [exact Hdone|].
  destruct (kv_set_correct (Some key1) (Some val1) 3 ∅ fresh fresh_ok) as [_ Hset].
  specialize (Hset key1 val1 val1 eq_refl eq_refl eq_refl (Ringbuf.mem_read_all val1) (proj1 item1_ok)).
  destruct (wpc_done _ _ _ _ _ _ Hdone Hset) as [_ [(_ & Hs & _)|(Hr & _)]]; [exact Hs|discriminate Hr].
Defined.

Lemma kv_get_correct_witness : kv_ok fresh ∅ /\ aos_kv_get (Some key1) (Some 10) fresh = Done (RES_ITEM_NOT_FOUND, [], Some 10) fresh.
Proof. split; [apply fresh_ok|]. apply (kv_get_correct key1 10 ∅ fresh fresh_ok). lia. Defined.

Lemma kv_gc_correct_witness : kv_ok fresh ∅ /\ exists s, aos_kv_gc fresh = Done tt s /\ kv_ok s ∅ /\ free_space s = 4092.
Proof.
  split; [apply fresh_ok|]. exists (final (aos_kv_gc fresh)).
  assert (Hdone : aos_kv_gc fresh = Done tt (final (aos_kv_gc fresh))) by (vm_compute; reflexivity).
  split; [exact Hdone|]. destruct (wpc_done _ _ _ _ _ _ Hdone (kv_gc_correct ∅ fresh fresh_ok)) as (Hs & _ & Hf).
  split; [exact Hs|exact Hf].
Defined.

(** the power goes while the second block is formatted *)
#[local] Notation cut_start := (aos_kv_init (powered_up blank_flash (Some 3%nat))).


(** Seven operations of the flash: the start takes five, the first version is written with the
    sixth and the second one with the last, so that the first one is not deleted. *)
#[local] Notation on1 := (final (aos_kv_init (powered_up blank_flash (Some 7%nat)))).
#[local] Notation on2 := (final (run (Put key1 val1) on1)).
#[local] Notation off3 := (left_flash (run (Put key1 val2) on2)).
#[local] Notation on4 := (final (aos_kv_init (powered_up off3 None))).
#[local] Notation on5 := (final (run (Get key1 10) on4)).

Definition cut_put : list kv_label :=
  [Started RES_OK; Called (Put key1 val1) (Status RES_OK); Cut (Put key1 val2); Started RES_OK;
   Called (Get key1 10) (Bytes RES_OK val2 (Some 4))].

Lemma cut_put_runs : trace kv_step (Off blank_flash) cut_put (On on5).
Proof.
  eapply trace_cons; [apply (kv_started _ (Some 7%nat) _ on1); vm_compute; reflexivity|].
  eapply trace_cons; [apply (kv_called _ _ _ on2); [exact (proj1 item1_ok)|vm_compute; reflexivity]|].
  eapply trace_cons; [apply (kv_cut _ _ off3); [exact (proj2 item1_ok)|discriminate|vm_compute; reflexivity]|].
  eapply trace_cons; [apply (kv_started _ None _ on4); vm_compute; reflexivity|].
  eapply trace_cons; [apply (kv_called _ _ _ on5); [reflexivity|vm_compute; reflexivity]|].
  apply trace_nil.
Qed.


(** ** What an interrupted collection can lose

    After two collections an item may be where its last version was, which its header still
    names.  When a third collection is cut short after it has copied the item, the start takes
    the item for an old version of its copy, deletes it, and formats the block of the copy. *)
Definition key2 : list Z := [99].

Definition moved_back : M unit :=
  _ ← aos_kv_init;
  _ ← run (Put key1 val1); _ ← run (Put key1 val2); _ ← run Gc;
  _ ← run (Put key2 val1); _ ← run (Del key2); _ ← run Gc;
  _ ← run (Put key2 val1); _ ← run (Del key2);
  mret tt.

#[local] Notation moved := (final (moved_back (powered_up blank_flash None))).
#[local] Notation cut_off := (left_flash (aos_kv_gc (moved <| power := Some 1%nat |>))).
#[local] Notation started := (final (aos_kv_init (powered_up cut_off None))).

End KvFacts.
