(* ===== verification/Vfs.v ===== *)
(** * The device file system ([kernel/vfs/vfs_inode.c], [vfs_register.c], [vfs.c])

    Devices and file systems are registered under a path in a table of nodes; a call with a
    path looks the node up, a call with a descriptor goes through the table of open files, and
    both hand over to the functions of the driver.

    - Drivers are code of others: the functions they give are a parameter, over a state [W] of
      their own.  A driver sees an open file, and may change the two members of it that are its
      own and the argument of the node; it does not call back into the file system.
    - A C string is the list of its bytes without the final zero.
    - The calls come one after another; [g_vfs_mutex] is free between them.  The sections under
      the mutex are definitions of their own where a theorem takes them in another order.
    - The configuration is that of a target without a host below ([IO_NEED_TRAP] is not
      defined), where the descriptors of the host are unknown.  Polling is not modelled. *)
From S2P Require Import Prelude Errno.
Import Errno.

Module Vfs.

Definition VFS_SUCCESS : Z := 0.
Definition AOS_CONFIG_VFS_DEV_NODES : Z := 25.
Definition AOS_CONFIG_VFS_FD_OFFSET : Z := 64.
Definition MAX_FILE_NUM : Z := AOS_CONFIG_VFS_DEV_NODES * 2.
Definition PATH_MAX : Z := 256.

Definition VFS_TYPE_NOT_INIT : Z := 0.
Definition VFS_TYPE_CHAR_DEV : Z := 1.
Definition VFS_TYPE_BLOCK_DEV : Z := 2.
Definition VFS_TYPE_FS_DEV : Z := 3.

(** the slash *)
Definition SEP : Z := 47.

Record inode_t := mk_inode {
  i_ops : option positive;           (* ops: the table of functions; either member of the union *)
  i_arg : Z;
  i_name : option (list Z);
  i_flags : Z;
  i_type : Z;                        (* type *)
  refs : Z;                          (* uint8_t *)
  i_mutex : bool;                    (* created *)
}.
#[export] Instance inode_settable : Settable inode_t := fun n =>
  mk_inode (i_ops n) (i_arg n) (i_name n) (i_flags n) (i_type n) (refs n) (i_mutex n).

Record file_t := mk_file {
  f_node : option nat;               (* node: its place in the table *)
  f_arg : Z;
  f_offset : Z;
}.
#[export] Instance file_settable : Settable file_t := fun f => mk_file (f_node f) (f_arg f) (f_offset f).

(** memory that is all zero *)
Definition zero_inode : inode_t := mk_inode None 0 None 0 VFS_TYPE_NOT_INIT 0 false.
Definition zero_file : file_t := mk_file None 0 0.

(** what a driver sees of an open file *)
Record file_view := mk_view { v_fd : Z; v_arg : Z; v_offset : Z; v_iarg : Z }.

(** ** The functions of drivers *)

Section drivers.
Context (W : Type).

Definition dfun (A R : Type) : Type := A -> file_view -> W -> R * file_view * W.

(** [NULL] is [None]; a read gives the number it returns and the bytes it wrote. *)
Record file_ops := mk_file_ops {
  fo_open : option (dfun unit Z);
  fo_close : option (dfun unit Z);
  fo_read : option (dfun Z (Z * list Z));
  fo_write : option (dfun (list Z) Z);
  fo_ioctl : option (dfun (Z * Z) Z);
}.

Record fs_ops := mk_fs_ops {
  fs_open : option (dfun (list Z * Z) Z);
  fs_close : option (dfun unit Z);
  fs_read : option (dfun Z (Z * list Z));
  fs_write : option (dfun (list Z) Z);
  fs_lseek : option (dfun (Z * Z) Z);
  fs_sync : option (dfun unit Z);
  fs_stat : option (dfun (list Z) (Z * list Z));
  fs_unlink : option (dfun (list Z) Z);
  fs_rename : option (dfun (list Z * list Z) Z);
  fs_opendir : option (dfun (list Z) (option positive));
  fs_readdir : option (dfun positive (option Z));
  fs_closedir : option (dfun positive Z);
  fs_mkdir : option (dfun (list Z) Z);
  fs_ioctl : option (dfun (Z * Z) Z);
}.

Inductive driver := Dev (o : file_ops) | Fs (o : fs_ops).
End drivers.

Arguments fo_open {_}. Arguments fo_close {_}. Arguments fo_read {_}. Arguments fo_write {_}. Arguments fo_ioctl {_}.
Arguments fs_open {_}. Arguments fs_close {_}. Arguments fs_read {_}. Arguments fs_write {_}. Arguments fs_lseek {_}.
Arguments fs_sync {_}. Arguments fs_stat {_}. Arguments fs_unlink {_}. Arguments fs_rename {_}. Arguments fs_opendir {_}.
Arguments fs_readdir {_}. Arguments fs_closedir {_}. Arguments fs_mkdir {_}. Arguments fs_ioctl {_}.
Arguments Dev {_}. Arguments Fs {_}.

Record vfs_state {W : Type} := mk_vfs {
  g_vfs_init : Z;
  g_vfs_mutex : option bool;         (* created, and held *)
  g_vfs_dev_nodes : list inode_t;
  files : list file_t;
  mem_fails : list bool;             (* which of the next allocations fail *)
  allocated : Z;                     (* blocks of memory the file system holds *)
  world : W;                         (* the drivers *)
}.
Arguments vfs_state : clear implicits.
#[export] Instance vfs_settable W : Settable (vfs_state W) := fun s =>
  mk_vfs W (g_vfs_init s) (g_vfs_mutex s) (g_vfs_dev_nodes s) (files s) (mem_fails s) (allocated s) (world s).

(** the variables before [vfs_init] *)
Definition start_state {W} (w : W) : vfs_state W :=
  mk_vfs W 0 None (replicate (Z.to_nat AOS_CONFIG_VFS_DEV_NODES) zero_inode)
    (replicate (Z.to_nat MAX_FILE_NUM) zero_file) [] 0 w.

(** ** A call changes the state, or does what C does not define *)

Definition V (W A : Type) : Type := vfs_state W -> option (A * vfs_state W).

#[export] Instance V_ret W : MRet (V W) := fun A a s => Some (a, s).
#[export] Instance V_bind W : MBind (V W) := fun A B f m s =>
  match m s with Some (a, s') => f a s' | None => None end.

#[export] Instance V_fmap W : FMap (V W) := fun A B f m s =>
  match m s with Some (a, s') => Some (f a, s') | None => None end.

Section vfs.
Context {W : Type} (drivers : positive -> option (driver W)).

Definition gets {A} (f : vfs_state W -> A) : V W A := fun s => Some (f s, s).
Definition modify (f : vfs_state W -> vfs_state W) : V W unit := fun s => Some (tt, f s).
Definition fault {A} : V W A := fun _ => None.
Definition of_option {A} (o : option A) : V W A := fun s => match o with Some a => Some (a, s) | None => None end.

Definition node_get (n : nat) : V W inode_t := fun s =>
  match g_vfs_dev_nodes s !! n with Some d => Some (d, s) | None => None end.
Definition node_upd (n : nat) (f : inode_t -> inode_t) : V W unit :=
  d ← node_get n; modify (fun s => s <| g_vfs_dev_nodes ::= <[n := f d]> |>).
Definition file_get (n : nat) : V W file_t := fun s =>
  match files s !! n with Some f => Some (f, s) | None => None end.
Definition file_upd (n : nat) (g : file_t -> file_t) : V W unit :=
  f ← file_get n; modify (fun s => s <| files ::= <[n := g f]> |>).

(** ** What the file system calls *)

(** one more block of memory *)
Definition new_block : V W bool := fun s =>
  let fails := match mem_fails s with b :: _ => b | [] => false end in
  let s := s <| mem_fails ::= tail |> in
  if fails then Some (false, s) else Some (true, s <| allocated ::= Z.succ |>).

Definition aos_malloc (size : Z) : V W bool := if decide (size = 0) then mret false else new_block.

Definition aos_free : V W unit := modify (fun s => s <| allocated ::= Z.pred |>).

Definition aos_mutex_lock : V W Z :=
  m ← gets g_vfs_mutex;
  match m with
  | None => mret (- EFAULT)
  | Some true => fault                 (* would wait: the calls come one after another *)
  | Some false => modify (fun s => s <| g_vfs_mutex := Some true |>);; mret 0
  end.

Definition aos_mutex_unlock : V W Z :=
  m ← gets g_vfs_mutex;
  match m with
  | None => mret (- EFAULT)
  | Some _ => modify (fun s => s <| g_vfs_mutex := Some false |>);; mret 0
  end.

(** It takes the memory of a mutex of the kernel, which is then set up without fail. *)
Definition aos_mutex_new : V W Z := ok ← new_block; mret (if (ok : bool) then 0 else - ENOMEM).

(** ** Nodes ([vfs_inode.c]) *)

Definition inode_init : V W Z :=
  modify (fun s => s <| g_vfs_dev_nodes := replicate (Z.to_nat AOS_CONFIG_VFS_DEV_NODES) zero_inode |>);; mret 0.

(** the first free node from the [e]-th on *)
Fixpoint alloc_loop (l : list inode_t) (e : Z) : Z :=
  match l with
  | [] => - ENOMEM
  | d :: l => if decide (i_type d = VFS_TYPE_NOT_INIT) then e else alloc_loop l (e + 1)
  end.

Definition inode_alloc : V W Z := l ← gets g_vfs_dev_nodes; mret (alloc_loop l 0).

Definition inode_del (node : nat) : V W Z :=
  d ← node_get node;
  if decide (0 < refs d) then mret (- EBUSY) else
  (if decide (refs d = 0) then
     match i_name d with Some _ => aos_free | None => mret tt end;;
     node_upd node (fun d => d <| i_name := None |> <| i_arg := 0 |> <| i_flags := 0 |> <| i_type := VFS_TYPE_NOT_INIT |>)
   else mret tt);;
  mret VFS_SUCCESS.

Definition INODE_IS_FS (d : inode_t) : bool := bool_decide (i_type d = VFS_TYPE_FS_DEV).

(** the two comparisons of the loop *)
Definition path_matches (d : inode_t) (path : list Z) : bool :=
  match i_name d with
  | None => false
  | Some name =>
      INODE_IS_FS d && bool_decide (take (length name) path = name) && bool_decide (path !! length name = Some SEP) ||
      bool_decide (name = path)
  end.

Fixpoint open_loop (l : list inode_t) (e : nat) (path : list Z) : option nat :=
  match l with
  | [] => None
  | d :: l => if path_matches d path then Some e else open_loop l (S e) path
  end.

Definition inode_open (path : list Z) : V W (option nat) := l ← gets g_vfs_dev_nodes; mret (open_loop l 0 path).

Definition inode_ptr_get (fd : Z) : Z * option nat :=
  if decide (fd < 0 \/ AOS_CONFIG_VFS_DEV_NODES <= fd) then (- EINVAL, None) else (VFS_SUCCESS, Some (Z.to_nat fd)).

Definition inode_ref (node : nat) : V W unit := node_upd node (fun d => d <| refs ::= fun n => wrap 8 (n + 1) |>).

Definition inode_unref (node : nat) : V W unit :=
  d ← node_get node;
  if decide (0 < refs d) then node_upd node (fun d => d <| refs ::= fun n => n - 1 |>) else mret tt.

Definition inode_busy (node : nat) : V W bool := d ← node_get node; mret (bool_decide (0 < refs d)).

(** The loop looks at the node [count], not at the node [e]. *)
Fixpoint avail_loop (turns : nat) (l : list inode_t) (count : nat) : option nat :=
  match turns with
  | O => Some count
  | S turns =>
      d ← l !! count;
      avail_loop turns l (if decide (i_type d = VFS_TYPE_NOT_INIT) then S count else count)
  end.

Definition inode_avail_count : V W Z :=
  l ← gets g_vfs_dev_nodes;
  c ← of_option (avail_loop (Z.to_nat AOS_CONFIG_VFS_DEV_NODES) l 0);
  mret (Z.of_nat c).

Definition inode_set_name (path : list Z) (node : nat) : V W Z :=
  ok ← aos_malloc (Z.of_nat (length path) + 1);
  if negb ok then mret (- ENOMEM) else
  node_upd node (fun d => d <| i_name := Some path |>);; mret VFS_SUCCESS.

(** the status and [\*inode] *)
Definition inode_reserve (path : option (list Z)) : V W (Z * option nat) :=
  match path with
  | None => mret (- EINVAL, None)
  | Some path =>
      if decide (path !! 0%nat <> Some SEP) then mret (- EINVAL, None) else
      ret ← inode_alloc;
      if decide (ret < 0) then mret (ret, None) else
      node ← of_option (inode_ptr_get ret).2;
      ret ← inode_set_name path node;
      if decide (ret < 0) then mret (ret, None) else
      mret (VFS_SUCCESS, Some node)
  end.

Definition inode_release (path : option (list Z)) : V W Z :=
  match path with
  | None => mret (- EINVAL)
  | Some path =>
      node ← inode_open path;
      match node with
      | None => mret (- ENODEV)
      | Some node =>
          ret ← inode_del node;
          if decide (ret < 0) then mret ret else mret VFS_SUCCESS
      end
  end.

(** ** Registration ([vfs_register.c]) *)

(** what an unlock that fails undoes; without a node the code follows [NULL] *)
Definition unregister_node (node : option nat) : V W unit :=
  n ← of_option node;
  d ← node_get n;
  match i_name d with Some _ => aos_free | None => mret tt end;;
  node_upd n (fun _ => zero_inode).

Definition aos_register_driver (path : option (list Z)) (ops : option positive) (arg : Z) : V W Z :=
  err ← aos_mutex_lock;
  if decide (err <> 0) then mret err else
  '(ret, node) ← inode_reserve path;
  ret ← (if decide (ret = VFS_SUCCESS) then
           n ← of_option node;
           node_upd n (fun d => d <| i_type := VFS_TYPE_CHAR_DEV |> <| i_ops := ops |> <| i_arg := arg |>);;
           ret ← aos_mutex_new;
           (if decide (ret = 0) then node_upd n (fun d => d <| i_mutex := true |>) else mret tt);;
           mret ret
         else mret ret);
  err ← aos_mutex_unlock;
  if decide (err <> 0) then unregister_node node;; mret err else mret ret.

Definition aos_unregister_driver (path : option (list Z)) : V W Z :=
  err ← aos_mutex_lock;
  if decide (err <> 0) then mret err else
  ret ← inode_release path;
  err ← aos_mutex_unlock;
  if decide (err <> 0) then mret err else mret ret.

Definition aos_register_fs (path : option (list Z)) (ops : option positive) (arg : Z) : V W Z :=
  err ← aos_mutex_lock;
  if decide (err <> 0) then mret err else
  '(ret, node) ← inode_reserve path;
  (if decide (ret = VFS_SUCCESS) then
     n ← of_option node;
     node_upd n (fun d => d <| i_type := VFS_TYPE_FS_DEV |> <| i_ops := ops |> <| i_arg := arg |>)
   else mret tt);;
  err ← aos_mutex_unlock;
  if decide (err <> 0) then unregister_node node;; mret err else mret ret.

Definition aos_unregister_fs (path : option (list Z)) : V W Z := aos_unregister_driver path.

(** ** Open files ([vfs.c]) *)

(** no descriptors of a host *)
Definition trap_open (path : list Z) (flags : Z) : Z := - ENOSYS.
Definition trap_read (fd len : Z) : Z := - ENOSYS.
Definition trap_write (fd : Z) (buf : list Z) : Z := - ENOSYS.
Definition trap_close (fd : Z) : Z := - ENOSYS.
Definition trap_fcntl (fd cmd val : Z) : Z := - ENOSYS.

Definition vfs_init : V W Z :=
  i ← gets g_vfs_init;
  if decide (i = 1) then mret VFS_SUCCESS else
  ret ← aos_mutex_new;
  if decide (ret <> VFS_SUCCESS) then mret ret else
  modify (fun s => s <| g_vfs_mutex := Some false |>);;
  _ ← inode_init;
  modify (fun s => s <| g_vfs_init := 1 |>);;
  mret ret.

Definition get_fd (file : nat) : Z := Z.of_nat file + AOS_CONFIG_VFS_FD_OFFSET.

Definition get_file (fd : Z) : V W (option nat) :=
  let fd := fd - AOS_CONFIG_VFS_FD_OFFSET in
  if decide (fd < 0) then mret None else
  if decide (MAX_FILE_NUM <= fd) then mret None else
  f ← file_get (Z.to_nat fd);
  mret (match f_node f with Some _ => Some (Z.to_nat fd) | None => None end).

(** the first file without a node *)
Fixpoint file_loop (l : list file_t) (idx : nat) : option nat :=
  match l with
  | [] => None
  | f :: l => match f_node f with None => Some idx | Some _ => file_loop l (S idx) end
  end.

Definition new_file (node : nat) : V W (option nat) :=
  l ← gets files;
  match file_loop l 0 with
  | None => mret None
  | Some f => file_upd f (fun _ => mk_file (Some node) 0 0);; inode_ref node;; mret (Some f)
  end.

(** A file without a node follows [NULL]. *)
Definition del_file (file : nat) : V W unit :=
  f ← file_get file;
  n ← of_option (f_node f);
  inode_unref n;;
  file_upd file (fun f => f <| f_node := None |>).

(** ** Calling a driver *)

Definition dev_ops (d : inode_t) : V W (file_ops W) :=
  match i_ops d ≫= drivers with Some (Dev o) => mret o | _ => fault end.

Definition fs_ops_of (d : inode_t) : V W (fs_ops W) :=
  match i_ops d ≫= drivers with Some (Fs o) => mret o | _ => fault end.

Definition drv_call {A R} (fn : dfun W A R) (a : A) (file node : nat) : V W R :=
  f ← file_get file;
  d ← node_get node;
  w ← gets world;
  let '(r, v, w) := fn a (mk_view (get_fd file) (f_arg f) (f_offset f) (i_arg d)) w in
  file_upd file (fun f => f <| f_arg := v_arg v |> <| f_offset := v_offset v |>);;
  node_upd node (fun d => d <| i_arg := v_iarg v |>);;
  modify (fun s => s <| world := w |>);;
  mret r.

(** A function the driver does not have leaves the result as it was. *)
Definition opt_call {A R} (fn : option (dfun W A R)) (a : A) (file node : nat) (dflt : R) : V W R :=
  match fn with Some fn => drv_call fn a file node | None => mret dflt end.

(** the function of a device or of a file system *)
Definition either_call {A B R} (dev : file_ops W -> option (dfun W A R)) (a : A) (fs : fs_ops W -> option (dfun W B R)) (b : B)
    (file node : nat) (dflt : R) : V W R :=
  d ← node_get node;
  if INODE_IS_FS d then o ← fs_ops_of d; opt_call (fs o) b file node dflt
  else o ← dev_ops d; opt_call (dev o) a file node dflt.

(** the function of a file system; a device has none *)
Definition fs_call {A R} (fs : fs_ops W -> option (dfun W A R)) (a : A) (file node : nat) (dflt : R) : V W R :=
  d ← node_get node;
  if INODE_IS_FS d then o ← fs_ops_of d; opt_call (fs o) a file node dflt else mret dflt.

(** the node of an open file *)
Definition file_node (file : nat) : V W nat := f ← file_get file; of_option (f_node f).

(** the sections under the mutex *)
Definition locked {A} (fail : Z -> A) (m : V W A) : V W A :=
  ret ← aos_mutex_lock;
  if decide (ret <> 0) then mret (fail ret) else
  a ← m;
  _ ← aos_mutex_unlock;
  mret a.

(** [None] without a node, else the node and the new file *)
Definition open_node (path : list Z) (flags : option Z) : V W (option (nat * option nat)) :=
  node ← inode_open path;
  match node with
  | None => mret None
  | Some node =>
      match flags with Some fl => node_upd node (fun d => d <| i_flags := fl |>) | None => mret tt end;;
      file ← new_file node;
      mret (Some (node, file))
  end.

Definition aos_open (path : option (list Z)) (flags : Z) : V W Z :=
  match path with
  | None => mret (- EINVAL)
  | Some path =>
      if decide (PATH_MAX < Z.of_nat (length path)) then mret (- ENAMETOOLONG) else
      r ← locked inl (inr <$> open_node path (Some flags));
      match r with
      | inl ret => mret ret
      | inr None => mret (trap_open path flags)
      | inr (Some (_, None)) => mret (- ENFILE)
      | inr (Some (node, Some file)) =>
          ret ← either_call fo_open tt fs_open (path, flags) file node VFS_SUCCESS;
          if decide (ret <> VFS_SUCCESS) then del_file file;; mret ret else mret (get_fd file)
      end
  end.

(** The end of a close.  What the driver answered is overwritten by the answer of the mutex, and
    the file is not looked at again. *)
Definition close_file (file : nat) : V W Z := locked id (del_file file;; mret 0).

Definition aos_close (fd : Z) : V W Z :=
  f ← get_file fd;
  match f with
  | None => mret (trap_close fd)
  | Some f =>
      node ← file_node f;
      _ ← either_call fo_close tt fs_close tt f node VFS_SUCCESS;
      close_file f
  end.

(** the number that is returned, and the bytes in the buffer *)
Definition aos_read (fd nbytes : Z) : V W (Z * list Z) :=
  f ← get_file fd;
  match f with
  | None => mret (trap_read fd nbytes, [])
  | Some f => node ← file_node f; either_call fo_read nbytes fs_read nbytes f node (-1, [])
  end.

Definition aos_write (fd : Z) (buf : list Z) : V W Z :=
  f ← get_file fd;
  match f with
  | None => mret (trap_write fd buf)
  | Some f => node ← file_node f; either_call fo_write buf fs_write buf f node (-1)
  end.

Definition aos_ioctl (fd cmd arg : Z) : V W Z :=
  if decide (fd < 0) then mret (- EINVAL) else
  f ← get_file fd;
  match f with
  | None => mret (- ENOENT)
  | Some f => node ← file_node f; either_call fo_ioctl (cmd, arg) fs_ioctl (cmd, arg) f node (- ENOSYS)
  end.

(** The offset the driver returns goes through an [int]. *)
Definition aos_lseek (fd offset whence : Z) : V W Z :=
  f ← get_file fd;
  match f with
  | None => mret (- ENOENT)
  | Some f => node ← file_node f; r ← fs_call fs_lseek (offset, whence) f node (- ENOSYS); mret (swrap 32 r)
  end.

Definition aos_sync (fd : Z) : V W Z :=
  f ← get_file fd;
  match f with
  | None => mret (- ENOENT)
  | Some f => node ← file_node f; fs_call fs_sync tt f node (- ENOSYS)
  end.

(** The calls with a path of a file system take a file for as long as the driver runs. *)
Definition path_call {A R} (path : list Z) (fs : fs_ops W -> option (dfun W A R)) (a : A) (dflt : R) (fail : Z -> R) : V W R :=
  r ← locked inl (inr <$> open_node path None);
  match r with
  | inl err => mret (fail err)
  | inr None => mret (fail (- ENODEV))
  | inr (Some (_, None)) => mret (fail (- ENOENT))
  | inr (Some (node, Some file)) =>
      ret ← fs_call fs a file node dflt;
      locked fail (del_file file;; mret ret)
  end.

(** the status, and what is in [\*st] *)
Definition aos_stat (path : option (list Z)) : V W (Z * list Z) :=
  match path with
  | None => mret (- EINVAL, [])
  | Some path => path_call path fs_stat path (- ENOSYS, []) (fun err => (err, []))
  end.

Definition aos_unlink (path : option (list Z)) : V W Z :=
  match path with None => mret (- EINVAL) | Some path => path_call path fs_unlink path (- ENOSYS) id end.

Definition aos_rename (oldpath newpath : option (list Z)) : V W Z :=
  match oldpath, newpath with
  | Some oldpath, Some newpath => path_call oldpath fs_rename (oldpath, newpath) (- ENOSYS) id
  | _, _ => mret (- EINVAL)
  end.

Definition aos_mkdir (path : option (list Z)) : V W Z :=
  match path with None => mret (- EINVAL) | Some path => path_call path fs_mkdir path (- ENOSYS) id end.

(** a directory of the driver, and the descriptor that is written into it *)
Definition aos_dir_t : Type := positive * Z.

Definition aos_opendir (path : option (list Z)) : V W (option aos_dir_t) :=
  match path with
  | None => mret None
  | Some path =>
      r ← locked (fun _ => None) (open_node path None);
      match r with
      | None | Some (_, None) => mret None
      | Some (node, Some file) =>
          dp ← fs_call fs_opendir path file node None;
          match dp with
          | None => locked (fun _ => None) (del_file file;; mret None)
          | Some dp => mret (Some (dp, get_fd file))
          end
      end
  end.

Definition aos_closedir (dir : option aos_dir_t) : V W Z :=
  match dir with
  | None => mret (- EINVAL)
  | Some (dp, fd) =>
      f ← get_file fd;
      match f with
      | None => mret (- ENOENT)
      | Some f =>
          node ← file_node f;
          ret ← fs_call fs_closedir dp f node (- ENOSYS);
          locked id (del_file f;; mret ret)
      end
  end.

Definition aos_readdir (dir : option aos_dir_t) : V W (option Z) :=
  match dir with
  | None => mret None
  | Some (dp, fd) =>
      f ← get_file fd;
      match f with
      | None => mret None
      | Some f => node ← file_node f; fs_call fs_readdir dp f node None
      end
  end.

Definition aos_fcntl (fd cmd val : Z) : V W Z :=
  if decide (fd < 0) then mret (- EINVAL) else
  if decide (fd < AOS_CONFIG_VFS_FD_OFFSET) then mret (trap_fcntl fd cmd val) else mret 0.

(** It takes every node for a device. *)
Fixpoint ioctl_loop (n : nat) (fd cmd arg : Z) : V W Z :=
  match n with
  | O => mret VFS_SUCCESS
  | S n =>
      err ← aos_mutex_lock;
      if decide (err <> 0) then mret err else
      f ← get_file fd;
      match f with
      | None => _ ← aos_mutex_unlock; mret (- ENOENT)
      | Some f =>
          err ← aos_mutex_unlock;
          if decide (err <> 0) then mret err else
          node ← file_node f;
          d ← node_get node;
          o ← dev_ops d;
          match fo_ioctl o with
          | None => ioctl_loop n (fd + 1) cmd arg
          | Some fn =>
              err ← drv_call fn (cmd, arg) f node;
              if decide (err <> VFS_SUCCESS) then mret err else ioctl_loop n (fd + 1) cmd arg
          end
      end
  end.

Definition aos_ioctl_in_loop (cmd arg : Z) : V W Z :=
  ioctl_loop (Z.to_nat AOS_CONFIG_VFS_DEV_NODES) AOS_CONFIG_VFS_FD_OFFSET cmd arg.
End vfs.
End Vfs.
