(* ===== verification/VfsSpec.v ===== *)
(** * What the device file system promises

    A table of registered paths and a table of descriptors, and what each call does to them
    whatever the drivers answer; and the invariant of the two tables of the code. *)
From S2P Require Import Prelude Errno Vfs.
Import Errno Vfs.

Module VfsSpec.

(** ** The two tables *)

Record dev := mk_dev { d_path : list Z; d_fs : bool; d_ops : positive }.

Record tables := mk_tables {
  devs : list (option dev);
  fds : list (option nat);           (* the node a descriptor stands for *)
}.

(** A path names a device that is registered under it, and a file system that is registered
    under it or under a part of it that ends before a slash. *)
Definition names (d : dev) (path : list Z) : Prop :=
  d_path d = path \/ d_fs d = true /\ exists rest, path = d_path d ++ SEP :: rest.

#[export] Instance names_dec d path : Decision (names d path).
Proof.
  destruct (decide (d_path d = path \/ d_fs d = true /\ take (length (d_path d)) path = d_path d /\ path !! length (d_path d) = Some SEP))
    as [Hm|Hm]; [left|right]; unfold names.
  - destruct Hm as [->|(Hf & Ht & Hl)]; [by left|]. right. split; [done|]. exists (drop (S (length (d_path d))) path).
    rewrite <- (take_drop_middle path (length (d_path d)) SEP) at 1 by done. by rewrite Ht.
  - intros [?|[Hf [rest ->]]]; [tauto|]. apply Hm. right. split; [done|]. split; [by rewrite take_app_length|].
    by rewrite list_lookup_middle.
Defined.

(** the first registered device that a path names *)
Fixpoint lookup_path (l : list (option dev)) (path : list Z) : option nat :=
  match l with
  | [] => None
  | Some d :: l => if decide (names d path) then Some 0%nat else S <$> lookup_path l path
  | None :: l => S <$> lookup_path l path
  end.

(** the first place that is free *)
Fixpoint first_free {A} (l : list (option A)) : option nat :=
  match l with [] => None | None :: _ => Some 0%nat | Some _ :: l => S <$> first_free l end.

Definition lookup_fd (t : tables) (fd : Z) : option nat :=
  if decide (AOS_CONFIG_VFS_FD_OFFSET <= fd) then
    match fds t !! Z.to_nat (fd - AOS_CONFIG_VFS_FD_OFFSET) with Some (Some _) => Some (Z.to_nat (fd - AOS_CONFIG_VFS_FD_OFFSET)) | _ => None end
  else None.

Definition is_fs (t : tables) (n : nat) : bool := match devs t !! n with Some (Some d) => d_fs d | _ => false end.

#[export] Instance tables_settable : Settable tables := fun t => mk_tables (devs t) (fds t).

(** ** The calls *)

Inductive vfs_call :=
| Open (path : option (list Z)) (flags : Z)
| Close (fd : Z)
| Read (fd nbytes : Z)
| Write (fd : Z) (buf : list Z)
| Ioctl (fd cmd arg : Z)
| Lseek (fd offset whence : Z)
| Sync (fd : Z)
| Stat (path : option (list Z))
| Unlink (path : option (list Z))
| Rename (oldpath newpath : option (list Z))
| Mkdir (path : option (list Z))
| OpenDir (path : option (list Z))
| ReadDir (dir : option (positive * Z))
| CloseDir (dir : option (positive * Z))
| RegDriver (path : option (list Z)) (ops : positive) (arg : Z)
| RegFs (path : option (list Z)) (ops : positive) (arg : Z)
| Unregister (path : option (list Z)).

Inductive vfs_answer :=
| Status (r : Z)
| Bytes (r : Z) (b : list Z)
| Dir (d : option (positive * Z))
| Entry (e : option Z).

(** what a driver answers is up to it *)
Definition fd_spec (t : tables) (fd : Z) (unknown : vfs_answer) (a : vfs_answer) (t' : tables) : Prop :=
  t' = t /\ (lookup_fd t fd = None -> a = unknown).

Definition path_spec (t : tables) (path : option (list Z)) (st : Z -> vfs_answer) (a : vfs_answer) (t' : tables) : Prop :=
  t' = t /\
  match path with
  | None => a = st (- EINVAL)
  | Some path =>
      match lookup_path (devs t) path with
      | None => a = st (- ENODEV)
      | Some n => if decide (first_free (fds t) = None) then a = st (- ENOENT) else
                  is_fs t n = false -> a = st (- ENOSYS)
      end
  end.

Definition register_spec (t : tables) (path : option (list Z)) (fs : bool) (ops : positive) (r : Z) (t' : tables) : Prop :=
  match path with
  | Some path =>
      if decide (path !! 0%nat = Some SEP) then
        match first_free (devs t) with
        | None => r = - ENOMEM /\ t' = t
        | Some n =>
            r = - ENOMEM /\ t' = t \/
            (r = VFS_SUCCESS \/ fs = false /\ r = - ENOMEM) /\ t' = t <| devs ::= <[n := Some (mk_dev path fs ops)]> |>
        end
      else r = - EINVAL /\ t' = t
  | None => r = - EINVAL /\ t' = t
  end.

Definition call_spec (c : vfs_call) (t : tables) (a : vfs_answer) (t' : tables) : Prop :=
  match c with
  | Open path flags =>
      exists r, a = Status r /\
      match path with
      | None => r = - EINVAL /\ t' = t
      | Some path =>
          if decide (PATH_MAX < Z.of_nat (length path)) then r = - ENAMETOOLONG /\ t' = t else
          match lookup_path (devs t) path, first_free (fds t) with
          | None, _ => r = - ENOSYS /\ t' = t
          | Some _, None => r = - ENFILE /\ t' = t
          | Some n, Some f => r = get_fd f /\ t' = t <| fds ::= <[f := Some n]> |> \/ r <> VFS_SUCCESS /\ t' = t
          end
      end
  | Close fd =>
      match lookup_fd t fd with
      | None => a = Status (- ENOSYS) /\ t' = t
      | Some f => a = Status VFS_SUCCESS /\ t' = t <| fds ::= <[f := None]> |>
      end
  | Read fd n => fd_spec t fd (Bytes (- ENOSYS) []) a t'
  | Write fd b => fd_spec t fd (Status (- ENOSYS)) a t'
  | Ioctl fd cmd arg => fd_spec t fd (Status (if decide (fd < 0) then - EINVAL else - ENOENT)) a t'
  | Lseek fd _ _ | Sync fd => fd_spec t fd (Status (- ENOENT)) a t'
  | Stat path => path_spec t path (fun r => Bytes r []) a t'
  | Unlink path | Mkdir path => path_spec t path Status a t'
  | Rename oldpath newpath => path_spec t (match newpath with Some _ => oldpath | None => None end) Status a t'
  | OpenDir path =>
      exists d, a = Dir d /\
      match path ≫= lookup_path (devs t), first_free (fds t) with
      | Some n, Some f => d = None /\ t' = t \/
          is_fs t n = true /\ exists dp, d = Some (dp, get_fd f) /\ t' = t <| fds ::= <[f := Some n]> |>
      | _, _ => d = None /\ t' = t
      end
  | ReadDir dir => match dir with None => a = Entry None /\ t' = t | Some (_, fd) => fd_spec t fd (Entry None) a t' end
  | CloseDir dir =>
      exists r, a = Status r /\
      match dir with
      | None => r = - EINVAL /\ t' = t
      | Some (_, fd) =>
          match lookup_fd t fd with
          | None => r = - ENOENT /\ t' = t
          | Some f => t' = t <| fds ::= <[f := None]> |>
          end
      end
  | RegDriver path ops _ => exists r, a = Status r /\ register_spec t path false ops r t'
  | RegFs path ops _ => exists r, a = Status r /\ register_spec t path true ops r t'
  | Unregister path =>
      exists r, a = Status r /\
      match path with
      | None => r = - EINVAL /\ t' = t
      | Some path =>
          match lookup_path (devs t) path with
          | None => r = - ENODEV /\ t' = t
          | Some n => if decide (Some n ∈ fds t) then r = - EBUSY /\ t' = t
                      else r = VFS_SUCCESS /\ t' = t <| devs ::= <[n := None]> |>
          end
      end
  end.
End VfsSpec.
