(* ===== verification/VfsInv.v ===== *)
(** * The invariant of the device file system, and what its parts do *)
From S2P Require Import Prelude Errno Vfs VfsSpec.
Import Errno Vfs VfsSpec.

Module VfsInv.

(** ** Counting the descriptors of a node *)

Definition count (n : nat) (l : list (option nat)) : Z := Z.of_nat (length (filter (fun x => x = Some n) l)).

Lemma count_app n l1 l2 : count n (l1 ++ l2) = count n l1 + count n l2.
Proof. unfold count. rewrite filter_app, length_app. lia. Qed.

Lemma count_cons n x l : count n (x :: l) = (if decide (x = Some n) then 1 else 0) + count n l.
Proof. unfold count. rewrite filter_cons. case_decide; cbn [length]; lia. Qed.

Lemma count_insert n l f x y : l !! f = Some x ->
  count n (<[f := y]> l) = count n l - (if decide (x = Some n) then 1 else 0) + (if decide (y = Some n) then 1 else 0).
Proof.
  intros Hf. rewrite insert_take_drop by by eapply lookup_lt_Some. rewrite <- (take_drop_middle l f x) at 3 by done.
  rewrite !count_app, !count_cons. lia.
Qed.

Lemma count_bound n l : 0 <= count n l <= Z.of_nat (length l).
Proof. unfold count. pose proof (length_filter (fun x => x = Some n) l). lia. Qed.

Lemma count_zero n l : count n l = 0 <-> Some n ∉ l.
Proof.
  unfold count. split.
  - intros Hc Hin. assert (Hf : Some n ∈ filter (fun x => x = Some n) l) by (apply list_elem_of_filter; done).
    destruct (filter _ l); [by apply elem_of_nil in Hf|cbn in Hc; lia].
  - intros Hin. destruct (filter _ l) as [|x k] eqn:Hf; [done|]. exfalso. apply Hin.
    assert (Hx : x ∈ filter (fun x => x = Some n) l) by (rewrite Hf; constructor). apply list_elem_of_filter in Hx as [-> ?]. done.
Qed.

(** ** First places *)

Lemma first_free_Some {A} (l : list (option A)) i : first_free l = Some i -> l !! i = Some None.
Proof.
  revert i. induction l as [|[x|] l IH]; intros i Hi; cbn in Hi; [done| |by injection Hi as <-].
  apply fmap_Some in Hi as (j & Hj & ->). by apply IH.
Qed.

Lemma lookup_path_Some l path n : lookup_path l path = Some n -> exists d, l !! n = Some (Some d) /\ names d path.
Proof.
  revert n. induction l as [|[d|] l IH]; intros n Hn; cbn in Hn; [done| |].
  - destruct (decide (names d path)); [injection Hn as <-; by exists d|]. apply fmap_Some in Hn as (j & Hj & ->). by apply IH.
  - apply fmap_Some in Hn as (j & Hj & ->). by apply IH.
Qed.

Section inv.
Context {W : Type} (drivers : positive -> option (driver W)).
Implicit Types (s : vfs_state W) (n f : nat) (d : inode_t).

(** the entry of a node in the table of paths *)
Definition node_dev (d : inode_t) : option dev :=
  name ← i_name d; ops ← i_ops d; Some (mk_dev name (INODE_IS_FS d) ops).

Definition abs (s : vfs_state W) : tables := mk_tables (node_dev <$> g_vfs_dev_nodes s) (f_node <$> files s).

(** A node is free, or it has a name and the functions of its kind. *)
Definition node_ok (d : inode_t) : Prop :=
  i_type d = VFS_TYPE_NOT_INIT /\ i_name d = None \/
  is_Some (i_name d) /\ exists p, i_ops d = Some p /\
    (i_type d = VFS_TYPE_CHAR_DEV /\ (exists o, drivers p = Some (Dev o)) \/
     i_type d = VFS_TYPE_FS_DEV /\ exists o, drivers p = Some (Fs o)).

Definition used (d : inode_t) : Prop := i_type d <> VFS_TYPE_NOT_INIT.

(** The count of each node is that of its open files, which are of registered nodes. *)
Record tables_ok (nodes : list inode_t) (fds : list (option nat)) : Prop := {
  to_nodes : length nodes = 25%nat;
  to_fds : length fds = 50%nat;
  to_refs : forall n d, nodes !! n = Some d -> refs d = count n fds;
  to_open : forall f n, fds !! f = Some (Some n) -> exists d, nodes !! n = Some d /\ used d;
  to_node : forall n d, nodes !! n = Some d -> node_ok d;
}.

Record vfs_ok (s : vfs_state W) : Prop := {
  vfs_mutex : g_vfs_mutex s = Some false;
  vfs_tables : tables_ok (g_vfs_dev_nodes s) (f_node <$> files s);
}.

Lemma node_dev_None d : node_ok d -> node_dev d = None <-> i_type d = VFS_TYPE_NOT_INIT.
Proof.
  unfold node_dev. intros [[Ht Hn]|[[name Hn] (p & Hp & Hk)]]; rewrite Hn; cbn; [by rewrite Ht|]. rewrite Hp. cbn.
  split; [done|]. intros Ht. rewrite Ht in Hk. by destruct Hk as [[? _]|[? _]].
Qed.

Lemma node_dev_Some d : node_ok d -> used d -> exists name p, i_name d = Some name /\ i_ops d = Some p /\
  node_dev d = Some (mk_dev name (INODE_IS_FS d) p).
Proof.
  unfold node_dev. intros [[Ht Hn]|[[name Hn] (p & Hp & Hk)]] Hu; [done|]. exists name, p. by rewrite Hn, Hp.
Qed.

Lemma alloc_loop_free l e : Forall node_ok l ->
  alloc_loop l e = match first_free (node_dev <$> l) with Some i => e + Z.of_nat i | None => - ENOMEM end.
Proof.
  intros Hl. revert e. induction Hl as [|d l Hd Hl IH]; intros e; [done|]. cbn. pose proof (node_dev_None d Hd) as Hn.
  destruct (decide _) as [Ht|Ht].
  - apply Hn in Ht as ->. lia.
  - destruct (node_dev d); [|tauto]. rewrite IH. destruct (first_free _); cbn; [lia|done].
Qed.

Lemma open_loop_lookup l e path : Forall node_ok l ->
  open_loop l e path = (fun i => (e + i)%nat) <$> lookup_path (node_dev <$> l) path.
Proof.
  intros Hl. revert e. induction Hl as [|d l Hd Hl IH]; intros e; [done|]. cbn.
  assert (Hcons : forall o : option nat, (fun i => (S e + i)%nat) <$> o = (fun i => (e + i)%nat) <$> (S <$> o)).
  { intros [i|]; [|done]. cbn. f_equal. lia. }
  unfold path_matches, node_dev. destruct Hd as [[Ht Hn]|[[name Hn] (p & Hp & Hk)]]; rewrite Hn; cbn.
  - rewrite IH. apply Hcons.
  - rewrite Hp. cbn. match goal with |- context [if ?b then Some e else _] => destruct b eqn:Hb end.
    + rewrite decide_True; [cbn; f_equal; lia|]. apply orb_prop in Hb as [Hb|Hb].
      * apply andb_prop in Hb as [Hb Hs]. apply andb_prop in Hb as [Hf Ht].
        apply bool_decide_eq_true in Hs, Ht. right. cbn. split; [done|]. exists (drop (S (length name)) path).
        rewrite <- (take_drop_middle path (length name) SEP) at 1 by done. by rewrite Ht.
      * left. by apply bool_decide_eq_true in Hb.
    + rewrite decide_False; [rewrite IH; apply Hcons|]. intros [Hm|[Hf [rest Hm]]]; cbn in *.
      * apply orb_false_elim in Hb as [_ Hb]. apply bool_decide_eq_false in Hb. done.
      * apply orb_false_elim in Hb as [Hb _]. subst path. rewrite Hf, take_app_length, list_lookup_middle in Hb by done.
        rewrite !bool_decide_true in Hb by done. done.
Qed.

Lemma file_loop_free l e : file_loop l e = (fun i => (e + i)%nat) <$> first_free (f_node <$> l).
Proof.
  revert e. induction l as [|f l IH]; intros e; [done|]. cbn. destruct (f_node f) as [m|]; cbn; [|f_equal; lia].
  rewrite IH. destruct (first_free _); [|done]. cbn. f_equal. lia.
Qed.

(** ** Changes of the tables *)

(** A change of a node that keeps its count; it is not freed while it has open files. *)
Lemma tables_ok_set (nodes : list inode_t) (fds : list (option nat)) (n : nat) (d d' : inode_t) :
  tables_ok nodes fds -> nodes !! n = Some d -> refs d' = refs d -> node_ok d' -> used d' \/ Some n ∉ fds ->
  tables_ok (<[n := d']> nodes) fds.
Proof.
  intros [Hn Hf Hr Ho Hk] Hd Hre Hok Hu. pose proof (lookup_lt_Some _ _ _ Hd). split; [by rewrite length_insert|done|..].
  - intros m e Hm. apply list_lookup_insert_Some in Hm as [(<- & <- & _)|[? Hm]]; [rewrite Hre|]; by apply Hr.
  - intros f m Hfm. destruct (Ho f m Hfm) as (e & He & Hue). destruct (decide (m = n)) as [->|Hne].
    + exists d'. rewrite list_lookup_insert_eq by done. split; [done|]. destruct Hu as [|Hu]; [done|]. destruct Hu.
      by eapply list_elem_of_lookup_2.
    + exists e. by rewrite list_lookup_insert_ne.
  - intros m e Hm. apply list_lookup_insert_Some in Hm as [(<- & <- & _)|[? Hm]]; [done|by eapply Hk].
Qed.

(** A change of a node that keeps what the tables say. *)
Lemma tables_ok_same (nodes : list inode_t) (fds : list (option nat)) (n : nat) (d d' : inode_t) :
  tables_ok nodes fds -> nodes !! n = Some d ->
  refs d' = refs d -> i_type d' = i_type d -> i_name d' = i_name d -> i_ops d' = i_ops d -> tables_ok (<[n := d']> nodes) fds.
Proof.
  intros Ht Hd Hre Hty Hna Hop. eapply tables_ok_set; [done|done|done|..].
  - unfold node_ok. rewrite Hty, Hna, Hop. by eapply (to_node _ _ Ht).
  - unfold used. rewrite Hty. destruct (decide (i_type d = VFS_TYPE_NOT_INIT)) as [Hi|]; [|by left]. right.
    intros [f Hf]%list_elem_of_lookup. destruct (to_open _ _ Ht _ _ Hf) as (e & He & Hu). by simplify_eq.
Qed.

Lemma node_dev_same (nodes : list inode_t) (n : nat) (d d' : inode_t) : nodes !! n = Some d -> i_type d' = i_type d -> i_name d' = i_name d -> i_ops d' = i_ops d ->
  node_dev <$> <[n := d']> nodes = node_dev <$> nodes.
Proof.
  intros Hd Hty Hna Hop. rewrite list_fmap_insert. apply list_insert_id. rewrite list_lookup_fmap, Hd. cbn. f_equal.
  unfold node_dev, INODE_IS_FS. by rewrite Hty, Hna, Hop.
Qed.

(** A file is opened, or closed. *)
Lemma tables_ok_open (nodes : list inode_t) (fds : list (option nat)) (n : nat) (d : inode_t) (f : nat) : tables_ok nodes fds -> nodes !! n = Some d -> used d -> fds !! f = Some None ->
  tables_ok (<[n := d <| refs ::= fun r => wrap 8 (r + 1) |>]> nodes) (<[f := Some n]> fds).
Proof.
  intros [Hn Hf Hr Ho Hk] Hd Hu Hff. pose proof (lookup_lt_Some _ _ _ Hd). pose proof (lookup_lt_Some _ _ _ Hff).
  split; [by rewrite length_insert|by rewrite length_insert|..].
  - intros m e Hm. rewrite (count_insert _ _ _ None) by done. rewrite decide_False by done.
    apply list_lookup_insert_Some in Hm as [(<- & <- & _)|[? Hm]].
    + rewrite decide_True by done. cbn. rewrite (Hr _ _ Hd). pose proof (count_bound n fds). rewrite wrap_small; lia.
    + rewrite decide_False by congruence. rewrite (Hr _ _ Hm). lia.
  - intros g m Hg. assert (Hgm : exists e, nodes !! m = Some e /\ used e).
    { apply list_lookup_insert_Some in Hg as [(<- & [= <-] & _)|[? Hg]]; [by exists d|by eapply Ho]. }
    destruct Hgm as (e & He & Hue). destruct (decide (m = n)) as [->|Hne].
    + eexists. rewrite list_lookup_insert_eq by done. split; [done|]. done.
    + exists e. by rewrite list_lookup_insert_ne.
  - intros m e Hm. apply list_lookup_insert_Some in Hm as [(<- & <- & _)|[? Hm]]; [|by eapply Hk]. by apply (Hk _ _ Hd).
Qed.

Lemma tables_ok_close (nodes : list inode_t) (fds : list (option nat)) (n : nat) (d : inode_t) (f : nat) : tables_ok nodes fds -> nodes !! n = Some d -> fds !! f = Some (Some n) ->
  tables_ok (<[n := d <| refs ::= fun r => r - 1 |>]> nodes) (<[f := None]> fds) /\ 0 < refs d.
Proof.
  intros [Hn Hf Hr Ho Hk] Hd Hff. pose proof (lookup_lt_Some _ _ _ Hd). pose proof (lookup_lt_Some _ _ _ Hff).
  assert (Hpos : 0 < refs d).
  { rewrite (Hr _ _ Hd). pose proof (count_bound n fds). destruct (decide (count n fds = 0)) as [Hz|]; [|lia].
    apply count_zero in Hz. exfalso. apply Hz. by eapply list_elem_of_lookup_2. }
  split; [|done]. split; [by rewrite length_insert|by rewrite length_insert|..].
  - intros m e Hm. rewrite (count_insert _ _ _ (Some n)) by done. rewrite (decide_False (P := None = Some m)) by done.
    apply list_lookup_insert_Some in Hm as [(<- & <- & _)|[? Hm]].
    + rewrite decide_True by done. cbn. rewrite (Hr _ _ Hd). lia.
    + rewrite decide_False by congruence. rewrite (Hr _ _ Hm). lia.
  - intros g m Hg. apply list_lookup_insert_Some in Hg as [(_ & [=] & _)|[? Hg]]. destruct (Ho g m Hg) as (e & He & Hue).
    destruct (decide (m = n)) as [->|Hne].
    + eexists. rewrite list_lookup_insert_eq by done. split; [done|]. simplify_eq. done.
    + exists e. by rewrite list_lookup_insert_ne.
  - intros m e Hm. apply list_lookup_insert_Some in Hm as [(<- & <- & _)|[? Hm]]; [|by eapply Hk]. by apply (Hk _ _ Hd).
Qed.
End inv.
End VfsInv.
