(* ===== verification/VfsLogic.v ===== *)
(** * Reasoning about the device file system

    [tst h t m R]: from every state that stands for the tables [t], with the mutex held or not as
    [h] says, the call [m] does nothing undefined, and ends with a result, a mutex and tables
    that satisfy [R].  Then the rules of the pieces the calls are made of. *)
From S2P Require Import Prelude Errno Vfs VfsSpec VfsInv.
Import Errno Vfs VfsSpec VfsInv.

Module VfsLogic.

Section logic.
Context {W : Type} (drivers : positive -> option (driver W)).
Implicit Types (s : vfs_state W) (t : tables) (h : bool) (n f : nat).

(** The state [s] stands for the tables [t]. *)
Record st (h : bool) (t : tables) (s : vfs_state W) : Prop := {
  st_mutex : g_vfs_mutex s = Some h;
  st_tables : tables_ok drivers (g_vfs_dev_nodes s) (f_node <$> files s);
  st_abs : abs s = t;
}.

Definition tst {A} (h : bool) (t : tables) (m : V W A) (R : A -> bool -> tables -> Prop) : Prop :=
  forall s, st h t s -> exists a s', m s = Some (a, s') /\ exists h' t', st h' t' s' /\ R a h' t'.

Lemma vfs_ok_st s : vfs_ok drivers s <-> st false (abs s) s.
Proof. split; intros []; by split. Qed.

(** ** Rules *)

Lemma tst_ret {A} h t (a : A) (R : A -> bool -> tables -> Prop) : R a h t -> tst h t (mret a) R.
Proof. intros HR s Hs. eexists _, _. split; [done|]. by exists h, t. Qed.

Lemma tst_bind {A B} h t (m : V W A) (k : A -> V W B) (R : B -> bool -> tables -> Prop) :
  tst h t m (fun a h' t' => tst h' t' (k a) R) -> tst h t (m ≫= k) R.
Proof.
  intros Hm s Hs. destruct (Hm s Hs) as (a & s' & Ha & h' & t' & Hs' & Hk). unfold mbind, V_bind. rewrite Ha. by apply Hk.
Qed.

Lemma tst_fmap {A B} h t (g : A -> B) (m : V W A) (R : B -> bool -> tables -> Prop) :
  tst h t m (fun a h' t' => R (g a) h' t') -> tst h t (g <$> m) R.
Proof.
  intros Hm s Hs. destruct (Hm s Hs) as (a & s' & Ha & Hr). exists (g a), s'. unfold fmap, V_fmap. by rewrite Ha.
Qed.

Lemma tst_mono {A} h t (m : V W A) (P R : A -> bool -> tables -> Prop) :
  tst h t m P -> (forall a h' t', P a h' t' -> R a h' t') -> tst h t m R.
Proof.
  intros Hm HR s Hs. destruct (Hm s Hs) as (a & s' & Ha & h' & t' & Hs' & HP). exists a, s'. split; [done|]. exists h', t'. eauto.
Qed.

Lemma tst_if {A} (P : Prop) `{!Decision P} h t (m1 m2 : V W A) (R : A -> bool -> tables -> Prop) :
  (P -> tst h t m1 R) -> (~ P -> tst h t m2 R) -> tst h t (if decide P then m1 else m2) R.
Proof. destruct (decide P); auto. Qed.

Lemma tst_of_option {A} h t (o : option A) (a : A) (R : A -> bool -> tables -> Prop) :
  o = Some a -> R a h t -> tst h t (of_option o) R.
Proof. intros -> HR s Hs. eexists _, _. split; [done|]. by exists h, t. Qed.

(** what is in the state besides the tables and the mutex *)
Lemma st_frame h t s s' : g_vfs_mutex s' = g_vfs_mutex s -> g_vfs_dev_nodes s' = g_vfs_dev_nodes s -> files s' = files s ->
  st h t s -> st h t s'.
Proof. unfold abs. intros Hm Hn Hf [H1 H2 H3]. split; unfold abs in *; by rewrite ?Hm, ?Hn, ?Hf. Qed.

Lemma tst_modify h t (g : vfs_state W -> vfs_state W) (R : unit -> bool -> tables -> Prop) :
  (forall s, g_vfs_mutex (g s) = g_vfs_mutex s /\ g_vfs_dev_nodes (g s) = g_vfs_dev_nodes s /\ files (g s) = files s) ->
  R tt h t -> tst h t (modify g) R.
Proof.
  intros Hg HR s Hs. destruct (Hg s) as (? & ? & ?). eexists _, _. split; [done|]. exists h, t. split; [by eapply st_frame|done].
Qed.

Lemma tst_new_block h t (R : bool -> bool -> tables -> Prop) : (forall b, R b h t) -> tst h t new_block R.
Proof.
  intros HR s Hs. unfold new_block. set (b := match mem_fails s with b :: _ => b | [] => false end). destruct b eqn:Hb.
  - eexists _, _. split; [done|]. exists h, t. split; [by eapply st_frame, Hs|done].
  - eexists _, _. split; [done|]. exists h, t. split; [by eapply st_frame, Hs|done].
Qed.

Lemma tst_malloc h t sz (R : bool -> bool -> tables -> Prop) : (forall b, R b h t) -> tst h t (aos_malloc sz) R.
Proof. intros HR. apply tst_if; intros _; [by apply tst_ret|by apply tst_new_block]. Qed.

Lemma tst_mutex_new h t (R : Z -> bool -> tables -> Prop) : R 0 h t -> R (- ENOMEM) h t -> tst h t aos_mutex_new R.
Proof. intros H0 H1. apply tst_bind, tst_new_block. intros [|]; by apply tst_ret. Qed.

Lemma tst_free h t (R : unit -> bool -> tables -> Prop) : R tt h t -> tst h t aos_free R.
Proof. by apply tst_modify. Qed.

Lemma tst_lock t (R : Z -> bool -> tables -> Prop) : R 0 true t -> tst false t aos_mutex_lock R.
Proof.
  intros HR s [Hm Ht Ha]. unfold aos_mutex_lock, mbind, V_bind, gets. rewrite Hm. eexists _, _. split; [done|].
  exists true, t. split; [by split|done].
Qed.

Lemma tst_unlock h t (R : Z -> bool -> tables -> Prop) : R 0 false t -> tst h t aos_mutex_unlock R.
Proof.
  intros HR s [Hm Ht Ha]. unfold aos_mutex_unlock, mbind, V_bind, gets. rewrite Hm. eexists _, _. split; [done|].
  exists false, t. split; [by split|done].
Qed.

(** a section under the mutex *)
Lemma tst_locked {A} t (fail : Z -> A) (m : V W A) (R : A -> bool -> tables -> Prop) :
  tst true t m (fun a _ t' => R a false t') -> tst false t (locked fail m) R.
Proof.
  intros Hm. apply tst_bind, tst_lock. rewrite decide_False by (intros Hne; by apply Hne). apply tst_bind.
  eapply tst_mono; [exact Hm|]. intros a h' t' HR. apply tst_bind, tst_unlock. by apply tst_ret.
Qed.

(** ** Nodes and files *)

(** [f] is an open file of the node [n], which is the device [d]. *)
Definition opened (t : tables) (f n : nat) (d : dev) : Prop :=
  fds t !! f = Some (Some n) /\ devs t !! n = Some (Some d).

Lemma st_node h t s n : st h t s -> (n < 25)%nat ->
  exists d, g_vfs_dev_nodes s !! n = Some d /\ node_ok drivers d /\ devs t !! n = Some (node_dev d) /\ refs d = count n (fds t).
Proof.
  intros [_ [Hl _ Hr _ Hk] <-] Hn. destruct (lookup_lt_is_Some_2 (g_vfs_dev_nodes s) n) as [d Hd]; [lia|]. exists d.
  split; [done|]. split; [by eapply Hk|]. split; [|by apply Hr]. cbn. by rewrite list_lookup_fmap, Hd.
Qed.

Lemma st_dev h t s n d : st h t s -> devs t !! n = Some (Some d) ->
  exists nd, g_vfs_dev_nodes s !! n = Some nd /\ node_ok drivers nd /\ used nd /\ node_dev nd = Some d /\ refs nd = count n (fds t).
Proof.
  intros [_ [Hl _ Hr _ Hk] <-] Hd. cbn in Hd. rewrite list_lookup_fmap in Hd.
  apply fmap_Some in Hd as (nd & Hnd & Hd). exists nd. split; [done|]. pose proof (Hk _ _ Hnd) as Hok. split; [done|].
  split; [|split; [done|by apply Hr]]. intros Ht. apply (node_dev_None drivers) in Ht; [|done]. congruence.
Qed.

Lemma st_file h t s f n : st h t s -> fds t !! f = Some (Some n) ->
  exists fl d, files s !! f = Some fl /\ f_node fl = Some n /\ opened t f n d.
Proof.
  intros Hs Hf. pose proof Hs as [_ [_ _ _ Ho Hk] Ha]. rewrite <- Ha in Hf. cbn in Hf. destruct (Ho _ _ Hf) as (nd & Hnd & Hu).
  rewrite list_lookup_fmap in Hf. apply fmap_Some in Hf as (fl & Hfl & Hn). exists fl.
  destruct (node_dev_Some drivers nd (Hk _ _ Hnd) Hu) as (name & p & _ & _ & Hd). eexists. split; [done|]. split; [done|].
  subst t. split; cbn; rewrite list_lookup_fmap; [by rewrite Hfl, Hn; cbn|by rewrite Hnd; cbn; rewrite Hd].
Qed.

Lemma st_lengths h t s : st h t s -> length (devs t) = 25%nat /\ length (fds t) = 50%nat.
Proof. intros [_ [H1 H2 _ _ _] <-]. cbn. by rewrite length_fmap. Qed.

(** a change of a node that keeps its entry *)
Lemma tst_node_same h t n (g : inode_t -> inode_t) (R : unit -> bool -> tables -> Prop) :
  (n < 25)%nat ->
  (forall d, refs (g d) = refs d /\ i_type (g d) = i_type d /\ i_name (g d) = i_name d /\ i_ops (g d) = i_ops d) ->
  R tt h t -> tst h t (node_upd n g) R.
Proof.
  intros Hn Hg HR s Hs. destruct (st_node _ _ _ _ Hs Hn) as (d & Hd & _). destruct (Hg d) as (? & ? & ? & ?).
  unfold node_upd, node_get, mbind, V_bind. rewrite Hd. eexists _, _. split; [done|]. exists h, t. split; [|done].
  destruct Hs as [Hm Ht Ha]. split; [done| |].
  - cbn. by eapply tables_ok_same.
  - unfold abs in *. cbn. by rewrite (node_dev_same _ _ d).
Qed.

(** a change of a file that keeps its node *)
Lemma tst_file_same h t f n (g : file_t -> file_t) (R : unit -> bool -> tables -> Prop) :
  fds t !! f = Some (Some n) -> (forall fl, f_node (g fl) = f_node fl) -> R tt h t -> tst h t (file_upd f g) R.
Proof.
  intros Hf Hg HR s Hs. destruct (st_file _ _ _ _ _ Hs Hf) as (fl & d & Hfl & Hn & _).
  unfold file_upd, file_get, mbind, V_bind. rewrite Hfl. eexists _, _. split; [done|]. exists h, t. split; [|done].
  assert (Heq : f_node <$> <[f := g fl]> (files s) = f_node <$> files s).
  { rewrite list_fmap_insert. apply list_insert_id. by rewrite list_lookup_fmap, Hfl, Hg. }
  destruct Hs as [Hm Ht Ha]. split; [done|cbn; by rewrite Heq|]. unfold abs in *. cbn. by rewrite Heq.
Qed.

Lemma tst_file_get h t f n (R : file_t -> bool -> tables -> Prop) :
  fds t !! f = Some (Some n) -> (forall fl, f_node fl = Some n -> R fl h t) -> tst h t (file_get f) R.
Proof.
  intros Hf HR s Hs. destruct (st_file _ _ _ _ _ Hs Hf) as (fl & d & Hfl & Hn & _). exists fl, s. unfold file_get. rewrite Hfl.
  split; [done|]. exists h, t. eauto.
Qed.

Lemma tst_node_get h t n d (R : inode_t -> bool -> tables -> Prop) :
  devs t !! n = Some (Some d) -> (forall nd, node_ok drivers nd -> used nd -> node_dev nd = Some d -> R nd h t) ->
  tst h t (node_get n) R.
Proof.
  intros Hd HR s Hs. destruct (st_dev _ _ _ _ _ Hs Hd) as (nd & Hnd & Hok & Hu & Hn & _). exists nd, s.
  unfold node_get. rewrite Hnd. split; [done|]. exists h, t. eauto.
Qed.

Lemma tst_file_node h t f n (R : nat -> bool -> tables -> Prop) :
  fds t !! f = Some (Some n) -> R n h t -> tst h t (file_node f) R.
Proof. intros Hf HR. apply tst_bind. eapply tst_file_get; [done|]. intros fl Hfl. by eapply tst_of_option. Qed.

(** ** Descriptors *)

Lemma get_file_st h t s fd : st h t s -> get_file fd s = Some (lookup_fd t fd, s).
Proof.
  intros Hs. pose proof (st_lengths _ _ _ Hs) as [_ Hl]. unfold get_file, lookup_fd.
  destruct (decide (fd - AOS_CONFIG_VFS_FD_OFFSET < 0)) as [Hlt|Hge]; [by rewrite decide_False by lia|].
  rewrite (decide_True (P := AOS_CONFIG_VFS_FD_OFFSET <= fd)) by lia. destruct (decide (MAX_FILE_NUM <= _)) as [Hgt|Hlt].
  { rewrite lookup_ge_None_2; [done|]. unfold MAX_FILE_NUM, AOS_CONFIG_VFS_DEV_NODES in Hgt. lia. }
  destruct (lookup_lt_is_Some_2 (fds t) (Z.to_nat (fd - AOS_CONFIG_VFS_FD_OFFSET))) as [o Ho].
  { unfold MAX_FILE_NUM, AOS_CONFIG_VFS_DEV_NODES in Hlt. lia. }
  rewrite Ho. rewrite <- (st_abs _ _ _ Hs) in Ho. cbn in Ho. rewrite list_lookup_fmap in Ho.
  apply fmap_Some in Ho as (fl & Hfl & ->). unfold mbind, V_bind, file_get. rewrite Hfl. by destruct (f_node fl).
Qed.

Lemma lookup_fd_opened h t s fd f : st h t s -> lookup_fd t fd = Some f -> exists n d, opened t f n d.
Proof.
  unfold lookup_fd. intros Hs Hf. destruct (decide _); [|done]. destruct (fds t !! _) as [[n|]|] eqn:Hn; simplify_eq.
  destruct (st_file _ _ _ _ _ Hs Hn) as (fl & d & _ & _ & Ho). by exists n, d.
Qed.

Lemma tst_get_file h t fd (R : option nat -> bool -> tables -> Prop) :
  (lookup_fd t fd = None -> R None h t) ->
  (forall f n d, lookup_fd t fd = Some f -> opened t f n d -> R (Some f) h t) -> tst h t (get_file fd) R.
Proof.
  intros H0 H1 s Hs. exists (lookup_fd t fd), s. split; [by apply get_file_st with h|]. exists h, t. split; [done|].
  destruct (lookup_fd t fd) as [f|] eqn:Hf; [|auto]. destruct (lookup_fd_opened _ _ _ _ _ Hs Hf) as (n & d & Ho). eauto.
Qed.

(** ** Drivers *)

Lemma tst_drv_call {A R0} h t (fn : dfun W A R0) a f n d (R : R0 -> bool -> tables -> Prop) :
  opened t f n d -> (forall r, R r h t) -> tst h t (drv_call fn a f n) R.
Proof.
  intros [Hf Hd] HR. apply tst_bind. eapply tst_file_get; [done|]. intros fl Hfl. apply tst_bind.
  eapply tst_node_get; [done|]. intros nd _ _ _. apply tst_bind. intros s Hs. eexists _, _. split; [done|].
  exists h, t. split; [done|]. destruct (fn _ _ _) as [[r v] w]. apply tst_bind. eapply tst_file_same; [done|done|].
  assert (Hn : (n < 25)%nat). { pose proof (st_lengths _ _ _ Hs) as [Hl _]. apply lookup_lt_Some in Hd. lia. }
  apply tst_bind. apply tst_node_same; [done|done|]. apply tst_bind. apply tst_modify; [done|]. by apply tst_ret.
Qed.

Lemma tst_opt_call {A R0} h t (fn : option (dfun W A R0)) a f n d dflt (R : R0 -> bool -> tables -> Prop) :
  opened t f n d -> (forall r, R r h t) -> tst h t (opt_call fn a f n dflt) R.
Proof. intros Ho HR. destruct fn; [by eapply tst_drv_call|by apply tst_ret]. Qed.

(** the functions of a node are those of its kind *)
Lemma node_ok_kind nd d : node_ok drivers nd -> used nd -> node_dev nd = Some d -> INODE_IS_FS nd = d_fs d /\
  if d_fs d then exists o, i_ops nd ≫= drivers = Some (Fs o) else exists o, i_ops nd ≫= drivers = Some (Dev o).
Proof.
  intros Hok Hu Hd. destruct (node_dev_Some drivers nd Hok Hu) as (name & p & Hn & Hp & Hd'). rewrite Hd' in Hd.
  injection Hd as <-. split; [done|]. cbn [d_fs]. destruct Hok as [[? _]|(_ & p' & Hp' & Hk)]; [done|].
  rewrite Hp'. unfold INODE_IS_FS. destruct Hk as [[Ht [o Ho]]|[Ht [o Ho]]]; rewrite Ht; cbn; by exists o.
Qed.

Lemma tst_dev_ops h t nd o (R : file_ops W -> bool -> tables -> Prop) :
  i_ops nd ≫= drivers = Some (Dev o) -> R o h t -> tst h t (dev_ops drivers nd) R.
Proof. intros Ho HR. unfold dev_ops. rewrite Ho. by apply tst_ret. Qed.

Lemma tst_fs_ops h t nd o (R : fs_ops W -> bool -> tables -> Prop) :
  i_ops nd ≫= drivers = Some (Fs o) -> R o h t -> tst h t (fs_ops_of drivers nd) R.
Proof. intros Ho HR. unfold fs_ops_of. rewrite Ho. by apply tst_ret. Qed.

Lemma tst_either_call {A B R0} h t (dv : file_ops W -> option (dfun W A R0)) a (fs : fs_ops W -> option (dfun W B R0)) b f n d dflt
    (R : R0 -> bool -> tables -> Prop) :
  opened t f n d -> (forall r, R r h t) -> tst h t (either_call drivers dv a fs b f n dflt) R.
Proof.
  intros Ho HR. apply tst_bind. eapply tst_node_get; [apply Ho|]. intros nd Hok Hu Hd.
  destruct (node_ok_kind nd d Hok Hu Hd) as [-> Hk]. destruct (d_fs d); destruct Hk as [o Hk]; apply tst_bind.
  - eapply tst_fs_ops; [done|]. by eapply tst_opt_call.
  - eapply tst_dev_ops; [done|]. by eapply tst_opt_call.
Qed.

(** A device has no function of a file system. *)
Lemma tst_fs_call {A R0} h t (fs : fs_ops W -> option (dfun W A R0)) a f n d dflt (R : R0 -> bool -> tables -> Prop) :
  opened t f n d -> (forall r, (d_fs d = false -> r = dflt) -> R r h t) -> tst h t (fs_call drivers fs a f n dflt) R.
Proof.
  intros Ho HR. apply tst_bind. eapply tst_node_get; [apply Ho|]. intros nd Hok Hu Hd.
  destruct (node_ok_kind nd d Hok Hu Hd) as [-> Hk]. destruct (d_fs d); [|by apply tst_ret, HR].
  destruct Hk as [o Hk]. apply tst_bind. eapply tst_fs_ops; [done|]. eapply tst_opt_call; [done|]. intros r. by apply HR.
Qed.
End logic.
End VfsLogic.
