(* ===== verification/VfsOps.v ===== *)
(** * The calls of the device file system, one by one

    Each call keeps the invariant, and does to the tables what [VfsSpec.call_spec] says of it. *)
From S2P Require Import Prelude Errno Vfs VfsSpec VfsInv VfsLogic.
Import Errno Vfs VfsSpec VfsInv VfsLogic.

Module VfsOps.

Section calls.
Context {W : Type} (drivers : positive -> option (driver W)).
Implicit Types (s : vfs_state W) (t : tables) (h : bool) (n f : nat).

Notation st := (st drivers).
Notation tst := (tst drivers).

(** ** The pieces under the mutex *)

Lemma st_nodes_ok h t s : st h t s -> Forall (node_ok drivers) (g_vfs_dev_nodes s).
Proof. intros [_ [_ _ _ _ Hk] _]. apply Forall_lookup. apply Hk. Qed.

Lemma tst_inode_open h t path (R : option nat -> bool -> tables -> Prop) :
  R (lookup_path (devs t) path) h t -> tst h t (inode_open path) R.
Proof.
  intros HR s Hs. eexists _, _. split; [done|]. exists h, t. split; [done|].
  rewrite (open_loop_lookup drivers) by by eapply st_nodes_ok. rewrite <- (st_abs _ _ _ _ Hs) in HR at 1. cbn in HR.
  by destruct (lookup_path _ path).
Qed.

Lemma tst_new_file h t n d (R : option nat -> bool -> tables -> Prop) :
  devs t !! n = Some (Some d) ->
  match first_free (fds t) with
  | None => R None h t
  | Some f => R (Some f) h (t <| fds ::= <[f := Some n]> |>)
  end -> tst h t (new_file n) R.
Proof.
  intros Hd HR s Hs. unfold new_file, mbind at 1, V_bind, gets. rewrite file_loop_free.
  pose proof (st_abs _ _ _ _ Hs) as Ha. assert (Hfds : f_node <$> files s = fds t) by by rewrite <- Ha. rewrite Hfds.
  destruct (first_free (fds t)) as [f|] eqn:Hff; cbn -[Z.add Nat.add].
  - apply first_free_Some in Hff. rewrite <- Hfds, list_lookup_fmap in Hff. apply fmap_Some in Hff as (fl & Hfl & Hn).
    replace (0 + f)%nat with f by lia. unfold file_upd, file_get, mbind, V_bind. rewrite Hfl. cbn -[Z.add].
    destruct (st_dev _ _ _ _ _ _ Hs Hd) as (nd & Hnd & Hok & Hu & Hdev & Href).
    unfold inode_ref, node_upd, node_get, mbind, V_bind. cbn -[Z.add wrap]. rewrite Hnd. cbn -[Z.add wrap].
    eexists _, _. split; [done|]. eexists h, _. split; [|exact HR].
    split; [by destruct Hs|..]; cbn -[Z.add wrap].
    + rewrite list_fmap_insert. cbn -[Z.add wrap]. eapply tables_ok_open; [apply Hs|done|done|].
      rewrite list_lookup_fmap, Hfl. cbn. by rewrite Hn.
    + unfold abs. cbn -[Z.add wrap]. rewrite (node_dev_same _ _ nd), list_fmap_insert by done. by subst t.
  - eexists _, _. split; [done|]. by exists h, t.
Qed.

Lemma tst_open_node h t path flags (R : option (nat * option nat) -> bool -> tables -> Prop) :
  (lookup_path (devs t) path = None -> R None h t) ->
  (forall n d, lookup_path (devs t) path = Some n -> devs t !! n = Some (Some d) -> names d path ->
    match first_free (fds t) with
    | None => R (Some (n, None)) h t
    | Some f => opened (t <| fds ::= <[f := Some n]> |>) f n d -> R (Some (n, Some f)) h (t <| fds ::= <[f := Some n]> |>)
    end) -> tst h t (open_node path flags) R.
Proof.
  intros H0 H1. apply tst_bind, tst_inode_open. destruct (lookup_path (devs t) path) as [n|] eqn:Hp; [|by apply tst_ret, H0].
  destruct (lookup_path_Some _ _ _ Hp) as (d & Hd & Hm). specialize (H1 n d eq_refl Hd Hm). apply tst_bind.
  assert (Hnf : tst h t (new_file n ≫= fun file => mret (Some (n, file))) R).
  { apply tst_bind. eapply tst_new_file; [done|]. destruct (first_free (fds t)) as [f|] eqn:Hf; apply tst_ret; [|done].
    apply H1. split; [|done]. cbn. rewrite list_lookup_insert_eq; [done|]. by eapply lookup_lt_Some, first_free_Some. }
  destruct flags as [fl|]; [|by apply tst_ret]. intros s Hs.
  eapply tst_node_same; [|done|exact Hnf|exact Hs]. pose proof (st_lengths _ _ _ _ Hs) as [Hl _].
  apply lookup_lt_Some in Hd. lia.
Qed.

Lemma tst_del_file h t f n (R : unit -> bool -> tables -> Prop) :
  fds t !! f = Some (Some n) -> R tt h (t <| fds ::= <[f := None]> |>) -> tst h t (del_file f) R.
Proof.
  intros Hf HR s Hs. destruct (st_file _ _ _ _ _ _ Hs Hf) as (fl & d & Hfl & Hn & _ & Hd).
  destruct (st_dev _ _ _ _ _ _ Hs Hd) as (nd & Hnd & Hok & Hu & Hdev & Href).
  assert (Hff : (f_node <$> files s) !! f = Some (Some n)) by by rewrite list_lookup_fmap, Hfl, <- Hn.
  destruct (tables_ok_close drivers _ _ _ _ _ (st_tables _ _ _ _ Hs) Hnd Hff) as [Hok' Hpos].
  unfold del_file, file_get, mbind, V_bind. rewrite Hfl. unfold of_option. rewrite Hn.
  unfold inode_unref, node_upd, node_get, mbind, V_bind. rewrite Hnd. rewrite decide_True by done. rewrite Hnd.
  unfold modify, file_upd, file_get, mbind, V_bind. cbn -[Z.sub]. rewrite Hfl. cbn -[Z.sub].
  eexists _, _. split; [done|]. eexists h, _. split; [|exact HR].
  split; [by destruct Hs|..]; cbn -[Z.sub].
  - by rewrite list_fmap_insert.
  - unfold abs. cbn -[Z.sub]. rewrite (node_dev_same _ _ nd), list_fmap_insert by done. by rewrite <- (st_abs _ _ _ _ Hs).
Qed.

(** A file that is opened and closed again leaves the tables as they were. *)
Lemma tables_reopen t f n : first_free (fds t) = Some f -> (t <| fds ::= <[f := Some n]> |>) <| fds ::= <[f := None]> |> = t.
Proof.
  intros Hf%first_free_Some. destruct t as [dv fd]. cbn in *.
  change (mk_tables dv (<[f := None]> (<[f := Some n]> fd)) = mk_tables dv fd). rewrite list_insert_insert_eq. f_equal. by apply list_insert_id.
Qed.

Lemma tst_undo_open h t f n d (R : unit -> bool -> tables -> Prop) :
  first_free (fds t) = Some f -> opened (t <| fds ::= <[f := Some n]> |>) f n d -> R tt h t ->
  tst h (t <| fds ::= <[f := Some n]> |>) (del_file f) R.
Proof. intros Hf Ho HR. eapply tst_del_file; [apply Ho|]. by rewrite tables_reopen. Qed.

(** ** Open files *)

Lemma tst_open t path flags :
  tst false t (aos_open drivers path flags) (fun a h' t' => h' = false /\ call_spec (Open path flags) t (Status a) t').
Proof.
  unfold aos_open, call_spec. destruct path as [path|]; [|by apply tst_ret; split; [|eexists]].
  destruct (decide (PATH_MAX < _)) as [Hlen|Hlen]; [by apply tst_ret; split; [|eexists]|].
  apply tst_bind, tst_locked, tst_fmap, tst_open_node.
  - intros Hp. apply tst_ret. rewrite Hp. by split; [|eexists].
  - intros n d Hp Hd Hm. rewrite Hp. destruct (first_free (fds t)) as [f|] eqn:Hf; [|by apply tst_ret; split; [|eexists]].
    intros Ho. apply tst_bind. eapply tst_either_call; [exact Ho|]. intros r. apply tst_if; intros Hr.
    + apply tst_bind. eapply tst_undo_open; [done|done|]. apply tst_ret. split; [done|]. exists r. auto.
    + apply tst_ret. split; [done|]. eexists. split; [done|]. by left.
Qed.

Lemma tst_close t fd :
  tst false t (aos_close drivers fd) (fun a h' t' => h' = false /\ call_spec (Close fd) t (Status a) t').
Proof.
  unfold aos_close, call_spec. apply tst_bind, tst_get_file.
  - intros ->. by apply tst_ret.
  - intros f n d -> Ho. apply tst_bind. eapply tst_file_node; [apply Ho|]. apply tst_bind.
    eapply tst_either_call; [done|]. intros _. apply tst_locked, tst_bind. eapply tst_del_file; [apply Ho|]. by apply tst_ret.
Qed.

(** the calls that hand over to the driver *)
Lemma tst_fd_call {A} t fd (unknown : A) (k : nat -> V W A) (wrapper : A -> vfs_answer) :
  (forall f n d, opened t f n d -> tst false t (k f) (fun _ h' t' => h' = false /\ t' = t)) ->
  tst false t (get_file fd ≫= fun f : option nat => match f with None => mret unknown | Some f => k f end)
    (fun a h' t' => h' = false /\ fd_spec t fd (wrapper unknown) (wrapper a) t').
Proof.
  intros Hk. apply tst_bind, tst_get_file.
  - intros Hn. apply tst_ret. by split; [|split].
  - intros f n d Hl Ho. eapply tst_mono; [by eapply Hk|]. intros a h' t' [-> ->]. split; [done|]. split; [done|congruence].
Qed.

Lemma tst_either t f n d {A B R0} (dv : file_ops W -> option (dfun W A R0)) a (fs : fs_ops W -> option (dfun W B R0)) b dflt :
  opened t f n d ->
  tst false t (node ← file_node f; either_call drivers dv a fs b f node dflt) (fun _ h' t' => h' = false /\ t' = t).
Proof. intros Ho. apply tst_bind. eapply tst_file_node; [apply Ho|]. by eapply tst_either_call. Qed.

Lemma tst_fs t f n d {A R0} (fs : fs_ops W -> option (dfun W A R0)) a dflt :
  opened t f n d ->
  tst false t (node ← file_node f; fs_call drivers fs a f node dflt) (fun _ h' t' => h' = false /\ t' = t).
Proof. intros Ho. apply tst_bind. eapply tst_file_node; [apply Ho|]. by eapply tst_fs_call. Qed.

Lemma tst_read t fd nbytes :
  tst false t (aos_read drivers fd nbytes) (fun a h' t' => h' = false /\ call_spec (Read fd nbytes) t (Bytes a.1 a.2) t').
Proof.
  apply (tst_fd_call t fd (- ENOSYS, []) (fun f => node ← file_node f; either_call drivers fo_read nbytes fs_read nbytes f node _)
    (fun a => Bytes a.1 a.2)). intros. by eapply tst_either. Qed.

Lemma tst_write t fd buf :
  tst false t (aos_write drivers fd buf) (fun a h' t' => h' = false /\ call_spec (Write fd buf) t (Status a) t').
Proof. apply (tst_fd_call _ _ _ _ Status). intros. by eapply tst_either. Qed.

Lemma tst_ioctl t fd cmd arg :
  tst false t (aos_ioctl drivers fd cmd arg) (fun a h' t' => h' = false /\ call_spec (Ioctl fd cmd arg) t (Status a) t').
Proof.
  cbn [call_spec]. apply tst_if; intros Hfd.
  - rewrite decide_True by done. apply tst_ret. by split; [|split].
  - rewrite decide_False by done. apply (tst_fd_call _ _ _ _ Status). intros. by eapply tst_either.
Qed.

Lemma tst_lseek t fd offset whence :
  tst false t (aos_lseek drivers fd offset whence) (fun a h' t' => h' = false /\ call_spec (Lseek fd offset whence) t (Status a) t').
Proof.
  apply (tst_fd_call _ _ _ _ Status). intros f n d Ho. apply tst_bind. eapply tst_file_node; [apply Ho|].
  apply tst_bind. eapply tst_fs_call; [done|]. intros. by apply tst_ret.
Qed.

Lemma tst_sync t fd :
  tst false t (aos_sync drivers fd) (fun a h' t' => h' = false /\ call_spec (Sync fd) t (Status a) t').
Proof. apply (tst_fd_call _ _ _ _ Status). intros. by eapply tst_fs. Qed.

(** ** Paths *)

Lemma tst_path_call {A R0} t path (fs : fs_ops W -> option (dfun W A R0)) a dflt (fail : Z -> R0) (wrapper : R0 -> vfs_answer) :
  fail (- ENOSYS) = dflt ->
  tst false t (path_call drivers path fs a dflt fail)
    (fun r h' t' => h' = false /\ path_spec t (Some path) (fun e => wrapper (fail e)) (wrapper r) t').
Proof.
  intros Hdf. unfold path_spec. apply tst_bind, tst_locked, tst_fmap, tst_open_node.
  - intros Hp. apply tst_ret. by rewrite Hp.
  - intros n d Hp Hd Hm. rewrite Hp. destruct (first_free (fds t)) as [f|] eqn:Hf.
    + intros Ho. apply tst_bind. eapply tst_fs_call; [exact Ho|]. intros r Hr. apply tst_locked, tst_bind.
      eapply tst_undo_open; [done|done|]. apply tst_ret. split; [done|]. split; [done|]. rewrite decide_False by done.
      unfold is_fs. rewrite Hd. intros Hfs. by rewrite Hr, Hdf.
    + apply tst_ret. by rewrite decide_True.
Qed.

Lemma tst_stat t path :
  tst false t (aos_stat drivers path) (fun a h' t' => h' = false /\ call_spec (Stat path) t (Bytes a.1 a.2) t').
Proof.
  destruct path as [path|]; [|by apply tst_ret; split; [|split]].
  by apply (tst_path_call _ _ _ _ _ (fun e => (e, [])) (fun a => Bytes a.1 a.2)).
Qed.

Lemma tst_unlink t path :
  tst false t (aos_unlink drivers path) (fun a h' t' => h' = false /\ call_spec (Unlink path) t (Status a) t').
Proof. destruct path as [path|]; [|by apply tst_ret; split; [|split]]. by apply (tst_path_call _ _ _ _ _ id Status). Qed.

Lemma tst_mkdir t path :
  tst false t (aos_mkdir drivers path) (fun a h' t' => h' = false /\ call_spec (Mkdir path) t (Status a) t').
Proof. destruct path as [path|]; [|by apply tst_ret; split; [|split]]. by apply (tst_path_call _ _ _ _ _ id Status). Qed.

Lemma tst_rename t oldpath newpath :
  tst false t (aos_rename drivers oldpath newpath)
    (fun a h' t' => h' = false /\ call_spec (Rename oldpath newpath) t (Status a) t').
Proof.
  destruct oldpath as [oldpath|], newpath as [newpath|]; try by apply tst_ret; split; [|split].
  by apply (tst_path_call _ _ _ _ _ id Status).
Qed.

(** ** Directories *)

Lemma tst_opendir t path :
  tst false t (aos_opendir drivers path) (fun a h' t' => h' = false /\ call_spec (OpenDir path) t (Dir a) t').
Proof.
  unfold aos_opendir, call_spec. destruct path as [path|]; [|apply tst_ret; split; [done|]; by eexists].
  cbn [option_bind mbind option_bind]. apply tst_bind, tst_locked, tst_open_node.
  - intros Hp. apply tst_ret. split; [done|]. exists None. cbn. by rewrite Hp.
  - intros n d Hp Hd Hm. cbn. rewrite Hp. destruct (first_free (fds t)) as [f|] eqn:Hf.
    + intros Ho. apply tst_bind. eapply tst_fs_call; [exact Ho|]. intros [dp|] Hr.
      * apply tst_ret. split; [done|]. eexists. split; [done|]. right. split; [|by exists dp].
        unfold is_fs. rewrite Hd. destruct (d_fs d); [done|]. by specialize (Hr eq_refl).
      * apply tst_locked, tst_bind. eapply tst_undo_open; [done|done|]. apply tst_ret. split; [done|]. eexists. split; [done|].
        by left.
    + apply tst_ret. split; [done|]. by eexists.
Qed.

Lemma tst_readdir t dir :
  tst false t (aos_readdir drivers dir) (fun a h' t' => h' = false /\ call_spec (ReadDir dir) t (Entry a) t').
Proof.
  destruct dir as [[dp fd]|]; [|by apply tst_ret]. apply (tst_fd_call _ _ _ _ Entry). intros. by eapply tst_fs.
Qed.

Lemma tst_closedir t dir :
  tst false t (aos_closedir drivers dir) (fun a h' t' => h' = false /\ call_spec (CloseDir dir) t (Status a) t').
Proof.
  unfold aos_closedir, call_spec. destruct dir as [[dp fd]|]; [|apply tst_ret; split; [done|]; by eexists].
  apply tst_bind, tst_get_file.
  - intros ->. apply tst_ret. split; [done|]. by eexists.
  - intros f n d -> Ho. apply tst_bind. eapply tst_file_node; [apply Ho|]. apply tst_bind.
    eapply tst_fs_call; [done|]. intros r _. apply tst_locked, tst_bind. eapply tst_del_file; [apply Ho|].
    apply tst_ret. split; [done|]. by eexists.
Qed.
End calls.
End VfsOps.
