(* ===== verification/VfsReg.v ===== *)
(** * Registering devices and file systems, and taking them away *)
From S2P Require Import Prelude Errno Vfs VfsSpec VfsInv VfsLogic VfsOps.
Import Errno Vfs VfsSpec VfsInv VfsLogic VfsOps.

Module VfsReg.

Section reg.
Context {W : Type} (drivers : positive -> option (driver W)).
Implicit Types (s : vfs_state W) (t : tables) (h : bool) (n f : nat).

Notation st := (st drivers).
Notation tst := (tst drivers).

(** The functions behind [ops] are those of a file system, or of a device. *)
Definition kind_ok (fs : bool) (ops : positive) : Prop :=
  if fs then exists o, drivers ops = Some (Fs o) else exists o, drivers ops = Some (Dev o).

(** A node that is set to [d'], whose entry in the table of paths is [x]. *)
Lemma st_set h t s n d d' x : st h t s -> g_vfs_dev_nodes s !! n = Some d -> refs d' = refs d -> node_ok drivers d' ->
  used d' \/ Some n ∉ fds t -> node_dev d' = x ->
  st h (t <| devs ::= <[n := x]> |>) (s <| g_vfs_dev_nodes ::= <[n := d']> |>).
Proof.
  intros [Hm Ht Ha] Hd Hre Hok Hu Hx. assert (Hf : fds t = f_node <$> files s) by by rewrite <- Ha. rewrite Hf in Hu.
  split; [done|cbn; by eapply tables_ok_set|]. subst t. unfold abs. cbn. by rewrite list_fmap_insert, Hx.
Qed.

(** A node whose name is set and whose type is not is not yet in the table of paths. *)
Lemma reserve_spec h t path s : st h t s ->
  (exists e s', inode_reserve path s = Some ((e, None), s') /\ st h t s' /\
     match path with
     | Some p => if decide (p !! 0%nat = Some SEP) then e = - ENOMEM else e = - EINVAL
     | None => e = - EINVAL
     end) \/
  exists p n d s0, path = Some p /\ p !! 0%nat = Some SEP /\ first_free (devs t) = Some n /\
    st h t s0 /\ g_vfs_dev_nodes s0 !! n = Some d /\
    inode_reserve path s = Some ((VFS_SUCCESS, Some n), s0 <| g_vfs_dev_nodes ::= <[n := d <| i_name := Some p |>]> |>).
Proof.
  intros Hs. destruct path as [p|]; [|left; by eexists _, _]. unfold inode_reserve.
  destruct (decide (p !! 0%nat = Some SEP)) as [Hp|Hp]; [rewrite decide_False by tauto|rewrite decide_True by done; left; by eexists _, _].
  unfold inode_alloc, mbind, V_bind, gets. cbn -[Z.add].
  rewrite (alloc_loop_free drivers) by by eapply st_nodes_ok. assert (Hdv : node_dev <$> g_vfs_dev_nodes s = devs t) by by rewrite <- (st_abs _ _ _ _ Hs).
  rewrite Hdv. pose proof (first_free_Some (devs t)) as Hff. pose proof (st_lengths _ _ _ _ Hs) as [Hlen _].
  destruct (first_free (devs t)) as [n|] eqn:Hn; [|by left; eexists _, _].
  specialize (Hff n eq_refl). apply lookup_lt_Some in Hff.
  rewrite decide_False by lia. unfold inode_ptr_get. rewrite decide_False by (unfold AOS_CONFIG_VFS_DEV_NODES; lia).
  cbn -[Z.add]. replace (Z.to_nat (0 + Z.of_nat n)) with n by lia. unfold inode_set_name, aos_malloc, mbind, V_bind.
  rewrite decide_False by lia. unfold new_block. destruct (match mem_fails s with b :: _ => b | [] => false end); cbn -[Z.add].
  - left. eexists _, _. split; [done|]. split; [by eapply st_frame, Hs|]. done.
  - right. destruct (st_node _ _ _ _ n Hs) as (d & Hd & _); [lia|].
    unfold node_upd, node_get, mbind, V_bind. cbn -[Z.add]. rewrite Hd. cbn -[Z.add].
    exists p, n, d, (s <| mem_fails ::= tail |> <| allocated ::= Z.succ |>). do 3 (split; [done|]).
    split; [by eapply st_frame, Hs|]. done.
Qed.

(** The node gets its kind: it is in the table of paths. *)
Lemma st_register h t s n d p fs ops arg : st h t s -> g_vfs_dev_nodes s !! n = Some d -> kind_ok fs ops ->
  let d' := d <| i_name := Some p |> <| i_type := if fs then VFS_TYPE_FS_DEV else VFS_TYPE_CHAR_DEV |>
              <| i_ops := Some ops |> <| i_arg := arg |> in
  st h (t <| devs ::= <[n := Some (mk_dev p fs ops)]> |>) (s <| g_vfs_dev_nodes ::= <[n := d']> |>).
Proof.
  intros Hs Hd Hk d'. eapply st_set; [done|done|done|..].
  - right. split; [by eexists|]. exists ops. split; [done|]. destruct fs; [right|left]; done.
  - left. unfold used, d'. cbn. by destruct fs.
  - unfold node_dev, d', INODE_IS_FS. cbn. by destruct fs.
Qed.

(** The node [n] has the name [p], and its kind is still to come. *)
Definition named (t : tables) (n : nat) (p : list Z) (s : vfs_state W) : Prop :=
  exists d s0, st true t s0 /\ g_vfs_dev_nodes s0 !! n = Some d /\ s = s0 <| g_vfs_dev_nodes ::= <[n := d <| i_name := Some p |>]> |>.

Lemma set_node_twice s n (a b : inode_t) :
  (s <| g_vfs_dev_nodes ::= <[n := b]> |>) <| g_vfs_dev_nodes ::= <[n := a]> |> = s <| g_vfs_dev_nodes ::= <[n := a]> |>.
Proof.
  assert (Hset : forall l l', l = l' -> s <| g_vfs_dev_nodes := l |> = s <| g_vfs_dev_nodes := l' |>) by by intros l l' ->.
  exact (Hset _ _ (list_insert_insert_eq (g_vfs_dev_nodes s) n a b)).
Qed.

(** from one state, whether it stands for tables or not *)
Definition vwp {A} (m : V W A) (Q : A -> vfs_state W -> Prop) s : Prop := exists a s', m s = Some (a, s') /\ Q a s'.

Lemma vwp_bind {A B} (m : V W A) (k : A -> V W B) (Q : B -> vfs_state W -> Prop) s :
  vwp m (fun a s' => vwp (k a) Q s') s -> vwp (m ≫= k) Q s.
Proof. intros (a & s' & Ha & Hk). unfold vwp, mbind, V_bind. by rewrite Ha. Qed.

Lemma vwp_of_option {A} (o : option A) a (Q : A -> vfs_state W -> Prop) s : o = Some a -> Q a s -> vwp (of_option o) Q s.
Proof. intros -> HQ. by eexists _, _. Qed.

(** the result, the mutex and the tables *)
Definition ends {A} (R : A -> bool -> tables -> Prop) (a : A) s : Prop := exists h t, st h t s /\ R a h t.

Lemma tst_vwp {A} h t (m : V W A) (R : A -> bool -> tables -> Prop) s : st h t s -> tst h t m R -> vwp m (ends R) s.
Proof. intros Hs Hm. by apply Hm. Qed.

Lemma vwp_tables {A} h t (m : V W A) h' t' (P : A -> Prop) (Q : A -> vfs_state W -> Prop) s :
  st h t s -> tst h t m (fun a h1 t1 => P a /\ h1 = h' /\ t1 = t') -> (forall a s', P a -> st h' t' s' -> Q a s') -> vwp m Q s.
Proof. intros Hs Hm HQ. destruct (Hm s Hs) as (a & s' & Ha & h1 & t1 & Hs' & HP & -> & ->). exists a, s'. auto. Qed.

Lemma vwp_named t n p fs ops arg (Q : unit -> vfs_state W -> Prop) s :
  named t n p s -> kind_ok fs ops -> (forall s', st true (t <| devs ::= <[n := Some (mk_dev p fs ops)]> |>) s' -> Q tt s') ->
  vwp (node_upd n (fun d => d <| i_type := if fs then VFS_TYPE_FS_DEV else VFS_TYPE_CHAR_DEV |>
    <| i_ops := Some ops |> <| i_arg := arg |>)) Q s.
Proof.
  intros (d & s0 & Hs0 & Hd & ->) Hk HQ. pose proof (st_register _ _ _ _ _ p fs ops arg Hs0 Hd Hk) as Hst.
  eexists _, _. split; [|by apply HQ]. unfold node_upd, node_get, mbind, V_bind. cbn.
  rewrite list_lookup_insert_eq by by eapply lookup_lt_Some. unfold modify. by rewrite set_node_twice.
Qed.

(** the reservation of a node, with what follows when it fails and when it succeeds *)
Lemma tst_bind_reserve {A} t path (k : Z * option nat -> V W A) (R : A -> bool -> tables -> Prop) :
  (forall e, e <> VFS_SUCCESS -> (forall fs ops, register_spec t path fs ops e t) -> tst true t (k (e, None)) R) ->
  (forall p n s, path = Some p -> p !! 0%nat = Some SEP -> first_free (devs t) = Some n -> named t n p s ->
    vwp (k (VFS_SUCCESS, Some n)) (ends R) s) ->
  tst true t (inode_reserve path ≫= k) R.
Proof.
  intros Hf Hk s Hs. unfold mbind, V_bind.
  destruct (reserve_spec _ _ path _ Hs) as [(e & s' & -> & Hs' & He)|(p & n & d & s0 & -> & Hp & Hn & Hs0 & Hd & ->)].
  - apply Hf; [|unfold register_spec|done].
    + destruct path; [destruct (decide _)|]; by subst.
    + intros fs ops. destruct path; [|done]. destruct (decide _); [|done]. destruct (first_free _); auto.
  - eapply Hk; [done|done|done|]. by exists d, s0.
Qed.

(** the end of a registration *)
Lemma tst_end_register t ret node (R : Z -> bool -> tables -> Prop) :
  R ret false t ->
  tst true t (err ← aos_mutex_unlock; if decide (err <> 0) then unregister_node node;; mret err else mret ret) R.
Proof. intros HR. apply tst_bind, tst_unlock. rewrite decide_False by (intros Hne; by apply Hne). by apply tst_ret. Qed.

Lemma tst_register_driver t path ops arg : kind_ok false ops ->
  tst false t (aos_register_driver path (Some ops) arg)
    (fun a h' t' => h' = false /\ call_spec (RegDriver path ops arg) t (Status a) t').
Proof.
  intros Hk. apply tst_bind, tst_lock. rewrite decide_False by (intros Hne; by apply Hne). cbn [call_spec].
  apply tst_bind_reserve.
  - intros e He Hr. rewrite decide_False by done. apply tst_bind, tst_ret, tst_end_register. eauto.
  - intros p n s -> Hp Hn Hs. rewrite decide_True by done.
    set (t' := t <| devs ::= <[n := Some (mk_dev p false ops)]> |>).
    assert (Hspec : forall r, r = VFS_SUCCESS \/ r = - ENOMEM -> register_spec t (Some p) false ops r t').
    { intros r Hr. unfold register_spec. rewrite decide_True by done. rewrite Hn. right. split; [|done]. destruct Hr; auto. }
    apply vwp_bind, vwp_bind. eapply vwp_of_option; [done|]. apply vwp_bind. eapply (vwp_named _ _ _ false); [done|done|].
    intros s' Hs'. eapply (vwp_tables _ _ _ true t' (fun r => r = VFS_SUCCESS \/ r = - ENOMEM)); [exact Hs'| |].
    + assert (Hlt : (n < 25)%nat). { pose proof (st_lengths _ _ _ _ Hs') as [Hl _]. cbn in Hl. rewrite length_insert in Hl.
        apply first_free_Some, lookup_lt_Some in Hn. lia. }
      apply tst_bind, tst_mutex_new; apply tst_bind.
      * apply tst_node_same; [done|done|]. apply tst_ret. auto.
      * apply tst_ret, tst_ret. auto.
    + intros r s2 Hr Hs2. eapply tst_vwp; [exact Hs2|]. apply tst_end_register. split; [done|]. exists r. auto.
Qed.

Lemma tst_register_fs t path ops arg : kind_ok true ops ->
  tst false t (aos_register_fs path (Some ops) arg)
    (fun a h' t' => h' = false /\ call_spec (RegFs path ops arg) t (Status a) t').
Proof.
  intros Hk. apply tst_bind, tst_lock. rewrite decide_False by (intros Hne; by apply Hne). cbn [call_spec].
  apply tst_bind_reserve.
  - intros e He Hr. rewrite decide_False by done. apply tst_bind, tst_ret, tst_end_register. eauto.
  - intros p n s -> Hp Hn Hs. rewrite decide_True by done.
    apply vwp_bind, vwp_bind. eapply vwp_of_option; [done|]. eapply (vwp_named _ _ _ true); [done|done|].
    intros s' Hs'. eapply tst_vwp; [exact Hs'|]. apply tst_end_register. split; [done|]. eexists. split; [done|].
    unfold register_spec. rewrite decide_True by done. rewrite Hn. right. auto.
Qed.

(** ** Taking away *)

(** A node is taken out of the table of paths when no file is open on it. *)
Lemma tst_inode_del h t n d (R : Z -> bool -> tables -> Prop) :
  devs t !! n = Some (Some d) ->
  (Some n ∈ fds t -> R (- EBUSY) h t) -> (Some n ∉ fds t -> R VFS_SUCCESS h (t <| devs ::= <[n := None]> |>)) ->
  tst h t (inode_del n) R.
Proof.
  intros Hd Hb Hr s Hs. destruct (st_dev _ _ _ _ _ _ Hs Hd) as (nd & Hnd & Hok & Hu & Hdev & Href).
  destruct (node_dev_Some drivers nd Hok Hu) as (name & ops & Hname & Hops & _).
  unfold inode_del. apply vwp_bind. exists nd, s. split; [unfold node_get; by rewrite Hnd|].
  pose proof (count_bound n (fds t)) as Hcb. pose proof (count_zero n (fds t)) as Hcz. destruct (decide (0 < refs nd)) as [Hp|Hp].
  - eapply tst_vwp; [exact Hs|]. apply tst_ret, Hb. destruct (decide (Some n ∈ fds t)) as [|Hno]; [done|]. apply Hcz in Hno. lia.
  - assert (Hz : refs nd = 0) by lia. rewrite decide_True by done. rewrite Hname. apply vwp_bind, vwp_bind.
    eapply (vwp_tables h t _ h t (fun _ => True)); [done|by apply tst_free|]. intros _ s2 _ Hs2.
    destruct (st_dev _ _ _ _ _ _ Hs2 Hd) as (nd2 & Hnd2 & Hok2 & Hu2 & Hdev2 & Href2).
    unfold node_upd, node_get. apply vwp_bind. exists nd2, s2. rewrite Hnd2. split; [done|].
    eexists _, _. split; [done|]. eapply tst_vwp; [|by apply tst_ret, Hr, Hcz; lia].
    eapply st_set; [done|done|done|left; done|right; apply Hcz; lia|done].
Qed.

Lemma tst_unregister t path :
  tst false t (aos_unregister_driver path) (fun a h' t' => h' = false /\ call_spec (Unregister path) t (Status a) t').
Proof.
  apply tst_bind, tst_lock. rewrite decide_False by (intros Hne; by apply Hne). cbn [call_spec].
  set (R := fun a h' t' => _).
  assert (Hend : forall r t', R r false t' -> tst true t' (err ← aos_mutex_unlock; if decide (err <> 0) then mret err else mret r) R).
  { intros r t' HR. apply tst_bind, tst_unlock. rewrite decide_False by (intros Hne; by apply Hne). by apply tst_ret. }
  apply tst_bind. destruct path as [path|]; [|apply tst_ret, Hend; split; [done|by eexists]].
  apply tst_bind, tst_inode_open. destruct (lookup_path (devs t) path) as [n|] eqn:Hp.
  - destruct (lookup_path_Some _ _ _ Hp) as (d & Hd & _). apply tst_bind. eapply tst_inode_del; [done|..]; intros Hin.
    + rewrite decide_True by done. apply tst_ret, Hend. split; [done|]. eexists. split; [done|]. by rewrite decide_True.
    + rewrite decide_False by done. apply tst_ret, Hend. split; [done|]. eexists. split; [done|]. by rewrite decide_False.
  - apply tst_ret, Hend. split; [done|]. eexists. split; [done|]. done.
Qed.
End reg.
End VfsReg.
