(* ===== verification/VfsFacts.v ===== *)
(** * The device file system as a whole

    Any sequence of calls after the start is a run of the two tables of [VfsSpec]; opening and
    closing; and two things the code does that its callers do not expect. *)
From S2P Require Import Prelude Errno Vfs VfsSpec VfsInv VfsLogic VfsOps VfsReg.
Import Errno Vfs VfsSpec VfsInv VfsLogic VfsOps VfsReg.

Module VfsFacts.

(** ** Sequences of calls *)

Section runs.
Context {W : Type} (drivers : positive -> option (driver W)).
Implicit Types (s : vfs_state W) (t : tables) (c : vfs_call) (a : vfs_answer).

Definition run (c : vfs_call) : V W vfs_answer :=
  match c with
  | Open path flags => Status <$> aos_open drivers path flags
  | Close fd => Status <$> aos_close drivers fd
  | Read fd n => (fun r => Bytes r.1 r.2) <$> aos_read drivers fd n
  | Write fd b => Status <$> aos_write drivers fd b
  | Ioctl fd cmd arg => Status <$> aos_ioctl drivers fd cmd arg
  | Lseek fd o w => Status <$> aos_lseek drivers fd o w
  | Sync fd => Status <$> aos_sync drivers fd
  | Stat path => (fun r => Bytes r.1 r.2) <$> aos_stat drivers path
  | Unlink path => Status <$> aos_unlink drivers path
  | Rename o n => Status <$> aos_rename drivers o n
  | Mkdir path => Status <$> aos_mkdir drivers path
  | OpenDir path => Dir <$> aos_opendir drivers path
  | ReadDir dir => Entry <$> aos_readdir drivers dir
  | CloseDir dir => Status <$> aos_closedir drivers dir
  | RegDriver path ops arg => Status <$> aos_register_driver path (Some ops) arg
  | RegFs path ops arg => Status <$> aos_register_fs path (Some ops) arg
  | Unregister path => Status <$> aos_unregister_driver path
  end.

(** Devices are registered with functions of devices, file systems with those of file systems. *)
Definition call_ok (c : vfs_call) : Prop :=
  match c with RegDriver _ ops _ => kind_ok drivers false ops | RegFs _ ops _ => kind_ok drivers true ops | _ => True end.

Fixpoint run_all (cs : list vfs_call) : V W (list vfs_answer) :=
  match cs with
  | [] => mret []
  | c :: cs => a ← run c; l ← run_all cs; mret (a :: l)
  end.

(** a run of the tables, with the answers it may give *)
Inductive tables_run : tables -> list vfs_call -> list vfs_answer -> tables -> Prop :=
| run_nil t : tables_run t [] [] t
| run_cons t c a t1 cs l t2 : call_spec c t a t1 -> tables_run t1 cs l t2 -> tables_run t (c :: cs) (a :: l) t2.

(** a system just started *)
Definition no_tables : tables := mk_tables (replicate 25 None) (replicate 50 None).

Lemma tst_run c t : call_ok c -> tst drivers false t (run c) (fun a h' t' => h' = false /\ call_spec c t a t').
Proof.
  intros Hc. destruct c; cbn [run]; apply tst_fmap;
    eauto using tst_open, tst_close, tst_read, tst_write, tst_ioctl, tst_lseek, tst_sync, tst_stat, tst_unlink, tst_rename,
      tst_mkdir, tst_opendir, tst_readdir, tst_closedir, tst_register_driver, tst_register_fs, tst_unregister.
Qed.

Lemma tst_run_all cs t : Forall call_ok cs ->
  tst drivers false t (run_all cs) (fun l h' t' => h' = false /\ tables_run t cs l t').
Proof.
  intros Hcs. revert t. induction Hcs as [|c cs Hc Hcs IH]; intros t; [by apply tst_ret; split; [|constructor]|].
  apply tst_bind. eapply tst_mono; [by apply tst_run|]. intros a h1 t1 [-> Ha]. apply tst_bind.
  eapply tst_mono; [apply IH|]. intros l h2 t2 [-> Hl]. apply tst_ret. split; [done|]. by econstructor.
Qed.

Lemma tables_ok_start : tables_ok drivers (replicate 25 zero_inode) (replicate 50 None).
Proof.
  split; [done|done|..].
  - intros n d [-> _]%lookup_replicate. symmetry. apply count_zero. by intros Hin%elem_of_replicate_inv.
  - intros f n Hf. by apply lookup_replicate in Hf as [? _].
  - intros n d [-> _]%lookup_replicate. by left.
Qed.

(** The start fails without memory, or leaves the tables empty. *)
Lemma vfs_init_st (w : W) fails r s : vfs_init ((start_state w) <| mem_fails := fails |>) = Some (r, s) ->
  r = - ENOMEM \/ r = VFS_SUCCESS /\ st drivers false no_tables s.
Proof.
  unfold vfs_init, mbind, V_bind, gets. rewrite decide_False by done.
  assert (Hnew : exists b s', aos_mutex_new ((start_state w) <| mem_fails := fails |>) = Some (if (b : bool) then 0 else - ENOMEM, s') /\
    f_node <$> files s' = replicate 50 None).
  { unfold aos_mutex_new, new_block, mbind, V_bind. by destruct fails as [|[|] fails]; cbn; [exists true|exists false|exists true]; eexists. }
  destruct Hnew as ([|] & s' & -> & Hf).
  - rewrite decide_False by (intros Hne; by apply Hne). unfold inode_init, modify, mbind, V_bind, mret, V_ret.
    intros [= <- <-]. right. split; [done|]. split; [done| |unfold abs; cbn -[replicate]; by rewrite Hf].
    cbn -[replicate]. rewrite Hf. exact tables_ok_start.
  - rewrite decide_True by done. intros [= <- <-]. by left.
Qed.

Lemma count_files n (l : list file_t) : count n (f_node <$> l) = Z.of_nat (length (filter (fun f => f_node f = Some n) l)).
Proof.
  unfold count. f_equal. induction l as [|f l IH]; [done|]. rewrite fmap_cons, !filter_cons. repeat case_decide; cbn; congruence.
Qed.

Lemma run_all_ok (w : W) fails s cs :
  vfs_init ((start_state w) <| mem_fails := fails |>) = Some (VFS_SUCCESS, s) -> Forall call_ok cs ->
  exists l s', run_all cs s = Some (l, s') /\ st drivers false (abs s') s' /\ tables_run no_tables cs l (abs s').
Proof.
  intros Hi Hcs. destruct (vfs_init_st _ _ _ _ Hi) as [Hr|[_ Hs]]; [by vm_compute in Hr|].
  destruct (tst_run_all _ _ Hcs s Hs) as (l & s' & Hl & h' & t' & Hs' & -> & Hrun). exists l, s'. split; [done|].
  pose proof (st_abs _ _ _ _ Hs') as Ha. by rewrite Ha.
Qed.

(** ** The properties *)

(** C20: from the start on, any sequence of calls ends without doing anything undefined, and its
    answers and effects are those of two tables, one of registered paths and one of descriptors,
    whatever the drivers answer and whichever allocations fail: which node a path names, which
    descriptor is given, which calls are refused and with which error. *)
Theorem vfs_refines_tables (w : W) fails s cs :
  vfs_init ((start_state w) <| mem_fails := fails |>) = Some (VFS_SUCCESS, s) -> Forall call_ok cs ->
  exists l s', run_all cs s = Some (l, s') /\ g_vfs_mutex s' = Some false /\ tables_run no_tables cs l (abs s').
Proof.
  intros Hi Hcs. destruct (run_all_ok _ _ _ _ Hi Hcs) as (l & s' & Hl & Hs' & Hrun). exists l, s'. split; [done|].
  split; [apply Hs'|done].
Qed.

(** C21: after any sequence of calls the count of a node is the number of the files open on it,
    and a node with open files is registered, with a name and the functions of its kind: no
    descriptor is left that stands for a node that was taken away. *)
Theorem vfs_refs_exact (w : W) fails s cs l s' :
  vfs_init ((start_state w) <| mem_fails := fails |>) = Some (VFS_SUCCESS, s) -> Forall call_ok cs ->
  run_all cs s = Some (l, s') ->
  (forall n d, g_vfs_dev_nodes s' !! n = Some d -> refs d = Z.of_nat (length (filter (fun f => f_node f = Some n) (files s')))) /\
  (forall f fl n, files s' !! f = Some fl -> f_node fl = Some n -> exists d name ops,
     g_vfs_dev_nodes s' !! n = Some d /\ 0 < refs d /\ i_name d = Some name /\ i_ops d = Some ops /\
     kind_ok drivers (INODE_IS_FS d) ops).
Proof.
  intros Hi Hcs Hl. destruct (run_all_ok _ _ _ _ Hi Hcs) as (l2 & s2 & Hl2 & Hs2 & _). simplify_eq.
  pose proof (st_tables _ _ _ _ Hs2) as Ht.
  assert (Hcount : forall n d, g_vfs_dev_nodes s' !! n = Some d -> refs d = Z.of_nat (length (filter (fun f => f_node f = Some n) (files s')))).
  { intros n d Hd. rewrite (to_refs _ _ _ Ht _ _ Hd). apply count_files. }
  split; [done|]. intros f fl n Hf Hn.
  assert (Hfd : (f_node <$> files s') !! f = Some (Some n)) by by rewrite list_lookup_fmap, Hf, <- Hn.
  destruct (to_open _ _ _ Ht _ _ Hfd) as (d & Hd & Hu). pose proof (to_node _ _ _ Ht _ _ Hd) as Hok.
  destruct (node_dev_Some drivers d Hok Hu) as (name & ops & Hname & Hops & Hdev). exists d, name, ops.
  destruct (tables_ok_close drivers _ _ _ _ _ Ht Hd Hfd) as [_ Hpos]. do 4 (split; [done|]).
  destruct (node_ok_kind drivers d _ Hok Hu Hdev) as [_ Hk]. rewrite Hops in Hk. exact Hk.
Qed.

(** C22: closing what an open opened brings the tables back to what they were, and the
    descriptor is unknown again. *)
Theorem vfs_open_close_roundtrip s path flags fd s1 :
  vfs_ok drivers s -> aos_open drivers path flags s = Some (fd, s1) -> abs s1 <> abs s ->
  exists s2, aos_close drivers fd s1 = Some (VFS_SUCCESS, s2) /\ vfs_ok drivers s2 /\ abs s2 = abs s /\
    aos_close drivers fd s2 = Some (- ENOSYS, s2).
Proof.
  intros Hs%vfs_ok_st Hopen Hne. destruct (tst_open drivers _ path flags s Hs) as (a & s1' & Ha & h1 & t1 & Hs1 & -> & r & [= <-] & Hp).
  simplify_eq. pose proof (st_abs _ _ _ _ Hs1) as Ha1. subst t1.
  destruct path as [path|]; [|tauto]. case_decide; [tauto|].
  destruct (lookup_path (devs (abs s)) path) as [n|]; [|tauto]. destruct (first_free (fds (abs s))) as [f|] eqn:Hff; [|tauto].
  destruct Hp as [[-> Habs]|[_ ?]]; [|done]. pose proof (first_free_Some _ _ Hff) as Hnone. pose proof (lookup_lt_Some _ _ _ Hnone) as Hlt.
  assert (Hfd : forall t, lookup_fd t (get_fd f) = match fds t !! f with Some (Some _) => Some f | _ => None end).
  { intros t. unfold lookup_fd, get_fd. rewrite decide_True by lia.
    by replace (Z.to_nat (Z.of_nat f + AOS_CONFIG_VFS_FD_OFFSET - AOS_CONFIG_VFS_FD_OFFSET)) with f by lia. }
  destruct (tst_close drivers _ (get_fd f) s1 Hs1) as (r2 & s2 & Hr2 & h2 & t2 & Hs2 & -> & Hc). cbn in Hc.
  rewrite Habs, Hfd in Hc. cbn in Hc. rewrite list_lookup_insert_eq in Hc by done. destruct Hc as [[= ->] ->].
  rewrite tables_reopen in Hs2 by done. exists s2. split; [done|]. pose proof (st_abs _ _ _ _ Hs2) as Ha2.
  split; [apply vfs_ok_st; by rewrite Ha2|]. split; [done|].
  unfold aos_close, mbind, V_bind. rewrite (get_file_st drivers false (abs s)) by done. by rewrite Hfd, Hnone.
Qed.

(** C24: two tasks that close the same descriptor at once can both have found it open before
    either has come to the section under the mutex, where the code does not look again: the
    first one to get there closes the file, and the other follows a pointer that is [NULL]. *)
Theorem vfs_close_twice_undefined s fd f :
  vfs_ok drivers s -> get_file fd s = Some (Some f, s) ->
  exists s', close_file f s = Some (VFS_SUCCESS, s') /\ vfs_ok drivers s' /\ get_file fd s' = Some (None, s') /\ close_file f s' = None.
Proof.
  intros Hs%vfs_ok_st Hf. rewrite (get_file_st _ _ _ _ _ Hs) in Hf. injection Hf as Hf.
  destruct (lookup_fd_opened _ _ _ _ _ _ Hs Hf) as (n & d & Ho & _). pose proof (lookup_lt_Some _ _ _ Ho) as Hlt.
  assert (Hfd : lookup_fd ((abs s) <| fds ::= <[f := None]> |>) fd = None).
  { unfold lookup_fd in *. destruct (decide _); [|done]. destruct (fds (abs s) !! _) as [[m|]|]; simplify_eq.
    cbn. by rewrite list_lookup_insert_eq. }
  assert (Hclose : tst drivers false (abs s) (close_file f)
    (fun r h t => r = VFS_SUCCESS /\ h = false /\ t = (abs s) <| fds ::= <[f := None]> |>)).
  { apply tst_locked, tst_bind. eapply tst_del_file; [exact Ho|]. by apply tst_ret. }
  destruct (Hclose s Hs) as (r & s' & Hr & h' & t' & Hs' & -> & -> & ->). exists s'. split; [done|].
  pose proof (st_abs _ _ _ _ Hs') as Ha. split; [apply vfs_ok_st; by rewrite Ha|].
  split; [by rewrite (get_file_st _ _ _ _ _ Hs'), Hfd|].
  assert (Hnone : fds (abs s') !! f = Some None) by (rewrite Ha; cbn; by rewrite list_lookup_insert_eq).
  cbn in Hnone. rewrite list_lookup_fmap in Hnone. apply fmap_Some in Hnone as (fl & Hfl & Hnode).
  unfold close_file, locked, aos_mutex_lock, del_file, file_get, mbind, V_bind, gets. rewrite (st_mutex _ _ _ _ Hs').
  unfold modify, of_option, mret, V_ret. rewrite decide_False by (intros Hne; by apply Hne). cbn [files].
  change (files (s' <| g_vfs_mutex := Some true |>)) with (files s').
  rewrite Hfl. by rewrite <- Hnode.
Qed.
End runs.

(** ** On concrete drivers *)

Definition no_dev : file_ops unit := mk_file_ops unit None None None None None.

(** a file system in which every file is there *)
Definition demo_fs : fs_ops unit :=
  mk_fs_ops unit None None None None None None (Some (fun _ v w => ((VFS_SUCCESS, [1]), v, w))) None None None None None None None.

Definition demo_drivers (p : positive) : option (driver unit) :=
  match p with 1%positive => Some (Dev no_dev) | 2%positive => Some (Fs demo_fs) | _ => None end.

(** /dev and /sd, a file in /sd and one in a directory of it *)
Definition dev_path : list Z := [47; 100; 101; 118].
Definition sd_path : list Z := [47; 115; 100].
Definition sd_file : list Z := sd_path ++ [47; 97].
Definition sd_sub : list Z := sd_path ++ [47; 98; 47; 97].

#[local] Notation fst_of o := (match o with Some (a, _) => a | None => [] end).
#[local] Notation snd_of o := (match o with Some (_, s) => s | None => start_state tt end).
Definition started : vfs_state unit := snd_of (vfs_init ((start_state tt) <| mem_fails := [] |>)).

Definition demo_calls : list vfs_call :=
  [RegDriver (Some dev_path) 1 7; RegFs (Some sd_path) 2 8; Open (Some dev_path) 0; Open (Some sd_file) 2;
   Unregister (Some sd_path); Write 64 [1; 2]; Stat (Some sd_sub); Close 65; Close 65; Unregister (Some sd_path);
   Stat (Some sd_file)].

Lemma demo_calls_ok : Forall (call_ok demo_drivers) demo_calls.
Proof. by repeat constructor; eexists. Qed.

Lemma vfs_started_ok : vfs_init ((start_state tt) <| mem_fails := [] |>) = Some (VFS_SUCCESS, started).
Proof. vm_compute. reflexivity. Qed.

Lemma vfs_refines_tables_witness : exists l s',
  run_all demo_drivers demo_calls started = Some (l, s') /\ 
  l = [Status 0; Status 0; Status 64; Status 65; Status (- EBUSY); Status (-1); Bytes 0 [1]; Status 0; Status (- ENOSYS);
       Status 0; Bytes (- ENODEV) []] /\ tables_run no_tables demo_calls l (abs s').
Proof.
  destruct (vfs_refines_tables demo_drivers tt [] started demo_calls vfs_started_ok demo_calls_ok)
    as (l & s' & Hl & _ & Hrun). exists l, s'. split; [exact Hl|]. split; [|exact Hrun].
  clear - Hl.  apply (f_equal (fun o => fst_of o)) in Hl. rewrite <- Hl. vm_compute. reflexivity.
Defined.

(** after the two registrations, and after an open *)
Definition mounted : vfs_state unit := snd_of (run_all demo_drivers (take 2 demo_calls) started).
Definition after_open : vfs_state unit := snd_of (run_all demo_drivers (take 3 demo_calls) started).

Lemma calls_ok cs s l : Forall (call_ok demo_drivers) cs -> run_all demo_drivers cs started = Some (l, s) -> vfs_ok demo_drivers s.
Proof.
  intros Hcs Hl. destruct (run_all_ok _ _ _ _ _ vfs_started_ok Hcs) as (l2 & s2 & Hl2 & Hs2 & _).
  rewrite Hl in Hl2. injection Hl2 as <- <-. by apply vfs_ok_st.
Qed.

Lemma mounted_ok : vfs_ok demo_drivers mounted.
Proof.
  eapply (calls_ok (take 2 demo_calls)); [by repeat constructor; eexists|]. vm_compute. reflexivity.
Qed.

Lemma after_open_ok : vfs_ok demo_drivers after_open.
Proof.
  eapply (calls_ok (take 3 demo_calls)); [by repeat constructor; eexists|]. vm_compute. reflexivity.
Qed.

Lemma vfs_refs_exact_witness : exists l,
  run_all demo_drivers (take 3 demo_calls) started = Some (l, after_open) /\
  exists d name ops, g_vfs_dev_nodes after_open !! 0%nat = Some d /\ 0 < refs d /\ i_name d = Some name /\ i_ops d = Some ops /\
    kind_ok demo_drivers (INODE_IS_FS d) ops.
Proof.
  eexists. split; [vm_compute; reflexivity|].
  refine (proj2 (vfs_refs_exact demo_drivers tt [] started (take 3 demo_calls) _ after_open vfs_started_ok _ _) 0%nat (mk_file (Some 0%nat) 0 0) 0%nat _ _).
  - by repeat constructor; eexists.
  - vm_compute. reflexivity.
  - vm_compute. reflexivity.
  - reflexivity.
Defined.

Lemma vfs_open_close_roundtrip_witness : exists s1 s2,
  aos_open demo_drivers (Some sd_file) 2 mounted = Some (64, s1) /\ abs s1 <> abs mounted /\
  aos_close demo_drivers 64 s1 = Some (VFS_SUCCESS, s2) /\ abs s2 = abs mounted.
Proof.
  assert (Hopen : exists s1, aos_open demo_drivers (Some sd_file) 2 mounted = Some (64, s1) /\ fds (abs s1) <> fds (abs mounted)).
  { eexists. split; [vm_compute; reflexivity|]. by vm_compute. }
  destruct Hopen as (s1 & Hopen & Hne). assert (Hne' : abs s1 <> abs mounted) by congruence.
  destruct (vfs_open_close_roundtrip demo_drivers mounted (Some sd_file) 2 64 s1 mounted_ok Hopen Hne') as (s2 & Hs2 & _ & Ha & _).
  exists s1, s2. exact (conj Hopen (conj Hne' (conj Hs2 Ha))).
Defined.

Lemma vfs_close_twice_undefined_witness : exists s',
  get_file 64 after_open = Some (Some 0%nat, after_open) /\ close_file 0 after_open = Some (VFS_SUCCESS, s') /\ close_file 0 s' = None.
Proof.
  assert (Hf : get_file 64 after_open = Some (Some 0%nat, after_open)) by (vm_compute; reflexivity).
  destruct (vfs_close_twice_undefined demo_drivers after_open 64 0 after_open_ok Hf) as (s' & Hs' & _ & _ & Hn).
  exists s'. exact (conj Hf (conj Hs' Hn)).
Defined.

End VfsFacts.
