(* ===== verification/Kernel.v ===== *)
(** * The kernel's state ([k_obj.c], [k_internal.h], [k_task.h], [k_obj.h], [k_critical.h])

    One record holds every global of the kernel and the objects it links: tasks are keyed
    by [tid], blocking objects (semaphores, mutexes, queues, buffer queues, events) by
    [oid], the address of their [blk_obj_t].  A pointer is an [option]; [NULL] is [None].
    A kernel function is a [K A]: from a state it gives a result and the state it leaves,
    or nothing when it dereferences a pointer to no object, leaves an array, or does not
    terminate. *)
From S2P Require Import Prelude Config.
From S2P Require Ringbuf.

Definition tid := positive.
Definition oid := positive.
Definition sid := positive.
Definition addr := positive.

(** ** Enumerations *)

Inductive task_stat_t : Set :=
| K_SEED | K_RDY | K_PEND | K_SUSPENDED | K_PEND_SUSPENDED | K_SLEEP | K_SLEEP_SUSPENDED
| K_DELETED.
#[export] Instance task_stat_eq_dec : EqDecision task_stat_t.
Proof. solve_decision. Defined.

Inductive blk_policy_t : Set := BLK_POLICY_PRI | BLK_POLICY_FIFO.
#[export] Instance blk_policy_eq_dec : EqDecision blk_policy_t.
Proof. solve_decision. Defined.

Inductive blk_state_t : Set := BLK_FINISH | BLK_ABORT | BLK_TIMEOUT | BLK_DEL | BLK_INVALID.
#[export] Instance blk_state_eq_dec : EqDecision blk_state_t.
Proof. solve_decision. Defined.

Inductive kobj_type_t : Set :=
| RHINO_OBJ_TYPE_NONE | RHINO_SEM_OBJ_TYPE | RHINO_MUTEX_OBJ_TYPE | RHINO_QUEUE_OBJ_TYPE
| RHINO_BUF_QUEUE_OBJ_TYPE | RHINO_TIMER_OBJ_TYPE | RHINO_EVENT_OBJ_TYPE
| RHINO_MM_BLK_OBJ_TYPE | RHINO_MM_OBJ_TYPE.
#[export] Instance kobj_type_eq_dec : EqDecision kobj_type_t.
Proof. solve_decision. Defined.

(** ** Objects *)

Record ktask_t := mk_ktask {
  task_stack : Z;
  user_info : list Z;
  task_stack_base : option addr;
  stack_size : Z;
  suspend_count : Z;                (* uint8_t *)
  mutex_list : option oid;          (* first of the mutexes it holds *)
  tick_match : Z;
  tick_remain : Z;
  tick_head : bool;                 (* tick_head != NULL *)
  msg : Z;                          (* the message received, or the receive buffer *)
  bq_msg_size : Z;
  task_state : task_stat_t;
  blk_state : blk_state_t;
  blk_obj : option oid;
  task_sem_obj : option oid;
  time_slice : Z;
  time_total : Z;
  pend_flags : Z;
  pend_info : option addr;
  pend_option : Z;
  sched_policy : Z;
  prio : Z;
  b_prio : Z;
  mm_alloc_flag : Z;
}.
#[export] Instance ktask_settable : Settable ktask_t := fun k =>
  mk_ktask (task_stack k) (user_info k) (task_stack_base k) (stack_size k) (suspend_count k) (mutex_list k) (tick_match k) (tick_remain k)
    (tick_head k) (msg k) (bq_msg_size k) (task_state k) (blk_state k) (blk_obj k)
    (task_sem_obj k) (time_slice k) (time_total k) (pend_flags k) (pend_info k)
    (pend_option k) (sched_policy k) (prio k) (b_prio k) (mm_alloc_flag k).

Record blk_obj_t := mk_blk_obj {
  blk_list : list tid;
  blk_policy : blk_policy_t;
  obj_type : kobj_type_t;
  handle : option sid;
}.
#[export] Instance blk_obj_settable : Settable blk_obj_t := fun o =>
  mk_blk_obj (blk_list o) (blk_policy o) (obj_type o) (handle o).

Record ksem_t := mk_ksem { count : Z; peak_count : Z; sem_mm_alloc_flag : Z }.
#[export] Instance ksem_settable : Settable ksem_t := fun o =>
  mk_ksem (count o) (peak_count o) (sem_mm_alloc_flag o).

Record kmutex_t := mk_kmutex {
  mutex_task : option tid;
  mutex_next : option oid;          (* the field mutex_list: next mutex of the owner *)
  owner_nested : Z;                 (* mutex_nested_t, a uint32_t *)
  mutex_mm_alloc_flag : Z;
}.
#[export] Instance kmutex_settable : Settable kmutex_t := fun o =>
  mk_kmutex (mutex_task o) (mutex_next o) (owner_nested o) (mutex_mm_alloc_flag o).

Record kevent_t := mk_kevent { flags : Z; event_mm_alloc_flag : Z }.
#[export] Instance kevent_settable : Settable kevent_t := fun o =>
  mk_kevent (flags o) (event_mm_alloc_flag o).

(** Message counters of a queue, its ring buffer and the address of its memory. *)
Record kqueue_t := mk_kqueue {
  q_ringbuf : Ringbuf.Ringbuf.k_ringbuf_t;
  queue_start : addr;
  q_size : Z;
  q_cur_num : Z;
  q_peak_num : Z;
  queue_mm_alloc_flag : Z;
}.
#[export] Instance kqueue_settable : Settable kqueue_t := fun o =>
  mk_kqueue (q_ringbuf o) (queue_start o) (q_size o) (q_cur_num o) (q_peak_num o) (queue_mm_alloc_flag o).

Record kbuf_queue_t := mk_kbuf_queue {
  buf : addr;
  bq_ringbuf : Ringbuf.Ringbuf.k_ringbuf_t;
  max_msg_size : Z;
  bq_cur_num : Z;
  bq_peak_num : Z;
  min_free_buf_size : Z;
  buf_queue_mm_alloc_flag : Z;
}.
#[export] Instance kbuf_queue_settable : Settable kbuf_queue_t := fun o =>
  mk_kbuf_queue (buf o) (bq_ringbuf o) (max_msg_size o) (bq_cur_num o) (bq_peak_num o)
    (min_free_buf_size o) (buf_queue_mm_alloc_flag o).

(** The ready queue.  [cur_list_item] holds, per priority, the tasks of the circular list
    from the current item on; the empty list is the NULL pointer. *)
Record runqueue_t := mk_runqueue {
  cur_list_item : list (list tid);
  task_bit_map : list Z;
  highest_pri : Z;
}.
#[export] Instance runqueue_settable : Settable runqueue_t := fun r =>
  mk_runqueue (cur_list_item r) (task_bit_map r) (highest_pri r).

(** The lists of live objects kept for statistics. *)
Record kobj_list_t := mk_kobj_list {
  task_list_head : list tid;
  mutex_list_head : list oid;
  sem_list_head : list oid;
  event_list_head : list oid;
  queue_list_head : list oid;
  buf_queue_list_head : list oid;
  mblkpool_list_head : list addr;
}.
#[export] Instance kobj_list_settable : Settable kobj_list_t := fun r =>
  mk_kobj_list (task_list_head r) (mutex_list_head r) (sem_list_head r) (event_list_head r)
    (queue_list_head r) (buf_queue_list_head r) (mblkpool_list_head r).

(** Pools of memory blocks. *)
Record mblk_pool_t := mk_mblk_pool {
  mblk_obj_type : kobj_type_t;
  blk_size : Z;
  blk_avail : Z;
  blk_whole : Z;
  avail_list : Z;                   (* address of the first free block *)
}.
#[export] Instance mblk_pool_settable : Settable mblk_pool_t := fun o =>
  mk_mblk_pool (mblk_obj_type o) (blk_size o) (blk_avail o) (blk_whole o) (avail_list o).

(** ** The heap *)

(** The head of a heap.  The blocks themselves, with their headers, are words of memory;
    the addresses are numbers and 0 is NULL. *)
Record k_mm_head := mk_mm_head {
  regioninfo : Z;                   (* the first [k_mm_region_info_t] *)
  fixedmblk : Z;                    (* the block that holds the pool of small blocks *)
  used_size : Z;
  maxused_size : Z;
  free_size : Z;
  mm_size_stats : list Z;
  fl_bitmap : Z;
  sl_bitmap : list Z;
  mm_tbl : list (list Z);           (* the first free block of each class *)
}.
#[export] Instance mm_head_settable : Settable k_mm_head := fun h =>
  mk_mm_head (regioninfo h) (fixedmblk h) (used_size h) (maxused_size h) (free_size h)
    (mm_size_stats h) (fl_bitmap h) (sl_bitmap h) (mm_tbl h).

Record mm_sys := mk_mm_sys {
  g_kmm_head : option addr;
  mm_heads : gmap addr k_mm_head;
  alloc_dumped : bool;              (* the static [dumped] of [krhino_mm_alloc] *)
  realloc_dumped : bool;            (* the static [reallocdumped] of [krhino_mm_realloc] *)
}.
#[export] Instance mm_sys_settable : Settable mm_sys := fun m =>
  mk_mm_sys (g_kmm_head m) (mm_heads m) (alloc_dumped m) (realloc_dumped m).

(** ** Timers and work queues *)

Inductive k_timer_state_t : Set := TIMER_DEACTIVE | TIMER_ACTIVE.
#[export] Instance timer_state_eq_dec : EqDecision k_timer_state_t.
Proof. solve_decision. Defined.

Record ktimer_t := mk_ktimer {
  to_head : bool;                   (* to_head != NULL *)
  timer_cb : addr;
  timer_cb_arg : Z;
  tmatch : Z;
  tremain : Z;
  init_count : Z;
  round_ticks : Z;
  priv : option addr;
  timer_obj_type : kobj_type_t;
  timer_state : k_timer_state_t;
  timer_mm_alloc_flag : Z;
}.
#[export] Instance ktimer_settable : Settable ktimer_t := fun o =>
  mk_ktimer (to_head o) (timer_cb o) (timer_cb_arg o) (tmatch o) (tremain o) (init_count o)
    (round_ticks o) (priv o) (timer_obj_type o) (timer_state o) (timer_mm_alloc_flag o).

Record timer_sys := mk_timer_sys {
  g_timer_head : list addr;
  g_timer_count : Z;
  g_timer_queue : oid;
  timers : gmap addr ktimer_t;
}.
#[export] Instance timer_sys_settable : Settable timer_sys := fun o =>
  mk_timer_sys (g_timer_head o) (g_timer_count o) (g_timer_queue o) (timers o).

Record kwork_t := mk_kwork {
  work_handle : addr;
  work_arg : Z;
  dly : Z;
  work_timer : option addr;
  wq : option addr;
  work_exit : Z;
}.
#[export] Instance kwork_settable : Settable kwork_t := fun o =>
  mk_kwork (work_handle o) (work_arg o) (dly o) (work_timer o) (wq o) (work_exit o).

Record kworkqueue_t := mk_kworkqueue {
  work_list : list addr;
  work_current : option addr;
  worker : tid;
  wq_sem : oid;
}.
#[export] Instance kworkqueue_settable : Settable kworkqueue_t := fun o =>
  mk_kworkqueue (work_list o) (work_current o) (worker o) (wq_sem o).

Record work_sys := mk_work_sys {
  g_workqueue_list_head : list addr;
  g_workqueue_default : addr;
  workqueues : gmap addr kworkqueue_t;
  works : gmap addr kwork_t;
}.
#[export] Instance work_sys_settable : Settable work_sys := fun o =>
  mk_work_sys (g_workqueue_list_head o) (g_workqueue_default o) (workqueues o) (works o).

(** ** The kernel *)

Record kstate := mk_kstate {
  g_sys_stat : kstat_t;
  g_idle_task_spawned : Z;
  g_idle_task : tid;
  g_ready_queue : runqueue_t;
  g_sched_lock : Z;                  (* uint8_t *)
  g_intrpt_nested_level : Z;         (* uint8_t *)
  g_preferred_ready_task : option tid;
  g_active_task : option tid;
  g_tick_count : Z;
  g_tick_head : list tid;
  g_sys_time_tick : Z;
  g_kobj_list : kobj_list_t;
  tasks : gmap tid ktask_t;
  blk_objs : gmap oid blk_obj_t;
  sems : gmap oid ksem_t;
  mutexes : gmap oid kmutex_t;
  events : gmap oid kevent_t;
  queues : gmap oid kqueue_t;
  buf_queues : gmap oid kbuf_queue_t;
  kobj_sets : gmap sid oid;          (* the queue embedded in the set *)
  g_res_sem : oid;
  g_res_list : list (list addr);     (* blocks of deleted tasks, to be freed *)
  mblk_pools : gmap addr mblk_pool_t;
  ktimers : timer_sys;
  kworks : work_sys;
  kmm : mm_sys;
  irq_off : bool;                    (* interrupts disabled *)
  err_log : list kstat_t;            (* what [g_err_proc] was called with *)
  umem : gmap addr Z;                (* words at the callers' output addresses *)
  ubufs : gmap addr (list Z);        (* the callers' buffers, of bytes, and stacks, of words *)
  heap_free : list addr;             (* blocks handed to [krhino_mm_free], last first *)
}.
#[export] Instance kstate_settable : Settable kstate := fun s =>
  mk_kstate (g_sys_stat s) (g_idle_task_spawned s) (g_idle_task s) (g_ready_queue s)
    (g_sched_lock s) (g_intrpt_nested_level s) (g_preferred_ready_task s) (g_active_task s)
    (g_tick_count s) (g_tick_head s) (g_sys_time_tick s) (g_kobj_list s) (tasks s)
    (blk_objs s) (sems s) (mutexes s) (events s) (queues s) (buf_queues s) (kobj_sets s)
    (g_res_sem s) (g_res_list s) (mblk_pools s) (ktimers s) (kworks s) (kmm s) (irq_off s) (err_log s) (umem s) (ubufs s) (heap_free s).

(** ** The kernel monad *)

Definition K (A : Type) : Type := kstate -> option (A * kstate).

#[export] Instance K_ret : MRet K := fun A a s => Some (a, s).
#[export] Instance K_bind : MBind K := fun A B f m s =>
  match m s with Some (a, s') => f a s' | None => None end.
#[export] Instance K_fmap : FMap K := fun A B f m s =>
  match m s with Some (a, s') => Some (f a, s') | None => None end.

(** undefined behaviour *)
Definition fault {A} : K A := fun _ => None.
Definition gets {A} (f : kstate -> A) : K A := fun s => Some (f s, s).
Definition modify (f : kstate -> kstate) : K unit := fun s => Some (tt, f s).

(** dereferencing a pointer *)
Definition deref {A} (p : option A) : K A := fun s => a ← p; Some (a, s).

Definition when (b : bool) (m : K unit) : K unit := if b then m else mret tt.

(** ** Access to objects *)

Definition task_get (t : tid) : K ktask_t := fun s => k ← tasks s !! t; Some (k, s).
Definition task_upd (t : tid) (f : ktask_t -> ktask_t) : K unit := fun s =>
  k ← tasks s !! t; Some (tt, s <| tasks ::= <[t := f k]> |>).
Definition blk_get (o : oid) : K blk_obj_t := fun s => b ← blk_objs s !! o; Some (b, s).
Definition blk_upd (o : oid) (f : blk_obj_t -> blk_obj_t) : K unit := fun s =>
  b ← blk_objs s !! o; Some (tt, s <| blk_objs ::= <[o := f b]> |>).
Definition sem_get (o : oid) : K ksem_t := fun s => b ← sems s !! o; Some (b, s).
Definition sem_upd (o : oid) (f : ksem_t -> ksem_t) : K unit := fun s =>
  b ← sems s !! o; Some (tt, s <| sems ::= <[o := f b]> |>).
Definition mutex_get (o : oid) : K kmutex_t := fun s => b ← mutexes s !! o; Some (b, s).
Definition mutex_upd (o : oid) (f : kmutex_t -> kmutex_t) : K unit := fun s =>
  b ← mutexes s !! o; Some (tt, s <| mutexes ::= <[o := f b]> |>).
Definition event_get (o : oid) : K kevent_t := fun s => b ← events s !! o; Some (b, s).
Definition event_upd (o : oid) (f : kevent_t -> kevent_t) : K unit := fun s =>
  b ← events s !! o; Some (tt, s <| events ::= <[o := f b]> |>).
Definition queue_get (o : oid) : K kqueue_t := fun s => b ← queues s !! o; Some (b, s).
Definition queue_upd (o : oid) (f : kqueue_t -> kqueue_t) : K unit := fun s =>
  b ← queues s !! o; Some (tt, s <| queues ::= <[o := f b]> |>).
Definition buf_queue_get (o : oid) : K kbuf_queue_t := fun s => b ← buf_queues s !! o; Some (b, s).
Definition buf_queue_upd (o : oid) (f : kbuf_queue_t -> kbuf_queue_t) : K unit := fun s =>
  b ← buf_queues s !! o; Some (tt, s <| buf_queues ::= <[o := f b]> |>).

(** the task that runs *)
Definition active : K tid := a ← gets g_active_task; deref a.

(** [\*p = v] through an output pointer *)
Definition store (p : addr) (v : Z) : K unit := modify (fun s => s <| umem ::= <[p := v]> |>).

(** [klist_rm(&task->task_list)] for a task linked in the list of a blocking object *)
Definition blk_list_rm (t : tid) : K unit :=
  modify (fun s => s <| blk_objs ::= fmap (fun b => b <| blk_list ::= list_rm t |>) |>).

(** ** Errors and critical sections *)

Definition k_err_proc (err : kstat_t) : K unit := modify (fun s => s <| err_log ::= cons err |>).

Definition krhino_mm_free (p : addr) : K unit := modify (fun s => s <| heap_free ::= cons p |>).

(** The interrupt state is saved in the caller's [cpsr] and restored from it. *)
Definition RHINO_CRITICAL_ENTER : K bool :=
  cpsr ← gets irq_off; modify (fun s => s <| irq_off := true |>);; mret cpsr.

Definition RHINO_CRITICAL_EXIT (cpsr : bool) : K unit := modify (fun s => s <| irq_off := cpsr |>).

(** [return stat] after leaving the critical section *)
Definition exit_ret (cpsr : bool) (stat : kstat_t) : K kstat_t :=
  RHINO_CRITICAL_EXIT cpsr;; mret stat.

(** A call either returns a status or leaves its task blocked. *)
Inductive kret := Ret (stat : kstat_t) | Pending.

(** ** Total correctness

    [wp m Q s]: from [s], [m] terminates without undefined behaviour in a result and a
    state that satisfy [Q]. *)

Definition wp {A} (m : K A) (Q : A -> kstate -> Prop) (s : kstate) : Prop :=
  match m s with Some (a, s') => Q a s' | None => False end.

Lemma wp_elim {A} (m : K A) Q s : wp m Q s -> exists a s', m s = Some (a, s') /\ Q a s'.
Proof. unfold wp. destruct (m s) as [[a s']|]; [|done]. eauto. Qed.

Lemma wp_intro {A} (m : K A) Q s a s' : m s = Some (a, s') -> Q a s' -> wp m Q s.
Proof. unfold wp. by intros ->. Qed.

Lemma wp_run {A} (m : K A) Q s a s' : wp m Q s -> m s = Some (a, s') -> Q a s'.
Proof. unfold wp. intros H Hr. by rewrite Hr in H. Qed.

Lemma wp_ret {A} (a : A) Q s : Q a s -> wp (mret a) Q s.
Proof. done. Qed.

Lemma wp_bind {A B} (m : K A) (f : A -> K B) Q s :
  wp m (fun a s' => wp (f a) Q s') s -> wp (m ≫= f) Q s.
Proof. unfold wp, mbind, K_bind. by destruct (m s) as [[a s']|]. Qed.

Lemma wp_mono {A} (m : K A) (P Q : A -> kstate -> Prop) s :
  wp m P s -> (forall a s', P a s' -> Q a s') -> wp m Q s.
Proof. unfold wp. destruct (m s) as [[a s']|]; [|done]. eauto. Qed.

Lemma wp_gets {A} (f : kstate -> A) Q s : Q (f s) s -> wp (gets f) Q s.
Proof. done. Qed.

Lemma wp_modify f Q s : Q tt (f s) -> wp (modify f) Q s.
Proof. done. Qed.

Lemma wp_deref {A} (p : option A) a Q s : p = Some a -> Q a s -> wp (deref p) Q s.
Proof. by intros ->. Qed.

Lemma wp_active a Q s : g_active_task s = Some a -> Q a s -> wp active Q s.
Proof. intros Ha HQ. unfold active. apply wp_bind, wp_gets. by eapply wp_deref. Qed.

Lemma wp_task_get t k Q s : tasks s !! t = Some k -> Q k s -> wp (task_get t) Q s.
Proof. unfold wp, task_get. intros ->. done. Qed.
Lemma wp_task_upd t f k Q s :
  tasks s !! t = Some k -> Q tt (s <| tasks ::= <[t := f k]> |>) -> wp (task_upd t f) Q s.
Proof. unfold wp, task_upd. intros ->. done. Qed.
Lemma wp_blk_get o b Q s : blk_objs s !! o = Some b -> Q b s -> wp (blk_get o) Q s.
Proof. unfold wp, blk_get. intros ->. done. Qed.
Lemma wp_blk_upd o f b Q s :
  blk_objs s !! o = Some b -> Q tt (s <| blk_objs ::= <[o := f b]> |>) -> wp (blk_upd o f) Q s.
Proof. unfold wp, blk_upd. intros ->. done. Qed.
Lemma wp_sem_get o b Q s : sems s !! o = Some b -> Q b s -> wp (sem_get o) Q s.
Proof. unfold wp, sem_get. intros ->. done. Qed.
Lemma wp_sem_upd o f b Q s :
  sems s !! o = Some b -> Q tt (s <| sems ::= <[o := f b]> |>) -> wp (sem_upd o f) Q s.
Proof. unfold wp, sem_upd. intros ->. done. Qed.
Lemma wp_mutex_get o b Q s : mutexes s !! o = Some b -> Q b s -> wp (mutex_get o) Q s.
Proof. unfold wp, mutex_get. intros ->. done. Qed.
Lemma wp_mutex_upd o f b Q s :
  mutexes s !! o = Some b -> Q tt (s <| mutexes ::= <[o := f b]> |>) -> wp (mutex_upd o f) Q s.
Proof. unfold wp, mutex_upd. intros ->. done. Qed.
Lemma wp_event_get o b Q s : events s !! o = Some b -> Q b s -> wp (event_get o) Q s.
Proof. unfold wp, event_get. intros ->. done. Qed.
Lemma wp_event_upd o f b Q s :
  events s !! o = Some b -> Q tt (s <| events ::= <[o := f b]> |>) -> wp (event_upd o f) Q s.
Proof. unfold wp, event_upd. intros ->. done. Qed.
Lemma wp_queue_get o b Q s : queues s !! o = Some b -> Q b s -> wp (queue_get o) Q s.
Proof. unfold wp, queue_get. intros ->. done. Qed.
Lemma wp_queue_upd o f b Q s :
  queues s !! o = Some b -> Q tt (s <| queues ::= <[o := f b]> |>) -> wp (queue_upd o f) Q s.
Proof. unfold wp, queue_upd. intros ->. done. Qed.
Lemma wp_buf_queue_get o b Q s : buf_queues s !! o = Some b -> Q b s -> wp (buf_queue_get o) Q s.
Proof. unfold wp, buf_queue_get. intros ->. done. Qed.
Lemma wp_buf_queue_upd o f b Q s :
  buf_queues s !! o = Some b -> Q tt (s <| buf_queues ::= <[o := f b]> |>) -> wp (buf_queue_upd o f) Q s.
Proof. unfold wp, buf_queue_upd. intros ->. done. Qed.

Lemma wp_when (P : Prop) {D : Decision P} m Q s :
  (P -> wp m Q s) -> (~ P -> Q tt s) -> wp (when (bool_decide P) m) Q s.
Proof. intros H1 H2. unfold when. case_bool_decide; [auto|]. apply wp_ret. auto. Qed.

(** ** Equality of states, field by field *)

Lemma kstate_ext s s' :
  g_sys_stat s = g_sys_stat s' -> g_idle_task_spawned s = g_idle_task_spawned s' ->
  g_idle_task s = g_idle_task s' -> g_ready_queue s = g_ready_queue s' ->
  g_sched_lock s = g_sched_lock s' -> g_intrpt_nested_level s = g_intrpt_nested_level s' ->
  g_preferred_ready_task s = g_preferred_ready_task s' -> g_active_task s = g_active_task s' ->
  g_tick_count s = g_tick_count s' -> g_tick_head s = g_tick_head s' ->
  g_sys_time_tick s = g_sys_time_tick s' -> g_kobj_list s = g_kobj_list s' ->
  tasks s = tasks s' -> blk_objs s = blk_objs s' -> sems s = sems s' -> mutexes s = mutexes s' ->
  events s = events s' -> queues s = queues s' -> buf_queues s = buf_queues s' ->
  kobj_sets s = kobj_sets s' -> g_res_sem s = g_res_sem s' -> g_res_list s = g_res_list s' ->
  mblk_pools s = mblk_pools s' -> ktimers s = ktimers s' -> kworks s = kworks s' -> kmm s = kmm s' ->
  irq_off s = irq_off s' -> err_log s = err_log s' ->
  umem s = umem s' -> ubufs s = ubufs s' -> heap_free s = heap_free s' ->
  s = s'.
Proof. destruct s, s'; cbn; intros; by subst. Qed.

Ltac kstate_eq := apply kstate_ext; cbn; rewrite ?insert_insert_eq; reflexivity.
