(* ===== verification/Sched.v ===== *)
(** * The scheduler ([k_sched.c], [k_sched.h])

    The ready queue is an array of circular lists, one per priority, with a bitmap of the
    non-empty ones and the smallest of them cached in [highest_pri]. *)
From S2P Require Import Prelude Config Kernel.
From S2P Require Bitmap.
Import Bitmap.Bitmap.

Module Sched.
Section sched.
Context {cfg : RhinoConfig}.

(** ** The ready queue *)

Definition rq_mod (f : runqueue_t -> runqueue_t) : K unit :=
  modify (fun s => s <| g_ready_queue ::= f |>).

(** [rq->cur_list_item[pri]], an array access *)
Definition ring_get (pri : Z) : K (list tid) := fun s =>
  r ← cur_list_item (g_ready_queue s) !! Z.to_nat pri; Some (r, s).

Definition ring_set (pri : Z) (r : list tid) : K unit :=
  rq_mod (fun rq => rq <| cur_list_item ::= <[Z.to_nat pri := r]> |>).

Definition runqueue_init : K unit :=
  rq_mod (fun rq => rq <| highest_pri := RHINO_CONFIG_PRI_MAX |>
                       <| cur_list_item := replicate (Z.to_nat RHINO_CONFIG_PRI_MAX) [] |>).

Definition is_ready_list_empty (pri : Z) : K bool :=
  r ← ring_get pri; mret (bool_decide (r = [])).

Definition ready_list_init (task : tid) : K unit :=
  k ← task_get task;
  ring_set (prio k) [task];;
  rq ← gets g_ready_queue;
  bm ← deref (krhino_bitmap_set (task_bit_map rq) (prio k));
  rq_mod (fun rq => rq <| task_bit_map := bm |>);;
  when (bool_decide (prio k < highest_pri rq))
    (rq_mod (fun rq => rq <| highest_pri := prio k |>)).

(** insertion before the current item, which is the end of the circular list *)
Definition ready_list_add_tail (task : tid) : K unit :=
  k ← task_get task;
  empty ← is_ready_list_empty (prio k);
  if (empty : bool) then ready_list_init task
  else r ← ring_get (prio k); ring_set (prio k) (r ++ [task]).

(** the same, and the new item becomes the current one *)
Definition ready_list_add_head (task : tid) : K unit :=
  k ← task_get task;
  empty ← is_ready_list_empty (prio k);
  if (empty : bool) then ready_list_init task
  else r ← ring_get (prio k); ring_set (prio k) (task :: r).

Definition ready_list_add (task : tid) : K unit :=
  a ← active;
  ka ← task_get a;
  k ← task_get task;
  if decide (prio k = prio ka) then ready_list_add_tail task else ready_list_add_head task.

Definition ready_list_rm (task : tid) : K unit :=
  k ← task_get task;
  let pri := prio k in
  r ← ring_get pri;
  match r with
  | [] => fault                               (* cur_list_item[pri]->next on NULL *)
  | x :: (_ :: _) as r' =>
      (* the current item moves on when it is the one removed *)
      let r := if decide (x = task) then tail r ++ [x] else r in
      ring_set pri (list_rm task r)
  | [x] =>
      ring_set pri [];;
      rq ← gets g_ready_queue;
      bm ← deref (krhino_bitmap_clear (task_bit_map rq) pri);
      rq_mod (fun rq => rq <| task_bit_map := bm |>);;
      if decide (pri <> highest_pri rq) then mret tt else
      (* the scan runs off the array when no bit is left *)
      i ← deref (krhino_find_first_bit bm);
      if decide (0 <= i) then rq_mod (fun rq => rq <| highest_pri := i |>)
      else k_err_proc RHINO_SYS_FATAL_ERR
  end.

Definition ready_list_head_to_tail (task : tid) : K unit :=
  k ← task_get task;
  r ← ring_get (prio k);
  match r with
  | [] => fault
  | x :: r' => ring_set (prio k) (r' ++ [x])
  end.

(** the current item of the highest priority *)
Definition preferred_cpu_ready_task_get : K unit :=
  rq ← gets g_ready_queue;
  r ← ring_get (highest_pri rq);
  t ← deref (head r);
  modify (fun s => s <| g_preferred_ready_task := Some t |>).

(** ** Context switch *)

(** the port's switch: the preferred task runs from here on *)
Definition cpu_task_switch : K unit :=
  modify (fun s => s <| g_active_task := g_preferred_ready_task s |>).

Definition core_sched : K unit :=
  cpsr ← RHINO_CRITICAL_ENTER;
  nested ← gets g_intrpt_nested_level;
  if decide (0 < nested) then RHINO_CRITICAL_EXIT cpsr else
  lock ← gets g_sched_lock;
  if decide (0 < lock) then RHINO_CRITICAL_EXIT cpsr else
  preferred_cpu_ready_task_get;;
  preferred ← gets g_preferred_ready_task;
  running ← gets g_active_task;
  if decide (preferred = running) then RHINO_CRITICAL_EXIT cpsr else
  cpu_task_switch;;
  RHINO_CRITICAL_EXIT cpsr.

Definition RHINO_CRITICAL_EXIT_SCHED (cpsr : bool) : K unit :=
  RHINO_CRITICAL_EXIT cpsr;; core_sched.

(** [return stat] after leaving the critical section through the scheduler *)
Definition sched_ret (cpsr : bool) (stat : kstat_t) : K kstat_t :=
  RHINO_CRITICAL_EXIT_SCHED cpsr;; mret stat.

(** [INTRPT_NESTED_LEVEL_CHK()], then the rest of the function *)
Definition INTRPT_NESTED_LEVEL_CHK (cpsr : bool) {A} (ret : kstat_t -> A) (rest : K A) : K A :=
  nested ← gets g_intrpt_nested_level;
  if decide (0 < nested) then ret <$> exit_ret cpsr RHINO_NOT_CALLED_BY_INTRPT else rest.

Definition krhino_sched_disable : K kstat_t :=
  cpsr ← RHINO_CRITICAL_ENTER;
  INTRPT_NESTED_LEVEL_CHK cpsr id (
  lock ← gets g_sched_lock;
  if decide (SCHED_MAX_LOCK_COUNT <= lock) then exit_ret cpsr RHINO_SCHED_LOCK_COUNT_OVF else
  modify (fun s => s <| g_sched_lock ::= fun n => wrap 8 (n + 1) |>);;
  exit_ret cpsr RHINO_SUCCESS).

Definition krhino_sched_enable : K kstat_t :=
  cpsr ← RHINO_CRITICAL_ENTER;
  INTRPT_NESTED_LEVEL_CHK cpsr id (
  lock ← gets g_sched_lock;
  if decide (lock = 0) then exit_ret cpsr RHINO_SCHED_ALREADY_ENABLED else
  modify (fun s => s <| g_sched_lock ::= fun n => wrap 8 (n - 1) |>);;
  lock ← gets g_sched_lock;
  if decide (0 < lock) then exit_ret cpsr RHINO_SCHED_DISABLE else
  sched_ret cpsr RHINO_SUCCESS).

(** ** Round robin *)

Definition time_slice_update (task_pri : Z) : K unit :=
  cpsr ← RHINO_CRITICAL_ENTER;
  r ← ring_get task_pri;
  match r with
  | [] => RHINO_CRITICAL_EXIT cpsr
  | task :: rest =>
      k ← task_get task;
      if decide (sched_policy k = KSCHED_FIFO) then RHINO_CRITICAL_EXIT cpsr else
      if decide (rest = []) then RHINO_CRITICAL_EXIT cpsr else
      when (bool_decide (0 < time_slice k))
        (task_upd task (fun k => k <| time_slice ::= fun n => n - 1 |>));;
      k ← task_get task;
      if decide (0 < time_slice k) then RHINO_CRITICAL_EXIT cpsr else
      ready_list_head_to_tail task;;
      task_upd task (fun k => k <| time_slice := time_total k |>);;
      RHINO_CRITICAL_EXIT cpsr
  end.

(** ** The invariant of the ready queue

    [rq_ok rq R]: the lists hold exactly the tasks and priorities of [R], each task once,
    the bitmap says which lists are not empty, and [highest_pri] is the first of them. *)

Definition ring (rq : runqueue_t) (p : Z) : list tid :=
  default [] (cur_list_item rq !! Z.to_nat p).

Record rq_ok (rq : runqueue_t) (R : tid -> Z -> Prop) : Prop := {
  rq_len : length (cur_list_item rq) = Z.to_nat RHINO_CONFIG_PRI_MAX;
  rq_words : words_ok (task_bit_map rq);
  rq_bm_len : Z.of_nat (length (task_bit_map rq)) = NUM_WORDS;
  rq_bits : forall p, 0 <= p -> bit_at (task_bit_map rq) p = bool_decide (ring rq p <> []);
  rq_nodup : forall p, 0 <= p -> NoDup (ring rq p);
  rq_mem : forall t p, 0 <= p -> t ∈ ring rq p <-> R t p;
  rq_range : forall t p, R t p -> 0 <= p < RHINO_CONFIG_PRI_MAX;
  rq_high : first_bit (task_bit_map rq) (highest_pri rq) \/
            ((forall p, 0 <= p -> ring rq p = []) /\ highest_pri rq = RHINO_CONFIG_PRI_MAX);
}.

Lemma rq_ok_ext rq (R R' : tid -> Z -> Prop) :
  rq_ok rq R -> (forall t p, R t p <-> R' t p) -> rq_ok rq R'.
Proof.
  intros [] HR. split; try done.
  - intros t p Hp. rewrite <- HR. auto.
  - intros t p Hp. apply HR in Hp. eauto.
Qed.

Lemma ring_lookup rq R p :
  rq_ok rq R -> 0 <= p < RHINO_CONFIG_PRI_MAX -> cur_list_item rq !! Z.to_nat p = Some (ring rq p).
Proof.
  intros Hrq Hp. unfold ring. destruct (cur_list_item rq !! Z.to_nat p) eqn:Hl; [done|].
  apply lookup_ge_None in Hl. pose proof (rq_len _ _ Hrq). lia.
Qed.

Lemma ring_out rq R p : rq_ok rq R -> RHINO_CONFIG_PRI_MAX <= p -> ring rq p = [].
Proof.
  intros Hrq Hp. unfold ring. rewrite lookup_ge_None_2; [done|].
  pose proof (rq_len _ _ Hrq). lia.
Qed.

Lemma ring_upd rq R p q r bm h :
  rq_ok rq R -> 0 <= p < RHINO_CONFIG_PRI_MAX -> 0 <= q ->
  ring (mk_runqueue (<[Z.to_nat p := r]> (cur_list_item rq)) bm h) q =
    if decide (q = p) then r else ring rq q.
Proof.
  intros Hrq Hp Hq. unfold ring. cbn. case_decide as Hd.
  - subst. rewrite list_lookup_insert_eq; [done|]. rewrite (rq_len _ _ Hrq). lia.
  - rewrite list_lookup_insert_ne by lia. done.
Qed.

Lemma wp_ring_get p Q s R :
  rq_ok (g_ready_queue s) R -> 0 <= p < RHINO_CONFIG_PRI_MAX ->
  Q (ring (g_ready_queue s) p) s -> wp (ring_get p) Q s.
Proof. intros Hrq Hp HQ. unfold wp, ring_get. by erewrite ring_lookup. Qed.

Lemma in_bitmap_pri rq R p : rq_ok rq R -> 0 <= p < RHINO_CONFIG_PRI_MAX -> in_bitmap (task_bit_map rq) p.
Proof.
  intros Hrq Hp. unfold in_bitmap. rewrite (rq_bm_len _ _ Hrq). unfold NUM_WORDS.
  pose proof (Z.div_mod (RHINO_CONFIG_PRI_MAX + 31) 32 ltac:(lia)).
  pose proof (Z.mod_pos_bound (RHINO_CONFIG_PRI_MAX + 31) 32 ltac:(lia)). lia.
Qed.

(** Replacing a non-empty list by another non-empty one. *)
Lemma rq_ok_replace rq R R' p r :
  rq_ok rq R -> 0 <= p < RHINO_CONFIG_PRI_MAX -> ring rq p <> [] -> r <> [] -> NoDup r ->
  (forall t q, 0 <= q -> R' t q <-> if decide (q = p) then t ∈ r else R t q) ->
  (forall t q, R' t q -> 0 <= q) ->
  rq_ok (rq <| cur_list_item ::= <[Z.to_nat p := r]> |>) R'.
Proof.
  intros Hrq Hp Hne Hr Hnd HR Hpos.
  assert (Hring : forall q, 0 <= q -> ring (rq <| cur_list_item ::= <[Z.to_nat p := r]> |>) q =
    if decide (q = p) then r else ring rq q).
  { intros q Hq. exact (ring_upd rq R p q r (task_bit_map rq) (highest_pri rq) Hrq Hp Hq). }
  pose proof Hrq as []. split; try done.
  - cbn. by rewrite length_insert.
  - intros q Hq. rewrite Hring by done. cbn. rewrite rq_bits0 by done. case_decide; [|done].
    subst. by rewrite !bool_decide_true.
  - intros q Hq. rewrite Hring by done. case_decide; auto.
  - intros t q Hq. rewrite Hring, HR by done. case_decide; auto.
  - intros t q HRt. pose proof (Hpos _ _ HRt). apply HR in HRt; [|done].
    case_decide; [by subst|by eapply rq_range0].
  - destruct rq_high0 as [?|[He ?]]; [by left|]. exfalso. apply Hne, He. lia.
Qed.

(** [rq'] is [rq] with the list of priority [p] replaced by [r]. *)
Definition ring_is (rq rq' : runqueue_t) (p : Z) (r : list tid) : Prop :=
  forall q, 0 <= q -> ring rq' q = if decide (q = p) then r else ring rq q.

(** What adding [t] at priority [p] and removing it do to the relation. *)
Definition plus (R : tid -> Z -> Prop) (t : tid) (p : Z) : tid -> Z -> Prop :=
  fun t' q => R t' q \/ (t' = t /\ q = p).
Definition minus (R : tid -> Z -> Prop) (t : tid) : tid -> Z -> Prop :=
  fun t' q => R t' q /\ t' <> t.

Lemma wp_ready_list_init t k Q s R :
  rq_ok (g_ready_queue s) R -> tasks s !! t = Some k ->
  0 <= prio k < RHINO_CONFIG_PRI_MAX -> ring (g_ready_queue s) (prio k) = [] ->
  (forall rq', rq_ok rq' (plus R t (prio k)) ->
    ring_is (g_ready_queue s) rq' (prio k) [t] -> Q tt (s <| g_ready_queue := rq' |>)) ->
  wp (ready_list_init t) Q s.
Proof.
  intros Hrq Ht Hp Hemp HQ. pose proof Hrq as [].
  destruct (bitmap_set_spec (task_bit_map (g_ready_queue s)) (prio k)) as (bm & Hbm & Hw & Hl & Hb);
    [done|by eapply in_bitmap_pri|].
  unfold ready_list_init. apply wp_bind. eapply wp_task_get; [done|].
  apply wp_bind, wp_modify, wp_bind, wp_gets, wp_bind. cbn.
  eapply wp_deref; [done|]. apply wp_bind, wp_modify.
  set (h := if decide (prio k < highest_pri (g_ready_queue s)) then prio k
            else highest_pri (g_ready_queue s)).
  assert (Hri : ring_is (g_ready_queue s)
    (mk_runqueue (<[Z.to_nat (prio k) := [t]]> (cur_list_item (g_ready_queue s))) bm h) (prio k) [t]).
  { intros q Hq. by apply (ring_upd _ R). }
  assert (Hok : rq_ok (mk_runqueue (<[Z.to_nat (prio k) := [t]]> (cur_list_item (g_ready_queue s))) bm h)
    (plus R t (prio k))).
  { assert (Hmem : forall x, ~ R x (prio k)).
    { intros x Hx. apply rq_mem0 in Hx; [|lia]. rewrite Hemp in Hx. set_solver. }
    split; try done.
    - cbn. by rewrite length_insert.
    - cbn. by rewrite Hl.
    - intros q Hq. rewrite Hri by done. cbn. rewrite Hb, rq_bits0 by done.
      case_decide; [by rewrite !bool_decide_true by done|]. by rewrite (bool_decide_false (q = _)).
    - intros q Hq. rewrite Hri by done. case_decide; [|by apply rq_nodup0]. apply NoDup_singleton.
    - intros x q Hq. rewrite Hri by done. unfold plus. case_decide.
      + subst. specialize (Hmem x). rewrite list_elem_of_singleton. tauto.
      + rewrite rq_mem0 by done. tauto.
    - intros x q [?|[-> ->]]; [by eapply rq_range0|done].
    - left. cbn. unfold h. destruct rq_high0 as [(Hh & Hhb & Hmin)|[He ->]].
      + case_decide; (split; [lia|]; split).
        * rewrite Hb, bool_decide_true by lia. done.
        * intros m Hm. rewrite Hb, bool_decide_false, Hmin by lia. done.
        * rewrite Hb, Hhb by lia. apply orb_true_r.
        * intros m Hm. rewrite Hb, Hmin, bool_decide_false by lia. done.
      + rewrite decide_True by lia. split; [lia|]. split.
        * rewrite Hb, bool_decide_true by lia. done.
        * intros m Hm. rewrite Hb, rq_bits0, He, bool_decide_false by lia. done. }
  unfold when. case_bool_decide as Hc.
  - unfold h in *. rewrite decide_True in Hri, Hok by done. by apply (HQ _ Hok).
  - unfold h in *. rewrite decide_False in Hri, Hok by done. by apply (HQ _ Hok).
Qed.

Lemma wp_is_ready_list_empty p Q s R :
  rq_ok (g_ready_queue s) R -> 0 <= p < RHINO_CONFIG_PRI_MAX ->
  Q (bool_decide (ring (g_ready_queue s) p = [])) s -> wp (is_ready_list_empty p) Q s.
Proof. intros Hrq Hp HQ. unfold is_ready_list_empty. apply wp_bind. by eapply wp_ring_get. Qed.

Lemma rq_ok_add rq R t p r :
  rq_ok rq R -> 0 <= p < RHINO_CONFIG_PRI_MAX -> ring rq p <> [] -> (forall q, ~ R t q) ->
  r ≡ₚ t :: ring rq p ->
  rq_ok (rq <| cur_list_item ::= <[Z.to_nat p := r]> |>) (plus R t p).
Proof.
  intros Hrq Hp Hne Hn Hr. pose proof Hrq as [].
  eapply rq_ok_replace; try done.
  - intros ->. symmetry in Hr. by apply Permutation_nil_r in Hr.
  - rewrite Hr. apply NoDup_cons. split; [|apply rq_nodup0; lia].
    rewrite rq_mem0 by lia. apply Hn.
  - intros x q Hq. unfold plus. case_decide as Hd.
    + subst. rewrite Hr, elem_of_cons, rq_mem0 by lia. tauto.
    + tauto.
  - intros x q [?%rq_range0|[_ ->]]; lia.
Qed.

Lemma wp_ready_list_add_tail t k Q s R :
  rq_ok (g_ready_queue s) R -> tasks s !! t = Some k ->
  0 <= prio k < RHINO_CONFIG_PRI_MAX -> (forall q, ~ R t q) ->
  (forall rq', rq_ok rq' (plus R t (prio k)) ->
    ring_is (g_ready_queue s) rq' (prio k) (ring (g_ready_queue s) (prio k) ++ [t]) ->
    Q tt (s <| g_ready_queue := rq' |>)) ->
  wp (ready_list_add_tail t) Q s.
Proof.
  intros Hrq Ht Hp Hn HQ. unfold ready_list_add_tail.
  apply wp_bind. eapply wp_task_get; [done|]. apply wp_bind.
  eapply wp_is_ready_list_empty; [done..|]. case_bool_decide as He.
  - eapply wp_ready_list_init; try done. intros rq' Hok Hri. apply HQ; [done|]. by rewrite He.
  - apply wp_bind. eapply wp_ring_get; [done..|]. apply wp_modify. apply HQ.
    + eapply rq_ok_add; try done. by rewrite (Permutation_app_comm _ [t]).
    + intros q Hq. by apply (ring_upd _ R).
Qed.

Lemma wp_ready_list_add_head t k Q s R :
  rq_ok (g_ready_queue s) R -> tasks s !! t = Some k ->
  0 <= prio k < RHINO_CONFIG_PRI_MAX -> (forall q, ~ R t q) ->
  (forall rq', rq_ok rq' (plus R t (prio k)) ->
    ring_is (g_ready_queue s) rq' (prio k) (t :: ring (g_ready_queue s) (prio k)) ->
    Q tt (s <| g_ready_queue := rq' |>)) ->
  wp (ready_list_add_head t) Q s.
Proof.
  intros Hrq Ht Hp Hn HQ. unfold ready_list_add_head.
  apply wp_bind. eapply wp_task_get; [done|]. apply wp_bind.
  eapply wp_is_ready_list_empty; [done..|]. case_bool_decide as He.
  - eapply wp_ready_list_init; try done. intros rq' Hok Hri. apply HQ; [done|]. by rewrite He.
  - apply wp_bind. eapply wp_ring_get; [done..|]. apply wp_modify. apply HQ.
    + by eapply rq_ok_add.
    + intros q Hq. by apply (ring_upd _ R).
Qed.

Lemma wp_ready_list_add t k a ka Q s R :
  rq_ok (g_ready_queue s) R -> tasks s !! t = Some k ->
  g_active_task s = Some a -> tasks s !! a = Some ka ->
  0 <= prio k < RHINO_CONFIG_PRI_MAX -> (forall q, ~ R t q) ->
  (forall rq', rq_ok rq' (plus R t (prio k)) ->
    ring_is (g_ready_queue s) rq' (prio k)
      (if decide (prio k = prio ka) then ring (g_ready_queue s) (prio k) ++ [t]
       else t :: ring (g_ready_queue s) (prio k)) ->
    Q tt (s <| g_ready_queue := rq' |>)) ->
  wp (ready_list_add t) Q s.
Proof.
  intros Hrq Ht Ha Hka Hp Hn HQ. unfold ready_list_add.
  apply wp_bind. eapply wp_active; [done|].
  apply wp_bind. eapply wp_task_get; [done|]. apply wp_bind. eapply wp_task_get; [done|].
  case_decide.
  - eapply wp_ready_list_add_tail; try done.
  - eapply wp_ready_list_add_head; try done.
Qed.

(** [R] relates each task to one priority at most; some other task stays in [R]. *)
(** *** Removal of a task that is not the only one *)
Section removal.
Context (s : kstate) (t : tid) (k : ktask_t) (R : tid -> Z -> Prop) (u : tid) (q : Z).
Context (Hrq : rq_ok (g_ready_queue s) R) (HR : R t (prio k)) (Hfun : forall x p p', R x p -> R x p' -> p = p').
Context (Hu : R u q) (Hut : u <> t).
Notation rq := (g_ready_queue s).

(** the ready queue without the only task of a priority *)
Lemma rq_ok_emptied bm h :
  ring rq (prio k) = [t] -> words_ok bm -> length bm = length (task_bit_map rq) ->
  (forall p, 0 <= p -> bit_at bm p = negb (bool_decide (p = prio k)) && bit_at (task_bit_map rq) p) ->
  first_bit bm h ->
  rq_ok (mk_runqueue (<[Z.to_nat (prio k) := []]> (cur_list_item rq)) bm h) (minus R t) /\
  ring_is rq (mk_runqueue (<[Z.to_nat (prio k) := []]> (cur_list_item rq)) bm h) (prio k) [].
Proof.
  intros Hring Hw Hl Hb Hf. pose proof Hrq as []. pose proof (rq_range0 _ _ HR) as Hp.
  assert (Hri : ring_is rq (mk_runqueue (<[Z.to_nat (prio k) := []]> (cur_list_item rq)) bm h) (prio k) []).
  { intros p Hp'. by apply (ring_upd _ R). }
  split; [|done]. split; try done.
  - cbn. by rewrite length_insert.
  - cbn. by rewrite Hl.
  - intros p Hp'. rewrite Hri by done. cbn. rewrite Hb, rq_bits0 by done.
    case_decide; [by rewrite bool_decide_true|]. by rewrite (bool_decide_false (p = _)).
  - intros p Hp'. rewrite Hri by done. case_decide; [apply NoDup_nil_2|by apply rq_nodup0].
  - intros x p Hp'. rewrite Hri by done. unfold minus. case_decide as Hd.
    + subst. split; [set_solver|]. intros [Hx Hne]. apply rq_mem0 in Hx; [|done].
      rewrite Hring in Hx. set_solver.
    + rewrite rq_mem0 by done. split; [|tauto]. intros Hx. split; [done|].
      intros ->. apply Hd. by eapply Hfun.
  - intros x p [? _]. by eapply rq_range0.
  - by left.
Qed.

(** the task was alone in its ring: the bitmap changes, and perhaps the highest priority *)
Lemma wp_rm_only (Q : unit -> kstate -> Prop) :
  ring rq (prio k) = [t] ->
  (forall rq', rq_ok rq' (minus R t) -> ring_is rq rq' (prio k) [] -> Q tt (s <| g_ready_queue := rq' |>)) ->
  wp (ring_set (prio k) [];;
      rq ← gets g_ready_queue;
      bm ← deref (krhino_bitmap_clear (task_bit_map rq) (prio k));
      rq_mod (fun rq => rq <| task_bit_map := bm |>);;
      if decide (prio k <> highest_pri rq) then mret tt else
      i ← deref (krhino_find_first_bit bm);
      if decide (0 <= i) then rq_mod (fun rq => rq <| highest_pri := i |>)
      else k_err_proc RHINO_SYS_FATAL_ERR) Q s.
Proof.
  intros Hring HQ. pose proof Hrq as []. pose proof (rq_range0 _ _ HR) as Hp. pose proof (rq_range0 _ _ Hu) as Hq.
  assert (Hur : u ∈ ring rq q) by (by apply rq_mem0; [lia|]).
  assert (Huq : q <> prio k) by (intros ->; rewrite Hring in Hur; set_solver).
  assert (Huring : ring rq q <> []) by (intros He; rewrite He in Hur; set_solver).
  destruct (bitmap_clear_spec (task_bit_map rq) (prio k)) as (bm & Hbm & Hw & Hl & Hb);
    [done|by eapply in_bitmap_pri|].
  apply wp_bind, wp_modify, wp_bind, wp_gets, wp_bind. cbn.
  eapply wp_deref; [done|]. apply wp_bind, wp_modify.
  destruct rq_high0 as [(Hh & Hhb & Hmin)|[He ?]]; [|exfalso; apply Huring, He; lia].
  case_decide as Hd.
  - apply wp_ret. assert (Hf : first_bit bm (highest_pri rq)).
    { split; [done|]. split; [rewrite Hb, bool_decide_false, Hhb by (done || lia); done|].
      intros m Hm. rewrite Hb, Hmin by lia. apply andb_false_r. }
    destruct (rq_ok_emptied bm (highest_pri rq)) as [Hok Hri]; try done. by apply HQ.
  - apply wp_bind. destruct (krhino_find_first_bit bm) as [i|] eqn:Hi.
    + assert (Hf : first_bit bm i).
      { pose proof (proj1 (find_first_bit_from_spec bm 0 i Hw) Hi) as Hf. by rewrite Z.sub_0_r in Hf. }
      eapply wp_deref; [done|]. rewrite decide_True by (destruct Hf; lia).
      destruct (rq_ok_emptied bm i) as [Hok Hri]; try done. apply wp_modify. by apply HQ.
    + exfalso. apply (find_first_bit_none bm q) in Hi; [|done|lia].
      rewrite Hb, bool_decide_false, rq_bits0, bool_decide_true in Hi by lia || done. done.
Qed.

(** the ring goes on with its other tasks *)
Lemma wp_rm_one x y r (Q : unit -> kstate -> Prop) :
  ring rq (prio k) = x :: y :: r ->
  (forall rq', rq_ok rq' (minus R t) -> ring_is rq rq' (prio k) (list_rm t (x :: y :: r)) -> Q tt (s <| g_ready_queue := rq' |>)) ->
  wp (ring_set (prio k) (list_rm t (if decide (x = t) then (y :: r) ++ [x] else x :: y :: r))) Q s.
Proof.
  intros Hring HQ. pose proof Hrq as []. pose proof (rq_range0 _ _ HR) as Hp.
  assert (Hin : t ∈ x :: y :: r) by (rewrite <- Hring; apply rq_mem0; [lia|done]).
  pose proof (rq_nodup0 (prio k) ltac:(lia)) as Hnd. rewrite Hring in Hnd.
  assert (Heq : list_rm t (if decide (x = t) then (y :: r) ++ [x] else x :: y :: r) = list_rm t (x :: y :: r)).
  { case_decide; [|done]. subst. apply NoDup_cons in Hnd as [Hnd _].
    by rewrite list_rm_app, (list_rm_cons t []), (list_rm_cons t (y :: r)), list_rm_id, app_nil_r
      by (done || set_solver). }
  rewrite Heq. apply wp_modify. apply HQ.
  - eapply rq_ok_replace; try done.
    + by rewrite Hring.
    + pose proof (length_list_rm t (x :: y :: r) Hnd Hin) as Hlen. intros He. by rewrite He in Hlen.
    + by apply NoDup_list_rm.
    + intros z p Hp'. unfold minus. destruct (decide (p = prio k)) as [->|Hd].
      * rewrite elem_of_list_rm, <- (rq_mem0 z (prio k)), Hring by done. done.
      * split; [tauto|]. intros Hz. split; [done|]. intros ->. apply Hd. by eapply Hfun.
    + intros z p [Hz _]. apply rq_range0 in Hz. lia.
  - intros q' Hq'. exact (ring_upd rq R (prio k) q' _ _ _ Hrq Hp Hq').
Qed.
End removal.

Lemma wp_ready_list_rm t k Q s R u q :
  rq_ok (g_ready_queue s) R -> tasks s !! t = Some k ->
  R t (prio k) -> (forall x p p', R x p -> R x p' -> p = p') ->
  R u q -> u <> t ->
  (forall rq', rq_ok rq' (minus R t) ->
    ring_is (g_ready_queue s) rq' (prio k) (list_rm t (ring (g_ready_queue s) (prio k))) ->
    Q tt (s <| g_ready_queue := rq' |>)) ->
  wp (ready_list_rm t) Q s.
Proof.
  intros Hrq Ht HR Hfun Hu Hut HQ. pose proof (rq_range _ _ Hrq _ _ HR) as Hp.
  unfold ready_list_rm. apply wp_bind. eapply wp_task_get; [done|].
  apply wp_bind. eapply wp_ring_get; [done..|].
  assert (Hin : t ∈ ring (g_ready_queue s) (prio k)) by (apply (rq_mem _ _ Hrq); [lia|done]).
  destruct (ring (g_ready_queue s) (prio k)) as [|x [|y r]] eqn:Hring; [set_solver| |].
  - apply list_elem_of_singleton in Hin as <-. rewrite list_rm_cons in HQ by set_solver.
    by eapply (wp_rm_only s t k R u q).
  - by apply (wp_rm_one s t k R u q).
Qed.

(** ** The choice of the scheduler *)

(** the first task of the highest priority that has one *)
Definition top (rq : runqueue_t) (t : tid) : Prop :=
  exists l, ring rq (highest_pri rq) = t :: l.

Lemma top_exists rq R t p : rq_ok rq R -> R t p -> exists u, top rq u /\ R u (highest_pri rq).
Proof.
  intros Hrq HR. pose proof Hrq as []. pose proof (rq_range0 _ _ HR) as Hp.
  destruct rq_high0 as [(Hh & Hb & _)|[He _]].
  - rewrite rq_bits0 in Hb by done. apply bool_decide_eq_true in Hb. unfold top.
    destruct (ring rq (highest_pri rq)) as [|u l] eqn:Hr; [done|]. exists u. split; [eauto|].
    apply rq_mem0; [lia|]. rewrite Hr. set_solver.
  - apply rq_mem0 in HR; [|lia]. rewrite He in HR by lia. set_solver.
Qed.

(** no ready task has a higher priority *)
Lemma top_highest rq R t u p :
  rq_ok rq R -> top rq t -> R u p -> highest_pri rq <= p.
Proof.
  intros Hrq [l Ht] HR. pose proof Hrq as []. pose proof (rq_range0 _ _ HR) as Hp.
  destruct rq_high0 as [(Hh & Hb & Hmin)|[He _]].
  - destruct (decide (highest_pri rq <= p)); [done|]. exfalso.
    specialize (Hmin p ltac:(lia)). rewrite rq_bits0 in Hmin by lia.
    apply rq_mem0 in HR; [|lia]. apply bool_decide_eq_false in Hmin. apply Hmin. intros He.
    rewrite He in HR. set_solver.
  - apply rq_mem0 in HR; [|lia]. rewrite He in HR by lia. set_solver.
Qed.

(** The ready tasks determine the highest priority. *)
Lemma highest_unique rq rq' R t p :
  rq_ok rq R -> rq_ok rq' R -> R t p -> highest_pri rq = highest_pri rq'.
Proof.
  intros Hrq Hrq' HR. destruct (top_exists rq R t p Hrq HR) as (u & Hu & HRu).
  destruct (top_exists rq' R t p Hrq' HR) as (u' & Hu' & HRu').
  apply Z.le_antisymm; [by eapply top_highest|by eapply (top_highest rq')].
Qed.

Lemma high_range rq R t : rq_ok rq R -> top rq t -> 0 <= highest_pri rq < RHINO_CONFIG_PRI_MAX.
Proof.
  intros Hrq [l Ht]. pose proof Hrq as []. pose proof cfg_pri_max.
  destruct rq_high0 as [(Hh & _)|[He Hh]].
  - split; [done|]. destruct (decide (highest_pri rq < RHINO_CONFIG_PRI_MAX)); [done|].
    rewrite (ring_out _ _ _ Hrq) in Ht by lia. done.
  - rewrite He in Ht by lia. done.
Qed.

(** the state in which [t] was chosen and runs *)
Definition run_task (t : tid) (s : kstate) : kstate :=
  s <| g_preferred_ready_task := Some t |> <| g_active_task := Some t |>.

Lemma irq_restore s : s <| irq_off := true |> <| irq_off := irq_off s |> = s.
Proof. by destruct s. Qed.

Lemma wp_critical_enter Q s : Q (irq_off s) (s <| irq_off := true |>) -> wp RHINO_CRITICAL_ENTER Q s.
Proof. done. Qed.

Lemma wp_preferred Q s R t :
  rq_ok (g_ready_queue s) R -> top (g_ready_queue s) t ->
  Q tt (s <| g_preferred_ready_task := Some t |>) -> wp preferred_cpu_ready_task_get Q s.
Proof.
  intros Hrq Ht HQ. unfold preferred_cpu_ready_task_get. apply wp_bind, wp_gets, wp_bind.
  eapply wp_ring_get; [done|by eapply high_range|]. destruct Ht as [l ->].
  apply wp_bind. eapply wp_deref; [done|]. by apply wp_modify.
Qed.

Lemma wp_core_sched Q s R t :
  rq_ok (g_ready_queue s) R -> top (g_ready_queue s) t ->
  (0 < g_intrpt_nested_level s \/ 0 < g_sched_lock s -> Q tt s) ->
  (~ 0 < g_intrpt_nested_level s -> ~ 0 < g_sched_lock s -> Q tt (run_task t s)) ->
  wp core_sched Q s.
Proof.
  intros Hrq Ht H1 H2. unfold core_sched. apply wp_bind, wp_critical_enter.
  apply wp_bind, wp_gets. case_decide; [apply wp_modify; rewrite irq_restore; auto|].
  apply wp_bind, wp_gets. case_decide; [apply wp_modify; rewrite irq_restore; auto|].
  apply wp_bind. eapply wp_preferred; [done..|]. apply wp_bind, wp_gets, wp_bind, wp_gets.
  specialize (H2 ltac:(done) ltac:(done)). case_decide as Hd.
  - apply wp_modify. destruct s; cbn in *; by subst.
  - apply wp_bind, wp_modify, wp_modify. by destruct s.
Qed.

Lemma wp_ready_list_head_to_tail t k Q s R :
  rq_ok (g_ready_queue s) R -> tasks s !! t = Some k ->
  0 <= prio k < RHINO_CONFIG_PRI_MAX ->
  (forall x l rq', ring (g_ready_queue s) (prio k) = x :: l -> rq_ok rq' R ->
    ring_is (g_ready_queue s) rq' (prio k) (l ++ [x]) -> Q tt (s <| g_ready_queue := rq' |>)) ->
  ring (g_ready_queue s) (prio k) <> [] -> wp (ready_list_head_to_tail t) Q s.
Proof.
  intros Hrq Ht Hp HQ Hne. pose proof Hrq as []. unfold ready_list_head_to_tail.
  apply wp_bind. eapply wp_task_get; [done|]. apply wp_bind. eapply wp_ring_get; [done..|].
  destruct (ring (g_ready_queue s) (prio k)) as [|x l] eqn:Hr; [done|].
  apply wp_modify. eapply HQ; [done| |].
  - eapply (rq_ok_replace _ R); try done.
    + by rewrite Hr.
    + by destruct l.
    + pose proof (rq_nodup0 (prio k) ltac:(lia)) as Hnd. rewrite Hr in Hnd.
      by rewrite (Permutation_app_comm _ [x]).
    + intros y q Hq. destruct (decide (q = prio k)) as [->|]; [|done].
      rewrite <- rq_mem0, Hr, (Permutation_app_comm _ [x]) by done. done.
    + intros y q ?%rq_range0. lia.
  - intros q Hq. exact (ring_upd (g_ready_queue s) R (prio k) q _ _ _ Hrq Hp Hq).
Qed.

End sched.
End Sched.
