(* ===== verification/TickList.v ===== *)
(** * The list of timed waits ([k_tick.c]: insertion and removal)

    [g_tick_head] links the tasks that wait with a timeout, nearest deadline first;
    deadlines are absolute tick counts that wrap around. *)
From S2P Require Import Prelude Config Kernel.

Module TickList.
Section ticklist.
Context {cfg : RhinoConfig}.

Definition tick_list_init : K unit := modify (fun s => s <| g_tick_head := [] |>).

(** ticks left until the deadline of [t], as an unsigned difference *)
Definition remain_of (s : kstate) (t : tid) : option Z :=
  k ← tasks s !! t; Some (wrap tick_bits (tick_match k - g_tick_count s)).

Definition tick_list_pri_insert (task : tid) : K unit := fun s =>
  k ← tasks s !! task;
  l ← insert_before (fun q => r ← remain_of s q; Some (bool_decide (tick_remain k < r)))
        task (g_tick_head s);
  Some (tt, s <| g_tick_head := l |>).

Definition tick_list_insert (task : tid) (time : Z) : K unit :=
  if decide (0 < time) then
    now ← gets g_tick_count;
    task_upd task (fun k => k <| tick_match := wrap tick_bits (now + time) |>
                              <| tick_remain := time |>);;
    tick_list_pri_insert task;;
    task_upd task (fun k => k <| tick_head := true |>)
  else mret tt.

Definition tick_list_rm (task : tid) : K unit :=
  k ← task_get task;
  if tick_head k then
    modify (fun s => s <| g_tick_head ::= list_rm task |>);;
    task_upd task (fun k => k <| tick_head := false |>)
  else mret tt.

(** ** The invariant of the list *)

(** ticks left until the deadline of [t] at time [now] *)
Definition rem (T : gmap tid ktask_t) (now : Z) (t : tid) : Z :=
  match T !! t with Some k => wrap tick_bits (tick_match k - now) | None => 0 end.

(** [L] holds the tasks whose [tick_head] is set, each once, nearest deadline first, and
    no deadline has passed. *)
Record tick_ok (L : list tid) (T : gmap tid ktask_t) (now : Z) : Prop := {
  tk_nodup : NoDup L;
  tk_mem : forall t, t ∈ L <-> exists k, T !! t = Some k /\ tick_head k = true;
  tk_sorted : StronglySorted (fun a b => rem T now a <= rem T now b) L;
  tk_pos : forall t, t ∈ L -> 1 <= rem T now t;
}.

Lemma tick_bits_pos : 1 <= tick_bits.
Proof. pose proof cfg_tick_bits. lia. Qed.

(** The list does not see the other fields of a task. *)
Lemma tick_ok_upd L T now t k k' :
  tick_ok L T now -> T !! t = Some k -> tick_head k' = tick_head k -> tick_match k' = tick_match k ->
  tick_ok L (<[t := k']> T) now.
Proof.
  intros [] Ht Hh Hm.
  assert (Hrem : forall u, rem (<[t := k']> T) now u = rem T now u).
  { intros u. unfold rem. destruct (decide (u = t)) as [->|].
    - by rewrite lookup_insert_eq, Ht, Hm.
    - by rewrite lookup_insert_ne. }
  split; [done| | |].
  - intros u. rewrite tk_mem0. destruct (decide (u = t)) as [->|].
    + rewrite lookup_insert_eq, Ht. split; intros (? & [= <-] & ?); eexists; (split; [done|congruence]).
    + by rewrite lookup_insert_ne.
  - eapply StronglySorted_ext; [|done]. intros a b _ _. by rewrite !Hrem.
  - intros u Hu. rewrite Hrem. auto.
Qed.

Lemma tick_ok_rm L T now t k k' :
  tick_ok L T now -> T !! t = Some k -> tick_head k' = false ->
  tick_ok (list_rm t L) (<[t := k']> T) now.
Proof.
  intros [] Ht Hh.
  assert (Hrem : forall u, u ∈ list_rm t L -> rem (<[t := k']> T) now u = rem T now u).
  { intros u [_ Hu]%elem_of_list_rm. unfold rem. by rewrite lookup_insert_ne. }
  split.
  - by apply NoDup_list_rm.
  - intros u. rewrite elem_of_list_rm, tk_mem0. destruct (decide (u = t)) as [->|].
    + rewrite lookup_insert_eq. split; [tauto|]. intros (? & [= <-] & ?). congruence.
    + rewrite lookup_insert_ne by done. tauto.
  - eapply StronglySorted_ext; [|by apply StronglySorted_list_rm].
    intros a b Ha Hb. by rewrite !Hrem.
  - intros u Hu. rewrite Hrem by done. apply elem_of_list_rm in Hu as [Hu _]. auto.
Qed.

Lemma rem_fresh T now t k time :
  T !! t = Some k -> tick_match k = wrap tick_bits (now + time) -> 1 <= time < 2 ^ tick_bits ->
  rem T now t = time.
Proof.
  intros Ht Hm Htime. unfold rem. rewrite Ht, Hm. unfold wrap.
  rewrite Zminus_mod_idemp_l. replace (now + time - now) with time by lia.
  apply Z.mod_small. lia.
Qed.

Lemma tick_list_pri_insert_spec s t k time :
  tick_ok (g_tick_head s) (tasks s) (g_tick_count s) ->
  tasks s !! t = Some k -> tick_head k = false -> 1 <= time < 2 ^ tick_bits ->
  let k1 := k <| tick_match := wrap tick_bits (g_tick_count s + time) |> <| tick_remain := time |> in
  exists l, tick_list_pri_insert t (s <| tasks ::= <[t := k1]> |>) =
      Some (tt, s <| tasks ::= <[t := k1]> |> <| g_tick_head := l |>) /\
    tick_ok l (<[t := k1 <| tick_head := true |>]> (tasks s)) (g_tick_count s).
Proof.
  intros Hok Ht Hh Htime k1. pose proof Hok as [].
  set (T' := <[t := k1 <| tick_head := true |>]> (tasks s)).
  assert (Hnin : t ∉ g_tick_head s).
  { rewrite tk_mem0. intros (? & ? & ?). congruence. }
  assert (Hrem : forall u, u ∈ g_tick_head s -> rem T' (g_tick_count s) u = rem (tasks s) (g_tick_count s) u).
  { intros u Hu. unfold rem, T'. rewrite lookup_insert_ne by (intros ->; done). done. }
  assert (Hrt : rem T' (g_tick_count s) t = time).
  { eapply rem_fresh; [apply lookup_insert_eq|done|done]. }
  set (f := fun q => bool_decide (time < rem T' (g_tick_count s) q)).
  assert (Hscan : forall q, q ∈ g_tick_head s ->
    (r ← remain_of (s <| tasks ::= <[t := k1]> |>) q; Some (bool_decide (tick_remain k1 < r))) = Some (f q)).
  { intros q Hq. unfold remain_of. cbn. rewrite lookup_insert_ne by (intros ->; done).
    pose proof (Hrem q Hq) as Hrq. unfold f. rewrite Hrq. unfold rem.
    apply tk_mem0 in Hq as (kq & -> & _). done. }
  exists (insert_by f t (g_tick_head s)). split.
  - unfold tick_list_pri_insert. cbn [tasks]. cbn. rewrite lookup_insert_eq. cbn.
    rewrite (insert_before_pure _ f) by done. done.
  - split.
    + by apply NoDup_insert_by.
    + intros u. rewrite elem_of_insert_by. destruct (decide (u = t)) as [->|].
      * unfold T'. rewrite lookup_insert_eq. split; [eauto|by left].
      * unfold T'. rewrite lookup_insert_ne, <- tk_mem0 by done. tauto.
    + apply insert_by_sorted.
      * intros y Hy. unfold f. by rewrite Hrt.
      * eapply StronglySorted_ext; [|done]. intros a b Ha Hb. by rewrite !Hrem.
    + intros u. rewrite elem_of_insert_by. intros [->|Hu]; [lia|]. rewrite Hrem by done. auto.
Qed.

Lemma wp_tick_list_insert t k time Q s :
  tick_ok (g_tick_head s) (tasks s) (g_tick_count s) ->
  tasks s !! t = Some k -> tick_head k = false -> 1 <= time < 2 ^ tick_bits ->
  (forall l k', k' = k <| tick_match := wrap tick_bits (g_tick_count s + time) |>
                     <| tick_remain := time |> <| tick_head := true |> ->
     tick_ok l (<[t := k']> (tasks s)) (g_tick_count s) ->
     Q tt (s <| tasks ::= <[t := k']> |> <| g_tick_head := l |>)) ->
  wp (tick_list_insert t time) Q s.
Proof.
  intros Hok Ht Hh Htime HQ. unfold tick_list_insert. rewrite decide_True by lia.
  destruct (tick_list_pri_insert_spec s t k time Hok Ht Hh Htime) as (l & Hl & Hok').
  apply wp_bind, wp_gets, wp_bind. eapply wp_task_upd; [done|].
  apply wp_bind. eapply wp_intro; [exact Hl|].
  eapply wp_task_upd; [apply lookup_insert_eq|].
  specialize (HQ l _ eq_refl Hok').
  match goal with |- Q tt ?x => match type of HQ with Q tt ?y => assert (x = y) as ->; [|done] end end.
  destruct s; cbn. unfold upd; cbn. by rewrite insert_insert_eq.
Qed.

Lemma wp_tick_list_rm t k Q s :
  tick_ok (g_tick_head s) (tasks s) (g_tick_count s) -> tasks s !! t = Some k ->
  (forall l, tick_ok l (<[t := k <| tick_head := false |>]> (tasks s)) (g_tick_count s) ->
     Q tt (s <| tasks ::= <[t := k <| tick_head := false |>]> |> <| g_tick_head := l |>)) ->
  wp (tick_list_rm t) Q s.
Proof.
  intros Hok Ht HQ. unfold tick_list_rm. apply wp_bind. eapply wp_task_get; [done|].
  destruct (tick_head k) eqn:Hh.
  - apply wp_bind, wp_modify. eapply wp_task_upd; [done|].
    apply (HQ (list_rm t (g_tick_head s))). by eapply tick_ok_rm.
  - apply wp_ret. assert (Hk : k <| tick_head := false |> = k) by (destruct k; cbn in *; by subst).
    specialize (HQ (g_tick_head s)). rewrite Hk in HQ.
    match type of HQ with _ -> Q tt ?x => assert (x = s) as Hs end.
    { destruct s; cbn. unfold upd; cbn. by rewrite insert_id. }
    rewrite Hs in HQ. apply HQ. by rewrite insert_id.
Qed.

End ticklist.
End TickList.
