(* ===== verification/Pend.v ===== *)
(** * Blocking on an object and being woken ([k_pend.c]) *)
From S2P Require Import Prelude Config Kernel Sched TickList.
Import Sched TickList.

Module Pend.
Section pend.
Context {cfg : RhinoConfig}.

(** [task] goes before the first waiter of lower priority; the list must not contain a
    dangling node. *)
Definition pend_list_add (o : oid) (task : tid) : K unit := fun s =>
  k ← tasks s !! task;
  b ← blk_objs s !! o;
  l ← insert_before (fun t => kt ← tasks s !! t; Some (bool_decide (prio k < prio kt)))
        task (blk_list b);
  Some (tt, s <| blk_objs ::= <[o := b <| blk_list := l |>]> |>).

Definition pend_task_wakeup (task : tid) : K unit :=
  k ← task_get task;
  match task_state k with
  | K_PEND =>
      blk_list_rm task;;
      ready_list_add task;;
      task_upd task (fun k => k <| task_state := K_RDY |>)
  | K_PEND_SUSPENDED =>
      blk_list_rm task;;
      task_upd task (fun k => k <| task_state := K_SUSPENDED |>)
  | _ => k_err_proc RHINO_SYS_FATAL_ERR
  end;;
  tick_list_rm task;;
  task_upd task (fun k => k <| blk_state := BLK_FINISH |> <| blk_obj := None |>).

Definition pend_to_blk_obj (o : oid) (task : tid) (timeout : Z) : K unit :=
  task_upd task (fun k => k <| blk_obj := Some o |>);;
  when (bool_decide (timeout <> RHINO_WAIT_FOREVER)) (tick_list_insert task timeout);;
  task_upd task (fun k => k <| task_state := K_PEND |>);;
  ready_list_rm task;;
  b ← blk_get o;
  match blk_policy b with
  | BLK_POLICY_FIFO => blk_upd o (fun b => b <| blk_list ::= fun l => l ++ [task] |>)
  | BLK_POLICY_PRI => pend_list_add o task
  end.

Definition pend_task_rm (task : tid) : K unit :=
  k ← task_get task;
  match task_state k with
  | K_PEND =>
      blk_list_rm task;;
      ready_list_add task;;
      task_upd task (fun k => k <| task_state := K_RDY |>)
  | K_PEND_SUSPENDED =>
      blk_list_rm task;;
      task_upd task (fun k => k <| task_state := K_SUSPENDED |>)
  | _ => k_err_proc RHINO_SYS_FATAL_ERR
  end;;
  tick_list_rm task;;
  task_upd task (fun k => k <| blk_state := BLK_DEL |>);;
  task_upd task (fun k => k <| blk_obj := None |>).

Definition pend_list_reorder (task : tid) : K unit :=
  k ← task_get task;
  o ← deref (blk_obj k);
  b ← blk_get o;
  if decide (blk_policy b = BLK_POLICY_PRI) then blk_list_rm task;; pend_list_add o task
  else mret tt.

Definition pend_state_end_proc (task : tid) : K kstat_t :=
  k ← task_get task;
  match blk_state k with
  | BLK_FINISH => mret RHINO_SUCCESS
  | BLK_ABORT => mret RHINO_BLK_ABORT
  | BLK_TIMEOUT => mret RHINO_BLK_TIMEOUT
  | BLK_DEL => mret RHINO_BLK_DEL
  | BLK_INVALID => k_err_proc RHINO_BLK_INV_STATE;; mret RHINO_BLK_INV_STATE
  end.

(** What a blocking call does when its task runs again. *)
Definition pend_resume : K kstat_t :=
  cpsr ← RHINO_CRITICAL_ENTER;
  a ← active;
  stat ← pend_state_end_proc a;
  exit_ret cpsr stat.

(** [while (!is_klist_empty(blk_list_head)) f(first)], with fuel *)
Fixpoint drain (fuel : nat) (o : oid) (f : tid -> K unit) : K unit :=
  match fuel with
  | O => fault
  | S fuel =>
      b ← blk_get o;
      match blk_list b with
      | [] => mret tt
      | task :: _ => f task;; drain fuel o f
      end
  end.

(** one more turn than there are waiters *)
Definition drain_blk_list (o : oid) (f : tid -> K unit) : K unit :=
  b ← blk_get o; drain (S (length (blk_list b))) o f.

End pend.
End Pend.
