(* ===== verification/Inv.v ===== *)
(** * The kernel invariant

    What every kernel call preserves: the ready queue holds exactly the ready tasks at
    their priorities, each blocking object's list exactly the tasks that wait on it, the
    tick list exactly the tasks with a deadline; each mutex is linked in its owner's chain;
    and a task runs at the highest of its base priority and the priorities of the tasks
    that wait for its mutexes. *)
From S2P Require Import Prelude Config Kernel Sched TickList Pend.
Import Sched TickList Pend.

(** ** Views of the task table *)

Definition is_pend (st : task_stat_t) : bool :=
  match st with K_PEND | K_PEND_SUSPENDED => true | _ => false end.

Definition rdy (T : gmap tid ktask_t) (t : tid) (p : Z) : Prop :=
  exists k, T !! t = Some k /\ task_state k = K_RDY /\ prio k = p.

Definition waits (T : gmap tid ktask_t) (o : oid) (t : tid) : Prop :=
  exists k, T !! t = Some k /\ is_pend (task_state k) = true /\ blk_obj k = Some o.

Definition prio_of (T : gmap tid ktask_t) (t : tid) : Z :=
  match T !! t with Some k => prio k | None => 0 end.

Definition live (T : gmap tid ktask_t) (t : tid) : Prop :=
  exists k, T !! t = Some k /\ task_state k <> K_DELETED.

(** [t] owns the mutex [m]. *)
Definition holds (O : gmap oid blk_obj_t) (M : gmap oid kmutex_t) (t : tid) (m : oid) : Prop :=
  exists b mx, O !! m = Some b /\ obj_type b = RHINO_MUTEX_OBJ_TYPE /\
    M !! m = Some mx /\ mutex_task mx = Some t.

(** [l] is the list of mutexes linked from the pointer [p]. *)
Fixpoint chain (M : gmap oid kmutex_t) (p : option oid) (l : list oid) : Prop :=
  match l with
  | [] => p = None
  | m :: l' => p = Some m /\ exists mx, M !! m = Some mx /\ chain M (mutex_next mx) l'
  end.

(** ** Lists of waiters *)

Record bl_ok (O : gmap oid blk_obj_t) (W : oid -> tid -> Prop) (pr : tid -> Z) : Prop := {
  bl_nodup : forall o b, O !! o = Some b -> NoDup (blk_list b);
  bl_mem : forall o b t, O !! o = Some b -> t ∈ blk_list b <-> W o t;
  bl_obj : forall o t, W o t -> is_Some (O !! o);
  bl_sorted : forall o b, O !! o = Some b -> blk_policy b = BLK_POLICY_PRI ->
    StronglySorted (fun x y => pr x <= pr y) (blk_list b);
}.

(** ** Tasks and objects *)

Section inv.
Context {cfg : RhinoConfig}.

Record task_ok (k : ktask_t) : Prop := {
  tok_prio : 0 <= prio k < RHINO_CONFIG_PRI_MAX;
  tok_b_prio : 0 <= b_prio k < RHINO_CONFIG_PRI_MAX;
  tok_seed : task_state k <> K_SEED;
  tok_tick : match task_state k with
             | K_RDY | K_SUSPENDED | K_DELETED => tick_head k = false
             | K_SLEEP | K_SLEEP_SUSPENDED => tick_head k = true
             | _ => True
             end;
  tok_blk : is_pend (task_state k) = true -> is_Some (blk_obj k);
  tok_count : 0 <= suspend_count k < 256;
  tok_suspended : match task_state k with
                  | K_SUSPENDED | K_SLEEP_SUSPENDED | K_PEND_SUSPENDED => 0 < suspend_count k
                  | _ => True
                  end;
}.

(** What an object of each type promises; [has] says whether tasks wait on it. *)
Definition obj_ok (SM : gmap oid ksem_t) (MX : gmap oid kmutex_t) (EV : gmap oid kevent_t)
    (QU : gmap oid kqueue_t) (BQ : gmap oid kbuf_queue_t) (o : oid) (b : blk_obj_t) : Prop :=
  match obj_type b with
  | RHINO_SEM_OBJ_TYPE => exists sm, SM !! o = Some sm /\ 0 <= count sm <= 2 ^ 32 - 1 /\
      (blk_list b <> [] -> count sm = 0)
  | RHINO_MUTEX_OBJ_TYPE => exists mx, MX !! o = Some mx /\ blk_policy b = BLK_POLICY_PRI /\
      (blk_list b <> [] -> mutex_task mx <> None) /\
      (mutex_task mx <> None -> 1 <= owner_nested mx <= 2 ^ 32 - 1)
  | RHINO_EVENT_OBJ_TYPE => exists ev, EV !! o = Some ev /\ 0 <= flags ev < 2 ^ 32
  | RHINO_QUEUE_OBJ_TYPE => exists q, QU !! o = Some q /\ 0 <= q_cur_num q <= q_size q /\
      (blk_list b <> [] -> q_cur_num q = 0)
  | RHINO_BUF_QUEUE_OBJ_TYPE => exists q, BQ !! o = Some q
  | _ => True
  end.

Record kinv_on (rq : runqueue_t) (T : gmap tid ktask_t) (O : gmap oid blk_obj_t)
    (SM : gmap oid ksem_t) (MX : gmap oid kmutex_t) (EV : gmap oid kevent_t)
    (QU : gmap oid kqueue_t) (BQ : gmap oid kbuf_queue_t) (TL : list tid) (now : Z)
    (act : option tid) (idle : tid) : Prop := {
  inv_rq : rq_ok rq (rdy T);
  inv_blk : bl_ok O (waits T) (prio_of T);
  inv_tick : tick_ok TL T now;
  inv_task : forall t k, T !! t = Some k -> task_ok k;
  inv_obj : forall o b, O !! o = Some b -> obj_ok SM MX EV QU BQ o b;
  inv_chain : forall t k, T !! t = Some k -> task_state k <> K_DELETED ->
    exists l, chain MX (mutex_list k) l /\ NoDup l /\ forall m, m ∈ l <-> holds O MX t m;
  inv_owner : forall t m, holds O MX t m -> live T t;
  inv_self : forall t m, holds O MX t m -> ~ waits T m t;
  inv_idle : exists k, T !! idle = Some k /\ task_state k = K_RDY /\ prio k = RHINO_IDLE_PRI /\
    b_prio k = RHINO_IDLE_PRI /\ mutex_list k = None;
  inv_active : exists a, act = Some a /\ is_Some (T !! a);
}.

Definition kinv (s : kstate) : Prop :=
  kinv_on (g_ready_queue s) (tasks s) (blk_objs s) (sems s) (mutexes s) (events s) (queues s)
    (buf_queues s) (g_tick_head s) (g_tick_count s) (g_active_task s) (g_idle_task s).

(** The part of the invariant that is about the queues of tasks. *)
Record qinv (s : kstate) : Prop := {
  q_rq : rq_ok (g_ready_queue s) (rdy (tasks s));
  q_blk : bl_ok (blk_objs s) (waits (tasks s)) (prio_of (tasks s));
  q_tick : tick_ok (g_tick_head s) (tasks s) (g_tick_count s);
  q_task : forall t k, tasks s !! t = Some k -> task_ok k;
  q_idle : exists k, tasks s !! g_idle_task s = Some k /\ task_state k = K_RDY /\ prio k = RHINO_IDLE_PRI /\
    b_prio k = RHINO_IDLE_PRI /\ mutex_list k = None;
  q_act : exists a, g_active_task s = Some a /\ is_Some (tasks s !! a);
}.

Lemma kinv_q s : kinv s -> qinv s.
Proof. intros []. by split. Qed.

(** ** Priority inheritance *)

(** [v] is the priority [t] has to run at. *)
Definition pi_at (T : gmap tid ktask_t) (O : gmap oid blk_obj_t) (M : gmap oid kmutex_t)
    (t : tid) (v : Z) : Prop :=
  exists k, T !! t = Some k /\ v <= b_prio k /\
    (forall m w, holds O M t m -> waits T m w -> v <= prio_of T w) /\
    (v = b_prio k \/ exists m w, holds O M t m /\ waits T m w /\ prio_of T w = v).

Definition pi_inv (s : kstate) : Prop :=
  forall t k, tasks s !! t = Some k -> task_state k <> K_DELETED ->
    pi_at (tasks s) (blk_objs s) (mutexes s) t (prio k).

(** ** Scheduling *)

(** Outside interrupts the running task is ready, and unless the scheduler is locked it is
    the first task of the highest priority that has one. *)
Definition sched_inv (s : kstate) : Prop :=
  g_intrpt_nested_level s = 0 ->
  exists a k, g_active_task s = Some a /\ tasks s !! a = Some k /\ task_state k = K_RDY /\
    (g_sched_lock s = 0 -> top (g_ready_queue s) a).

(** ** Views after an update of one task *)

Lemma rdy_insert T t k x p :
  rdy (<[t := k]> T) x p <->
    (x = t /\ task_state k = K_RDY /\ prio k = p) \/ (x <> t /\ rdy T x p).
Proof.
  unfold rdy. destruct (decide (x = t)) as [->|].
  - rewrite lookup_insert_eq. naive_solver.
  - rewrite lookup_insert_ne by done. naive_solver.
Qed.

Lemma waits_insert T t k o x :
  waits (<[t := k]> T) o x <->
    (x = t /\ is_pend (task_state k) = true /\ blk_obj k = Some o) \/ (x <> t /\ waits T o x).
Proof.
  unfold waits. destruct (decide (x = t)) as [->|].
  - rewrite lookup_insert_eq. naive_solver.
  - rewrite lookup_insert_ne by done. naive_solver.
Qed.

Lemma prio_of_insert T t k x :
  prio_of (<[t := k]> T) x = if decide (x = t) then prio k else prio_of T x.
Proof.
  unfold prio_of. case_decide; [subst; by rewrite lookup_insert_eq|by rewrite lookup_insert_ne].
Qed.

Lemma live_insert T t k x :
  live (<[t := k]> T) x <-> (x = t /\ task_state k <> K_DELETED) \/ (x <> t /\ live T x).
Proof.
  unfold live. destruct (decide (x = t)) as [->|].
  - rewrite lookup_insert_eq. naive_solver.
  - rewrite lookup_insert_ne by done. naive_solver.
Qed.

Lemma rdy_fun T x p p' : rdy T x p -> rdy T x p' -> p = p'.
Proof. intros (k & Hk & _ & <-) (k' & Hk' & _ & <-). congruence. Qed.

Lemma waits_fun T x o o' : waits T o x -> waits T o' x -> o = o'.
Proof. intros (k & Hk & _ & Ho) (k' & Hk' & _ & Ho'). congruence. Qed.

Lemma waits_inj T : forall o o' x, waits T o x -> waits T o' x -> o = o'.
Proof. intros o o' x. apply waits_fun. Qed.

Lemma waits_live T o t : waits T o t -> live T t.
Proof. intros (k & Hk & Hp & _). exists k. split; [done|]. by intros He; rewrite He in Hp. Qed.

(** ** Lists of waiters under removal and insertion *)

Lemma bl_ok_ext O W W' pr pr' :
  bl_ok O W pr -> (forall o t, W o t <-> W' o t) -> (forall o t, W o t -> pr' t = pr t) ->
  bl_ok O W' pr'.
Proof.
  intros [Hnd Hmem Hobj Hs] HW Hpr. split; [done| | |].
  - intros o b t Ho. rewrite (Hmem o b) by done. apply HW.
  - intros o t Ht. apply HW in Ht. eauto.
  - intros o b Ho Hp. eapply StronglySorted_ext; [|by eapply Hs].
    intros x y Hx Hy. apply (Hmem o b) in Hx, Hy; [|done..].
    rewrite (Hpr o x), (Hpr o y) by done. done.
Qed.

Definition blk_rm (t : tid) (O : gmap oid blk_obj_t) : gmap oid blk_obj_t :=
  (fun b => b <| blk_list ::= list_rm t |>) <$> O.

Lemma lookup_blk_rm t O o :
  blk_rm t O !! o = (fun b => b <| blk_list ::= list_rm t |>) <$> (O !! o).
Proof. apply lookup_fmap. Qed.

Lemma bl_ok_rm O W pr t : bl_ok O W pr -> bl_ok (blk_rm t O) (fun o x => W o x /\ x <> t) pr.
Proof.
  intros [Hnd Hmem Hobj Hs]. split.
  - intros o b. rewrite lookup_blk_rm. intros (b0 & Ho & ->)%fmap_Some. apply NoDup_list_rm. eauto.
  - intros o b x. rewrite lookup_blk_rm. intros (b0 & Ho & ->)%fmap_Some. cbn.
    rewrite elem_of_list_rm, (Hmem o b0) by done. done.
  - intros o x [Hx _]. rewrite lookup_blk_rm, fmap_is_Some. eauto.
  - intros o b. rewrite lookup_blk_rm. intros (b0 & Ho & ->)%fmap_Some Hp.
    apply StronglySorted_list_rm. eauto.
Qed.

Lemma bl_ok_add O W pr t o b l :
  bl_ok O W pr -> O !! o = Some b -> (forall o', ~ W o' t) -> l ≡ₚ t :: blk_list b ->
  (blk_policy b = BLK_POLICY_PRI -> StronglySorted (fun x y => pr x <= pr y) l) ->
  bl_ok (<[o := b <| blk_list := l |>]> O) (fun o' x => W o' x \/ (x = t /\ o' = o)) pr.
Proof.
  intros [Hnd Hmem Hobj Hs] Ho Hn Hl Hsort. split.
  - intros o' b'. destruct (decide (o' = o)) as [->|].
    + rewrite lookup_insert_eq. intros [= <-]. cbn. rewrite Hl. constructor; [|by eapply Hnd].
      rewrite (Hmem o b) by done. apply Hn.
    + rewrite lookup_insert_ne by done. apply Hnd.
  - intros o' b' x. destruct (decide (o' = o)) as [->|].
    + rewrite lookup_insert_eq. intros [= <-]. cbn.
      rewrite Hl, elem_of_cons, (Hmem o b) by done. tauto.
    + rewrite lookup_insert_ne by done. intros Hb. rewrite (Hmem o' b') by done. tauto.
  - intros o' x. destruct (decide (o' = o)) as [->|].
    + rewrite lookup_insert_eq. eauto.
    + rewrite lookup_insert_ne by done. intros [?|[_ ?]]; [eauto|done].
  - intros o' b'. destruct (decide (o' = o)) as [->|].
    + rewrite lookup_insert_eq. intros [= <-]. cbn. done.
    + rewrite lookup_insert_ne by done. eauto.
Qed.

(** the list a waiter of priority [pr t] is inserted into by [pend_list_add] *)
Definition pri_insert (pr : tid -> Z) (t : tid) (l : list tid) : list tid :=
  insert_by (fun y => bool_decide (pr t < pr y)) t l.

Lemma wp_pend_list_add o t k b Q s :
  tasks s !! t = Some k -> blk_objs s !! o = Some b ->
  (forall x, x ∈ blk_list b -> is_Some (tasks s !! x)) ->
  Q tt (s <| blk_objs ::= <[o := b <| blk_list := pri_insert (prio_of (tasks s)) t (blk_list b) |>]> |>) ->
  wp (pend_list_add o t) Q s.
Proof.
  intros Ht Ho Hin HQ. unfold wp, pend_list_add. rewrite Ht. cbn. rewrite Ho. cbn.
  rewrite (insert_before_pure _ (fun y => bool_decide (prio_of (tasks s) t < prio_of (tasks s) y))).
  - exact HQ.
  - intros y Hy. destruct (Hin y Hy) as [ky Hky]. unfold prio_of. by rewrite Hky, Ht.
Qed.

(** ** States that differ in the lists and the tasks

    [setq s rq T O L] is [s] with another ready queue, task table, table of blocking
    objects and tick list.  Symbolic execution keeps states in this form. *)

Definition setq (s : kstate) (rq : runqueue_t) (T : gmap tid ktask_t)
    (O : gmap oid blk_obj_t) (L : list tid) : kstate :=
  mk_kstate (g_sys_stat s) (g_idle_task_spawned s) (g_idle_task s) rq
    (g_sched_lock s) (g_intrpt_nested_level s) (g_preferred_ready_task s) (g_active_task s)
    (g_tick_count s) L (g_sys_time_tick s) (g_kobj_list s) T
    O (sems s) (mutexes s) (events s) (queues s) (buf_queues s) (kobj_sets s)
    (g_res_sem s) (g_res_list s) (mblk_pools s) (ktimers s) (kworks s) (kmm s) (irq_off s) (err_log s) (umem s) (ubufs s) (heap_free s).

Lemma setq_id s : setq s (g_ready_queue s) (tasks s) (blk_objs s) (g_tick_head s) = s.
Proof. by destruct s. Qed.

Lemma wp_setq {A} (m : K A) Q s :
  wp m Q (setq s (g_ready_queue s) (tasks s) (blk_objs s) (g_tick_head s)) -> wp m Q s.
Proof. by rewrite setq_id. Qed.

Section setq_rules.
Context (s : kstate) (rq : runqueue_t) (T : gmap tid ktask_t) (O : gmap oid blk_obj_t) (L : list tid).
Notation st := (setq s rq T O L).

Lemma q_task_get t k (Q : ktask_t -> kstate -> Prop) : T !! t = Some k -> Q k st -> wp (task_get t) Q st.
Proof. intros ? HQ. by eapply wp_task_get. Qed.
Lemma q_task_upd t f k (Q : unit -> kstate -> Prop) :
  T !! t = Some k -> Q tt (setq s rq (<[t := f k]> T) O L) -> wp (task_upd t f) Q st.
Proof. intros Ht HQ. by eapply wp_task_upd. Qed.
Lemma q_blk_get o b (Q : blk_obj_t -> kstate -> Prop) : O !! o = Some b -> Q b st -> wp (blk_get o) Q st.
Proof. intros ? HQ. by eapply wp_blk_get. Qed.
Lemma q_blk_upd o f b (Q : unit -> kstate -> Prop) :
  O !! o = Some b -> Q tt (setq s rq T (<[o := f b]> O) L) -> wp (blk_upd o f) Q st.
Proof. intros Ho HQ. by eapply wp_blk_upd. Qed.
Lemma q_active a (Q : tid -> kstate -> Prop) : g_active_task s = Some a -> Q a st -> wp active Q st.
Proof. intros ? HQ. by eapply wp_active. Qed.
Lemma q_blk_list_rm t (Q : unit -> kstate -> Prop) :
  Q tt (setq s rq T (blk_rm t O) L) -> wp (blk_list_rm t) Q st.
Proof. done. Qed.

Lemma q_ready_list_add t k a ka (Q : unit -> kstate -> Prop) R :
  rq_ok rq R -> T !! t = Some k -> g_active_task s = Some a -> T !! a = Some ka ->
  0 <= prio k < RHINO_CONFIG_PRI_MAX -> (forall q, ~ R t q) ->
  (forall rq', rq_ok rq' (plus R t (prio k)) -> Q tt (setq s rq' T O L)) ->
  wp (ready_list_add t) Q st.
Proof. intros ?????? HQ. eapply wp_ready_list_add; try done. intros rq' ? _. by apply HQ. Qed.

Lemma q_ready_list_add_head t k (Q : unit -> kstate -> Prop) R :
  rq_ok rq R -> T !! t = Some k -> 0 <= prio k < RHINO_CONFIG_PRI_MAX -> (forall q, ~ R t q) ->
  (forall rq', rq_ok rq' (plus R t (prio k)) -> Q tt (setq s rq' T O L)) ->
  wp (ready_list_add_head t) Q st.
Proof. intros ???? HQ. eapply wp_ready_list_add_head; try done. intros rq' ? _. by apply HQ. Qed.

Lemma q_ready_list_add_tail t k (Q : unit -> kstate -> Prop) R :
  rq_ok rq R -> T !! t = Some k -> 0 <= prio k < RHINO_CONFIG_PRI_MAX -> (forall q, ~ R t q) ->
  (forall rq', rq_ok rq' (plus R t (prio k)) -> Q tt (setq s rq' T O L)) ->
  wp (ready_list_add_tail t) Q st.
Proof. intros ???? HQ. eapply wp_ready_list_add_tail; try done. intros rq' ? _. by apply HQ. Qed.

Lemma q_ready_list_rm t k (Q : unit -> kstate -> Prop) R u p :
  rq_ok rq R -> T !! t = Some k -> R t (prio k) -> (forall x p p', R x p -> R x p' -> p = p') ->
  R u p -> u <> t ->
  (forall rq', rq_ok rq' (minus R t) -> Q tt (setq s rq' T O L)) ->
  wp (ready_list_rm t) Q st.
Proof. intros ?????? HQ. eapply wp_ready_list_rm; try done. intros rq' ? _. by apply HQ. Qed.

Lemma q_tick_list_rm t k (Q : unit -> kstate -> Prop) :
  tick_ok L T (g_tick_count s) -> T !! t = Some k ->
  (forall L', tick_ok L' (<[t := k <| tick_head := false |>]> T) (g_tick_count s) ->
     Q tt (setq s rq (<[t := k <| tick_head := false |>]> T) O L')) ->
  wp (tick_list_rm t) Q st.
Proof. intros ?? HQ. by eapply wp_tick_list_rm. Qed.

Lemma q_tick_list_insert t k time (Q : unit -> kstate -> Prop) :
  tick_ok L T (g_tick_count s) -> T !! t = Some k -> tick_head k = false ->
  1 <= time < 2 ^ tick_bits ->
  (forall L' k', k' = k <| tick_match := wrap tick_bits (g_tick_count s + time) |>
                        <| tick_remain := time |> <| tick_head := true |> ->
     tick_ok L' (<[t := k']> T) (g_tick_count s) -> Q tt (setq s rq (<[t := k']> T) O L')) ->
  wp (tick_list_insert t time) Q st.
Proof. intros ???? HQ. by eapply wp_tick_list_insert. Qed.

Lemma q_pend_list_add o t k b (Q : unit -> kstate -> Prop) :
  T !! t = Some k -> O !! o = Some b -> (forall x, x ∈ blk_list b -> is_Some (T !! x)) ->
  Q tt (setq s rq T (<[o := b <| blk_list := pri_insert (prio_of T) t (blk_list b) |>]> O) L) ->
  wp (pend_list_add o t) Q st.
Proof. intros ??? HQ. by eapply wp_pend_list_add. Qed.
End setq_rules.

(** The rest of the objects: what a change of the lists keeps. *)
Definition shape (b : blk_obj_t) : blk_policy_t * kobj_type_t * option sid :=
  (blk_policy b, obj_type b, handle b).

Definition same_shape (O O' : gmap oid blk_obj_t) : Prop :=
  forall o, shape <$> (O' !! o) = shape <$> (O !! o).

Lemma same_shape_lookup O O' o b' :
  same_shape O O' -> O' !! o = Some b' ->
  exists b, O !! o = Some b /\ shape b = shape b'.
Proof.
  intros Hs Ho. specialize (Hs o). rewrite Ho in Hs. cbn in Hs.
  destruct (O !! o) as [b|]; [|done]. exists b. split; [done|]. cbn in Hs. congruence.
Qed.

Lemma same_shape_sym O O' : same_shape O O' -> same_shape O' O.
Proof. intros Hs o. by rewrite Hs. Qed.

Lemma same_shape_trans O1 O2 O3 : same_shape O1 O2 -> same_shape O2 O3 -> same_shape O1 O3.
Proof. intros H1 H2 o. by rewrite (H2 o), (H1 o). Qed.

Lemma holds_same_shape O O' M t m : same_shape O O' -> holds O' M t m <-> holds O M t m.
Proof.
  intros Hs. split; intros (b & mx & Ho & Hty & Hm).
  - destruct (same_shape_lookup O O' m b Hs Ho) as (b0 & Hb0 & He).
    exists b0, mx. unfold shape in He. split; [done|]. split; [congruence|done].
  - destruct (same_shape_lookup O' O m b (same_shape_sym _ _ Hs) Ho) as (b0 & Hb0 & He).
    exists b0, mx. unfold shape in He. split; [done|]. split; [congruence|done].
Qed.

Lemma same_shape_blk_rm t O : same_shape O (blk_rm t O).
Proof. intros o. rewrite lookup_blk_rm. by destruct (O !! o). Qed.

Lemma same_shape_insert O o b b' : O !! o = Some b -> shape b' = shape b -> same_shape O (<[o := b']> O).
Proof.
  intros Ho He o'. destruct (decide (o' = o)) as [->|].
  - rewrite lookup_insert_eq, Ho. cbn. by rewrite He.
  - by rewrite lookup_insert_ne.
Qed.

(** what the idle task always is *)
Definition idle_like (k : ktask_t) : Prop :=
  task_state k = K_RDY /\ prio k = RHINO_IDLE_PRI /\ b_prio k = RHINO_IDLE_PRI /\ mutex_list k = None.

(** One task changes, and the lists with it. *)
Lemma kinv_setq_any s t k k' rq' O' L' :
  kinv s -> tasks s !! t = Some k -> (t = g_idle_task s -> idle_like k') ->
  rq_ok rq' (rdy (<[t := k']> (tasks s))) ->
  bl_ok O' (waits (<[t := k']> (tasks s))) (prio_of (<[t := k']> (tasks s))) ->
  tick_ok L' (<[t := k']> (tasks s)) (g_tick_count s) ->
  task_ok k' -> mutex_list k' = mutex_list k ->
  task_state k <> K_DELETED -> task_state k' <> K_DELETED ->
  same_shape (blk_objs s) O' ->
  (forall o b', O' !! o = Some b' ->
    obj_ok (sems s) (mutexes s) (events s) (queues s) (buf_queues s) o b') ->
  (forall m, holds (blk_objs s) (mutexes s) t m -> ~ waits (<[t := k']> (tasks s)) m t) ->
  kinv (setq s rq' (<[t := k']> (tasks s)) O' L').
Proof.
  intros [] Ht Hid Hrq Hbl Htk Hok Hml Hd Hd' Hsh Hobj Hself. split; try done.
  - cbn. intros x kx. destruct (decide (x = t)) as [->|].
    + rewrite lookup_insert_eq. by intros [= <-].
    + rewrite lookup_insert_ne by done. apply inv_task0.
  - cbn. intros x kx Hx Hdx.
    assert (exists k0, tasks s !! x = Some k0 /\ task_state k0 <> K_DELETED /\ mutex_list kx = mutex_list k0)
      as (k0 & Hk0 & Hd0 & ->).
    { destruct (decide (x = t)) as [->|].
      - rewrite lookup_insert_eq in Hx. injection Hx as <-. eauto.
      - rewrite lookup_insert_ne in Hx by done. eauto. }
    destruct (inv_chain0 x k0 Hk0 Hd0) as (l & Hl & Hnd & Hm). exists l. split; [done|]. split; [done|].
    intros m. by rewrite (holds_same_shape (blk_objs s)).
  - cbn. intros x m. rewrite (holds_same_shape (blk_objs s)) by done. intros Hh%inv_owner0.
    apply live_insert. destruct (decide (x = t)); [by left|by right].
  - cbn. intros x m. rewrite (holds_same_shape (blk_objs s)) by done. intros Hh.
    destruct (decide (x = t)) as [->|]; [by apply Hself|].
    rewrite waits_insert. intros [[? _]|[_ Hw]]; [done|]. by apply (inv_self0 x m).
  - destruct inv_idle0 as (ki & Hi & ?). cbn. destruct (decide (t = g_idle_task s)) as [->|].
    + exists k'. rewrite lookup_insert_eq. split; [done|]. by apply Hid.
    + exists ki. by rewrite lookup_insert_ne.
  - destruct inv_active0 as (a & Ha & Hsome). exists a. split; [done|]. cbn.
    apply lookup_insert_is_Some. destruct (decide (t = a)); auto.
Qed.

Lemma kinv_setq s t k k' rq' O' L' :
  kinv s -> tasks s !! t = Some k -> t <> g_idle_task s ->
  rq_ok rq' (rdy (<[t := k']> (tasks s))) ->
  bl_ok O' (waits (<[t := k']> (tasks s))) (prio_of (<[t := k']> (tasks s))) ->
  tick_ok L' (<[t := k']> (tasks s)) (g_tick_count s) ->
  task_ok k' -> mutex_list k' = mutex_list k ->
  task_state k <> K_DELETED -> task_state k' <> K_DELETED ->
  same_shape (blk_objs s) O' ->
  (forall o b', O' !! o = Some b' ->
    obj_ok (sems s) (mutexes s) (events s) (queues s) (buf_queues s) o b') ->
  (forall m, holds (blk_objs s) (mutexes s) t m -> ~ waits (<[t := k']> (tasks s)) m t) ->
  kinv (setq s rq' (<[t := k']> (tasks s)) O' L').
Proof. intros ???. eapply kinv_setq_any; try done. Qed.

(** Priorities stay right when owners, waiters of mutexes and priorities stay. *)
Lemma pi_frame s s' :
  pi_inv s ->
  (forall t k', tasks s' !! t = Some k' -> task_state k' <> K_DELETED ->
    exists k, tasks s !! t = Some k /\ task_state k <> K_DELETED /\ prio k' = prio k /\ b_prio k' = b_prio k) ->
  (forall t m, holds (blk_objs s') (mutexes s') t m <-> holds (blk_objs s) (mutexes s) t m) ->
  (forall t m w, holds (blk_objs s) (mutexes s) t m -> waits (tasks s') m w <-> waits (tasks s) m w) ->
  (forall o w, waits (tasks s) o w -> prio_of (tasks s') w = prio_of (tasks s) w) ->
  pi_inv s'.
Proof.
  intros Hpi HT HH HW HP t k' Hk' Hd'.
  destruct (HT t k' Hk' Hd') as (k & Hk & Hd & Hp & Hbp).
  destruct (Hpi t k Hk Hd) as (k0 & Hk0 & Hle & Hall & Hex).
  assert (k0 = k) as -> by congruence. exists k'. split; [done|]. rewrite Hp, Hbp. split; [done|].
  split.
  - intros m w Hm Hw. apply HH in Hm. pose proof Hm as Hm'. apply (HW t m w) in Hw; [|done].
    rewrite (HP m w) by done. by eapply Hall.
  - destruct Hex as [?|(m & w & Hm & Hw & He)]; [by left|]. right. exists m, w.
    rewrite HH, (HW t m w), (HP m w) by done. done.
Qed.

(** ** Waking a task *)

(** the state a woken task goes to *)
Definition woken (st : task_stat_t) : task_stat_t :=
  match st with K_PEND => K_RDY | _ => K_SUSPENDED end.

Lemma q_not_idle s t k :
  qinv s -> tasks s !! t = Some k -> task_state k <> K_RDY -> t <> g_idle_task s.
Proof. intros [] Ht Hp ->. destruct q_idle0 as (ki & Hi & Hr & _). congruence. Qed.

Lemma pend_not_idle s t k :
  kinv s -> tasks s !! t = Some k -> task_state k <> K_RDY -> t <> g_idle_task s.
Proof. intros Hinv. by apply q_not_idle, kinv_q. Qed.

Lemma q_ready_other s t : qinv s -> t <> g_idle_task s -> exists u q, rdy (tasks s) u q /\ u <> t.
Proof.
  intros [] Hne. destruct q_idle0 as (ki & Hi & Hr & _).
  exists (g_idle_task s), (prio ki). split; [by exists ki|done].
Qed.

Lemma kinv_ready_other s t : kinv s -> t <> g_idle_task s -> exists u q, rdy (tasks s) u q /\ u <> t.
Proof. intros Hinv. by apply q_ready_other, kinv_q. Qed.

Lemma qinv_setq s t k' rq' O' L' :
  qinv s -> t <> g_idle_task s -> task_ok k' -> rq_ok rq' (rdy (<[t := k']> (tasks s))) ->
  bl_ok O' (waits (<[t := k']> (tasks s))) (prio_of (<[t := k']> (tasks s))) ->
  tick_ok L' (<[t := k']> (tasks s)) (g_tick_count s) ->
  qinv (setq s rq' (<[t := k']> (tasks s)) O' L').
Proof.
  intros [] Hid Hk Hrq Hbl Htk. split; try done; cbn.
  - intros u ku. destruct (decide (u = t)) as [->|].
    + rewrite lookup_insert_eq. by intros [= <-].
    + rewrite lookup_insert_ne by done. apply q_task0.
  - by rewrite lookup_insert_ne.
  - destruct q_act0 as (a & ? & ?). exists a. split; [done|]. apply lookup_insert_is_Some'. by right.
Qed.

Lemma rq_ok_unready rq T t k' :
  rq_ok rq (minus (rdy T) t) -> task_state k' <> K_RDY -> rq_ok rq (rdy (<[t := k']> T)).
Proof.
  intros Hrq Hk'. eapply rq_ok_ext; [done|]. intros x p. rewrite rdy_insert. unfold minus. tauto.
Qed.

Lemma rq_ok_readied rq T t k k' :
  rq_ok rq (plus (rdy T) t (prio k)) -> T !! t = Some k -> task_state k <> K_RDY ->
  task_state k' = K_RDY -> prio k' = prio k -> rq_ok rq (rdy (<[t := k']> T)).
Proof.
  intros Hrq Ht Hk Hk' Hp. eapply rq_ok_ext; [done|]. intros x p. rewrite rdy_insert.
  unfold plus. rewrite Hp. split.
  - intros [Hx|[-> ->]]; [right|by left]. split; [|done]. intros ->.
    destruct Hx as (? & ? & ? & _). congruence.
  - intros [(-> & _ & ->)|[_ ?]]; auto.
Qed.

(** A change that the ready queue does not see. *)
Lemma rq_ok_unseen rq T t k k' :
  rq_ok rq (rdy T) -> T !! t = Some k ->
  (task_state k' = K_RDY <-> task_state k = K_RDY) -> (task_state k = K_RDY -> prio k' = prio k) ->
  rq_ok rq (rdy (<[t := k']> T)).
Proof.
  intros Hrq Ht Hst Hp. eapply rq_ok_ext; [done|]. intros x p. rewrite rdy_insert.
  destruct (decide (x = t)) as [->|]; [|tauto]. unfold rdy. rewrite Ht. split.
  - intros (? & [= <-] & Hr & <-). left. split; [done|]. split; [by apply Hst|by apply Hp].
  - intros [(_ & Hr & <-)|[? _]]; [|done]. apply Hst in Hr. exists k. by rewrite Hp.
Qed.

(** The waiter [t] left every list and does not wait any more. *)
Lemma bl_ok_woken O T t k k' :
  bl_ok O (waits T) (prio_of T) -> T !! t = Some k -> is_pend (task_state k') = false ->
  bl_ok (blk_rm t O) (waits (<[t := k']> T)) (prio_of (<[t := k']> T)).
Proof.
  intros Hbl Ht Hp. eapply bl_ok_ext; [by apply bl_ok_rm| |].
  - intros o x. rewrite waits_insert. split; [tauto|]. intros [(_ & ? & _)|]; [congruence|tauto].
  - intros o x [_ Hx]. rewrite prio_of_insert. by rewrite decide_False.
Qed.

(** A change that the lists of waiters do not see. *)
Lemma bl_ok_unseen O T t k k' :
  bl_ok O (waits T) (prio_of T) -> T !! t = Some k ->
  is_pend (task_state k') = is_pend (task_state k) ->
  (is_pend (task_state k) = true -> blk_obj k' = blk_obj k /\ prio k' = prio k) ->
  bl_ok O (waits (<[t := k']> T)) (prio_of (<[t := k']> T)).
Proof.
  intros Hbl Ht Hp Hb. eapply bl_ok_ext; [done| |].
  - intros o x. rewrite waits_insert. destruct (decide (x = t)) as [->|]; [|tauto].
    unfold waits. rewrite Ht, Hp. split.
    + intros (? & [= <-] & Hpd & Ho). left. destruct (Hb Hpd) as [-> _]. done.
    + intros [(_ & Hpd & Ho)|[? _]]; [|done]. exists k. destruct (Hb Hpd) as [<- _]. done.
  - intros o x (kx & Hx & Hpd & _). rewrite prio_of_insert. case_decide as Hd; [|done]. subst.
    unfold prio_of. rewrite Ht. simplify_eq. by apply Hb.
Qed.

(** The switch of [pend_task_wakeup] and [pend_task_rm] and their [tick_list_rm]. *)
Lemma wp_unpend t k (rest : K unit) Q s :
  qinv s -> tasks s !! t = Some k -> is_pend (task_state k) = true ->
  (forall rq' L', let k' := k <| task_state := woken (task_state k) |> <| tick_head := false |> in
     rq_ok rq' (rdy (<[t := k']> (tasks s))) ->
     bl_ok (blk_rm t (blk_objs s)) (waits (<[t := k']> (tasks s))) (prio_of (<[t := k']> (tasks s))) ->
     tick_ok L' (<[t := k']> (tasks s)) (g_tick_count s) ->
     wp rest Q (setq s rq' (<[t := k']> (tasks s)) (blk_rm t (blk_objs s)) L')) ->
  wp (match task_state k with
      | K_PEND => blk_list_rm t;; ready_list_add t;; task_upd t (fun k => k <| task_state := K_RDY |>)
      | K_PEND_SUSPENDED => blk_list_rm t;; task_upd t (fun k => k <| task_state := K_SUSPENDED |>)
      | _ => k_err_proc RHINO_SYS_FATAL_ERR
      end;; tick_list_rm t;; rest) Q s.
Proof.
  intros Hinv Ht Hp HQ. pose proof Hinv as []. apply wp_setq.
  destruct q_act0 as (a & Ha & ka & Hka). pose proof (q_task0 t k Ht) as Hok.
  assert (Hnr : task_state k <> K_RDY) by (intros He; by rewrite He in Hp).
  set (k1 := k <| task_state := woken (task_state k) |>) in *. cbv zeta in HQ.
  change (k <| task_state := woken (task_state k) |> <| tick_head := false |>)
    with (k1 <| tick_head := false |>) in HQ.
  assert (Htk1 : tick_ok (g_tick_head s) (<[t := k1]> (tasks s)) (g_tick_count s))
    by (eapply tick_ok_upd; done).
  assert (Hend : forall rq', rq_ok rq' (rdy (<[t := k1]> (tasks s))) ->
    wp (tick_list_rm t;; rest) Q
      (setq s rq' (<[t := k1]> (tasks s)) (blk_rm t (blk_objs s)) (g_tick_head s))).
  { intros rq' Hrq'. apply wp_bind. eapply (q_tick_list_rm _ _ _ _ _ t k1); [exact Htk1|apply lookup_insert_eq|].
    rewrite insert_insert_eq. intros L' HL'. apply HQ; [|by eapply bl_ok_woken; [done|done|destruct (task_state k)]|done].
    eapply rq_ok_ext; [exact Hrq'|]. intros x p. by rewrite !rdy_insert. }
  apply wp_bind. destruct (task_state k) eqn:Hst; try done.
  - apply wp_bind, q_blk_list_rm, wp_bind. eapply q_ready_list_add; [exact q_rq0|done..|apply Hok| |].
    { intros q (? & ? & ? & _). congruence. }
    intros rq' Hrq'. eapply q_task_upd; [done|]. apply Hend.
    eapply rq_ok_readied; [done|done|congruence|done|done].
  - apply wp_bind, q_blk_list_rm. eapply q_task_upd; [done|]. apply Hend.
    eapply rq_ok_unseen; [done..| |]; cbn; by rewrite Hst.
Qed.

(** Fewer waiters never break an object. *)
Lemma obj_ok_fewer SM MX EV QU BQ o b l :
  obj_ok SM MX EV QU BQ o b -> (l <> [] -> blk_list b <> []) ->
  obj_ok SM MX EV QU BQ o (b <| blk_list := l |>).
Proof.
  intros Hob Hl. unfold obj_ok in *. cbn. destruct (obj_type b); try done.
  - destruct Hob as (sm & ? & ? & ?). exists sm. repeat split; tauto || lia.
  - destruct Hob as (mx & ? & ? & ? & ?). exists mx. repeat split; tauto || lia.
  - destruct Hob as (q & ? & ? & ?). exists q. repeat split; tauto || lia.
Qed.

Lemma obj_ok_blk_rm SM MX EV QU BQ t O :
  (forall o b, O !! o = Some b -> obj_ok SM MX EV QU BQ o b) ->
  forall o b, blk_rm t O !! o = Some b -> obj_ok SM MX EV QU BQ o b.
Proof.
  intros Hob o b. rewrite lookup_blk_rm. intros (b0 & Ho & ->)%fmap_Some.
  apply (obj_ok_fewer _ _ _ _ _ o b0 (list_rm t (blk_list b0))); [by apply Hob|].
  intros Hl He. by rewrite He in Hl.
Qed.

(** the task after it was woken with the state [st] of its wait *)
Definition woken_task (st : blk_state_t) (k : ktask_t) : ktask_t :=
  k <| task_state := woken (task_state k) |> <| tick_head := false |>
    <| blk_state := st |> <| blk_obj := None |>.

Lemma woken_task_ok st k : task_ok k -> is_pend (task_state k) = true -> task_ok (woken_task st k).
Proof.
  intros [] Hp. split; try done; unfold woken_task; cbn; by destruct (task_state k).
Qed.

Lemma woken_not_pend k : is_pend (task_state k) = true -> is_pend (woken (task_state k)) = false.
Proof. by destruct (task_state k). Qed.

(** The woken task is out of every list but the ready queue's. *)
Lemma kinv_woken s t k st rq' L' :
  kinv s -> tasks s !! t = Some k -> is_pend (task_state k) = true ->
  let k1 := k <| task_state := woken (task_state k) |> <| tick_head := false |> in
  rq_ok rq' (rdy (<[t := k1]> (tasks s))) ->
  bl_ok (blk_rm t (blk_objs s)) (waits (<[t := k1]> (tasks s))) (prio_of (<[t := k1]> (tasks s))) ->
  tick_ok L' (<[t := k1]> (tasks s)) (g_tick_count s) ->
  kinv (setq s rq' (<[t := woken_task st k]> (tasks s)) (blk_rm t (blk_objs s)) L').
Proof.
  intros Hinv Ht Hp k1 Hrq Hbl Htk. pose proof Hinv as [].
  assert (Hnp : is_pend (woken (task_state k)) = false) by by apply woken_not_pend.
  apply (kinv_setq s t k); try done.
  - eapply pend_not_idle; [done..|]. intros He. by rewrite He in Hp.
  - eapply rq_ok_ext; [done|]. intros x p. by rewrite !rdy_insert.
  - eapply bl_ok_ext; [done| |].
    + intros o x. rewrite !waits_insert. cbn. rewrite Hnp. naive_solver.
    + intros o x _. by rewrite !prio_of_insert.
  - rewrite <- (insert_insert_eq _ _ _ k1). eapply tick_ok_upd; [done|apply lookup_insert_eq|done|done].
  - apply woken_task_ok; [by eapply inv_task0|done].
  - intros He. by rewrite He in Hp.
  - cbn. by destruct (task_state k).
  - apply same_shape_blk_rm.
  - by apply obj_ok_blk_rm.
  - intros m _. rewrite waits_insert. cbn. rewrite Hnp. naive_solver.
Qed.

Lemma qinv_woken s t k st rq' L' :
  qinv s -> tasks s !! t = Some k -> is_pend (task_state k) = true ->
  let k1 := k <| task_state := woken (task_state k) |> <| tick_head := false |> in
  rq_ok rq' (rdy (<[t := k1]> (tasks s))) ->
  bl_ok (blk_rm t (blk_objs s)) (waits (<[t := k1]> (tasks s))) (prio_of (<[t := k1]> (tasks s))) ->
  tick_ok L' (<[t := k1]> (tasks s)) (g_tick_count s) ->
  qinv (setq s rq' (<[t := woken_task st k]> (tasks s)) (blk_rm t (blk_objs s)) L').
Proof.
  intros Hinv Ht Hp k1 Hrq Hbl Htk.
  assert (Hnp : is_pend (woken (task_state k)) = false) by by apply woken_not_pend.
  apply qinv_setq; try done.
  - eapply q_not_idle; [done..|]. intros He. by rewrite He in Hp.
  - apply woken_task_ok; [|done]. pose proof Hinv as []. by eapply q_task0.
  - eapply rq_ok_ext; [done|]. intros x p. by rewrite !rdy_insert.
  - eapply bl_ok_ext; [done| |].
    + intros o x. rewrite !waits_insert. cbn. rewrite Hnp. naive_solver.
    + intros o x _. by rewrite !prio_of_insert.
  - rewrite <- (insert_insert_eq _ _ _ k1). eapply tick_ok_upd; [done|apply lookup_insert_eq|done|done].
Qed.

Lemma wp_wakeup_q t k Q s :
  qinv s -> tasks s !! t = Some k -> is_pend (task_state k) = true ->
  (forall rq' L',
     qinv (setq s rq' (<[t := woken_task BLK_FINISH k]> (tasks s)) (blk_rm t (blk_objs s)) L') ->
     Q tt (setq s rq' (<[t := woken_task BLK_FINISH k]> (tasks s)) (blk_rm t (blk_objs s)) L')) ->
  wp (pend_task_wakeup t) Q s.
Proof.
  intros Hinv Ht Hp HQ. unfold pend_task_wakeup. apply wp_bind. eapply wp_task_get; [done|].
  apply (wp_unpend t k); [done..|]. intros rq' L' k1 Hrq Hbl Htk.
  eapply q_task_upd; [apply lookup_insert_eq|]. rewrite insert_insert_eq.
  apply HQ. by apply qinv_woken.
Qed.

Lemma wp_pend_task_wakeup t k Q s :
  kinv s -> tasks s !! t = Some k -> is_pend (task_state k) = true ->
  (forall rq' L',
     kinv (setq s rq' (<[t := woken_task BLK_FINISH k]> (tasks s)) (blk_rm t (blk_objs s)) L') ->
     Q tt (setq s rq' (<[t := woken_task BLK_FINISH k]> (tasks s)) (blk_rm t (blk_objs s)) L')) ->
  wp (pend_task_wakeup t) Q s.
Proof.
  intros Hinv Ht Hp HQ. unfold pend_task_wakeup. apply wp_bind. eapply wp_task_get; [done|].
  apply (wp_unpend t k); [by apply kinv_q|done..|]. intros rq' L' k1 Hrq Hbl Htk.
  eapply q_task_upd; [apply lookup_insert_eq|]. rewrite insert_insert_eq.
  apply HQ. by apply kinv_woken.
Qed.

Lemma wp_pend_task_rm t k Q s :
  kinv s -> tasks s !! t = Some k -> is_pend (task_state k) = true ->
  (forall rq' L',
     kinv (setq s rq' (<[t := woken_task BLK_DEL k]> (tasks s)) (blk_rm t (blk_objs s)) L') ->
     Q tt (setq s rq' (<[t := woken_task BLK_DEL k]> (tasks s)) (blk_rm t (blk_objs s)) L')) ->
  wp (pend_task_rm t) Q s.
Proof.
  intros Hinv Ht Hp HQ. unfold pend_task_rm. apply wp_bind. eapply wp_task_get; [done|].
  apply (wp_unpend t k); [by apply kinv_q|done..|]. intros rq' L' k1 Hrq Hbl Htk.
  apply wp_bind. eapply q_task_upd; [apply lookup_insert_eq|].
  eapply q_task_upd; [apply lookup_insert_eq|]. rewrite !insert_insert_eq.
  apply HQ. by apply kinv_woken.
Qed.

(** ** Blocking a task *)

(** [k'] is [k] blocked on [o], with or without a deadline. *)
Definition blocked_task (o : oid) (k k' : ktask_t) : Prop :=
  k' = k <| blk_obj := Some o |> <| tick_match := tick_match k' |>
         <| tick_remain := tick_remain k' |> <| tick_head := tick_head k' |>
         <| task_state := K_PEND |>.

(** The waiter is put where the policy wants it. *)
Definition queued (pr : tid -> Z) (t : tid) (b : blk_obj_t) (l : list tid) : Prop :=
  match blk_policy b with
  | BLK_POLICY_FIFO => l = blk_list b ++ [t]
  | BLK_POLICY_PRI => l = pri_insert pr t (blk_list b)
  end.

Lemma queued_perm pr t b l : queued pr t b l -> l ≡ₚ t :: blk_list b.
Proof.
  unfold queued, pri_insert. destruct (blk_policy b); intros ->.
  - apply insert_by_perm.
  - by rewrite (Permutation_app_comm _ [t]).
Qed.

Lemma queued_sorted pr t b l :
  queued pr t b l -> blk_policy b = BLK_POLICY_PRI ->
  StronglySorted (fun x y => pr x <= pr y) (blk_list b) -> StronglySorted (fun x y => pr x <= pr y) l.
Proof.
  unfold queued, pri_insert. intros Hq Hp. rewrite Hp in Hq. subst. intros Hs.
  by apply insert_by_sorted.
Qed.

Lemma kinv_blocked s t k k' o b l rq' L' :
  kinv s -> tasks s !! t = Some k -> task_state k = K_RDY -> t <> g_idle_task s ->
  blk_objs s !! o = Some b ->
  (forall l, obj_ok (sems s) (mutexes s) (events s) (queues s) (buf_queues s) o (b <| blk_list := l |>)) ->
  ~ holds (blk_objs s) (mutexes s) t o ->
  blocked_task o k k' -> queued (prio_of (<[t := k']> (tasks s))) t b l ->
  rq_ok rq' (minus (rdy (tasks s)) t) ->
  tick_ok L' (<[t := k']> (tasks s)) (g_tick_count s) ->
  kinv (setq s rq' (<[t := k']> (tasks s)) (<[o := b <| blk_list := l |>]> (blk_objs s)) L').
Proof.
  intros Hinv Ht Hr Hid Ho Hob Hself Hk Hl Hrq Htk. pose proof Hinv as [].
  assert (Hst : task_state k' = K_PEND) by (by rewrite Hk).
  assert (Hbo : blk_obj k' = Some o) by (by rewrite Hk).
  assert (Hpr : forall x, prio_of (<[t := k']> (tasks s)) x = prio_of (tasks s) x).
  { intros x. rewrite prio_of_insert. case_decide; [|done]. subst. unfold prio_of.
    rewrite Ht, Hk. done. }
  assert (Hnw : forall o', ~ waits (tasks s) o' t).
  { intros o' (k0 & Hk0 & Hp & _). assert (k0 = k) as -> by congruence. by rewrite Hr in Hp. }
  apply (kinv_setq s t k); try done.
  - apply rq_ok_unready; [done|by rewrite Hst].
  - eapply bl_ok_ext.
    + eapply (bl_ok_add _ _ _ t o b l); [exact inv_blk0|done|done|by eapply queued_perm|].
      intros Hp.
      apply (StronglySorted_ext (fun x y => prio_of (<[t := k']> (tasks s)) x <= prio_of (<[t := k']> (tasks s)) y)).
      { intros x y _ _. by rewrite !Hpr. }
      eapply queued_sorted; [done|done|].
      apply (StronglySorted_ext (fun x y => prio_of (tasks s) x <= prio_of (tasks s) y)).
      { intros x y _ _. by rewrite !Hpr. }
      by eapply bl_sorted.
    + intros o' x. rewrite waits_insert, Hst, Hbo. cbn. split.
      * intros [Hw|[-> ->]]; [|by left]. right. split; [|done]. intros ->. by apply (Hnw o').
      * intros [(-> & _ & [= ->])|[_ Hw]]; auto.
    + intros o' x _. apply Hpr.
  - pose proof (inv_task0 t k Ht) as []. split; rewrite ?Hst; try done; rewrite Hk; done.
  - by rewrite Hk.
  - by rewrite Hr.
  - by rewrite Hst.
  - by eapply same_shape_insert.
  - intros o' b'. destruct (decide (o' = o)) as [->|].
    + rewrite lookup_insert_eq. intros [= <-]. apply Hob.
    + rewrite lookup_insert_ne by done. auto.
  - intros m Hm. rewrite waits_insert, Hbo. intros [(_ & _ & [= ->])|[? _]]; done.
Qed.

Lemma waiters_exist O T o b x :
  bl_ok O (waits T) (prio_of T) -> O !! o = Some b -> x ∈ blk_list b -> is_Some (T !! x).
Proof. intros Hbl Ho Hx. apply (bl_mem _ _ _ Hbl o b) in Hx as (kx & ? & _); eauto. Qed.

Lemma wp_pend_to_blk_obj o t timeout k b Q s :
  kinv s -> tasks s !! t = Some k -> task_state k = K_RDY -> t <> g_idle_task s ->
  blk_objs s !! o = Some b ->
  (forall l, obj_ok (sems s) (mutexes s) (events s) (queues s) (buf_queues s) o (b <| blk_list := l |>)) ->
  ~ holds (blk_objs s) (mutexes s) t o -> 1 <= timeout <= RHINO_WAIT_FOREVER ->
  (forall rq' k' l L', blocked_task o k k' -> queued (prio_of (<[t := k']> (tasks s))) t b l ->
     kinv (setq s rq' (<[t := k']> (tasks s)) (<[o := b <| blk_list := l |>]> (blk_objs s)) L') ->
     Q tt (setq s rq' (<[t := k']> (tasks s)) (<[o := b <| blk_list := l |>]> (blk_objs s)) L')) ->
  wp (pend_to_blk_obj o t timeout) Q s.
Proof.
  intros Hinv Ht Hr Hid Ho Hob Hself Htm HQ. pose proof Hinv as [].
  assert (Hth : tick_head k = false).
  { pose proof (inv_task0 t k Ht) as []. by rewrite Hr in tok_tick0. }
  unfold pend_to_blk_obj. apply wp_setq. apply wp_bind. eapply q_task_upd; [done|].
  set (k1 := k <| blk_obj := Some o |>).
  assert (Htk1 : tick_ok (g_tick_head s) (<[t := k1]> (tasks s)) (g_tick_count s))
    by (by eapply tick_ok_upd).
  assert (Hrest : forall k2 L', k2 = k <| blk_obj := Some o |> <| tick_match := tick_match k2 |>
      <| tick_remain := tick_remain k2 |> <| tick_head := tick_head k2 |> ->
    tick_ok L' (<[t := k2]> (tasks s)) (g_tick_count s) ->
    wp (task_upd t (fun k => k <| task_state := K_PEND |>);; ready_list_rm t;; b ← blk_get o;
        match blk_policy b with
        | BLK_POLICY_FIFO => blk_upd o (fun b => b <| blk_list ::= fun l => l ++ [t] |>)
        | BLK_POLICY_PRI => pend_list_add o t
        end) Q (setq s (g_ready_queue s) (<[t := k2]> (tasks s)) (blk_objs s) L')).
  { intros k2 L' Hk2 HL'. set (k' := k2 <| task_state := K_PEND |>).
    assert (Hk' : blocked_task o k k').
    { unfold blocked_task, k'. cbn. by rewrite Hk2 at 1. }
    apply wp_bind. eapply q_task_upd; [apply lookup_insert_eq|]. rewrite insert_insert_eq. fold k'.
    apply wp_bind. destruct (kinv_ready_other s t Hinv Hid) as (u & p & Hu & Hut).
    eapply (q_ready_list_rm _ _ _ _ _ t k' _ (rdy (tasks s)) u p); [done|apply lookup_insert_eq| |apply rdy_fun|done|done|].
    { exists k. split; [done|]. split; [done|]. by rewrite Hk'. }
    intros rq' Hrq'. apply wp_bind. eapply q_blk_get; [done|].
    assert (HL2 : tick_ok L' (<[t := k']> (tasks s)) (g_tick_count s)).
    { rewrite <- (insert_insert_eq _ _ _ k2). eapply tick_ok_upd; [done|apply lookup_insert_eq|done|done]. }
    destruct (blk_policy b) eqn:Hpol.
    - eapply (q_pend_list_add _ _ _ _ _ o t k' b); [apply lookup_insert_eq|done| |].
      + intros x Hx. apply lookup_insert_is_Some. destruct (decide (t = x)); [by left|right].
        split; [done|]. by eapply waiters_exist.
      + assert (Hqd : queued (prio_of (<[t := k']> (tasks s))) t b
          (pri_insert (prio_of (<[t := k']> (tasks s))) t (blk_list b))) by (unfold queued; by rewrite Hpol).
        apply HQ; [done|done|]. eapply kinv_blocked; done.
    - eapply q_blk_upd; [done|].
      assert (Hqd : queued (prio_of (<[t := k']> (tasks s))) t b (blk_list b ++ [t]))
        by (unfold queued; by rewrite Hpol).
      apply (HQ rq' k' (blk_list b ++ [t]) L'); [done|done|]. eapply kinv_blocked; done. }
  apply wp_bind. unfold when. case_bool_decide as Hf.
  - eapply (q_tick_list_insert _ _ _ _ _ t k1); [exact Htk1|apply lookup_insert_eq|done| |].
    { unfold RHINO_WAIT_FOREVER in *. lia. }
    intros L' k2 Hk2. rewrite insert_insert_eq. intros HL'. apply Hrest; [|done]. by rewrite Hk2.
  - apply wp_ret. apply Hrest; [|done]. unfold k1. by destruct k.
Qed.

(** ** Leaving through the scheduler *)

Definition cnt_inv (s : kstate) : Prop :=
  0 <= g_sched_lock s <= SCHED_MAX_LOCK_COUNT /\
  0 <= g_intrpt_nested_level s <= RHINO_CONFIG_INTRPT_MAX_NESTED_LEVEL.

(** What holds between two kernel calls. *)
Definition kok (s : kstate) : Prop := kinv s /\ pi_inv s /\ sched_inv s /\ cnt_inv s.

(** the running task, while the scheduler is locked *)
Definition locked_ready (s : kstate) : Prop :=
  g_intrpt_nested_level s = 0 -> 0 < g_sched_lock s ->
  exists a k, g_active_task s = Some a /\ tasks s !! a = Some k /\ task_state k = K_RDY.

Lemma kok_intro s : kinv s -> pi_inv s -> sched_inv s -> cnt_inv s -> kok s.
Proof. by split. Qed.

(** [s'] is [s] after a context switch, if one was due. *)
Definition switched (s s' : kstate) : Prop :=
  exists p a, s' = s <| g_preferred_ready_task := p |> <| g_active_task := a |>.

Lemma switched_refl s : switched s s.
Proof. exists (g_preferred_ready_task s), (g_active_task s). by destruct s. Qed.

Lemma wp_core_sched_ok Q s :
  kinv s -> pi_inv s -> cnt_inv s -> locked_ready s ->
  (forall s', kok s' -> switched s s' -> Q tt s') -> wp core_sched Q s.
Proof.
  intros Hinv Hpi Hcnt Hlr HQ. pose proof Hinv as [].
  pose proof inv_idle0 as (ki & Hi & Hr & Hp & _).
  destruct (top_exists (g_ready_queue s) (rdy (tasks s)) (g_idle_task s) (prio ki)) as (u & Hu & ku & Hku & Hst & _);
    [done|by exists ki|].
  eapply (wp_core_sched _ _ _ u); [done|done| |].
  - intros Hor. apply HQ; [|apply switched_refl]. apply kok_intro; try done. intros Hn.
    destruct Hor as [?|Hl]; [lia|]. destruct (Hlr Hn Hl) as (a & k & ? & ? & ?). exists a, k.
    repeat split; try done. lia.
  - intros Hn Hl. apply HQ; [|by exists (Some u), (Some u)]. apply kok_intro; try done.
    + split; try done. exists u. split; [done|]. by exists ku.
    + intros _. by exists u, ku.
Qed.

Lemma wp_exit_sched cpsr Q s :
  kinv s -> pi_inv s -> cnt_inv s -> locked_ready s ->
  (forall s', kok s' -> switched (s <| irq_off := cpsr |>) s' -> Q tt s') ->
  wp (RHINO_CRITICAL_EXIT_SCHED cpsr) Q s.
Proof.
  intros. apply wp_bind, wp_modify. apply wp_core_sched_ok; done.
Qed.

Lemma wp_sched_ret cpsr stat (Q : kstat_t -> kstate -> Prop) s :
  kinv s -> pi_inv s -> cnt_inv s -> locked_ready s ->
  (forall s', kok s' -> switched (s <| irq_off := cpsr |>) s' -> Q stat s') ->
  wp (sched_ret cpsr stat) Q s.
Proof. intros. by apply wp_bind, wp_exit_sched. Qed.

Lemma wp_exit_ret cpsr stat (Q : kstat_t -> kstate -> Prop) s :
  Q stat (s <| irq_off := cpsr |>) -> wp (exit_ret cpsr stat) Q s.
Proof. done. Qed.

Lemma wp_fmap {A B} (f : A -> B) (m : K A) Q s : wp m (fun a s' => Q (f a) s') s -> wp (f <$> m) Q s.
Proof. unfold wp, fmap, K_fmap. by destruct (m s) as [[a s']|]. Qed.

Lemma wp_nested_chk {A} cpsr (ret : kstat_t -> A) (rest : K A) Q s :
  (0 < g_intrpt_nested_level s -> Q (ret RHINO_NOT_CALLED_BY_INTRPT) (s <| irq_off := cpsr |>)) ->
  (~ 0 < g_intrpt_nested_level s -> wp rest Q s) ->
  wp (INTRPT_NESTED_LEVEL_CHK cpsr ret rest) Q s.
Proof.
  intros H1 H2. unfold INTRPT_NESTED_LEVEL_CHK. apply wp_bind, wp_gets.
  case_decide; [|auto]. apply wp_fmap, wp_exit_ret. auto.
Qed.

(** Outside interrupts the running task is ready. *)
Lemma active_ready s :
  kok s -> ~ 0 < g_intrpt_nested_level s ->
  exists a k, g_active_task s = Some a /\ tasks s !! a = Some k /\ task_state k = K_RDY.
Proof.
  intros (? & ? & Hs & [_ Hc]) Hn. destruct (Hs ltac:(lia)) as (a & k & ? & ? & ? & _). eauto.
Qed.

(** Priorities stay right when one task changes and mutexes do not see it. *)
Lemma pi_setq s t k k' rq' O' L' :
  pi_inv s -> tasks s !! t = Some k -> prio k' = prio k -> b_prio k' = b_prio k ->
  task_state k <> K_DELETED -> same_shape (blk_objs s) O' ->
  (forall u m, holds (blk_objs s) (mutexes s) u m ->
     is_pend (task_state k') = true /\ blk_obj k' = Some m <->
     is_pend (task_state k) = true /\ blk_obj k = Some m) ->
  pi_inv (setq s rq' (<[t := k']> (tasks s)) O' L').
Proof.
  intros Hpi Ht Hp Hb Hd Hsh Hw. apply (pi_frame s); [done| | | |].
  - cbn. intros x kx Hx Hdx. destruct (decide (x = t)) as [->|].
    + rewrite lookup_insert_eq in Hx. injection Hx as <-. by exists k.
    + rewrite lookup_insert_ne in Hx by done. by exists kx.
  - intros x m. by apply holds_same_shape.
  - cbn. intros u m w Hm. rewrite waits_insert. destruct (decide (w = t)) as [->|]; [|tauto].
    specialize (Hw u m Hm). unfold waits. rewrite Ht. split.
    + intros [(_ & Hk)|[? _]]; [|done]. apply Hw in Hk as []. by exists k.
    + intros (? & [= <-] & Hk). left. split; [done|]. by apply Hw.
  - cbn. intros o w _. rewrite prio_of_insert. case_decide; [|done]. subst.
    unfold prio_of. by rewrite Ht.
Qed.

(** a task that waits on an object that is no mutex *)
Lemma not_mutex_not_held O M o b t :
  O !! o = Some b -> obj_type b <> RHINO_MUTEX_OBJ_TYPE -> ~ holds O M t o.
Proof. intros Ho Hty (b' & mx & Hb' & Hty' & _). congruence. Qed.

Lemma pi_blocked s t k k' o b l rq' L' :
  pi_inv s -> tasks s !! t = Some k -> task_state k = K_RDY ->
  blk_objs s !! o = Some b -> obj_type b <> RHINO_MUTEX_OBJ_TYPE -> blocked_task o k k' ->
  pi_inv (setq s rq' (<[t := k']> (tasks s)) (<[o := b <| blk_list := l |>]> (blk_objs s)) L').
Proof.
  intros Hpi Ht Hr Ho Hty Hk. eapply pi_setq; try done; try (by rewrite Hk).
  - by rewrite Hr.
  - by eapply same_shape_insert.
  - intros u m Hm. rewrite Hr, Hk. cbn. split; [|by intros [? _]]. intros [_ [= ->]].
    by apply (not_mutex_not_held _ _ m b u) in Hm.
Qed.

(** What every way of waking a task does to it. *)
Record waker (w : ktask_t -> ktask_t) : Prop := {
  wk_state k : task_state (w k) = woken (task_state k);
  wk_prio k : prio (w k) = prio k;
  wk_b_prio k : b_prio (w k) = b_prio k;
  wk_obj k : blk_obj (w k) = None;
}.

Lemma woken_task_waker st : waker (woken_task st).
Proof. done. Qed.

Lemma pi_woken w s t k o b rq' L' :
  waker w -> pi_inv s -> tasks s !! t = Some k -> is_pend (task_state k) = true -> blk_obj k = Some o ->
  blk_objs s !! o = Some b -> obj_type b <> RHINO_MUTEX_OBJ_TYPE ->
  pi_inv (setq s rq' (<[t := w k]> (tasks s)) (blk_rm t (blk_objs s)) L').
Proof.
  intros Hw Hpi Ht Hp Hbo Ho Hty. eapply pi_setq; try done; [apply Hw..| | |].
  - intros He. by rewrite He in Hp.
  - apply same_shape_blk_rm.
  - intros u m Hm. rewrite (wk_obj w Hw). split; [by intros [_ ?]|]. rewrite Hbo. intros [_ [= ->]].
    by apply (not_mutex_not_held _ _ m b u) in Hm.
Qed.

(** Waking a task that waits on an object other than a mutex. *)
Lemma wake_ok w s t o b rq' L' :
  waker w -> kinv s -> pi_inv s -> locked_ready s -> waits (tasks s) o t -> blk_objs s !! o = Some b ->
  obj_type b <> RHINO_MUTEX_OBJ_TYPE ->
  exists k, tasks s !! t = Some k /\ is_pend (task_state k) = true /\ blk_obj k = Some o /\
    let s' := setq s rq' (<[t := w k]> (tasks s)) (blk_rm t (blk_objs s)) L' in
    pi_inv s' /\ locked_ready s'.
Proof.
  intros Hw Hinv Hpi Hlr (k & Ht & Hp & Hbo) Ho Hty. exists k. repeat split; try done.
  - by eapply pi_woken.
  - intros Hn Hl. destruct (Hlr Hn Hl) as (a & ka & Ha & Hka & Hr). exists a, ka. cbn.
    rewrite lookup_insert_ne; [done|]. intros ->. rewrite Ht in Hka. simplify_eq. by rewrite Hr in Hp.
Qed.

Lemma setq_setq s rq T O L rq' T' O' L' : setq (setq s rq T O L) rq' T' O' L' = setq s rq' T' O' L'.
Proof. done. Qed.

(** A waiter is linked in the list of its object alone. *)
Lemma blk_rm_at O T t o b :
  bl_ok O (waits T) (prio_of T) -> waits T o t -> O !! o = Some b ->
  blk_rm t O = <[o := b <| blk_list := list_rm t (blk_list b) |>]> O.
Proof.
  intros Hbl Hw Ho. apply map_eq. intros o'. rewrite lookup_blk_rm.
  destruct (decide (o' = o)) as [->|Hne].
  - by rewrite lookup_insert_eq, Ho.
  - rewrite lookup_insert_ne by done. destruct (O !! o') as [b'|] eqn:Hb'; [|done]. cbn. f_equal.
    assert (Ht : list_rm t (blk_list b') = blk_list b').
    { apply list_rm_id. rewrite (bl_mem _ _ _ Hbl o' b') by done. intros Hw'.
      apply Hne. by eapply waits_fun. }
    unfold upd. cbn. rewrite Ht. by destruct b'.
Qed.

(** a task of which [o] is the object waited for is woken by [w], the others stay *)
Definition wake_with (o : oid) (w : ktask_t -> ktask_t) (k : ktask_t) : ktask_t :=
  if decide (is_pend (task_state k) = true /\ blk_obj k = Some o) then w k else k.
Definition wake_if (o : oid) (st : blk_state_t) : ktask_t -> ktask_t := wake_with o (woken_task st).

Lemma wake_with_woken o w k : waker w -> wake_with o w (w k) = w k.
Proof. intros Hw. unfold wake_with. rewrite decide_False; [done|]. rewrite (wk_obj w Hw). naive_solver. Qed.

Lemma wake_if_woken o st k : wake_if o st (woken_task st k) = woken_task st k.
Proof. apply wake_with_woken, woken_task_waker. Qed.

Lemma wake_all_step o w (T : gmap tid ktask_t) t k :
  waker w -> T !! t = Some k -> is_pend (task_state k) = true -> blk_obj k = Some o ->
  wake_with o w <$> <[t := w k]> T = wake_with o w <$> T.
Proof.
  intros Hw Ht Hp Ho. rewrite fmap_insert, wake_with_woken by done. apply insert_id.
  rewrite lookup_fmap, Ht. cbn. unfold wake_with. by rewrite decide_True.
Qed.

Lemma wake_all_none o w (T : gmap tid ktask_t) : (forall t, ~ waits T o t) -> wake_with o w <$> T = T.
Proof.
  intros Hn. apply map_eq. intros t. rewrite lookup_fmap. destruct (T !! t) as [k|] eqn:Ht; [|done].
  cbn. unfold wake_with. rewrite decide_False; [done|]. intros [Hp Ho]. apply (Hn t). by exists k.
Qed.

(** [f] wakes one waiter, which [w] describes. *)
Definition wakes_with (w : ktask_t -> ktask_t) (f : tid -> K unit) : Prop :=
  forall t k Q s, kinv s -> pi_inv s -> tasks s !! t = Some k -> is_pend (task_state k) = true ->
  (forall rq' L',
     kinv (setq s rq' (<[t := w k]> (tasks s)) (blk_rm t (blk_objs s)) L') ->
     Q tt (setq s rq' (<[t := w k]> (tasks s)) (blk_rm t (blk_objs s)) L')) ->
  wp (f t) Q s.

Lemma wp_drain w f n o b Q s :
  waker w -> wakes_with w f -> kinv s -> pi_inv s -> locked_ready s -> blk_objs s !! o = Some b ->
  obj_type b <> RHINO_MUTEX_OBJ_TYPE -> (length (blk_list b) < n)%nat ->
  (forall rq' L',
     let s' := setq s rq' (wake_with o w <$> tasks s) (<[o := b <| blk_list := [] |>]> (blk_objs s)) L' in
     kinv s' /\ pi_inv s' /\ locked_ready s' -> Q tt s') ->
  wp (drain n o f) Q s.
Proof.
  intros Hwk Hf. revert s b. induction n as [|n IH]; intros s b Hinv Hpi Hlr Ho Hty Hlen HQ; [lia|].
  cbn. apply wp_bind. eapply wp_blk_get; [done|]. pose proof Hinv as [].
  destruct (blk_list b) as [|t l] eqn:Hl.
  - apply wp_ret. specialize (HQ (g_ready_queue s) (g_tick_head s)).
    assert (Hb : b <| blk_list := [] |> = b) by (destruct b; cbn in *; by subst).
    rewrite Hb, insert_id, wake_all_none, setq_id in HQ; [by apply HQ| |done].
    intros t Hw. apply (bl_mem _ _ _ inv_blk0 o b) in Hw; [|done]. rewrite Hl in Hw. set_solver.
  - assert (Hw : waits (tasks s) o t) by (apply (bl_mem _ _ _ inv_blk0 o b); [done|]; rewrite Hl; set_solver).
    assert (Htl : list_rm t (blk_list b) = l).
    { rewrite Hl. apply list_rm_cons. pose proof (bl_nodup _ _ _ inv_blk0 o b Ho) as Hnd.
      rewrite Hl in Hnd. by apply NoDup_cons in Hnd as []. }
    apply wp_bind.
    pose proof Hw as (k & Ht & Hp & Hbo). eapply (Hf t k); [done..|]. intros rq' L' Hinv'.
    destruct (wake_ok w s t o b rq' L' Hwk Hinv Hpi Hlr Hw Ho Hty) as (k0 & Ht0 & _ & _ & Hpi' & Hlr').
    assert (k0 = k) as -> by congruence.
    pose proof (blk_rm_at _ _ t o b inv_blk0 Hw Ho) as Hrm. cbv zeta in *. rewrite Hrm, Htl in Hinv', Hpi', Hlr' |- *.
    eapply (IH _ (b <| blk_list := l |>)); try done.
    + apply lookup_insert_eq.
    + cbn in *. lia.
    + intros rq2 L2. rewrite setq_setq. cbn [tasks blk_objs setq].
      rewrite insert_insert_eq, (wake_all_step o w _ t k) by done. cbn. apply HQ.
Qed.

Lemma wp_drain_with w f o b Q s :
  waker w -> wakes_with w f -> kinv s -> pi_inv s -> locked_ready s -> blk_objs s !! o = Some b ->
  obj_type b <> RHINO_MUTEX_OBJ_TYPE ->
  (forall rq' L',
     let s' := setq s rq' (wake_with o w <$> tasks s) (<[o := b <| blk_list := [] |>]> (blk_objs s)) L' in
     kinv s' /\ pi_inv s' /\ locked_ready s' -> Q tt s') ->
  wp (drain_blk_list o f) Q s.
Proof.
  intros. unfold drain_blk_list. apply wp_bind. eapply wp_blk_get; [done|].
  eapply (wp_drain w); try done. lia.
Qed.

(** Waking with a reason. *)
Definition wakes (st : blk_state_t) : (tid -> K unit) -> Prop := wakes_with (woken_task st).

Lemma wakes_wakeup : wakes BLK_FINISH pend_task_wakeup.
Proof. intros ????????. by eapply wp_pend_task_wakeup. Qed.
Lemma wakes_rm : wakes BLK_DEL pend_task_rm.
Proof. intros ????????. by eapply wp_pend_task_rm. Qed.

Lemma wp_drain_blk_list st f o b Q s :
  wakes st f -> kinv s -> pi_inv s -> locked_ready s -> blk_objs s !! o = Some b ->
  obj_type b <> RHINO_MUTEX_OBJ_TYPE ->
  (forall rq' L',
     let s' := setq s rq' (wake_if o st <$> tasks s) (<[o := b <| blk_list := [] |>]> (blk_objs s)) L' in
     kinv s' /\ pi_inv s' /\ locked_ready s' -> Q tt s') ->
  wp (drain_blk_list o f) Q s.
Proof. intros. by eapply (wp_drain_with (woken_task st)). Qed.

(** ** Changing the state of an object *)

Lemma kinv_objs rq T O SM MX EV QU BQ TL now act idle SM' EV' QU' BQ' :
  kinv_on rq T O SM MX EV QU BQ TL now act idle ->
  (forall o b, O !! o = Some b -> obj_ok SM' MX EV' QU' BQ' o b) ->
  kinv_on rq T O SM' MX EV' QU' BQ' TL now act idle.
Proof. intros [] Hob. by split. Qed.

Lemma kinv_sem_upd s o sm :
  kinv s ->
  (forall b, blk_objs s !! o = Some b -> obj_type b = RHINO_SEM_OBJ_TYPE ->
     0 <= count sm <= 2 ^ 32 - 1 /\ (blk_list b <> [] -> count sm = 0)) ->
  kinv (s <| sems ::= <[o := sm]> |>).
Proof.
  intros Hinv Hsm. eapply kinv_objs; [exact Hinv|]. intros o' b Hb.
  pose proof (inv_obj _ _ _ _ _ _ _ _ _ _ _ _ Hinv o' b Hb) as Hob. unfold obj_ok in *.
  destruct (obj_type b) eqn:Hty; try done. cbn. destruct (decide (o' = o)) as [->|].
  - rewrite lookup_insert_eq. exists sm. split; [done|]. by apply Hsm.
  - rewrite lookup_insert_ne by done. done.
Qed.

Lemma kinv_event_upd s o ev :
  kinv s -> 0 <= flags ev < 2 ^ 32 -> kinv (s <| events ::= <[o := ev]> |>).
Proof.
  intros Hinv Hev. eapply kinv_objs; [exact Hinv|]. intros o' b Hb.
  pose proof (inv_obj _ _ _ _ _ _ _ _ _ _ _ _ Hinv o' b Hb) as Hob. unfold obj_ok in *.
  destruct (obj_type b) eqn:Hty; try done. cbn. destruct (decide (o' = o)) as [->|].
  - rewrite lookup_insert_eq. by exists ev.
  - rewrite lookup_insert_ne by done. done.
Qed.

Lemma obj_sem s o b :
  kinv s -> blk_objs s !! o = Some b -> obj_type b = RHINO_SEM_OBJ_TYPE ->
  exists sm, sems s !! o = Some sm /\ 0 <= count sm <= 2 ^ 32 - 1 /\
    (blk_list b <> [] -> count sm = 0).
Proof.
  intros Hinv Hb Hty. pose proof (inv_obj _ _ _ _ _ _ _ _ _ _ _ _ Hinv o b Hb) as Hob.
  unfold obj_ok in Hob. by rewrite Hty in Hob.
Qed.

Lemma kok_locked_ready s : kok s -> locked_ready s.
Proof.
  intros (_ & _ & Hs & _) Hn _. destruct (Hs Hn) as (a & k & ? & ? & ? & _). eauto.
Qed.

Lemma kok_sem_upd s o sm :
  kok s ->
  (forall b, blk_objs s !! o = Some b -> obj_type b = RHINO_SEM_OBJ_TYPE ->
     0 <= count sm <= 2 ^ 32 - 1 /\ (blk_list b <> [] -> count sm = 0)) ->
  kok (s <| sems ::= <[o := sm]> |>).
Proof. intros (? & ? & ? & ?) Hsm. apply kok_intro; try done. by apply kinv_sem_upd. Qed.

(** The first waiter of an object. *)
Lemma first_waits s o b t l :
  kinv s -> blk_objs s !! o = Some b -> blk_list b = t :: l -> waits (tasks s) o t.
Proof.
  intros Hinv Ho Hl. apply (bl_mem _ _ _ (inv_blk _ _ _ _ _ _ _ _ _ _ _ _ Hinv) o b t Ho).
  rewrite Hl. set_solver.
Qed.

(** Waking one waiter of an object that is no mutex. *)
Lemma wp_wake_waiter w f s o b t Q :
  waker w -> wakes_with w f -> kinv s -> pi_inv s -> locked_ready s -> blk_objs s !! o = Some b ->
  obj_type b <> RHINO_MUTEX_OBJ_TYPE -> waits (tasks s) o t ->
  (forall k rq' L', tasks s !! t = Some k -> is_pend (task_state k) = true -> blk_obj k = Some o ->
     let s' := setq s rq' (<[t := w k]> (tasks s))
                 (<[o := b <| blk_list := list_rm t (blk_list b) |>]> (blk_objs s)) L' in
     kinv s' /\ pi_inv s' /\ locked_ready s' -> Q tt s') ->
  wp (f t) Q s.
Proof.
  intros Hwk Hf Hinv Hpi Hlr Ho Hty Hw HQ. pose proof Hinv as [].
  pose proof Hw as (k & Ht & Hp & Hbo). eapply (Hf t k); [done..|]. intros rq' L' Hinv'.
  destruct (wake_ok w s t o b rq' L' Hwk Hinv Hpi Hlr Hw Ho Hty) as (k0 & Ht0 & _ & _ & Hpi' & Hlr').
  assert (k0 = k) as -> by congruence. cbv zeta in *.
  rewrite (blk_rm_at _ _ t o b inv_blk0 Hw Ho) in Hinv', Hpi', Hlr' |- *.
  by apply HQ.
Qed.

(** Waking the first waiter of an object that is no mutex. *)
Lemma wp_wake_first_with w f s o b t l Q :
  waker w -> wakes_with w f -> kinv s -> pi_inv s -> locked_ready s -> blk_objs s !! o = Some b ->
  obj_type b <> RHINO_MUTEX_OBJ_TYPE -> blk_list b = t :: l ->
  (forall k rq' L', tasks s !! t = Some k -> is_pend (task_state k) = true -> blk_obj k = Some o ->
     let s' := setq s rq' (<[t := w k]> (tasks s)) (<[o := b <| blk_list := l |>]> (blk_objs s)) L' in
     kinv s' /\ pi_inv s' /\ locked_ready s' -> Q tt s') ->
  wp (f t) Q s.
Proof.
  intros Hwk Hf Hinv Hpi Hlr Ho Hty Hl HQ.
  eapply (wp_wake_waiter w f s o b); [done..|by eapply first_waits|].
  pose proof (bl_nodup _ _ _ (inv_blk _ _ _ _ _ _ _ _ _ _ _ _ Hinv) o b Ho) as Hnd.
  rewrite Hl in Hnd |- *. apply NoDup_cons in Hnd as [Hnd _]. by rewrite list_rm_cons.
Qed.

Lemma wp_wake_first st f s o b t l Q :
  wakes st f -> kinv s -> pi_inv s -> locked_ready s -> blk_objs s !! o = Some b ->
  obj_type b <> RHINO_MUTEX_OBJ_TYPE -> blk_list b = t :: l ->
  (forall k rq' L', tasks s !! t = Some k -> is_pend (task_state k) = true -> blk_obj k = Some o ->
     let s' := setq s rq' (<[t := woken_task st k]> (tasks s)) (<[o := b <| blk_list := l |>]> (blk_objs s)) L' in
     kinv s' /\ pi_inv s' /\ locked_ready s' -> Q tt s') ->
  wp (f t) Q s.
Proof. intros. by eapply (wp_wake_first_with (woken_task st)). Qed.

(** ** Notifications *)

(** the notification of the object's set *)
Definition notified (notify : oid -> sid -> K unit) (o : oid) (b : blk_obj_t) : K unit :=
  match handle b with Some h => notify o h | None => mret tt end.

(** what the notification of a set has to do in the states [P] it is called in *)
Definition notify_ok (notify : oid -> sid -> K unit) (o : oid) (b : blk_obj_t) (P : kstate -> Prop) : Prop :=
  forall h s0, handle b = Some h -> P s0 -> kok s0 -> exists s1, notify o h s0 = Some (tt, s1) /\ kok s1.

Lemma notified_total notify o b (P : kstate -> Prop) s :
  notify_ok notify o b P -> P s -> kok s -> exists s1, notified notify o b s = Some (tt, s1) /\ kok s1.
Proof. intros Hn HP Hok. unfold notified. destruct (handle b) eqn:Hh; [by apply Hn|]. by exists s. Qed.

(** ** Creating and deleting objects *)

(** [o] is not in use as a blocking object. *)
Definition unused_obj (s : kstate) (o : oid) : Prop :=
  forall b, blk_objs s !! o = Some b -> obj_type b = RHINO_OBJ_TYPE_NONE /\ blk_list b = [].

Lemma holds_insert O M o b' t m :
  (forall b, O !! o = Some b -> obj_type b <> RHINO_MUTEX_OBJ_TYPE) ->
  obj_type b' <> RHINO_MUTEX_OBJ_TYPE ->
  holds (<[o := b']> O) M t m <-> holds O M t m.
Proof.
  intros Hb Hb'. unfold holds. destruct (decide (m = o)) as [->|].
  - rewrite lookup_insert_eq. split; intros (b0 & mx & Ho & Hty & _); [naive_solver|].
    by apply Hb in Ho.
  - by rewrite lookup_insert_ne.
Qed.

(** Setting an object that is, and stays, no mutex, and has the same waiters. *)
Lemma kinv_set_obj s o b' :
  kinv s -> (forall b, blk_objs s !! o = Some b -> obj_type b <> RHINO_MUTEX_OBJ_TYPE) ->
  obj_type b' <> RHINO_MUTEX_OBJ_TYPE ->
  NoDup (blk_list b') -> (forall t, t ∈ blk_list b' <-> waits (tasks s) o t) ->
  (blk_policy b' = BLK_POLICY_PRI ->
     StronglySorted (fun x y => prio_of (tasks s) x <= prio_of (tasks s) y) (blk_list b')) ->
  obj_ok (sems s) (mutexes s) (events s) (queues s) (buf_queues s) o b' ->
  kinv (s <| blk_objs ::= <[o := b']> |>).
Proof.
  intros [] Hb Hb' Hnd Hmem Hsort Hob.
  assert (HH : forall t m, holds (<[o := b']> (blk_objs s)) (mutexes s) t m <-> holds (blk_objs s) (mutexes s) t m)
    by (intros; by apply holds_insert).
  pose proof inv_blk0 as []. split; try done; cbn.
  - split.
    + intros o' b0. destruct (decide (o' = o)) as [->|].
      * rewrite lookup_insert_eq. by intros [= <-].
      * rewrite lookup_insert_ne by done. eauto.
    + intros o' b0 t. destruct (decide (o' = o)) as [->|].
      * rewrite lookup_insert_eq. by intros [= <-].
      * rewrite lookup_insert_ne by done. eauto.
    + intros o' t Hw. apply lookup_insert_is_Some. destruct (decide (o = o')); [by left|right].
      split; [done|]. eauto.
    + intros o' b0. destruct (decide (o' = o)) as [->|].
      * rewrite lookup_insert_eq. by intros [= <-].
      * rewrite lookup_insert_ne by done. eauto.
  - intros o' b0. destruct (decide (o' = o)) as [->|].
    + rewrite lookup_insert_eq. by intros [= <-].
    + rewrite lookup_insert_ne by done. eauto.
  - intros t k Hk Hd. destruct (inv_chain0 t k Hk Hd) as (l & ? & ? & Hl). exists l.
    split; [done|]. split; [done|]. intros m. by rewrite HH.
  - intros t m. rewrite HH. eauto.
  - intros t m. rewrite HH. eauto.
Qed.

Lemma pi_set_obj s o b' :
  pi_inv s -> (forall b, blk_objs s !! o = Some b -> obj_type b <> RHINO_MUTEX_OBJ_TYPE) ->
  obj_type b' <> RHINO_MUTEX_OBJ_TYPE -> pi_inv (s <| blk_objs ::= <[o := b']> |>).
Proof.
  intros Hpi Hb Hb'. apply (pi_frame s); try done.
  - intros t k Hk Hd. by exists k.
  - intros t m. by apply holds_insert.
Qed.

(** A new object without waiters. *)
Lemma kok_new_obj s o b' :
  kok s -> unused_obj s o -> blk_list b' = [] -> obj_type b' <> RHINO_MUTEX_OBJ_TYPE ->
  obj_ok (sems s) (mutexes s) (events s) (queues s) (buf_queues s) o b' ->
  kok (s <| blk_objs ::= <[o := b']> |>).
Proof.
  intros (Hinv & Hpi & Hs & Hc) Hun Hl Hty Hob.
  assert (Hb : forall b, blk_objs s !! o = Some b -> obj_type b <> RHINO_MUTEX_OBJ_TYPE).
  { intros b Hb. destruct (Hun b Hb) as [-> _]. done. }
  apply kok_intro; try done; [|by apply pi_set_obj].
  apply kinv_set_obj; try done; rewrite Hl; [apply NoDup_nil_2| |constructor].
  intros t. split; [set_solver|]. intros Hw. exfalso. pose proof (inv_blk _ _ _ _ _ _ _ _ _ _ _ _ Hinv) as [].
  destruct (bl_obj0 o t Hw) as [b Hbo]. apply (bl_mem0 o b) in Hw; [|done].
  destruct (Hun b Hbo) as [_ He]. rewrite He in Hw. set_solver.
Qed.

(** An object that is no mutex gets another type and keeps its waiters. *)
Lemma kinv_retype s o b ty :
  kinv s -> pi_inv s -> blk_objs s !! o = Some b -> obj_type b <> RHINO_MUTEX_OBJ_TYPE ->
  ty <> RHINO_MUTEX_OBJ_TYPE ->
  obj_ok (sems s) (mutexes s) (events s) (queues s) (buf_queues s) o (b <| obj_type := ty |>) ->
  kinv (s <| blk_objs ::= <[o := b <| obj_type := ty |>]> |>) /\
  pi_inv (s <| blk_objs ::= <[o := b <| obj_type := ty |>]> |>).
Proof.
  intros Hinv Hpi Ho Hty Hty' Hob. pose proof (inv_blk _ _ _ _ _ _ _ _ _ _ _ _ Hinv) as [].
  assert (Hb : forall b', blk_objs s !! o = Some b' -> obj_type b' <> RHINO_MUTEX_OBJ_TYPE).
  { intros b' Hb'. congruence. }
  split; [|by apply pi_set_obj]. apply kinv_set_obj; try done; cbn; eauto.
Qed.

(** The first half of every deletion: the object loses its type and all its waiters. *)
Lemma wp_untype_drain {B} s o b (rest : K B) Q :
  kinv s -> pi_inv s -> locked_ready s -> blk_objs s !! o = Some b ->
  obj_type b <> RHINO_MUTEX_OBJ_TYPE ->
  (forall rq' L',
     let s' := setq s rq' (wake_if o BLK_DEL <$> tasks s)
       (<[o := b <| obj_type := RHINO_OBJ_TYPE_NONE |> <| blk_list := [] |>]> (blk_objs s)) L' in
     kinv s' /\ pi_inv s' /\ locked_ready s' -> wp rest Q s') ->
  wp (blk_upd o (fun b => b <| obj_type := RHINO_OBJ_TYPE_NONE |>);;
      drain_blk_list o pend_task_rm;; rest) Q s.
Proof.
  intros Hinv Hpi Hlr Ho Hty HQ. apply wp_bind. eapply wp_blk_upd; [done|]. apply wp_bind.
  destruct (kinv_retype s o b RHINO_OBJ_TYPE_NONE Hinv Hpi Ho Hty) as [Hinv1 Hpi1]; [done|done|].
  eapply (wp_drain_blk_list BLK_DEL); [apply wakes_rm|exact Hinv1|exact Hpi1|exact Hlr|cbn; apply lookup_insert_eq|done|].
  intros rq' L'. specialize (HQ rq' L'). cbv zeta. cbn [tasks blk_objs].
  match goal with |- _ -> wp _ _ ?x => match type of HQ with let s' := ?y in _ =>
    replace x with y; [exact HQ|] end end.
  kstate_eq.
Qed.

End inv.
