(* ===== verification/Demo.v ===== *)
(** * A kernel state

    A running system on the Linux host with a task in each state and an object of each
    type.  It satisfies the invariant; the witnesses of the theorems start from it. *)
From S2P Require Import Prelude Config Kernel Sched TickList Pend Inv.
From S2P Require Ringbuf Bitmap.
Import Sched TickList Pend.

#[local] Existing Instance linuxhost.

(** ** The state *)

Definition demo_task (st : task_stat_t) (pri base : Z) : ktask_t :=
  mk_ktask 0 [0; 0] None 0 0 None 0 0 false 0 0 st BLK_FINISH None None 10 10 0 None 0 1 pri base 1.

(** 1 is the idle task; 2 runs, owns the mutex 21 and got the priority of 3, which waits for
    it; 4 waits for the semaphore 20 until tick 103; 5 sleeps until tick 107; 6 is ready;
    7 is suspended; 8 waits for the event 22 and 9 for the queue 23; 10 waits for the
    buffer queue 24 with its buffer at 40.  The semaphore 25 is in the set 54, whose queue is 27. *)
Definition demo_tasks : gmap tid ktask_t :=
  <[1%positive := demo_task K_RDY 61 61]> (
  <[2%positive := (demo_task K_RDY 5 10) <| mutex_list := Some 21%positive |>]> (
  <[3%positive := (demo_task K_PEND 5 5) <| blk_obj := Some 21%positive |>]> (
  <[4%positive := (demo_task K_PEND 12 12) <| blk_obj := Some 20%positive |>
     <| tick_head := true |> <| tick_match := 103 |> <| tick_remain := 5 |>]> (
  <[5%positive := (demo_task K_SLEEP 12 12)
     <| tick_head := true |> <| tick_match := 107 |> <| tick_remain := 7 |>]> (
  <[6%positive := demo_task K_RDY 20 20]> (
  <[7%positive := (demo_task K_SUSPENDED 15 15) <| suspend_count := 1 |>]> (
  <[8%positive := (demo_task K_PEND 16 16) <| blk_obj := Some 22%positive |>
     <| pend_flags := 6 |> <| pend_option := 3 |> <| pend_info := Some 41%positive |>]> (
  <[9%positive := (demo_task K_PEND 17 17) <| blk_obj := Some 23%positive |>]> (
  <[10%positive := (demo_task K_PEND 18 18) <| blk_obj := Some 24%positive |> <| msg := 40 |>]> ∅))))))))).

Definition demo_obj (ty : kobj_type_t) (l : list tid) : blk_obj_t :=
  mk_blk_obj l BLK_POLICY_PRI ty None.

Definition demo_objs : gmap oid blk_obj_t :=
  <[20%positive := demo_obj RHINO_SEM_OBJ_TYPE [4%positive]]> (
  <[21%positive := demo_obj RHINO_MUTEX_OBJ_TYPE [3%positive]]> (
  <[22%positive := demo_obj RHINO_EVENT_OBJ_TYPE [8%positive]]> (
  <[23%positive := demo_obj RHINO_QUEUE_OBJ_TYPE [9%positive]]> (
  <[24%positive := demo_obj RHINO_BUF_QUEUE_OBJ_TYPE [10%positive]]> (
  <[25%positive := mk_blk_obj [] BLK_POLICY_PRI RHINO_SEM_OBJ_TYPE (Some 54%positive)]> (
  <[26%positive := demo_obj RHINO_MUTEX_OBJ_TYPE []]> (
  <[27%positive := demo_obj RHINO_QUEUE_OBJ_TYPE []]> (
  <[28%positive := demo_obj RHINO_BUF_QUEUE_OBJ_TYPE []]> ∅)))))))).

Definition demo_sems : gmap oid ksem_t :=
  <[20%positive := mk_ksem 0 1 1]> (<[25%positive := mk_ksem 3 4 1]> ∅).

Definition demo_mutexes : gmap oid kmutex_t :=
  <[21%positive := mk_kmutex (Some 2%positive) None 1 1]> (
  <[26%positive := mk_kmutex None None 0 1]> ∅).

Definition demo_events : gmap oid kevent_t := <[22%positive := mk_kevent 5 1]> ∅.

(** a ring of two messages, the pointers 7 and 9 *)
Definition demo_ring : Ringbuf.Ringbuf.k_ringbuf_t :=
  Ringbuf.Ringbuf.mk_ringbuf [0;0;0;0; 7;0;0;0; 9;0;0;0; 0;0;0;0] 4 12 8
    Ringbuf.Ringbuf.RINGBUF_TYPE_FIX 4.

Definition empty_ring (ty : Ringbuf.Ringbuf.ringbuf_type) (n blk : nat) : Ringbuf.Ringbuf.k_ringbuf_t :=
  Ringbuf.Ringbuf.ringbuf_init (replicate n 0) ty blk.

Definition demo_queues : gmap oid kqueue_t :=
  <[23%positive := mk_kqueue (empty_ring Ringbuf.Ringbuf.RINGBUF_TYPE_FIX 16 4) 50%positive 4 0 2 1]> (
  <[27%positive := mk_kqueue demo_ring 51%positive 4 2 2 1]> ∅).

Definition demo_buf_queues : gmap oid kbuf_queue_t :=
  <[24%positive := mk_kbuf_queue 52%positive (empty_ring Ringbuf.Ringbuf.RINGBUF_TYPE_DYN 32 8) 8 0 0 32 1]> (
  <[28%positive := mk_kbuf_queue 53%positive (empty_ring Ringbuf.Ringbuf.RINGBUF_TYPE_DYN 32 8) 8 0 0 32 1]> ∅).

(** the ready tasks 2, 6 and 1 at the priorities 5, 20 and 61 *)
Definition demo_rq : runqueue_t :=
  mk_runqueue
    (<[5%nat := [2%positive]]> (<[20%nat := [6%positive]]> (<[61%nat := [1%positive]]> (replicate 62 []))))
    [Z.lor (2 ^ 26) (2 ^ 11); 4] 5.

Definition demo_kobjs : kobj_list_t :=
  mk_kobj_list [1;2;3;4;5;6;7;8;9;10]%positive [21;26]%positive [20;25]%positive [22%positive]
    [23;27]%positive [24;28]%positive [].

Definition demo : kstate :=
  mk_kstate RHINO_RUNNING 1 1%positive demo_rq 0 0 (Some 2%positive) (Some 2%positive) 100
    [4;5]%positive 100 demo_kobjs demo_tasks demo_objs demo_sems demo_mutexes demo_events demo_queues
    demo_buf_queues (<[54%positive := 27%positive]> ∅) 20%positive [] ∅
    (mk_timer_sys [] 0 24%positive ∅) (mk_work_sys [] 60%positive ∅ ∅) (mk_mm_sys None ∅ false false) false [] ∅
    (<[40%positive := replicate 8 0]> (<[42%positive := [1;2;3;4]]> ∅)) [].

(** the task at an address *)
Definition demo_k (t : tid) : ktask_t := default (demo_task K_DELETED 0 0) (demo_tasks !! t).

(** ** It is well formed *)

(** the cases of a lookup in a literal map *)
Ltac lookup_cases H :=
  lazymatch type of H with
  | <[_ := _]> _ !! _ = Some _ =>
      apply lookup_insert_Some in H as [[? ?]|[? H]]; [subst|lookup_cases H]
  | ∅ !! _ = Some _ => by rewrite lookup_empty in H
  end.

Ltac task_cases H := unfold demo_tasks in H; lookup_cases H.
Ltac obj_cases H := unfold demo_objs in H; lookup_cases H.

Lemma forall_below (P : Z -> Prop) `{forall z, Decision (P z)} (n : nat) :
  forallb (fun i => bool_decide (P (Z.of_nat i))) (seq 0 n) = true ->
  forall z, 0 <= z < Z.of_nat n -> P z.
Proof.
  intros Hf z Hz. rewrite forallb_forall in Hf. specialize (Hf (Z.to_nat z)).
  rewrite bool_decide_eq_true, Z2Nat.id in Hf by lia. apply Hf, in_seq. lia.
Qed.

Lemma demo_rdy t p :
  rdy demo_tasks t p <-> (t, p) ∈ [(2%positive, 5); (6%positive, 20); (1%positive, 61)].
Proof.
  split.
  - intros (k & Hk & Hst & Hp). task_cases Hk; cbn in Hst; try discriminate; cbn; set_solver.
  - rewrite !elem_of_cons. intros [[= -> ->]|[[= -> ->]|[[= -> ->]|H]]]; [..|set_solver];
      eexists; (split; [reflexivity|done]).
Qed.

Lemma demo_ring_items p :
  0 <= p -> ring demo_rq p =
    if decide (p = 5) then [2%positive] else if decide (p = 20) then [6%positive]
    else if decide (p = 61) then [1%positive] else [].
Proof.
  intros Hp. destruct (decide (p < 62)) as [Hlt|Hge].
  - pose proof (forall_below (fun q => ring demo_rq q = if decide (q = 5) then [2%positive]
      else if decide (q = 20) then [6%positive] else if decide (q = 61) then [1%positive] else []) 62) as Hb.
    apply Hb; [vm_compute; reflexivity|lia].
  - rewrite !decide_False by lia. unfold ring. rewrite lookup_ge_None_2; [done|].
    change (length (cur_list_item demo_rq)) with 62%nat. lia.
Qed.

Lemma demo_rq_ok : rq_ok demo_rq (rdy demo_tasks).
Proof.
  split.
  - reflexivity.
  - unfold Bitmap.Bitmap.words_ok. apply Forall_forall. intros w Hw.
    cbn [task_bit_map demo_rq] in Hw. rewrite !elem_of_cons in Hw.
    destruct Hw as [->|[->|H]]; [vm_compute; split; congruence..|set_solver].
  - reflexivity.
  - intros p Hp. destruct (decide (p < 64)) as [Hlt|Hge].
    + pose proof (forall_below (fun q => Bitmap.Bitmap.bit_at (task_bit_map demo_rq) q
        = bool_decide (ring demo_rq q <> [])) 64) as Hb.
      apply Hb; [vm_compute; reflexivity|lia].
    + rewrite demo_ring_items, !decide_False by lia. unfold Bitmap.Bitmap.bit_at.
      rewrite lookup_ge_None_2; [done|]. change (length (task_bit_map demo_rq)) with 2%nat.
      assert (2 <= p / 32) by (apply Z.div_le_lower_bound; lia). lia.
  - intros p Hp. rewrite demo_ring_items by done. repeat case_decide; apply NoDup_ListNoDup; repeat constructor; set_solver.
  - intros t p Hp. rewrite demo_ring_items, demo_rdy by done. rewrite !elem_of_cons.
    repeat case_decide; subst; set_solver.
  - intros t p Hr. apply demo_rdy in Hr. rewrite !elem_of_cons in Hr.
    change (0 <= p < 62). destruct Hr as [[= -> ->]|[[= -> ->]|[[= -> ->]|H]]]; [lia..|set_solver].
  - left. split; [cbn; lia|]. split; [reflexivity|]. cbn. intros m Hm.
    pose proof (forall_below (fun q => Bitmap.Bitmap.bit_at (task_bit_map demo_rq) q = false) 5) as Hb.
    apply Hb; [vm_compute; reflexivity|lia].
Qed.

Lemma demo_waits o t :
  waits demo_tasks o t <-> (o, t) ∈ [(21, 3); (20, 4); (22, 8); (23, 9); (24, 10)]%positive.
Proof.
  split.
  - intros (k & Hk & Hp & Ho). task_cases Hk; cbn in Hp; try discriminate; cbn in Ho; injection Ho as <-; set_solver.
  - rewrite !elem_of_cons. intros [[= -> ->]|[[= -> ->]|[[= -> ->]|[[= -> ->]|[[= -> ->]|H]]]]]; [..|set_solver];
      eexists; (split; [reflexivity|done]).
Qed.

Lemma demo_blk : bl_ok demo_objs (waits demo_tasks) (prio_of demo_tasks).
Proof.
  split.
  - intros o b Ho. obj_cases Ho; cbn; (apply NoDup_singleton || apply NoDup_nil_2).
  - intros o b t Ho. rewrite demo_waits. obj_cases Ho; cbn [blk_list demo_obj]; set_solver.
  - intros o t Hw. apply demo_waits in Hw. rewrite !elem_of_cons in Hw.
    destruct Hw as [[= -> ->]|[[= -> ->]|[[= -> ->]|[[= -> ->]|[[= -> ->]|H]]]]]; [..|set_solver];
      eexists; reflexivity.
  - intros o b Ho _. obj_cases Ho; cbn; repeat constructor.
Qed.

Lemma demo_tick : tick_ok [4; 5]%positive demo_tasks 100.
Proof.
  split.
  - by apply NoDup_ListNoDup; repeat constructor; set_solver.
  - intros t. split.
    + rewrite !elem_of_cons. intros [->|[->|H]]; [..|set_solver]; eexists; (split; [reflexivity|done]).
    + intros (k & Hk & Hh). task_cases Hk; cbn in Hh; try discriminate; set_solver.
  - repeat constructor. vm_compute. discriminate.
  - intros t. rewrite !elem_of_cons. intros [->|[->|H]]; [..|set_solver]; vm_compute; discriminate.
Qed.

Lemma demo_tasks_ok t k : demo_tasks !! t = Some k -> task_ok k.
Proof.
  intros Hk. task_cases Hk; split; cbn; try done; eauto; lia.
Qed.

Lemma demo_objs_ok o b :
  demo_objs !! o = Some b -> obj_ok demo_sems demo_mutexes demo_events demo_queues demo_buf_queues o b.
Proof.
  intros Ho. obj_cases Ho; unfold obj_ok; cbn [obj_type demo_obj];
    eexists; first [reflexivity|split; [reflexivity|]; cbn; repeat split; intros; done || lia].
Qed.

Lemma demo_holds t m : holds demo_objs demo_mutexes t m <-> t = 2%positive /\ m = 21%positive.
Proof.
  split.
  - intros (b & mx & Hb & Hty & Hm & Ht). obj_cases Hb; cbn in Hty; try discriminate;
      vm_compute in Hm; simplify_eq; cbn in Ht; by simplify_eq.
  - intros [-> ->]. eexists _, _. repeat split.
Qed.

Lemma demo_kinv : kinv demo.
Proof.
  split.
  - apply demo_rq_ok.
  - apply demo_blk.
  - apply demo_tick.
  - apply demo_tasks_ok.
  - apply demo_objs_ok.
  - intros t k Hk _. cbn in Hk |- *. destruct (decide (t = 2%positive)) as [->|Hne].
    + vm_compute in Hk. simplify_eq. exists [21%positive]. split; [repeat eexists|]. split; [apply NoDup_singleton|].
      intros m. rewrite demo_holds. set_solver.
    + exists []. split; [task_cases Hk; done|]. split; [apply NoDup_nil_2|].
      intros m. rewrite demo_holds. set_solver.
  - cbn. intros t m. rewrite demo_holds. intros [-> ->]. by eexists.
  - cbn. intros t m. rewrite demo_holds, demo_waits. intros [-> ->]. set_solver.
  - by eexists.
  - eexists. by split.
Qed.

Lemma demo_pi : pi_inv demo.
Proof.
  intros t k Hk Hd. cbn in Hk |- *. exists k. split; [done|].
  destruct (decide (t = 2%positive)) as [->|Hne].
  - vm_compute in Hk. simplify_eq. cbn. split; [lia|]. split.
    + intros m w. rewrite demo_holds, demo_waits. intros [_ ->] Hw.
      rewrite !elem_of_cons, elem_of_nil in Hw. by destruct_or! Hw; simplify_eq.
    + right. exists 21%positive, 3%positive. rewrite demo_holds, demo_waits. split; [done|]. split; [set_solver|done].
  - assert (prio k = b_prio k) as -> by (task_cases Hk; done). split; [done|]. split; [|by left].
    intros m w. rewrite demo_holds. intros [? _]. done.
Qed.

Lemma demo_ok : kok demo.
Proof.
  split; [apply demo_kinv|]. split; [apply demo_pi|]. split.
  - intros _. eexists 2%positive, _. repeat split. intros _. eexists. reflexivity.
  - repeat split; vm_compute; discriminate.
Qed.
