(* ===== verification/Prio.v ===== *)
(** * Priorities under mutexes ([k_mutex.c], [k_task.c]: priority inheritance)

    A task that holds mutexes runs at least at the priority of their first waiters.  The
    mutexes of a task are chained from [mutex_list] through [mutex_next]. *)
From S2P Require Import Prelude Config Kernel Sched TickList Pend Inv.
Import Sched TickList Pend.

Module Prio.
Section prio.
Context {cfg : RhinoConfig}.

(** fuel for a walk along the mutexes of one task: there are no more than all *)
Definition chain_fuel (s : kstate) : nat := S (size (mutexes s)).

(** the priority of the first waiter of a mutex, or [pri] without one *)
Definition first_waiter_pri (m : oid) (pri : Z) : K Z :=
  b ← blk_get m;
  match blk_list b with
  | [] => mret pri
  | first :: _ => k ← task_get first; mret (prio k)
  end.

Fixpoint mutex_pri_limit_loop (fuel : nat) (mutex_tmp : option oid) (pri high_pri : Z) : K Z :=
  match fuel with
  | O => fault
  | S fuel =>
      match mutex_tmp with
      | None => mret high_pri
      | Some m =>
          pri ← first_waiter_pri m pri;
          mx ← mutex_get m;
          mutex_pri_limit_loop fuel (mutex_next mx) pri
            (if decide (pri < high_pri) then pri else high_pri)
      end
  end.

Definition mutex_pri_limit (task : tid) (pri : Z) : K Z :=
  k ← task_get task;
  fuel ← gets chain_fuel;
  mutex_pri_limit_loop fuel (mutex_list k) pri pri.

(** [\*prev]: the head pointer in the task, or the link in a mutex *)
Definition link_get (prev : tid + oid) : K (option oid) :=
  match prev with
  | inl t => k ← task_get t; mret (mutex_list k)
  | inr m => mx ← mutex_get m; mret (mutex_next mx)
  end.

Definition link_set (prev : tid + oid) (next : option oid) : K unit :=
  match prev with
  | inl t => task_upd t (fun k => k <| mutex_list := next |>)
  | inr m => mutex_upd m (fun mx => mx <| mutex_next := next |>)
  end.

Fixpoint mutex_pri_look_loop (fuel : nat) (prev : tid + oid) (mutex_rel : option oid)
    (new_pri pri : Z) : K Z :=
  match fuel with
  | O => fault
  | S fuel =>
      mutex_tmp ← link_get prev;
      match mutex_tmp with
      | None => mret new_pri
      | Some m =>
          if decide (mutex_rel = Some m) then
            (* unlink the released mutex and look at the same link again *)
            mx ← mutex_get m;
            link_set prev (mutex_next mx);;
            mutex_pri_look_loop fuel prev mutex_rel new_pri pri
          else
            pri ← first_waiter_pri m pri;
            mutex_pri_look_loop fuel (inr m) mutex_rel
              (if decide (pri < new_pri) then pri else new_pri) pri
      end
  end.

Definition mutex_pri_look (task : tid) (mutex_rel : option oid) : K Z :=
  k ← task_get task;
  fuel ← gets chain_fuel;
  mutex_pri_look_loop fuel (inl task) mutex_rel (b_prio k) (b_prio k).

(** One turn of the loop of [task_pri_change]: the status to stop with, or the task and
    the priority to go on with. *)
Definition task_pri_change_step (task : tid) (new_pri : Z) : K (kstat_t + tid * Z) :=
  k ← task_get task;
  if decide (prio k = new_pri) then mret (inl RHINO_SUCCESS) else
  match task_state k with
  | K_RDY =>
      ready_list_rm task;;
      task_upd task (fun k => k <| prio := new_pri |>);;
      a ← gets g_active_task;
      (if decide (Some task = a) then ready_list_add_head task else ready_list_add_tail task);;
      mret (inl RHINO_SUCCESS)
  | K_SLEEP | K_SUSPENDED | K_SLEEP_SUSPENDED =>
      task_upd task (fun k => k <| prio := new_pri |>);;
      mret (inl RHINO_SUCCESS)
  | K_PEND | K_PEND_SUSPENDED =>
      let old_pri := prio k in
      task_upd task (fun k => k <| prio := new_pri |>);;
      pend_list_reorder task;;
      o ← deref (blk_obj k);
      b ← blk_get o;
      if decide (obj_type b = RHINO_MUTEX_OBJ_TYPE) then
        mx ← mutex_get o;
        mutex_task ← deref (mutex_task mx);
        km ← task_get mutex_task;
        k ← task_get task;
        if decide (prio k < prio km) then
          (* the highest priority of the waiters became higher: raise the owner *)
          mret (inr (mutex_task, new_pri))
        else if decide (prio km = old_pri) then
          new_pri ← mutex_pri_look mutex_task None;
          km ← task_get mutex_task;
          if decide (new_pri <> prio km) then mret (inr (mutex_task, new_pri))
          else mret (inl RHINO_SUCCESS)
        else mret (inl RHINO_SUCCESS)
      else mret (inl RHINO_SUCCESS)
  | _ => k_err_proc RHINO_INV_TASK_STATE;; mret (inl RHINO_INV_TASK_STATE)
  end.

Fixpoint task_pri_change_loop (fuel : nat) (task : tid) (new_pri : Z) : K kstat_t :=
  match fuel with
  | O => fault
  | S fuel =>
      r ← task_pri_change_step task new_pri;
      match r with
      | inl stat => mret stat
      | inr (task, new_pri) => task_pri_change_loop fuel task new_pri
      end
  end.

(** A chain of owners that get a lower priority visits each task at most once, and may be
    followed by one that get a higher priority, which visits each at most once. *)
Definition pri_change_fuel (s : kstate) : nat := (2 * size (tasks s) + 2)%nat.

Definition task_pri_change (task : tid) (new_pri : Z) : K kstat_t :=
  fuel ← gets pri_change_fuel;
  task_pri_change_loop fuel task new_pri.

Definition mutex_release (task : tid) (mutex_rel : option oid) : K unit :=
  new_pri ← mutex_pri_look task mutex_rel;
  k ← task_get task;
  if decide (new_pri <> prio k) then _ ← task_pri_change task new_pri; mret tt else mret tt.

Definition mutex_task_pri_reset (task : tid) : K unit :=
  k ← task_get task;
  o ← deref (blk_obj k);
  b ← blk_get o;
  if decide (obj_type b = RHINO_MUTEX_OBJ_TYPE) then
    mx ← mutex_get o;
    mutex_task ← deref (mutex_task mx);
    km ← task_get mutex_task;
    if decide (prio km = prio k) then mutex_release mutex_task None else mret tt
  else mret tt.

(** ** The priority a set of mutexes asks for *)

(** [v] is the smallest of [base] and the priorities of the tasks that, according to [W],
    wait for mutexes of [t]. *)
Definition pi_val (T : gmap tid ktask_t) (O : gmap oid blk_obj_t) (M : gmap oid kmutex_t)
    (W : oid -> tid -> Prop) (t : tid) (base v : Z) : Prop :=
  v <= base /\
  (forall m w, holds O M t m -> W m w -> v <= prio_of T w) /\
  (v = base \/ exists m w, holds O M t m /\ W m w /\ prio_of T w = v).

Definition pi_on (T : gmap tid ktask_t) (O : gmap oid blk_obj_t) (M : gmap oid kmutex_t)
    (W : oid -> tid -> Prop) (t : tid) (v : Z) : Prop :=
  exists k, T !! t = Some k /\ pi_val T O M W t (b_prio k) v.

(** everybody else has the right priority *)
Definition pi_but (T : gmap tid ktask_t) (O : gmap oid blk_obj_t) (M : gmap oid kmutex_t)
    (W : oid -> tid -> Prop) (t : tid) : Prop :=
  forall u k, T !! u = Some k -> task_state k <> K_DELETED -> u <> t -> pi_on T O M W u (prio k).

Lemma pi_at_on T O M t v : pi_at T O M t v <-> pi_on T O M (waits T) t v.
Proof. done. Qed.

Lemma pi_but_inv s t : pi_inv s -> pi_but (tasks s) (blk_objs s) (mutexes s) (waits (tasks s)) t.
Proof. intros Hpi u k Hu Hd _. by apply Hpi. Qed.

Lemma pi_inv_on s t k :
  pi_but (tasks s) (blk_objs s) (mutexes s) (waits (tasks s)) t ->
  tasks s !! t = Some k -> pi_on (tasks s) (blk_objs s) (mutexes s) (waits (tasks s)) t (prio k) ->
  pi_inv s.
Proof.
  intros Hbut Ht Hat u ku Hu Hd. destruct (decide (u = t)) as [->|Hne]; [|by apply Hbut].
  assert (ku = k) as -> by congruence. done.
Qed.

Section step.
Context (T : gmap tid ktask_t) (O O' : gmap oid blk_obj_t) (M : gmap oid kmutex_t) (W : oid -> tid -> Prop).
Context (t : tid) (k : ktask_t) (new : Z).
Context (Ht : T !! t = Some k) (Hsh : same_shape O O').
Let T' := <[t := k <| prio := new |>]> T.

Lemma b_prio_upd u ku : T !! u = Some ku -> exists ku', T' !! u = Some ku' /\ b_prio ku' = b_prio ku.
Proof.
  intros Hu. unfold T'. destruct (decide (u = t)) as [->|Hne].
  - rewrite lookup_insert_eq. eexists. split; [done|]. cbn. congruence.
  - rewrite lookup_insert_ne by done. eauto.
Qed.

Lemma prio_of_step x : prio_of T' x = if decide (x = t) then new else prio_of T x.
Proof. apply prio_of_insert. Qed.

(** A task that owns nothing [t] waits for does not see the change. *)
Lemma pi_on_other u v :
  (forall m, holds O M u m -> ~ W m t) -> pi_on T O M W u v -> pi_on T' O' M W u v.
Proof.
  intros Hno (ku & Hu & Hle & Hall & Hex). destruct (b_prio_upd u ku Hu) as (ku' & Hu' & Hb).
  exists ku'. split; [done|]. rewrite Hb. split; [done|]. split.
  - intros m w Hm Hw. rewrite (holds_same_shape O O') in Hm by done. rewrite prio_of_step.
    case_decide as Hd; [subst; by destruct (Hno m Hm)|by eapply Hall].
  - destruct Hex as [->|(m & w & Hm & Hw & Hp)]; [by left|]. right. exists m, w.
    rewrite (holds_same_shape O O'), prio_of_step by done.
    case_decide as Hd; [subst; by destruct (Hno m Hm)|done].
Qed.

Context (Hfun : forall o o' x, W o x -> W o' x -> o = o').
Context (o : oid) (u : tid) (Hu : holds O M u o) (Hw : W o t).

Lemma waits_same m : W m t -> m = o.
Proof. intros Hm. by eapply Hfun. Qed.

(** the owner of the mutex [t] waits for, when [t] got a higher priority *)
Lemma pi_on_raise v : pi_on T O M W u v -> new < v -> pi_on T' O' M W u new.
Proof.
  intros (ku & Hku & Hle & Hall & Hex) Hlt. destruct (b_prio_upd u ku Hku) as (ku' & Hu' & Hb).
  exists ku'. split; [done|]. rewrite Hb. split; [lia|]. split.
  - intros m w Hm Hmw. rewrite (holds_same_shape O O') in Hm by done. rewrite prio_of_step.
    case_decide as Hd; [lia|]. pose proof (Hall m w Hm Hmw). lia.
  - right. exists o, t. rewrite (holds_same_shape O O'), prio_of_step by done.
    by rewrite decide_True.
Qed.

Lemma pi_on_keep v :
  pi_on T O M W u v -> v <= new -> v <> prio k -> pi_on T' O' M W u v.
Proof.
  intros (ku & Hku & Hle & Hall & Hex) Hlt Hne. destruct (b_prio_upd u ku Hku) as (ku' & Hu' & Hb).
  exists ku'. split; [done|]. rewrite Hb. split; [lia|]. split.
  - intros m w Hm Hmw. rewrite (holds_same_shape O O') in Hm by done. rewrite prio_of_step.
    case_decide; [lia|]. by eapply Hall.
  - destruct Hex as [->|(m & w & Hm & Hmw & Hp)]; [by left|]. right. exists m, w.
    rewrite (holds_same_shape O O'), prio_of_step by done.
    case_decide as Hd; [|done]. subst w. exfalso. unfold prio_of in Hp. rewrite Ht in Hp. done.
Qed.

(** lowering [t] never asks for a higher priority of the owner *)
Lemma pi_on_lower_bound v v' :
  pi_on T O M W u v -> prio k < new -> pi_on T' O' M W u v' -> v <= v'.
Proof.
  intros (ku & Hku & Hle & Hall & _) Hlt (ku' & Hku' & _ & _ & Hex).
  destruct (b_prio_upd u ku Hku) as (ku2 & Hu2 & Hb). assert (ku2 = ku') as -> by congruence.
  destruct Hex as [->|(m & w & Hm & Hmw & <-)]; [lia|].
  rewrite (holds_same_shape O O') in Hm by done. rewrite prio_of_step. case_decide as Hd; [|by eapply Hall].
  subst. pose proof (Hall m t Hm Hmw) as Hv. unfold prio_of in Hv. rewrite Ht in Hv. lia.
Qed.
End step.

(** ** One turn of the loop *)

Lemma kinv_reprio s t k new rq' O' :
  kinv s -> tasks s !! t = Some k -> task_state k <> K_DELETED -> t <> g_idle_task s ->
  0 <= new < RHINO_CONFIG_PRI_MAX -> same_shape (blk_objs s) O' ->
  let T' := <[t := k <| prio := new |>]> (tasks s) in
  rq_ok rq' (rdy T') -> bl_ok O' (waits T') (prio_of T') ->
  (forall o b', O' !! o = Some b' ->
     obj_ok (sems s) (mutexes s) (events s) (queues s) (buf_queues s) o b') ->
  kinv (setq s rq' T' O' (g_tick_head s)).
Proof.
  intros Hinv Ht Hd Hid Hn Hsh T' Hrq Hbl Hob. pose proof Hinv as [].
  apply (kinv_setq s t k); try done.
  - by eapply tick_ok_upd.
  - pose proof (inv_task t k Ht) as []. by split.
  - intros m Hm. rewrite waits_insert. intros [(_ & Hp & Hb)|[? _]]; [|done].
    apply (inv_self t m Hm). by exists k.
Qed.

Lemma rq_ok_reprio rq T t k new :
  rq_ok rq (plus (minus (rdy T) t) t new) -> task_state k = K_RDY ->
  rq_ok rq (rdy (<[t := k <| prio := new |>]> T)).
Proof.
  intros Hrq Hr. eapply rq_ok_ext; [done|]. intros x p. rewrite rdy_insert. unfold plus, minus. cbn.
  split; [intros [[? ?]|[-> ->]]; auto|]. intros [(-> & _ & <-)|[? ?]]; auto.
Qed.

Lemma wp_step_ready_q s t k new Q :
  qinv s -> tasks s !! t = Some k -> task_state k = K_RDY -> t <> g_idle_task s ->
  0 <= new < RHINO_CONFIG_PRI_MAX -> prio k <> new ->
  (forall rq', qinv (setq s rq' (<[t := k <| prio := new |>]> (tasks s)) (blk_objs s) (g_tick_head s)) ->
     Q (inl RHINO_SUCCESS) (setq s rq' (<[t := k <| prio := new |>]> (tasks s)) (blk_objs s) (g_tick_head s))) ->
  wp (task_pri_change_step t new) Q s.
Proof.
  intros Hinv Ht Hr Hid Hn Hne HQ. pose proof Hinv as [].
  unfold task_pri_change_step. apply wp_setq, wp_bind. eapply q_task_get; [done|].
  rewrite decide_False by done. rewrite Hr.
  destruct (q_ready_other s t Hinv Hid) as (u & p & Hu & Hut).
  apply wp_bind. eapply (q_ready_list_rm _ _ _ _ _ t k _ (rdy (tasks s)) u p); try done; [by exists k|apply rdy_fun|].
  intros rq1 Hrq1. apply wp_bind. eapply q_task_upd; [done|]. apply wp_bind, wp_gets, wp_bind.
  assert (Hnr : forall q, ~ minus (rdy (tasks s)) t t q) by (intros q [_ ?]; done).
  assert (Hfin : forall rq', rq_ok rq' (plus (minus (rdy (tasks s)) t) t new) ->
    wp (mret (inl RHINO_SUCCESS) : K (kstat_t + tid * Z)) Q
      (setq s rq' (<[t := k <| prio := new |>]> (tasks s)) (blk_objs s) (g_tick_head s))).
  { intros rq' Hrq'. apply wp_ret, HQ. apply qinv_setq; try done.
    - pose proof (q_task t k Ht) as []. by split.
    - by apply rq_ok_reprio.
    - eapply bl_ok_unseen; [done..|]. by rewrite Hr.
    - by eapply tick_ok_upd. }
  case_decide.
  - eapply (q_ready_list_add_head _ _ _ _ _ t (k <| prio := new |>) _ _ Hrq1);
      [apply lookup_insert_eq|done|done|exact Hfin].
  - eapply (q_ready_list_add_tail _ _ _ _ _ t (k <| prio := new |>) _ _ Hrq1);
      [apply lookup_insert_eq|done|done|exact Hfin].
Qed.

Lemma wp_step_ready s t k new Q :
  kinv s -> tasks s !! t = Some k -> task_state k = K_RDY -> t <> g_idle_task s ->
  0 <= new < RHINO_CONFIG_PRI_MAX -> prio k <> new ->
  (forall rq', kinv (setq s rq' (<[t := k <| prio := new |>]> (tasks s)) (blk_objs s) (g_tick_head s)) ->
     Q (inl RHINO_SUCCESS) (setq s rq' (<[t := k <| prio := new |>]> (tasks s)) (blk_objs s) (g_tick_head s))) ->
  wp (task_pri_change_step t new) Q s.
Proof.
  intros Hinv Ht Hr Hid Hn Hne HQ. eapply wp_step_ready_q; try done; [by apply kinv_q|].
  intros rq' []. apply HQ. pose proof Hinv as []. eapply kinv_reprio; try done. by rewrite Hr.
Qed.

Lemma wp_step_idle s t k new Q :
  kinv s -> tasks s !! t = Some k -> task_state k <> K_RDY -> task_state k <> K_DELETED ->
  is_pend (task_state k) = false -> 0 <= new < RHINO_CONFIG_PRI_MAX -> prio k <> new ->
  (kinv (setq s (g_ready_queue s) (<[t := k <| prio := new |>]> (tasks s)) (blk_objs s) (g_tick_head s)) ->
   Q (inl RHINO_SUCCESS) (setq s (g_ready_queue s) (<[t := k <| prio := new |>]> (tasks s)) (blk_objs s) (g_tick_head s))) ->
  wp (task_pri_change_step t new) Q s.
Proof.
  intros Hinv Ht Hr Hd Hp Hn Hne HQ. pose proof Hinv as [].
  assert (Hid : t <> g_idle_task s) by (by eapply pend_not_idle).
  unfold task_pri_change_step. apply wp_setq, wp_bind. eapply q_task_get; [done|].
  rewrite decide_False by done.
  assert (Hfin : wp (task_upd t (fun k => k <| prio := new |>);; (mret (inl RHINO_SUCCESS) : K (kstat_t + tid * Z))) Q
    (setq s (g_ready_queue s) (tasks s) (blk_objs s) (g_tick_head s))).
  { apply wp_bind. eapply q_task_upd; [done|]. apply wp_ret, HQ. eapply kinv_reprio; try done.
    - eapply rq_ok_unseen; [done..|]. done.
    - eapply bl_ok_unseen; [done..|]. by rewrite Hp. }
  pose proof (inv_task t k Ht) as []. destruct (task_state k); try done.
Qed.

(** The waiters of [o] after the priority of [t] changed. *)
Lemma bl_ok_reorder O T t k new o b :
  bl_ok O (waits T) (prio_of T) -> T !! t = Some k -> waits T o t -> O !! o = Some b ->
  let T' := <[t := k <| prio := new |>]> T in
  bl_ok (<[o := b <| blk_list := pri_insert (prio_of T') t (list_rm t (blk_list b)) |>]> O)
    (waits T') (prio_of T').
Proof.
  intros Hbl Ht Hw Ho T'. pose proof Hw as (k0 & Hk0 & Hp & Hbo). assert (k0 = k) as -> by congruence.
  assert (Hrm : bl_ok (blk_rm t O) (fun o x => waits T o x /\ x <> t) (prio_of T')).
  { eapply bl_ok_ext; [by apply bl_ok_rm|done|]. intros o' x [_ Hx]. unfold T'. rewrite prio_of_insert.
    by rewrite decide_False. }
  rewrite (blk_rm_at O T t o b) in Hrm by done.
  pose proof (bl_ok_add _ _ _ t o (b <| blk_list := list_rm t (blk_list b) |>)
    (pri_insert (prio_of T') t (list_rm t (blk_list b))) Hrm) as Hadd.
  rewrite insert_insert_eq in Hadd. eapply bl_ok_ext.
  - apply Hadd; [apply lookup_insert_eq|by intros o' [_ ?]|apply insert_by_perm|].
    cbn. intros Hpol. apply insert_by_sorted; [done|].
    pose proof (bl_sorted _ _ _ Hrm o _ (lookup_insert_eq _ _ _)) as Hs. cbn in Hs. by apply Hs.
  - intros o' x. unfold T'. rewrite waits_insert. cbn. split.
    + intros [[? ?]|[-> ->]]; auto.
    + intros [(-> & _ & Hb)|[? ?]]; [right|by left]. split; congruence.
  - done.
Qed.

Lemma bl_ok_fifo O T t k new o b :
  bl_ok O (waits T) (prio_of T) -> T !! t = Some k -> waits T o t -> O !! o = Some b ->
  blk_policy b <> BLK_POLICY_PRI ->
  let T' := <[t := k <| prio := new |>]> T in bl_ok O (waits T') (prio_of T').
Proof.
  intros [] Ht Hw Ho Hpol T'. pose proof Hw as (k0 & Hk0 & Hp & Hbo). assert (k0 = k) as -> by congruence.
  assert (HW : forall o' x, waits T' o' x <-> waits T o' x).
  { intros o' x. unfold T'. rewrite waits_insert. cbn. destruct (decide (x = t)) as [->|]; [|tauto].
    split; [intros [(_ & ? & ?)|[? _]]; [by exists k|done]|]. intros Hx. left. split; [done|].
    split; [done|]. rewrite Hbo. f_equal. by eapply waits_fun. }
  split; [done| | |].
  - intros o' b' x Ho'. rewrite HW. by apply bl_mem.
  - intros o' x Hx. apply HW in Hx. eauto.
  - intros o' b' Ho' Hpol'. apply (StronglySorted_ext (fun x y => prio_of T x <= prio_of T y)); [|eauto].
    intros x y Hx Hy. apply (bl_mem o' b') in Hx, Hy; [|done..]. unfold T'. rewrite !prio_of_insert.
    assert (forall z, waits T o' z -> z <> t) as Hz.
    { intros z Hz ->. assert (o' = o) as -> by (by eapply waits_fun). congruence. }
    by rewrite !decide_False by eauto.
Qed.

(** The waiter [t] of [o] gets the priority [new] and its new place. *)
Lemma wp_reprio_pend {A} s t k new o b (rest : K A) Q :
  kinv s -> tasks s !! t = Some k -> waits (tasks s) o t -> blk_objs s !! o = Some b ->
  0 <= new < RHINO_CONFIG_PRI_MAX ->
  (forall O', same_shape (blk_objs s) O' ->
     kinv (setq s (g_ready_queue s) (<[t := k <| prio := new |>]> (tasks s)) O' (g_tick_head s)) ->
     wp rest Q (setq s (g_ready_queue s) (<[t := k <| prio := new |>]> (tasks s)) O' (g_tick_head s))) ->
  wp (task_upd t (fun k => k <| prio := new |>);; pend_list_reorder t;; rest) Q s.
Proof.
  intros Hinv Ht Hw Ho Hn HQ. pose proof Hinv as []. pose proof Hw as (k0 & Hk0 & Hp & Hbo).
  assert (k0 = k) as -> by congruence. clear Hk0.
  assert (Hnr : task_state k <> K_RDY) by (intros He; by rewrite He in Hp).
  assert (Hd : task_state k <> K_DELETED) by (intros He; by rewrite He in Hp).
  assert (Hid : t <> g_idle_task s) by (by eapply pend_not_idle).
  apply wp_setq, wp_bind. eapply q_task_upd; [done|]. apply wp_bind. unfold pend_list_reorder.
  apply wp_bind. eapply q_task_get; [apply lookup_insert_eq|]. apply wp_bind.
  eapply wp_deref; [exact Hbo|]. apply wp_bind. eapply q_blk_get; [exact Ho|].
  set (T' := <[t := k <| prio := new |>]> (tasks s)).
  assert (Hrq : rq_ok (g_ready_queue s) (rdy T')) by (by eapply rq_ok_unseen).
  case_decide as Hpol.
  - apply wp_bind, q_blk_list_rm. rewrite (blk_rm_at _ _ t o b) by done.
    eapply (q_pend_list_add _ _ _ _ _ o t (k <| prio := new |>)); [apply lookup_insert_eq|apply lookup_insert_eq| |].
    { cbn. intros x Hx. apply elem_of_list_rm in Hx as [Hx Hxt]. unfold T'. rewrite lookup_insert_ne by done.
      by eapply waiters_exist. }
    rewrite insert_insert_eq. apply HQ; [by eapply same_shape_insert|].
    eapply kinv_reprio; try done; [by eapply same_shape_insert|by eapply (bl_ok_reorder _ _ t k new o b)|].
    intros o' b'. destruct (decide (o' = o)) as [->|]; [|rewrite lookup_insert_ne by done; auto].
    rewrite lookup_insert_eq. intros [= <-]. cbn.
    apply (obj_ok_fewer _ _ _ _ _ o b); [auto|]. intros _ He.
    apply (bl_mem _ _ _ inv_blk o b t Ho) in Hw. rewrite He in Hw. set_solver.
  - apply wp_ret, HQ; [done|]. eapply kinv_reprio; try done. by eapply bl_ok_fifo.
Qed.

(** ** Walking the mutexes of a task *)

Lemma chain_frame (M M' : gmap oid kmutex_t) p l :
  (forall m, m ∈ l -> mutex_next <$> M' !! m = mutex_next <$> M !! m) -> chain M p l -> chain M' p l.
Proof.
  revert p. induction l as [|m l IH]; intros p HM; cbn; [done|].
  intros (-> & mx & Hm & Hc). split; [done|].
  specialize (HM m ltac:(set_solver)) as Hm'. rewrite Hm in Hm'. apply fmap_Some in Hm' as (mx' & Hm' & He).
  exists mx'. split; [done|]. rewrite <- He. apply IH; [|done]. intros; apply HM; set_solver.
Qed.

Lemma chain_dom M p l m : chain M p l -> m ∈ l -> is_Some (M !! m).
Proof.
  revert p. induction l as [|x l IH]; intros p; [set_solver|]. cbn.
  intros (_ & mx & Hx & Hc). rewrite elem_of_cons. intros [->|Hm]; [eauto|]. by eapply IH.
Qed.

(** a chain without repetition is no longer than the table of mutexes *)
Lemma chain_length M p l : chain M p l -> NoDup l -> (length l <= size M)%nat.
Proof.
  intros Hc Hnd. rewrite <- (size_list_to_set (C:=gset oid) l Hnd), <- size_dom. apply subseteq_size.
  intros m. rewrite elem_of_list_to_set. intros Hm. apply elem_of_dom. by eapply chain_dom.
Qed.

Lemma chain_app M p l1 m l2 :
  chain M p (l1 ++ m :: l2) -> exists mx, M !! m = Some mx /\ chain M (mutex_next mx) l2.
Proof.
  revert p. induction l1 as [|x l1 IH]; intros p; cbn.
  - intros (_ & mx & ? & ?). eauto.
  - intros (_ & mx & _ & Hc). by eapply IH.
Qed.

Definition first_val (T : gmap tid ktask_t) (b : blk_obj_t) (pri : Z) : Z :=
  match blk_list b with [] => pri | f :: _ => prio_of T f end.

Lemma wp_first_waiter_pri s m pri b Q :
  blk_objs s !! m = Some b -> (forall x, x ∈ blk_list b -> is_Some (tasks s !! x)) ->
  Q (first_val (tasks s) b pri) s -> wp (first_waiter_pri m pri) Q s.
Proof.
  intros Hm Hx HQ. apply wp_bind. eapply wp_blk_get; [done|]. unfold first_val in HQ.
  destruct (blk_list b) as [|f l]; [by apply wp_ret|].
  destruct (Hx f ltac:(set_solver)) as [kf Hf]. apply wp_bind. eapply wp_task_get; [done|].
  apply wp_ret. unfold prio_of in HQ. by rewrite Hf in HQ.
Qed.

(** [v] is the smallest of [new] and the priorities of the first waiters of [l]. *)
Definition look_val (T : gmap tid ktask_t) (O : gmap oid blk_obj_t) (l : list oid) (new v : Z) : Prop :=
  v <= new /\
  (forall m b f tl, m ∈ l -> O !! m = Some b -> blk_list b = f :: tl -> v <= prio_of T f) /\
  (v = new \/ exists m b f tl, m ∈ l /\ O !! m = Some b /\ blk_list b = f :: tl /\ prio_of T f = v).

Lemma look_val_nil T O new : look_val T O [] new new.
Proof. split; [done|]. split; [set_solver|by left]. Qed.

Lemma look_val_cons T O m b l new pri v :
  O !! m = Some b -> new <= pri ->
  look_val T O l (if decide (first_val T b pri < new) then first_val T b pri else new) v ->
  look_val T O (m :: l) new v.
Proof.
  intros Hm Hle (Hv & Hall & Hex). unfold first_val in *. split; [case_decide; lia|]. split.
  - intros m' b' f tl. rewrite elem_of_cons. intros [->|Hin] Hm' Hl; [|by eapply Hall].
    assert (b' = b) as -> by congruence. rewrite Hl in Hv. clear Hex. case_decide; lia.
  - destruct Hex as [->|(m' & b' & f & tl & ? & ? & ? & ?)].
    + case_decide as Hd; [|by left]. destruct (blk_list b) as [|f tl] eqn:Hl; [lia|].
      right. exists m, b, f, tl. split; [set_solver|done].
    + right. exists m', b', f, tl. split; [set_solver|done].
Qed.

Definition waiters_known (s : kstate) (l : list oid) : Prop :=
  forall m, m ∈ l -> exists b, blk_objs s !! m = Some b /\ forall x, x ∈ blk_list b -> is_Some (tasks s !! x).

Lemma wp_limit_loop s fuel p l pri high Q :
  chain (mutexes s) p l -> (length l < fuel)%nat -> waiters_known s l -> high <= pri ->
  (forall v, look_val (tasks s) (blk_objs s) l high v -> Q v s) ->
  wp (mutex_pri_limit_loop fuel p pri high) Q s.
Proof.
  revert p pri high l. induction fuel as [|fuel IH]; intros p pri high l Hc Hf Hk Hle HQ; [lia|].
  destruct l as [|m l]; cbn in Hc.
  - subst. apply wp_ret, HQ, look_val_nil.
  - destruct Hc as (-> & mx & Hm & Hc). destruct (Hk m ltac:(set_solver)) as (b & Hb & Hx).
    cbn. apply wp_bind. eapply wp_first_waiter_pri; [done..|]. apply wp_bind. eapply wp_mutex_get; [done|].
    apply (IH _ _ _ l); [done|cbn in Hf; lia| | |].
    + intros m' Hm'. apply Hk. set_solver.
    + case_decide; [lia|]. lia.
    + intros v Hv. apply HQ. by eapply look_val_cons.
Qed.

(** [\*prev] and its assignment *)
Definition link_val (s : kstate) (prev : tid + oid) : option (option oid) :=
  match prev with
  | inl t => mutex_list <$> tasks s !! t
  | inr m => mutex_next <$> mutexes s !! m
  end.

Lemma wp_link_get s prev p (Q : option oid -> kstate -> Prop) :
  link_val s prev = Some p -> Q p s -> wp (link_get prev) Q s.
Proof.
  destruct prev; cbn; intros (x & Hx & ->)%fmap_Some HQ; apply wp_bind;
    [eapply wp_task_get|eapply wp_mutex_get]; done.
Qed.

(** the walk that releases nothing *)
Lemma wp_look_loop s fuel prev rel p l new pri Q :
  link_val s prev = Some p -> chain (mutexes s) p l -> (forall o, rel = Some o -> o ∉ l) ->
  (length l < fuel)%nat -> waiters_known s l -> new <= pri ->
  (forall v, look_val (tasks s) (blk_objs s) l new v -> Q v s) ->
  wp (mutex_pri_look_loop fuel prev rel new pri) Q s.
Proof.
  revert prev p new pri l. induction fuel as [|fuel IH]; intros prev p new pri l Hp Hc Hrel Hf Hk Hle HQ; [lia|].
  cbn. apply wp_bind. eapply wp_link_get; [done|]. destruct l as [|m l]; cbn in Hc.
  - subst. apply wp_ret, HQ, look_val_nil.
  - destruct Hc as (-> & mx & Hm & Hc). destruct (Hk m ltac:(set_solver)) as (b & Hb & Hx).
    rewrite decide_False by (intros Hr; specialize (Hrel _ Hr); set_solver).
    apply wp_bind. eapply wp_first_waiter_pri; [done..|].
    apply (IH _ (mutex_next mx) _ _ l); [cbn; by rewrite Hm|done| |cbn in Hf; lia| | |].
    + intros o Hr. specialize (Hrel o Hr). set_solver.
    + intros m' Hm'. apply Hk. set_solver.
    + case_decide; lia.
    + intros v Hv. apply HQ. by eapply look_val_cons.
Qed.

Lemma look_val_pi T O M t l new v :
  bl_ok O (waits T) (prio_of T) -> (forall m, m ∈ l <-> holds O M t m) ->
  (forall m b, m ∈ l -> O !! m = Some b -> blk_policy b = BLK_POLICY_PRI) ->
  look_val T O l new v -> pi_val T O M (waits T) t new v.
Proof.
  intros Hbl Hl Hpol (Hle & Hall & Hex). split; [done|]. split.
  - intros m w Hm Hw. apply Hl in Hm. destruct (bl_obj _ _ _ Hbl m w Hw) as [b Hb].
    pose proof (bl_sorted _ _ _ Hbl m b Hb (Hpol m b Hm Hb)) as Hs.
    apply (bl_mem _ _ _ Hbl m b w Hb) in Hw. destruct (blk_list b) as [|f tl] eqn:Hbl'; [set_solver|].
    pose proof (Hall m b f tl Hm Hb Hbl') as Hf. apply elem_of_cons in Hw as [->|Hw]; [done|].
    apply StronglySorted_inv in Hs as [_ Hs]. rewrite Forall_forall in Hs. specialize (Hs w Hw). lia.
  - destruct Hex as [?|(m & b & f & tl & Hm & Hb & Hbl' & Hp)]; [by left|]. right. exists m, f.
    split; [by apply Hl|]. split; [|done]. apply (bl_mem _ _ _ Hbl m b f Hb). rewrite Hbl'. set_solver.
Qed.

(** ** Who owns what *)

Record own_inv (T : gmap tid ktask_t) (O : gmap oid blk_obj_t) (M : gmap oid kmutex_t) : Prop := {
  own_chain : forall t k, T !! t = Some k -> task_state k <> K_DELETED ->
    exists l, chain M (mutex_list k) l /\ NoDup l /\ forall m, m ∈ l <-> holds O M t m;
  own_live : forall t m, holds O M t m -> live T t;
  own_self : forall t m, holds O M t m -> ~ waits T m t;
}.

Lemma kinv_own s : kinv s -> own_inv (tasks s) (blk_objs s) (mutexes s).
Proof. intros []. by split. Qed.

(** the policy [mutex_create] gives *)
Definition pri_mutexes (O : gmap oid blk_obj_t) : Prop :=
  forall m b, O !! m = Some b -> obj_type b = RHINO_MUTEX_OBJ_TYPE -> blk_policy b = BLK_POLICY_PRI.

Lemma kinv_pri_mutexes s : kinv s -> pri_mutexes (blk_objs s).
Proof.
  intros [] m b Hb Hty. specialize (inv_obj m b Hb). unfold obj_ok in inv_obj. rewrite Hty in inv_obj.
  by destruct inv_obj as (? & _ & ? & _).
Qed.

Lemma waiters_of s o b x :
  qinv s -> blk_objs s !! o = Some b -> x ∈ blk_list b -> is_Some (tasks s !! x).
Proof. intros [] Hb Hx. by eapply waiters_exist. Qed.

(** The mutexes of a task. *)
Lemma chain_own s t k :
  qinv s -> own_inv (tasks s) (blk_objs s) (mutexes s) -> pri_mutexes (blk_objs s) ->
  tasks s !! t = Some k -> task_state k <> K_DELETED ->
  exists l, chain (mutexes s) (mutex_list k) l /\ NoDup l /\
    (forall m, m ∈ l <-> holds (blk_objs s) (mutexes s) t m) /\ waiters_known s l /\
    (forall m b, m ∈ l -> blk_objs s !! m = Some b -> blk_policy b = BLK_POLICY_PRI) /\
    (length l < chain_fuel s)%nat.
Proof.
  intros Hq [Hc _ _] Hpol Ht Hd. destruct (Hc t k Ht Hd) as (l & Hcl & Hnd & Hl). exists l.
  repeat split; try done; try apply Hl.
  - intros m (b & mx & Hb & _)%Hl. exists b. split; [done|]. intros x Hx. by eapply waiters_of.
  - intros m b (b' & mx & Hb & Hty & _)%Hl Hb'. assert (b' = b) as -> by congruence. by eapply Hpol.
  - unfold chain_fuel. pose proof (chain_length _ _ _ Hcl Hnd). lia.
Qed.

Lemma chain_of s t k :
  kinv s -> tasks s !! t = Some k -> task_state k <> K_DELETED ->
  exists l, chain (mutexes s) (mutex_list k) l /\ NoDup l /\
    (forall m, m ∈ l <-> holds (blk_objs s) (mutexes s) t m) /\ waiters_known s l /\
    (forall m b, m ∈ l -> blk_objs s !! m = Some b -> blk_policy b = BLK_POLICY_PRI) /\
    (length l < chain_fuel s)%nat.
Proof.
  intros Hinv. apply chain_own; [by apply kinv_q|by apply kinv_own|by apply kinv_pri_mutexes].
Qed.

Lemma wp_mutex_pri_look s t k Q :
  kinv s -> tasks s !! t = Some k -> task_state k <> K_DELETED ->
  (forall v, pi_on (tasks s) (blk_objs s) (mutexes s) (waits (tasks s)) t v -> Q v s) ->
  wp (mutex_pri_look t None) Q s.
Proof.
  intros Hinv Ht Hd HQ. destruct (chain_of s t k Hinv Ht Hd) as (l & Hc & Hnd & Hl & Hk & Hpol & Hlen).
  apply wp_bind. eapply wp_task_get; [done|]. apply wp_bind, wp_gets.
  eapply (wp_look_loop _ _ _ _ (mutex_list k) l); try done; [cbn; by rewrite Ht|].
  intros v Hv. apply HQ. exists k. split; [done|].
  apply (look_val_pi _ _ _ _ l); try done. by eapply inv_blk.
Qed.

Lemma wp_mutex_pri_limit s t k pri Q :
  kinv s -> tasks s !! t = Some k -> task_state k <> K_DELETED ->
  (forall v, pi_val (tasks s) (blk_objs s) (mutexes s) (waits (tasks s)) t pri v -> Q v s) ->
  wp (mutex_pri_limit t pri) Q s.
Proof.
  intros Hinv Ht Hd HQ. destruct (chain_of s t k Hinv Ht Hd) as (l & Hc & Hnd & Hl & Hk & Hpol & Hlen).
  apply wp_bind. eapply wp_task_get; [done|]. apply wp_bind, wp_gets.
  eapply (wp_limit_loop _ _ _ l); try done.
  intros v Hv. apply HQ. apply (look_val_pi _ _ _ _ l); try done. by eapply inv_blk.
Qed.

(** ** The loop *)

Lemma holds_owner O M t u m : holds O M t m -> holds O M u m -> t = u.
Proof. intros (b & mx & _ & _ & Hm & Ht) (b' & mx' & _ & _ & Hm' & Hu). congruence. Qed.

Lemma owner_not_idle s t m : kinv s -> holds (blk_objs s) (mutexes s) t m -> t <> g_idle_task s.
Proof.
  intros [] Hm ->. destruct inv_idle as (k & Hk & Hr & _ & _ & Hl).
  destruct (inv_chain _ k Hk) as (l & Hc & _ & Hml); [by rewrite Hr|]. rewrite Hl in Hc.
  apply Hml in Hm. destruct l; [set_solver|]. cbn in Hc. by destruct Hc.
Qed.

(** The owner of a mutex a task waits for. *)
Lemma waited_owner s t o b :
  kinv s -> waits (tasks s) o t -> blk_objs s !! o = Some b -> obj_type b = RHINO_MUTEX_OBJ_TYPE ->
  exists mx w kw, mutexes s !! o = Some mx /\ mutex_task mx = Some w /\
    holds (blk_objs s) (mutexes s) w o /\ tasks s !! w = Some kw /\ task_state kw <> K_DELETED /\
    w <> t /\ w <> g_idle_task s.
Proof.
  intros Hinv Hw Ho Hty. pose proof Hinv as []. pose proof (inv_obj o b Ho) as Hob.
  unfold obj_ok in Hob. rewrite Hty in Hob. destruct Hob as (mx & Hmx & _ & Hne & _).
  assert (mutex_task mx <> None) as Hmt.
  { apply Hne. intros He. apply (bl_mem _ _ _ inv_blk o b t Ho) in Hw. rewrite He in Hw. set_solver. }
  destruct (mutex_task mx) as [w|] eqn:Hmw; [|done].
  assert (Hh : holds (blk_objs s) (mutexes s) w o) by (by exists b, mx).
  destruct (inv_owner w o Hh) as (kw & Hkw & Hd). exists mx, w, kw. repeat split; try done.
  - intros ->. by apply (inv_self t o).
  - by eapply owner_not_idle.
Qed.

Lemma waits_step T t k new o x :
  T !! t = Some k -> waits (<[t := k <| prio := new |>]> T) o x <-> waits T o x.
Proof.
  intros Ht. rewrite waits_insert. cbn. destruct (decide (x = t)) as [->|]; [|tauto].
  unfold waits. rewrite Ht. split.
  - intros [(_ & ? & ?)|[? _]]; [by exists k|done].
  - intros (k' & [= <-] & ? & ?). by left.
Qed.

Lemma pi_but_step T O O' M W t k new w :
  T !! t = Some k -> same_shape O O' -> pi_but T O M W t -> pi_on T O M W t new ->
  (forall u m, holds O M u m -> ~ W m u) ->
  (forall u m, holds O M u m -> W m t -> u = w) ->
  pi_but (<[t := k <| prio := new |>]> T) O' M W w.
Proof.
  intros Ht Hsh Hbut Hat Hself Hw u ku Hu Hd Hne. destruct (decide (u = t)) as [->|Hut].
  - rewrite lookup_insert_eq in Hu. injection Hu as <-. cbn. apply (pi_on_other T O); [done..| |done]. eauto.
  - rewrite lookup_insert_ne in Hu by done. apply (pi_on_other T O); [done..| |by apply Hbut].
    intros m Hm Hwt. by apply Hne, (Hw u m).
Qed.

Definition pi_all (T : gmap tid ktask_t) (O : gmap oid blk_obj_t) (M : gmap oid kmutex_t)
    (W : oid -> tid -> Prop) : Prop :=
  forall u ku, T !! u = Some ku -> task_state ku <> K_DELETED -> pi_on T O M W u (prio ku).

Lemma pi_on_ext T O M W W' t v :
  (forall o x, W o x <-> W' o x) -> pi_on T O M W t v -> pi_on T O M W' t v.
Proof.
  intros He (k & Hk & Hle & Hall & Hex). exists k. split; [done|]. split; [done|]. split.
  - intros m x Hm Hx. apply (Hall m x Hm). by apply He.
  - destruct Hex as [?|(m & x & ? & ? & ?)]; [by left|]. right. exists m, x. by rewrite <- He.
Qed.

Lemma pi_all_but T O M W t k :
  pi_but T O M W t -> T !! t = Some k -> pi_on T O M W t (prio k) -> pi_all T O M W.
Proof.
  intros Hbut Ht Hat u ku Hu Hd. destruct (decide (u = t)) as [->|Hne]; [|by apply Hbut].
  by assert (ku = k) as -> by congruence.
Qed.

Section turn.
Context (s : kstate) (t : tid) (k : ktask_t) (new : Z) (W : oid -> tid -> Prop).
Context (Hinv : kinv s) (Ht : tasks s !! t = Some k) (Hd : task_state k <> K_DELETED)
  (Hid : t <> g_idle_task s) (Hn : 0 <= new < RHINO_CONFIG_PRI_MAX) (Hne : prio k <> new).
Context (Hfun : forall o o' x, W o x -> W o' x -> o = o')
  (Hsub : forall o x, waits (tasks s) o x -> W o x)
  (HW : forall o x, W o x -> waits (tasks s) o x \/ prio_of (tasks s) x = new)
  (Hself : forall u m, holds (blk_objs s) (mutexes s) u m -> ~ W m u).
Context (Hbut : pi_but (tasks s) (blk_objs s) (mutexes s) W t)
  (Hat : pi_on (tasks s) (blk_objs s) (mutexes s) W t new).
Let T' := <[t := k <| prio := new |>]> (tasks s).

Lemma pi_all_step O' :
  same_shape (blk_objs s) O' ->
  (forall u m, holds (blk_objs s) (mutexes s) u m -> ~ W m t) -> pi_all T' O' (mutexes s) W.
Proof.
  intros Hsh Hno u ku Hu Hdu. unfold T' in *. destruct (decide (u = t)) as [->|Hut].
  - rewrite lookup_insert_eq in Hu. injection Hu as <-. apply (pi_on_other _ (blk_objs s)); [done..| |done].
    apply Hno.
  - rewrite lookup_insert_ne in Hu by done. apply (pi_on_other _ (blk_objs s)); [done..|apply Hno|].
    by apply Hbut.
Qed.

(** a task that [W] sees waiting and that does not wait has the priority already *)
Lemma W_waits m : W m t -> waits (tasks s) m t.
Proof.
  intros Hw. destruct (HW m t Hw) as [?|Hp]; [done|]. unfold prio_of in Hp. rewrite Ht in Hp. done.
Qed.

(** One turn: it stops, or [t] waits for a mutex and the decision is about its owner. *)
Lemma wp_turn Q :
  (forall rq' O', same_shape (blk_objs s) O' ->
     kinv (setq s rq' T' O' (g_tick_head s)) -> pi_all T' O' (mutexes s) W ->
     Q (inl RHINO_SUCCESS) (setq s rq' T' O' (g_tick_head s))) ->
  (forall O' o w kw, same_shape (blk_objs s) O' ->
     kinv (setq s (g_ready_queue s) T' O' (g_tick_head s)) ->
     holds (blk_objs s) (mutexes s) w o -> W o t -> tasks s !! w = Some kw ->
     task_state kw <> K_DELETED -> w <> t -> w <> g_idle_task s ->
     pi_but T' O' (mutexes s) W w ->
     let s' := setq s (g_ready_queue s) T' O' (g_tick_head s) in
     if decide (new < prio kw) then Q (inr (w, new)) s'
     else if decide (prio kw = prio k) then
       wp (new_pri ← mutex_pri_look w None; km ← task_get w;
           if decide (new_pri <> prio km) then mret (inr (w, new_pri))
           else mret (inl RHINO_SUCCESS)) Q s'
     else Q (inl RHINO_SUCCESS) s') ->
  wp (task_pri_change_step t new) Q s.
Proof.
  intros HA HB. destruct (decide (is_pend (task_state k) = true)) as [Hp|Hp].
  2:{ assert (Hno : forall u m, holds (blk_objs s) (mutexes s) u m -> ~ W m t).
      { intros u m _ Hw. apply W_waits in Hw as (k' & Hk' & Hp' & _). congruence. }
      apply not_true_is_false in Hp. destruct (decide (task_state k = K_RDY)) as [Hr|Hr].
      - eapply wp_step_ready; try done. intros rq' Hinv'. apply HA; [done|done|by apply pi_all_step].
      - eapply wp_step_idle; try done. intros Hinv'. apply HA; [done|done|by apply pi_all_step]. }
  pose proof Hinv as []. destruct (tok_blk _ (inv_task t k Ht) Hp) as [o Hbo].
  assert (Hwt : waits (tasks s) o t) by (by exists k).
  destruct (bl_obj _ _ _ inv_blk o t Hwt) as [b Ho].
  unfold task_pri_change_step. apply wp_bind. eapply wp_task_get; [done|]. rewrite decide_False by done.
  assert (Hgoal : wp (task_upd t (fun k => k <| prio := new |>);; pend_list_reorder t;;
      o ← deref (blk_obj k); b ← blk_get o;
      if decide (obj_type b = RHINO_MUTEX_OBJ_TYPE) then
        mx ← mutex_get o; mutex_task ← deref (mutex_task mx); km ← task_get mutex_task; k0 ← task_get t;
        if decide (prio k0 < prio km) then mret (inr (mutex_task, new))
        else if decide (prio km = prio k) then
          new_pri ← mutex_pri_look mutex_task None; km ← task_get mutex_task;
          if decide (new_pri <> prio km) then mret (inr (mutex_task, new_pri)) else mret (inl RHINO_SUCCESS)
        else mret (inl RHINO_SUCCESS)
      else mret (inl RHINO_SUCCESS)) Q s); [|by destruct (task_state k)].
  eapply (wp_reprio_pend s t k new o b); try done. intros O' Hsh Hinv'.
  destruct (same_shape_lookup O' (blk_objs s) o b) as (b' & Hb' & He); [by apply same_shape_sym|done|].
  unfold shape in He. apply wp_bind. eapply wp_deref; [exact Hbo|]. apply wp_bind.
  eapply q_blk_get; [done|]. case_decide as Hty.
  - destruct (waited_owner s t o b Hinv Hwt Ho) as (mx & w & kw & Hmx & Hmw & Hh & Hw & Hdw & Hwne & Hwid); [congruence|].
    apply wp_bind. eapply wp_mutex_get; [done|]. apply wp_bind. eapply wp_deref; [done|].
    apply wp_bind. eapply q_task_get; [by rewrite lookup_insert_ne|].
    apply wp_bind. eapply q_task_get; [apply lookup_insert_eq|]. cbn [prio].
    assert (Hbw : pi_but T' O' (mutexes s) W w).
    { apply (pi_but_step (tasks s) (blk_objs s)) with (new := new); try done. intros u m Hm Hwm.
      assert (m = o) as -> by (eapply Hfun; [done|by apply Hsub]). by eapply holds_owner. }
    specialize (HB O' o w kw Hsh Hinv' Hh (Hsub _ _ Hwt) Hw Hdw Hwne Hwid Hbw). cbv zeta in HB.
    match goal with |- context [decide (prio ?x < _)] => change (prio x) with new end.
    destruct (decide (new < prio kw)); [by apply wp_ret|].
    destruct (decide (prio kw = prio k)); [exact HB|by apply wp_ret].
  - apply wp_ret, HA; [done|done|]. apply pi_all_step; [done|]. intros u m Hm Hwm.
    assert (m = o) as -> by (eapply Hfun; [done|by apply Hsub]).
    apply (not_mutex_not_held _ (mutexes s) o b u) in Ho; [done|]. intros Hb. apply Hty. congruence.
Qed.
End turn.

(** The priorities that [R] relates to new ones may have changed. *)
Definition reprio (R : Z -> Z -> Prop) (T T' : gmap tid ktask_t) : Prop :=
  forall u, T' !! u = T !! u \/
    exists k p, T !! u = Some k /\ R (prio k) p /\ T' !! u = Some (k <| prio := p |>).

Lemma reprio_refl R T : reprio R T T.
Proof. by left. Qed.

Lemma reprio_step (R : Z -> Z -> Prop) T T'' t k new :
  T !! t = Some k -> R (prio k) new -> (forall p, ~ R new p) ->
  reprio R (<[t := k <| prio := new |>]> T) T'' -> reprio R T T''.
Proof.
  intros Ht HR Hno Hre u. specialize (Hre u). destruct (decide (u = t)) as [->|Hne].
  - right. exists k, new. rewrite lookup_insert_eq in Hre. destruct Hre as [?|(k' & p & [= <-] & HR' & _)]; [done|].
    by destruct (Hno p).
  - by rewrite lookup_insert_ne in Hre.
Qed.

Lemma size_filter_upd (P : ktask_t -> Prop) `{forall k, Decision (P k)} (T : gmap tid ktask_t) t k k' :
  T !! t = Some k -> P k -> ~ P k' ->
  size (filter (fun x => P x.2) T) = S (size (filter (fun x => P x.2) (<[t := k']> T))).
Proof.
  intros Ht Hk Hk'. rewrite map_filter_insert_False by done. rewrite map_filter_delete.
  rewrite <- (insert_delete_id (filter (fun x => P x.2) T) t k) at 1.
  - by rewrite map_size_insert_None by apply lookup_delete_eq.
  - by apply map_lookup_filter_Some.
Qed.

Lemma size_filter_le (P : ktask_t -> Prop) `{forall k, Decision (P k)} (T : gmap tid ktask_t) :
  (size (filter (fun x => P x.2) T) <= size T)%nat.
Proof. apply map_subseteq_size, map_filter_subseteq. Qed.

Section loops.
Context (W : oid -> tid -> Prop) (Hfun : forall o o' x, W o x -> W o' x -> o = o').

(** Raising: a chain of owners with lower priorities gets the priority [new]. *)
Lemma wp_raise fuel s t k new Q :
  kinv s -> tasks s !! t = Some k -> task_state k <> K_DELETED -> t <> g_idle_task s ->
  0 <= new < RHINO_CONFIG_PRI_MAX -> new <= prio k ->
  (forall o x, waits (tasks s) o x -> W o x) ->
  (forall o x, W o x -> waits (tasks s) o x \/ prio_of (tasks s) x = new) ->
  (forall u m, holds (blk_objs s) (mutexes s) u m -> ~ W m u) ->
  pi_but (tasks s) (blk_objs s) (mutexes s) W t ->
  pi_on (tasks s) (blk_objs s) (mutexes s) W t new ->
  (size (filter (fun x => (new < prio x.2)%Z) (tasks s)) < fuel)%nat ->
  (forall rq' T' O', same_shape (blk_objs s) O' -> reprio (fun old p => new < old /\ p = new) (tasks s) T' ->
     kinv (setq s rq' T' O' (g_tick_head s)) -> pi_all T' O' (mutexes s) W ->
     Q RHINO_SUCCESS (setq s rq' T' O' (g_tick_head s))) ->
  wp (task_pri_change_loop fuel t new) Q s.
Proof.
  revert s t k. induction fuel as [|fuel IH]; intros s t k Hinv Ht Hd Hid Hn Hle Hsub HW Hself Hbut Hat Hfuel HQ; [lia|].
  cbn. apply wp_bind. destruct (decide (prio k = new)) as [He|Hne].
  { unfold task_pri_change_step. apply wp_bind. eapply wp_task_get; [done|]. rewrite decide_True by done.
    apply wp_ret, wp_ret. specialize (HQ (g_ready_queue s) (tasks s) (blk_objs s)). rewrite setq_id in HQ.
    apply HQ; [done|apply reprio_refl|done|]. subst new. by eapply pi_all_but. }
  assert (Hlt : new < prio k) by lia.
  assert (Hstep : forall T'', reprio (fun old p => new < old /\ p = new) (<[t := k <| prio := new |>]> (tasks s)) T'' ->
    reprio (fun old p => new < old /\ p = new) (tasks s) T'').
  { intros T'' Hre. eapply reprio_step; [done|done|lia|done]. }
  eapply (wp_turn s t k new W); try done.
  - intros rq' O' Hsh Hinv' Hall. apply wp_ret, HQ; try done. apply Hstep, reprio_refl.
  - intros O' o w kw Hsh Hinv' Hh Hwt Hw Hdw Hwne Hwid Hbw s'.
    assert (Hpw : pi_on (tasks s) (blk_objs s) (mutexes s) W w (prio kw)) by (by apply Hbut).
    destruct (decide (new < prio kw)) as [Hnw|Hnw].
    + apply (IH s' w kw); try done.
      * unfold s'. cbn. by rewrite lookup_insert_ne.
      * lia.
      * intros o' x. unfold s'. cbn. rewrite waits_step by done. apply Hsub.
      * intros o' x Hx. unfold s'. cbn. rewrite waits_step by done. destruct (HW o' x Hx) as [?|Hp]; [by left|right].
        rewrite prio_of_insert. by case_decide.
      * unfold s'. cbn. intros u m. rewrite (holds_same_shape (blk_objs s)) by done. apply Hself.
      * unfold s'. cbn. by eapply (pi_on_raise _ (blk_objs s)).
      * unfold s'. cbn.
        pose proof (size_filter_upd (fun k => new < prio k) (tasks s) t k (k <| prio := new |>) Ht Hlt) as Hsz.
        cbn in Hsz. rewrite Hsz in Hfuel by lia. lia.
      * intros rq2 T2 O2 Hsh2 Hre2 Hinv2 Hall2. apply (HQ rq2 T2 O2); try done; [|by apply Hstep].
        by eapply same_shape_trans.
    + destruct (decide (prio kw = prio k)); [lia|]. apply wp_ret, HQ; try done; [apply Hstep, reprio_refl|].
      eapply pi_all_but; [exact Hbw|by rewrite lookup_insert_ne|].
      eapply (pi_on_keep _ (blk_objs s)); try done. lia.
Qed.

End loops.

(** Lowering: a chain of owners that had the priority [v] from the task before. *)
Lemma wp_lower fuel s t k v new Q :
  kinv s -> tasks s !! t = Some k -> task_state k <> K_DELETED -> t <> g_idle_task s ->
  0 <= new < RHINO_CONFIG_PRI_MAX -> prio k = v -> v < new ->
  pi_but (tasks s) (blk_objs s) (mutexes s) (waits (tasks s)) t ->
  pi_on (tasks s) (blk_objs s) (mutexes s) (waits (tasks s)) t new ->
  (size (filter (fun x => (prio x.2 = v)%Z) (tasks s)) < fuel)%nat ->
  (forall rq' T' O', same_shape (blk_objs s) O' -> reprio (fun old p => old = v /\ v < p) (tasks s) T' ->
     kinv (setq s rq' T' O' (g_tick_head s)) -> pi_all T' O' (mutexes s) (waits (tasks s)) ->
     Q RHINO_SUCCESS (setq s rq' T' O' (g_tick_head s))) ->
  wp (task_pri_change_loop fuel t new) Q s.
Proof.
  revert s t k new. induction fuel as [|fuel IH]; intros s t k new Hinv Ht Hd Hid Hn Hv Hlt Hbut Hat Hfuel HQ; [lia|].
  cbn. apply wp_bind. subst v.
  assert (Hstep : forall T'', reprio (fun old p => old = prio k /\ prio k < p) (<[t := k <| prio := new |>]> (tasks s)) T'' ->
    reprio (fun old p => old = prio k /\ prio k < p) (tasks s) T'').
  { intros T'' Hre. eapply reprio_step; [done|done|lia|done]. }
  pose proof Hinv as [].
  eapply (wp_turn s t k new (waits (tasks s))); try done; [lia|apply waits_inj|by left| |].
  - intros rq' O' Hsh Hinv' Hall. apply wp_ret, HQ; try done. apply Hstep, reprio_refl.
  - intros O' o w kw Hsh Hinv' Hh Hwt Hw Hdw Hwne Hwid Hbw s'.
    assert (Hpw : pi_on (tasks s) (blk_objs s) (mutexes s) (waits (tasks s)) w (prio kw)) by (by apply Hbut).
    assert (Hpk : prio kw <= prio k).
    { destruct Hpw as (k' & _ & _ & Hall & _). specialize (Hall o t Hh Hwt). unfold prio_of in Hall. by rewrite Ht in Hall. }
    rewrite decide_False by lia.
    assert (Hw' : tasks s' !! w = Some kw) by (unfold s'; cbn; by rewrite lookup_insert_ne).
    assert (Hfin : pi_on (tasks s') O' (mutexes s) (waits (tasks s)) w (prio kw) ->
      wp (mret RHINO_SUCCESS : K kstat_t) Q s').
    { intros Hp. apply wp_ret, HQ; try done; [apply Hstep, reprio_refl|]. by eapply pi_all_but. }
    destruct (decide (prio kw = prio k)) as [He|Hne].
    + apply wp_bind. eapply (wp_mutex_pri_look s' w kw); try done. intros new2 Hnew2.
      apply wp_bind. eapply wp_task_get; [done|].
      assert (Hnew2' : pi_on (tasks s') O' (mutexes s) (waits (tasks s)) w new2).
      { eapply pi_on_ext, Hnew2. intros o' x. unfold s'. cbn. by rewrite waits_step. }
      pose proof (pi_on_lower_bound _ (blk_objs s) O' (mutexes s) _ t k new Ht Hsh w _ _ Hpw Hlt Hnew2') as Hlb.
      case_decide as Hd2; [|apply wp_ret, Hfin; by rewrite <- Hd2].
      apply wp_ret. apply (IH s' w kw new2); try done.
      * assert (Hb : new2 <= b_prio kw) by (destruct Hnew2' as (k' & Hk' & Hb & _); congruence).
        pose proof (inv_task w kw Hw) as []. lia.
      * lia.
      * intros u ku Hu Hdu Hne. eapply pi_on_ext, (Hbw u ku Hu Hdu Hne). intros o' x. unfold s'. cbn.
        by rewrite waits_step.
      * unfold s'. cbn.
        pose proof (size_filter_upd (fun x => prio x = prio k) (tasks s) t k (k <| prio := new |>) Ht eq_refl) as Hsz.
        cbn in Hsz. rewrite Hsz in Hfuel by lia. lia.
      * intros rq2 T2 O2 Hsh2 Hre2 Hinv2 Hall2. apply (HQ rq2 T2 O2); try done.
        -- by eapply same_shape_trans.
        -- by apply Hstep.
        -- intros u ku Hu Hdu. eapply pi_on_ext, (Hall2 u ku Hu Hdu). intros o' x. unfold s'. cbn.
           by rewrite waits_step.
    + apply Hfin. unfold s'. cbn. eapply (pi_on_keep _ (blk_objs s)); try done; try apply waits_inj; lia.
Qed.

(** ** The whole change *)

Lemma reprio_lookup R T T' u k' :
  reprio R T T' -> T' !! u = Some k' ->
  exists k, T !! u = Some k /\ k' = k <| prio := prio k' |> /\ (prio k' = prio k \/ R (prio k) (prio k')).
Proof.
  intros Hre Hu. destruct (Hre u) as [He|(k & p & Hk & HR & He)]; rewrite He in Hu.
  - exists k'. split; [done|]. split; [by destruct k'|by left].
  - simplify_eq. exists k. split; [done|]. split; [done|by right].
Qed.

Lemma reprio_lookup_l R T T' u k :
  reprio R T T' -> T !! u = Some k ->
  exists p, T' !! u = Some (k <| prio := p |>) /\ (p = prio k \/ R (prio k) p).
Proof.
  intros Hre Hu. destruct (Hre u) as [He|(k' & p & Hk & HR & He)].
  - exists (prio k). rewrite He, Hu. split; [by destruct k|by left].
  - assert (k' = k) as -> by congruence. exists p. split; [done|by right].
Qed.

Lemma reprio_waits R T T' o x : reprio R T T' -> waits T' o x <-> waits T o x.
Proof.
  intros Hre. split.
  - intros (k' & Hk' & Hp & Hb). destruct (reprio_lookup R T T' x k' Hre Hk') as (k & Hk & He & _).
    rewrite He in Hp, Hb. by exists k.
  - intros (k & Hk & Hp & Hb). destruct (reprio_lookup_l R T T' x k Hre Hk) as (p & Hk' & _). by eexists.
Qed.

Lemma reprio_mono (R R' : Z -> Z -> Prop) T T' :
  (forall p q, R p q -> R' p q) -> reprio R T T' -> reprio R' T T'.
Proof. intros HR Hre u. destruct (Hre u) as [?|(k & p & ? & ? & ?)]; [by left|right]. exists k, p. eauto. Qed.

Lemma reprio_locked_ready R s rq' T' O' L' :
  reprio R (tasks s) T' -> locked_ready s -> locked_ready (setq s rq' T' O' L').
Proof.
  intros Hre Hlr Hn Hl. destruct (Hlr Hn Hl) as (a & ka & Ha & Hka & Hr).
  destruct (reprio_lookup_l R _ _ a ka Hre Hka) as (p & Hk' & _). by exists a, (ka <| prio := p |>).
Qed.

Lemma pi_all_inv R s rq' T' O' L' :
  reprio R (tasks s) T' -> pi_all T' O' (mutexes s) (waits (tasks s)) -> pi_inv (setq s rq' T' O' L').
Proof.
  intros Hre Hall u k Hu Hd. apply pi_at_on. eapply pi_on_ext, (Hall u k Hu Hd).
  intros o x. cbn. by rewrite (reprio_waits R (tasks s) T') by done.
Qed.

(** A task gets the priority its base and its mutexes ask for, the others have theirs. *)
Lemma wp_task_pri_change s t k new Q :
  kinv s -> tasks s !! t = Some k -> task_state k <> K_DELETED -> t <> g_idle_task s ->
  0 <= new < RHINO_CONFIG_PRI_MAX ->
  pi_but (tasks s) (blk_objs s) (mutexes s) (waits (tasks s)) t ->
  pi_on (tasks s) (blk_objs s) (mutexes s) (waits (tasks s)) t new ->
  (forall rq' T' O', same_shape (blk_objs s) O' -> reprio (fun _ _ => True) (tasks s) T' ->
     kinv (setq s rq' T' O' (g_tick_head s)) -> pi_inv (setq s rq' T' O' (g_tick_head s)) ->
     Q RHINO_SUCCESS (setq s rq' T' O' (g_tick_head s))) ->
  wp (task_pri_change t new) Q s.
Proof.
  intros Hinv Ht Hd Hid Hn Hbut Hat HQ. apply wp_bind, wp_gets. pose proof Hinv as [].
  destruct (decide (new <= prio k)).
  - eapply (wp_raise (waits (tasks s))); try done; [apply waits_inj|by left| |].
    + unfold pri_change_fuel. pose proof (size_filter_le (fun x => new < prio x) (tasks s)). lia.
    + intros rq' T' O' Hsh Hre Hinv' Hall. apply HQ; try done.
      * eapply reprio_mono; [|done]. done.
      * by eapply pi_all_inv.
  - eapply (wp_lower _ s t k (prio k)); try done; [lia| |].
    + unfold pri_change_fuel. pose proof (size_filter_le (fun x => prio x = prio k) (tasks s)). lia.
    + intros rq' T' O' Hsh Hre Hinv' Hall. apply HQ; try done.
      * eapply reprio_mono; [|done]. done.
      * by eapply pi_all_inv.
Qed.

End prio.
End Prio.
