(* ===== verification/Own.v ===== *)
(** * Ownership of mutexes

    The mutexes a task owns are linked from its [mutex_list].  Lemmas about taking a mutex
    out of this list, giving one to a task, and what both do to the priorities. *)
From S2P Require Import Prelude Config Kernel Sched TickList Pend Inv Prio.
Import Sched TickList Pend Prio.

Module Own.
Section own.
Context {cfg : RhinoConfig}.

(** ** Unlinking *)

Definition relink (s : kstate) (prev : tid + oid) (next : option oid) : kstate :=
  match prev with
  | inl t => s <| tasks ::= alter (fun k => k <| mutex_list := next |>) t |>
  | inr m => s <| mutexes ::= alter (fun mx => mx <| mutex_next := next |>) m |>
  end.

Lemma alter_as_insert {A} (f : A -> A) (m : gmap positive A) i x :
  m !! i = Some x -> alter f i m = <[i := f x]> m.
Proof.
  intros Hi. apply map_eq. intros j. destruct (decide (j = i)) as [->|].
  - by rewrite lookup_alter_eq, lookup_insert_eq, Hi.
  - by rewrite lookup_alter_ne, lookup_insert_ne.
Qed.

Lemma wp_link_set s prev p next (Q : unit -> kstate -> Prop) :
  link_val s prev = Some p -> Q tt (relink s prev next) -> wp (link_set prev next) Q s.
Proof.
  destruct prev as [t|o]; cbn; intros (x & Hx & _)%fmap_Some HQ.
  - eapply wp_task_upd; [done|]. refine (eq_ind _ (Q tt) HQ _ _). apply kstate_ext; cbn; first [by apply alter_as_insert|reflexivity].
  - eapply wp_mutex_upd; [done|]. refine (eq_ind _ (Q tt) HQ _ _). apply kstate_ext; cbn; first [by apply alter_as_insert|reflexivity].
Qed.

Lemma link_val_relink s prev p next : link_val s prev = Some p -> link_val (relink s prev next) prev = Some next.
Proof. destruct prev; cbn; intros (x & Hx & _)%fmap_Some; by rewrite lookup_alter_eq, Hx. Qed.

Lemma chain_relink s prev next p l :
  (forall m, prev = inr m -> m ∉ l) -> chain (mutexes s) p l -> chain (mutexes (relink s prev next)) p l.
Proof.
  destruct prev as [t|m]; cbn; [done|]. intros Hm. apply chain_frame. intros m' Hm'.
  rewrite lookup_alter_ne; [done|]. intros ->. by eapply Hm.
Qed.

Lemma relink_prio s prev next x : prio_of (tasks (relink s prev next)) x = prio_of (tasks s) x.
Proof.
  destruct prev as [t|m]; [|done]. cbn. unfold prio_of. destruct (decide (x = t)) as [->|].
  - rewrite lookup_alter_eq. by destruct (tasks s !! t).
  - by rewrite lookup_alter_ne.
Qed.

Lemma look_val_ext T T' O l new v :
  (forall x, prio_of T' x = prio_of T x) -> look_val T' O l new v -> look_val T O l new v.
Proof.
  intros He (Hle & Hall & Hex). split; [done|]. split.
  - intros m b f tl ? ? ?. rewrite <- He. by eapply Hall.
  - destruct Hex as [?|(m & b & f & tl & ?)]; [by left|]. right. exists m, b, f, tl. by rewrite <- He.
Qed.

Lemma waiters_known_relink s prev next l : waiters_known s l -> waiters_known (relink s prev next) l.
Proof.
  intros Hk m Hm. destruct (Hk m Hm) as (b & Hb & Hx). exists b. split; [by destruct prev|].
  intros x Hxb. destruct prev as [t|]; cbn; [|by apply Hx]. destruct (decide (x = t)) as [->|].
  - rewrite lookup_alter_eq. destruct (Hx t Hxb) as [k ->]. done.
  - rewrite lookup_alter_ne by done. by apply Hx.
Qed.

(** the link that points to [rel] when [l1] is before it *)
Definition link_before (prev : tid + oid) (l1 : list oid) : tid + oid :=
  from_option inr prev (last l1).

Lemma wp_unlink_loop s fuel prev rel p l new pri Q :
  link_val s prev = Some p -> chain (mutexes s) p l -> NoDup l -> rel ∈ l ->
  (forall m, prev = inr m -> m ∉ l) -> (length l < fuel)%nat -> waiters_known s l -> new <= pri ->
  (forall v l1 l2 mx, l = l1 ++ rel :: l2 -> mutexes s !! rel = Some mx ->
     look_val (tasks s) (blk_objs s) (l1 ++ l2) new v ->
     Q v (relink s (link_before prev l1) (mutex_next mx))) ->
  wp (mutex_pri_look_loop fuel prev (Some rel) new pri) Q s.
Proof.
  revert prev p new pri l. induction fuel as [|fuel IH];
    intros prev p new pri l Hp Hc Hnd Hrel Hprev Hf Hk Hle HQ; [lia|].
  cbn. apply wp_bind. eapply wp_link_get; [done|].
  destruct l as [|m l]; cbn in Hc; [set_solver|]. destruct Hc as (-> & mx & Hm & Hc).
  apply NoDup_cons in Hnd as [Hml Hnd]. case_decide as Hd.
  - injection Hd as ->. apply wp_bind. eapply wp_mutex_get; [done|]. apply wp_bind.
    eapply wp_link_set; [done|].
    eapply (wp_look_loop _ _ _ _ (mutex_next mx) l); [by eapply link_val_relink| | |cbn in Hf; lia| |done|].
    + apply chain_relink; [|done]. intros m' Hm'. specialize (Hprev m' Hm'). set_solver.
    + by intros o [= <-].
    + apply waiters_known_relink. intros m' Hm'. apply Hk. set_solver.
    + intros v Hv. apply (HQ v [] l mx); [done..|]. cbn.
      eapply look_val_ext; [apply relink_prio|]. by destruct prev.
  - destruct (Hk m ltac:(set_solver)) as (b & Hb & Hx).
    apply wp_bind. eapply wp_first_waiter_pri; [done..|].
    apply (IH _ (mutex_next mx) _ _ l); [cbn; by rewrite Hm|done|done| | |cbn in Hf; lia| | |].
    + set_solver.
    + by intros m' [= <-].
    + intros m' Hm'. apply Hk. set_solver.
    + case_decide; lia.
    + intros v l1 l2 mxr -> Hmr Hv. replace (link_before (inr m) l1) with (link_before prev (m :: l1)).
      * apply (HQ v (m :: l1) l2); [done..|]. by eapply look_val_cons.
      * unfold link_before. rewrite last_cons. by destruct (last l1).
Qed.

(** a mutex but for its link *)
Definition untie (mx : kmutex_t) : option tid * Z * Z :=
  (mutex_task mx, owner_nested mx, mutex_mm_alloc_flag mx).

(** [M'] and [p'] after taking [o] out of the list [l] *)
Record unlinked (M : gmap oid kmutex_t) (l : list oid) (o : oid) (p' : option oid)
    (M' : gmap oid kmutex_t) : Prop := {
  ul_chain : exists l', chain M' p' l' /\ NoDup l' /\ forall m, m ∈ l' <-> m ∈ l /\ m <> o;
  ul_same : forall m, untie <$> (M' !! m) = untie <$> (M !! m);
  ul_frame : forall m, m ∉ l \/ m = o -> M' !! m = M !! m;
}.

Lemma chain_unlink M p l0 m o mx l2 :
  NoDup (l0 ++ m :: o :: l2) -> M !! o = Some mx -> chain M p (l0 ++ m :: o :: l2) ->
  chain (alter (fun x => x <| mutex_next := mutex_next mx |>) m M) p (l0 ++ m :: l2).
Proof.
  intros Hnd Ho. revert p. induction l0 as [|x l0 IH]; intros p; cbn in *.
  - intros (-> & mm & Hm & (_ & mx' & Ho' & Hc)). assert (mx' = mx) as -> by congruence.
    split; [done|]. rewrite lookup_alter_eq, Hm. eexists. split; [done|]. cbn.
    eapply chain_frame; [|done]. intros m' Hm'. rewrite lookup_alter_ne; [done|]. intros ->.
    apply NoDup_cons in Hnd as [Hn _]. apply Hn. set_solver.
  - intros (-> & mm & Hx & Hc). apply NoDup_cons in Hnd as [Hn Hnd]. split; [done|].
    exists mm. rewrite lookup_alter_ne by (intros ->; apply Hn; set_solver). eauto.
Qed.

Lemma NoDup_middle (l1 l2 : list oid) o : NoDup (l1 ++ o :: l2) -> o ∉ l1 ++ l2 /\ NoDup (l1 ++ l2).
Proof. rewrite <- (Permutation_middle l1 l2 o). by rewrite NoDup_cons. Qed.

Lemma relink_unlinked s t k l1 o l2 mx :
  tasks s !! t = Some k -> chain (mutexes s) (mutex_list k) (l1 ++ o :: l2) ->
  NoDup (l1 ++ o :: l2) -> mutexes s !! o = Some mx ->
  exists p' M',
    relink s (link_before (inl t) l1) (mutex_next mx) =
      setq (s <| mutexes := M' |>) (g_ready_queue s) (<[t := k <| mutex_list := p' |>]> (tasks s))
        (blk_objs s) (g_tick_head s) /\
    unlinked (mutexes s) (l1 ++ o :: l2) o p' M'.
Proof.
  intros Ht Hc Hnd Ho. destruct (NoDup_middle _ _ _ Hnd) as [Hno Hnd'].
  assert (Hl : forall m, m ∈ l1 ++ l2 <-> m ∈ l1 ++ o :: l2 /\ m <> o) by set_solver.
  destruct l1 as [|m l0 _] using rev_ind.
  - exists (mutex_next mx), (mutexes s). split.
    + unfold link_before. cbn [last from_option relink]. apply kstate_ext; cbn; try reflexivity.
      by apply alter_as_insert.
    + split; [|done|done]. exists l2. cbn in Hc. destruct Hc as (_ & mx' & Ho' & Hc).
      assert (mx' = mx) as -> by congruence. done.
  - exists (mutex_list k), (alter (fun x => x <| mutex_next := mutex_next mx |>) m (mutexes s)). split.
    + unfold link_before. rewrite last_snoc. cbn [from_option relink]. apply kstate_ext; cbn; try reflexivity.
      rewrite insert_id; [done|]. by destruct k.
    + rewrite <- app_assoc in Hc, Hnd. cbn in Hc, Hnd. split.
      * exists ((l0 ++ [m]) ++ l2). split; [|done]. rewrite <- app_assoc. cbn. by eapply chain_unlink.
      * intros x. destruct (decide (x = m)) as [->|]; [|by rewrite lookup_alter_ne].
        rewrite lookup_alter_eq. by destruct (mutexes s !! m).
      * intros x Hx. rewrite lookup_alter_ne; [done|]. intros <-. set_solver.
Qed.

Lemma wp_mutex_pri_look_rel s t k o l Q :
  tasks s !! t = Some k -> chain (mutexes s) (mutex_list k) l -> NoDup l -> o ∈ l ->
  waiters_known s l -> (length l < chain_fuel s)%nat ->
  (forall v p' M' l', unlinked (mutexes s) l o p' M' ->
     look_val (tasks s) (blk_objs s) l' (b_prio k) v -> (forall m, m ∈ l' <-> m ∈ l /\ m <> o) ->
     Q v (setq (s <| mutexes := M' |>) (g_ready_queue s) (<[t := k <| mutex_list := p' |>]> (tasks s))
        (blk_objs s) (g_tick_head s))) ->
  wp (mutex_pri_look t (Some o)) Q s.
Proof.
  intros Ht Hc Hnd Ho Hk Hf HQ. apply wp_bind. eapply wp_task_get; [done|]. apply wp_bind, wp_gets.
  eapply (wp_unlink_loop _ _ _ _ (mutex_list k) l); try done; [cbn; by rewrite Ht|].
  intros v l1 l2 mx -> Hm Hv.
  destruct (relink_unlinked s t k l1 o l2 mx Ht Hc Hnd Hm) as (p' & M' & -> & Hul).
  apply (HQ v p' M' (l1 ++ l2)); [done..|]. apply NoDup_middle in Hnd as []. set_solver.
Qed.

(** ** Who owns what *)

Lemma untie_lookup (M M' : gmap oid kmutex_t) m mx :
  untie <$> (M' !! m) = untie <$> (M !! m) -> M' !! m = Some mx ->
  exists mx', M !! m = Some mx' /\ untie mx' = untie mx.
Proof. intros Hs Hm. rewrite Hm in Hs. symmetry in Hs. apply fmap_Some in Hs as (mx' & ? & ?). eauto. Qed.

Lemma holds_untie O M M' u m :
  untie <$> (M' !! m) = untie <$> (M !! m) -> holds O M' u m <-> holds O M u m.
Proof.
  intros Hs. split; intros (b & mx & Hb & Hty & Hm & Hu).
  - destruct (untie_lookup _ _ _ _ Hs Hm) as (mx' & Hm' & [=]). exists b, mx'. repeat split; congruence.
  - destruct (untie_lookup M' M m mx (eq_sym Hs) Hm) as (mx' & Hm' & [=]). exists b, mx'. repeat split; congruence.
Qed.

Lemma own_frame T T' O O' M :
  own_inv T O M -> same_shape O O' ->
  (forall t k', T' !! t = Some k' -> task_state k' <> K_DELETED ->
     exists k, T !! t = Some k /\ task_state k <> K_DELETED /\ mutex_list k' = mutex_list k) ->
  (forall t, live T t -> live T' t) -> (forall t m, waits T' m t -> waits T m t) -> own_inv T' O' M.
Proof.
  intros [Hc Hl Hs] Hsh HT Hlive Hw. split.
  - intros t k' Ht Hd. destruct (HT t k' Ht Hd) as (k & Hk & Hdk & ->).
    destruct (Hc t k Hk Hdk) as (l & ? & ? & Hm). exists l. split; [done|]. split; [done|].
    intros m. by rewrite Hm, (holds_same_shape O O').
  - intros t m Hm. apply Hlive, (Hl t m). by apply (holds_same_shape O O').
  - intros t m Hm Hwt. eapply Hs; [by apply (holds_same_shape O O')|by apply Hw].
Qed.

Lemma holds_free O M o mx u m :
  mutex_task mx = None -> holds O (<[o := mx]> M) u m <-> holds O M u m /\ m <> o.
Proof.
  intros Hmx. unfold holds. destruct (decide (m = o)) as [->|Hne].
  - rewrite lookup_insert_eq. split; [|tauto]. intros (b & mx' & _ & _ & [= <-] & ?). congruence.
  - rewrite lookup_insert_ne by done. tauto.
Qed.

Lemma holds_give O M o mx b w u m :
  O !! o = Some b -> obj_type b = RHINO_MUTEX_OBJ_TYPE -> mutex_task mx = Some w ->
  holds O (<[o := mx]> M) u m <-> (m = o /\ u = w) \/ (holds O M u m /\ m <> o).
Proof.
  intros Hb Hty Hmx. unfold holds. destruct (decide (m = o)) as [->|Hne].
  - rewrite lookup_insert_eq. split.
    + intros (b' & mx' & _ & _ & [= <-] & ?). left. split; [done|]. congruence.
    + intros [[_ ->]|[_ ?]]; [|done]. by exists b, mx.
  - rewrite lookup_insert_ne by done. tauto.
Qed.

Lemma chain_insert_ne M o mx p l : o ∉ l -> chain M p l -> chain (<[o := mx]> M) p l.
Proof. intros Ho. apply chain_frame. intros m Hm. rewrite lookup_insert_ne; [done|]. by intros <-. Qed.

(** [t] loses [o]. *)
Lemma own_release T O M M' t k o l p' mx :
  own_inv T O M -> T !! t = Some k -> task_state k <> K_DELETED -> holds O M t o ->
  (forall m, m ∈ l <-> holds O M t m) -> unlinked M l o p' M' -> mutex_task mx = None ->
  own_inv (<[t := k <| mutex_list := p' |>]> T) O (<[o := mx]> M').
Proof.
  intros [Hc Hl Hs] Ht Hd Ho Hm [Huc Hus Huf] Hmx.
  assert (HH : forall u m, holds O (<[o := mx]> M') u m <-> holds O M u m /\ m <> o).
  { intros u m. rewrite holds_free by done. by rewrite (holds_untie O M M'). }
  assert (HW : forall x m, waits (<[t := k <| mutex_list := p' |>]> T) m x <-> waits T m x).
  { intros x m. rewrite waits_insert. unfold waits. cbn. destruct (decide (x = t)) as [->|]; [|tauto].
    rewrite Ht. naive_solver. }
  split.
  - intros u ku Hu Hdu. destruct (decide (u = t)) as [->|Hut].
    + rewrite lookup_insert_eq in Hu. injection Hu as <-. destruct Huc as (l' & Hc' & Hnd & Hl').
      exists l'. split; [|split; [done|]].
      * apply chain_insert_ne; [|done]. rewrite Hl'. tauto.
      * intros m. by rewrite HH, Hl', Hm.
    + rewrite lookup_insert_ne in Hu by done. destruct (Hc u ku Hu Hdu) as (lu & Hcu & Hnd & Hlu).
      assert (Hout : forall m, m ∈ lu -> m ∉ l).
      { intros m Hmu Hmt. apply Hlu in Hmu. apply Hm in Hmt. apply Hut. by apply (holds_owner O M u t m). }
      assert (Hno : o ∉ lu) by (intros Hou; apply (Hout o Hou); by apply Hm).
      exists lu. split; [|split; [done|]].
      * apply chain_insert_ne; [done|]. eapply chain_frame; [|done]. intros m Hmu. rewrite Huf; [done|]. left. by apply Hout.
      * intros m. rewrite HH, Hlu. split; [|tauto]. intros Hu'. split; [done|]. intros ->. apply Hno. by apply Hlu.
  - intros u m Hu. apply HH in Hu as [Hu _]. apply live_insert. destruct (decide (u = t)) as [->|]; [by left|right].
    split; [done|]. by eapply Hl.
  - intros u m Hu. apply HH in Hu as [Hu _]. rewrite HW. by apply Hs.
Qed.

(** [w] gets [o]. *)
Lemma own_give T O M w k o b mx0 mx :
  own_inv T O M -> T !! w = Some k -> task_state k <> K_DELETED -> ~ waits T o w ->
  O !! o = Some b -> obj_type b = RHINO_MUTEX_OBJ_TYPE ->
  M !! o = Some mx0 -> mutex_task mx0 = None -> mutex_task mx = Some w -> mutex_next mx = mutex_list k ->
  own_inv (<[w := k <| mutex_list := Some o |>]> T) O (<[o := mx]> M).
Proof.
  intros [Hc Hl Hs] Hw Hd Hnw Hb Hty Hm0 Hf Hmx Hnx.
  assert (Hno : forall u, ~ holds O M u o).
  { intros u (b' & mx' & _ & _ & Hm' & Hu). congruence. }
  pose proof (fun u m => holds_give O M o mx b w u m Hb Hty Hmx) as HH.
  split.
  - intros u ku Hu Hdu. destruct (decide (u = w)) as [->|Hut].
    + rewrite lookup_insert_eq in Hu. injection Hu as <-. destruct (Hc w k Hw Hd) as (l & Hcl & Hnd & Hlm).
      assert (o ∉ l) by (rewrite Hlm; apply Hno).
      exists (o :: l). split; [|split].
      * cbn. split; [done|]. exists mx. rewrite lookup_insert_eq, Hnx. split; [done|]. by apply chain_insert_ne.
      * by apply NoDup_cons.
      * intros m. rewrite elem_of_cons, HH, Hlm. split; [|tauto]. intros [->|Hh]; [by left|].
        right. split; [done|]. intros ->. by eapply Hno.
    + rewrite lookup_insert_ne in Hu by done. destruct (Hc u ku Hu Hdu) as (l & Hcl & Hnd & Hlm).
      assert (o ∉ l) by (rewrite Hlm; apply Hno). exists l. split; [by apply chain_insert_ne|]. split; [done|].
      intros m. rewrite HH, Hlm. split; [|tauto]. intros Hh. right. split; [done|]. intros ->. by eapply Hno.
  - intros u m Hu. apply live_insert. apply HH in Hu as [[-> ->]|[Hu _]]; [by left|].
    destruct (decide (u = w)) as [->|]; [by left|right]. split; [done|]. by eapply Hl.
  - intros u m Hu Hx. rewrite waits_insert in Hx. cbn in Hx.
    assert (waits T m u) as Hx'.
    { destruct Hx as [(-> & ? & ?)|[? ?]]; [by exists k|done]. }
    apply HH in Hu as [[-> ->]|[Hu _]]; [done|]. by eapply Hs.
Qed.

(** ** Priorities *)

Lemma pi_on_frame T T' O O' M M' (W W' : oid -> tid -> Prop) u v :
  pi_on T O M W u v ->
  (forall k, T !! u = Some k -> exists k', T' !! u = Some k' /\ b_prio k' = b_prio k) ->
  (forall m, holds O' M' u m <-> holds O M u m) ->
  (forall m x, holds O M u m -> W' m x <-> W m x) ->
  (forall m x, holds O M u m -> W m x -> prio_of T' x = prio_of T x) ->
  pi_on T' O' M' W' u v.
Proof.
  intros (k & Hk & Hle & Hall & Hex) HT HH HW HP. destruct (HT k Hk) as (k' & Hk' & Hb).
  exists k'. split; [done|]. rewrite Hb. split; [done|]. split.
  - intros m x Hm Hx. apply HH in Hm. apply HW in Hx; [|done]. rewrite (HP m x) by done. by eapply Hall.
  - destruct Hex as [?|(m & x & Hm & Hx & Hp)]; [by left|]. right. exists m, x.
    rewrite HH, (HW m x Hm), (HP m x Hm Hx). done.
Qed.

(** [t], which waits for nothing, loses [o] and gets the priority its other mutexes ask for. *)
Lemma pi_release T O M M' t k o l l' p' mx v :
  pi_all T O M (waits T) -> bl_ok O (waits T) (prio_of T) ->
  T !! t = Some k -> is_pend (task_state k) = false -> holds O M t o ->
  (forall m, m ∈ l <-> holds O M t m) -> unlinked M l o p' M' -> mutex_task mx = None ->
  (forall m b, m ∈ l' -> O !! m = Some b -> blk_policy b = BLK_POLICY_PRI) ->
  look_val T O l' (b_prio k) v -> (forall m, m ∈ l' <-> m ∈ l /\ m <> o) ->
  let T' := <[t := k <| mutex_list := p' |> <| prio := v |>]> T in
  pi_all T' O (<[o := mx]> M') (waits T').
Proof.
  intros Hpi Hbl Ht Hp Ho Hm [Huc Hus Huf] Hmx Hpol Hlook Hl' T'.
  assert (HH : forall u m, holds O (<[o := mx]> M') u m <-> holds O M u m /\ m <> o).
  { intros u m. rewrite holds_free by done. by rewrite (holds_untie O M M'). }
  assert (Hnt : forall m, ~ waits T m t) by (intros m (k' & ? & ? & _); congruence).
  assert (HW : forall m x, waits T' m x <-> waits T m x).
  { intros m x. unfold T'. rewrite waits_insert. cbn. rewrite Hp. destruct (decide (x = t)) as [->|]; [|naive_solver].
    specialize (Hnt m). naive_solver. }
  assert (HP : forall m x, waits T m x -> prio_of T' x = prio_of T x).
  { intros m x Hx. unfold T'. rewrite prio_of_insert. case_decide; [|done]. subst. by destruct (Hnt m). }
  intros u ku Hu Hd. destruct (decide (u = t)) as [->|Hne].
  - unfold T' in Hu. rewrite lookup_insert_eq in Hu. injection Hu as <-. cbn.
    apply (pi_on_frame T _ O _ (<[o := mx]> M') _ (waits T)).
    + exists k. split; [done|]. apply (look_val_pi _ _ _ _ l'); try done. intros m. by rewrite Hl', HH, Hm.
    + intros k' Hk'. unfold T'. rewrite lookup_insert_eq. eexists. split; [done|]. cbn. congruence.
    + done.
    + done.
    + intros m x _. apply HP.
  - unfold T' in Hu. rewrite lookup_insert_ne in Hu by done. eapply pi_on_frame; [by apply Hpi| | | |].
    + intros k' Hk'. unfold T'. rewrite lookup_insert_ne by done. eauto.
    + intros m. rewrite HH. split; [tauto|]. intros Hu'. split; [done|]. intros ->.
      apply Hne. by apply (holds_owner O M u t o).
    + done.
    + intros m x _. apply HP.
Qed.

(** [w] gets the free mutex [o], of which it has at least the priority of the first waiter. *)
Lemma pi_give T O M w k o b mx0 mx :
  pi_all T O M (waits T) -> T !! w = Some k -> task_state k <> K_DELETED ->
  O !! o = Some b -> obj_type b = RHINO_MUTEX_OBJ_TYPE ->
  M !! o = Some mx0 -> mutex_task mx0 = None -> mutex_task mx = Some w ->
  (forall x, waits T o x -> prio k <= prio_of T x) ->
  let T' := <[w := k <| mutex_list := Some o |>]> T in
  pi_all T' O (<[o := mx]> M) (waits T').
Proof.
  intros Hpi Hw Hd Hb Hty Hm0 Hf Hmx Hle T'.
  assert (Hno : forall u, ~ holds O M u o).
  { intros u (b' & mx' & _ & _ & Hm' & Hu). congruence. }
  pose proof (fun u m => holds_give O M o mx b w u m Hb Hty Hmx) as HH.
  assert (HW : forall m x, waits T' m x <-> waits T m x).
  { intros m x. unfold T'. rewrite waits_insert. cbn. destruct (decide (x = w)) as [->|]; [|naive_solver].
    unfold waits. naive_solver. }
  assert (HP : forall x, prio_of T' x = prio_of T x).
  { intros x. unfold T'. rewrite prio_of_insert. case_decide; [|done]. subst. unfold prio_of. by rewrite Hw. }
  intros u ku Hu Hdu. destruct (decide (u = w)) as [->|Hne].
  - unfold T' in *. rewrite lookup_insert_eq in Hu. injection Hu as <-. cbn.
    destruct (Hpi w k Hw Hd) as (k' & Hk' & Hbp & Hall & Hex). assert (k' = k) as -> by congruence.
    eexists. rewrite lookup_insert_eq. split; [done|]. cbn. split; [done|]. split.
    + intros m x Hm Hx. rewrite HP. apply HW in Hx. apply HH in Hm as [[-> _]|[Hm _]]; [by apply Hle|by eapply Hall].
    + destruct Hex as [?|(m & x & Hm & Hx & Hp)]; [by left|]. right. exists m, x. rewrite HH, HW, HP.
      split; [|done]. right. split; [done|]. intros ->. by eapply Hno.
  - unfold T' in Hu. rewrite lookup_insert_ne in Hu by done. eapply pi_on_frame; [by apply Hpi| | | |].
    + intros k' Hk'. unfold T'. rewrite lookup_insert_ne by done. eauto.
    + intros m. rewrite HH. split; [by intros [[_ ?]|[? _]]|]. intros Hm. right. split; [done|]. intros ->. by eapply Hno.
    + done.
    + intros m x _ _. apply HP.
Qed.

(** A change of a mutex that keeps its owner and its link. *)
Lemma own_upd T O M o mx0 mx :
  own_inv T O M -> M !! o = Some mx0 -> mutex_task mx = mutex_task mx0 -> mutex_next mx = mutex_next mx0 ->
  own_inv T O (<[o := mx]> M) /\ (forall u m, holds O (<[o := mx]> M) u m <-> holds O M u m).
Proof.
  intros [Hc Hl Hs] Ho Ht Hn.
  assert (HH : forall u m, holds O (<[o := mx]> M) u m <-> holds O M u m).
  { intros u m. unfold holds. destruct (decide (m = o)) as [->|]; [|by rewrite lookup_insert_ne].
    rewrite lookup_insert_eq, Ho. split; intros (b & mx' & ? & ? & [= <-] & ?); do 2 eexists; eauto with congruence. }
  split; [|done]. split.
  - intros t k Hk Hd. destruct (Hc t k Hk Hd) as (l & Hcl & Hnd & Hm). exists l. split; [|split; [done|]].
    + eapply chain_frame; [|done]. intros m _. destruct (decide (m = o)) as [->|]; [|by rewrite lookup_insert_ne].
      by rewrite lookup_insert_eq, Ho; cbn; rewrite Hn.
    + intros m. by rewrite HH.
  - intros t m. rewrite HH. apply Hl.
  - intros t m. rewrite HH. apply Hs.
Qed.

Lemma pi_upd T O M M' W :
  pi_all T O M W -> (forall u m, holds O M' u m <-> holds O M u m) -> pi_all T O M' W.
Proof. intros Hpi HH u ku Hu Hd. eapply pi_on_frame; [by apply Hpi|eauto|done|done|done]. Qed.

(** ** [mutex_release] of a ready task *)

Lemma wp_pri_change_ready s t k new Q :
  qinv s -> tasks s !! t = Some k -> task_state k = K_RDY -> t <> g_idle_task s ->
  0 <= new < RHINO_CONFIG_PRI_MAX -> prio k <> new ->
  (forall rq', qinv (setq s rq' (<[t := k <| prio := new |>]> (tasks s)) (blk_objs s) (g_tick_head s)) ->
     Q RHINO_SUCCESS (setq s rq' (<[t := k <| prio := new |>]> (tasks s)) (blk_objs s) (g_tick_head s))) ->
  wp (task_pri_change t new) Q s.
Proof.
  intros. apply wp_bind, wp_gets. unfold pri_change_fuel. rewrite Nat.add_comm. cbn. apply wp_bind.
  eapply wp_step_ready_q; try done.
Qed.

Lemma look_val_range s l k v :
  qinv s -> task_ok k -> look_val (tasks s) (blk_objs s) l (b_prio k) v -> 0 <= v < RHINO_CONFIG_PRI_MAX.
Proof.
  intros Hq [_ Hb _ _ _ _ _] (Hle & _ & [->|(m & b & f & tl & _ & Hm & Hl & <-)]); [done|].
  destruct (waiters_of s m b f Hq Hm) as [kf Hf]; [rewrite Hl; set_solver|].
  unfold prio_of. rewrite Hf. pose proof Hq as []. apply (q_task f kf Hf).
Qed.

(** [t] after it lost a mutex *)
Definition released (k k' : ktask_t) : Prop :=
  exists p v, k' = k <| mutex_list := p |> <| prio := v |> /\ prio k <= v.

Lemma own_not_idle s t m :
  qinv s -> own_inv (tasks s) (blk_objs s) (mutexes s) -> holds (blk_objs s) (mutexes s) t m ->
  t <> g_idle_task s.
Proof.
  intros [] [Hc _ _] Hm ->. destruct q_idle as (k & Hk & Hr & _ & _ & Hl).
  destruct (Hc _ k Hk) as (l & Hcl & _ & Hml); [by rewrite Hr|]. rewrite Hl in Hcl.
  apply Hml in Hm. destruct l; [set_solver|]. cbn in Hcl. by destruct Hcl.
Qed.

(** The own priority is the best any set of mutexes allows. *)
Lemma look_val_worse s t k (l l' : list oid) v :
  pi_all (tasks s) (blk_objs s) (mutexes s) (waits (tasks s)) -> tasks s !! t = Some k ->
  task_state k <> K_DELETED -> qinv s ->
  (forall m, m ∈ l <-> holds (blk_objs s) (mutexes s) t m) -> (forall m, m ∈ l' -> m ∈ l) ->
  look_val (tasks s) (blk_objs s) l' (b_prio k) v -> prio k <= v.
Proof.
  intros Hpi Ht Hd [] Hl Hl' (_ & _ & Hex). destruct (Hpi t k Ht Hd) as (k' & Hk' & Hb & Hall & _).
  assert (k' = k) as -> by congruence. destruct Hex as [->|(m & b & f & tl & Hm & Hb' & Hlf & <-)]; [done|].
  apply (Hall m f); [by apply Hl, Hl'|]. apply (bl_mem _ _ _ q_blk m b f Hb'). rewrite Hlf. set_solver.
Qed.

(** A mutex without waiters asks for nothing. *)
Lemma look_val_unwaited s t k o (l l' : list oid) v :
  pi_all (tasks s) (blk_objs s) (mutexes s) (waits (tasks s)) -> tasks s !! t = Some k ->
  task_state k <> K_DELETED -> qinv s ->
  (forall m, m ∈ l <-> holds (blk_objs s) (mutexes s) t m) -> (forall m, m ∈ l' <-> m ∈ l /\ m <> o) ->
  (forall m b, m ∈ l -> blk_objs s !! m = Some b -> blk_policy b = BLK_POLICY_PRI) ->
  (forall x, ~ waits (tasks s) o x) ->
  look_val (tasks s) (blk_objs s) l' (b_prio k) v -> v <= prio k.
Proof.
  intros Hpi Ht Hd [] Hl Hl' Hpol Hno (Hle & Hall & _).
  destruct (Hpi t k Ht Hd) as (k' & Hk' & _ & _ & Hex). assert (k' = k) as -> by congruence.
  destruct Hex as [->|(m & x & Hm & Hx & <-)]; [done|].
  destruct (bl_obj _ _ _ q_blk m x Hx) as [b Hb].
  pose proof (bl_sorted _ _ _ q_blk m b Hb (Hpol m b (proj2 (Hl m) Hm) Hb)) as Hs.
  pose proof (proj2 (bl_mem _ _ _ q_blk m b x Hb) Hx) as Hin. destruct (blk_list b) as [|f tl] eqn:Hbl; [set_solver|].
  assert (Hm' : m ∈ l') by (apply Hl'; split; [by apply Hl|]; intros ->; by apply (Hno x)).
  pose proof (Hall m b f tl Hm' Hb Hbl) as Hf. apply elem_of_cons in Hin as [->|Hin]; [done|].
  apply StronglySorted_inv in Hs as [_ Hs]. rewrite Forall_forall in Hs. specialize (Hs x Hin). lia.
Qed.

Lemma qinv_setq_mutexes s M' rq T O L :
  qinv (setq s rq T O L) -> qinv (setq (s <| mutexes := M' |>) rq T O L).
Proof. intros []. by split. Qed.

Lemma qinv_ext s s' :
  qinv s -> g_ready_queue s' = g_ready_queue s -> tasks s' = tasks s -> blk_objs s' = blk_objs s ->
  g_tick_head s' = g_tick_head s -> g_tick_count s' = g_tick_count s ->
  g_active_task s' = g_active_task s -> g_idle_task s' = g_idle_task s -> qinv s'.
Proof. intros [] H1 H2 H3 H4 H5 H6 H7. split; by rewrite ?H1, ?H2, ?H3, ?H4, ?H5, ?H6, ?H7. Qed.

(** The queues do not see the list of mutexes. *)
Lemma qinv_list_upd s rq T O L t k k' :
  qinv (setq s rq T O L) -> T !! t = Some k -> t <> g_idle_task s ->
  k' = k <| mutex_list := mutex_list k' |> -> qinv (setq s rq (<[t := k']> T) O L).
Proof.
  intros Hq Ht Hid Hk. pose proof Hq as []. cbn in *. apply (qinv_setq (setq s rq T O L) t k'); try done.
  - destruct (q_task t k Ht). rewrite Hk. by split.
  - eapply rq_ok_unseen; [done..| |]; by rewrite Hk.
  - eapply bl_ok_unseen; [done..| |]; by rewrite Hk.
  - eapply tick_ok_upd; [done..| |]; by rewrite Hk.
Qed.

Lemma wp_release_ready s t k o Q :
  qinv s -> own_inv (tasks s) (blk_objs s) (mutexes s) ->
  pi_all (tasks s) (blk_objs s) (mutexes s) (waits (tasks s)) -> pri_mutexes (blk_objs s) ->
  tasks s !! t = Some k -> task_state k = K_RDY -> holds (blk_objs s) (mutexes s) t o ->
  (forall rq' k' M', let T' := <[t := k']> (tasks s) in
     let s' := setq (s <| mutexes := M' |>) rq' T' (blk_objs s) (g_tick_head s) in
     released k k' -> qinv s' ->
     (prio k' = prio k -> rq' = g_ready_queue s) ->
     ((forall x, ~ waits (tasks s) o x) -> prio k' = prio k) ->
     (forall mx, mutex_task mx = None -> own_inv T' (blk_objs s) (<[o := mx]> M') /\
        pi_all T' (blk_objs s) (<[o := mx]> M') (waits T')) ->
     M' !! o = mutexes s !! o -> (forall m, untie <$> M' !! m = untie <$> mutexes s !! m) -> Q tt s') ->
  wp (mutex_release t (Some o)) Q s.
Proof.
  intros Hq Hown Hpi Hpol Ht Hr Ho HQ.
  assert (Hd : task_state k <> K_DELETED) by (by rewrite Hr).
  assert (Hp : is_pend (task_state k) = false) by (by rewrite Hr).
  assert (Hid : t <> g_idle_task s) by (by eapply own_not_idle).
  assert (Hok : task_ok k) by (pose proof Hq as []; by eapply q_task).
  destruct (chain_own s t k Hq Hown Hpol Ht Hd) as (l & Hc & Hnd & Hl & Hk & Hpl & Hlen).
  apply wp_bind. eapply (wp_mutex_pri_look_rel s t k o l); [done..|by apply Hl|done|done|].
  intros v p' M' l' Hul Hlook Hl'.
  assert (Hv : 0 <= v < RHINO_CONFIG_PRI_MAX) by (by eapply look_val_range).
  assert (Hle : prio k <= v).
  { apply (look_val_worse s t k l l'); try done. intros m Hm. by apply Hl'. }
  assert (Huw : (forall x, ~ waits (tasks s) o x) -> v = prio k).
  { intros Hno. pose proof (look_val_unwaited s t k o l l' v Hpi Ht Hd Hq Hl Hl' Hpl Hno Hlook). lia. }
  set (k1 := k <| mutex_list := p' |>) in *.
  assert (Hok1 : task_ok k1) by (destruct Hok; by split).
  assert (Hq1 : qinv (setq (s <| mutexes := M' |>) (g_ready_queue s) (<[t := k1]> (tasks s)) (blk_objs s) (g_tick_head s))).
  { pose proof Hq as []. apply qinv_setq_mutexes, qinv_setq; try done.
    - eapply rq_ok_unseen; [done..|]. done.
    - eapply bl_ok_unseen; [done..|]. by rewrite Hp.
    - by eapply tick_ok_upd. }
  assert (Hfin : forall mx, mutex_task mx = None ->
    own_inv (<[t := k1 <| prio := v |>]> (tasks s)) (blk_objs s) (<[o := mx]> M') /\
    pi_all (<[t := k1 <| prio := v |>]> (tasks s)) (blk_objs s) (<[o := mx]> M')
      (waits (<[t := k1 <| prio := v |>]> (tasks s)))).
  { intros mx Hmx. split.
    - eapply (own_frame (<[t := k1]> (tasks s))); [by eapply own_release|done| | |].
      + intros u ku. destruct (decide (u = t)) as [->|].
        * rewrite !lookup_insert_eq. intros [= <-] _. by exists k1.
        * rewrite !lookup_insert_ne by done. eauto.
      + intros u. rewrite !live_insert. done.
      + intros u m. rewrite !waits_insert. done.
    - pose proof Hq as []. eapply (pi_release _ _ _ _ _ k o l l'); try done.
      intros m b Hm%Hl' Hb. by apply (Hpl m b); [apply Hm|]. }
  assert (Hmo : M' !! o = mutexes s !! o) by (apply (ul_frame _ _ _ _ _ Hul); by right).
  pose proof (ul_same _ _ _ _ _ Hul) as Hsame.
  apply wp_bind. eapply q_task_get; [apply lookup_insert_eq|]. case_decide as Hdec.
  - apply wp_bind. eapply (wp_pri_change_ready _ t k1); try done; [apply lookup_insert_eq|].
    intros rq' Hq'. cbn [tasks setq] in *. rewrite insert_insert_eq in *. apply wp_ret.
    apply (HQ rq' (k1 <| prio := v |>) M'); try done.
    by exists p', v.
  - apply wp_ret. assert (Hkv : k1 <| prio := v |> = k1).
    { unfold k1 in *. destruct k. cbn in *. by rewrite Hdec. }
    rewrite Hkv in Hfin. apply (HQ (g_ready_queue s) k1 M'); try done.
    exists p', v. split; [by rewrite <- Hkv|done].
Qed.

Lemma kinv_intro s :
  qinv s -> own_inv (tasks s) (blk_objs s) (mutexes s) ->
  (forall o b, blk_objs s !! o = Some b ->
     obj_ok (sems s) (mutexes s) (events s) (queues s) (buf_queues s) o b) -> kinv s.
Proof. intros [] [] Hob. by split. Qed.

Lemma obj_ok_untie SM M M' EV QU BQ o b :
  obj_ok SM M EV QU BQ o b -> untie <$> M' !! o = untie <$> M !! o -> obj_ok SM M' EV QU BQ o b.
Proof.
  intros Hob Hu. unfold obj_ok in *. destruct (obj_type b); try done.
  destruct Hob as (mx & Hm & Hp & Hw & Hn). destruct (untie_lookup M' M o mx (eq_sym Hu) Hm) as (mx' & Hm' & He).
  injection He as H1 H2 H3. exists mx'. by rewrite H1, H2.
Qed.

(** ** Waking a waiter of a mutex that nobody owns *)

Lemma waits_woken T o w k st m x :
  T !! w = Some k -> is_pend (task_state k) = true -> blk_obj k = Some o ->
  waits (<[w := woken_task st k]> T) m x <-> waits T m x /\ x <> w.
Proof.
  intros Hw Hp Hb. rewrite waits_insert. cbn. rewrite woken_not_pend by done. naive_solver.
Qed.

Lemma own_woken T O M w k st :
  own_inv T O M -> T !! w = Some k -> is_pend (task_state k) = true ->
  own_inv (<[w := woken_task st k]> T) (blk_rm w O) M.
Proof.
  intros Hown Hw Hp. eapply own_frame; [done|apply same_shape_blk_rm| | |].
  - intros t k'. destruct (decide (t = w)) as [->|].
    + rewrite lookup_insert_eq. intros [= <-] _. exists k. split; [done|]. split; [|done].
      intros He. by rewrite He in Hp.
    + rewrite lookup_insert_ne by done. eauto.
  - intros t Ht. apply live_insert. destruct (decide (t = w)) as [->|]; [left|by right].
    split; [done|]. cbn. by destruct (task_state k).
  - intros t m. rewrite waits_insert. cbn. rewrite woken_not_pend by done. naive_solver.
Qed.

Lemma pi_woken_free T O M w k o st :
  pi_all T O M (waits T) -> T !! w = Some k -> is_pend (task_state k) = true -> blk_obj k = Some o ->
  (forall u, ~ holds O M u o) ->
  pi_all (<[w := woken_task st k]> T) (blk_rm w O) M (waits (<[w := woken_task st k]> T)).
Proof.
  intros Hpi Hw Hp Hb Hno u ku Hu Hd.
  assert (Hku : exists k1, T !! u = Some k1 /\ task_state k1 <> K_DELETED /\ prio ku = prio k1 /\ b_prio ku = b_prio k1).
  { destruct (decide (u = w)) as [->|].
    - rewrite lookup_insert_eq in Hu. injection Hu as <-. exists k. split; [done|]. split; [|done].
      intros He. by rewrite He in Hp.
    - rewrite lookup_insert_ne in Hu by done. by exists ku. }
  destruct Hku as (k1 & Hk1 & Hd1 & -> & Hbp). eapply pi_on_frame; [by apply Hpi| | | |].
  - intros k2 Hk2. exists ku. split; [done|]. congruence.
  - intros m. apply holds_same_shape, same_shape_blk_rm.
  - intros m x Hm. rewrite (waits_woken T o) by done. split; [tauto|]. intros Hx. split; [done|]. intros ->.
    destruct Hx as (k' & Hk' & _ & Hb'). assert (k' = k) as -> by congruence.
    assert (m = o) as -> by congruence. by apply (Hno u).
  - intros m x Hm Hx. rewrite prio_of_insert. case_decide; [|done]. subst. unfold prio_of. by rewrite Hw.
Qed.

(** A free mutex [o] goes to its first waiter [w]. *)
Lemma hand_over T O M o b w l kw mx st :
  own_inv T O (<[o := mx <| mutex_task := None |>]> M) ->
  pi_all T O (<[o := mx <| mutex_task := None |>]> M) (waits T) ->
  bl_ok O (waits T) (prio_of T) -> O !! o = Some b -> obj_type b = RHINO_MUTEX_OBJ_TYPE ->
  blk_policy b = BLK_POLICY_PRI -> blk_list b = w :: l ->
  T !! w = Some kw -> is_pend (task_state kw) = true -> blk_obj kw = Some o ->
  mutex_task mx = Some w -> mutex_next mx = mutex_list kw ->
  let T' := <[w := (woken_task st kw) <| mutex_list := Some o |>]> T in
  own_inv T' (blk_rm w O) (<[o := mx]> M) /\ pi_all T' (blk_rm w O) (<[o := mx]> M) (waits T').
Proof.
  intros Hown Hpi Hbl Hb Hty Hpol Hl Hw Hp Hbo Hmw Hmn T'.
  set (M0 := <[o := mx <| mutex_task := None |>]> M) in *.
  assert (HM : <[o := mx]> M = <[o := mx]> M0) by (unfold M0; by rewrite insert_insert_eq).
  set (T1 := <[w := woken_task st kw]> T).
  assert (HT : T' = <[w := (woken_task st kw) <| mutex_list := Some o |>]> T1) by (unfold T1; by rewrite insert_insert_eq).
  assert (Hno : forall u, ~ holds O M0 u o).
  { intros u (b' & mx' & _ & _ & Hm' & Hu). unfold M0 in Hm'. rewrite lookup_insert_eq in Hm'. by injection Hm' as <-. }
  assert (Hww : waits T o w) by (by exists kw).
  assert (Hb1 : blk_rm w O !! o = Some (b <| blk_list := list_rm w (blk_list b) |>)).
  { by rewrite lookup_blk_rm, Hb. }
  assert (Hd : task_state (woken_task st kw) <> K_DELETED) by (cbn; by destruct (task_state kw)).
  assert (Hw1 : T1 !! w = Some (woken_task st kw)) by apply lookup_insert_eq.
  assert (Hm0 : M0 !! o = Some (mx <| mutex_task := None |>)) by apply lookup_insert_eq.
  assert (HW1 : forall m x, waits T1 m x <-> waits T m x /\ x <> w) by (intros; by eapply waits_woken).
  rewrite HM, HT. split.
  - eapply own_give; [by apply own_woken|exact Hw1|done| |exact Hb1|done|exact Hm0|done|done|done].
    rewrite HW1. tauto.
  - eapply pi_give; [by eapply pi_woken_free|exact Hw1|done|exact Hb1|done|exact Hm0|done|done|].
    intros x [Hx Hxw]%HW1. unfold T1. rewrite prio_of_insert, decide_False by done.
    pose proof (bl_sorted _ _ _ Hbl o b Hb Hpol) as Hs. rewrite Hl in Hs.
    apply (bl_mem _ _ _ Hbl o b x Hb) in Hx. rewrite Hl in Hx.
    apply elem_of_cons in Hx as [?|Hx]; [done|]. apply StronglySorted_inv in Hs as [_ Hs].
    rewrite Forall_forall in Hs. specialize (Hs x Hx). unfold prio_of in Hs at 1. by rewrite Hw in Hs.
Qed.

(** ** A task that waits for one more object *)

(** [a] counts as a waiter of [o] as well: before it waits, or after it stopped. *)
Definition virtual (s : kstate) (o : oid) (a : tid) (m : oid) (x : tid) : Prop :=
  waits (tasks s) m x \/ (m = o /\ x = a).

Lemma pi_all_now s : pi_all (tasks s) (blk_objs s) (mutexes s) (waits (tasks s)) -> pi_inv s.
Proof. intros Hpi t k Ht Hd. by apply pi_at_on, Hpi. Qed.


Lemma waits_known_owner s o u w m :
  holds (blk_objs s) (mutexes s) w o -> u <> w -> holds (blk_objs s) (mutexes s) u m -> m <> o.
Proof. intros Hw Hne Hu ->. apply Hne. by apply (holds_owner (blk_objs s) (mutexes s) u w o). Qed.

(** [mutex_task_pri_reset]: [t] stopped waiting for [o]; if that was a mutex and its owner
    may have its priority from [t], the owner gets the priority its waiters still ask for. *)
Lemma wp_pri_reset s t k o b Q :
  kinv s -> tasks s !! t = Some k -> blk_obj k = Some o -> blk_objs s !! o = Some b ->
  (obj_type b = RHINO_MUTEX_OBJ_TYPE -> exists mx w, mutexes s !! o = Some mx /\ mutex_task mx = Some w) ->
  (forall m, ~ waits (tasks s) m t) ->
  pi_all (tasks s) (blk_objs s) (mutexes s) (virtual s o t) ->
  (forall rq' T' O', same_shape (blk_objs s) O' -> reprio (fun _ _ => True) (tasks s) T' ->
     kinv (setq s rq' T' O' (g_tick_head s)) -> pi_inv (setq s rq' T' O' (g_tick_head s)) ->
     Q tt (setq s rq' T' O' (g_tick_head s))) ->
  wp (mutex_task_pri_reset t) Q s.
Proof.
  intros Hinv Ht Hbo Hb Hmut Hno Hpi HQ. pose proof Hinv as [].
  assert (Hstay : pi_all (tasks s) (blk_objs s) (mutexes s) (waits (tasks s)) -> Q tt s).
  { intros Hall. specialize (HQ (g_ready_queue s) (tasks s) (blk_objs s)). rewrite setq_id in HQ.
    apply HQ; [done|apply reprio_refl|done|by apply pi_all_now]. }
  assert (Hframe : forall u v, (forall m, holds (blk_objs s) (mutexes s) u m -> m <> o) ->
    pi_on (tasks s) (blk_objs s) (mutexes s) (virtual s o t) u v ->
    pi_on (tasks s) (blk_objs s) (mutexes s) (waits (tasks s)) u v).
  { intros u v Hm Hon. eapply pi_on_frame; [done|eauto|done| |done]. intros m x Hh. unfold virtual.
    split; [by left|]. intros [?|[-> _]]; [done|]. by destruct (Hm o Hh). }
  apply wp_bind. eapply wp_task_get; [done|]. apply wp_bind. eapply wp_deref; [done|].
  apply wp_bind. eapply wp_blk_get; [done|]. case_decide as Hty.
  2:{ apply wp_ret, Hstay. intros u ku Hu Hd. apply Hframe; [|by apply Hpi].
      intros m Hm ->. by eapply (not_mutex_not_held _ _ o b u). }
  destruct (Hmut Hty) as (mx & w & Hm & Hw). assert (Hh : holds (blk_objs s) (mutexes s) w o) by (by exists b, mx).
  destruct (inv_owner w o Hh) as (kw & Hkw & Hdw).
  apply wp_bind. eapply wp_mutex_get; [done|]. apply wp_bind. eapply wp_deref; [done|].
  apply wp_bind. eapply wp_task_get; [done|].
  assert (Hbut : pi_but (tasks s) (blk_objs s) (mutexes s) (waits (tasks s)) w).
  { intros u ku Hu Hd Hne. apply Hframe; [|by apply Hpi]. intros m. by eapply waits_known_owner. }
  case_decide as Hpr.
  - apply wp_bind. eapply (wp_mutex_pri_look s w kw); try done. intros v Hv.
    apply wp_bind. eapply wp_task_get; [done|]. case_decide as Hne.
    + apply wp_bind. eapply (wp_task_pri_change s w kw); try done.
      * by eapply owner_not_idle.
      * destruct Hv as (k' & Hk' & Hle & _ & Hex). pose proof (inv_task w kw Hkw) as [].
        assert (k' = kw) as -> by congruence. destruct Hex as [->|(m & x & _ & (kx & Hkx & _) & <-)]; [done|].
        unfold prio_of. rewrite Hkx. pose proof (inv_task x kx Hkx) as []. done.
    + apply wp_ret, Hstay. eapply pi_all_but; [done..|]. by assert (v = prio kw) as <- by lia.
  - apply wp_ret, Hstay. eapply pi_all_but; [done..|].
    destruct (Hpi w kw Hkw Hdw) as (k' & Hk' & Hle & Hall & Hex). exists k'. split; [done|]. split; [done|]. split.
    + intros m x Hhm Hx. apply (Hall m x Hhm). by left.
    + destruct Hex as [?|(m & x & Hhm & [Hx|[-> ->]] & Hp)]; [by left| |].
      * right. by exists m, x.
      * unfold prio_of in Hp. rewrite Ht in Hp. by destruct Hpr.
Qed.

(** ** The end of a wait *)

Lemma wp_seq_assoc {A} (m1 m2 : K unit) (rest : K A) Q s :
  wp ((m1;; m2);; rest) Q s -> wp (m1;; m2;; rest) Q s.
Proof. unfold wp, mbind, K_bind. by destruct (m1 s) as [[? ?]|]. Qed.


(** [k'] is [k] after its wait, or its sleep, is over. *)
Record ended (k k' : ktask_t) : Prop := {
  en_ok : task_ok k';
  en_pend : is_pend (task_state k') = false;
  en_live : task_state k' <> K_DELETED;
  en_list : mutex_list k' = mutex_list k;
  en_prio : prio k' = prio k;
  en_b_prio : b_prio k' = b_prio k;
}.

Lemma kinv_waited s t k k' rq' L' :
  kinv s -> tasks s !! t = Some k -> is_pend (task_state k) = true -> ended k k' ->
  rq_ok rq' (rdy (<[t := k']> (tasks s))) -> tick_ok L' (<[t := k']> (tasks s)) (g_tick_count s) ->
  kinv (setq s rq' (<[t := k']> (tasks s)) (blk_rm t (blk_objs s)) L').
Proof.
  intros Hinv Ht Hp [] Hrq Htk. pose proof Hinv as []. apply (kinv_setq s t k); try done.
  - eapply pend_not_idle; [done..|]. intros He. by rewrite He in Hp.
  - eapply bl_ok_woken; done.
  - intros He. by rewrite He in Hp.
  - apply same_shape_blk_rm.
  - by apply obj_ok_blk_rm.
  - intros m _. rewrite waits_insert, en_pend0. naive_solver.
Qed.

Lemma pi_waited s t k k' o rq' L' :
  pi_inv s -> tasks s !! t = Some k -> is_pend (task_state k) = true -> blk_obj k = Some o -> ended k k' ->
  let s' := setq s rq' (<[t := k']> (tasks s)) (blk_rm t (blk_objs s)) L' in
  pi_all (tasks s') (blk_objs s') (mutexes s') (virtual s' o t).
Proof.
  intros Hpi Ht Hp Hbo [] s' u ku Hu Hd.
  assert (Hku : exists k1, tasks s !! u = Some k1 /\ task_state k1 <> K_DELETED /\ prio ku = prio k1).
  { cbn in Hu. destruct (decide (u = t)) as [->|].
    - rewrite lookup_insert_eq in Hu. injection Hu as <-. exists k. split; [done|]. split; [|done].
      intros He. by rewrite He in Hp.
    - rewrite lookup_insert_ne in Hu by done. by exists ku. }
  destruct Hku as (k1 & Hk1 & Hd1 & ->). eapply pi_on_frame; [by apply pi_at_on, Hpi| | | |]; cbn.
  - intros k2 Hk2. destruct (decide (u = t)) as [->|].
    + rewrite lookup_insert_eq. exists k'. split; [done|]. congruence.
    + rewrite lookup_insert_ne by done. eauto.
  - intros m. apply holds_same_shape, same_shape_blk_rm.
  - intros m x _. unfold virtual, s'. cbn. rewrite waits_insert, en_pend0. split.
    + intros [[(_ & ? & _)|[_ ?]]|[-> ->]]; [done|done|by exists k].
    + intros Hx. destruct (decide (x = t)) as [->|]; [right|left; by right].
      destruct Hx as (k2 & Hk2 & _ & Hb2). split; [|done]. congruence.
  - intros m x _ _. rewrite prio_of_insert. case_decide; [|done]. subst. unfold prio_of. by rewrite Ht.
Qed.

(** [mutex_task_pri_reset] after the wait of [t] is over. *)
Lemma wp_waited_reset s t k k' rq' L' Q :
  kinv s -> pi_inv s -> tasks s !! t = Some k -> is_pend (task_state k) = true -> ended k k' ->
  blk_obj k' = blk_obj k ->
  rq_ok rq' (rdy (<[t := k']> (tasks s))) -> tick_ok L' (<[t := k']> (tasks s)) (g_tick_count s) ->
  (forall rq2 T2 O2, same_shape (blk_objs s) O2 -> reprio (fun _ _ => True) (<[t := k']> (tasks s)) T2 ->
     kinv (setq s rq2 T2 O2 L') -> pi_inv (setq s rq2 T2 O2 L') -> Q tt (setq s rq2 T2 O2 L')) ->
  wp (mutex_task_pri_reset t) Q (setq s rq' (<[t := k']> (tasks s)) (blk_rm t (blk_objs s)) L').
Proof.
  intros Hinv Hpi Ht Hp Hen Hbk Hrq Htk HQ. pose proof Hinv as [].
  destruct (tok_blk _ (inv_task t k Ht) Hp) as [o Hbo].
  assert (Hw : waits (tasks s) o t) by (by exists k).
  destruct (bl_obj _ _ _ inv_blk o t Hw) as [b Hb].
  eapply (wp_pri_reset _ t k' o (b <| blk_list := list_rm t (blk_list b) |>)); cbn.
  - by eapply kinv_waited.
  - apply lookup_insert_eq.
  - congruence.
  - by rewrite lookup_blk_rm, Hb.
  - intros Hty. destruct (waited_owner s t o b Hinv Hw Hb Hty) as (mx & w & _ & ? & ? & _). eauto.
  - intros m. rewrite waits_insert, (en_pend _ _ Hen). naive_solver.
  - exact (pi_waited s t k k' o rq' L' Hpi Ht Hp Hbo Hen).
  - intros rq2 T2 O2 Hsh Hre Hinv2 Hpi2. apply HQ; try done.
    eapply same_shape_trans; [apply same_shape_blk_rm|exact Hsh].
Qed.

(** ** Changes that no list sees *)

(** [k'] has the same place in every queue as [k]. *)
Record unmoved (k k' : ktask_t) : Prop := {
  um_ok : task_ok k';
  um_rdy : task_state k' = K_RDY <-> task_state k = K_RDY;
  um_pend : is_pend (task_state k') = is_pend (task_state k);
  um_live : task_state k <> K_DELETED /\ task_state k' <> K_DELETED;
  um_obj : is_pend (task_state k) = true -> blk_obj k' = blk_obj k;
  um_prio : prio k' = prio k;
  um_b_prio : b_prio k' = b_prio k;
  um_list : mutex_list k' = mutex_list k;
  um_tick : tick_head k' = tick_head k;
  um_match : tick_match k' = tick_match k;
}.

(** a change of the fields that only the callers look at *)
Lemma unmoved_fields k k' :
  task_ok k -> task_state k <> K_DELETED -> task_state k' = task_state k ->
  suspend_count k' = suspend_count k -> blk_obj k' = blk_obj k -> prio k' = prio k ->
  b_prio k' = b_prio k -> mutex_list k' = mutex_list k -> tick_head k' = tick_head k ->
  tick_match k' = tick_match k -> unmoved k k'.
Proof.
  intros [] Hd Hst Hsc Hob Hp Hb Hl Hth Htm.
  split; rewrite ?Hst, ?Hob, ?Hp, ?Hb, ?Hl, ?Hth, ?Htm; try done.
  split; rewrite ?Hst, ?Hob, ?Hp, ?Hb, ?Hl, ?Hth, ?Htm, ?Hsc; done.
Qed.

Lemma kinv_unmoved_any s t k k' :
  kinv s -> pi_inv s -> tasks s !! t = Some k -> unmoved k k' ->
  let s' := setq s (g_ready_queue s) (<[t := k']> (tasks s)) (blk_objs s) (g_tick_head s) in
  kinv s' /\ pi_inv s'.
Proof.
  intros Hinv Hpi Ht [Hok Hr Hp [Hd Hd'] Ho Hpr Hb Hl Hth Htm] s'. pose proof Hinv as []. split.
  - apply (kinv_setq_any s t k); try done.
    + intros ->. destruct inv_idle as (ki & Hi & Hri & Hpi' & Hbi & Hli). assert (ki = k) as -> by congruence.
      unfold idle_like. rewrite Hpr, Hb, Hl. by rewrite Hr.
    + by eapply rq_ok_unseen.
    + eapply bl_ok_unseen; [done..|]. auto.
    + by eapply tick_ok_upd.
    + intros m Hm. rewrite waits_insert. intros [(_ & H1 & H2)|[? _]]; [|done].
      apply (inv_self t m Hm). exists k. rewrite <- Hp, <- Ho by congruence. done.
  - eapply pi_setq; try done. intros u m _. rewrite Hp. destruct (is_pend (task_state k)); [by rewrite Ho|naive_solver].
Qed.

Lemma kinv_unmoved s t k k' :
  kinv s -> pi_inv s -> tasks s !! t = Some k -> unmoved k k' -> t <> g_idle_task s ->
  let s' := setq s (g_ready_queue s) (<[t := k']> (tasks s)) (blk_objs s) (g_tick_head s) in
  kinv s' /\ pi_inv s'.
Proof. intros ?????. by eapply kinv_unmoved_any. Qed.

(** The running task [a] blocks on an object that is no mutex, after it noted what it waits
    for. *)
Lemma wp_block_noted s o b a k k1 ticks (Q : kret -> kstate -> Prop) :
  kok s -> blk_objs s !! o = Some b -> tasks s !! a = Some k -> task_state k = K_RDY ->
  a <> g_idle_task s -> unmoved k k1 ->
  (forall l, obj_ok (sems s) (mutexes s) (events s) (queues s) (buf_queues s) o (b <| blk_list := l |>)) ->
  obj_type b <> RHINO_MUTEX_OBJ_TYPE -> 1 <= ticks <= RHINO_WAIT_FOREVER -> g_sched_lock s = 0 ->
  (forall rq' k' l L' s', blocked_task o k1 k' -> queued (prio_of (<[a := k']> (tasks s))) a b l -> kok s' ->
     switched (setq s rq' (<[a := k']> (tasks s)) (<[o := b <| blk_list := l |>]> (blk_objs s)) L') s' ->
     Q Pending s') ->
  wp (pend_to_blk_obj o a ticks;; RHINO_CRITICAL_EXIT_SCHED (irq_off s);; mret Pending) Q
    ((setq s (g_ready_queue s) (<[a := k1]> (tasks s)) (blk_objs s) (g_tick_head s)) <| irq_off := true |>).
Proof.
  intros (Hinv & Hpi & Hsch & Hcnt) Ho Hk Hr Hid Hun Hob Hty Ht Hlk HQ.
  set (s1 := setq s (g_ready_queue s) (<[a := k1]> (tasks s)) (blk_objs s) (g_tick_head s)).
  destruct (kinv_unmoved s a k k1 Hinv Hpi Hk Hun Hid) as [Hinv1 Hpi1].
  assert (Hr1 : task_state k1 = K_RDY) by (by apply Hun).
  apply wp_bind. eapply (wp_pend_to_blk_obj o a ticks k1 b); try done.
  { apply lookup_insert_eq. }
  { by eapply not_mutex_not_held. }
  intros rq' k' l L' Hk' Hl Hinv'. apply wp_bind.
  match goal with |- wp _ _ ?x => assert (x = (setq s rq' (<[a := k']> (tasks s)) (<[o := b <| blk_list := l |>]> (blk_objs s)) L')
    <| irq_off := true |>) as -> by kstate_eq end.
  cbn [tasks setq s1] in Hl, Hinv'. unfold s1 in Hl, Hinv'. cbn [tasks setq] in Hl, Hinv'. cbn in Hl, Hinv'.
  rewrite insert_insert_eq in Hl, Hinv'.
  apply wp_exit_sched; [exact Hinv'| |exact Hcnt| |].
  - assert (Hpi2 : pi_inv (setq s1 rq' (<[a := k']> (tasks s1)) (<[o := b <| blk_list := l |>]> (blk_objs s1)) L')).
    { eapply (pi_blocked s1 a k1); try done. apply lookup_insert_eq. }
    unfold s1 in Hpi2. cbn in Hpi2. rewrite insert_insert_eq in Hpi2. exact Hpi2.
  - intros _ ?. cbn in *. lia.
  - intros s' Hok' Hsw. apply wp_ret. by apply (HQ rq' k' l L').
Qed.

(** The end of a wait that was aborted or timed out: the owner's priority, then the task
    forgets what it waited for. *)
Lemma wp_reset_done s t k k' rq' L' Q :
  kinv s -> pi_inv s -> tasks s !! t = Some k -> is_pend (task_state k) = true -> ended k k' ->
  blk_obj k' = blk_obj k ->
  rq_ok rq' (rdy (<[t := k']> (tasks s))) -> tick_ok L' (<[t := k']> (tasks s)) (g_tick_count s) ->
  (forall rq2 T2 O2, same_shape (blk_objs s) O2 ->
     reprio (fun _ _ => True) (<[t := k' <| blk_obj := None |>]> (tasks s)) T2 ->
     kinv (setq s rq2 T2 O2 L') -> pi_inv (setq s rq2 T2 O2 L') -> Q tt (setq s rq2 T2 O2 L')) ->
  wp (mutex_task_pri_reset t;; task_upd t (fun k => k <| blk_obj := None |>)) Q
    (setq s rq' (<[t := k']> (tasks s)) (blk_rm t (blk_objs s)) L').
Proof.
  intros Hinv Hpi Ht Hp Hen Hbk Hrq Htk HQ. pose proof Hinv as [].
  apply wp_bind. eapply (wp_waited_reset s t k k'); try done. intros rq2 T2 O2 Hsh Hre Hinv2 Hpi2.
  destruct (reprio_lookup_l _ _ T2 t k' Hre) as (p & Hk2 & _); [apply lookup_insert_eq|].
  eapply q_task_upd; [done|]. set (k2 := k' <| prio := p |>) in *.
  assert (Hun : unmoved k2 (k2 <| blk_obj := None |>)).
  { destruct Hen as [Hok Hnp Hlv _ _ _]. pose proof (q_task _ (kinv_q _ Hinv2) t k2 Hk2) as [].
    split; try done; [|by intros; cbn in *; congruence].
    split; try done. cbn. intros Hpd. cbn in Hnp. congruence. }
  destruct (kinv_unmoved _ t k2 _ Hinv2 Hpi2 Hk2 Hun) as [Hinv3 Hpi3].
  { intros ->. eapply (pend_not_idle s (g_idle_task s) k); try done. intros He. by rewrite He in Hp. }
  apply HQ; try done. intros u. specialize (Hre u). destruct (decide (u = t)) as [->|Hne].
  - right. exists (k' <| blk_obj := None |>), p. rewrite !lookup_insert_eq. split; [done|]. split; [done|]. done.
  - rewrite lookup_insert_ne in Hre by done. by rewrite !(lookup_insert_ne _ t u).
Qed.

End own.
End Own.
