(* ===== verification/Sem.v ===== *)
(** * Semaphores ([k_sem.c]) *)
From S2P Require Import Prelude Config Kernel Sched TickList Pend Inv Demo.
Import Sched TickList Pend.

Module Sem.
Section sem.
Context {cfg : RhinoConfig}.

(** the range of [sem_count_t], a [uint32_t] *)
Definition SEM_COUNT_MAX : Z := 2 ^ 32 - 1.
Definition WAKE_ONE_SEM : Z := 0.
Definition WAKE_ALL_SEM : Z := 1.

Definition sem_create (sem : option oid) (name : option addr) (count mm_alloc_flag : Z)
  : K kstat_t :=
  match sem, name with
  | Some o, Some _ =>
      modify (fun s => s
        <| blk_objs ::= fun m => <[o := mk_blk_obj [] BLK_POLICY_PRI
             (from_option obj_type RHINO_OBJ_TYPE_NONE (m !! o)) None]> m |>
        <| sems ::= <[o := mk_ksem count count mm_alloc_flag]> |>);;
      cpsr ← RHINO_CRITICAL_ENTER;
      modify (fun s => s <| g_kobj_list ::= fun l => l <| sem_list_head ::= fun q => q ++ [o] |> |>);;
      RHINO_CRITICAL_EXIT cpsr;;
      blk_upd o (fun b => b <| obj_type := RHINO_SEM_OBJ_TYPE |>);;
      mret RHINO_SUCCESS
  | _, _ => mret RHINO_NULL_PTR
  end.

Definition krhino_sem_create (sem : option oid) (name : option addr) (count : Z) : K kstat_t :=
  sem_create sem name count K_OBJ_STATIC_ALLOC.

(** the two deletions differ in the allocation flag they require and in freeing *)
Definition sem_del_body (o : oid) (flag : Z) : K (option kstat_t) :=
  cpsr ← RHINO_CRITICAL_ENTER;
  INTRPT_NESTED_LEVEL_CHK cpsr Some (
  b ← blk_get o;
  if decide (obj_type b <> RHINO_SEM_OBJ_TYPE) then Some <$> exit_ret cpsr RHINO_KOBJ_TYPE_ERR else
  sm ← sem_get o;
  if decide (sem_mm_alloc_flag sm <> flag) then Some <$> exit_ret cpsr RHINO_KOBJ_DEL_ERR else
  blk_upd o (fun b => b <| obj_type := RHINO_OBJ_TYPE_NONE |>);;
  drain_blk_list o pend_task_rm;;
  modify (fun s => s <| g_kobj_list ::= fun l => l <| sem_list_head ::= list_rm o |> |>);;
  RHINO_CRITICAL_EXIT_SCHED cpsr;;
  mret None).

Definition krhino_sem_del (sem : option oid) : K kstat_t :=
  match sem with
  | None => mret RHINO_NULL_PTR
  | Some o =>
      r ← sem_del_body o K_OBJ_STATIC_ALLOC;
      mret (default RHINO_SUCCESS r)
  end.

(** [alloc] is the block [krhino_mm_alloc] returned; the result goes to [\*sem]. *)
Definition krhino_sem_dyn_create (sem : option addr) (name : option addr) (count : Z)
    (alloc : option oid) : K kstat_t :=
  match sem with
  | None => mret RHINO_NULL_PTR
  | Some p =>
      match alloc with
      | None => mret RHINO_NO_MEM
      | Some sem_obj =>
          stat ← sem_create (Some sem_obj) name count K_OBJ_DYN_ALLOC;
          if decide (stat <> RHINO_SUCCESS) then krhino_mm_free sem_obj;; mret stat
          else store p (Zpos sem_obj);; mret stat
      end
  end.

Definition krhino_sem_dyn_del (sem : option oid) : K kstat_t :=
  match sem with
  | None => mret RHINO_NULL_PTR
  | Some o =>
      r ← sem_del_body o K_OBJ_DYN_ALLOC;
      match r with
      | Some stat => mret stat
      | None => krhino_mm_free o;; mret RHINO_SUCCESS
      end
  end.

(** [notify] is [handle->notify] of the object's set. *)
Definition sem_give (notify : oid -> sid -> K unit) (o : oid) (opt_wake_all : Z) : K kstat_t :=
  cpsr ← RHINO_CRITICAL_ENTER;
  b ← blk_get o;
  if decide (obj_type b <> RHINO_SEM_OBJ_TYPE) then exit_ret cpsr RHINO_KOBJ_TYPE_ERR else
  match blk_list b with
  | [] =>
      sm ← sem_get o;
      if decide (count sm = SEM_COUNT_MAX) then exit_ret cpsr RHINO_SEM_OVF else
      sem_upd o (fun sm => sm <| count ::= fun n => n + 1 |>);;
      sm ← sem_get o;
      when (bool_decide (peak_count sm < count sm))
        (sem_upd o (fun sm => sm <| peak_count := count sm |>));;
      RHINO_CRITICAL_EXIT cpsr;;
      b ← blk_get o;
      match handle b with Some h => notify o h | None => mret tt end;;
      mret RHINO_SUCCESS
  | first :: _ =>
      (if decide (opt_wake_all <> 0) then drain_blk_list o pend_task_wakeup
       else pend_task_wakeup first);;
      sched_ret cpsr RHINO_SUCCESS
  end.

Definition krhino_sem_give (notify : oid -> sid -> K unit) (sem : option oid) : K kstat_t :=
  match sem with None => mret RHINO_NULL_PTR | Some o => sem_give notify o WAKE_ONE_SEM end.

Definition krhino_sem_give_all (notify : oid -> sid -> K unit) (sem : option oid) : K kstat_t :=
  match sem with None => mret RHINO_NULL_PTR | Some o => sem_give notify o WAKE_ALL_SEM end.

(** up to the context switch; the task resumes with [pend_resume] *)
Definition krhino_sem_take (sem : option oid) (ticks : Z) : K kret :=
  match sem with
  | None => mret (Ret RHINO_NULL_PTR)
  | Some o =>
      cpsr ← RHINO_CRITICAL_ENTER;
      INTRPT_NESTED_LEVEL_CHK cpsr Ret (
      b ← blk_get o;
      if decide (obj_type b <> RHINO_SEM_OBJ_TYPE) then Ret <$> exit_ret cpsr RHINO_KOBJ_TYPE_ERR else
      sm ← sem_get o;
      if decide (0 < count sm) then
        sem_upd o (fun sm => sm <| count ::= fun n => n - 1 |>);;
        Ret <$> exit_ret cpsr RHINO_SUCCESS
      else
      if decide (ticks = RHINO_NO_WAIT) then Ret <$> exit_ret cpsr RHINO_NO_PEND_WAIT else
      lock ← gets g_sched_lock;
      if decide (0 < lock) then Ret <$> exit_ret cpsr RHINO_SCHED_DISABLE else
      a ← active;
      pend_to_blk_obj o a ticks;;
      RHINO_CRITICAL_EXIT_SCHED cpsr;;
      mret Pending)
  end.

Definition krhino_sem_count_set (sem : option oid) (sem_count : Z) : K kstat_t :=
  match sem with
  | None => mret RHINO_NULL_PTR
  | Some o =>
      cpsr ← RHINO_CRITICAL_ENTER;
      INTRPT_NESTED_LEVEL_CHK cpsr id (
      b ← blk_get o;
      if decide (obj_type b <> RHINO_SEM_OBJ_TYPE) then exit_ret cpsr RHINO_KOBJ_TYPE_ERR else
      sm ← sem_get o;
      if decide (~ 0 < count sm /\ blk_list b <> []) then exit_ret cpsr RHINO_SEM_TASK_WAITING else
      sem_upd o (fun sm => sm <| count := sem_count |>);;
      sm ← sem_get o;
      when (bool_decide (peak_count sm < count sm))
        (sem_upd o (fun sm => sm <| peak_count := count sm |>));;
      exit_ret cpsr RHINO_SUCCESS)
  end.

Definition krhino_sem_count_get (sem : option oid) (p : option addr) : K kstat_t :=
  match sem, p with
  | Some o, Some p => sm ← sem_get o; store p (count sm);; mret RHINO_SUCCESS
  | _, _ => mret RHINO_NULL_PTR
  end.

Definition krhino_sem_is_valid (sem : option oid) : K kstat_t :=
  match sem with
  | None => mret RHINO_NULL_PTR
  | Some o =>
      b ← blk_get o;
      mret (if decide (obj_type b <> RHINO_SEM_OBJ_TYPE) then RHINO_KOBJ_TYPE_ERR else RHINO_SUCCESS)
  end.

(** ** Taking *)

(** The branches of [krhino_sem_take]: what it reports and the state it leaves. *)
Inductive sem_take_spec (s : kstate) (o : oid) (ticks : Z) : kret -> kstate -> Prop :=
| take_intrpt :
    0 < g_intrpt_nested_level s -> sem_take_spec s o ticks (Ret RHINO_NOT_CALLED_BY_INTRPT) s
| take_type b :
    g_intrpt_nested_level s = 0 -> blk_objs s !! o = Some b -> obj_type b <> RHINO_SEM_OBJ_TYPE ->
    sem_take_spec s o ticks (Ret RHINO_KOBJ_TYPE_ERR) s
| take_count b sm :
    g_intrpt_nested_level s = 0 -> blk_objs s !! o = Some b -> obj_type b = RHINO_SEM_OBJ_TYPE ->
    sems s !! o = Some sm -> 0 < count sm ->
    sem_take_spec s o ticks (Ret RHINO_SUCCESS)
      (s <| sems ::= <[o := sm <| count := count sm - 1 |>]> |>)
| take_no_wait b sm :
    g_intrpt_nested_level s = 0 -> blk_objs s !! o = Some b -> obj_type b = RHINO_SEM_OBJ_TYPE ->
    sems s !! o = Some sm -> count sm = 0 -> ticks = RHINO_NO_WAIT ->
    sem_take_spec s o ticks (Ret RHINO_NO_PEND_WAIT) s
| take_locked b sm :
    g_intrpt_nested_level s = 0 -> blk_objs s !! o = Some b -> obj_type b = RHINO_SEM_OBJ_TYPE ->
    sems s !! o = Some sm -> count sm = 0 -> ticks <> RHINO_NO_WAIT -> 0 < g_sched_lock s ->
    sem_take_spec s o ticks (Ret RHINO_SCHED_DISABLE) s
| take_block b sm a k k' l rq' L' s' :
    g_intrpt_nested_level s = 0 -> blk_objs s !! o = Some b -> obj_type b = RHINO_SEM_OBJ_TYPE ->
    sems s !! o = Some sm -> count sm = 0 -> ticks <> RHINO_NO_WAIT -> g_sched_lock s = 0 ->
    g_active_task s = Some a -> tasks s !! a = Some k -> blocked_task o k k' ->
    queued (prio_of (<[a := k']> (tasks s))) a b l ->
    switched (setq s rq' (<[a := k']> (tasks s)) (<[o := b <| blk_list := l |>]> (blk_objs s)) L') s' ->
    sem_take_spec s o ticks Pending s'.

Lemma wp_sem_take (s : kstate) (o : oid) (b : blk_obj_t) (ticks : Z)
    (Hok : kok s) (Ho : blk_objs s !! o = Some b) (Ht : 0 <= ticks <= RHINO_WAIT_FOREVER)
    (Hidle : g_active_task s <> Some (g_idle_task s)) :
  wp (krhino_sem_take (Some o) ticks) (fun r s' => kok s' /\ sem_take_spec s o ticks r s') s.
Proof.
  pose proof Hok as (Hinv & Hpi & Hsch & Hcnt). pose proof Hcnt as [Hc1 Hc2].
  unfold krhino_sem_take. apply wp_bind, wp_critical_enter.
  apply wp_nested_chk; [rewrite irq_restore; split; [done|by apply take_intrpt]|].
  intros Hn. cbn in Hn. apply wp_bind. eapply wp_blk_get; [done|].
  case_decide as Hty; [apply wp_fmap, wp_exit_ret; rewrite irq_restore; split; [done|]; eapply take_type; try done; lia|].
  destruct (obj_sem s o b Hinv Ho Hty) as (sm & Hsm & Hcount & Hemp).
  apply wp_bind. eapply wp_sem_get; [done|]. case_decide as Hpos.
  - apply wp_bind. eapply wp_sem_upd; [done|]. apply wp_fmap, wp_exit_ret.
    match goal with |- kok ?x /\ _ => assert (x = s <| sems ::= <[o := sm <| count := count sm - 1 |>]> |>) as -> by done end.
    split; [|eapply take_count; try done; lia]. apply kok_intro; try done.
    apply kinv_sem_upd; [done|]. intros b' Hb' _. assert (b' = b) as -> by congruence. cbn.
    split; [lia|]. intros Hne. specialize (Hemp Hne). lia.
  - assert (Hz : count sm = 0) by lia.
    case_decide as Hnw; [apply wp_fmap, wp_exit_ret; rewrite irq_restore; split; [done|]; eapply take_no_wait; try done; lia|].
    apply wp_bind, wp_gets.
    cbn [g_sched_lock]. case_decide as Hlk; cbn in Hlk; [apply wp_fmap, wp_exit_ret; rewrite irq_restore; split; [done|]; eapply take_locked; try done; lia|].
    destruct (active_ready s Hok Hn) as (a & k & Ha & Hk & Hr).
    apply wp_bind. eapply wp_active; [done|]. apply wp_bind.
    eapply (wp_pend_to_blk_obj o a ticks k b); try done.
    { intros ->. done. }
    { intros l. unfold obj_ok. cbn. rewrite Hty. by exists sm. }
    { eapply not_mutex_not_held; [done|]. by rewrite Hty. }
    { unfold RHINO_NO_WAIT in Hnw. lia. }
    intros rq' k' l L' Hk' Hl Hinv'. apply wp_bind. apply wp_exit_sched; try done.
    + eapply (pi_blocked (s <| irq_off := true |>)); try done. by rewrite Hty.
    + intros _ ?. cbn in *. lia.
    + intros s' Hok' Hsw. apply wp_ret. split; [done|].
      eapply take_block; try done; cbn in *; lia.
Qed.

(** C8: taking a semaphore: total and without undefined behaviour; it takes a unit exactly
    when there is one and otherwise, as the caller asked, returns at once or blocks the
    running task behind the waiters of no lower priority; every kernel invariant is kept, so
    in particular the task that runs afterwards is the first of the highest priority. *)
Theorem krhino_sem_take_correct (s : kstate) (o : oid) (b : blk_obj_t) (ticks : Z)
    (Hok : kok s) (Ho : blk_objs s !! o = Some b) (Ht : 0 <= ticks <= RHINO_WAIT_FOREVER)
    (Hidle : g_active_task s <> Some (g_idle_task s)) :
  wp (krhino_sem_take (Some o) ticks) (fun r s' => kok s' /\ sem_take_spec s o ticks r s') s.
Proof. by eapply wp_sem_take. Qed.

(** ** Giving *)

(** The branches of [krhino_sem_give] ([all] false) and [krhino_sem_give_all]. *)
Inductive sem_give_spec (notify : oid -> sid -> K unit) (s : kstate) (o : oid) (all : bool)
  : kstat_t -> kstate -> Prop :=
| give_type b :
    blk_objs s !! o = Some b -> obj_type b <> RHINO_SEM_OBJ_TYPE ->
    sem_give_spec notify s o all RHINO_KOBJ_TYPE_ERR s
| give_overflow b sm :
    blk_objs s !! o = Some b -> obj_type b = RHINO_SEM_OBJ_TYPE -> blk_list b = [] ->
    sems s !! o = Some sm -> count sm = SEM_COUNT_MAX ->
    sem_give_spec notify s o all RHINO_SEM_OVF s
| give_count b sm s' :
    blk_objs s !! o = Some b -> obj_type b = RHINO_SEM_OBJ_TYPE -> blk_list b = [] ->
    sems s !! o = Some sm -> count sm < SEM_COUNT_MAX ->
    notified notify o b (s <| sems ::= <[o := sm <| count := count sm + 1 |>
      <| peak_count := Z.max (peak_count sm) (count sm + 1) |>]> |>) = Some (tt, s') ->
    sem_give_spec notify s o all RHINO_SUCCESS s'
| give_wake b t l k rq' L' s' :
    blk_objs s !! o = Some b -> obj_type b = RHINO_SEM_OBJ_TYPE -> blk_list b = t :: l ->
    all = false -> tasks s !! t = Some k ->
    switched (setq s rq' (<[t := woken_task BLK_FINISH k]> (tasks s))
                (<[o := b <| blk_list := l |>]> (blk_objs s)) L') s' ->
    sem_give_spec notify s o all RHINO_SUCCESS s'
| give_wake_all b rq' L' s' :
    blk_objs s !! o = Some b -> obj_type b = RHINO_SEM_OBJ_TYPE -> blk_list b <> [] ->
    all = true ->
    switched (setq s rq' (wake_if o BLK_FINISH <$> tasks s)
                (<[o := b <| blk_list := [] |>]> (blk_objs s)) L') s' ->
    sem_give_spec notify s o all RHINO_SUCCESS s'.

(** the states the set of a semaphore is notified in *)
Definition sem_given (s : kstate) (o : oid) (s0 : kstate) : Prop :=
  exists sm, s0 = s <| sems ::= <[o := sm]> |>.

Lemma wp_sem_give notify s o b all :
  kok s -> blk_objs s !! o = Some b ->
  notify_ok notify o b (sem_given s o) ->
  wp (sem_give notify o all) (fun r s' => kok s' /\
    sem_give_spec notify s o (bool_decide (all <> 0)) r s') s.
Proof.
  intros Hok Ho Hnot. pose proof Hok as (Hinv & Hpi & Hsch & Hcnt).
  unfold sem_give. apply wp_bind, wp_critical_enter. apply wp_bind. eapply wp_blk_get; [done|].
  case_decide as Hty; [apply wp_exit_ret; rewrite irq_restore; split; [done|by eapply give_type]|].
  destruct (obj_sem s o b Hinv Ho Hty) as (sm & Hsm & Hcount & Hemp).
  assert (Hlr : locked_ready s) by by apply kok_locked_ready.
  destruct (blk_list b) as [|t l] eqn:Hl.
  - apply wp_bind. eapply wp_sem_get; [done|].
    case_decide as Hov; [apply wp_exit_ret; rewrite irq_restore; split; [done|by eapply give_overflow]|].
    apply wp_bind. eapply wp_sem_upd; [done|]. apply wp_bind.
    eapply wp_sem_get; [apply lookup_insert_eq|].
    set (s1 := s <| sems ::= <[o := sm <| count := count sm + 1 |>
      <| peak_count := Z.max (peak_count sm) (count sm + 1) |>]> |>).
    assert (Hmax : count sm < SEM_COUNT_MAX) by (unfold SEM_COUNT_MAX in *; lia).
    assert (Hok1 : kok s1).
    { apply kok_sem_upd; [done|]. intros b' Hb' _. assert (b' = b) as -> by congruence. cbn.
      unfold SEM_COUNT_MAX in *. split; [lia|]. by rewrite Hl. }
    assert (Hfin : wp (b ← blk_get o; match handle b with Some h => notify o h | None => mret tt end;;
        mret RHINO_SUCCESS)
      (fun r s' => kok s' /\ sem_give_spec notify s o (bool_decide (all <> 0)) r s') s1).
    { apply wp_bind. eapply wp_blk_get; [done|]. apply wp_bind.
      destruct (notified_total notify o b _ s1 Hnot (ex_intro _ _ eq_refl) Hok1) as (s2 & Hn2 & Hok2).
      eapply (wp_intro _ _ _ tt s2); [exact Hn2|]. apply wp_ret. split; [done|]. by eapply give_count. }
    apply wp_bind. apply wp_when; intros Hpk; cbn in Hpk.
    + eapply wp_sem_upd; [apply lookup_insert_eq|]. apply wp_bind, wp_modify.
      match goal with |- wp _ _ ?x => assert (x = s1) as -> end; [|exact Hfin].
      unfold s1. apply kstate_ext; cbn; try reflexivity. rewrite insert_insert_eq. f_equal.
      unfold upd; cbn. f_equal. lia.
    + apply wp_bind, wp_modify.
      match goal with |- wp _ _ ?x => assert (x = s1) as -> end; [|exact Hfin].
      unfold s1. apply kstate_ext; cbn; try reflexivity. f_equal.
      destruct sm; unfold upd; cbn in *. f_equal. lia.
  - apply wp_bind. destruct (decide (all <> 0)) as [Hall|Hall].
    + eapply (wp_drain_blk_list BLK_FINISH); [apply wakes_wakeup|done..|by rewrite Hty|].
      intros rq' L' s1 (Hinv1 & Hpi1 & Hlr1). apply wp_sched_ret; try done.
      intros s' Hok' Hsw. split; [done|]. rewrite bool_decide_true by done.
      eapply give_wake_all; try done. by rewrite Hl.
    + eapply (wp_wake_first BLK_FINISH); [apply wakes_wakeup|done..|by rewrite Hty|done|].
      intros k rq' L' Hk Hp Hb s1 (Hinv1 & Hpi1 & Hlr1). apply wp_sched_ret; try done.
      intros s' Hok' Hsw. split; [done|]. rewrite bool_decide_false by naive_solver.
      by eapply give_wake.
Qed.

(** C9: giving a semaphore: it counts up (to the largest count, never past it) when no task
    waits, and otherwise hands the unit to the first waiter, which has the highest priority,
    or wakes all of them; every kernel invariant is kept and the scheduler runs. *)
Theorem krhino_sem_give_correct (notify : oid -> sid -> K unit) (s : kstate) (o : oid)
    (b : blk_obj_t) (Hok : kok s) (Ho : blk_objs s !! o = Some b)
    (Hnotify : notify_ok notify o b (sem_given s o)) :
  wp (krhino_sem_give notify (Some o)) (fun r s' => kok s' /\ sem_give_spec notify s o false r s') s /\
  wp (krhino_sem_give_all notify (Some o)) (fun r s' => kok s' /\ sem_give_spec notify s o true r s') s.
Proof.
  split; eapply wp_mono; [by apply (wp_sem_give notify s o b WAKE_ONE_SEM)| |
                          by apply (wp_sem_give notify s o b WAKE_ALL_SEM)|]; done.
Qed.

(** ** Creating, deleting and setting *)

Lemma kok_sems_unused s o SM' :
  kok s -> unused_obj s o -> (forall o', o' <> o -> SM' !! o' = sems s !! o') ->
  kok (s <| sems := SM' |>).
Proof.
  intros (Hinv & ? & ? & ?) Hun HSM. apply kok_intro; try done. eapply kinv_objs; [exact Hinv|].
  intros o' b Hb. pose proof (inv_obj _ _ _ _ _ _ _ _ _ _ _ _ Hinv o' b Hb) as Hob.
  unfold obj_ok in *. destruct (obj_type b) eqn:Hty; try done.
  rewrite HSM; [done|]. intros ->. destruct (Hun b Hb) as [He _]. congruence.
Qed.

(** Creating a semaphore at an unused address makes a semaphore with that count and no
    waiters, registers it, and disturbs nothing. *)
Theorem krhino_sem_create_correct (s : kstate) (o : oid) (name : addr) (n : Z)
    (Hok : kok s) (Hun : unused_obj s o) (Hn : 0 <= n <= SEM_COUNT_MAX) :
  wp (krhino_sem_create (Some o) (Some name) n) (fun r s' => kok s' /\ r = RHINO_SUCCESS /\
    blk_objs s' = <[o := mk_blk_obj [] BLK_POLICY_PRI RHINO_SEM_OBJ_TYPE None]> (blk_objs s) /\
    sems s' = <[o := mk_ksem n n K_OBJ_STATIC_ALLOC]> (sems s) /\
    sem_list_head (g_kobj_list s') = sem_list_head (g_kobj_list s) ++ [o] /\
    tasks s' = tasks s /\ g_ready_queue s' = g_ready_queue s /\ irq_off s' = irq_off s) s.
Proof.
  unfold krhino_sem_create, sem_create. apply wp_bind, wp_modify.
  apply wp_bind, wp_critical_enter, wp_bind, wp_modify, wp_bind, wp_modify, wp_bind.
  eapply wp_blk_upd; [cbn; apply lookup_insert_eq|]. apply wp_ret.
  set (s1 := s <| sems := <[o := mk_ksem n n K_OBJ_STATIC_ALLOC]> (sems s) |>
    <| g_kobj_list ::= fun l => l <| sem_list_head ::= fun q => q ++ [o] |> |>).
  match goal with |- kok ?x /\ _ => replace x with
    (s1 <| blk_objs ::= <[o := mk_blk_obj [] BLK_POLICY_PRI RHINO_SEM_OBJ_TYPE None]> |>) end.
  2:{ unfold s1. kstate_eq. }
  split; [|done]. apply kok_new_obj; try done.
  - apply (kok_sems_unused s o (<[o := mk_ksem n n K_OBJ_STATIC_ALLOC]> (sems s))); [done|done|].
    intros o' Ho'. by rewrite lookup_insert_ne.
  - unfold obj_ok. cbn. rewrite lookup_insert_eq. eexists. split; [done|]. cbn.
    unfold SEM_COUNT_MAX in Hn. split; [lia|done].
Qed.

(** The branches of a deletion that requires the allocation flag [flag]. *)
Inductive sem_del_spec (s : kstate) (o : oid) (flag : Z) : kstat_t -> kstate -> Prop :=
| del_intrpt :
    0 < g_intrpt_nested_level s -> sem_del_spec s o flag RHINO_NOT_CALLED_BY_INTRPT s
| del_type b :
    g_intrpt_nested_level s = 0 -> blk_objs s !! o = Some b -> obj_type b <> RHINO_SEM_OBJ_TYPE ->
    sem_del_spec s o flag RHINO_KOBJ_TYPE_ERR s
| del_flag b sm :
    g_intrpt_nested_level s = 0 -> blk_objs s !! o = Some b -> obj_type b = RHINO_SEM_OBJ_TYPE ->
    sems s !! o = Some sm -> sem_mm_alloc_flag sm <> flag ->
    sem_del_spec s o flag RHINO_KOBJ_DEL_ERR s
| del_done b sm rq' L' s' :
    g_intrpt_nested_level s = 0 -> blk_objs s !! o = Some b -> obj_type b = RHINO_SEM_OBJ_TYPE ->
    sems s !! o = Some sm -> sem_mm_alloc_flag sm = flag ->
    switched ((setq s rq' (wake_if o BLK_DEL <$> tasks s)
      (<[o := b <| obj_type := RHINO_OBJ_TYPE_NONE |> <| blk_list := [] |>]> (blk_objs s)) L')
      <| g_kobj_list ::= fun l => l <| sem_list_head ::= list_rm o |> |>) s' ->
    sem_del_spec s o flag RHINO_SUCCESS s'.

Lemma wp_sem_del_body s o b flag :
  kok s -> blk_objs s !! o = Some b ->
  wp (sem_del_body o flag) (fun r s' => kok s' /\
    sem_del_spec s o flag (default RHINO_SUCCESS r) s' /\ (r = None <-> exists sm,
      g_intrpt_nested_level s = 0 /\ obj_type b = RHINO_SEM_OBJ_TYPE /\
      sems s !! o = Some sm /\ sem_mm_alloc_flag sm = flag)) s.
Proof.
  intros Hok Ho. pose proof Hok as (Hinv & Hpi & Hsch & Hcnt). pose proof Hcnt as [_ Hc2].
  unfold sem_del_body. apply wp_bind, wp_critical_enter.
  apply wp_nested_chk; [rewrite irq_restore; intros Hn; cbn in Hn; split; [done|]|].
  { split; [by apply del_intrpt|]. split; [done|]. intros (sm & ? & _). lia. }
  intros Hn. cbn in Hn. apply wp_bind. eapply wp_blk_get; [done|].
  case_decide as Hty; [apply wp_fmap, wp_exit_ret; rewrite irq_restore; split; [done|]|].
  { split; [by eapply del_type; [lia|..]|]. split; [done|]. intros (sm & _ & ? & _). done. }
  destruct (obj_sem s o b Hinv Ho Hty) as (sm & Hsm & _).
  apply wp_bind. eapply wp_sem_get; [done|].
  case_decide as Hfl; [apply wp_fmap, wp_exit_ret; rewrite irq_restore; split; [done|]|].
  { split; [by eapply del_flag; [lia|..]|]. split; [done|]. intros (sm' & _ & _ & ? & ?). congruence. }
  apply (wp_untype_drain _ o b); try done; [by apply kok_locked_ready|by rewrite Hty|].
  intros rq' L' s1 (Hinv1 & Hpi1 & Hlr1). apply wp_bind, wp_modify, wp_bind.
  apply wp_exit_sched; try done. intros s' Hok' Hsw. apply wp_ret. split; [done|].
  split; [|split; [intros _; exists sm; repeat split; try done; lia|done]].
  eapply (del_done _ _ _ _ _ rq' L'); try done; lia.
Qed.

(** Deleting a semaphore: only outside interrupts, only a semaphore, and only with the
    call that matches its allocation; then all its waiters are woken with the reason
    "deleted", the address is no semaphore any more, and the dynamic call frees it. *)
Theorem krhino_sem_del_correct (s : kstate) (o : oid) (b : blk_obj_t)
    (Hok : kok s) (Ho : blk_objs s !! o = Some b) :
  wp (krhino_sem_del (Some o)) (fun r s' => kok s' /\ sem_del_spec s o K_OBJ_STATIC_ALLOC r s') s /\
  wp (krhino_sem_dyn_del (Some o)) (fun r s' => kok s' /\
    if decide (r = RHINO_SUCCESS)
    then exists s1, sem_del_spec s o K_OBJ_DYN_ALLOC r s1 /\ s' = s1 <| heap_free ::= cons o |>
    else sem_del_spec s o K_OBJ_DYN_ALLOC r s') s.
Proof.
  split.
  - apply wp_bind. eapply wp_mono; [by apply (wp_sem_del_body s o b)|]. cbv beta.
    intros r s' (Hk & Hs & _). by apply wp_ret.
  - apply wp_bind. eapply wp_mono; [by apply (wp_sem_del_body s o b)|]. cbv beta.
    intros [r|] s' (Hk & Hs & Hr).
    + apply wp_ret. split; [done|]. rewrite decide_False; [done|]. intros ->. inversion Hs; subst.
      destruct Hr as [_ Hr]. discriminate Hr. assert (b0 = b) as -> by congruence. by eexists.
    + apply wp_bind, wp_modify, wp_ret. split; [done|]. rewrite decide_True by done. by exists s'.
Qed.

(** Setting the count is refused exactly while tasks wait, and never leaves waiters
    behind a positive count. *)
Theorem krhino_sem_count_set_correct (s : kstate) (o : oid) (b : blk_obj_t) (sm : ksem_t) (n : Z)
    (Hok : kok s) (Ho : blk_objs s !! o = Some b) (Hty : obj_type b = RHINO_SEM_OBJ_TYPE)
    (Hsm : sems s !! o = Some sm) (Hn : 0 <= n <= SEM_COUNT_MAX) :
  wp (krhino_sem_count_set (Some o) n) (fun r s' => kok s' /\
    if decide (0 < g_intrpt_nested_level s) then r = RHINO_NOT_CALLED_BY_INTRPT /\ s' = s
    else if decide (blk_list b <> []) then r = RHINO_SEM_TASK_WAITING /\ s' = s
    else r = RHINO_SUCCESS /\ s' = s <| sems ::= <[o := sm <| count := n |>
           <| peak_count := Z.max (peak_count sm) n |>]> |>) s.
Proof.
  pose proof Hok as (Hinv & _). destruct (obj_sem s o b Hinv Ho Hty) as (sm' & Hsm' & Hcount & Hemp).
  assert (sm' = sm) as -> by congruence.
  unfold krhino_sem_count_set. apply wp_bind, wp_critical_enter.
  apply wp_nested_chk; [rewrite irq_restore; intros Hi; cbn in Hi; by rewrite decide_True|].
  intros Hi. cbn in Hi. destruct (decide (0 < g_intrpt_nested_level s)) as [Hi'|_]; [lia|].
  apply wp_bind. eapply wp_blk_get; [done|].
  case_decide as Hty'; [done|]. clear Hty'.
  apply wp_bind. eapply wp_sem_get; [done|]. destruct (decide (blk_list b <> [])) as [Hl|Hl].
  - rewrite decide_True by (rewrite Hemp by done; split; [lia|done]).
    apply wp_exit_ret. by rewrite irq_restore.
  - rewrite decide_False by tauto. apply wp_bind. eapply wp_sem_upd; [done|].
    apply wp_bind. eapply wp_sem_get; [cbn; apply lookup_insert_eq|]. apply wp_bind.
    set (s1 := s <| sems ::= <[o := sm <| count := n |> <| peak_count := Z.max (peak_count sm) n |>]> |>).
    assert (Hok1 : kok s1).
    { apply kok_sem_upd; [done|]. intros b' Hb' _. assert (b' = b) as -> by congruence. cbn.
      unfold SEM_COUNT_MAX in *. split; [lia|tauto]. }
    apply wp_when; intros Hpk; cbn in Hpk.
    + eapply wp_sem_upd; [cbn; apply lookup_insert_eq|]. apply wp_exit_ret.
      match goal with |- kok ?x /\ _ => replace x with s1; [done|] end.
      unfold s1. apply kstate_ext; cbn; try reflexivity. rewrite insert_insert_eq.
      f_equal. unfold upd; cbn. f_equal. lia.
    + apply wp_exit_ret. match goal with |- kok ?x /\ _ => replace x with s1; [done|] end.
      unfold s1. apply kstate_ext; cbn; try reflexivity.
      f_equal. destruct sm; unfold upd; cbn in *. f_equal. lia.
Qed.

End sem.

(** ** Witnesses *)

#[local] Existing Instance linuxhost.

Lemma krhino_sem_take_correct_witness :
  wp (krhino_sem_take (Some 20%positive) 5)
    (fun r s' => kok s' /\ sem_take_spec demo 20%positive 5 r s') demo.
Proof.
  apply (krhino_sem_take_correct demo 20%positive (demo_obj RHINO_SEM_OBJ_TYPE [4%positive]) 5 demo_ok);
    [reflexivity|vm_compute; split; discriminate|discriminate].
Defined.

Lemma krhino_sem_give_correct_witness :
  wp (krhino_sem_give (fun _ _ => mret tt) (Some 20%positive))
    (fun r s' => kok s' /\ sem_give_spec (fun _ _ => mret tt) demo 20%positive false r s') demo /\
  wp (krhino_sem_give_all (fun _ _ => mret tt) (Some 20%positive))
    (fun r s' => kok s' /\ sem_give_spec (fun _ _ => mret tt) demo 20%positive true r s') demo.
Proof.
  apply (krhino_sem_give_correct (fun _ _ => mret tt) demo 20%positive (demo_obj RHINO_SEM_OBJ_TYPE [4%positive]) demo_ok);
    [reflexivity|]. intros h s0 Hh. discriminate Hh.
Defined.

End Sem.
