(* ===== verification/Mutex.v ===== *)
(** * Mutexes ([k_mutex.c]) *)
From S2P Require Import Prelude Config Kernel Sched TickList Pend Inv Demo Prio Own.
Import Sched TickList Pend Prio Own.

Module Mutex.
Section mutex.
Context {cfg : RhinoConfig}.

(** the range of [mutex_nested_t], a [uint32_t] *)
Definition MUTEX_NESTED_MAX : Z := 2 ^ 32 - 1.

Definition mutex_create (mutex : option oid) (name : option addr) (mm_alloc_flag : Z) : K kstat_t :=
  match mutex, name with
  | Some o, Some _ =>
      modify (fun s => s
        <| blk_objs ::= fun m => <[o := mk_blk_obj [] BLK_POLICY_PRI
             (from_option obj_type RHINO_OBJ_TYPE_NONE (m !! o)) None]> m |>
        <| mutexes ::= fun m => <[o := mk_kmutex None None
             (from_option owner_nested 0 (m !! o)) mm_alloc_flag]> m |>);;
      cpsr ← RHINO_CRITICAL_ENTER;
      modify (fun s => s <| g_kobj_list ::= fun l => l <| mutex_list_head ::= fun q => q ++ [o] |> |>);;
      RHINO_CRITICAL_EXIT cpsr;;
      blk_upd o (fun b => b <| obj_type := RHINO_MUTEX_OBJ_TYPE |>);;
      mret RHINO_SUCCESS
  | _, _ => mret RHINO_NULL_PTR
  end.

Definition krhino_mutex_create (mutex : option oid) (name : option addr) : K kstat_t :=
  mutex_create mutex name K_OBJ_STATIC_ALLOC.

(** the two deletions differ in the allocation flag they require and in freeing *)
Definition mutex_del_body (o : oid) (flag : Z) : K (option kstat_t) :=
  cpsr ← RHINO_CRITICAL_ENTER;
  INTRPT_NESTED_LEVEL_CHK cpsr Some (
  b ← blk_get o;
  if decide (obj_type b <> RHINO_MUTEX_OBJ_TYPE) then Some <$> exit_ret cpsr RHINO_KOBJ_TYPE_ERR else
  mx ← mutex_get o;
  if decide (mutex_mm_alloc_flag mx <> flag) then Some <$> exit_ret cpsr RHINO_KOBJ_DEL_ERR else
  blk_upd o (fun b => b <| obj_type := RHINO_OBJ_TYPE_NONE |>);;
  match mutex_task mx with
  | Some owner => mutex_release owner (Some o)
  | None => mret tt
  end;;
  drain_blk_list o pend_task_rm;;
  modify (fun s => s <| g_kobj_list ::= fun l => l <| mutex_list_head ::= list_rm o |> |>);;
  RHINO_CRITICAL_EXIT_SCHED cpsr;;
  mret None).

Definition krhino_mutex_del (mutex : option oid) : K kstat_t :=
  match mutex with
  | None => mret RHINO_NULL_PTR
  | Some o =>
      r ← mutex_del_body o K_OBJ_STATIC_ALLOC;
      mret (default RHINO_SUCCESS r)
  end.

(** [alloc] is the block [krhino_mm_alloc] returned; the result goes to [\*mutex]. *)
Definition krhino_mutex_dyn_create (mutex : option addr) (name : option addr)
    (alloc : option oid) : K kstat_t :=
  match mutex with
  | None => mret RHINO_NULL_PTR
  | Some p =>
      match alloc with
      | None => mret RHINO_NO_MEM
      | Some mutex_obj =>
          stat ← mutex_create (Some mutex_obj) name K_OBJ_DYN_ALLOC;
          if decide (stat <> RHINO_SUCCESS) then krhino_mm_free mutex_obj;; mret stat
          else store p (Zpos mutex_obj);; mret stat
      end
  end.

Definition krhino_mutex_dyn_del (mutex : option oid) : K kstat_t :=
  match mutex with
  | None => mret RHINO_NULL_PTR
  | Some o =>
      r ← mutex_del_body o K_OBJ_DYN_ALLOC;
      match r with
      | Some stat => mret stat
      | None => krhino_mm_free o;; mret RHINO_SUCCESS
      end
  end.

(** up to the context switch; the task resumes with [pend_resume] *)
Definition krhino_mutex_lock (mutex : option oid) (ticks : Z) : K kret :=
  match mutex with
  | None => mret (Ret RHINO_NULL_PTR)
  | Some o =>
      stat ← gets g_sys_stat;
      if decide (stat = RHINO_STOPPED) then mret (Ret RHINO_SUCCESS) else
      cpsr ← RHINO_CRITICAL_ENTER;
      INTRPT_NESTED_LEVEL_CHK cpsr Ret (
      b ← blk_get o;
      if decide (obj_type b <> RHINO_MUTEX_OBJ_TYPE) then Ret <$> exit_ret cpsr RHINO_KOBJ_TYPE_ERR else
      mx ← mutex_get o;
      a ← active;
      if decide (Some a = mutex_task mx) then
        if decide (owner_nested mx = MUTEX_NESTED_MAX) then
          k_err_proc RHINO_MUTEX_NESTED_OVF;;
          Ret <$> exit_ret cpsr RHINO_MUTEX_NESTED_OVF
        else
          mutex_upd o (fun mx => mx <| owner_nested ::= fun n => n + 1 |>);;
          Ret <$> exit_ret cpsr RHINO_MUTEX_OWNER_NESTED
      else
      match mutex_task mx with
      | None =>
          mutex_upd o (fun mx => mx <| mutex_task := Some a |>);;
          ka ← task_get a;
          mutex_upd o (fun mx => mx <| mutex_next := mutex_list ka |>);;
          task_upd a (fun k => k <| mutex_list := Some o |>);;
          mutex_upd o (fun mx => mx <| owner_nested := 1 |>);;
          Ret <$> exit_ret cpsr RHINO_SUCCESS
      | Some mutex_task =>
          if decide (ticks = RHINO_NO_WAIT) then Ret <$> exit_ret cpsr RHINO_NO_PEND_WAIT else
          lock ← gets g_sched_lock;
          if decide (0 < lock) then Ret <$> exit_ret cpsr RHINO_SCHED_DISABLE else
          ka ← task_get a;
          km ← task_get mutex_task;
          (* priority inheritance *)
          (if decide (prio ka < prio km) then _ ← task_pri_change mutex_task (prio ka); mret tt
           else mret tt);;
          pend_to_blk_obj o a ticks;;
          RHINO_CRITICAL_EXIT_SCHED cpsr;;
          mret Pending
      end)
  end.

Definition krhino_mutex_unlock (mutex : option oid) : K kstat_t :=
  match mutex with
  | None => mret RHINO_NULL_PTR
  | Some o =>
      stat ← gets g_sys_stat;
      if decide (stat = RHINO_STOPPED) then mret RHINO_SUCCESS else
      cpsr ← RHINO_CRITICAL_ENTER;
      INTRPT_NESTED_LEVEL_CHK cpsr id (
      b ← blk_get o;
      if decide (obj_type b <> RHINO_MUTEX_OBJ_TYPE) then exit_ret cpsr RHINO_KOBJ_TYPE_ERR else
      mx ← mutex_get o;
      a ← active;
      if decide (Some a <> mutex_task mx) then exit_ret cpsr RHINO_MUTEX_NOT_RELEASED_BY_OWNER else
      mutex_upd o (fun mx => mx <| owner_nested ::= fun n => wrap 32 (n - 1) |>);;
      mx ← mutex_get o;
      if decide (0 < owner_nested mx) then exit_ret cpsr RHINO_MUTEX_OWNER_NESTED else
      mutex_release a (Some o);;
      b ← blk_get o;
      match blk_list b with
      | [] =>
          mutex_upd o (fun mx => mx <| mutex_task := None |>);;
          exit_ret cpsr RHINO_SUCCESS
      | task :: _ =>
          (* the first waiter gets the mutex *)
          pend_task_wakeup task;;
          mutex_upd o (fun mx => mx <| mutex_task := Some task |>);;
          k ← task_get task;
          mutex_upd o (fun mx => mx <| mutex_next := mutex_list k |>);;
          task_upd task (fun k => k <| mutex_list := Some o |>);;
          mutex_upd o (fun mx => mx <| owner_nested := 1 |>);;
          sched_ret cpsr RHINO_SUCCESS
      end)
  end.

Definition krhino_mutex_is_valid (mutex : option oid) : K kstat_t :=
  match mutex with
  | None => mret RHINO_NULL_PTR
  | Some o =>
      b ← blk_get o;
      mret (if decide (obj_type b <> RHINO_MUTEX_OBJ_TYPE) then RHINO_KOBJ_TYPE_ERR else RHINO_SUCCESS)
  end.

(** ** Locking *)

Lemma obj_mutex s o b :
  kinv s -> blk_objs s !! o = Some b -> obj_type b = RHINO_MUTEX_OBJ_TYPE ->
  exists mx, mutexes s !! o = Some mx /\ blk_policy b = BLK_POLICY_PRI /\
    (blk_list b <> [] -> mutex_task mx <> None) /\
    (mutex_task mx <> None -> 1 <= owner_nested mx <= MUTEX_NESTED_MAX).
Proof.
  intros [] Hb Hty. pose proof (inv_obj o b Hb) as Hob. unfold obj_ok in Hob. by rewrite Hty in Hob.
Qed.

(** Setting a mutex to [mx] while the owners stay well linked. *)
Lemma kinv_set_mutex s T rq o b mx :
  kinv s -> qinv (setq s rq T (blk_objs s) (g_tick_head s)) ->
  blk_objs s !! o = Some b -> blk_policy b = BLK_POLICY_PRI ->
  (blk_list b <> [] -> mutex_task mx <> None) ->
  (mutex_task mx <> None -> 1 <= owner_nested mx <= MUTEX_NESTED_MAX) ->
  own_inv T (blk_objs s) (<[o := mx]> (mutexes s)) ->
  kinv (setq (s <| mutexes ::= <[o := mx]> |>) rq T (blk_objs s) (g_tick_head s)).
Proof.
  intros Hinv Hq Hb Hp Hw Hn Hown. apply kinv_intro; [by apply qinv_setq_mutexes|done|].
  intros o' b' Hb'. cbn in Hb'. pose proof Hinv as []. specialize (inv_obj o' b' Hb').
  cbn. unfold obj_ok in *. destruct (obj_type b'); try done.
  destruct (decide (o' = o)) as [->|]; [|by rewrite lookup_insert_ne].
  assert (b' = b) as -> by congruence. rewrite lookup_insert_eq. by exists mx.
Qed.

(** The branches of [krhino_mutex_lock]. *)
Inductive mutex_lock_spec (s : kstate) (o : oid) (ticks : Z) : kret -> kstate -> Prop :=
| lock_stopped :
    g_sys_stat s = RHINO_STOPPED -> mutex_lock_spec s o ticks (Ret RHINO_SUCCESS) s
| lock_intrpt :
    0 < g_intrpt_nested_level s -> mutex_lock_spec s o ticks (Ret RHINO_NOT_CALLED_BY_INTRPT) s
| lock_type b :
    blk_objs s !! o = Some b -> obj_type b <> RHINO_MUTEX_OBJ_TYPE ->
    mutex_lock_spec s o ticks (Ret RHINO_KOBJ_TYPE_ERR) s
| lock_overflow mx a :
    mutexes s !! o = Some mx -> g_active_task s = Some a -> mutex_task mx = Some a ->
    owner_nested mx = MUTEX_NESTED_MAX ->
    mutex_lock_spec s o ticks (Ret RHINO_MUTEX_NESTED_OVF)
      (s <| err_log ::= cons RHINO_MUTEX_NESTED_OVF |>)
| lock_nested mx a :
    mutexes s !! o = Some mx -> g_active_task s = Some a -> mutex_task mx = Some a ->
    owner_nested mx < MUTEX_NESTED_MAX ->
    mutex_lock_spec s o ticks (Ret RHINO_MUTEX_OWNER_NESTED)
      (s <| mutexes ::= <[o := mx <| owner_nested := owner_nested mx + 1 |>]> |>)
| lock_free mx a k :
    mutexes s !! o = Some mx -> mutex_task mx = None -> g_active_task s = Some a -> tasks s !! a = Some k ->
    mutex_lock_spec s o ticks (Ret RHINO_SUCCESS)
      (s <| tasks ::= <[a := k <| mutex_list := Some o |>]> |>
         <| mutexes ::= <[o := mx <| mutex_task := Some a |> <| mutex_next := mutex_list k |> <| owner_nested := 1 |>]> |>)
| lock_no_wait mx a w :
    mutexes s !! o = Some mx -> mutex_task mx = Some w -> g_active_task s = Some a -> w <> a ->
    ticks = RHINO_NO_WAIT -> mutex_lock_spec s o ticks (Ret RHINO_NO_PEND_WAIT) s
| lock_locked mx a w :
    mutexes s !! o = Some mx -> mutex_task mx = Some w -> g_active_task s = Some a -> w <> a ->
    ticks <> RHINO_NO_WAIT -> 0 < g_sched_lock s ->
    mutex_lock_spec s o ticks (Ret RHINO_SCHED_DISABLE) s
| lock_block mx a w k k' T1 O1 b1 l rq' L' s' :
    mutexes s !! o = Some mx -> mutex_task mx = Some w -> g_active_task s = Some a -> w <> a ->
    ticks <> RHINO_NO_WAIT -> g_sched_lock s = 0 -> tasks s !! a = Some k ->
    reprio (fun old p => prio k < old /\ p = prio k) (tasks s) T1 ->
    same_shape (blk_objs s) O1 -> O1 !! o = Some b1 ->
    blocked_task o k k' -> queued (prio_of (<[a := k']> T1)) a b1 l ->
    switched (setq s rq' (<[a := k']> T1) (<[o := b1 <| blk_list := l |>]> O1) L') s' ->
    mutex_lock_spec s o ticks Pending s'.

Lemma pi_setq_mutexes s M rq T O L :
  pi_all T O M (waits T) -> pi_inv (setq (s <| mutexes := M |>) rq T O L).
Proof. intros Hpi t k Ht Hd. by apply pi_at_on, Hpi. Qed.

(** The running task takes a free mutex. *)
Lemma kok_lock_free s o b mx a k :
  kok s -> g_intrpt_nested_level s = 0 -> blk_objs s !! o = Some b -> obj_type b = RHINO_MUTEX_OBJ_TYPE ->
  mutexes s !! o = Some mx -> mutex_task mx = None -> g_active_task s = Some a -> tasks s !! a = Some k ->
  task_state k = K_RDY -> a <> g_idle_task s ->
  kok (s <| tasks ::= <[a := k <| mutex_list := Some o |>]> |>
         <| mutexes ::= <[o := mx <| mutex_task := Some a |> <| mutex_next := mutex_list k |> <| owner_nested := 1 |>]> |>).
Proof.
  intros (Hinv & Hpi & Hsch & Hcnt) Hn Hb Hty Hm Hf Ha Hk Hr Hid.
  destruct (obj_mutex s o b Hinv Hb Hty) as (mx' & Hm' & Hpol & Hw & _). assert (mx' = mx) as -> by congruence.
  set (mx1 := mx <| mutex_task := Some a |> <| mutex_next := mutex_list k |> <| owner_nested := 1 |>).
  set (k1 := k <| mutex_list := Some o |>).
  assert (Hnw : forall x, ~ waits (tasks s) o x).
  { intros x Hx. pose proof Hinv as []. apply (bl_mem _ _ _ inv_blk o b x Hb) in Hx.
    apply Hw; [|done]. intros He. rewrite He in Hx. set_solver. }
  assert (Hd : task_state k <> K_DELETED) by (by rewrite Hr).
  assert (Hok : task_ok k1).
  { pose proof Hinv as []. destruct (inv_task a k Hk). by split. }
  assert (Hq : qinv (setq s (g_ready_queue s) (<[a := k1]> (tasks s)) (blk_objs s) (g_tick_head s))).
  { pose proof (kinv_q s Hinv). pose proof Hinv as []. apply qinv_setq; try done.
    - by eapply rq_ok_unseen.
    - eapply bl_ok_unseen; [done..|]. by rewrite Hr.
    - by eapply tick_ok_upd. }
  apply kok_intro; try done.
  - apply (kinv_set_mutex s _ _ o b mx1); try done.
    eapply (own_give _ _ _ a k o b mx mx1); try done; by apply kinv_own.
  - apply (pi_setq_mutexes s). eapply (pi_give _ _ _ a k o b mx mx1); try done. intros x Hx. by destruct (Hnw x).
  - intros _. destruct (Hsch Hn) as (a' & k' & Ha' & Hk' & _ & Htop).
    assert (a' = a) as -> by congruence. exists a, k1.
    split; [done|]. split; [apply lookup_insert_eq|]. done.
Qed.

(** Priority inheritance: the owner and those it waits for are raised. *)
Lemma wp_inherit s o a k w kw Q :
  kinv s -> pi_inv s -> tasks s !! a = Some k -> is_pend (task_state k) = false ->
  holds (blk_objs s) (mutexes s) w o -> w <> a -> tasks s !! w = Some kw ->
  (forall rq' T1 O1, same_shape (blk_objs s) O1 ->
     reprio (fun old p => prio k < old /\ p = prio k) (tasks s) T1 ->
     kinv (setq s rq' T1 O1 (g_tick_head s)) ->
     pi_all T1 O1 (mutexes s) (virtual s o a) -> Q tt (setq s rq' T1 O1 (g_tick_head s))) ->
  wp (if decide (prio k < prio kw) then _ ← task_pri_change w (prio k); mret tt else mret tt) Q s.
Proof.
  intros Hinv Hpi Hk Hp Hh Hwa Hkw HQ. pose proof Hinv as [].
  assert (Hna : forall m, ~ waits (tasks s) m a) by (intros m (k' & ? & ? & _); congruence).
  assert (Hpa : prio_of (tasks s) a = prio k) by (unfold prio_of; by rewrite Hk).
  destruct (inv_owner w o Hh) as (kw' & Hkw' & Hd). assert (kw' = kw) as -> by congruence.
  assert (Hother : forall u ku, tasks s !! u = Some ku -> task_state ku <> K_DELETED -> u <> w ->
    pi_on (tasks s) (blk_objs s) (mutexes s) (virtual s o a) u (prio ku)).
  { intros u ku Hu Hdu Hne. eapply pi_on_frame; [by apply pi_at_on, Hpi|eauto|done| |done].
    intros m x Hm. unfold virtual. split; [|by left]. intros [?|[-> ->]]; [done|].
    destruct Hne. by apply (holds_owner (blk_objs s) (mutexes s) u w o). }
  destruct (Hpi w kw Hkw Hd) as (kw' & Hkw2 & Hle & Hall & Hex). assert (kw' = kw) as -> by congruence.
  case_decide as Hlt.
  - apply wp_bind, wp_bind, wp_gets.
    apply (wp_raise (virtual s o a)) with (k := kw); try done.
    + intros m m' x [Hx|[-> ->]] [Hx'|[-> Hxa]]; try done; [by eapply waits_inj| |].
      * subst x. by destruct (Hna m).
      * by destruct (Hna m').
    + by eapply owner_not_idle.
    + pose proof (inv_task a k Hk) as []. done.
    + lia.
    + intros m x Hx. by left.
    + intros m x [?|[-> ->]]; [by left|by right].
    + intros u m Hm [Hx|[-> ->]]; [by apply (inv_self u m)|].
      destruct Hwa. by apply (holds_owner (blk_objs s) (mutexes s) w a o).
    + exists kw. split; [done|]. split; [lia|]. split.
      * intros m x Hm [Hx|[-> ->]]; [|by rewrite Hpa]. pose proof (Hall m x Hm Hx). lia.
      * right. exists o, a. split; [done|]. split; [by right|done].
    + unfold pri_change_fuel. pose proof (size_filter_le (fun x => prio k < prio x) (tasks s)). lia.
  - apply wp_ret. specialize (HQ (g_ready_queue s) (tasks s) (blk_objs s)). rewrite setq_id in HQ.
    apply HQ; [done|apply reprio_refl|done|]. intros u ku Hu Hdu.
    destruct (decide (u = w)) as [->|]; [|by apply Hother]. assert (ku = kw) as -> by congruence.
    exists kw. split; [done|]. split; [done|]. split.
    + intros m x Hm [Hx|[-> ->]]; [by eapply Hall|]. rewrite Hpa. lia.
    + destruct Hex as [?|(m & x & ? & ? & ?)]; [by left|]. right. exists m, x. split; [done|]. split; [by left|done].
Qed.

(** When [a] waits, what was anticipated is the case. *)
Lemma pi_virtual s o a k k' T1 O1 b l rq' L' :
  kinv s -> pi_all T1 O1 (mutexes s) (virtual s o a) -> (forall m x, waits T1 m x <-> waits (tasks s) m x) ->
  (forall m, ~ waits (tasks s) m a) -> T1 !! a = Some k -> blocked_task o k k' -> task_state k <> K_DELETED ->
  O1 !! o = Some b -> pi_inv (setq s rq' (<[a := k']> T1) (<[o := b <| blk_list := l |>]> O1) L').
Proof.
  intros Hinv Hpi HW Hna Ha Hb Hd Ho u ku Hu Hdu. apply pi_at_on.
  assert (Hst : task_state k' = K_PEND) by (by rewrite Hb).
  assert (Hbo : blk_obj k' = Some o) by (by rewrite Hb).
  assert (Hpr : prio k' = prio k) by (by rewrite Hb).
  assert (Hpb : b_prio k' = b_prio k) by (by rewrite Hb).
  assert (Hpu : exists k1, T1 !! u = Some k1 /\ task_state k1 <> K_DELETED /\ prio ku = prio k1).
  { cbn in Hu. destruct (decide (u = a)) as [->|].
    - rewrite lookup_insert_eq in Hu. injection Hu as <-. by exists k.
    - rewrite lookup_insert_ne in Hu by done. by exists ku. }
  destruct Hpu as (k1 & Hk1 & Hd1 & ->). eapply pi_on_frame; [by apply Hpi| | | |]; cbn.
  - intros k2 Hk2. destruct (decide (u = a)) as [->|].
    + rewrite lookup_insert_eq. exists k'. split; [done|]. congruence.
    + rewrite lookup_insert_ne by done. eauto.
  - intros m. apply holds_same_shape. by eapply same_shape_insert.
  - intros m x _. rewrite waits_insert, Hst, Hbo. unfold virtual. rewrite HW. split.
    + intros [(-> & _ & [= ->])|[_ ?]]; auto.
    + intros [Hx|[-> ->]]; [|by left]. right. split; [|done]. intros ->. by destruct (Hna m).
  - intros m x _ _. rewrite prio_of_insert. case_decide; [|done]. subst. unfold prio_of. by rewrite Ha.
Qed.

(** The contended case. *)
Lemma wp_lock_block s o b mx a k w kw ticks Q :
  kok s -> g_intrpt_nested_level s = 0 -> g_sched_lock s = 0 ->
  blk_objs s !! o = Some b -> obj_type b = RHINO_MUTEX_OBJ_TYPE ->
  mutexes s !! o = Some mx -> mutex_task mx = Some w -> g_active_task s = Some a -> w <> a ->
  tasks s !! a = Some k -> task_state k = K_RDY -> a <> g_idle_task s ->
  tasks s !! w = Some kw -> 1 <= ticks <= RHINO_WAIT_FOREVER ->
  (forall s', kok s' -> mutex_lock_spec s o ticks Pending s' -> Q (Pending) s') ->
  wp ((if decide (prio k < prio kw) then _ ← task_pri_change w (prio k); mret tt else mret tt);;
      pend_to_blk_obj o a ticks;; RHINO_CRITICAL_EXIT_SCHED (irq_off s);; mret Pending)
    Q (s <| irq_off := true |>).
Proof.
  intros Hok Hn Hlk Hb Hty Hm Hmw Ha Hwa Hk Hr Hid Hkw Htk HQ. pose proof Hok as (Hinv & Hpi & Hsch & Hcnt).
  destruct (obj_mutex s o b Hinv Hb Hty) as (mx' & Hm' & Hpol & Hwt & Hnest). assert (mx' = mx) as -> by congruence.
  assert (Hh : holds (blk_objs s) (mutexes s) w o) by (by exists b, mx).
  assert (Hna : forall m, ~ waits (tasks s) m a).
  { intros m (k' & ? & Hp & _). assert (k' = k) as -> by congruence. by rewrite Hr in Hp. }
  apply wp_bind. eapply (wp_inherit (s <| irq_off := true |>) o a k w kw); try done; [by rewrite Hr|].
  intros rq1 T1 O1 Hsh Hre Hinv1 Hall1.
  assert (Ha1 : T1 !! a = Some k).
  { destruct (Hre a) as [He|(k' & p & Hk' & [Hlt Hp] & _)]; [by rewrite He|].
    assert (k' = k) as -> by (cbn in Hk'; congruence). lia. }
  destruct (same_shape_lookup O1 (blk_objs s) o b) as (b1 & Hb1 & He); [by apply same_shape_sym|done|].
  assert (Hty1 : obj_type b1 = RHINO_MUTEX_OBJ_TYPE) by (unfold shape in He; congruence).
  assert (Hpol1 : blk_policy b1 = BLK_POLICY_PRI) by (unfold shape in He; congruence).
  apply wp_bind. eapply (wp_pend_to_blk_obj _ a ticks k b1); try done.
  { intros l. unfold obj_ok. cbn. rewrite Hty1. exists mx. repeat split; try done; try (by rewrite Hmw); by apply Hnest. }
  { cbn. rewrite (holds_same_shape (blk_objs s)) by done. intros Hh'.
    apply Hwa. by apply (holds_owner (blk_objs s) (mutexes s) w a o). }
  intros rq' k' l L' Hk' Hl Hinv'. cbn in Hinv', Hl. apply wp_bind, wp_exit_sched; try done.
  - apply (pi_virtual (s <| irq_off := true |>) o a k k' T1 O1 b1 l rq' L'); try done; [|by rewrite Hr].
    intros m x. by apply (reprio_waits _ _ _ _ _ Hre).
  - intros _ Hlk'. cbn in *. lia.
  - intros s' Hok' Hsw. apply wp_ret, HQ; [done|].
    eapply (lock_block s o ticks mx a w k k' T1 O1 b1 l rq' L'); try done. unfold RHINO_NO_WAIT. lia.
Qed.

Lemma wp_mutex_lock (s : kstate) (o : oid) (b : blk_obj_t) (ticks : Z)
    (Hok : kok s) (Ho : blk_objs s !! o = Some b) (Ht : 0 <= ticks <= RHINO_WAIT_FOREVER)
    (Hidle : g_active_task s <> Some (g_idle_task s)) :
  wp (krhino_mutex_lock (Some o) ticks) (fun r s' => kok s' /\ mutex_lock_spec s o ticks r s') s.
Proof.
  pose proof Hok as (Hinv & Hpi & Hsch & Hcnt). pose proof Hcnt as [Hc1 Hc2].
  unfold krhino_mutex_lock. apply wp_bind, wp_gets.
  case_decide as Hst; [apply wp_ret; split; [done|by apply lock_stopped]|].
  apply wp_bind, wp_critical_enter.
  apply wp_nested_chk; [rewrite irq_restore; split; [done|by apply lock_intrpt]|].
  intros Hn. cbn in Hn. destruct (active_ready s Hok Hn) as (a & k & Ha & Hk & Hr).
  assert (Hid : a <> g_idle_task s) by congruence.
  apply wp_bind. eapply wp_blk_get; [done|].
  case_decide as Hty; [apply wp_fmap, wp_exit_ret; rewrite irq_restore; split; [done|by eapply lock_type]|].
  destruct (obj_mutex s o b Hinv Ho Hty) as (mx & Hm & Hpol & Hw & Hnest).
  apply wp_bind. eapply wp_mutex_get; [done|]. apply wp_bind. eapply wp_active; [done|].
  case_decide as Hown.
  - case_decide as Hov.
    + apply wp_bind, wp_modify, wp_fmap, wp_exit_ret.
      match goal with |- kok ?x /\ _ => assert (x = s <| err_log ::= cons RHINO_MUTEX_NESTED_OVF |>) as -> by done end.
      split; [|by eapply lock_overflow]. by apply kok_intro.
    + apply wp_bind. eapply wp_mutex_upd; [done|]. apply wp_fmap, wp_exit_ret.
      match goal with |- kok ?x /\ _ =>
        assert (x = s <| mutexes ::= <[o := mx <| owner_nested := owner_nested mx + 1 |>]> |>) as -> by done end.
      assert (Hnn : 1 <= owner_nested mx <= MUTEX_NESTED_MAX) by (apply Hnest; by rewrite <- Hown).
      split; [|eapply lock_nested; try done; lia].
      destruct (own_upd (tasks s) (blk_objs s) (mutexes s) o mx (mx <| owner_nested := owner_nested mx + 1 |>))
        as [Hown' HH]; [by apply kinv_own|done..|].
      apply kok_intro; try done.
      * rewrite <- (setq_id s) at 1. apply (kinv_set_mutex s _ _ o b); try done.
        -- rewrite setq_id. by apply kinv_q.
        -- cbn. lia.
      * apply pi_all_now. cbn. eapply pi_upd; [|done]. exact Hpi.
  - destruct (mutex_task mx) as [w|] eqn:Hmw.
    + assert (Hwa : w <> a) by congruence.
      case_decide as Hnw; [apply wp_fmap, wp_exit_ret; rewrite irq_restore; split; [done|by eapply lock_no_wait]|].
      apply wp_bind, wp_gets. cbn [g_sched_lock].
      case_decide as Hlk; cbn in Hlk; [apply wp_fmap, wp_exit_ret; rewrite irq_restore; split; [done|by eapply lock_locked]|].
      apply wp_bind. eapply wp_task_get; [done|].
      assert (Hh : holds (blk_objs s) (mutexes s) w o) by (by exists b, mx).
      pose proof Hinv as []. destruct (inv_owner w o Hh) as (kw & Hkw & _).
      apply wp_bind. eapply wp_task_get; [done|].
      eapply (wp_lock_block s o b mx a k w kw); try done; unfold RHINO_NO_WAIT in *; lia.
    + apply wp_bind. eapply wp_mutex_upd; [done|]. apply wp_bind. eapply wp_task_get; [done|].
      apply wp_bind. eapply wp_mutex_upd; [apply lookup_insert_eq|].
      apply wp_bind. eapply wp_task_upd; [done|].
      apply wp_bind. eapply wp_mutex_upd; [cbn; apply lookup_insert_eq|]. apply wp_fmap, wp_exit_ret.
      match goal with |- kok ?x /\ _ => assert (x = s <| tasks ::= <[a := k <| mutex_list := Some o |>]> |>
         <| mutexes ::= <[o := mx <| mutex_task := Some a |> <| mutex_next := mutex_list k |> <| owner_nested := 1 |>]> |>) as ->
         by kstate_eq end.
      split; [|by eapply lock_free]. eapply kok_lock_free; try done. lia.
Qed.

(** C2: locking a mutex: an owner that locks again only counts (up to the largest count),
    a free mutex becomes the caller's, and on another's mutex the caller returns at once or
    waits, after the owner and every owner it waits for in turn got at least the caller's
    priority.  The loop along the owners ends, and all kernel invariants are kept: the lists
    of owned mutexes, and that every task runs at the best of its own priority and the
    priorities of the tasks that wait for its mutexes. *)
Theorem krhino_mutex_lock_correct (s : kstate) (o : oid) (b : blk_obj_t) (ticks : Z)
    (Hok : kok s) (Ho : blk_objs s !! o = Some b) (Ht : 0 <= ticks <= RHINO_WAIT_FOREVER)
    (Hidle : g_active_task s <> Some (g_idle_task s)) :
  wp (krhino_mutex_lock (Some o) ticks) (fun r s' => kok s' /\ mutex_lock_spec s o ticks r s') s.
Proof. by eapply wp_mutex_lock. Qed.

(** ** Unlocking *)

(** The branches of [krhino_mutex_unlock]. *)
Inductive mutex_unlock_spec (s : kstate) (o : oid) : kstat_t -> kstate -> Prop :=
| unlock_stopped :
    g_sys_stat s = RHINO_STOPPED -> mutex_unlock_spec s o RHINO_SUCCESS s
| unlock_intrpt :
    0 < g_intrpt_nested_level s -> mutex_unlock_spec s o RHINO_NOT_CALLED_BY_INTRPT s
| unlock_type b :
    blk_objs s !! o = Some b -> obj_type b <> RHINO_MUTEX_OBJ_TYPE ->
    mutex_unlock_spec s o RHINO_KOBJ_TYPE_ERR s
| unlock_not_owner mx a :
    mutexes s !! o = Some mx -> g_active_task s = Some a -> mutex_task mx <> Some a ->
    mutex_unlock_spec s o RHINO_MUTEX_NOT_RELEASED_BY_OWNER s
| unlock_nested mx a :
    mutexes s !! o = Some mx -> g_active_task s = Some a -> mutex_task mx = Some a ->
    1 < owner_nested mx ->
    mutex_unlock_spec s o RHINO_MUTEX_OWNER_NESTED
      (s <| mutexes ::= <[o := mx <| owner_nested := owner_nested mx - 1 |>]> |>)
| unlock_free b mx a k k' M' :
    blk_objs s !! o = Some b -> blk_list b = [] ->
    mutexes s !! o = Some mx -> g_active_task s = Some a -> mutex_task mx = Some a -> owner_nested mx = 1 ->
    tasks s !! a = Some k -> released k k' -> prio k' = prio k ->
    (forall m, m <> o -> untie <$> M' !! m = untie <$> mutexes s !! m) ->
    mutex_unlock_spec s o RHINO_SUCCESS
      (setq (s <| mutexes := <[o := mx <| owner_nested := 0 |> <| mutex_task := None |>]> M' |>)
        (g_ready_queue s) (<[a := k']> (tasks s)) (blk_objs s) (g_tick_head s))
| unlock_hand_over b w l mx a k k' kw M' rq' L' s' :
    blk_objs s !! o = Some b -> blk_list b = w :: l ->
    mutexes s !! o = Some mx -> g_active_task s = Some a -> mutex_task mx = Some a -> owner_nested mx = 1 ->
    tasks s !! a = Some k -> released k k' -> tasks s !! w = Some kw -> w <> a ->
    (forall m, m <> o -> untie <$> M' !! m = untie <$> mutexes s !! m) ->
    switched (setq (s <| mutexes :=
        <[o := mx <| mutex_task := Some w |> <| mutex_next := mutex_list kw |> <| owner_nested := 1 |>]> M' |>)
        rq' (<[w := (woken_task BLK_FINISH kw) <| mutex_list := Some o |>]> (<[a := k']> (tasks s)))
        (<[o := b <| blk_list := l |>]> (blk_objs s)) L') s' ->
    mutex_unlock_spec s o RHINO_SUCCESS s'.

(** Objects when the mutex [o] changed its owner and some tasks stopped waiting. *)
Lemma obj_ok_moved s (M' : gmap oid kmutex_t) (O' : gmap oid blk_obj_t) o b b' mx :
  kinv s -> blk_objs s !! o = Some b -> obj_type b = RHINO_MUTEX_OBJ_TYPE -> O' !! o = Some b' ->
  obj_type b' = RHINO_MUTEX_OBJ_TYPE -> blk_policy b' = BLK_POLICY_PRI ->
  (blk_list b' <> [] -> mutex_task mx <> None) ->
  (mutex_task mx <> None -> 1 <= owner_nested mx <= MUTEX_NESTED_MAX) ->
  (forall m, m <> o -> untie <$> M' !! m = untie <$> mutexes s !! m) ->
  (forall m, m <> o -> O' !! m = blk_objs s !! m) ->
  forall m c, O' !! m = Some c ->
    obj_ok (sems s) (<[o := mx]> M') (events s) (queues s) (buf_queues s) m c.
Proof.
  intros [] Hb Hty Hb' Hty' Hp Hw Hn HM HO m c Hc. destruct (decide (m = o)) as [->|Hne].
  - assert (c = b') as -> by congruence. unfold obj_ok. rewrite Hty', lookup_insert_eq. by exists mx.
  - rewrite HO in Hc by done. eapply obj_ok_untie; [by apply inv_obj|].
    rewrite lookup_insert_ne by done. by apply HM.
Qed.

(** What [mutex_release] leaves for the rest of [krhino_mutex_unlock]. *)
Record unlocked (s : kstate) (o : oid) (a : tid) (k k' : ktask_t) (mx : kmutex_t)
    (rq' : runqueue_t) (M' : gmap oid kmutex_t) : Prop := {
  ud_released : released k k';
  ud_rq : prio k' = prio k -> rq' = g_ready_queue s;
  ud_prio : (forall x, ~ waits (tasks s) o x) -> prio k' = prio k;
  ud_q : qinv (setq s rq' (<[a := k']> (tasks s)) (blk_objs s) (g_tick_head s));
  ud_free : forall mx0, mutex_task mx0 = None ->
    own_inv (<[a := k']> (tasks s)) (blk_objs s) (<[o := mx0]> M') /\
    pi_all (<[a := k']> (tasks s)) (blk_objs s) (<[o := mx0]> M') (waits (<[a := k']> (tasks s)));
  ud_mutex : M' !! o = Some mx;
  ud_same : forall m, m <> o -> untie <$> M' !! m = untie <$> mutexes s !! m;
}.

Lemma released_ready k k' : released k k' -> task_state k = K_RDY -> task_state k' = K_RDY.
Proof. intros (p & v & -> & _) Hr. done. Qed.

Lemma qinv_irq s b : qinv (s <| irq_off := b |>) <-> qinv s.
Proof. split; intros []; by split. Qed.

(** Nobody waits: the mutex is free again. *)
Lemma kok_unlock_free s o b a k k' mx rq' M' :
  kok s -> g_intrpt_nested_level s = 0 -> blk_objs s !! o = Some b -> obj_type b = RHINO_MUTEX_OBJ_TYPE ->
  blk_list b = [] -> g_active_task s = Some a -> tasks s !! a = Some k -> task_state k = K_RDY ->
  unlocked s o a k k' mx rq' M' ->
  prio k' = prio k /\
  kok (setq (s <| mutexes := <[o := mx <| mutex_task := None |>]> M' |>)
        (g_ready_queue s) (<[a := k']> (tasks s)) (blk_objs s) (g_tick_head s)).
Proof.
  intros (Hinv & Hpi & Hsch & Hcnt) Hn Hb Hty Hl Ha Hk Hr [].
  destruct (obj_mutex s o b Hinv Hb Hty) as (_ & _ & Hpol & _).
  assert (Hno : forall x, ~ waits (tasks s) o x).
  { pose proof Hinv as []. intros x Hx. apply (bl_mem _ _ _ inv_blk o b x Hb) in Hx. rewrite Hl in Hx. set_solver. }
  specialize (ud_prio0 Hno). split; [done|]. rewrite <- (ud_rq0 ud_prio0).
  destruct (ud_free0 (mx <| mutex_task := None |>)) as [Hown' Hpi']; [done|].
  apply kok_intro.
  - apply kinv_intro; [by apply qinv_setq_mutexes|done|].
    cbn. eapply (obj_ok_moved s M' (blk_objs s) o b b); try done.
  - by apply pi_setq_mutexes.
  - intros _. destruct (Hsch Hn) as (a' & ka & Ha' & _ & _ & Htop). assert (a' = a) as -> by congruence.
    exists a, k'. split; [done|]. split; [apply lookup_insert_eq|]. split; [by eapply released_ready|].
    intros Hlk. rewrite (ud_rq0 ud_prio0). by apply Htop.
  - done.
Qed.

(** The first waiter gets the mutex. *)
Lemma wp_unlock_hand_over s o b w l a k k' mx rq' M' cpsr Q :
  kok s -> g_intrpt_nested_level s = 0 -> blk_objs s !! o = Some b -> obj_type b = RHINO_MUTEX_OBJ_TYPE ->
  blk_list b = w :: l -> g_active_task s = Some a -> tasks s !! a = Some k -> task_state k = K_RDY ->
  unlocked s o a k k' mx rq' M' ->
  (forall kw rq2 L2 s', tasks s !! w = Some kw -> w <> a -> kok s' ->
     switched ((setq (s <| mutexes :=
        <[o := mx <| mutex_task := Some w |> <| mutex_next := mutex_list kw |> <| owner_nested := 1 |>]> M' |>)
        rq2 (<[w := (woken_task BLK_FINISH kw) <| mutex_list := Some o |>]> (<[a := k']> (tasks s)))
        (<[o := b <| blk_list := l |>]> (blk_objs s)) L2) <| irq_off := cpsr |>) s' ->
     Q RHINO_SUCCESS s') ->
  wp (pend_task_wakeup w;;
      mutex_upd o (fun mx => mx <| mutex_task := Some w |>);;
      k ← task_get w;
      mutex_upd o (fun mx => mx <| mutex_next := mutex_list k |>);;
      task_upd w (fun k => k <| mutex_list := Some o |>);;
      mutex_upd o (fun mx => mx <| owner_nested := 1 |>);;
      sched_ret cpsr RHINO_SUCCESS) Q
    (setq (s <| mutexes := M' |>) rq' (<[a := k']> (tasks s)) (blk_objs s) (g_tick_head s)).
Proof.
  intros (Hinv & Hpi & Hsch & Hcnt) Hn Hb Hty Hl Ha Hk Hr Hud HQ. pose proof Hud as [].
  destruct (obj_mutex s o b Hinv Hb Hty) as (_ & _ & Hpol & _).
  pose proof (first_waits s o b w l Hinv Hb Hl) as (kw & Hkw & Hp & Hbo).
  assert (Hwa : w <> a) by (intros ->; assert (kw = k) as -> by congruence; by rewrite Hr in Hp).
  assert (Hkw' : <[a := k']> (tasks s) !! w = Some kw) by (by rewrite lookup_insert_ne).
  pose proof Hinv as [].
  assert (Hlr : list_rm w (blk_list b) = l).
  { rewrite Hl. apply list_rm_cons. pose proof (bl_nodup _ _ _ inv_blk o b Hb) as Hnd.
    rewrite Hl in Hnd. by apply NoDup_cons in Hnd as []. }
  assert (Hrm : blk_rm w (blk_objs s) = <[o := b <| blk_list := l |>]> (blk_objs s)).
  { rewrite (blk_rm_at _ (tasks s) w o b), Hlr; [done|done|by exists kw|done]. }
  set (mx2 := mx <| mutex_task := Some w |> <| mutex_next := mutex_list kw |> <| owner_nested := 1 |>) in *.
  set (kw2 := (woken_task BLK_FINISH kw) <| mutex_list := Some o |>) in *.
  destruct (ud_free0 (mx2 <| mutex_task := None |>)) as [Hown0 Hpi0]; [done|].
  pose proof ud_q0 as []. cbn in *.
  destruct (hand_over _ _ _ o b w l kw mx2 BLK_FINISH Hown0 Hpi0 q_blk Hb Hty Hpol Hl Hkw' Hp Hbo eq_refl eq_refl)
    as [Hown2 Hpi2]. cbn in Hown2, Hpi2. fold kw2 in Hown2, Hpi2. rewrite Hrm in Hown2, Hpi2.
  apply wp_bind. eapply (wp_wakeup_q w kw); [by apply qinv_setq_mutexes|done|done|].
  intros rq2 L2 Hq2. cbn [tasks blk_objs setq] in Hq2 |- *. rewrite Hrm in Hq2 |- *.
  apply wp_bind. eapply wp_mutex_upd; [done|]. apply wp_bind. eapply wp_task_get; [apply lookup_insert_eq|].
  apply wp_bind. eapply wp_mutex_upd; [cbn; apply lookup_insert_eq|]. apply wp_bind.
  eapply wp_task_upd; [apply lookup_insert_eq|]. apply wp_bind. eapply wp_mutex_upd; [cbn; apply lookup_insert_eq|].
  match goal with |- wp _ _ ?x => assert (x =
    setq (s <| mutexes := <[o := mx2]> M' |>) rq2 (<[w := kw2]> (<[a := k']> (tasks s)))
      (<[o := b <| blk_list := l |>]> (blk_objs s)) L2) as -> by kstate_eq end.
  assert (Hq3 : qinv (setq (s <| mutexes := <[o := mx2]> M' |>) rq2 (<[w := kw2]> (<[a := k']> (tasks s)))
      (<[o := b <| blk_list := l |>]> (blk_objs s)) L2)).
  { eapply qinv_ext; [eapply (qinv_list_upd _ _ _ _ _ w _ kw2); [exact Hq2|apply lookup_insert_eq| |done]|
      cbn; try reflexivity..]; [|by rewrite insert_insert_eq].
    eapply (pend_not_idle s w kw); [done|done|]. intros He. by rewrite He in Hp. }
  apply wp_sched_ret.
  - apply kinv_intro; [exact Hq3|exact Hown2|]. cbn.
    eapply (obj_ok_moved s M' _ o b (b <| blk_list := l |>)); try done; [by apply lookup_insert_eq|].
    intros m Hm. by rewrite lookup_insert_ne.
  - by apply pi_setq_mutexes.
  - done.
  - intros _ _. exists a, k'. split; [done|]. cbn. rewrite lookup_insert_ne by done.
    rewrite lookup_insert_eq. split; [done|]. by eapply released_ready.
  - intros s' Hok' Hsw. by eapply HQ.
Qed.

(** the last unlock: the owner gives back its priority, and the first waiter gets the mutex *)
Lemma wp_unlock_last s o b a k mx mx1 :
  kok s -> blk_objs s !! o = Some b -> obj_type b = RHINO_MUTEX_OBJ_TYPE -> g_sys_stat s <> RHINO_STOPPED ->
  ~ 0 < g_intrpt_nested_level s -> g_active_task s = Some a -> tasks s !! a = Some k -> task_state k = K_RDY ->
  mutexes s !! o = Some mx -> mutex_task mx = Some a -> owner_nested mx = 1 -> mx1 = mx <| owner_nested := 0 |> ->
  wp (mutex_release a (Some o);;
      b ← blk_get o;
      match blk_list b with
      | [] =>
          mutex_upd o (fun mx => mx <| mutex_task := None |>);;
          exit_ret (irq_off s) RHINO_SUCCESS
      | task :: _ =>
          pend_task_wakeup task;;
          mutex_upd o (fun mx => mx <| mutex_task := Some task |>);;
          k ← task_get task;
          mutex_upd o (fun mx => mx <| mutex_next := mutex_list k |>);;
          task_upd task (fun k => k <| mutex_list := Some o |>);;
          mutex_upd o (fun mx => mx <| owner_nested := 1 |>);;
          sched_ret (irq_off s) RHINO_SUCCESS
      end) (fun r s' => kok s' /\ mutex_unlock_spec s o r s')
    (s <| irq_off := true |> <| mutexes := <[o := mx1]> (mutexes s) |>).
Proof.
  intros Hok Ho Hty Hst Hn Ha Hk Hr Hm Hmt H1 Hmx1. pose proof Hok as (Hinv & Hpi & Hsch & Hcnt).
  pose proof Hcnt as [Hc1 Hc2]. destruct (obj_mutex s o b Hinv Ho Hty) as (mx0 & Hm0 & Hpol & Hw & Hnest).
  assert (mx0 = mx) as -> by congruence.
  destruct (own_upd (tasks s) (blk_objs s) (mutexes s) o mx mx1) as [Hown1 HH]; [by apply kinv_own|done|by rewrite Hmx1..|].
  assert (Hpi1 : pi_all (tasks s) (blk_objs s) (<[o := mx1]> (mutexes s)) (waits (tasks s))).
  { eapply pi_upd; [|done]. exact Hpi. }
  apply wp_bind. eapply (wp_release_ready _ a k o); try done.
  + apply (qinv_ext s); [by apply kinv_q|done..].
  + exact (kinv_pri_mutexes s Hinv).
  + cbn. apply HH. by exists b, mx.
  + cbn. intros rq' k' M' Hrel Hq' Hrq' Hpr' Hfree HM' Hsame.
    assert (Hud : unlocked s o a k k' mx1 rq' M').
    { split; try done.
      - by apply (qinv_ext _ _ Hq').
      - by rewrite HM', lookup_insert_eq.
      - intros m Hmo. by rewrite Hsame, lookup_insert_ne. }
    apply wp_bind. eapply wp_blk_get; [done|]. destruct (blk_list b) as [|w l] eqn:Hl.
    * apply wp_bind. eapply wp_mutex_upd; [apply (ud_mutex _ _ _ _ _ _ _ _ Hud)|]. apply wp_exit_ret.
      destruct (kok_unlock_free s o b a k k' mx1 rq' M') as [Hpk Hok']; try done; [lia|].
      match goal with |- kok ?x /\ _ => assert (x = setq (s <| mutexes := <[o := mx1 <| mutex_task := None |>]> M' |>)
        (g_ready_queue s) (<[a := k']> (tasks s)) (blk_objs s) (g_tick_head s)) as -> end.
      { apply kstate_ext; cbn; try reflexivity. by apply (ud_rq _ _ _ _ _ _ _ _ Hud). }
      split; [done|]. rewrite Hmx1. eapply unlock_free; try done. by apply (ud_same _ _ _ _ _ _ _ _ Hud).
    * match goal with |- wp _ _ ?x => assert (x = setq ((s <| irq_off := true |>) <| mutexes := M' |>) rq'
        (<[a := k']> (tasks (s <| irq_off := true |>))) (blk_objs (s <| irq_off := true |>))
        (g_tick_head (s <| irq_off := true |>))) as -> by done end.
      apply (wp_unlock_hand_over (s <| irq_off := true |>) o b w l a k k' mx1 rq' M' (irq_off s)
        (fun r s' => kok s' /\ mutex_unlock_spec s o r s')); try done.
      -- cbn. lia.
      -- destruct Hud. split; try done. by apply (qinv_ext _ _ Hq').
      -- intros kw rq2 L2 s' Hkw Hwa Hok' Hsw. split; [done|]. rewrite Hmx1 in Hsw.
         eapply (unlock_hand_over s o b w l mx a k k' kw M' rq2 L2); try done.
         by apply (ud_same _ _ _ _ _ _ _ _ Hud).
Qed.

Lemma wp_mutex_unlock (s : kstate) (o : oid) (b : blk_obj_t)
    (Hok : kok s) (Ho : blk_objs s !! o = Some b) :
  wp (krhino_mutex_unlock (Some o)) (fun r s' => kok s' /\ mutex_unlock_spec s o r s') s.
Proof.
  pose proof Hok as (Hinv & Hpi & Hsch & Hcnt). pose proof Hcnt as [Hc1 Hc2].
  unfold krhino_mutex_unlock. apply wp_bind, wp_gets.
  case_decide as Hst; [apply wp_ret; split; [done|by apply unlock_stopped]|].
  apply wp_bind, wp_critical_enter.
  apply wp_nested_chk; [rewrite irq_restore; split; [done|by apply unlock_intrpt]|].
  intros Hn. cbn in Hn. destruct (active_ready s Hok Hn) as (a & k & Ha & Hk & Hr).
  apply wp_bind. eapply wp_blk_get; [done|].
  case_decide as Hty; [apply wp_exit_ret; rewrite irq_restore; split; [done|by eapply unlock_type]|].
  destruct (obj_mutex s o b Hinv Ho Hty) as (mx & Hm & Hpol & Hw & Hnest).
  apply wp_bind. eapply wp_mutex_get; [done|]. apply wp_bind. eapply wp_active; [done|].
  case_decide as Hown; [apply wp_exit_ret; rewrite irq_restore; split; [done|by eapply unlock_not_owner]|].
  assert (Hmt : mutex_task mx = Some a) by congruence.
  assert (Hnn : 1 <= owner_nested mx <= MUTEX_NESTED_MAX) by (apply Hnest; by rewrite Hmt).
  apply wp_bind. eapply wp_mutex_upd; [done|].
  assert (Hwr : wrap 32 (owner_nested mx - 1) = owner_nested mx - 1).
  { apply wrap_small. unfold MUTEX_NESTED_MAX in Hnn. lia. }
  apply wp_bind. eapply wp_mutex_get; [apply lookup_insert_eq|]. cbn. rewrite Hwr.
  set (mx1 := mx <| owner_nested := owner_nested mx - 1 |>).
  destruct (own_upd (tasks s) (blk_objs s) (mutexes s) o mx mx1) as [Hown1 HH]; [by apply kinv_own|done..|].
  assert (Hpi1 : pi_all (tasks s) (blk_objs s) (<[o := mx1]> (mutexes s)) (waits (tasks s))).
  { eapply pi_upd; [|done]. exact Hpi. }
  case_decide as Hpos.
  - apply wp_exit_ret. match goal with |- kok ?x /\ _ => assert (x = s <| mutexes ::= <[o := mx1]> |>) as -> end.
    { apply kstate_ext; cbn; try reflexivity. unfold mx1. unfold upd. cbn. by rewrite Hwr. }
    split; [|eapply unlock_nested; try done; lia]. apply kok_intro; try done.
    rewrite <- (setq_id s) at 1. apply (kinv_set_mutex s _ _ o b); try done.
    + rewrite setq_id. by apply kinv_q.
    + cbn. lia.
  - assert (H1 : owner_nested mx = 1) by lia.
    match goal with |- wp _ _ ?x => assert (x = s <| irq_off := true |> <| mutexes := <[o := mx1]> (mutexes s) |>) as -> end.
    { apply kstate_ext; cbn; try reflexivity. unfold mx1. unfold upd. cbn. by rewrite Hwr. }
    apply (wp_unlock_last s o b a k mx mx1); try done. unfold mx1. by rewrite H1.
Qed.

(** C3: unlocking a mutex: only the owner can; a nested lock is counted down; at the last one
    the owner falls back to the priority its other mutexes ask for, and the mutex goes to the
    first, and so highest, waiter, which becomes ready and owns it, or becomes free.  Every
    kernel invariant is kept and after a hand-over the scheduler runs. *)
Theorem krhino_mutex_unlock_correct (s : kstate) (o : oid) (b : blk_obj_t)
    (Hok : kok s) (Ho : blk_objs s !! o = Some b) :
  wp (krhino_mutex_unlock (Some o)) (fun r s' => kok s' /\ mutex_unlock_spec s o r s') s.
Proof. by eapply wp_mutex_unlock. Qed.

End mutex.

#[local] Existing Instance linuxhost.

(** The running task locks its own mutex again. *)
Lemma krhino_mutex_lock_correct_witness :
  wp (krhino_mutex_lock (Some 21%positive) 5) (fun r s' => kok s' /\ mutex_lock_spec demo 21%positive 5 r s') demo.
Proof.
  apply (krhino_mutex_lock_correct demo 21%positive (demo_obj RHINO_MUTEX_OBJ_TYPE [3%positive]) 5 demo_ok);
    [reflexivity|vm_compute; split; discriminate|discriminate].
Defined.

(** The running task gives its mutex to the task that waits. *)
Lemma krhino_mutex_unlock_correct_witness :
  wp (krhino_mutex_unlock (Some 21%positive)) (fun r s' => kok s' /\ mutex_unlock_spec demo 21%positive r s') demo.
Proof.
  apply (krhino_mutex_unlock_correct demo 21%positive (demo_obj RHINO_MUTEX_OBJ_TYPE [3%positive]) demo_ok). reflexivity.
Defined.

End Mutex.
