(* ===== verification/Event.v ===== *)
(** * Event flags ([k_event.c]) *)
From S2P Require Import Prelude Config Kernel Sched TickList Pend Inv Demo Prio Own.
Import Sched TickList Pend Own.

Module Event.
Section event.
Context {cfg : RhinoConfig}.

Definition RHINO_FLAGS_AND_MASK : Z := 0x2.
Definition RHINO_FLAGS_CLEAR_MASK : Z := 0x1.
Definition RHINO_AND : Z := 0x02.
Definition RHINO_AND_CLEAR : Z := 0x03.
Definition RHINO_OR : Z := 0x00.
Definition RHINO_OR_CLEAR : Z := 0x01.

(** [x &= ~y] on 32-bit flags *)
Definition clear_flags (x y : Z) : Z := Z.land x (Z.lnot y).

(** does [cur] satisfy a request for [flags] under [opt]? *)
Definition flags_match (cur flags opt : Z) : bool :=
  if decide (Z.land opt RHINO_FLAGS_AND_MASK <> 0)
  then bool_decide (Z.land cur flags = flags) else bool_decide (0 < Z.land cur flags).

Definition event_create (event : option oid) (name : option addr) (fl mm_alloc_flag : Z) : K kstat_t :=
  match event, name with
  | Some o, Some _ =>
      modify (fun s => s
        <| blk_objs ::= fun m => <[o := mk_blk_obj [] BLK_POLICY_PRI
             (from_option obj_type RHINO_OBJ_TYPE_NONE (m !! o)) None]> m |>
        <| events ::= <[o := mk_kevent fl mm_alloc_flag]> |>);;
      cpsr ← RHINO_CRITICAL_ENTER;
      modify (fun s => s <| g_kobj_list ::= fun l => l <| event_list_head ::= fun q => q ++ [o] |> |>);;
      RHINO_CRITICAL_EXIT cpsr;;
      blk_upd o (fun b => b <| obj_type := RHINO_EVENT_OBJ_TYPE |>);;
      mret RHINO_SUCCESS
  | _, _ => mret RHINO_NULL_PTR
  end.

Definition krhino_event_create (event : option oid) (name : option addr) (fl : Z) : K kstat_t :=
  event_create event name fl K_OBJ_STATIC_ALLOC.

(** the two deletions differ in the allocation flag they require and in freeing *)
Definition event_del_body (o : oid) (flag : Z) : K (option kstat_t) :=
  cpsr ← RHINO_CRITICAL_ENTER;
  INTRPT_NESTED_LEVEL_CHK cpsr Some (
  b ← blk_get o;
  if decide (obj_type b <> RHINO_EVENT_OBJ_TYPE) then Some <$> exit_ret cpsr RHINO_KOBJ_TYPE_ERR else
  ev ← event_get o;
  if decide (event_mm_alloc_flag ev <> flag) then Some <$> exit_ret cpsr RHINO_KOBJ_DEL_ERR else
  blk_upd o (fun b => b <| obj_type := RHINO_OBJ_TYPE_NONE |>);;
  drain_blk_list o pend_task_rm;;
  event_upd o (fun ev => ev <| flags := 0 |>);;
  modify (fun s => s <| g_kobj_list ::= fun l => l <| event_list_head ::= list_rm o |> |>);;
  RHINO_CRITICAL_EXIT_SCHED cpsr;;
  mret None).

Definition krhino_event_del (event : option oid) : K kstat_t :=
  match event with
  | None => mret RHINO_NULL_PTR
  | Some o =>
      r ← event_del_body o K_OBJ_STATIC_ALLOC;
      mret (default RHINO_SUCCESS r)
  end.

(** [alloc] is the block [krhino_mm_alloc] returned; the result goes to [\*event]. *)
Definition krhino_event_dyn_create (event : option addr) (name : option addr) (fl : Z)
    (alloc : option oid) : K kstat_t :=
  match event with
  | None => mret RHINO_NULL_PTR
  | Some p =>
      match alloc with
      | None => mret RHINO_NO_MEM
      | Some event_obj =>
          stat ← event_create (Some event_obj) name fl K_OBJ_DYN_ALLOC;
          if decide (stat <> RHINO_SUCCESS) then krhino_mm_free event_obj;; mret stat
          else store p (Zpos event_obj);; mret stat
      end
  end.

Definition krhino_event_dyn_del (event : option oid) : K kstat_t :=
  match event with
  | None => mret RHINO_NULL_PTR
  | Some o =>
      r ← event_del_body o K_OBJ_DYN_ALLOC;
      match r with
      | Some stat => mret stat
      | None => krhino_mm_free o;; mret RHINO_SUCCESS
      end
  end.

(** up to the context switch; the task resumes with [pend_resume] *)
Definition krhino_event_get (event : option oid) (fl opt : Z) (actl_flags : option addr)
    (ticks : Z) : K kret :=
  match event, actl_flags with
  | Some o, Some p =>
      if decide (opt <> RHINO_AND /\ opt <> RHINO_OR /\ opt <> RHINO_AND_CLEAR /\ opt <> RHINO_OR_CLEAR)
      then mret (Ret RHINO_NO_THIS_EVENT_OPT) else
      cpsr ← RHINO_CRITICAL_ENTER;
      INTRPT_NESTED_LEVEL_CHK cpsr Ret (
      b ← blk_get o;
      if decide (obj_type b <> RHINO_EVENT_OBJ_TYPE) then Ret <$> exit_ret cpsr RHINO_KOBJ_TYPE_ERR else
      ev ← event_get o;
      if flags_match (flags ev) fl opt then
        store p (flags ev);;
        (if decide (Z.land opt RHINO_FLAGS_CLEAR_MASK <> 0)
         then event_upd o (fun ev => ev <| flags ::= fun f => clear_flags f fl |>)
         else mret tt);;
        Ret <$> exit_ret cpsr RHINO_SUCCESS
      else
      if decide (ticks = RHINO_NO_WAIT) then Ret <$> exit_ret cpsr RHINO_NO_PEND_WAIT else
      lock ← gets g_sched_lock;
      if decide (0 < lock) then Ret <$> exit_ret cpsr RHINO_SCHED_DISABLE else
      a ← active;
      task_upd a (fun k => k <| pend_option := opt |> <| pend_flags := fl |> <| pend_info := Some p |>);;
      pend_to_blk_obj o a ticks;;
      RHINO_CRITICAL_EXIT_SCHED cpsr;;
      mret Pending)
  | _, _ => mret (Ret RHINO_NULL_PTR)
  end.

(** [iter->next] for the node of [t] in the list of waiters; [None] is the head *)
Fixpoint next_waiter (t : tid) (l : list tid) : option tid :=
  match l with
  | [] => None
  | x :: l' => if decide (x = t) then head l' else next_waiter t l'
  end.

(** the waiters from [iter] on, against the flags read before the walk *)
Fixpoint event_walk (fuel : nat) (o : oid) (cur_event_flags : Z) (iter : option tid) : K unit :=
  match fuel with
  | O => fault
  | S fuel =>
      match iter with
      | None => mret tt
      | Some task =>
          b ← blk_get o;
          let iter_temp := next_waiter task (blk_list b) in
          k ← task_get task;
          (if flags_match cur_event_flags (pend_flags k) (pend_option k) then
             p ← deref (pend_info k);
             store p cur_event_flags;;
             pend_task_wakeup task;;
             k ← task_get task;
             if decide (Z.land (pend_option k) RHINO_FLAGS_CLEAR_MASK <> 0)
             then event_upd o (fun ev => ev <| flags ::= fun f => clear_flags f (pend_flags k) |>)
             else mret tt
           else mret tt);;
          event_walk fuel o cur_event_flags iter_temp
      end
  end.

Definition event_set (o : oid) (fl opt : Z) : K kstat_t :=
  cpsr ← RHINO_CRITICAL_ENTER;
  b ← blk_get o;
  if decide (obj_type b <> RHINO_EVENT_OBJ_TYPE) then exit_ret cpsr RHINO_KOBJ_TYPE_ERR else
  if decide (Z.land opt RHINO_FLAGS_AND_MASK <> 0) then
    event_upd o (fun ev => ev <| flags ::= fun f => Z.land f fl |>);;
    exit_ret cpsr RHINO_SUCCESS
  else
  event_upd o (fun ev => ev <| flags ::= fun f => Z.lor f fl |>);;
  ev ← event_get o;
  event_walk (S (length (blk_list b))) o (flags ev) (head (blk_list b));;
  sched_ret cpsr RHINO_SUCCESS.

Definition krhino_event_set (event : option oid) (fl opt : Z) : K kstat_t :=
  match event with
  | None => mret RHINO_NULL_PTR
  | Some o =>
      if decide (opt <> RHINO_AND /\ opt <> RHINO_OR) then mret RHINO_NO_THIS_EVENT_OPT
      else event_set o fl opt
  end.

(** ** Flags *)

Lemma land_below n x y : 0 <= n -> 0 <= x < 2 ^ n -> 0 <= Z.land x y < 2 ^ n.
Proof.
  intros Hn Hx. assert (Z.land x y = Z.land x y mod 2 ^ n) as ->; [|apply Z.mod_pos_bound; lia].
  rewrite <- Z.land_ones by done. rewrite <- Z.land_assoc, (Z.land_comm y), Z.land_assoc.
  by rewrite (Z.land_ones x n), Z.mod_small.
Qed.

Lemma lor_below n x y : 0 <= n -> 0 <= x < 2 ^ n -> 0 <= y < 2 ^ n -> 0 <= Z.lor x y < 2 ^ n.
Proof.
  intros Hn Hx Hy. assert (Z.lor x y = Z.lor x y mod 2 ^ n) as ->; [|apply Z.mod_pos_bound; lia].
  rewrite <- Z.land_ones, Z.land_lor_distr_l, !Z.land_ones, !Z.mod_small by done. done.
Qed.

Lemma clear_flags_range x y : 0 <= x < 2 ^ 32 -> 0 <= clear_flags x y < 2 ^ 32.
Proof. by apply land_below. Qed.

(** ** Waiting for flags *)

Lemma obj_event s o b :
  kinv s -> blk_objs s !! o = Some b -> obj_type b = RHINO_EVENT_OBJ_TYPE ->
  exists ev, events s !! o = Some ev /\ 0 <= flags ev < 2 ^ 32.
Proof.
  intros [] Hb Hty. pose proof (inv_obj o b Hb) as Hob. unfold obj_ok in Hob. by rewrite Hty in Hob.
Qed.

(** The branches of [krhino_event_get]. *)
Inductive event_get_spec (s : kstate) (o : oid) (fl opt : Z) (p : addr) (ticks : Z) : kret -> kstate -> Prop :=
| get_opt :
    opt ∉ [RHINO_AND; RHINO_OR; RHINO_AND_CLEAR; RHINO_OR_CLEAR] ->
    event_get_spec s o fl opt p ticks (Ret RHINO_NO_THIS_EVENT_OPT) s
| get_intrpt :
    0 < g_intrpt_nested_level s -> event_get_spec s o fl opt p ticks (Ret RHINO_NOT_CALLED_BY_INTRPT) s
| get_type b :
    blk_objs s !! o = Some b -> obj_type b <> RHINO_EVENT_OBJ_TYPE ->
    event_get_spec s o fl opt p ticks (Ret RHINO_KOBJ_TYPE_ERR) s
| get_match ev :
    events s !! o = Some ev -> flags_match (flags ev) fl opt = true ->
    event_get_spec s o fl opt p ticks (Ret RHINO_SUCCESS)
      (s <| umem ::= <[p := flags ev]> |>
         <| events ::= <[o := ev <| flags := if decide (Z.land opt RHINO_FLAGS_CLEAR_MASK <> 0)
                                             then clear_flags (flags ev) fl else flags ev |>]> |>)
| get_no_wait ev :
    events s !! o = Some ev -> flags_match (flags ev) fl opt = false -> ticks = RHINO_NO_WAIT ->
    event_get_spec s o fl opt p ticks (Ret RHINO_NO_PEND_WAIT) s
| get_locked ev :
    events s !! o = Some ev -> flags_match (flags ev) fl opt = false -> ticks <> RHINO_NO_WAIT ->
    0 < g_sched_lock s -> event_get_spec s o fl opt p ticks (Ret RHINO_SCHED_DISABLE) s
| get_block ev b a k k' l rq' L' s' :
    events s !! o = Some ev -> flags_match (flags ev) fl opt = false -> ticks <> RHINO_NO_WAIT ->
    g_sched_lock s = 0 -> blk_objs s !! o = Some b -> g_active_task s = Some a -> tasks s !! a = Some k ->
    blocked_task o (k <| pend_option := opt |> <| pend_flags := fl |> <| pend_info := Some p |>) k' ->
    queued (prio_of (<[a := k']> (tasks s))) a b l ->
    switched (setq s rq' (<[a := k']> (tasks s)) (<[o := b <| blk_list := l |>]> (blk_objs s)) L') s' ->
    event_get_spec s o fl opt p ticks Pending s'.

Lemma kok_event_upd s o ev : kok s -> 0 <= flags ev < 2 ^ 32 -> kok (s <| events ::= <[o := ev]> |>).
Proof. intros (? & ? & ? & ?) Hev. apply kok_intro; try done. by apply kinv_event_upd. Qed.

Lemma wp_krhino_event_get (s : kstate) (o : oid) (b : blk_obj_t) (fl opt : Z) (p : addr) (ticks : Z)
    (Hok : kok s) (Ho : blk_objs s !! o = Some b) (Ht : 0 <= ticks <= RHINO_WAIT_FOREVER)
    (Hidle : g_active_task s <> Some (g_idle_task s)) :
  wp (krhino_event_get (Some o) fl opt (Some p) ticks)
    (fun r s' => kok s' /\ event_get_spec s o fl opt p ticks r s') s.
Proof.
  pose proof Hok as (Hinv & Hpi & Hsch & Hcnt). pose proof Hcnt as [Hc1 Hc2].
  unfold krhino_event_get. case_decide as Hopt.
  { apply wp_ret. split; [done|]. apply get_opt. rewrite !elem_of_cons, elem_of_nil. tauto. }
  apply wp_bind, wp_critical_enter.
  apply wp_nested_chk; [rewrite irq_restore; split; [done|by apply get_intrpt]|]. intros Hn. cbn in Hn.
  apply wp_bind. eapply wp_blk_get; [done|].
  case_decide as Hty; [apply wp_fmap, wp_exit_ret; rewrite irq_restore; split; [done|by eapply get_type]|].
  destruct (obj_event s o b Hinv Ho Hty) as (ev & Hev & Hrange).
  apply wp_bind. eapply wp_event_get; [done|]. destruct (flags_match (flags ev) fl opt) eqn:Hm.
  - apply wp_bind, wp_modify, wp_bind.
    assert (Hok1 : forall f, 0 <= f < 2 ^ 32 -> kok (s <| umem ::= <[p := flags ev]> |> <| events ::= <[o := ev <| flags := f |>]> |>)).
    { intros f Hf. by apply (kok_event_upd (s <| umem ::= <[p := flags ev]> |>)). }
    pose proof (get_match s o fl opt p ticks ev Hev Hm) as Hspec. case_decide as Hc.
    + eapply wp_event_upd; [done|]. apply wp_fmap, wp_exit_ret.
      match goal with |- kok ?x /\ _ => match type of Hspec with event_get_spec _ _ _ _ _ _ _ ?y =>
        assert (x = y) as -> by done end end.
      split; [|done]. by apply Hok1, clear_flags_range.
    + apply wp_ret, wp_fmap, wp_exit_ret.
      match goal with |- kok ?x /\ _ => match type of Hspec with event_get_spec _ _ _ _ _ _ _ ?y =>
        assert (x = y) as -> end end.
      { apply kstate_ext; cbn; try reflexivity. symmetry. apply insert_id. rewrite Hev. f_equal. by destruct ev. }
      split; [|done]. by apply Hok1.
  - case_decide as Hnw; [apply wp_fmap, wp_exit_ret; rewrite irq_restore; split; [done|by eapply get_no_wait]|].
    apply wp_bind, wp_gets. cbn [g_sched_lock].
    case_decide as Hlk; cbn in Hlk; [apply wp_fmap, wp_exit_ret; rewrite irq_restore; split; [done|by eapply get_locked]|].
    destruct (active_ready s Hok Hn) as (a & k & Ha & Hk & Hr).
    apply wp_bind. eapply wp_active; [done|]. apply wp_bind. eapply wp_task_upd; [done|].
    set (k1 := k <| pend_option := opt |> <| pend_flags := fl |> <| pend_info := Some p |>).
    match goal with |- wp _ _ ?x => assert (x = (setq s (g_ready_queue s) (<[a := k1]> (tasks s))
      (blk_objs s) (g_tick_head s)) <| irq_off := true |>) as -> by done end.
    apply (wp_block_noted s o b a k k1); try done.
    { congruence. }
    { apply unmoved_fields; try done; [by eapply (inv_task _ _ _ _ _ _ _ _ _ _ _ _ Hinv a)|by rewrite Hr]. }
    { intros l. unfold obj_ok. cbn. rewrite Hty. by exists ev. }
    { by rewrite Hty. }
    { unfold RHINO_NO_WAIT in Hnw. lia. }
    { lia. }
    intros rq' k' l L' s' Hk' Hl Hok' Hsw. split; [done|].
    apply (get_block s o fl opt p ticks ev b a k k' l rq' L'); try done. lia.
Qed.

(** Getting event flags: all of the requested flags, or any of them, as the option says;
    the flags found are reported and, if asked for, the requested ones cleared in the same
    critical section; otherwise the call refuses or blocks the caller with its request. *)
Theorem krhino_event_get_correct (s : kstate) (o : oid) (b : blk_obj_t) (fl opt : Z) (p : addr) (ticks : Z)
    (Hok : kok s) (Ho : blk_objs s !! o = Some b) (Ht : 0 <= ticks <= RHINO_WAIT_FOREVER)
    (Hidle : g_active_task s <> Some (g_idle_task s)) :
  wp (krhino_event_get (Some o) fl opt (Some p) ticks)
    (fun r s' => kok s' /\ event_get_spec s o fl opt p ticks r s') s.
Proof. by eapply wp_krhino_event_get. Qed.

(** ** Setting flags *)

Definition matches (cur : Z) (k : ktask_t) : bool := flags_match cur (pend_flags k) (pend_option k).

(** the waiters, among those of [l], whose request [cur] satisfies *)
Definition satisfied (T : gmap tid ktask_t) (cur : Z) (l : list tid) : list ktask_t :=
  filter (fun k => matches cur k) (omap (fun t => T !! t) l).

(** the flags they leave, and the words they are told *)
Definition flags_left (ks : list ktask_t) (f : Z) : Z :=
  foldl (fun f k => if decide (Z.land (pend_option k) RHINO_FLAGS_CLEAR_MASK <> 0)
                    then clear_flags f (pend_flags k) else f) f ks.
Definition told (cur : Z) (ks : list ktask_t) (m : gmap addr Z) : gmap addr Z :=
  foldl (fun m k => match pend_info k with Some p => <[p := cur]> m | None => m end) m ks.

(** every task that waits for [o] with a request that [cur] satisfies is woken *)
Definition wake_matching (o : oid) (cur : Z) (k : ktask_t) : ktask_t :=
  if matches cur k then wake_if o BLK_FINISH k else k.

(** the state after the waiters [l] of [o] have been seen *)
Definition walked (s : kstate) (o : oid) (cur : Z) (b : blk_obj_t) (ev : kevent_t) (l : list tid)
    (rq' : runqueue_t) (L' : list tid) : kstate :=
  (setq s rq' (wake_matching o cur <$> tasks s)
     (<[o := b <| blk_list := filter (fun t => ~ from_option (matches cur) false (tasks s !! t)) (blk_list b) |>]> (blk_objs s)) L')
  <| events ::= <[o := ev <| flags := flags_left (satisfied (tasks s) cur l) (flags ev) |>]> |>
  <| umem := told cur (satisfied (tasks s) cur l) (umem s) |>.

(** every waiter for an event told where its flags go *)
Definition event_waiters (s : kstate) (o : oid) : Prop :=
  forall t k, tasks s !! t = Some k -> is_pend (task_state k) = true -> blk_obj k = Some o ->
    is_Some (pend_info k).

Lemma next_waiter_app t (l1 l2 : list tid) : t ∉ l1 -> next_waiter t (l1 ++ t :: l2) = head l2.
Proof.
  induction l1 as [|x l1 IH]; cbn; intros Ht; [by rewrite decide_True|].
  rewrite decide_False by set_solver. apply IH. set_solver.
Qed.

Lemma wake_matching_none o cur (T : gmap tid ktask_t) :
  (forall t k, T !! t = Some k -> waits T o t -> matches cur k = false) -> wake_matching o cur <$> T = T.
Proof.
  intros Hn. apply map_eq. intros t. rewrite lookup_fmap. destruct (T !! t) as [k|] eqn:Ht; [|done].
  cbn. unfold wake_matching, wake_if, wake_with. destruct (matches cur k) eqn:Hm; [|done]. rewrite decide_False; [done|].
  intros [Hp Ho]. rewrite (Hn t k) in Hm; [done..|]. by exists k.
Qed.

Lemma wake_matching_step o cur (T : gmap tid ktask_t) t k :
  T !! t = Some k -> is_pend (task_state k) = true -> blk_obj k = Some o -> matches cur k = true ->
  wake_matching o cur <$> <[t := woken_task BLK_FINISH k]> T = wake_matching o cur <$> T.
Proof.
  intros Ht Hp Ho Hm. rewrite fmap_insert. unfold wake_matching at 1.
  rewrite wake_if_woken. apply insert_id.
  rewrite lookup_fmap, Ht. cbn. unfold wake_matching, wake_if, wake_with. rewrite Hm, decide_True by done.
  by destruct (matches _ _).
Qed.

Lemma satisfied_cons T cur t k l :
  T !! t = Some k ->
  satisfied T cur (t :: l) = (if matches cur k then [k] else []) ++ satisfied T cur l.
Proof.
  intros Ht. unfold satisfied. cbn [omap list_omap]. rewrite Ht, filter_cons.
  by destruct (matches cur k).
Qed.

Lemma satisfied_ext T T' cur l : (forall t, t ∈ l -> T' !! t = T !! t) -> satisfied T' cur l = satisfied T cur l.
Proof.
  intros He. unfold satisfied. f_equal. apply list_omap_ext, Forall_Forall2_diag, Forall_forall. done.
Qed.

Lemma flags_left_range ks f : 0 <= f < 2 ^ 32 -> 0 <= flags_left ks f < 2 ^ 32.
Proof.
  revert f. induction ks as [|k ks IH]; cbn; [done|]. intros f Hf. apply IH. case_decide; [|done].
  by apply clear_flags_range.
Qed.

Lemma flags_left_cons cur k ks f :
  flags_left ((if matches cur k then [k] else []) ++ ks) f =
  flags_left ks (if matches cur k then
    if decide (Z.land (pend_option k) RHINO_FLAGS_CLEAR_MASK <> 0) then clear_flags f (pend_flags k) else f
  else f).
Proof. by destruct (matches cur k). Qed.

Lemma walked_nil s o cur b ev :
  blk_objs s !! o = Some b -> events s !! o = Some ev ->
  bl_ok (blk_objs s) (waits (tasks s)) (prio_of (tasks s)) ->
  (forall t, t ∈ blk_list b -> from_option (matches cur) false (tasks s !! t) = false) ->
  walked s o cur b ev [] (g_ready_queue s) (g_tick_head s) = s.
Proof.
  intros Ho Hev Hbl Hk. unfold walked. rewrite wake_matching_none.
  - apply kstate_ext; cbn; try reflexivity.
    + rewrite filter_id by (intros t Ht; rewrite Hk by done; tauto).
      apply insert_id. rewrite Ho. by destruct b.
    + apply insert_id. rewrite Hev. by destruct ev.
  - intros t k Ht Hw. apply (bl_mem _ _ _ Hbl o b t Ho) in Hw. specialize (Hk t Hw). by rewrite Ht in Hk.
Qed.

(** One waiter more is woken. *)
Lemma walked_step s o cur b ev t (kept rest : list tid) k p rq' L' rq2 L2 :
  tasks s !! t = Some k -> is_pend (task_state k) = true -> blk_obj k = Some o ->
  matches cur k = true -> pend_info k = Some p -> blk_list b = kept ++ t :: rest -> t ∉ kept -> t ∉ rest ->
  let f := if decide (Z.land (pend_option k) RHINO_FLAGS_CLEAR_MASK <> 0)
           then clear_flags (flags ev) (pend_flags k) else flags ev in
  let b1 := b <| blk_list := list_rm t (blk_list b) |> in
  let ev1 := ev <| flags := f |> in
  let s1 := (setq (s <| umem ::= <[p := cur]> |>) rq' (<[t := woken_task BLK_FINISH k]> (tasks s))
               (<[o := b1]> (blk_objs s)) L') <| events ::= <[o := ev1]> |> in
  walked s o cur b ev (t :: rest) rq2 L2 = walked s1 o cur b1 ev1 rest rq2 L2.
Proof.
  intros Ht Hp Ho Hm Hi Hl Hk Hr f b1 ev1 s1. unfold walked.
  rewrite (satisfied_cons _ _ t k), Hm by done. cbn [tasks s1 setq app].
  assert (Hsat : satisfied (tasks s1) cur rest = satisfied (tasks s) cur rest).
  { apply satisfied_ext. intros x Hx. cbn. apply lookup_insert_ne. intros ->. done. }
  cbn [tasks s1 setq] in Hsat. apply kstate_ext; cbn; try reflexivity.
  - by rewrite (wake_matching_step o cur _ t k).
  - rewrite insert_insert_eq. f_equal. unfold upd; cbn. f_equal.
    rewrite Hl, list_rm_app, list_rm_cons, (list_rm_id t kept) by done.
    rewrite !filter_app, filter_cons_False by (rewrite Ht; cbn; rewrite Hm; intros Hx; by apply Hx).
    f_equal; apply filter_ext; intros x Hx; by rewrite lookup_insert_ne by (intros ->; done).
  - rewrite insert_insert_eq. unfold s1 in Hsat. cbn in Hsat. rewrite Hsat. done.
  - unfold s1 in Hsat. cbn in Hsat. rewrite Hsat, Hi. done.
Qed.

Lemma wp_event_walk cur n o b ev (kept rest : list tid) Q s :
  kinv s -> pi_inv s -> locked_ready s -> blk_objs s !! o = Some b ->
  obj_type b = RHINO_EVENT_OBJ_TYPE -> blk_list b = kept ++ rest -> (length rest < n)%nat ->
  events s !! o = Some ev -> 0 <= flags ev < 2 ^ 32 -> event_waiters s o ->
  (forall t, t ∈ kept -> from_option (matches cur) false (tasks s !! t) = false) ->
  (forall rq' L',
     let s' := walked s o cur b ev rest rq' L' in
     kinv s' /\ pi_inv s' /\ locked_ready s' -> Q tt s') ->
  wp (event_walk n o cur (head rest)) Q s.
Proof.
  revert s b ev kept rest. induction n as [|n IH];
    intros s b ev kept rest Hinv Hpi Hlr Ho Hty Hl Hlen Hev Hrange Hwt Hkept HQ; [lia|].
  pose proof (inv_blk _ _ _ _ _ _ _ _ _ _ _ _ Hinv) as Hbl.
  destruct rest as [|t rest]; cbn [event_walk head].
  { apply wp_ret. specialize (HQ (g_ready_queue s) (g_tick_head s)). cbv zeta in HQ.
    rewrite app_nil_r in Hl. rewrite walked_nil in HQ; [by apply HQ|done..|]. by rewrite Hl. }
  apply wp_bind. eapply wp_blk_get; [done|].
  pose proof (bl_nodup _ _ _ Hbl o b Ho) as Hnd. rewrite Hl in Hnd.
  assert (Htk : t ∉ kept /\ t ∉ rest).
  { apply NoDup_app in Hnd as (_ & Hnd & Hnd2). apply NoDup_cons in Hnd2 as [? _]. split; [|done].
    intros Ht. apply (Hnd t Ht). set_solver. }
  destruct Htk as [Htk Htr].
  assert (Hw : waits (tasks s) o t) by (apply (bl_mem _ _ _ Hbl o b); [done|]; rewrite Hl; set_solver).
  pose proof Hw as (k & Ht & Hp & Hbo).
  rewrite Hl, next_waiter_app by done.
  apply wp_bind. eapply wp_task_get; [done|]. cbv zeta. apply wp_bind.
  destruct (flags_match cur (pend_flags k) (pend_option k)) eqn:Hm.
  - destruct (Hwt t k Ht Hp Hbo) as [p Hinfo].
    apply wp_bind. eapply wp_deref; [done|]. apply wp_bind, wp_modify. apply wp_bind.
    set (s1 := s <| umem ::= <[p := cur]> |>).
    eapply (wp_wake_waiter (woken_task BLK_FINISH) _ s1 o b); [apply woken_task_waker|apply wakes_wakeup|done..|by rewrite Hty|done|].
    intros k' rq' L' Hk' _ _ s2 (Hinv2 & Hpi2 & Hlr2). assert (k' = k) as -> by (cbn in Hk'; congruence).
    assert (Hrm : list_rm t (blk_list b) = kept ++ rest).
    { rewrite Hl, list_rm_app, list_rm_cons, list_rm_id by done. done. }
    set (f1 := if decide (Z.land (pend_option k) RHINO_FLAGS_CLEAR_MASK <> 0)
               then clear_flags (flags ev) (pend_flags k) else flags ev).
    assert (Hf1 : 0 <= f1 < 2 ^ 32) by (unfold f1; case_decide; [by apply clear_flags_range|done]).
    apply wp_bind. eapply wp_task_get; [cbn; apply lookup_insert_eq|].
    cut (wp (event_walk n o cur (head rest)) Q (s2 <| events ::= <[o := ev <| flags := f1 |>]> |>)).
    { intros Hrest. unfold f1 in Hrest. case_decide as Hc; [rewrite decide_True by done|rewrite decide_False by tauto].
      - eapply wp_event_upd; [done|]. exact Hrest.
      - apply wp_ret. match type of Hrest with wp _ _ ?x => assert (x = s2) as Heq end; [|by rewrite Heq in Hrest].
        apply kstate_ext; cbn; try reflexivity. apply insert_id. rewrite Hev. by destruct ev. }
    eapply (IH _ (b <| blk_list := list_rm t (blk_list b) |>) (ev <| flags := f1 |>) kept rest); try done.
    + by apply kinv_event_upd.
    + cbn. apply lookup_insert_eq.
    + cbn in Hlen. lia.
    + cbn. apply lookup_insert_eq.
    + intros x kx Hx Hpx Hox. cbn in Hx. apply lookup_insert_Some in Hx as [[<- <-]|[_ Hx]]; [done|by eapply Hwt].
    + intros x Hx. cbn. rewrite lookup_insert_ne by (intros ->; done). by apply Hkept.
    + intros rq2 L2. cbv zeta.
      match goal with |- kinv ?x /\ _ -> _ => assert (x = walked s o cur b ev (t :: rest) rq2 L2) as -> end;
        [|by apply HQ].
      symmetry. by apply (walked_step s o cur b ev t kept rest k p).
  - apply wp_ret. eapply (IH s b ev (kept ++ [t]) rest); try done.
    + by rewrite <- app_assoc.
    + cbn in Hlen. lia.
    + intros x. rewrite elem_of_app, list_elem_of_singleton. intros [?| ->]; [by apply Hkept|]. by rewrite Ht.
    + intros rq2 L2. cbv zeta.
      assert (walked s o cur b ev rest rq2 L2 = walked s o cur b ev (t :: rest) rq2 L2) as ->; [|by apply HQ].
      unfold walked. rewrite (satisfied_cons _ _ t k) by done.
      by assert (matches cur k = false) as -> by done.
Qed.

(** The branches of [krhino_event_set]. *)
Inductive event_set_spec (s : kstate) (o : oid) (fl opt : Z) : kstat_t -> kstate -> Prop :=
| set_opt :
    opt <> RHINO_AND -> opt <> RHINO_OR -> event_set_spec s o fl opt RHINO_NO_THIS_EVENT_OPT s
| set_type b :
    blk_objs s !! o = Some b -> obj_type b <> RHINO_EVENT_OBJ_TYPE ->
    event_set_spec s o fl opt RHINO_KOBJ_TYPE_ERR s
| set_and ev :
    opt = RHINO_AND -> events s !! o = Some ev ->
    event_set_spec s o fl opt RHINO_SUCCESS
      (s <| events ::= <[o := ev <| flags := Z.land (flags ev) fl |>]> |>)
| set_or ev b rq' L' s' :
    opt = RHINO_OR -> events s !! o = Some ev -> blk_objs s !! o = Some b ->
    switched (walked s o (Z.lor (flags ev) fl) b (ev <| flags := Z.lor (flags ev) fl |>) (blk_list b) rq' L') s' ->
    event_set_spec s o fl opt RHINO_SUCCESS s'.

Lemma wp_krhino_event_set (s : kstate) (o : oid) (b : blk_obj_t) (fl opt : Z)
    (Hok : kok s) (Ho : blk_objs s !! o = Some b) (Hfl : 0 <= fl < 2 ^ 32) (Hwt : event_waiters s o) :
  wp (krhino_event_set (Some o) fl opt) (fun r s' => kok s' /\ event_set_spec s o fl opt r s') s.
Proof.
  pose proof Hok as (Hinv & Hpi & Hsch & Hcnt). unfold krhino_event_set. case_decide as Hopt.
  { apply wp_ret. split; [done|]. apply set_opt; tauto. }
  unfold event_set. apply wp_bind, wp_critical_enter. apply wp_bind. eapply wp_blk_get; [done|].
  case_decide as Hty; [apply wp_exit_ret; rewrite irq_restore; split; [done|by eapply set_type]|].
  destruct (obj_event s o b Hinv Ho Hty) as (ev & Hev & Hrange). case_decide as Hand.
  - apply wp_bind. eapply wp_event_upd; [done|]. apply wp_exit_ret.
    assert (opt = RHINO_AND) as ->.
    { destruct (decide (opt = RHINO_AND)); [done|]. destruct (decide (opt = RHINO_OR)) as [->|]; [done|tauto]. }
    pose proof (set_and s o fl RHINO_AND ev eq_refl Hev) as Hspec.
    match goal with |- kok ?x /\ _ => match type of Hspec with event_set_spec _ _ _ _ _ ?y =>
      assert (x = y) as -> by done end end.
    split; [|done]. apply kok_event_upd; [done|]. by apply land_below.
  - assert (opt = RHINO_OR) as ->.
    { destruct (decide (opt = RHINO_OR)); [done|]. destruct (decide (opt = RHINO_AND)) as [->|]; [done|tauto]. }
    apply wp_bind. eapply wp_event_upd; [done|]. set (ev1 := ev <| flags := Z.lor (flags ev) fl |>).
    assert (Hr1 : 0 <= flags ev1 < 2 ^ 32) by by apply lor_below.
    apply wp_bind. eapply wp_event_get; [cbn; apply lookup_insert_eq|]. apply wp_bind.
    set (s1 := s <| events ::= <[o := ev1]> |>).
    eapply (wp_event_walk (flags ev1) _ o b ev1 [] (blk_list b)); try done.
    + by apply (kinv_event_upd s).
    + by apply (kok_locked_ready s).
    + cbn. lia.
    + cbn. apply lookup_insert_eq.
    + intros t Ht. by apply not_elem_of_nil in Ht.
    + intros rq' L'. cbv zeta. intros (Hinv1 & Hpi1 & Hlr1). apply wp_sched_ret; try done.
      intros s' Hok' Hsw. split; [done|]. eapply (set_or s o fl _ ev b rq' L'); try done.
      match goal with Hsw : switched ?x _ |- switched ?y _ => assert (y = x) as -> end; [|done].
      unfold walked. apply kstate_ext; cbn; try reflexivity. by rewrite insert_insert_eq.
Qed.

(** C28: setting event flags: clearing by "and" wakes nobody; setting by "or" looks at every
    waiter once, in the order of the list and against the same flags: exactly the waiters
    whose request they satisfy are told the flags and woken, the others keep their places,
    and the flags they asked to clear are cleared after all of them have been served. *)
Theorem krhino_event_set_correct (s : kstate) (o : oid) (b : blk_obj_t) (fl opt : Z)
    (Hok : kok s) (Ho : blk_objs s !! o = Some b) (Hfl : 0 <= fl < 2 ^ 32) (Hwt : event_waiters s o) :
  wp (krhino_event_set (Some o) fl opt) (fun r s' => kok s' /\ event_set_spec s o fl opt r s') s.
Proof. by eapply wp_krhino_event_set. Qed.

End event.

(** ** Witnesses *)

#[local] Existing Instance linuxhost.


Lemma krhino_event_set_correct_witness :
  wp (krhino_event_set (Some 22%positive) 6 0)
    (fun r s' => kok s' /\ event_set_spec demo 22%positive 6 0 r s') demo.
Proof.
  apply (krhino_event_set_correct demo 22%positive (demo_obj RHINO_EVENT_OBJ_TYPE [8%positive]) 6 0 demo_ok);
    [reflexivity|vm_compute; split; [discriminate|reflexivity]|].
  intros t k Hk Hp Ho. cbn in Hk. task_cases Hk; cbn in Hp, Ho; try discriminate. by eexists.
Defined.

End Event.
