(* ===== verification/Queue.v ===== *)
(** * Message queues ([k_queue.c])

    A queue holds pointers in a ring buffer of fixed blocks.  A message for a waiting task
    is left in its [msg] field instead. *)
From S2P Require Import Prelude Config Kernel Sched TickList Pend Inv Demo Prio Own.
From S2P Require Ringbuf.
Import Sched TickList Pend Own.

Module Queue.
Section queue.
Context {cfg : RhinoConfig}.

Definition WAKE_ONE_TASK : Z := 0.
Definition WAKE_ALL_TASK : Z := 1.
Definition QMSG_SEND_TO_FRONT : Z := 3.
Definition QMSG_SEND_TO_END : Z := 4.

(** the size of a pointer *)
Definition ptr_size : Z := size_bits / 8.

(** the bytes of the little-endian object that holds [v] *)
Definition ptr_bytes (v : Z) : list Z :=
  (fun i => Ringbuf.Ringbuf.byte_of v (Z.of_nat i)) <$> seq 0 (Z.to_nat ptr_size).

Fixpoint ptr_of_bytes (l : list Z) : Z :=
  match l with [] => 0 | b :: l' => Z.lor b (Z.shiftl (ptr_of_bytes l') 8) end.

(** [n] bytes of a caller's buffer *)
Definition buffer (p : addr) (n : nat) : K (list Z) := fun s =>
  m ← ubufs s !! p; m ← Ringbuf.Ringbuf.mem_read m 0 n; Some (m, s).

Definition task_msg_recv (task : tid) (m : Z) : K unit :=
  task_upd task (fun k => k <| msg := m |>);;
  pend_task_wakeup task.

Definition queue_create (queue : option oid) (name start : option addr) (msg_num mm_alloc_flag : Z)
  : K kstat_t :=
  match queue, start, name with
  | Some o, Some st, Some _ =>
      if decide (msg_num = 0) then mret RHINO_INV_PARAM else
      mem ← buffer st (Z.to_nat (wrap size_bits (msg_num * ptr_size)));
      modify (fun s => s
        <| blk_objs ::= fun m => <[o := mk_blk_obj [] BLK_POLICY_PRI
             (from_option obj_type RHINO_OBJ_TYPE_NONE (m !! o)) None]> m |>
        <| queues ::= <[o := mk_kqueue
             (Ringbuf.Ringbuf.ringbuf_init mem Ringbuf.Ringbuf.RINGBUF_TYPE_FIX (Z.to_nat ptr_size))
             st msg_num 0 0 mm_alloc_flag]> |>);;
      cpsr ← RHINO_CRITICAL_ENTER;
      modify (fun s => s <| g_kobj_list ::= fun l => l <| queue_list_head ::= fun q => q ++ [o] |> |>);;
      RHINO_CRITICAL_EXIT cpsr;;
      blk_upd o (fun b => b <| obj_type := RHINO_QUEUE_OBJ_TYPE |>);;
      mret RHINO_SUCCESS
  | _, _, _ => mret RHINO_NULL_PTR
  end.

Definition krhino_queue_create (queue : option oid) (name start : option addr) (msg_num : Z) : K kstat_t :=
  queue_create queue name start msg_num K_OBJ_STATIC_ALLOC.

Definition queue_ringbuf_reset (o : oid) : K unit :=
  queue_upd o (fun q => q <| q_ringbuf ::= Ringbuf.Ringbuf.ringbuf_reset |>).

(** the two deletions differ in the allocation flag they require and in freeing *)
Definition queue_del_body (o : oid) (flag : Z) : K (option kstat_t) :=
  cpsr ← RHINO_CRITICAL_ENTER;
  INTRPT_NESTED_LEVEL_CHK cpsr Some (
  b ← blk_get o;
  if decide (obj_type b <> RHINO_QUEUE_OBJ_TYPE) then Some <$> exit_ret cpsr RHINO_KOBJ_TYPE_ERR else
  q ← queue_get o;
  if decide (queue_mm_alloc_flag q <> flag) then Some <$> exit_ret cpsr RHINO_KOBJ_DEL_ERR else
  blk_upd o (fun b => b <| obj_type := RHINO_OBJ_TYPE_NONE |>);;
  drain_blk_list o pend_task_rm;;
  modify (fun s => s <| g_kobj_list ::= fun l => l <| queue_list_head ::= list_rm o |> |>);;
  queue_ringbuf_reset o;;
  RHINO_CRITICAL_EXIT_SCHED cpsr;;
  mret None).

Definition krhino_queue_del (queue : option oid) : K kstat_t :=
  match queue with
  | None => mret RHINO_NULL_PTR
  | Some o =>
      r ← queue_del_body o K_OBJ_STATIC_ALLOC;
      mret (default RHINO_SUCCESS r)
  end.

(** [alloc] and [msg_start] are what the two calls of [krhino_mm_alloc] returned. *)
Definition krhino_queue_dyn_create (queue name : option addr) (msg_num : Z)
    (alloc : option oid) (msg_start : option addr) : K kstat_t :=
  match queue with
  | None => mret RHINO_NULL_PTR
  | Some p =>
      match alloc with
      | None => mret RHINO_NO_MEM
      | Some queue_obj =>
          match msg_start with
          | None => krhino_mm_free queue_obj;; mret RHINO_NO_MEM
          | Some st =>
              stat ← queue_create (Some queue_obj) name (Some st) msg_num K_OBJ_DYN_ALLOC;
              if decide (stat <> RHINO_SUCCESS) then
                krhino_mm_free st;; krhino_mm_free queue_obj;; mret stat
              else store p (Zpos queue_obj);; mret stat
          end
      end
  end.

Definition krhino_queue_dyn_del (queue : option oid) : K kstat_t :=
  match queue with
  | None => mret RHINO_NULL_PTR
  | Some o =>
      r ← queue_del_body o K_OBJ_DYN_ALLOC;
      match r with
      | Some stat => mret stat
      | None =>
          q ← queue_get o;
          krhino_mm_free (queue_start q);; krhino_mm_free o;; mret RHINO_SUCCESS
      end
  end.

(** [notify] is [handle->notify] of the object's set. *)
Definition msg_send (notify : oid -> sid -> K unit) (p_q : option oid) (p_void : Z)
    (opt_send_method opt_wake_all : Z) : K kstat_t :=
  match p_q with
  | None => mret RHINO_NULL_PTR
  | Some o =>
      cpsr ← RHINO_CRITICAL_ENTER;
      b ← blk_get o;
      if decide (obj_type b <> RHINO_QUEUE_OBJ_TYPE) then exit_ret cpsr RHINO_KOBJ_TYPE_ERR else
      q ← queue_get o;
      if decide (q_size q <= q_cur_num q) then exit_ret cpsr RHINO_QUEUE_FULL else
      match blk_list b with
      | [] =>
          queue_upd o (fun q => q <| q_cur_num ::= fun n => n + 1 |>);;
          q ← queue_get o;
          when (bool_decide (q_peak_num q < q_cur_num q))
            (queue_upd o (fun q => q <| q_peak_num := q_cur_num q |>));;
          q ← queue_get o;
          r ← deref (if decide (opt_send_method = QMSG_SEND_TO_END)
                     then Ringbuf.Ringbuf.ringbuf_push (q_ringbuf q) (ptr_bytes p_void) (Z.to_nat ptr_size)
                     else Ringbuf.Ringbuf.ringbuf_head_push (q_ringbuf q) (ptr_bytes p_void) (Z.to_nat ptr_size));
          queue_upd o (fun q => q <| q_ringbuf := r.2 |>);;
          RHINO_CRITICAL_EXIT cpsr;;
          b ← blk_get o;
          match handle b with Some h => notify o h | None => mret tt end;;
          mret RHINO_SUCCESS
      | first :: _ =>
          (if decide (opt_wake_all <> 0) then drain_blk_list o (fun t => task_msg_recv t p_void)
           else task_msg_recv first p_void);;
          sched_ret cpsr RHINO_SUCCESS
      end
  end.

Definition krhino_queue_front_send notify (queue : option oid) (msg : Z) : K kstat_t :=
  msg_send notify queue msg QMSG_SEND_TO_FRONT WAKE_ONE_TASK.
Definition krhino_queue_back_send notify (queue : option oid) (msg : Z) : K kstat_t :=
  msg_send notify queue msg QMSG_SEND_TO_END WAKE_ONE_TASK.
Definition krhino_queue_all_send notify (queue : option oid) (msg opt : Z) : K kstat_t :=
  msg_send notify queue msg opt WAKE_ALL_TASK.

(** up to the context switch *)
Definition krhino_queue_recv (queue : option oid) (ticks : Z) (msg : option addr) : K kret :=
  match queue, msg with
  | Some o, Some p =>
      cpsr ← RHINO_CRITICAL_ENTER;
      nested ← gets g_intrpt_nested_level;
      if decide (0 < nested /\ ticks <> RHINO_NO_WAIT)
      then Ret <$> exit_ret cpsr RHINO_NOT_CALLED_BY_INTRPT else
      b ← blk_get o;
      if decide (obj_type b <> RHINO_QUEUE_OBJ_TYPE) then Ret <$> exit_ret cpsr RHINO_KOBJ_TYPE_ERR else
      q ← queue_get o;
      if decide (0 < q_cur_num q) then
        r ← deref (Ringbuf.Ringbuf.ringbuf_pop (q_ringbuf q));
        (if decide (r.1.1 = RHINO_SUCCESS) then store p (ptr_of_bytes r.2) else mret tt);;
        queue_upd o (fun q => q <| q_ringbuf := r.1.2 |>);;
        queue_upd o (fun q => q <| q_cur_num ::= fun n => n - 1 |>);;
        Ret <$> exit_ret cpsr RHINO_SUCCESS
      else
      if decide (ticks = RHINO_NO_WAIT) then
        store p 0;; Ret <$> exit_ret cpsr RHINO_NO_PEND_WAIT
      else
      lock ← gets g_sched_lock;
      if decide (0 < lock) then store p 0;; Ret <$> exit_ret cpsr RHINO_SCHED_DISABLE else
      a ← active;
      pend_to_blk_obj o a ticks;;
      RHINO_CRITICAL_EXIT_SCHED cpsr;;
      mret Pending
  | _, _ => mret (Ret RHINO_NULL_PTR)
  end.

(** the rest of [krhino_queue_recv], when the task runs again *)
Definition queue_recv_resume (p : addr) : K kstat_t :=
  cpsr ← RHINO_CRITICAL_ENTER;
  a ← active;
  ret ← pend_state_end_proc a;
  (if decide (ret = RHINO_SUCCESS) then k ← task_get a; store p (msg k) else store p 0);;
  exit_ret cpsr ret.

Definition krhino_queue_is_full (queue : option oid) : K kstat_t :=
  match queue with
  | None => mret RHINO_NULL_PTR
  | Some o =>
      cpsr ← RHINO_CRITICAL_ENTER;
      b ← blk_get o;
      if decide (obj_type b <> RHINO_QUEUE_OBJ_TYPE) then exit_ret cpsr RHINO_KOBJ_TYPE_ERR else
      q ← queue_get o;
      exit_ret cpsr (if decide (q_size q <= q_cur_num q) then RHINO_QUEUE_FULL else RHINO_QUEUE_NOT_FULL)
  end.

Definition krhino_queue_flush (queue : option oid) : K kstat_t :=
  match queue with
  | None => mret RHINO_NULL_PTR
  | Some o =>
      cpsr ← RHINO_CRITICAL_ENTER;
      INTRPT_NESTED_LEVEL_CHK cpsr id (
      b ← blk_get o;
      if decide (obj_type b <> RHINO_QUEUE_OBJ_TYPE) then exit_ret cpsr RHINO_KOBJ_TYPE_ERR else
      queue_upd o (fun q => q <| q_cur_num := 0 |>);;
      queue_ringbuf_reset o;;
      exit_ret cpsr RHINO_SUCCESS)
  end.

Record msg_info_t := mk_msg_info {
  info_peak_num : Z;
  info_cur_num : Z;
  info_queue_start : addr;
  info_size : Z;
  pend_entry : option tid;            (* the first waiter; None is the list head itself *)
}.

(** The second result is what is written to [\*info]. *)
Definition krhino_queue_info_get (queue : option oid) (info : option addr)
  : K (kstat_t * option msg_info_t) :=
  match queue, info with
  | Some o, Some _ =>
      cpsr ← RHINO_CRITICAL_ENTER;
      b ← blk_get o;
      if decide (obj_type b <> RHINO_QUEUE_OBJ_TYPE)
      then (fun st => (st, None)) <$> exit_ret cpsr RHINO_KOBJ_TYPE_ERR else
      q ← queue_get o;
      let i := mk_msg_info (q_peak_num q) (q_cur_num q) (queue_start q) (q_size q) (head (blk_list b)) in
      (fun st => (st, Some i)) <$> exit_ret cpsr RHINO_SUCCESS
  | _, _ => mret (RHINO_NULL_PTR, None)
  end.

(** ** Pointers as bytes *)

Lemma byte_of_shift v i : 0 <= i -> Ringbuf.Ringbuf.byte_of v (1 + i) = Ringbuf.Ringbuf.byte_of (Z.shiftr v 8) i.
Proof. intros Hi. unfold Ringbuf.Ringbuf.byte_of. rewrite Z.shiftr_shiftr by lia. do 2 f_equal. lia. Qed.

(** Little-endian bytes round trip. *)
Lemma le_bytes_roundtrip (n : nat) v :
  0 <= v < 2 ^ (8 * Z.of_nat n) ->
  ptr_of_bytes ((fun i => Ringbuf.Ringbuf.byte_of v (Z.of_nat i)) <$> seq 0 n) = v.
Proof.
  revert v. induction n as [|n IH]; intros v Hv; [cbn in *; lia|].
  cbn [seq fmap list_fmap ptr_of_bytes]. rewrite <- fmap_S_seq, <- list_fmap_compose.
  rewrite (list_fmap_ext _ (fun i => Ringbuf.Ringbuf.byte_of (Z.shiftr v 8) (Z.of_nat i))).
  2:{ intros _ i _. cbn. rewrite Nat2Z.inj_succ, <- byte_of_shift by lia. f_equal. lia. }
  rewrite IH.
  - unfold Ringbuf.Ringbuf.byte_of. rewrite Z.mul_0_r, Z.shiftr_0_r. change 255 with (Z.ones 8).
    apply Z.bits_inj'. intros i Hi. rewrite Z.lor_spec, Z.land_spec.
    destruct (decide (i < 8)).
    + rewrite Z.ones_spec_low, Z.shiftl_spec_low by lia. by rewrite andb_true_r, orb_false_r.
    + rewrite Z.ones_spec_high, Z.shiftl_spec, Z.shiftr_spec by lia. rewrite andb_false_r. cbn. f_equal. lia.
  - rewrite Z.shiftr_div_pow2 by lia. split; [apply Z.div_pos; lia|]. apply Z.div_lt_upper_bound; [lia|].
    rewrite <- Z.pow_add_r by lia. replace (8 + 8 * Z.of_nat n) with (8 * Z.of_nat (S n)) by lia. lia.
Qed.

Lemma ptr_size_pos : (0 < Z.to_nat ptr_size)%nat /\ 8 * Z.of_nat (Z.to_nat ptr_size) = size_bits.
Proof. unfold ptr_size. destruct cfg_size_bits as [-> | ->]; vm_compute; split; lia || reflexivity. Qed.

Lemma length_ptr_bytes v : length (ptr_bytes v) = Z.to_nat ptr_size.
Proof. unfold ptr_bytes. by rewrite length_fmap, length_seq. Qed.

Lemma ptr_roundtrip v : 0 <= v < 2 ^ size_bits -> ptr_of_bytes (ptr_bytes v) = v.
Proof. intros Hv. apply le_bytes_roundtrip. by rewrite (proj2 ptr_size_pos). Qed.

(** ** What a queue holds *)

(** The queue stores the pointers [ms], oldest first. *)
Record queue_holds (q : kqueue_t) (ms : list Z) : Prop := {
  qh_ring : Ringbuf.Ringbuf.holds (q_ringbuf q) (ptr_bytes <$> ms);
  qh_type : Ringbuf.Ringbuf.type (q_ringbuf q) = Ringbuf.Ringbuf.RINGBUF_TYPE_FIX;
  qh_blk : Ringbuf.Ringbuf.blk_size (q_ringbuf q) = Z.to_nat ptr_size;
  qh_rend : Ringbuf.Ringbuf.rend (q_ringbuf q) = (Z.to_nat (q_size q) * Z.to_nat ptr_size)%nat;
  qh_num : q_cur_num q = Z.of_nat (length ms);
  qh_ptr : Forall (fun m => 0 <= m < 2 ^ size_bits) ms;
}.

Lemma concat_blocks rb ms :
  Ringbuf.Ringbuf.type rb = Ringbuf.Ringbuf.RINGBUF_TYPE_FIX ->
  Ringbuf.Ringbuf.occupied rb (ptr_bytes <$> ms) = (length ms * Z.to_nat ptr_size)%nat.
Proof.
  intros Hty. unfold Ringbuf.Ringbuf.occupied, Ringbuf.Ringbuf.encode. rewrite Hty.
  induction ms as [|m ms IH]; cbn; [done|]. rewrite length_app, length_ptr_bytes. cbn in IH. lia.
Qed.

(** A message fits as long as the queue is not full. *)
Lemma queue_fits q ms m :
  queue_holds q ms -> 0 <= q_size q -> q_cur_num q < q_size q ->
  Ringbuf.Ringbuf.fits (q_ringbuf q) (ptr_bytes <$> ms) (ptr_bytes m) = true.
Proof.
  intros [] Hs Hlt. unfold Ringbuf.Ringbuf.fits. rewrite concat_blocks by done.
  unfold Ringbuf.Ringbuf.encode. rewrite qh_type0, length_ptr_bytes, qh_rend0. apply bool_decide_eq_true.
  assert (S (length ms) <= Z.to_nat (q_size q))%nat by lia. nia.
Qed.

Lemma ptr_msg_ok q ms m :
  queue_holds q ms -> Ringbuf.Ringbuf.msg_ok (q_ringbuf q) (ptr_bytes m) /\ (0 < length (ptr_bytes m))%nat.
Proof.
  intros []. unfold Ringbuf.Ringbuf.msg_ok. rewrite qh_type0, length_ptr_bytes. split; [done|apply ptr_size_pos].
Qed.

(** Storing a message at the end the option names. *)
Definition placed (opt m : Z) (ms : list Z) : list Z :=
  if decide (opt = QMSG_SEND_TO_END) then ms ++ [m] else m :: ms.

Lemma queue_push q ms m opt :
  queue_holds q ms -> 0 <= q_size q -> q_cur_num q < q_size q -> 0 <= m < 2 ^ size_bits ->
  exists rb', (if decide (opt = QMSG_SEND_TO_END)
      then Ringbuf.Ringbuf.ringbuf_push (q_ringbuf q) (ptr_bytes m) (Z.to_nat ptr_size)
      else Ringbuf.Ringbuf.ringbuf_head_push (q_ringbuf q) (ptr_bytes m) (Z.to_nat ptr_size))
    = Some (RHINO_SUCCESS, rb') /\
    forall n, queue_holds (q <| q_ringbuf := rb' |> <| q_cur_num := q_cur_num q + 1 |> <| q_peak_num := n |>)
      (placed opt m ms).
Proof.
  intros Hq Hs Hlt Hm. pose proof (queue_fits q ms m Hq Hs Hlt) as Hfit.
  destruct (ptr_msg_ok q ms m Hq) as [Hok Hne]. pose proof Hq as [].
  assert (exists rb', (if decide (opt = QMSG_SEND_TO_END)
      then Ringbuf.Ringbuf.ringbuf_push (q_ringbuf q) (ptr_bytes m) (Z.to_nat ptr_size)
      else Ringbuf.Ringbuf.ringbuf_head_push (q_ringbuf q) (ptr_bytes m) (Z.to_nat ptr_size))
    = Some (RHINO_SUCCESS, rb') /\ Ringbuf.Ringbuf.holds rb' (ptr_bytes <$> placed opt m ms) /\
    Ringbuf.Ringbuf.same_shape (q_ringbuf q) rb') as (rb' & Hp & Hh & Hr & Ht & Hb).
  { rewrite <- (length_ptr_bytes m). unfold placed. case_decide.
    - pose proof (Ringbuf.Ringbuf.ringbuf_push_enqueues _ _ _ qh_ring0 Hok Hne) as Hpush. rewrite Hfit in Hpush.
      by rewrite fmap_app.
    - by apply Ringbuf.Ringbuf.head_push_fix. }
  exists rb'. split; [done|]. intros n.
  split; cbn; try congruence.
  - unfold placed. case_decide; rewrite ?length_app; cbn; lia.
  - unfold placed. case_decide; [apply Forall_app; split; [done|]; by apply Forall_singleton|by constructor].
Qed.

Lemma queue_pop q m ms :
  queue_holds q (m :: ms) ->
  exists rb', Ringbuf.Ringbuf.ringbuf_pop (q_ringbuf q) = Some (RHINO_SUCCESS, rb', ptr_bytes m) /\
    queue_holds (q <| q_ringbuf := rb' |> <| q_cur_num := q_cur_num q - 1 |>) ms.
Proof.
  intros []. destruct (Ringbuf.Ringbuf.ringbuf_pop_dequeues _ _ qh_ring0) as (rb' & Hp & Hh & Hr & Ht & Hb).
  exists rb'. split; [done|]. apply Forall_cons in qh_ptr0 as [_ ?].
  split; cbn; try congruence; [exact Hh|]. rewrite length_cons in qh_num0. lia.
Qed.

(** ** The kernel invariant *)

Lemma obj_queue s o b :
  kinv s -> blk_objs s !! o = Some b -> obj_type b = RHINO_QUEUE_OBJ_TYPE ->
  exists q, queues s !! o = Some q /\ 0 <= q_cur_num q <= q_size q /\ (blk_list b <> [] -> q_cur_num q = 0).
Proof.
  intros Hinv Hb Hty. pose proof (inv_obj _ _ _ _ _ _ _ _ _ _ _ _ Hinv o b Hb) as Hob.
  unfold obj_ok in Hob. by rewrite Hty in Hob.
Qed.

Lemma kok_queue_upd s o q :
  kok s -> 0 <= q_cur_num q <= q_size q ->
  (forall b, blk_objs s !! o = Some b -> blk_list b <> [] -> q_cur_num q = 0) ->
  kok (s <| queues ::= <[o := q]> |>).
Proof.
  intros (Hinv & ? & ? & ?) Hq Hl. apply kok_intro; try done. eapply kinv_objs; [exact Hinv|].
  intros o' b Hb. pose proof (inv_obj _ _ _ _ _ _ _ _ _ _ _ _ Hinv o' b Hb) as Hob. unfold obj_ok in *.
  destruct (obj_type b) eqn:Hty; try done. cbn. destruct (decide (o' = o)) as [->|].
  - rewrite lookup_insert_eq. exists q. split; [done|]. split; [done|]. by apply Hl.
  - rewrite lookup_insert_ne by done. done.
Qed.

(** A waiter that is given a message. *)
Definition msg_task (m : Z) (k : ktask_t) : ktask_t := woken_task BLK_FINISH (k <| msg := m |>).

Lemma msg_task_waker m : waker (msg_task m).
Proof. done. Qed.

Lemma wakes_msg m : wakes_with (msg_task m) (fun t => task_msg_recv t m).
Proof.
  intros t k Q s Hinv Hpi Ht Hp HQ. unfold task_msg_recv. apply wp_bind. eapply wp_task_upd; [done|].
  set (k1 := k <| msg := m |>).
  set (s1 := setq s (g_ready_queue s) (<[t := k1]> (tasks s)) (blk_objs s) (g_tick_head s)).
  assert (Hd : task_state k <> K_DELETED) by (intros He; by rewrite He in Hp).
  destruct (kinv_unmoved s t k k1 Hinv Hpi Ht) as [Hinv1 _].
  { apply unmoved_fields; try done. by eapply (inv_task _ _ _ _ _ _ _ _ _ _ _ _ Hinv t). }
  { eapply pend_not_idle; [done..|]. intros He. by rewrite He in Hp. }
  match goal with |- wp _ _ ?x => assert (x = s1) as -> by done end.
  eapply (wp_pend_task_wakeup t k1); [done|apply lookup_insert_eq|done|].
  intros rq' L'. unfold s1. rewrite setq_setq. cbn [tasks blk_objs setq]. rewrite insert_insert_eq. apply HQ.
Qed.

(** ** Sending *)

(** The branches of [msg_send]; [all] says whether all waiters get the message. *)
Inductive msg_send_spec (notify : oid -> sid -> K unit) (s : kstate) (o : oid) (m opt : Z) (all : bool)
  (ms : list Z) : kstat_t -> kstate -> Prop :=
| send_type b :
    blk_objs s !! o = Some b -> obj_type b <> RHINO_QUEUE_OBJ_TYPE ->
    msg_send_spec notify s o m opt all ms RHINO_KOBJ_TYPE_ERR s
| send_full q :
    queues s !! o = Some q -> q_size q = q_cur_num q ->
    msg_send_spec notify s o m opt all ms RHINO_QUEUE_FULL s
| send_store b q rb s' :
    blk_objs s !! o = Some b -> blk_list b = [] -> queues s !! o = Some q -> q_cur_num q < q_size q ->
    let q' := q <| q_ringbuf := rb |> <| q_cur_num := q_cur_num q + 1 |>
                <| q_peak_num := Z.max (q_peak_num q) (q_cur_num q + 1) |> in
    queue_holds q' (placed opt m ms) ->
    notified notify o b (s <| queues ::= <[o := q']> |>) = Some (tt, s') ->
    msg_send_spec notify s o m opt all ms RHINO_SUCCESS s'
| send_wake b t l k rq' L' s' :
    blk_objs s !! o = Some b -> blk_list b = t :: l -> all = false -> tasks s !! t = Some k ->
    switched (setq s rq' (<[t := msg_task m k]> (tasks s)) (<[o := b <| blk_list := l |>]> (blk_objs s)) L') s' ->
    msg_send_spec notify s o m opt all ms RHINO_SUCCESS s'
| send_wake_all b rq' L' s' :
    blk_objs s !! o = Some b -> blk_list b <> [] -> all = true ->
    switched (setq s rq' (wake_with o (msg_task m) <$> tasks s) (<[o := b <| blk_list := [] |>]> (blk_objs s)) L') s' ->
    msg_send_spec notify s o m opt all ms RHINO_SUCCESS s'.

(** the states the set of a queue is notified in *)
Definition queue_sent (s : kstate) (o : oid) (q : kqueue_t) (s0 : kstate) : Prop :=
  exists q' ms', s0 = s <| queues ::= <[o := q']> |> /\ queue_holds q' ms' /\
    q_size q' = q_size q /\ q_cur_num q' = q_cur_num q + 1.

(** a message for a queue on which no task waits: it is stored and counted *)
Lemma wp_msg_store notify s o b q m opt all ms rb (q' : kqueue_t) :
  kok s -> blk_objs s !! o = Some b -> blk_list b = [] -> notify_ok notify o b (queue_sent s o q) ->
  queues s !! o = Some q -> 0 <= q_cur_num q < q_size q ->
  (if decide (opt = QMSG_SEND_TO_END)
   then Ringbuf.Ringbuf.ringbuf_push (q_ringbuf q) (ptr_bytes m) (Z.to_nat ptr_size)
   else Ringbuf.Ringbuf.ringbuf_head_push (q_ringbuf q) (ptr_bytes m) (Z.to_nat ptr_size)) = Some (RHINO_SUCCESS, rb) ->
  q' = q <| q_ringbuf := rb |> <| q_cur_num := q_cur_num q + 1 |>
         <| q_peak_num := Z.max (q_peak_num q) (q_cur_num q + 1) |> ->
  queue_holds q' (placed opt m ms) ->
  forall q1, q_ringbuf q1 = q_ringbuf q -> q1 <| q_ringbuf := rb |> = q' ->
  wp (q2 ← queue_get o;
      r ← deref (if decide (opt = QMSG_SEND_TO_END)
                 then Ringbuf.Ringbuf.ringbuf_push (q_ringbuf q2) (ptr_bytes m) (Z.to_nat ptr_size)
                 else Ringbuf.Ringbuf.ringbuf_head_push (q_ringbuf q2) (ptr_bytes m) (Z.to_nat ptr_size));
      queue_upd o (fun q => q <| q_ringbuf := r.2 |>);;
      RHINO_CRITICAL_EXIT (irq_off s);;
      b ← blk_get o;
      match handle b with Some h => notify o h | None => mret tt end;;
      mret RHINO_SUCCESS)
    (fun r s' => kok s' /\ msg_send_spec notify s o m opt all ms r s')
    (s <| irq_off := true |> <| queues ::= <[o := q1]> |>).
Proof.
  intros Hok Ho Hl Hnot Hq Hnum Hpush Hq' Hh' q1 Hr1 Hq1. set (s1 := s <| queues ::= <[o := q']> |>).
  assert (Hcur : q_cur_num q' = q_cur_num q + 1) by by rewrite Hq'.
  assert (Hsz : q_size q' = q_size q) by by rewrite Hq'.
  assert (Hok1 : kok s1).
  { apply kok_queue_upd; [done|rewrite Hcur, Hsz; lia|]. intros b' Hb'. assert (b' = b) as -> by congruence. by rewrite Hl. }
  apply wp_bind. eapply wp_queue_get; [cbn; apply lookup_insert_eq|].
  apply wp_bind. rewrite Hr1. eapply wp_deref; [exact Hpush|]. cbn [snd].
  apply wp_bind. eapply wp_queue_upd; [cbn; apply lookup_insert_eq|].
  apply wp_bind, wp_modify. apply wp_bind.
  match goal with |- wp _ _ ?x => assert (x = s1) as -> end.
  { unfold s1. apply kstate_ext; cbn; try reflexivity. by rewrite insert_insert_eq, Hq1. }
  eapply wp_blk_get; [done|]. apply wp_bind.
  assert (Hsent : queue_sent s o q s1) by by exists q', (placed opt m ms).
  destruct (notified_total notify o b _ s1 Hnot Hsent Hok1) as (s2 & Hn2 & Hok2).
  eapply (wp_intro _ _ _ tt s2); [exact Hn2|]. apply wp_ret. split; [done|]. subst q'.
  eapply (send_store notify s o m opt _ ms b q rb); try done; lia.
Qed.

Lemma wp_msg_send notify s o b q m opt all ms :
  kok s -> blk_objs s !! o = Some b -> notify_ok notify o b (queue_sent s o q) ->
  queues s !! o = Some q -> queue_holds q ms -> 0 <= m < 2 ^ size_bits ->
  wp (msg_send notify (Some o) m opt all) (fun r s' => kok s' /\
    msg_send_spec notify s o m opt (bool_decide (all <> 0)) ms r s') s.
Proof.
  intros Hok Ho Hnot Hq Hh Hm. pose proof Hok as (Hinv & Hpi & Hsch & Hcnt).
  unfold msg_send. apply wp_bind, wp_critical_enter. apply wp_bind. eapply wp_blk_get; [done|].
  case_decide as Hty; [apply wp_exit_ret; rewrite irq_restore; split; [done|by eapply send_type]|].
  destruct (obj_queue s o b Hinv Ho Hty) as (q0 & Hq0 & Hnum & Hemp). assert (q0 = q) as -> by congruence.
  assert (Hlr : locked_ready s) by by apply kok_locked_ready.
  apply wp_bind. eapply wp_queue_get; [done|].
  case_decide as Hfull; [apply wp_exit_ret; rewrite irq_restore; split; [done|eapply send_full; [done|lia]]|].
  destruct (blk_list b) as [|t l] eqn:Hl.
  - destruct (queue_push q ms m opt Hh ltac:(lia) ltac:(lia) Hm) as (rb & Hpush & Hh').
    set (q' := q <| q_ringbuf := rb |> <| q_cur_num := q_cur_num q + 1 |>
                <| q_peak_num := Z.max (q_peak_num q) (q_cur_num q + 1) |>).
    apply wp_bind. eapply wp_queue_upd; [done|]. apply wp_bind.
    eapply wp_queue_get; [cbn; apply lookup_insert_eq|]. apply wp_bind.
    pose proof (fun q1 => wp_msg_store notify s o b q m opt (bool_decide (all <> 0)) ms rb q' Hok Ho Hl Hnot Hq
      ltac:(lia) Hpush eq_refl (Hh' _) q1) as Hfin.
    apply wp_when; intros Hpk; cbn in Hpk.
    + eapply wp_queue_upd; [cbn; apply lookup_insert_eq|].
      match goal with |- wp _ _ ?x => assert (x = s <| irq_off := true |>
        <| queues ::= <[o := q <| q_cur_num := q_cur_num q + 1 |> <| q_peak_num := q_cur_num q + 1 |>]> |>) as -> by kstate_eq end.
      apply Hfin; [done|]. unfold q', upd; cbn. f_equal. lia.
    + match goal with |- wp _ _ ?x => assert (x = s <| irq_off := true |>
        <| queues ::= <[o := q <| q_cur_num := q_cur_num q + 1 |>]> |>) as -> by done end.
      apply Hfin; [done|]. unfold q', upd; cbn. f_equal. lia.
  - apply wp_bind. destruct (decide (all <> 0)) as [Hall|Hall].
    + eapply (wp_drain_with (msg_task m)); [apply msg_task_waker|apply wakes_msg|done..|by rewrite Hty|].
      intros rq' L' s1 (Hinv1 & Hpi1 & Hlr1). apply wp_sched_ret; try done.
      intros s' Hok' Hsw. split; [done|]. rewrite bool_decide_true by done.
      eapply send_wake_all; try done. by rewrite Hl.
    + eapply (wp_wake_first_with (msg_task m)  (fun t => task_msg_recv t m));
        [apply msg_task_waker|apply wakes_msg|done..|by rewrite Hty|done|].
      intros k rq' L' Hk Hp Hb s1 (Hinv1 & Hpi1 & Hlr1). apply wp_sched_ret; try done.
      intros s' Hok' Hsw. split; [done|]. rewrite bool_decide_false by naive_solver.
      by eapply send_wake.
Qed.

(** C29: sending to a queue that holds the pointers [ms]: a full queue refuses; with no task
    waiting the message is stored behind the others or, for the front send, before them, and
    the counters follow; otherwise it is handed to the first waiter, which has the highest
    priority, or to every waiter.  The kernel invariant is kept. *)
Theorem krhino_queue_send_correct (notify : oid -> sid -> K unit) (s : kstate) (o : oid) (b : blk_obj_t)
    (q : kqueue_t) (m opt : Z) (ms : list Z)
    (Hok : kok s) (Ho : blk_objs s !! o = Some b) (Hnotify : notify_ok notify o b (queue_sent s o q))
    (Hq : queues s !! o = Some q) (Hh : queue_holds q ms) (Hm : 0 <= m < 2 ^ size_bits) :
  wp (krhino_queue_back_send notify (Some o) m)
    (fun r s' => kok s' /\ msg_send_spec notify s o m QMSG_SEND_TO_END false ms r s') s /\
  wp (krhino_queue_front_send notify (Some o) m)
    (fun r s' => kok s' /\ msg_send_spec notify s o m QMSG_SEND_TO_FRONT false ms r s') s /\
  wp (krhino_queue_all_send notify (Some o) m opt)
    (fun r s' => kok s' /\ msg_send_spec notify s o m opt true ms r s') s.
Proof. by split; [|split]; apply (wp_msg_send notify s o b q). Qed.

(** ** Receiving *)

(** The branches of [krhino_queue_recv] on a queue that holds [ms]. *)
Inductive queue_recv_spec (s : kstate) (o : oid) (ticks : Z) (p : addr) (ms : list Z) : kret -> kstate -> Prop :=
| recv_intrpt :
    0 < g_intrpt_nested_level s -> ticks <> RHINO_NO_WAIT ->
    queue_recv_spec s o ticks p ms (Ret RHINO_NOT_CALLED_BY_INTRPT) s
| recv_type b :
    blk_objs s !! o = Some b -> obj_type b <> RHINO_QUEUE_OBJ_TYPE ->
    queue_recv_spec s o ticks p ms (Ret RHINO_KOBJ_TYPE_ERR) s
| recv_msg m ms' q rb :
    ms = m :: ms' -> queues s !! o = Some q ->
    let q' := q <| q_ringbuf := rb |> <| q_cur_num := q_cur_num q - 1 |> in
    queue_holds q' ms' ->
    queue_recv_spec s o ticks p ms (Ret RHINO_SUCCESS)
      (s <| umem ::= <[p := m]> |> <| queues ::= <[o := q']> |>)
| recv_no_wait :
    ms = [] -> ticks = RHINO_NO_WAIT ->
    queue_recv_spec s o ticks p ms (Ret RHINO_NO_PEND_WAIT) (s <| umem ::= <[p := 0]> |>)
| recv_locked :
    ms = [] -> ticks <> RHINO_NO_WAIT -> 0 < g_sched_lock s ->
    queue_recv_spec s o ticks p ms (Ret RHINO_SCHED_DISABLE) (s <| umem ::= <[p := 0]> |>)
| recv_block b a k k' l rq' L' s' :
    ms = [] -> ticks <> RHINO_NO_WAIT -> g_sched_lock s = 0 -> blk_objs s !! o = Some b ->
    g_active_task s = Some a -> tasks s !! a = Some k -> blocked_task o k k' ->
    queued (prio_of (<[a := k']> (tasks s))) a b l ->
    switched (setq s rq' (<[a := k']> (tasks s)) (<[o := b <| blk_list := l |>]> (blk_objs s)) L') s' ->
    queue_recv_spec s o ticks p ms Pending s'.

Lemma wp_queue_recv (s : kstate) (o : oid) (b : blk_obj_t) (q : kqueue_t) (ticks : Z)
    (p : addr) (ms : list Z)
    (Hok : kok s) (Ho : blk_objs s !! o = Some b) (Hq : queues s !! o = Some q) (Hh : queue_holds q ms)
    (Ht : 0 <= ticks <= RHINO_WAIT_FOREVER) (Hidle : g_active_task s <> Some (g_idle_task s)) :
  wp (krhino_queue_recv (Some o) ticks (Some p)) (fun r s' => kok s' /\ queue_recv_spec s o ticks p ms r s') s.
Proof.
  pose proof Hok as (Hinv & Hpi & Hsch & Hcnt). pose proof Hcnt as [Hc1 Hc2].
  unfold krhino_queue_recv. apply wp_bind, wp_critical_enter. apply wp_bind, wp_gets. cbn [g_intrpt_nested_level].
  case_decide as Hn; [apply wp_fmap, wp_exit_ret; rewrite irq_restore; split; [done|]; cbn in Hn; destruct Hn; by apply recv_intrpt|].
  cbn in Hn. apply wp_bind. eapply wp_blk_get; [done|].
  case_decide as Hty; [apply wp_fmap, wp_exit_ret; rewrite irq_restore; split; [done|by eapply recv_type]|].
  destruct (obj_queue s o b Hinv Ho Hty) as (q0 & Hq0 & Hnum & Hemp). assert (q0 = q) as -> by congruence.
  apply wp_bind. eapply wp_queue_get; [done|]. pose proof (qh_num q ms Hh) as Hlen.
  destruct ms as [|m ms]; cbn [length] in Hlen.
  - rewrite decide_False by lia. case_decide as Hnw.
    { apply wp_bind, wp_modify. apply wp_fmap, wp_exit_ret.
      match goal with |- kok ?x /\ _ => assert (x = s <| umem ::= <[p := 0]> |>) as -> by done end.
      split; [done|by apply recv_no_wait]. }
    apply wp_bind, wp_gets. cbn [g_sched_lock]. case_decide as Hlk; cbn in Hlk.
    { apply wp_bind, wp_modify. apply wp_fmap, wp_exit_ret.
      match goal with |- kok ?x /\ _ => assert (x = s <| umem ::= <[p := 0]> |>) as -> by done end.
      split; [done|by apply recv_locked]. }
    assert (Hn0 : ~ 0 < g_intrpt_nested_level s) by tauto.
    destruct (active_ready s Hok Hn0) as (a & k & Ha & Hk & Hr).
    apply wp_bind. eapply wp_active; [done|]. apply wp_bind.
    eapply (wp_pend_to_blk_obj o a ticks k b); try done.
    { intros ->. done. }
    { intros l. unfold obj_ok. cbn. rewrite Hty. exists q. split; [done|]. split; [done|]. cbn. lia. }
    { eapply not_mutex_not_held; [done|]. by rewrite Hty. }
    { unfold RHINO_NO_WAIT in Hnw. lia. }
    intros rq' k' l L' Hk' Hl Hinv'. apply wp_bind. apply wp_exit_sched; try done.
    + eapply (pi_blocked (s <| irq_off := true |>)); try done. by rewrite Hty.
    + intros _ ?. cbn in *. lia.
    + intros s' Hok' Hsw. apply wp_ret. split; [done|].
      eapply recv_block; try done; cbn in *; lia.
  - destruct (queue_pop q m ms Hh) as (rb & Hpop & Hh'). rewrite decide_True by lia.
    apply wp_bind. eapply wp_deref; [exact Hpop|]. cbn [fst snd]. rewrite decide_True by done.
    rewrite ptr_roundtrip by (pose proof (qh_ptr _ _ Hh) as HF; by apply Forall_cons in HF as [? _]).
    apply wp_bind, wp_modify. apply wp_bind. eapply wp_queue_upd; [done|].
    apply wp_bind. eapply wp_queue_upd; [cbn; apply lookup_insert_eq|]. apply wp_fmap, wp_exit_ret.
    set (q' := q <| q_ringbuf := rb |> <| q_cur_num := q_cur_num q - 1 |>) in *.
    match goal with |- kok ?x /\ _ => assert (x = s <| umem ::= <[p := m]> |> <| queues ::= <[o := q']> |>) as -> by kstate_eq end.
    split; [|by eapply recv_msg].
    apply (kok_queue_upd (s <| umem ::= <[p := m]> |>)); [done|cbn; lia|].
    cbn. intros b' Hb' Hne. assert (b' = b) as -> by congruence. specialize (Hemp Hne). lia.
Qed.

(** C30: receiving from a queue that holds the pointers [ms]: the oldest message is written
    to the caller and removed; an empty queue refuses or blocks the running task among the
    waiters in priority order. *)
Theorem krhino_queue_recv_correct (s : kstate) (o : oid) (b : blk_obj_t) (q : kqueue_t) (ticks : Z)
    (p : addr) (ms : list Z)
    (Hok : kok s) (Ho : blk_objs s !! o = Some b) (Hq : queues s !! o = Some q) (Hh : queue_holds q ms)
    (Ht : 0 <= ticks <= RHINO_WAIT_FOREVER) (Hidle : g_active_task s <> Some (g_idle_task s)) :
  wp (krhino_queue_recv (Some o) ticks (Some p)) (fun r s' => kok s' /\ queue_recv_spec s o ticks p ms r s') s.
Proof. by eapply wp_queue_recv. Qed.

(** A message handed to a waiter is what its call returns when it runs again. *)
Lemma queue_recv_resume_msg s a k m p :
  g_active_task s = Some a -> tasks s !! a = Some (msg_task m k) ->
  wp (queue_recv_resume p) (fun r s' => r = RHINO_SUCCESS /\ s' = s <| umem ::= <[p := m]> |>) s.
Proof.
  intros Ha Hk. unfold queue_recv_resume, pend_state_end_proc. apply wp_bind, wp_critical_enter.
  apply wp_bind. eapply wp_active; [done|]. apply wp_bind, wp_bind. eapply wp_task_get; [done|].
  cbn [blk_state msg_task woken_task]. apply wp_ret. apply wp_bind. rewrite decide_True by done.
  apply wp_bind. eapply wp_task_get; [done|]. apply wp_modify, wp_exit_ret. by split.
Qed.

End queue.

(** ** Witnesses *)

#[local] Existing Instance linuxhost.

Lemma demo_queue_holds :
  queue_holds (mk_kqueue demo_ring 51%positive 4 2 2 1) [7; 9] /\
  queue_holds (mk_kqueue (empty_ring Ringbuf.Ringbuf.RINGBUF_TYPE_FIX 16 4) 50%positive 4 0 2 1) [].
Proof.
  split; split; try done.
  - split; [vm_compute; lia|]. split; [|split; [|vm_compute; reflexivity]].
    + intros _. split; [vm_compute; lia|]. exists 4%nat, 1%nat, 3%nat. done.
    + repeat constructor.
  - repeat constructor; vm_compute; done.
  - split; [vm_compute; lia|]. split; [|split; [|vm_compute; reflexivity]].
    + intros _. split; [vm_compute; lia|]. exists 4%nat, 0%nat, 0%nat. done.
    + repeat constructor.
Qed.

Definition demo_queue : kqueue_t := mk_kqueue demo_ring 51%positive 4 2 2 1.

Lemma krhino_queue_send_correct_witness :
  wp (krhino_queue_back_send (fun _ _ => mret tt) (Some 27%positive) 11)
    (fun r s' => kok s' /\ msg_send_spec (fun _ _ => mret tt) demo 27%positive 11 QMSG_SEND_TO_END false [7; 9] r s') demo /\
  wp (krhino_queue_front_send (fun _ _ => mret tt) (Some 27%positive) 11)
    (fun r s' => kok s' /\ msg_send_spec (fun _ _ => mret tt) demo 27%positive 11 QMSG_SEND_TO_FRONT false [7; 9] r s') demo /\
  wp (krhino_queue_all_send (fun _ _ => mret tt) (Some 27%positive) 11 QMSG_SEND_TO_END)
    (fun r s' => kok s' /\ msg_send_spec (fun _ _ => mret tt) demo 27%positive 11 QMSG_SEND_TO_END true [7; 9] r s') demo.
Proof.
  apply (krhino_queue_send_correct (fun _ _ => mret tt) demo 27%positive (demo_obj RHINO_QUEUE_OBJ_TYPE [])
    demo_queue 11 QMSG_SEND_TO_END [7; 9] demo_ok).
  - reflexivity.
  - intros h s0 Hh. discriminate Hh.
  - reflexivity.
  - apply demo_queue_holds.
  - vm_compute. split; [discriminate|reflexivity].
Defined.

Lemma krhino_queue_recv_correct_witness :
  wp (krhino_queue_recv (Some 27%positive) 5 (Some 43%positive))
    (fun r s' => kok s' /\ queue_recv_spec demo 27%positive 5 43%positive [7; 9] r s') demo.
Proof.
  apply (krhino_queue_recv_correct demo 27%positive (demo_obj RHINO_QUEUE_OBJ_TYPE []) demo_queue 5 43%positive [7; 9] demo_ok).
  - reflexivity.
  - reflexivity.
  - apply demo_queue_holds.
  - vm_compute; split; discriminate.
  - discriminate.
Defined.

End Queue.
