(* ===== verification/BufQueue.v ===== *)
(** * Buffer queues ([k_buf_queue.c])

    A buffer queue copies messages of up to [max_msg_size] bytes through a ring buffer.  A
    message for a waiting task is copied to the buffer the task gave. *)
From S2P Require Import Prelude Config Kernel Sched TickList Pend Inv Demo Prio Own Queue.
From S2P Require Ringbuf.
Import Sched TickList Pend Own Queue.

Module BufQueue.
Section bufqueue.
Context {cfg : RhinoConfig}.

(** [memcpy] into a caller's buffer, through a pointer held as a number *)
Definition memcpy_to (dst : Z) (bytes : list Z) : K unit := fun s =>
  match dst with
  | Zpos a =>
      m ← ubufs s !! a;
      m' ← Ringbuf.Ringbuf.mem_write m 0 bytes;
      Some (tt, s <| ubufs ::= <[a := m']> |>)
  | _ => None
  end.

Definition buf_queue_create (queue : option oid) (name buf : option addr)
    (size max_msg mm_alloc_flag : Z) (type : Ringbuf.Ringbuf.ringbuf_type) : K kstat_t :=
  match queue, buf, name with
  | Some o, Some bf, Some _ =>
      if decide (max_msg = 0) then mret RHINO_INV_PARAM else
      if decide (size = 0) then mret RHINO_BUF_QUEUE_SIZE_ZERO else
      modify (fun s => s
        <| blk_objs ::= fun m => <[o := mk_blk_obj [] BLK_POLICY_PRI
             (from_option obj_type RHINO_OBJ_TYPE_NONE (m !! o)) None]> m |>
        <| buf_queues ::= fun m => <[o := mk_kbuf_queue bf
             (from_option bq_ringbuf (Ringbuf.Ringbuf.ringbuf_init [] type 0) (m !! o)) max_msg 0 0
             (from_option min_free_buf_size 0 (m !! o)) mm_alloc_flag]> m |>);;
      cpsr ← RHINO_CRITICAL_ENTER;
      modify (fun s => s <| g_kobj_list ::= fun l => l <| buf_queue_list_head ::= fun q => q ++ [o] |> |>);;
      RHINO_CRITICAL_EXIT cpsr;;
      blk_upd o (fun b => b <| obj_type := RHINO_BUF_QUEUE_OBJ_TYPE |>);;
      mem ← buffer bf (Z.to_nat size);
      buf_queue_upd o (fun q => q <| bq_ringbuf := Ringbuf.Ringbuf.ringbuf_init mem type (Z.to_nat max_msg) |>);;
      buf_queue_upd o (fun q => q <| min_free_buf_size := Z.of_nat (Ringbuf.Ringbuf.freesize (bq_ringbuf q)) |>);;
      mret RHINO_SUCCESS
  | _, _, _ => mret RHINO_NULL_PTR
  end.

Definition krhino_buf_queue_create (queue : option oid) (name buf : option addr) (size max_msg : Z)
  : K kstat_t :=
  buf_queue_create queue name buf size max_msg K_OBJ_STATIC_ALLOC Ringbuf.Ringbuf.RINGBUF_TYPE_DYN.

Definition krhino_fix_buf_queue_create (queue : option oid) (name buf : option addr)
    (msg_size msg_num : Z) : K kstat_t :=
  buf_queue_create queue name buf (wrap size_bits (msg_size * msg_num)) msg_size
    K_OBJ_STATIC_ALLOC Ringbuf.Ringbuf.RINGBUF_TYPE_FIX.

Definition buf_queue_ringbuf_reset (o : oid) : K unit :=
  buf_queue_upd o (fun q => q <| bq_ringbuf ::= Ringbuf.Ringbuf.ringbuf_reset |>).

(** the two deletions differ in the allocation flag they require and in freeing *)
Definition buf_queue_del_body (o : oid) (flag : Z) : K (option kstat_t) :=
  cpsr ← RHINO_CRITICAL_ENTER;
  INTRPT_NESTED_LEVEL_CHK cpsr Some (
  b ← blk_get o;
  if decide (obj_type b <> RHINO_BUF_QUEUE_OBJ_TYPE)
  then Some <$> exit_ret cpsr RHINO_KOBJ_TYPE_ERR else
  q ← buf_queue_get o;
  if decide (buf_queue_mm_alloc_flag q <> flag) then Some <$> exit_ret cpsr RHINO_KOBJ_DEL_ERR else
  blk_upd o (fun b => b <| obj_type := RHINO_OBJ_TYPE_NONE |>);;
  drain_blk_list o pend_task_rm;;
  modify (fun s => s <| g_kobj_list ::= fun l => l <| buf_queue_list_head ::= list_rm o |> |>);;
  buf_queue_ringbuf_reset o;;
  RHINO_CRITICAL_EXIT_SCHED cpsr;;
  mret None).

Definition krhino_buf_queue_del (queue : option oid) : K kstat_t :=
  match queue with
  | None => mret RHINO_NULL_PTR
  | Some o =>
      r ← buf_queue_del_body o K_OBJ_STATIC_ALLOC;
      mret (default RHINO_SUCCESS r)
  end.

(** [alloc] and [buf_alloc] are what the two calls of [krhino_mm_alloc] returned. *)
Definition krhino_buf_queue_dyn_create (queue name : option addr) (size max_msg : Z)
    (alloc : option oid) (buf_alloc : option addr) : K kstat_t :=
  match queue with
  | None => mret RHINO_NULL_PTR
  | Some p =>
      if decide (size = 0) then mret RHINO_BUF_QUEUE_SIZE_ZERO else
      match alloc with
      | None => mret RHINO_NO_MEM
      | Some queue_obj =>
          match buf_alloc with
          | None => krhino_mm_free queue_obj;; mret RHINO_NO_MEM
          | Some bf =>
              stat ← buf_queue_create (Some queue_obj) name (Some bf) size max_msg
                       K_OBJ_DYN_ALLOC Ringbuf.Ringbuf.RINGBUF_TYPE_DYN;
              if decide (stat <> RHINO_SUCCESS) then
                krhino_mm_free bf;; krhino_mm_free queue_obj;; mret stat
              else store p (Zpos queue_obj);; mret RHINO_SUCCESS
          end
      end
  end.

Definition krhino_buf_queue_dyn_del (queue : option oid) : K kstat_t :=
  match queue with
  | None => mret RHINO_NULL_PTR
  | Some o =>
      r ← buf_queue_del_body o K_OBJ_DYN_ALLOC;
      match r with
      | Some stat => mret stat
      | None =>
          q ← buf_queue_get o;
          krhino_mm_free (buf q);; krhino_mm_free o;; mret RHINO_SUCCESS
      end
  end.

(** The counters after a message went in. *)
Definition buf_queue_count (q : kbuf_queue_t) : kbuf_queue_t :=
  let q := q <| bq_cur_num ::= fun n => n + 1 |> in
  let q := if decide (bq_peak_num q < bq_cur_num q) then q <| bq_peak_num := bq_cur_num q |> else q in
  let free := Z.of_nat (Ringbuf.Ringbuf.freesize (bq_ringbuf q)) in
  if decide (free < min_free_buf_size q) then q <| min_free_buf_size := free |> else q.

(** [data] is the memory behind the message pointer. *)
Definition buf_queue_send (notify : oid -> sid -> K unit) (o : oid) (data : list Z) (msg_size : Z)
    (front : bool) : K kstat_t :=
  cpsr ← RHINO_CRITICAL_ENTER;
  b ← blk_get o;
  if decide (obj_type b <> RHINO_BUF_QUEUE_OBJ_TYPE) then exit_ret cpsr RHINO_KOBJ_TYPE_ERR else
  q ← buf_queue_get o;
  if decide (max_msg_size q < msg_size) then exit_ret cpsr RHINO_BUF_QUEUE_MSG_SIZE_OVERFLOW else
  if decide (msg_size = 0) then exit_ret cpsr RHINO_INV_PARAM else
  match blk_list b with
  | [] =>
      r ← deref (if front then Ringbuf.Ringbuf.ringbuf_head_push (bq_ringbuf q) data (Z.to_nat msg_size)
                 else Ringbuf.Ringbuf.ringbuf_push (bq_ringbuf q) data (Z.to_nat msg_size));
      buf_queue_upd o (fun q => q <| bq_ringbuf := r.2 |>);;
      if decide (r.1 <> RHINO_SUCCESS) then
        exit_ret cpsr (if decide (r.1 = RHINO_RINGBUF_FULL) then RHINO_BUF_QUEUE_FULL else r.1)
      else
      buf_queue_upd o buf_queue_count;;
      RHINO_CRITICAL_EXIT cpsr;;
      b ← blk_get o;
      match handle b with Some h => notify o h | None => mret tt end;;
      mret RHINO_SUCCESS
  | task :: _ =>
      k ← task_get task;
      bytes ← deref (Ringbuf.Ringbuf.mem_read data 0 (Z.to_nat msg_size));
      memcpy_to (msg k) bytes;;
      task_upd task (fun k => k <| bq_msg_size := msg_size |>);;
      pend_task_wakeup task;;
      sched_ret cpsr RHINO_SUCCESS
  end.

Definition krhino_buf_queue_send notify (queue : option oid) (msg : option addr) (size : Z) : K kstat_t :=
  match queue, msg with
  | Some o, Some p =>
      data ← gets (fun s => ubufs s !! p); data ← deref data;
      buf_queue_send notify o data size false
  | _, _ => mret RHINO_NULL_PTR
  end.

Definition krhino_buf_queue_send_front notify (queue : option oid) (msg : option addr) (size : Z) : K kstat_t :=
  match queue, msg with
  | Some o, Some p =>
      data ← gets (fun s => ubufs s !! p); data ← deref data;
      buf_queue_send notify o data size true
  | _, _ => mret RHINO_NULL_PTR
  end.

(** up to the context switch *)
Definition krhino_buf_queue_recv (queue : option oid) (ticks : Z) (msg_buf size : option addr) : K kret :=
  match queue, msg_buf, size with
  | Some o, Some m, Some p =>
      cpsr ← RHINO_CRITICAL_ENTER;
      nested ← gets g_intrpt_nested_level;
      if decide (0 < nested /\ ticks <> RHINO_NO_WAIT)
      then Ret <$> exit_ret cpsr RHINO_NOT_CALLED_BY_INTRPT else
      b ← blk_get o;
      if decide (obj_type b <> RHINO_BUF_QUEUE_OBJ_TYPE)
      then Ret <$> exit_ret cpsr RHINO_KOBJ_TYPE_ERR else
      q ← buf_queue_get o;
      if negb (Ringbuf.Ringbuf.ringbuf_is_empty (bq_ringbuf q)) then
        r ← deref (Ringbuf.Ringbuf.ringbuf_pop (bq_ringbuf q));
        (if decide (r.1.1 = RHINO_SUCCESS) then
           memcpy_to (Zpos m) r.2;; store p (Z.of_nat (length r.2))
         else mret tt);;
        buf_queue_upd o (fun q => q <| bq_ringbuf := r.1.2 |>);;
        buf_queue_upd o (fun q => q <| bq_cur_num ::= fun n => wrap size_bits (n - 1) |>);;
        Ret <$> exit_ret cpsr RHINO_SUCCESS
      else
      if decide (ticks = RHINO_NO_WAIT) then
        store p 0;; Ret <$> exit_ret cpsr RHINO_NO_PEND_WAIT
      else
      lock ← gets g_sched_lock;
      if decide (0 < lock) then store p 0;; Ret <$> exit_ret cpsr RHINO_SCHED_DISABLE else
      a ← active;
      task_upd a (fun k => k <| msg := Zpos m |>);;
      pend_to_blk_obj o a ticks;;
      RHINO_CRITICAL_EXIT_SCHED cpsr;;
      mret Pending
  | _, _, _ => mret (Ret RHINO_NULL_PTR)
  end.

(** the rest of [krhino_buf_queue_recv], when the task runs again *)
Definition buf_queue_recv_resume (size : addr) : K kstat_t :=
  cpsr ← RHINO_CRITICAL_ENTER;
  a ← active;
  ret ← pend_state_end_proc a;
  (if decide (ret = RHINO_SUCCESS) then k ← task_get a; store size (bq_msg_size k) else store size 0);;
  exit_ret cpsr ret.

Definition krhino_buf_queue_flush (queue : option oid) : K kstat_t :=
  match queue with
  | None => mret RHINO_NULL_PTR
  | Some o =>
      cpsr ← RHINO_CRITICAL_ENTER;
      INTRPT_NESTED_LEVEL_CHK cpsr id (
      b ← blk_get o;
      if decide (obj_type b <> RHINO_BUF_QUEUE_OBJ_TYPE) then exit_ret cpsr RHINO_KOBJ_TYPE_ERR else
      buf_queue_ringbuf_reset o;;
      buf_queue_upd o (fun q => q <| bq_cur_num := 0 |> <| bq_peak_num := 0 |>
        <| min_free_buf_size := Z.of_nat (Ringbuf.Ringbuf.freesize (bq_ringbuf q)) |>);;
      exit_ret cpsr RHINO_SUCCESS)
  end.

Record kbuf_queue_info_t := mk_kbuf_queue_info {
  info_buf_size : Z;
  info_max_msg_size : Z;
  info_bq_cur_num : Z;
  info_bq_peak_num : Z;
  info_free_buf_size : Z;
  info_min_free_buf_size : Z;
}.

(** The second result is what is written to [\*info]. *)
Definition krhino_buf_queue_info_get (queue : option oid) (info : option addr)
  : K (kstat_t * option kbuf_queue_info_t) :=
  match queue, info with
  | Some o, Some _ =>
      cpsr ← RHINO_CRITICAL_ENTER;
      b ← blk_get o;
      if decide (obj_type b <> RHINO_BUF_QUEUE_OBJ_TYPE)
      then (fun st => (st, None)) <$> exit_ret cpsr RHINO_KOBJ_TYPE_ERR else
      q ← buf_queue_get o;
      let i := mk_kbuf_queue_info (Z.of_nat (Ringbuf.Ringbuf.rend (bq_ringbuf q))) (max_msg_size q)
        (bq_cur_num q) (bq_peak_num q) (Z.of_nat (Ringbuf.Ringbuf.freesize (bq_ringbuf q)))
        (min_free_buf_size q) in
      (fun st => (st, Some i)) <$> exit_ret cpsr RHINO_SUCCESS
  | _, _ => mret (RHINO_NULL_PTR, None)
  end.

Definition krhino_buf_queue_is_valid (queue : option oid) : K kstat_t :=
  match queue with
  | None => mret RHINO_NULL_PTR
  | Some o =>
      b ← blk_get o;
      mret (if decide (obj_type b <> RHINO_BUF_QUEUE_OBJ_TYPE) then RHINO_KOBJ_TYPE_ERR else RHINO_SUCCESS)
  end.

(** ** Sending *)

(** Only the first bytes behind the pointer matter. *)
Lemma push_take rb data n :
  (n <= length data)%nat -> Ringbuf.Ringbuf.msg_ok rb (take n data) ->
  Ringbuf.Ringbuf.ringbuf_push rb data n = Ringbuf.Ringbuf.ringbuf_push rb (take n data) (length (take n data)).
Proof.
  intros Hn Hok. rewrite length_take, Nat.min_l by done.
  assert (Hr : Ringbuf.Ringbuf.mem_read data 0 n = Ringbuf.Ringbuf.mem_read (take n data) 0 n).
  { unfold Ringbuf.Ringbuf.mem_read. rewrite length_take, !decide_True by lia. by rewrite !drop_0, take_take, Nat.min_id. }
  unfold Ringbuf.Ringbuf.ringbuf_push, Ringbuf.Ringbuf.msg_ok in *.
  destruct (Ringbuf.Ringbuf.type rb).
  - rewrite length_take, Nat.min_l in Hok by done.
    assert (Hb : Ringbuf.Ringbuf.blk_size (Ringbuf.Ringbuf.norm_tail rb) = n).
    { unfold Ringbuf.Ringbuf.norm_tail. by case_decide. }
    by rewrite Hb, Hr.
  - by rewrite Hr.
Qed.

(** the buffer [m] with [bytes] copied to its start *)
Definition copied (bytes m : list Z) : list Z := bytes ++ drop (length bytes) m.

Lemma wp_memcpy_to a bytes m (Q : unit -> kstate -> Prop) s :
  ubufs s !! a = Some m -> (length bytes <= length m)%nat ->
  Q tt (s <| ubufs ::= <[a := copied bytes m]> |>) -> wp (memcpy_to (Zpos a) bytes) Q s.
Proof.
  intros Hm Hl HQ. unfold wp, memcpy_to. rewrite Hm. cbn. unfold Ringbuf.Ringbuf.mem_write.
  by rewrite decide_True by done.
Qed.

Lemma obj_buf_queue s o b :
  kinv s -> blk_objs s !! o = Some b -> obj_type b = RHINO_BUF_QUEUE_OBJ_TYPE -> exists q, buf_queues s !! o = Some q.
Proof.
  intros Hinv Hb Hty. pose proof (inv_obj _ _ _ _ _ _ _ _ _ _ _ _ Hinv o b Hb) as Hob.
  unfold obj_ok in Hob. by rewrite Hty in Hob.
Qed.

Lemma kok_buf_queue_upd s o q : kok s -> kok (s <| buf_queues ::= <[o := q]> |>).
Proof.
  intros (Hinv & ? & ? & ?). apply kok_intro; try done. eapply kinv_objs; [exact Hinv|].
  intros o' b Hb. pose proof (inv_obj _ _ _ _ _ _ _ _ _ _ _ _ Hinv o' b Hb) as Hob. unfold obj_ok in *.
  destruct (obj_type b) eqn:Hty; try done. cbn. destruct (decide (o' = o)) as [->|].
  - rewrite lookup_insert_eq. by exists q.
  - rewrite lookup_insert_ne by done. done.
Qed.

(** every waiter gave a buffer that takes the longest message *)
Definition buf_waiters (s : kstate) (o : oid) (max : Z) : Prop :=
  forall t k, tasks s !! t = Some k -> is_pend (task_state k) = true -> blk_obj k = Some o ->
    exists a m, msg k = Zpos a /\ ubufs s !! a = Some m /\ (Z.to_nat max <= length m)%nat.

(** The branches of [krhino_buf_queue_send]. *)
Inductive buf_send_spec (notify : oid -> sid -> K unit) (s : kstate) (o : oid) (m : list Z)
  (msgs : list (list Z)) : kstat_t -> kstate -> Prop :=
| bsend_type b :
    blk_objs s !! o = Some b -> obj_type b <> RHINO_BUF_QUEUE_OBJ_TYPE ->
    buf_send_spec notify s o m msgs RHINO_KOBJ_TYPE_ERR s
| bsend_long q :
    buf_queues s !! o = Some q -> max_msg_size q < Z.of_nat (length m) ->
    buf_send_spec notify s o m msgs RHINO_BUF_QUEUE_MSG_SIZE_OVERFLOW s
| bsend_empty : m = [] -> buf_send_spec notify s o m msgs RHINO_INV_PARAM s
| bsend_full b q :
    blk_objs s !! o = Some b -> blk_list b = [] -> buf_queues s !! o = Some q ->
    Ringbuf.Ringbuf.fits (bq_ringbuf q) msgs m = false ->
    buf_send_spec notify s o m msgs RHINO_BUF_QUEUE_FULL s
| bsend_store b q rb s' :
    blk_objs s !! o = Some b -> blk_list b = [] -> buf_queues s !! o = Some q ->
    Ringbuf.Ringbuf.fits (bq_ringbuf q) msgs m = true -> Ringbuf.Ringbuf.holds rb (msgs ++ [m]) ->
    notified notify o b (s <| buf_queues ::= <[o := buf_queue_count (q <| bq_ringbuf := rb |>)]> |>) = Some (tt, s') ->
    buf_send_spec notify s o m msgs RHINO_SUCCESS s'
| bsend_wake b t l k a dst rq' L' s' :
    blk_objs s !! o = Some b -> blk_list b = t :: l -> tasks s !! t = Some k -> msg k = Zpos a ->
    ubufs s !! a = Some dst ->
    switched ((setq s rq' (<[t := woken_task BLK_FINISH (k <| bq_msg_size := Z.of_nat (length m) |>)]> (tasks s))
                (<[o := b <| blk_list := l |>]> (blk_objs s)) L') <| ubufs ::= <[a := copied m dst]> |>) s' ->
    buf_send_spec notify s o m msgs RHINO_SUCCESS s'.

Lemma wp_buf_hand_over s o b t l k a dst bytes data n (Q : kstat_t -> kstate -> Prop) cpsr :
  kinv s -> pi_inv s -> locked_ready s -> cnt_inv s -> blk_objs s !! o = Some b ->
  obj_type b = RHINO_BUF_QUEUE_OBJ_TYPE -> blk_list b = t :: l -> tasks s !! t = Some k ->
  msg k = Zpos a -> ubufs s !! a = Some dst -> (length bytes <= length dst)%nat ->
  (n <= length data)%nat -> bytes = take n data ->
  (forall rq' L' s', kok s' ->
     switched ((setq s rq' (<[t := woken_task BLK_FINISH (k <| bq_msg_size := Z.of_nat n |>)]> (tasks s))
                (<[o := b <| blk_list := l |>]> (blk_objs s)) L') <| ubufs ::= <[a := copied bytes dst]> |>
                <| irq_off := cpsr |>) s' -> Q RHINO_SUCCESS s') ->
  wp (k ← task_get t;
      bytes ← deref (Ringbuf.Ringbuf.mem_read data 0 n);
      memcpy_to (msg k) bytes;;
      task_upd t (fun k => k <| bq_msg_size := Z.of_nat n |>);;
      pend_task_wakeup t;;
      sched_ret cpsr RHINO_SUCCESS) Q s.
Proof.
  intros Hinv Hpi Hlr Hcnt Ho Hty Hl Ht Hm Ha Hlen Hn -> HQ.
  apply wp_bind. eapply wp_task_get; [done|]. apply wp_bind. eapply wp_deref.
  { unfold Ringbuf.Ringbuf.mem_read. rewrite decide_True by lia. by rewrite drop_0. }
  rewrite Hm. apply wp_bind. eapply wp_memcpy_to; [done..|]. apply wp_bind. eapply wp_task_upd; [done|].
  set (s1 := s <| ubufs ::= <[a := copied (take n data) dst]> |>).
  set (k1 := k <| bq_msg_size := Z.of_nat n |>).
  pose proof (first_waits s o b t l Hinv Ho Hl) as (k' & Hk' & Hp & Hbo). assert (k' = k) as -> by congruence.
  assert (Hnr : task_state k <> K_RDY) by (intros He; by rewrite He in Hp).
  destruct (kinv_unmoved s1 t k k1) as [Hinv2 Hpi2]; [done..| |by eapply (pend_not_idle s)|].
  { apply unmoved_fields; try done; [by eapply (inv_task _ _ _ _ _ _ _ _ _ _ _ _ Hinv t)|].
    intros He; by rewrite He in Hp. }
  set (s2 := setq s1 (g_ready_queue s1) (<[t := k1]> (tasks s1)) (blk_objs s1) (g_tick_head s1)) in *.
  match goal with |- wp _ _ ?x => assert (x = s2) as -> by done end.
  assert (Hlr2 : locked_ready s2).
  { intros Hi Hlk. destruct (Hlr Hi Hlk) as (x & kx & Hx & Hkx & Hr). exists x, kx. cbn.
    rewrite lookup_insert_ne; [done|]. intros ->. congruence. }
  apply wp_bind. eapply (wp_wake_first BLK_FINISH _ s2 o b t l); [apply wakes_wakeup|done..|by rewrite Hty|done|].
  intros k2 rq' L' Hk2 _ _ s3 (Hinv3 & Hpi3 & Hlr3).
  assert (k2 = k1) as -> by (cbn in Hk2; rewrite lookup_insert_eq in Hk2; congruence).
  apply wp_sched_ret; try done. intros s' Hok' Hsw. apply (HQ rq' L'); [done|].
  match goal with Hsw : switched ?x _ |- switched ?y _ => assert (y = x) as -> by kstate_eq end. done.
Qed.

(** the states the set of a buffer queue is notified in *)
Definition buf_sent (s : kstate) (o : oid) (s0 : kstate) : Prop :=
  exists q, s0 = s <| buf_queues ::= <[o := q]> |>.

(** C32: sending to a buffer queue that holds the messages [msgs]: it refuses an empty or too
    long message and one that no longer fits in the ring, stores it behind the others with
    its counters, or copies it into the buffer of the first waiter and wakes that one with
    the length of the message. *)
Theorem krhino_buf_queue_send_correct (notify : oid -> sid -> K unit) (s : kstate) (o : oid) (b : blk_obj_t)
    (q : kbuf_queue_t) (p : addr) (data : list Z) (n : nat) (msgs : list (list Z))
    (Hok : kok s) (Ho : blk_objs s !! o = Some b) (Hnotify : notify_ok notify o b (buf_sent s o))
    (Hq : buf_queues s !! o = Some q) (Hh : Ringbuf.Ringbuf.holds (bq_ringbuf q) msgs)
    (Hdata : ubufs s !! p = Some data) (Hn : (n <= length data)%nat)
    (Hm : Z.of_nat n <= max_msg_size q -> Ringbuf.Ringbuf.msg_ok (bq_ringbuf q) (take n data))
    (Hwt : buf_waiters s o (max_msg_size q)) :
  wp (krhino_buf_queue_send notify (Some o) (Some p) (Z.of_nat n))
    (fun r s' => kok s' /\ buf_send_spec notify s o (take n data) msgs r s') s.
Proof.
  pose proof Hok as (Hinv & Hpi & Hsch & Hcnt). assert (Hlen : length (take n data) = n) by (rewrite length_take; lia).
  unfold krhino_buf_queue_send. apply wp_bind, wp_gets, wp_bind. eapply wp_deref; [done|].
  unfold buf_queue_send. apply wp_bind, wp_critical_enter, wp_bind. eapply wp_blk_get; [done|].
  case_decide as Hty; [apply wp_exit_ret; rewrite irq_restore; split; [done|by eapply bsend_type]|].
  destruct (obj_buf_queue s o b Hinv Ho Hty) as (q0 & Hq0). assert (q0 = q) as -> by congruence.
  apply wp_bind. eapply wp_buf_queue_get; [done|].
  case_decide as Hmax; [apply wp_exit_ret; rewrite irq_restore; split; [done|eapply bsend_long; [done|by rewrite Hlen]]|].
  case_decide as Hz.
  { apply wp_exit_ret; rewrite irq_restore; split; [done|]. apply bsend_empty. by assert (n = 0%nat) as -> by lia. }
  specialize (Hm ltac:(lia)). rewrite Nat2Z.id. destruct (blk_list b) as [|t l] eqn:Hl.
  - pose proof (Ringbuf.Ringbuf.ringbuf_push_enqueues _ _ _ Hh Hm ltac:(lia)) as Hpush.
    rewrite <- push_take in Hpush by done. apply wp_bind.
    destruct (Ringbuf.Ringbuf.fits (bq_ringbuf q) msgs (take n data)) eqn:Hfit.
    + destruct Hpush as (rb & Hpush & Hh' & _). eapply wp_deref; [exact Hpush|]. cbn [fst snd].
      apply wp_bind. eapply wp_buf_queue_upd; [done|]. rewrite decide_False by tauto.
      apply wp_bind. eapply wp_buf_queue_upd; [cbn; apply lookup_insert_eq|]. apply wp_bind, wp_modify.
      set (q' := buf_queue_count (q <| bq_ringbuf := rb |>)). set (s1 := s <| buf_queues ::= <[o := q']> |>).
      match goal with |- wp _ _ ?x => assert (x = s1) as -> by kstate_eq end.
      assert (Hok1 : kok s1) by by apply kok_buf_queue_upd.
      destruct (notified_total notify o b _ s1 Hnotify (ex_intro _ _ eq_refl) Hok1) as (s2 & Hn2 & Hok2).
      apply wp_bind. eapply wp_blk_get; [done|]. apply wp_bind. eapply (wp_intro _ _ _ tt s2); [exact Hn2|].
      apply wp_ret. split; [done|]. by eapply (bsend_store notify s o _ msgs b q rb).
    + eapply wp_deref; [exact Hpush|]. cbn [fst snd]. apply wp_bind. eapply wp_buf_queue_upd; [done|].
      rewrite decide_True by done. apply wp_exit_ret. rewrite decide_True by done.
      match goal with |- kok ?x /\ _ => assert (x = s) as -> end.
      { apply kstate_ext; cbn; try reflexivity. apply insert_id. rewrite Hq. f_equal. by destruct q. }
      split; [done|]. by eapply bsend_full.
  - pose proof (first_waits s o b t l Hinv Ho Hl) as (k & Hk & Hp & Hbo).
    destruct (Hwt t k Hk Hp Hbo) as (a & dst & Hma & Ha & Hdst).
    apply (wp_buf_hand_over _ o b t l k a dst (take n data)); try done; [by apply kok_locked_ready|lia|].
    intros rq' L' s' Hok' Hsw. split; [done|]. eapply (bsend_wake notify s o _ msgs b t l k a dst rq' L'); try done.
    rewrite Hlen. match goal with Hsw : switched ?x _ |- switched ?y _ => assert (y = x) as -> by done end. done.
Qed.

(** ** Receiving *)

(** The branches of [krhino_buf_queue_recv] into the buffer [a] of contents [dst]. *)
Inductive buf_recv_spec (s : kstate) (o : oid) (ticks : Z) (a p : addr) (dst : list Z) (msgs : list (list Z))
  : kret -> kstate -> Prop :=
| brecv_intrpt :
    0 < g_intrpt_nested_level s -> ticks <> RHINO_NO_WAIT ->
    buf_recv_spec s o ticks a p dst msgs (Ret RHINO_NOT_CALLED_BY_INTRPT) s
| brecv_type b :
    blk_objs s !! o = Some b -> obj_type b <> RHINO_BUF_QUEUE_OBJ_TYPE ->
    buf_recv_spec s o ticks a p dst msgs (Ret RHINO_KOBJ_TYPE_ERR) s
| brecv_msg m msgs' q rb :
    msgs = m :: msgs' -> buf_queues s !! o = Some q -> Ringbuf.Ringbuf.holds rb msgs' ->
    buf_recv_spec s o ticks a p dst msgs (Ret RHINO_SUCCESS)
      (s <| ubufs ::= <[a := copied m dst]> |> <| umem ::= <[p := Z.of_nat (length m)]> |>
         <| buf_queues ::= <[o := q <| bq_ringbuf := rb |> <| bq_cur_num := wrap size_bits (bq_cur_num q - 1) |>]> |>)
| brecv_no_wait :
    msgs = [] -> ticks = RHINO_NO_WAIT ->
    buf_recv_spec s o ticks a p dst msgs (Ret RHINO_NO_PEND_WAIT) (s <| umem ::= <[p := 0]> |>)
| brecv_locked :
    msgs = [] -> ticks <> RHINO_NO_WAIT -> 0 < g_sched_lock s ->
    buf_recv_spec s o ticks a p dst msgs (Ret RHINO_SCHED_DISABLE) (s <| umem ::= <[p := 0]> |>)
| brecv_block b t k k' l rq' L' s' :
    msgs = [] -> ticks <> RHINO_NO_WAIT -> g_sched_lock s = 0 -> blk_objs s !! o = Some b ->
    g_active_task s = Some t -> tasks s !! t = Some k -> blocked_task o (k <| msg := Zpos a |>) k' ->
    queued (prio_of (<[t := k']> (tasks s))) t b l ->
    switched (setq s rq' (<[t := k']> (tasks s)) (<[o := b <| blk_list := l |>]> (blk_objs s)) L') s' ->
    buf_recv_spec s o ticks a p dst msgs Pending s'.

(** C33: receiving from a buffer queue that holds the messages [msgs]: the oldest one is
    copied to the caller's buffer with its length; an empty queue refuses or blocks the
    running task, which leaves the address of its buffer for the sender. *)
Theorem krhino_buf_queue_recv_correct (s : kstate) (o : oid) (b : blk_obj_t) (q : kbuf_queue_t) (ticks : Z)
    (a p : addr) (dst : list Z) (msgs : list (list Z))
    (Hok : kok s) (Ho : blk_objs s !! o = Some b) (Hq : buf_queues s !! o = Some q)
    (Hh : Ringbuf.Ringbuf.holds (bq_ringbuf q) msgs) (Hdst : ubufs s !! a = Some dst)
    (Hroom : Forall (fun m => length m <= length dst)%nat msgs)
    (Ht : 0 <= ticks <= RHINO_WAIT_FOREVER) (Hidle : g_active_task s <> Some (g_idle_task s)) :
  wp (krhino_buf_queue_recv (Some o) ticks (Some a) (Some p))
    (fun r s' => kok s' /\ buf_recv_spec s o ticks a p dst msgs r s') s.
Proof.
  pose proof Hok as (Hinv & Hpi & Hsch & Hcnt). pose proof Hcnt as [Hc1 Hc2].
  unfold krhino_buf_queue_recv. apply wp_bind, wp_critical_enter. apply wp_bind, wp_gets. cbn [g_intrpt_nested_level].
  case_decide as Hn; [apply wp_fmap, wp_exit_ret; rewrite irq_restore; split; [done|]; cbn in Hn; destruct Hn; by apply brecv_intrpt|].
  cbn in Hn. apply wp_bind. eapply wp_blk_get; [done|].
  case_decide as Hty; [apply wp_fmap, wp_exit_ret; rewrite irq_restore; split; [done|by eapply brecv_type]|].
  apply wp_bind. eapply wp_buf_queue_get; [done|].
  rewrite (Ringbuf.Ringbuf.holds_nil_empty _ _ Hh). destruct msgs as [|m msgs].
  - rewrite bool_decide_true by done. cbn [negb]. case_decide as Hnw.
    { apply wp_bind, wp_modify. apply wp_fmap, wp_exit_ret.
      match goal with |- kok ?x /\ _ => assert (x = s <| umem ::= <[p := 0]> |>) as -> by done end.
      split; [done|by apply brecv_no_wait]. }
    apply wp_bind, wp_gets. cbn [g_sched_lock]. case_decide as Hlk; cbn in Hlk.
    { apply wp_bind, wp_modify. apply wp_fmap, wp_exit_ret.
      match goal with |- kok ?x /\ _ => assert (x = s <| umem ::= <[p := 0]> |>) as -> by done end.
      split; [done|by apply brecv_locked]. }
    assert (Hn0 : ~ 0 < g_intrpt_nested_level s) by tauto.
    destruct (active_ready s Hok Hn0) as (t & k & Ha & Hk & Hr).
    apply wp_bind. eapply wp_active; [done|]. apply wp_bind. eapply wp_task_upd; [done|].
    match goal with |- wp _ _ ?x => assert (x = (setq s (g_ready_queue s) (<[t := k <| msg := Zpos a |>]> (tasks s))
      (blk_objs s) (g_tick_head s)) <| irq_off := true |>) as -> by done end.
    apply (wp_block_noted s o b t k (k <| msg := Zpos a |>)); try done.
    { congruence. }
    { apply unmoved_fields; try done; [by eapply (inv_task _ _ _ _ _ _ _ _ _ _ _ _ Hinv t)|by rewrite Hr]. }
    { intros l. unfold obj_ok. cbn. rewrite Hty. by exists q. }
    { by rewrite Hty. }
    { unfold RHINO_NO_WAIT in Hnw. lia. }
    { lia. }
    intros rq' k' l L' s' Hk' Hl Hok' Hsw. split; [done|].
    apply (brecv_block s o ticks a p dst [] b t k k' l rq' L'); try done. lia.
  - rewrite bool_decide_false by done. cbn [negb].
    destruct (Ringbuf.Ringbuf.ringbuf_pop_dequeues _ _ Hh) as (rb & Hpop & Hh' & _).
    apply Forall_cons in Hroom as [Hroom _].
    apply wp_bind. eapply wp_deref; [exact Hpop|]. cbn [fst snd]. rewrite decide_True by done.
    apply wp_bind, wp_bind. eapply wp_memcpy_to; [done..|]. apply wp_modify.
    apply wp_bind. eapply wp_buf_queue_upd; [done|].
    apply wp_bind. eapply wp_buf_queue_upd; [cbn; apply lookup_insert_eq|]. apply wp_fmap, wp_exit_ret.
    match goal with |- kok ?x /\ _ => assert (x = s <| ubufs ::= <[a := copied m dst]> |> <| umem ::= <[p := Z.of_nat (length m)]> |>
         <| buf_queues ::= <[o := q <| bq_ringbuf := rb |> <| bq_cur_num := wrap size_bits (bq_cur_num q - 1) |>]> |>)
      as -> by kstate_eq end.
    split; [by apply kok_buf_queue_upd|]. by eapply brecv_msg.
Qed.

End bufqueue.

(** ** Witnesses *)

#[local] Existing Instance linuxhost.

Lemma demo_ring_empty : Ringbuf.Ringbuf.holds (empty_ring Ringbuf.Ringbuf.RINGBUF_TYPE_DYN 32 8) [].
Proof. apply Ringbuf.Ringbuf.holds_init; [cbn; lia|done]. Qed.

(** The task 10 waits with the buffer 40; the message of four bytes is at 42. *)
Lemma krhino_buf_queue_send_correct_witness :
  wp (krhino_buf_queue_send (fun _ _ => mret tt) (Some 24%positive) (Some 42%positive) (Z.of_nat 4))
    (fun r s' => kok s' /\ buf_send_spec (fun _ _ => mret tt) demo 24%positive (take 4 [1;2;3;4]) [] r s') demo.
Proof.
  eapply (krhino_buf_queue_send_correct (fun _ _ => mret tt) demo 24%positive (demo_obj RHINO_BUF_QUEUE_OBJ_TYPE [10%positive])
    _ 42%positive [1;2;3;4] 4 [] demo_ok).
  - reflexivity.
  - intros h s0 Hh. discriminate Hh.
  - reflexivity.
  - apply demo_ring_empty.
  - reflexivity.
  - cbn. lia.
  - vm_compute. done.
  - intros t k Hk Hp Hbo. cbn in Hk. task_cases Hk; cbn in Hp, Hbo; try discriminate.
    exists 40%positive, (replicate 8 0). split; [reflexivity|]. split; [reflexivity|]. vm_compute. lia.
Defined.

Lemma krhino_buf_queue_recv_correct_witness :
  wp (krhino_buf_queue_recv (Some 28%positive) 5 (Some 40%positive) (Some 43%positive))
    (fun r s' => kok s' /\ buf_recv_spec demo 28%positive 5 40%positive 43%positive (replicate 8 0) [] r s') demo.
Proof.
  eapply (krhino_buf_queue_recv_correct demo 28%positive (demo_obj RHINO_BUF_QUEUE_OBJ_TYPE [])
    _ 5 40%positive 43%positive (replicate 8 0) [] demo_ok).
  - reflexivity.
  - reflexivity.
  - apply demo_ring_empty.
  - reflexivity.
  - constructor.
  - vm_compute; split; discriminate.
  - discriminate.
Defined.

End BufQueue.
