(* ===== verification/ObjSet.v ===== *)
(** * Sets of kernel objects ([k_obj_set.c])

    A set holds a queue of the addresses of the member objects that got something to
    receive.  A member names its set in [handle] and notifies it of every new unit. *)
From S2P Require Import Prelude Config Kernel Sched TickList Pend Inv Queue.
From S2P Require Demo.
Import Sched TickList Pend Queue.

Module ObjSet.
Section objset.
Context {cfg : RhinoConfig}.

(** [handle->queue] *)
Definition set_queue (handle : sid) : K oid := q ← gets (fun s => kobj_sets s !! handle); deref q.

(** [handle->notify].  The queue of a set may itself be in a set, hence the recursion. *)
Fixpoint krhino_kobj_set_notify (fuel : nat) (obj : oid) (handle : sid) : K unit :=
  match fuel with
  | O => fault
  | S fuel =>
      q ← set_queue handle;
      stat ← krhino_queue_back_send (krhino_kobj_set_notify fuel) (Some q) (Zpos obj);
      if decide (stat <> RHINO_SUCCESS) then k_err_proc stat else mret tt
  end.

(** Each level of the recursion takes a free place of some queue. *)
Definition notify_fuel (s : kstate) : nat :=
  S (map_fold (fun _ q n => Z.to_nat (q_size q) + n)%nat 0%nat (queues s)).

Definition kobj_notify (obj : oid) (handle : sid) : K unit :=
  fuel ← gets notify_fuel; krhino_kobj_set_notify fuel obj handle.

(** A set under construction is its address and the address of its queue. *)
Definition krhino_kobj_set_create (handle : option (sid * oid)) (name start : option addr) (msg_num : Z)
  : K kstat_t :=
  match handle with
  | None => mret RHINO_NULL_PTR
  | Some (h, q) =>
      stat ← krhino_queue_create (Some q) name start msg_num;
      if decide (stat <> RHINO_SUCCESS) then mret stat else
      modify (fun s => s <| kobj_sets ::= <[h := q]> |>);;
      mret RHINO_SUCCESS
  end.

(** [alloc] and [start] are what the two calls of [krhino_mm_alloc] returned. *)
Definition krhino_kobj_set_dyn_create (handle name : option addr) (msg_num : Z)
    (alloc : option (sid * oid)) (start : option addr) : K kstat_t :=
  match handle with
  | None => mret RHINO_NULL_PTR
  | Some p =>
      match alloc with
      | None => mret RHINO_NO_MEM
      | Some (h, q) =>
          match start with
          | None => mret RHINO_NO_MEM
          | Some st =>
              stat ← krhino_queue_create (Some q) name (Some st) msg_num;
              if decide (stat <> RHINO_SUCCESS) then
                krhino_mm_free h;; krhino_mm_free st;; mret stat
              else
                modify (fun s => s <| kobj_sets ::= <[h := q]> |>);;
                store p (Zpos h);;
                mret RHINO_SUCCESS
          end
      end
  end.

Definition krhino_kobj_set_del (handle : option sid) : K kstat_t :=
  match handle with
  | None => mret RHINO_NULL_PTR
  | Some h => q ← set_queue h; krhino_queue_del (Some q)
  end.

Definition krhino_kobj_set_dyn_del (handle : option sid) : K kstat_t :=
  match handle with
  | None => mret RHINO_NULL_PTR
  | Some h =>
      q ← set_queue h;
      stat ← krhino_queue_del (Some q);
      kq ← queue_get q;
      krhino_mm_free (queue_start kq);;
      krhino_mm_free h;;
      mret stat
  end.

(** The second result is what is written to [\*count]. *)
Definition kobj_internal_count_get (obj : oid) : K (kstat_t * Z) :=
  b ← blk_get obj;
  match obj_type b with
  | RHINO_SEM_OBJ_TYPE => sm ← sem_get obj; mret (RHINO_SUCCESS, count sm)
  | RHINO_BUF_QUEUE_OBJ_TYPE => q ← buf_queue_get obj; mret (RHINO_SUCCESS, bq_cur_num q)
  | RHINO_QUEUE_OBJ_TYPE => q ← queue_get obj; mret (RHINO_SUCCESS, q_cur_num q)
  | _ => mret (RHINO_KOBJ_TYPE_ERR, 0)
  end.

(** [for (; count > 0; count--)], ignoring the status *)
Fixpoint send_times (n : nat) (q obj : oid) : K unit :=
  match n with
  | O => mret tt
  | S n => _ ← krhino_queue_back_send kobj_notify (Some q) (Zpos obj); send_times n q obj
  end.

Definition kobj_insert_prepare (handle : sid) (obj : oid) : K kstat_t :=
  cpsr ← RHINO_CRITICAL_ENTER;
  b ← blk_get obj;
  if decide (blk_list b <> []) then exit_ret cpsr RHINO_KOBJ_BLK else
  q ← set_queue handle;
  r ← krhino_queue_info_get (Some q) (Some handle);
  info ← deref r.2;
  let free := info_size info - info_cur_num info in
  r ← kobj_internal_count_get obj;
  if decide (r.1 <> RHINO_SUCCESS) then exit_ret cpsr r.1 else
  if decide (free < r.2) then exit_ret cpsr RHINO_KOBJ_SET_FULL else
  send_times (Z.to_nat r.2) q obj;;
  exit_ret cpsr RHINO_SUCCESS.

Definition krhino_kobj_set_insert (obj : option oid) (handle : option sid) : K kstat_t :=
  match obj, handle with
  | Some o, Some h =>
      stat ← kobj_insert_prepare h o;
      if decide (stat <> RHINO_SUCCESS) then mret stat else
      cpsr ← RHINO_CRITICAL_ENTER;
      blk_upd o (fun b => b <| Kernel.handle := Some h |>);;
      exit_ret cpsr RHINO_SUCCESS
  | _, _ => mret RHINO_NULL_PTR
  end.

Definition krhino_kobj_set_rm (obj : option oid) : K kstat_t :=
  match obj with
  | None => mret RHINO_NULL_PTR
  | Some o =>
      cpsr ← RHINO_CRITICAL_ENTER;
      r ← kobj_internal_count_get o;
      if decide (r.1 <> RHINO_SUCCESS) then exit_ret cpsr r.1 else
      if decide (r.2 <> 0) then exit_ret cpsr RHINO_KOBJ_DEL_ERR else
      blk_upd o (fun b => b <| Kernel.handle := None |>);;
      exit_ret cpsr RHINO_SUCCESS
  end.

(** the rest, when the task runs again, is [queue_recv_resume] *)
Definition krhino_kobj_select (handle : option sid) (obj : option addr) (ticks : Z) : K kret :=
  match handle with
  | None => mret (Ret RHINO_NULL_PTR)
  | Some h => q ← set_queue h; krhino_queue_recv (Some q) ticks obj
  end.

(** ** A notification ends

    A set may hold the queue of another set, or of itself, and then a notification is passed
    on; every time it is, the queue it came through has one place less. *)

(** The queue of every set is a queue object that holds messages. *)
Record sets_ok (s : kstate) : Prop := {
  so_queue : forall h q, kobj_sets s !! h = Some q -> exists b kq ms,
    blk_objs s !! q = Some b /\ obj_type b = RHINO_QUEUE_OBJ_TYPE /\ queues s !! q = Some kq /\ queue_holds kq ms;
  so_handle : forall o b h, blk_objs s !! o = Some b -> handle b = Some h -> is_Some (kobj_sets s !! h);
  so_addr : forall o, is_Some (blk_objs s !! o) -> Z.pos o < 2 ^ size_bits;
  so_num : forall q kq, queues s !! q = Some kq -> 0 <= q_cur_num kq;
}.

(** the places left in all queues *)
Definition free_places (s : kstate) : nat :=
  map_fold (fun _ q n => Z.to_nat (q_size q - q_cur_num q) + n)%nat 0%nat (queues s).

Lemma sum_split (f : kqueue_t -> nat) (m : gmap oid kqueue_t) o q :
  m !! o = Some q -> map_fold (fun _ q n => f q + n)%nat 0%nat m =
    (f q + map_fold (fun _ q n => f q + n)%nat 0%nat (delete o m))%nat.
Proof. intros Ho. apply (map_fold_delete_L (fun _ q n => f q + n)%nat); [|done]. intros. lia. Qed.

Lemma free_places_store s o q q' :
  queues s !! o = Some q -> q_cur_num q < q_size q -> q_size q' = q_size q -> q_cur_num q' = q_cur_num q + 1 ->
  (free_places (s <| queues ::= <[o := q']> |>) < free_places s)%nat.
Proof.
  intros Ho Hlt Hsz Hcur. unfold free_places. cbn.
  rewrite (sum_split (fun q => Z.to_nat (q_size q - q_cur_num q)) (<[o := q']> _) o q') by apply lookup_insert_eq.
  rewrite (sum_split (fun q => Z.to_nat (q_size q - q_cur_num q)) (queues s) o q) by done.
  rewrite delete_insert_eq. lia.
Qed.

Lemma notify_fuel_enough s : sets_ok s -> (free_places s < notify_fuel s)%nat.
Proof.
  intros Hs. unfold free_places, notify_fuel. apply Nat.lt_succ_r.
  pose proof (so_num s Hs) as Hn. revert Hn. generalize (queues s). intros m.
  induction m as [|o q m Ho IH] using map_ind; intros Hn; [done|].
  pose proof (Hn o q (lookup_insert_eq _ _ _)).
  rewrite (sum_split (fun q => Z.to_nat (q_size q - q_cur_num q)) _ o q) by apply lookup_insert_eq.
  rewrite (sum_split (fun q => Z.to_nat (q_size q)) _ o q) by apply lookup_insert_eq.
  rewrite delete_insert_id by done.
  assert (forall o' q', m !! o' = Some q' -> 0 <= q_cur_num q') as Hm.
  { intros o' q' Ho'. apply (Hn o'). rewrite lookup_insert_ne; [done|congruence]. }
  specialize (IH Hm). lia.
Qed.

Lemma sets_ok_same s s' :
  sets_ok s -> kobj_sets s' = kobj_sets s ->
  (forall o, (fun b => (obj_type b, handle b)) <$> blk_objs s' !! o = (fun b => (obj_type b, handle b)) <$> blk_objs s !! o) ->
  queues s' = queues s -> sets_ok s'.
Proof.
  intros [Hq Hh Ha Hn] Hs Hb Hqs.
  assert (Hback : forall o b', blk_objs s' !! o = Some b' -> exists b, blk_objs s !! o = Some b /\
    obj_type b = obj_type b' /\ handle b = handle b').
  { intros o b' Ho. specialize (Hb o). rewrite Ho in Hb. destruct (blk_objs s !! o) as [b|]; [|done].
    injection Hb as ? ?. by exists b. }
  split; rewrite ?Hs, ?Hqs; [|intros o b' h Ho Hh'|intros o [b' Ho]|done].
  - intros h q Hhq. destruct (Hq h q Hhq) as (b & kq & ms & Ho & Hty & Hkq & Hms).
    specialize (Hb q). rewrite Ho in Hb. destruct (blk_objs s' !! q) as [b'|]; [|done]. injection Hb as Hb _.
    exists b', kq, ms. by rewrite Hb.
  - destruct (Hback o b' Ho) as (b & Hob & _ & Hhb). eapply Hh; [exact Hob|congruence].
  - destruct (Hback o b' Ho) as (b & Hob & _). apply Ha. by exists b.
Qed.

Lemma sets_ok_store s o q' ms' :
  sets_ok s -> queue_holds q' ms' -> sets_ok (s <| queues ::= <[o := q']> |>).
Proof.
  intros [Hq Hh Ha Hn] Hh'. split; cbn; try done.
  - intros h q Hhq. destruct (Hq h q Hhq) as (b & kq & ms & Ho & Hty & Hkq & Hms).
    destruct (decide (q = o)) as [->|]; [exists b, q', ms'; by rewrite lookup_insert_eq|].
    exists b, kq, ms. by rewrite lookup_insert_ne by congruence.
  - intros q kq [[<- <-]|[_ Hkq]]%lookup_insert_Some; [|by apply (Hn q)]. rewrite (qh_num _ _ Hh'). lia.
Qed.

(** What a notification of the set [h] does: it sends the address of the object to the
    set's queue, with the notification of the set that queue is in, and a refusal is logged. *)
Definition notify_spec (notify : oid -> sid -> K unit) (s : kstate) (obj : oid) (h : sid) (s' : kstate) : Prop :=
  exists q kq r s1, kobj_sets s !! h = Some q /\ queues s !! q = Some kq /\
    (exists ms, queue_holds kq ms /\ msg_send_spec notify s q (Z.pos obj) QMSG_SEND_TO_END false ms r s1) /\
    s' = if decide (r = RHINO_SUCCESS) then s1 else s1 <| err_log ::= cons r |>.

Lemma sets_ok_switched s rq T b q l L s' :
  sets_ok s -> blk_objs s !! q = Some b ->
  switched (setq s rq T (<[q := b <| blk_list := l |>]> (blk_objs s)) L) s' -> sets_ok s'.
Proof.
  intros Hs Hb (p & a & ->). apply (sets_ok_same s); try done. cbn. intros o.
  destruct (decide (o = q)) as [->|]; [by rewrite lookup_insert_eq, Hb|by rewrite lookup_insert_ne].
Qed.

Lemma kok_logged s r : kok s -> kok (s <| err_log ::= cons r |>).
Proof. intros (? & ? & ? & ?). by apply kok_intro. Qed.

Lemma notify_ends fuel : forall s obj h,
  kok s -> sets_ok s -> is_Some (kobj_sets s !! h) -> Z.pos obj < 2 ^ size_bits -> (free_places s < fuel)%nat ->
  wp (krhino_kobj_set_notify fuel obj h)
    (fun _ s' => kok s' /\ sets_ok s' /\ notify_spec (krhino_kobj_set_notify (pred fuel)) s obj h s') s.
Proof.
  induction fuel as [|fuel IH]; intros s obj h Hok Hs [q Hq] Hobj Hfuel; [lia|]. cbn [krhino_kobj_set_notify pred].
  destruct (so_queue s Hs h q Hq) as (b & kq & ms & Hb & Hty & Hkq & Hms).
  apply wp_bind, wp_bind, wp_gets. eapply wp_deref; [done|]. apply wp_bind.
  assert (Hstep : forall h' s0, handle b = Some h' -> queue_sent s q kq s0 -> kok s0 ->
    wp (krhino_kobj_set_notify fuel q h') (fun _ s' => kok s' /\ sets_ok s') s0).
  { intros h' s0 Hh' (q' & ms' & -> & Hms' & Hsz & Hcur) Hok0.
    pose proof (proj1 Hok0) as Hinv0. destruct (obj_queue _ q b Hinv0 Hb Hty) as (q1 & Hq1 & Hnum & _).
    cbn in Hq1. rewrite lookup_insert_eq in Hq1. injection Hq1 as <-.
    eapply wp_mono; [apply IH|naive_solver]; try done.
    - by eapply sets_ok_store.
    - by eapply (so_handle s Hs).
    - apply (so_addr s Hs). by exists b.
    - pose proof (free_places_store s q kq q' Hkq ltac:(lia) Hsz Hcur). lia. }
  eapply wp_mono; [apply (wp_msg_send (krhino_kobj_set_notify fuel) s q b kq (Z.pos obj) QMSG_SEND_TO_END WAKE_ONE_TASK ms);
    try done|].
  - intros h' s0 Hh' Hsent Hok0. specialize (Hstep h' s0 Hh' Hsent Hok0). unfold wp in Hstep.
    destruct (krhino_kobj_set_notify fuel q h' s0) as [[[] s1]|]; [|done]. exists s1. split; [done|apply Hstep].
  - intros r s1 [Hok1 Hspec].
    assert (Hs1 : sets_ok s1).
    { inversion Hspec as [| |b0 kq0 rb s2 Hb0 Hl Hkq0 Hlt q' Hms' Hn|b0 t l k rq' L' s2 Hb0 Hl Ha Hk Hsw|b0 rq' L' s2 Hb0 Hl Ha Hsw];
        subst; try done.
      - assert (b0 = b) as -> by congruence. assert (kq0 = kq) as -> by congruence.
        unfold notified in Hn. destruct (handle b) as [h'|] eqn:Hh'; [|injection Hn as <-; by eapply sets_ok_store].
        assert (Hsent : queue_sent s q kq (s <| queues ::= <[q := q']> |>)) by (exists q', (placed QMSG_SEND_TO_END (Z.pos obj) ms); done).
        pose proof (so_num s Hs q kq Hkq).
        assert (Hok2 : kok (s <| queues ::= <[q := q']> |>)).
        { apply kok_queue_upd; [done|cbn; lia|]. intros b' Hb'. by assert (b' = b) as -> by congruence; rewrite Hl. }
        by destruct (wp_run _ _ _ _ _ (Hstep h' _ eq_refl Hsent Hok2) Hn).
      - by eapply sets_ok_switched. }
    assert (Hfin : forall s2, s2 = (if decide (r = RHINO_SUCCESS) then s1 else s1 <| err_log ::= cons r |>) ->
      notify_spec (krhino_kobj_set_notify fuel) s obj h s2).
    { intros s2 ->. exists q, kq, r, s1. repeat split; try done. by exists ms. }
    destruct (decide (r = RHINO_SUCCESS)) as [Hr|Hr];
      [rewrite (decide_False (P := r <> _)) by auto; apply wp_ret|rewrite decide_True by done; apply wp_modify].
    + split; [done|]. split; [done|by apply Hfin].
    + split; [by apply kok_logged|]. split; [by apply (sets_ok_same s1)|by apply Hfin].
Qed.

Lemma wp_kobj_notify s obj h :
  kok s -> sets_ok s -> is_Some (kobj_sets s !! h) -> Z.pos obj < 2 ^ size_bits ->
  wp (kobj_notify obj h)
    (fun _ s' => kok s' /\ sets_ok s' /\ notify_spec (krhino_kobj_set_notify (pred (notify_fuel s))) s obj h s') s.
Proof. intros. apply wp_bind, wp_gets, notify_ends; try done. by apply notify_fuel_enough. Qed.

(** The notification meets what the objects ask of it. *)
Lemma kobj_notify_ok s o b (P : kstate -> Prop) :
  blk_objs s !! o = Some b -> (forall s0, P s0 -> sets_ok s0 /\ blk_objs s0 = blk_objs s) -> notify_ok kobj_notify o b P.
Proof.
  intros Hb HP h s0 Hh HP0 Hok. destruct (HP s0 HP0) as [Hs He]. rewrite <- He in Hb.
  pose proof (wp_kobj_notify s0 o h Hok Hs (so_handle s0 Hs _ _ _ Hb Hh)
    (so_addr s0 Hs o (ex_intro _ b Hb))) as H. unfold wp in H.
  destruct (kobj_notify o h s0) as [[[] s1]|]; [|done]. exists s1. split; [done|apply H].
Qed.

(** C34: notifying a set of objects ends, however the sets are nested, cyclic ones included:
    the object's address is sent to the queue of the set, a refusal is logged, and neither the
    kernel's invariant nor the sets' is disturbed.  With this the semaphores, queues and
    buffer queues of a system with sets need nothing more of the notification they are
    given. *)
Theorem kobj_notify_correct (s : kstate) (obj : oid) (h : sid) (b : blk_obj_t)
    (Hok : kok s) (Hs : sets_ok s) (Hb : blk_objs s !! obj = Some b) (Hh : handle b = Some h) :
  wp (kobj_notify obj h)
    (fun _ s' => kok s' /\ sets_ok s' /\ notify_spec (krhino_kobj_set_notify (pred (notify_fuel s))) s obj h s') s.
Proof.
  apply wp_kobj_notify; try done; [by eapply so_handle|]. apply (so_addr s Hs). by exists b.
Qed.


End objset.

#[local] Existing Instance linuxhost.

Lemma demo_sets_ok : sets_ok Demo.demo.
Proof.
  split.
  - intros h q Hq. cbn in Hq. apply lookup_insert_Some in Hq as [[<- <-]|[_ Hq]]; [|done].
    exists (Demo.demo_obj RHINO_QUEUE_OBJ_TYPE []), demo_queue, [7; 9].
    split; [done|]. split; [done|]. split; [done|apply demo_queue_holds].
  - intros o b h Ho Hh. cbn in Ho. Demo.obj_cases Ho; try discriminate Hh. injection Hh as <-. by eexists.
  - intros o [b Ho]. cbn in Ho. Demo.obj_cases Ho; reflexivity.
  - intros q kq Hq. cbn in Hq. unfold Demo.demo_queues in Hq. Demo.lookup_cases Hq; discriminate.
Qed.

Lemma kobj_notify_correct_witness :
  wp (kobj_notify 25%positive 54%positive)
    (fun _ s' => kok s' /\ sets_ok s' /\
       notify_spec (krhino_kobj_set_notify (pred (notify_fuel Demo.demo))) Demo.demo 25%positive 54%positive s') Demo.demo.
Proof.
  apply (kobj_notify_correct Demo.demo 25%positive 54%positive
    (mk_blk_obj [] BLK_POLICY_PRI RHINO_SEM_OBJ_TYPE (Some 54%positive)) Demo.demo_ok demo_sets_ok); reflexivity.
Defined.

End ObjSet.
