(* ===== verification/Task.v ===== *)
(** * Tasks ([k_task.c])

    Creation, sleep, suspension, priority changes, aborted waits and deletion.  A call
    that lets its own task sleep returns [Pending] and goes on with [pend_resume]. *)
From S2P Require Import Prelude Config Kernel Sched TickList Pend Inv Prio Sem.
Import Sched TickList Pend Prio Sem.

Module Task.

(** What the port provides: [cpu_task_stack_init] fills the words of a new stack and gives
    the stack pointer. *)
Class Port := {
  cpu_task_stack_init : list Z -> Z -> addr -> list Z * Z;
}.

Section task.
Context {cfg : RhinoConfig} {port : Port}.

Definition RHINO_TASK_STACK_OVF_MAGIC : Z := 0xdeadbeaf.
(** [sizeof(cpu_stack_t)] *)
Definition cpu_stack_size : Z := 4.

(** [memset(task, 0, sizeof(ktask_t))] *)
Definition zero_task : ktask_t :=
  mk_ktask 0 (replicate (Z.to_nat RHINO_CONFIG_TASK_INFO_NUM) 0) None 0 0 None 0 0 false 0 0 K_SEED
    BLK_FINISH None None 0 0 0 None 0 0 0 0 0.

(** The fields [task_create] sets before the stack is there. *)
Definition init_task (prio ticks : Z) (stack_buf : addr) (stack_size : Z) (autorun mm_alloc_flag : Z)
  : ktask_t :=
  let total := if decide (0 < ticks) then wrap 32 ticks else RHINO_CONFIG_TIME_SLICE_DEFAULT in
  let k := zero_task <| time_total := total |> <| time_slice := total |> <| sched_policy := KSCHED_RR |> in
  let k := if decide (0 < autorun) then k <| task_state := K_RDY |>
           else k <| task_state := K_SUSPENDED |> <| suspend_count := 1 |> in
  k <| task_stack_base := Some stack_buf |> <| Kernel.prio := prio |> <| b_prio := prio |>
    <| Kernel.stack_size := wrap 32 stack_size |> <| Kernel.mm_alloc_flag := mm_alloc_flag |>.

(** Clear the stack, mark its end and let the port fill it. *)
Definition stack_prepare (stack_buf : addr) (stack_size arg : Z) (entry : addr) : K Z := fun s =>
  m ← ubufs s !! stack_buf;
  let n := Z.to_nat stack_size in
  if decide (n <= length m)%nat then
    let m1 := <[0%nat := RHINO_TASK_STACK_OVF_MAGIC]> (replicate n 0) in
    let '(m2, sp) := cpu_task_stack_init m1 arg entry in
    Some (sp, s <| ubufs ::= <[stack_buf := m2 ++ drop n m]> |>)
  else None.

Definition task_create (task : option tid) (name : option addr) (arg prio ticks : Z)
    (stack_buf : option addr) (stack_size : Z) (entry : option addr) (autorun mm_alloc_flag : Z)
  : K kstat_t :=
  match task, name, entry, stack_buf with
  | Some t, Some _, Some ent, Some stk =>
      if decide (stack_size = 0) then mret RHINO_TASK_INV_STACK_SIZE else
      if decide (RHINO_CONFIG_PRI_MAX <= prio) then mret RHINO_BEYOND_MAX_PRI else
      cpsr ← RHINO_CRITICAL_ENTER;
      INTRPT_NESTED_LEVEL_CHK cpsr id (
      spawned ← gets g_idle_task_spawned;
      if decide (prio = RHINO_IDLE_PRI /\ 0 < spawned) then exit_ret cpsr RHINO_IDLE_TASK_EXIST else
      (if decide (prio = RHINO_IDLE_PRI)
       then modify (fun s => s <| g_idle_task_spawned := 1 |>) else mret tt);;
      RHINO_CRITICAL_EXIT cpsr;;
      modify (fun s => s <| tasks ::= <[t := init_task prio ticks stk stack_size autorun mm_alloc_flag]> |>);;
      sp ← stack_prepare stk stack_size arg ent;
      task_upd t (fun k => k <| task_stack := sp |>);;
      cpsr ← RHINO_CRITICAL_ENTER;
      modify (fun s => s <| g_kobj_list ::= fun l => l <| task_list_head ::= fun q => q ++ [t] |> |>);;
      if decide (0 < autorun) then
        ready_list_add_tail t;;
        stat ← gets g_sys_stat;
        if decide (stat = RHINO_RUNNING) then sched_ret cpsr RHINO_SUCCESS
        else exit_ret cpsr RHINO_SUCCESS
      else exit_ret cpsr RHINO_SUCCESS)
  | _, _, _, _ => mret RHINO_NULL_PTR
  end.

Definition krhino_task_create (task : option tid) (name : option addr) (arg prio ticks : Z)
    (stack_buf : option addr) (stack_size : Z) (entry : option addr) (autorun : Z) : K kstat_t :=
  task_create task name arg prio ticks stack_buf stack_size entry autorun K_OBJ_STATIC_ALLOC.

(** [stack_alloc] and [alloc] are what the two calls of [krhino_mm_alloc] returned. *)
Definition task_dyn_create (task : option addr) (name : option addr) (arg pri ticks stack : Z)
    (entry : option addr) (autorun : Z) (stack_alloc : option addr) (alloc : option tid) : K kstat_t :=
  match task with
  | None => mret RHINO_NULL_PTR
  | Some p =>
      if decide (stack = 0) then mret RHINO_INV_PARAM else
      match stack_alloc with
      | None => mret RHINO_NO_MEM
      | Some stk =>
          match alloc with
          | None => krhino_mm_free stk;; mret RHINO_NO_MEM
          | Some task_obj =>
              store p (Zpos task_obj);;
              ret ← task_create (Some task_obj) name arg pri ticks (Some stk) stack entry autorun
                      K_OBJ_DYN_ALLOC;
              if decide (ret <> RHINO_SUCCESS /\ ret <> RHINO_STOPPED) then
                krhino_mm_free stk;; krhino_mm_free task_obj;; store p 0;; mret ret
              else mret ret
          end
      end
  end.

Definition krhino_task_dyn_create (task : option addr) (name : option addr) (arg pri ticks stack : Z)
    (entry : option addr) (autorun : Z) (stack_alloc : option addr) (alloc : option tid) : K kstat_t :=
  task_dyn_create task name arg pri ticks stack entry autorun stack_alloc alloc.

(** up to the context switch; the task resumes with [pend_resume] *)
Definition krhino_task_sleep (ticks : Z) : K kret :=
  if decide (ticks = 0) then mret (Ret RHINO_INV_PARAM) else
  cpsr ← RHINO_CRITICAL_ENTER;
  INTRPT_NESTED_LEVEL_CHK cpsr Ret (
  lock ← gets g_sched_lock;
  if decide (0 < lock) then Ret <$> exit_ret cpsr RHINO_SCHED_DISABLE else
  a ← active;
  task_upd a (fun k => k <| task_state := K_SLEEP |>);;
  tick_list_insert a ticks;;
  ready_list_rm a;;
  RHINO_CRITICAL_EXIT_SCHED cpsr;;
  mret Pending).

Definition krhino_task_yield : K kstat_t :=
  cpsr ← RHINO_CRITICAL_ENTER;
  a ← active;
  ready_list_head_to_tail a;;
  sched_ret cpsr RHINO_SUCCESS.

Definition krhino_cur_task_get : K (option tid) :=
  cpsr ← RHINO_CRITICAL_ENTER;
  task ← gets g_active_task;
  RHINO_CRITICAL_EXIT cpsr;;
  mret task.

Definition task_suspend (task : tid) : K kstat_t :=
  cpsr ← RHINO_CRITICAL_ENTER;
  a ← gets g_active_task;
  lock ← gets g_sched_lock;
  if decide (Some task = a /\ 0 < lock) then exit_ret cpsr RHINO_SCHED_DISABLE else
  k ← task_get task;
  match task_state k with
  | K_RDY =>
      task_upd task (fun k => k <| suspend_count := 1 |> <| task_state := K_SUSPENDED |>);;
      ready_list_rm task;;
      sched_ret cpsr RHINO_SUCCESS
  | K_SLEEP =>
      task_upd task (fun k => k <| suspend_count := 1 |> <| task_state := K_SLEEP_SUSPENDED |>);;
      sched_ret cpsr RHINO_SUCCESS
  | K_PEND =>
      task_upd task (fun k => k <| suspend_count := 1 |> <| task_state := K_PEND_SUSPENDED |>);;
      sched_ret cpsr RHINO_SUCCESS
  | K_SUSPENDED | K_SLEEP_SUSPENDED | K_PEND_SUSPENDED =>
      if decide (suspend_count k = 255) then exit_ret cpsr RHINO_SUSPENDED_COUNT_OVF else
      task_upd task (fun k => k <| suspend_count ::= fun n => n + 1 |>);;
      sched_ret cpsr RHINO_SUCCESS
  | _ => exit_ret cpsr RHINO_INV_TASK_STATE
  end.

Definition krhino_task_suspend (task : option tid) : K kstat_t :=
  match task with
  | None => mret RHINO_NULL_PTR
  | Some t =>
      k ← task_get t;
      if decide (prio k = RHINO_IDLE_PRI) then mret RHINO_TASK_SUSPEND_NOT_ALLOWED
      else task_suspend t
  end.

(** [suspend_count--], and the state [st] with [after] when it reaches zero *)
Definition resume_dec (task : tid) (st : task_stat_t) (after : K unit) : K unit :=
  task_upd task (fun k => k <| suspend_count ::= fun n => wrap 8 (n - 1) |>);;
  k ← task_get task;
  if decide (suspend_count k = 0) then task_upd task (fun k => k <| task_state := st |>);; after
  else mret tt.

Definition task_resume (task : tid) : K kstat_t :=
  cpsr ← RHINO_CRITICAL_ENTER;
  k ← task_get task;
  match task_state k with
  | K_RDY | K_SLEEP | K_PEND => exit_ret cpsr RHINO_TASK_NOT_SUSPENDED
  | K_SUSPENDED =>
      resume_dec task K_RDY (ready_list_add task);;
      sched_ret cpsr RHINO_SUCCESS
  | K_SLEEP_SUSPENDED =>
      resume_dec task K_SLEEP (mret tt);;
      sched_ret cpsr RHINO_SUCCESS
  | K_PEND_SUSPENDED =>
      resume_dec task K_PEND (mret tt);;
      sched_ret cpsr RHINO_SUCCESS
  | _ => exit_ret cpsr RHINO_INV_TASK_STATE
  end.

Definition krhino_task_resume (task : option tid) : K kstat_t :=
  match task with None => mret RHINO_NULL_PTR | Some t => task_resume t end.

(** [while (\*task_stack++ == 0u) free_stk++]; leaving the stack is undefined *)
Fixpoint zero_run (l : list Z) : option Z :=
  match l with
  | [] => None
  | w :: l' => if decide (w = 0) then n ← zero_run l'; Some (n + 1) else Some 0
  end.

Definition krhino_task_stack_min_free (task : option tid) (free : option addr) : K kstat_t :=
  match task, free with
  | Some t, Some p =>
      k ← task_get t;
      if decide (task_state k = K_DELETED) then mret RHINO_INV_TASK_STATE else
      base ← deref (task_stack_base k);
      m ← gets (fun s => ubufs s !! base);
      words ← deref m;
      n ← deref (zero_run (drop 1 words));
      store p n;;
      mret RHINO_SUCCESS
  | _, _ => mret RHINO_NULL_PTR
  end.

(** [soc_get_cur_sp] is the stack pointer of the running task. *)
Definition krhino_task_stack_cur_free (soc_get_cur_sp : Z) (task : option tid) (free : addr) : K kstat_t :=
  cpsr ← RHINO_CRITICAL_ENTER;
  a ← active;
  let t := default a task in
  k ← task_get t;
  let sp := if decide (t = a) then soc_get_cur_sp else task_stack k in
  let top := wrap size_bits (from_option Zpos 0 (task_stack_base k) + stack_size k * cpu_stack_size) in
  if decide (sp = 0) then
    RHINO_CRITICAL_EXIT cpsr;; k_err_proc RHINO_SYS_SP_ERR;; mret RHINO_SYS_SP_ERR
  else if decide (top < sp) then
    RHINO_CRITICAL_EXIT cpsr;; k_err_proc RHINO_TASK_STACK_OVF;; mret RHINO_TASK_STACK_OVF
  else
    store free ((top - sp) / cpu_stack_size);;
    exit_ret cpsr RHINO_SUCCESS.

Definition krhino_task_pri_change (task : option tid) (pri : Z) (old_pri : option addr) : K kstat_t :=
  match task, old_pri with
  | Some t, Some p =>
      k ← task_get t;
      if decide (RHINO_IDLE_PRI <= prio k) then mret RHINO_PRI_CHG_NOT_ALLOWED else
      if decide (RHINO_IDLE_PRI <= pri) then mret RHINO_PRI_CHG_NOT_ALLOWED else
      if decide (task_state k = K_DELETED) then mret RHINO_INV_TASK_STATE else
      cpsr ← RHINO_CRITICAL_ENTER;
      INTRPT_NESTED_LEVEL_CHK cpsr id (
      pri_limit ← mutex_pri_limit t pri;
      task_upd t (fun k => k <| b_prio := pri |>);;
      k ← task_get t;
      store p (prio k);;
      error ← task_pri_change t pri_limit;
      if decide (error <> RHINO_SUCCESS) then exit_ret cpsr error
      else sched_ret cpsr RHINO_SUCCESS)
  | _, _ => mret RHINO_NULL_PTR
  end.

Definition krhino_task_wait_abort (task : option tid) : K kstat_t :=
  match task with
  | None => mret RHINO_NULL_PTR
  | Some t =>
      cpsr ← RHINO_CRITICAL_ENTER;
      INTRPT_NESTED_LEVEL_CHK cpsr id (
      k ← task_get t;
      match task_state k with
      | K_RDY => sched_ret cpsr RHINO_SUCCESS
      | K_SUSPENDED =>
          task_upd t (fun k => k <| task_state := K_RDY |>);;
          ready_list_add t;;
          sched_ret cpsr RHINO_SUCCESS
      | K_SLEEP | K_SLEEP_SUSPENDED =>
          tick_list_rm t;;
          ready_list_add t;;
          task_upd t (fun k => k <| task_state := K_RDY |> <| blk_state := BLK_ABORT |>);;
          sched_ret cpsr RHINO_SUCCESS
      | K_PEND_SUSPENDED | K_PEND =>
          tick_list_rm t;;
          blk_list_rm t;;
          ready_list_add t;;
          task_upd t (fun k => k <| task_state := K_RDY |> <| blk_state := BLK_ABORT |>);;
          mutex_task_pri_reset t;;
          task_upd t (fun k => k <| blk_obj := None |>);;
          sched_ret cpsr RHINO_SUCCESS
      | _ => exit_ret cpsr RHINO_INV_TASK_STATE
      end)
  end.

(** The mutexes from [next_mutex] on go to their first waiters. *)
Fixpoint task_mutex_free_loop (fuel : nat) (next_mutex : option oid) : K unit :=
  match fuel with
  | O => fault
  | S fuel =>
      match next_mutex with
      | None => mret tt
      | Some m =>
          mx ← mutex_get m;
          b ← blk_get m;
          match blk_list b with
          | next_task :: _ =>
              pend_task_wakeup next_task;;
              k ← task_get next_task;
              mutex_upd m (fun mx => mx <| mutex_task := Some next_task |> <| mutex_next := mutex_list k |>);;
              task_upd next_task (fun k => k <| mutex_list := Some m |>)
          | [] => mutex_upd m (fun mx => mx <| mutex_task := None |>)
          end;;
          task_mutex_free_loop fuel (mutex_next mx)
      end
  end.

Definition task_mutex_free (task : tid) : K unit :=
  k ← task_get task;
  fuel ← gets chain_fuel;
  task_mutex_free_loop fuel (mutex_list k).

(** Take the task out of the lists; [false] when its state is none of a live task's. *)
Definition task_unlink (task : tid) : K bool :=
  k ← task_get task;
  match task_state k with
  | K_RDY =>
      ready_list_rm task;;
      task_upd task (fun k => k <| task_state := K_DELETED |>);;
      mret true
  | K_SUSPENDED =>
      task_upd task (fun k => k <| task_state := K_DELETED |>);;
      mret true
  | K_SLEEP | K_SLEEP_SUSPENDED =>
      tick_list_rm task;;
      task_upd task (fun k => k <| task_state := K_DELETED |>);;
      mret true
  | K_PEND | K_PEND_SUSPENDED =>
      tick_list_rm task;;
      blk_list_rm task;;
      task_upd task (fun k => k <| task_state := K_DELETED |>);;
      mutex_task_pri_reset task;;
      mret true
  | _ => mret false
  end.

Definition krhino_task_del (task : option tid) : K kstat_t :=
  cpsr ← RHINO_CRITICAL_ENTER;
  INTRPT_NESTED_LEVEL_CHK cpsr id (
  a ← active;
  let t := default a task in
  k ← task_get t;
  if decide (prio k = RHINO_IDLE_PRI) then mret RHINO_TASK_DEL_NOT_ALLOWED else
  if decide (mm_alloc_flag k <> K_OBJ_STATIC_ALLOC) then exit_ret cpsr RHINO_KOBJ_DEL_ERR else
  lock ← gets g_sched_lock;
  if decide (t = a /\ 0 < lock) then exit_ret cpsr RHINO_SCHED_DISABLE else
  task_mutex_free t;;
  done ← task_unlink t;
  if negb done then exit_ret cpsr RHINO_INV_TASK_STATE else
  modify (fun s => s <| g_kobj_list ::= fun l => l <| task_list_head ::= list_rm t |> |>);;
  sched_ret cpsr RHINO_SUCCESS).

Definition krhino_task_dyn_del (notify : oid -> sid -> K unit) (task : option tid) : K kstat_t :=
  cpsr ← RHINO_CRITICAL_ENTER;
  INTRPT_NESTED_LEVEL_CHK cpsr id (
  a ← active;
  let t := default a task in
  k ← task_get t;
  if decide (prio k = RHINO_IDLE_PRI) then exit_ret cpsr RHINO_TASK_DEL_NOT_ALLOWED else
  if decide (mm_alloc_flag k <> K_OBJ_DYN_ALLOC) then exit_ret cpsr RHINO_KOBJ_DEL_ERR else
  lock ← gets g_sched_lock;
  if decide (t = a /\ 0 < lock) then exit_ret cpsr RHINO_SCHED_DISABLE else
  if decide (task_state k = K_DELETED) then exit_ret cpsr RHINO_INV_TASK_STATE else
  base ← deref (task_stack_base k);
  modify (fun s => s <| g_sched_lock ::= fun n => wrap 8 (n + 1) |>);;
  modify (fun s => s <| g_res_list ::= fun l => l ++ [[base; t]] |>);;
  res_sem ← gets g_res_sem;
  ret ← krhino_sem_give notify (Some res_sem);
  modify (fun s => s <| g_sched_lock ::= fun n => wrap 8 (n - 1) |>);;
  if decide (ret <> RHINO_SUCCESS) then
    RHINO_CRITICAL_EXIT cpsr;; k_err_proc RHINO_SYS_SP_ERR;; mret ret
  else
  task_mutex_free t;;
  _ ← task_unlink t;
  modify (fun s => s <| g_kobj_list ::= fun l => l <| task_list_head ::= list_rm t |> |>);;
  sched_ret cpsr RHINO_SUCCESS).

Definition krhino_task_time_slice_set (task : option tid) (slice : Z) : K kstat_t :=
  match task with
  | None => mret RHINO_NULL_PTR
  | Some t =>
      cpsr ← RHINO_CRITICAL_ENTER;
      INTRPT_NESTED_LEVEL_CHK cpsr id (
      let total := if decide (0 < slice) then wrap 32 slice else RHINO_CONFIG_TIME_SLICE_DEFAULT in
      task_upd t (fun k => k <| time_total := total |> <| time_slice := total |>);;
      exit_ret cpsr RHINO_SUCCESS)
  end.

Definition krhino_sched_policy_set (task : option tid) (policy : Z) : K kstat_t :=
  match task with
  | None => mret RHINO_NULL_PTR
  | Some t =>
      if decide (policy <> KSCHED_FIFO /\ policy <> KSCHED_RR) then mret RHINO_INV_SCHED_WAY else
      cpsr ← RHINO_CRITICAL_ENTER;
      INTRPT_NESTED_LEVEL_CHK cpsr id (
      task_upd t (fun k => k <| sched_policy := policy |>);;
      exit_ret cpsr RHINO_SUCCESS)
  end.

Definition krhino_sched_policy_get (task : option tid) (policy : option addr) : K kstat_t :=
  match task, policy with
  | Some t, Some p =>
      cpsr ← RHINO_CRITICAL_ENTER;
      INTRPT_NESTED_LEVEL_CHK cpsr id (
      k ← task_get t;
      store p (sched_policy k);;
      exit_ret cpsr RHINO_SUCCESS)
  | _, _ => mret RHINO_NULL_PTR
  end.

Definition krhino_task_info_set (task : option tid) (idx info : Z) : K kstat_t :=
  match task with
  | None => mret RHINO_NULL_PTR
  | Some t =>
      if decide (RHINO_CONFIG_TASK_INFO_NUM <= idx) then mret RHINO_INV_PARAM else
      cpsr ← RHINO_CRITICAL_ENTER;
      task_upd t (fun k => k <| user_info ::= <[Z.to_nat idx := info]> |>);;
      exit_ret cpsr RHINO_SUCCESS
  end.

Definition krhino_task_info_get (task : option tid) (idx : Z) (info : option addr) : K kstat_t :=
  match task, info with
  | Some t, Some p =>
      if decide (RHINO_CONFIG_TASK_INFO_NUM <= idx) then mret RHINO_INV_PARAM else
      k ← task_get t;
      v ← deref (user_info k !! Z.to_nat idx);
      store p v;;
      mret RHINO_SUCCESS
  | _, _ => mret RHINO_NULL_PTR
  end.

(** what a task does that returns from its entry function *)
Definition krhino_task_deathbed (notify : oid -> sid -> K unit) : K kstat_t :=
  t ← krhino_cur_task_get;
  t ← deref t;
  k ← task_get t;
  if decide (mm_alloc_flag k = K_OBJ_DYN_ALLOC) then krhino_task_dyn_del notify None
  else krhino_task_del None.

End task.
End Task.
