(* ===== verification/TaskFacts.v ===== *)
(** * Properties of the operations on tasks

    Suspension, sleep, yielding, priority changes and aborted waits: what each branch
    reports and leaves, and that each keeps the invariant of the kernel. *)
From S2P Require Import Prelude Config Kernel Sched TickList Pend Inv Demo Prio Own Task.
Import Sched TickList Pend Prio Own Task.

Module TaskFacts.
Section facts.
Context {cfg : RhinoConfig}.

(** ** Suspension *)

Definition is_suspended (st : task_stat_t) : bool :=
  match st with K_SUSPENDED | K_SLEEP_SUSPENDED | K_PEND_SUSPENDED => true | _ => false end.

(** the state of a task that was not suspended *)
Definition suspend_state (st : task_stat_t) : task_stat_t :=
  match st with
  | K_RDY => K_SUSPENDED | K_SLEEP => K_SLEEP_SUSPENDED | K_PEND => K_PEND_SUSPENDED | st => st
  end.

(** the state a task falls back to with its last suspension undone *)
Definition resume_state (st : task_stat_t) : task_stat_t :=
  match st with
  | K_SUSPENDED => K_RDY | K_SLEEP_SUSPENDED => K_SLEEP | K_PEND_SUSPENDED => K_PEND | st => st
  end.

Definition suspended_task (k : ktask_t) : ktask_t :=
  k <| suspend_count := if is_suspended (task_state k) then suspend_count k + 1 else 1 |>
    <| task_state := suspend_state (task_state k) |>.

Definition resumed_task (k : ktask_t) : ktask_t :=
  k <| suspend_count := suspend_count k - 1 |>
    <| task_state := if decide (suspend_count k = 1) then resume_state (task_state k) else task_state k |>.

(** The branches of [krhino_task_suspend]. *)
Inductive suspend_spec (s : kstate) (t : tid) (k : ktask_t) : kstat_t -> kstate -> Prop :=
| susp_idle : prio k = RHINO_IDLE_PRI -> suspend_spec s t k RHINO_TASK_SUSPEND_NOT_ALLOWED s
| susp_locked :
    g_active_task s = Some t -> 0 < g_sched_lock s -> suspend_spec s t k RHINO_SCHED_DISABLE s
| susp_deleted : task_state k = K_DELETED -> suspend_spec s t k RHINO_INV_TASK_STATE s
| susp_overflow :
    is_suspended (task_state k) = true -> suspend_count k = 255 ->
    suspend_spec s t k RHINO_SUSPENDED_COUNT_OVF s
| susp_done rq' s' :
    prio k <> RHINO_IDLE_PRI -> task_state k <> K_DELETED ->
    (is_suspended (task_state k) = true -> suspend_count k < 255) ->
    (task_state k <> K_RDY -> rq' = g_ready_queue s) ->
    switched (setq s rq' (<[t := suspended_task k]> (tasks s)) (blk_objs s) (g_tick_head s)) s' ->
    suspend_spec s t k RHINO_SUCCESS s'.

Lemma locked_other s t k k' rq' O' L' :
  locked_ready s -> tasks s !! t = Some k -> (g_active_task s = Some t -> 0 < g_sched_lock s -> task_state k = K_RDY -> task_state k' = K_RDY) ->
  locked_ready (setq s rq' (<[t := k']> (tasks s)) O' L').
Proof.
  intros Hlr Ht Hg Hn Hl. destruct (Hlr Hn Hl) as (a & ka & Ha & Hka & Hr).
  destruct (decide (a = t)) as [->|Hne].
  - exists t, k'. cbn. rewrite lookup_insert_eq. split; [done|]. split; [done|]. apply Hg; [done..|congruence].
  - exists a, ka. cbn. by rewrite lookup_insert_ne.
Qed.

(** A task that is not ready stays so: only its own state changes. *)
Lemma wp_unmoved_ret s t k k' Q :
  kok s -> tasks s !! t = Some k -> unmoved k k' -> task_state k <> K_RDY ->
  let s1 := setq s (g_ready_queue s) (<[t := k']> (tasks s)) (blk_objs s) (g_tick_head s) in
  (forall s', kok s' -> switched s1 s' -> Q RHINO_SUCCESS s') ->
  wp (sched_ret (irq_off s) RHINO_SUCCESS) Q (s1 <| irq_off := true |>).
Proof.
  intros Hok Ht Hum Hr s1 HQ. pose proof Hok as (Hinv & Hpi & Hsch & Hcnt).
  destruct (kinv_unmoved s t k k' Hinv Hpi Ht Hum) as [Hinv' Hpi']; [by eapply pend_not_idle|].
  apply wp_sched_ret; [exact Hinv'|exact Hpi'|exact Hcnt| |].
  - eapply (locked_other s); [by apply kok_locked_ready|done|]. done.
  - intros s' Hok' Hsw. apply HQ; [done|]. exact Hsw.
Qed.

Lemma wp_sched_back s s1 stat Q :
  irq_off s1 = irq_off s -> kinv s1 -> pi_inv s1 -> cnt_inv s1 -> locked_ready s1 ->
  (forall s', kok s' -> switched s1 s' -> Q stat s') ->
  wp (sched_ret (irq_off s) stat) Q (s1 <| irq_off := true |>).
Proof.
  intros Hirq Hinv Hpi Hcnt Hlr HQ. apply wp_sched_ret; [exact Hinv|exact Hpi|exact Hcnt|exact Hlr|].
  intros s' Hok' Hsw. apply HQ; [done|]. rewrite <- Hirq in Hsw. by destruct s1.
Qed.

(** A ready task leaves the ready queue. *)
Lemma q_unready s t k k' L' c :
  kinv s -> tasks s !! t = Some k -> task_state k = K_RDY -> t <> g_idle_task s ->
  task_state k' <> K_RDY -> prio k' = prio k ->
  forall (Q : unit -> kstate -> Prop),
  (forall rq', rq_ok rq' (rdy (<[t := k']> (tasks s))) ->
     Q tt ((setq s rq' (<[t := k']> (tasks s)) (blk_objs s) L') <| irq_off := c |>)) ->
  wp (ready_list_rm t) Q ((setq s (g_ready_queue s) (<[t := k']> (tasks s)) (blk_objs s) L') <| irq_off := c |>).
Proof.
  intros Hinv Ht Hr Hid Hr' Hp Q HQ. pose proof Hinv as [].
  destruct (kinv_ready_other s t Hinv Hid) as (u & q & Hu & Hut).
  change ((setq s (g_ready_queue s) (<[t := k']> (tasks s)) (blk_objs s) L') <| irq_off := c |>)
    with (setq (s <| irq_off := c |>) (g_ready_queue s) (<[t := k']> (tasks s)) (blk_objs s) L').
  eapply (q_ready_list_rm _ _ _ _ _ t k' _ (rdy (tasks s)) u q); try done; [apply lookup_insert_eq| |apply rdy_fun|].
  - exists k. by rewrite Hp.
  - intros rq' Hrq'. apply HQ. by apply rq_ok_unready.
Qed.

(** A task becomes ready, inside a critical section. *)
Lemma q_readied s t k k1 O L c Q :
  kinv s -> tasks s !! t = Some k -> task_state k <> K_RDY -> prio k1 = prio k ->
  (forall rq', (forall k', task_state k' = K_RDY -> prio k' = prio k -> rq_ok rq' (rdy (<[t := k']> (tasks s)))) ->
     Q tt ((setq s rq' (<[t := k1]> (tasks s)) O L) <| irq_off := c |>)) ->
  wp (ready_list_add t) Q ((setq s (g_ready_queue s) (<[t := k1]> (tasks s)) O L) <| irq_off := c |>).
Proof.
  intros Hinv Ht Hr Hp HQ. pose proof Hinv as []. destruct inv_active as (a & Ha & Hka).
  assert (is_Some (<[t := k1]> (tasks s) !! a)) as [ka Hka'] by (apply lookup_insert_is_Some'; by right).
  change ((setq s (g_ready_queue s) (<[t := k1]> (tasks s)) O L) <| irq_off := c |>)
    with (setq (s <| irq_off := c |>) (g_ready_queue s) (<[t := k1]> (tasks s)) O L).
  eapply (q_ready_list_add _ _ _ _ _ t k1 a ka); [done|apply lookup_insert_eq|done|done| | |].
  - rewrite Hp. apply (inv_task t k Ht).
  - intros q (? & ? & ? & _). congruence.
  - intros rq' Hrq'. apply HQ. intros k' Hr' Hp'. rewrite Hp in Hrq'. by eapply rq_ok_readied.
Qed.

Lemma suspended_ok k : task_ok k -> task_state k <> K_DELETED ->
  (is_suspended (task_state k) = true -> suspend_count k < 255) -> task_ok (suspended_task k).
Proof.
  intros [] Hd Hc. unfold suspended_task. split; cbn; try done.
  - by destruct (task_state k).
  - by destruct (task_state k).
  - intros Hp. apply tok_blk. by destruct (task_state k).
  - destruct (is_suspended (task_state k)); [specialize (Hc eq_refl)|]; lia.
  - destruct (task_state k); cbn; lia || done.
Qed.

Lemma suspended_unmoved k : task_ok k -> task_state k <> K_DELETED -> task_state k <> K_RDY ->
  (is_suspended (task_state k) = true -> suspend_count k < 255) -> unmoved k (suspended_task k).
Proof.
  intros Hok Hd Hr Hc. pose proof (suspended_ok k Hok Hd Hc). unfold suspended_task in *.
  split; try done; cbn; pose proof (tok_seed _ Hok); by destruct (task_state k).
Qed.

Lemma wp_task_suspend s t k :
  kok s -> tasks s !! t = Some k -> prio k <> RHINO_IDLE_PRI ->
  wp (task_suspend t) (fun r s' => kok s' /\ suspend_spec s t k r s') s.
Proof.
  intros Hok Ht Hpri. pose proof Hok as (Hinv & Hpi & Hsch & Hcnt). pose proof Hinv as [].
  assert (Hlr : locked_ready s) by by apply kok_locked_ready.
  assert (Hid : t <> g_idle_task s).
  { intros ->. destruct inv_idle as (ki & Hi & _ & Hp & _). congruence. }
  unfold task_suspend. apply wp_bind, wp_critical_enter. apply wp_bind, wp_gets. apply wp_bind, wp_gets.
  cbn [g_active_task g_sched_lock]. case_decide as Hg.
  { apply wp_exit_ret. rewrite irq_restore. split; [done|]. destruct Hg as [Ha Hl]. by apply susp_locked. }
  apply wp_bind. eapply wp_task_get; [done|].
  pose proof (inv_task t k Ht) as Hk.
  destruct (decide (task_state k = K_DELETED)) as [Hd|Hd].
  { rewrite Hd. apply wp_exit_ret. rewrite irq_restore. split; [done|by apply susp_deleted]. }
  destruct (decide (task_state k = K_RDY)) as [Hr|Hr].
  - rewrite Hr. apply wp_bind. eapply wp_task_upd; [done|].
    assert (He : suspended_task k = k <| suspend_count := 1 |> <| task_state := K_SUSPENDED |>)
      by (unfold suspended_task; by rewrite Hr).
    apply wp_bind.
    assert (Hk' : task_ok (suspended_task k)) by (apply suspended_ok; [done|done|by rewrite Hr]).
    match goal with |- wp _ _ ?x => assert (x = (setq s (g_ready_queue s) (<[t := suspended_task k]> (tasks s))
      (blk_objs s) (g_tick_head s)) <| irq_off := true |>) as -> by (rewrite He; done) end.
    apply (q_unready s t k); try done; [by rewrite He|].
    intros rq' Hrq'.
    assert (kinv (setq s rq' (<[t := suspended_task k]> (tasks s)) (blk_objs s) (g_tick_head s)) /\
            pi_inv (setq s rq' (<[t := suspended_task k]> (tasks s)) (blk_objs s) (g_tick_head s))) as [Hinv' Hpi'].
    { split.
      - apply (kinv_setq s t k); try done; try (by rewrite He); try (by rewrite Hr).
        + eapply bl_ok_unseen; [done..| |]; rewrite He, Hr; done.
        + eapply tick_ok_upd; [done..| |]; by rewrite He.
        + intros m _. rewrite waits_insert, He. cbn. intros [(_ & ? & _)|[? _]]; done.
      - eapply pi_setq; try done; try (by rewrite He); try (by rewrite Hr).
        intros u m _. rewrite He, Hr. cbn. naive_solver. }
    apply (wp_sched_back s (setq s rq' (<[t := suspended_task k]> (tasks s)) (blk_objs s) (g_tick_head s))); try done.
    + eapply (locked_other s); [done..|]. intros Ha Hl. destruct Hg. by split.
    + intros s' Hok' Hsw. split; [done|]. by apply (susp_done s t k rq'); rewrite ?Hr.
  - assert (Hgo : (is_suspended (task_state k) = true -> suspend_count k < 255) ->
      wp (sched_ret (irq_off s) RHINO_SUCCESS) (fun r s' => kok s' /\ suspend_spec s t k r s')
        ((setq s (g_ready_queue s) (<[t := suspended_task k]> (tasks s)) (blk_objs s) (g_tick_head s)) <| irq_off := true |>)).
    { intros Hc. apply (wp_unmoved_ret s t k (suspended_task k)); [done|done|by apply suspended_unmoved|done|].
      intros s' Hok' Hsw. split; [done|]. by apply (susp_done s t k (g_ready_queue s)). }
    unfold suspended_task in Hgo.
    pose proof (tok_seed _ Hk) as Hseed. destruct (task_state k) eqn:Hst; try done; cbn in Hgo.
    all: try (apply wp_bind; eapply wp_task_upd; [done|]; by apply Hgo).
    all: case_decide as Hov;
      [apply wp_exit_ret; rewrite irq_restore; split; [done|by apply susp_overflow; [rewrite Hst|]]|].
    all: apply wp_bind; eapply wp_task_upd; [done|].
    all: match goal with |- wp _ _ ?x => match type of Hgo with _ -> wp _ _ ?y => assert (x = y) as -> end end.
    all: try (apply Hgo; pose proof (tok_count _ Hk); lia).
    all: apply kstate_ext; cbn; try reflexivity; f_equal; destruct k; cbn in *; by subst.
Qed.

(** ** Resumption *)

(** The branches of [krhino_task_resume]. *)
Inductive resume_spec (s : kstate) (t : tid) (k : ktask_t) : kstat_t -> kstate -> Prop :=
| res_not_suspended :
    is_suspended (task_state k) = false -> task_state k <> K_DELETED ->
    resume_spec s t k RHINO_TASK_NOT_SUSPENDED s
| res_deleted : task_state k = K_DELETED -> resume_spec s t k RHINO_INV_TASK_STATE s
| res_done rq' s' :
    is_suspended (task_state k) = true ->
    (task_state (resumed_task k) <> K_RDY -> rq' = g_ready_queue s) ->
    switched (setq s rq' (<[t := resumed_task k]> (tasks s)) (blk_objs s) (g_tick_head s)) s' ->
    resume_spec s t k RHINO_SUCCESS s'.

Lemma resumed_ok k : task_ok k -> is_suspended (task_state k) = true -> task_ok (resumed_task k).
Proof.
  intros [] Hs. unfold resumed_task.
  assert (Hpos : 0 < suspend_count k) by (destruct (task_state k); done).
  destruct (decide (suspend_count k = 1)), (task_state k) eqn:Hst; try done;
    split; cbn; rewrite ?Hst; try done; try lia; auto.
Qed.

Lemma resumed_unmoved k :
  task_ok k -> is_suspended (task_state k) = true -> task_state (resumed_task k) <> K_RDY ->
  unmoved k (resumed_task k).
Proof.
  intros Hok Hs Hr. pose proof (resumed_ok k Hok Hs). unfold resumed_task in *.
  split; try done; cbn in *; case_decide; try done; try (by destruct (task_state k)).
Qed.

Lemma dec_count k : 0 < suspend_count k -> task_ok k -> wrap 8 (suspend_count k - 1) = suspend_count k - 1.
Proof. intros Hp []. apply wrap_small. lia. Qed.

Lemma resumed_eq k n st :
  n = suspend_count k - 1 -> st = (if decide (suspend_count k = 1) then resume_state (task_state k) else task_state k) ->
  k <| suspend_count := n |> <| task_state := st |> = resumed_task k.
Proof. by intros -> ->. Qed.

(** Only the last resumption of a task that is merely suspended makes it ready. *)
Section resume.
Context (s : kstate) (t : tid) (k : ktask_t).
Context (Hok : kok s) (Ht : tasks s !! t = Some k) (Hs : is_suspended (task_state k) = true).
Notation post := (fun r s' => kok s' /\ resume_spec s t k r s').
Notation resumed rq := (setq s rq (<[t := resumed_task k]> (tasks s)) (blk_objs s) (g_tick_head s)).

Lemma resume_pos : 0 < suspend_count k.
Proof.
  pose proof Hok as (Hinv & _). pose proof (tok_suspended _ (inv_task _ _ _ _ _ _ _ _ _ _ _ _ Hinv t k Ht)) as H.
  revert H Hs. by destruct (task_state k).
Qed.

Lemma resume_not_rdy : task_state k <> K_RDY.
Proof. intros He. by rewrite He in Hs. Qed.

Lemma resume_still :
  task_state (resumed_task k) <> K_RDY ->
  wp (sched_ret (irq_off s) RHINO_SUCCESS) post ((resumed (g_ready_queue s)) <| irq_off := true |>).
Proof.
  intros Hr'. pose proof resume_pos as Hpos. pose proof Hok as (Hinv & _).
  pose proof (inv_task _ _ _ _ _ _ _ _ _ _ _ _ Hinv t k Ht) as Hk.
  apply (wp_unmoved_ret s t k (resumed_task k)); [done|done|by apply resumed_unmoved|by apply resume_not_rdy|].
  intros s' Hok' Hsw. split; [done|]. by apply (res_done s t k (g_ready_queue s)).
Qed.

(** the task joins the ready queue *)
Lemma resume_kinv rq' :
  task_state (resumed_task k) = K_RDY -> rq_ok rq' (rdy (<[t := resumed_task k]> (tasks s))) ->
  kinv (resumed rq') /\ pi_inv (resumed rq').
Proof.
  intros Hr' Hrq'. pose proof resume_pos as Hpos. pose proof Hok as (Hinv & Hpi & _). pose proof Hinv as [].
  pose proof (inv_task t k Ht) as Hk.
  assert (Hid : t <> g_idle_task s) by (eapply pend_not_idle; [done..|by apply resume_not_rdy]).
  assert (Hst : task_state k = K_SUSPENDED).
  { unfold resumed_task in Hr'. cbn in Hr'. case_decide; [|by destruct resume_not_rdy].
    revert Hr' Hs. by destruct (task_state k). }
  split.
  - apply (kinv_setq s t k); try done; try (by rewrite Hst); try (by rewrite Hr').
    + by apply (bl_ok_unseen _ _ t k); rewrite ?Hst, ?Hr'.
    + by eapply tick_ok_upd.
    + by apply resumed_ok.
    + intros m _. rewrite waits_insert, Hr'. cbn. intros [(_ & ? & _)|[? _]]; done.
  - eapply pi_setq; try done; [by rewrite Hst|]. intros u m _. rewrite Hr', Hst. naive_solver.
Qed.

Lemma resume_ready :
  task_state (resumed_task k) = K_RDY ->
  wp (ready_list_add t) (fun _ => wp (sched_ret (irq_off s) RHINO_SUCCESS) post)
    ((resumed (g_ready_queue s)) <| irq_off := true |>).
Proof.
  intros Hr'. pose proof Hok as (Hinv & _ & _ & Hcnt).
  apply (q_readied s t k); [done|done|by apply resume_not_rdy|done|].
  intros rq' Hrq'. specialize (Hrq' (resumed_task k) Hr' eq_refl).
  destruct (resume_kinv rq' Hr' Hrq') as [Hinv' Hpi'].
  apply (wp_sched_back s (resumed rq')); [done|done|done|done| |].
  - eapply (locked_other s); [by apply kok_locked_ready|done|]. done.
  - intros s' Hok' Hsw. split; [done|]. by apply (res_done s t k rq').
Qed.

Lemma resume_dec_ok :
  wp (resume_dec t (resume_state (task_state k))
        (if decide (task_state k = K_SUSPENDED) then ready_list_add t else mret tt);;
      sched_ret (irq_off s) RHINO_SUCCESS) post (s <| irq_off := true |>).
Proof.
  pose proof Hok as (Hinv & _). pose proof (inv_task _ _ _ _ _ _ _ _ _ _ _ _ Hinv t k Ht) as Hk.
  pose proof resume_pos as Hpos. pose proof (dec_count k Hpos Hk) as Hdec. pose proof resume_not_rdy as Hr.
  apply wp_bind, wp_bind. eapply wp_task_upd; [done|].
  match goal with |- wp _ _ ?x => assert (x = (s <| tasks ::= <[t := k <| suspend_count := suspend_count k - 1 |>]> |>)
    <| irq_off := true |>) as -> end.
  { apply kstate_ext; cbn; try reflexivity. unfold upd. cbn. by rewrite Hdec. }
  apply wp_bind. eapply wp_task_get; [apply lookup_insert_eq|]. cbn [suspend_count].
  match goal with |- context [decide (suspend_count ?x = 0)] => change (suspend_count x) with (suspend_count k - 1) end.
  destruct (decide (suspend_count k - 1 = 0)) as [Hz|Hz].
  - apply wp_bind. eapply wp_task_upd; [apply lookup_insert_eq|].
    match goal with |- wp _ _ ?x => assert (x = (resumed (g_ready_queue s)) <| irq_off := true |>) as -> end.
    { apply kstate_ext; cbn; try reflexivity. rewrite insert_insert_eq. f_equal. apply resumed_eq; [done|].
      rewrite decide_True by lia. done. }
    assert (Hst' : task_state (resumed_task k) = resume_state (task_state k)).
    { unfold resumed_task. cbn. rewrite decide_True by lia. done. }
    destruct (decide (task_state k = K_SUSPENDED)) as [Hsu|Hsu].
    + apply resume_ready. by rewrite Hst', Hsu.
    + apply wp_ret, resume_still. rewrite Hst'. revert Hs Hsu. by destruct (task_state k).
  - apply wp_ret. match goal with |- wp _ _ ?x => assert (x = (resumed (g_ready_queue s)) <| irq_off := true |>) as -> end.
    { apply kstate_ext; cbn; try reflexivity. f_equal. unfold resumed_task. rewrite decide_False by lia. by destruct k. }
    apply resume_still. unfold resumed_task. cbn. by rewrite decide_False by lia.
Qed.
End resume.

Lemma wp_task_resume s t k :
  kok s -> tasks s !! t = Some k -> wp (task_resume t) (fun r s' => kok s' /\ resume_spec s t k r s') s.
Proof.
  intros Hok Ht. pose proof Hok as (Hinv & _).
  pose proof (tok_seed _ (inv_task _ _ _ _ _ _ _ _ _ _ _ _ Hinv t k Ht)) as Hseed.
  unfold task_resume. apply wp_bind, wp_critical_enter. apply wp_bind. eapply wp_task_get; [done|].
  destruct (is_suspended (task_state k)) eqn:Hs.
  - pose proof (resume_dec_ok s t k Hok Ht Hs) as H. destruct (task_state k) eqn:Hst; try done; exact H.
  - assert (wp (exit_ret (irq_off s) (if decide (task_state k = K_DELETED) then RHINO_INV_TASK_STATE else RHINO_TASK_NOT_SUSPENDED))
      (fun r s' => kok s' /\ resume_spec s t k r s') (s <| irq_off := true |>)) as Hend.
    { apply wp_exit_ret. rewrite irq_restore. split; [done|]. case_decide; [by apply res_deleted|by apply res_not_suspended]. }
    destruct (task_state k); try done; exact Hend.
Qed.

(** ** Sleep *)

(** The branches of [krhino_task_sleep]. *)
Inductive sleep_spec (s : kstate) (ticks : Z) : kret -> kstate -> Prop :=
| sleep_zero : ticks = 0 -> sleep_spec s ticks (Ret RHINO_INV_PARAM) s
| sleep_intrpt : 0 < g_intrpt_nested_level s -> sleep_spec s ticks (Ret RHINO_NOT_CALLED_BY_INTRPT) s
| sleep_locked : 0 < g_sched_lock s -> sleep_spec s ticks (Ret RHINO_SCHED_DISABLE) s
| sleep_done a k rq' L' s' :
    ticks <> 0 -> g_intrpt_nested_level s = 0 -> g_sched_lock s = 0 ->
    g_active_task s = Some a -> tasks s !! a = Some k ->
    let k' := k <| task_state := K_SLEEP |> <| tick_match := wrap tick_bits (g_tick_count s + ticks) |>
                <| tick_remain := ticks |> <| tick_head := true |> in
    switched (setq s rq' (<[a := k']> (tasks s)) (blk_objs s) L') s' ->
    sleep_spec s ticks Pending s'.

Lemma wp_task_sleep s ticks :
  kok s -> 0 <= ticks < 2 ^ tick_bits -> g_active_task s <> Some (g_idle_task s) ->
  wp (krhino_task_sleep ticks) (fun r s' => kok s' /\ sleep_spec s ticks r s') s.
Proof.
  intros Hok Htk Hidle. pose proof Hok as (Hinv & Hpi & Hsch & Hcnt). pose proof Hcnt as [Hc1 Hc2].
  unfold krhino_task_sleep. case_decide as Hz; [apply wp_ret; split; [done|by apply sleep_zero]|].
  apply wp_bind, wp_critical_enter.
  apply wp_nested_chk; [rewrite irq_restore; split; [done|by apply sleep_intrpt]|]. intros Hn. cbn in Hn.
  apply wp_bind, wp_gets. cbn [g_sched_lock].
  case_decide as Hlk; cbn in Hlk; [apply wp_fmap, wp_exit_ret; rewrite irq_restore; split; [done|by apply sleep_locked]|].
  destruct (active_ready s Hok Hn) as (a & k & Ha & Hk & Hr). pose proof Hinv as [].
  pose proof (inv_task a k Hk) as Hka. assert (Hid : a <> g_idle_task s) by congruence.
  apply wp_bind. eapply wp_active; [done|]. apply wp_bind. eapply wp_task_upd; [done|].
  set (k1 := k <| task_state := K_SLEEP |>).
  apply wp_bind. eapply (wp_tick_list_insert a k1 ticks); cbn.
  - eapply tick_ok_upd; done.
  - apply lookup_insert_eq.
  - pose proof (tok_tick _ Hka) as Hth. by rewrite Hr in Hth.
  - lia.
  - intros L' k2 Hk2 HL'. rewrite insert_insert_eq in HL'.
    match goal with |- wp _ _ ?x => assert (x = (setq s (g_ready_queue s) (<[a := k2]> (tasks s)) (blk_objs s) L')
      <| irq_off := true |>) as -> by kstate_eq end.
    apply wp_bind. apply (q_unready s a k); try done; [by rewrite Hk2|by rewrite Hk2|]. intros rq' Hrq'.
    set (s1 := setq s rq' (<[a := k2]> (tasks s)) (blk_objs s) L').
    assert (Hk2' : task_ok k2).
    { rewrite Hk2. destruct Hka. split; cbn; try done. }
    assert (kinv s1 /\ pi_inv s1) as [Hinv1 Hpi1].
    { split.
      - apply (kinv_setq s a k); try done; try (by rewrite Hk2); try (by rewrite Hr).
        + by apply (bl_ok_unseen _ _ a k); rewrite ?Hk2, ?Hr.
        + intros m _. rewrite waits_insert, Hk2. cbn. intros [(_ & ? & _)|[? _]]; done.
      - eapply pi_setq; try done; try (by rewrite Hk2); try (by rewrite Hr).
        intros u m _. rewrite Hk2, Hr. cbn. naive_solver. }
    apply wp_bind. apply (wp_exit_sched (irq_off s)); [exact Hinv1|exact Hpi1|exact Hcnt| |].
    + intros _ Hl. cbn in Hl. lia.
    + intros s' Hok' Hsw. apply wp_ret. split; [done|].
      apply (sleep_done s ticks a k rq' L'); try done; [lia..|]. cbv zeta.
      unfold k1 in Hk2. rewrite <- Hk2. exact Hsw.
Qed.

(** ** Yielding *)

(** The task yields to the next one of its priority: the ring turns by one. *)
Definition yield_spec (s : kstate) (s' : kstate) : Prop :=
  exists a k x l,
    g_active_task s = Some a /\ tasks s !! a = Some k /\ ring (g_ready_queue s) (prio k) = x :: l /\
    ring (g_ready_queue s') (prio k) = l ++ [x] /\
    (forall p, 0 <= p -> p <> prio k -> ring (g_ready_queue s') p = ring (g_ready_queue s) p) /\
    tasks s' = tasks s /\ blk_objs s' = blk_objs s /\
    (g_intrpt_nested_level s = 0 -> g_sched_lock s = 0 -> x = a /\ g_active_task s' = head (l ++ [a])).

Lemma wp_task_yield s :
  kok s -> g_intrpt_nested_level s = 0 ->
  wp krhino_task_yield (fun r s' => kok s' /\ r = RHINO_SUCCESS /\ yield_spec s s') s.
Proof.
  intros Hok Hn. pose proof Hok as (Hinv & Hpi & Hsch & Hcnt). pose proof Hinv as [].
  destruct (Hsch Hn) as (a & k & Ha & Hk & Hr & Htop).
  assert (Hra : rdy (tasks s) a (prio k)) by (by exists k).
  pose proof (rq_range _ _ inv_rq a (prio k) Hra) as Hrange.
  unfold krhino_task_yield. apply wp_bind, wp_critical_enter. apply wp_bind. eapply wp_active; [done|].
  apply wp_bind. eapply (wp_ready_list_head_to_tail a k); [exact inv_rq|done|done| |].
  2:{ intros He. apply (rq_mem _ _ inv_rq a (prio k)) in Hra; [|lia]. cbn in He. rewrite He in Hra. set_solver. }
  intros x l rq' Hx Hrq' Hring.
  change (s <| irq_off := true |> <| g_ready_queue := rq' |>) with ((s <| g_ready_queue := rq' |>) <| irq_off := true |>).
  assert (Hinv1 : kinv (s <| g_ready_queue := rq' |>)) by (destruct Hinv; by split).
  apply (wp_sched_back s (s <| g_ready_queue := rq' |>)); [done|done|done|done| |].
  { intros ? ?. by exists a, k. }
  intros s' Hok' (p & a' & ->). split; [done|]. split; [done|]. exists a, k, x, l.
  assert (Hnew : ring rq' (prio k) = l ++ [x]).
  { rewrite (Hring (prio k)) by lia. by rewrite decide_True. }
  do 4 (split; [done|]). split; [|split; [done|split; [done|]]].
  - intros q Hq Hne. cbn. rewrite (Hring q) by done. by rewrite decide_False.
  - intros _ Hl. destruct (Htop Hl) as [l' Hl'].
    assert (Hhi : highest_pri (g_ready_queue s) = prio k).
    { destruct (top_exists _ _ a (prio k) inv_rq Hra) as (u & [lu Hu] & Hru).
      assert (u = a) as -> by congruence. by apply (rdy_fun (tasks s) a). }
    rewrite Hhi in Hl'. assert (x = a) as -> by (cbn in Hx; congruence). split; [done|].
    destruct Hok' as (_ & _ & Hs' & _). destruct (Hs' Hn) as (a2 & k2 & Ha2 & Hk2 & _ & Ht2).
    rewrite Ha2. destruct (Ht2 Hl) as [l2 Hl2]. cbn in Hl2.
    assert (Hhi' : highest_pri rq' = prio k).
    { rewrite <- Hhi. symmetry. by apply (highest_unique _ _ (rdy (tasks s)) a (prio k)). }
    by rewrite Hhi', Hnew in Hl2; rewrite Hl2.
Qed.

(** ** Aborted waits *)

(** the task after its wait, sleep or suspension was cut short *)
Definition aborted_task (k : ktask_t) : ktask_t :=
  match task_state k with
  | K_SUSPENDED => k <| task_state := K_RDY |>
  | K_SLEEP | K_SLEEP_SUSPENDED =>
      k <| tick_head := false |> <| task_state := K_RDY |> <| blk_state := BLK_ABORT |>
  | K_PEND | K_PEND_SUSPENDED =>
      k <| tick_head := false |> <| task_state := K_RDY |> <| blk_state := BLK_ABORT |> <| blk_obj := None |>
  | _ => k
  end.

(** The branches of [krhino_task_wait_abort]. *)
Inductive abort_spec (s : kstate) (t : tid) (k : ktask_t) : kstat_t -> kstate -> Prop :=
| abort_intrpt : 0 < g_intrpt_nested_level s -> abort_spec s t k RHINO_NOT_CALLED_BY_INTRPT s
| abort_deleted : task_state k = K_DELETED -> abort_spec s t k RHINO_INV_TASK_STATE s
| abort_done rq' T' O' L' s' :
    g_intrpt_nested_level s = 0 -> task_state k <> K_DELETED ->
    reprio (fun _ _ => True) (<[t := aborted_task k]> (tasks s)) T' -> same_shape (blk_objs s) O' ->
    switched (setq s rq' T' O' L') s' -> abort_spec s t k RHINO_SUCCESS s'.

(** A task that did not wait for an object becomes ready. *)
Lemma kinv_readied s t k k' rq' L' :
  kinv s -> pi_inv s -> tasks s !! t = Some k -> task_state k <> K_RDY -> task_state k <> K_DELETED ->
  is_pend (task_state k) = false -> ended k k' -> task_state k' = K_RDY ->
  rq_ok rq' (rdy (<[t := k']> (tasks s))) -> tick_ok L' (<[t := k']> (tasks s)) (g_tick_count s) ->
  kinv (setq s rq' (<[t := k']> (tasks s)) (blk_objs s) L') /\
  pi_inv (setq s rq' (<[t := k']> (tasks s)) (blk_objs s) L').
Proof.
  intros Hinv Hpi Ht Hr Hd Hp [] Hr' Hrq Htk. pose proof Hinv as []. split.
  - apply (kinv_setq s t k); try done; [by eapply pend_not_idle| |].
    + apply (bl_ok_unseen _ _ t k); rewrite ?Hp; try done; by rewrite en_pend0.
    + intros m _. rewrite waits_insert, en_pend0. naive_solver.
  - eapply pi_setq; try done. intros u m _. rewrite en_pend0, Hp. naive_solver.
Qed.

Lemma locked_readied s t k k' rq' O' L' :
  locked_ready s -> tasks s !! t = Some k -> task_state k' = K_RDY ->
  locked_ready (setq s rq' (<[t := k']> (tasks s)) O' L').
Proof. intros Hlr Ht Hr. by eapply locked_other. Qed.

Lemma ended_ready k k' :
  task_ok k -> task_state k' = K_RDY -> tick_head k' = false -> prio k' = prio k -> b_prio k' = b_prio k ->
  suspend_count k' = suspend_count k -> mutex_list k' = mutex_list k -> ended k k'.
Proof.
  intros [] Hr Hth Hp Hb Hc Hl. split; try done; try (by rewrite Hr).
  split; rewrite ?Hr, ?Hp, ?Hb, ?Hc; done.
Qed.

(** *** The states an aborted wait leaves, by the state the task was in *)
Section abort.
Context (s : kstate) (t : tid) (k : ktask_t).
Context (Hok : kok s) (Ht : tasks s !! t = Some k) (Hn : g_intrpt_nested_level s = 0).
Notation post := (fun r s' => kok s' /\ abort_spec s t k r s').
Notation give := (sched_ret (irq_off s) RHINO_SUCCESS).

Lemma abort_end rq' T' O' L' :
  task_state k <> K_DELETED ->
  reprio (fun _ _ => True) (<[t := aborted_task k]> (tasks s)) T' -> same_shape (blk_objs s) O' ->
  kinv (setq s rq' T' O' L') -> pi_inv (setq s rq' T' O' L') -> locked_ready (setq s rq' T' O' L') ->
  wp give post ((setq s rq' T' O' L') <| irq_off := true |>).
Proof.
  intros Hd Hre Hsh Hinv' Hpi' Hlr'. pose proof Hok as (_ & _ & _ & Hcnt).
  apply (wp_sched_back s (setq s rq' T' O' L')); try done.
  intros s' Hok' Hsw. split; [done|]. by apply (abort_done s t k rq' T' O' L').
Qed.

Lemma abort_ready rq' L' :
  is_pend (task_state k) = false -> task_state k <> K_RDY -> task_state k <> K_DELETED ->
  ended k (aborted_task k) -> task_state (aborted_task k) = K_RDY ->
  rq_ok rq' (rdy (<[t := aborted_task k]> (tasks s))) ->
  tick_ok L' (<[t := aborted_task k]> (tasks s)) (g_tick_count s) ->
  wp give post ((setq s rq' (<[t := aborted_task k]> (tasks s)) (blk_objs s) L') <| irq_off := true |>).
Proof.
  intros Hp Hr Hd Hen Hra Hrq' HL'. pose proof Hok as (Hinv & Hpi & _ & _).
  destruct (kinv_readied s t k (aborted_task k) rq' L') as [Hinv' Hpi']; try done.
  apply abort_end; try done; [apply reprio_refl|]. eapply locked_readied; try done. by apply kok_locked_ready.
Qed.

Lemma abort_tick (rest : K kstat_t) Q :
  (forall L', tick_ok L' (<[t := k <| tick_head := false |>]> (tasks s)) (g_tick_count s) ->
     wp rest Q ((setq s (g_ready_queue s) (<[t := k <| tick_head := false |>]> (tasks s)) (blk_objs s) L')
       <| irq_off := true |>)) ->
  wp (tick_list_rm t;; rest) Q (s <| irq_off := true |>).
Proof.
  intros HQ. pose proof Hok as (Hinv & _). apply wp_bind. eapply (wp_tick_list_rm t k); [by eapply inv_tick|done|].
  intros L' HL'. exact (HQ L' HL').
Qed.

(** the tick list after the removal serves the aborted task as well *)
Lemma abort_tick_ok L' k2 :
  tick_ok L' (<[t := k <| tick_head := false |>]> (tasks s)) (g_tick_count s) ->
  tick_head k2 = false -> tick_match k2 = tick_match k -> tick_ok L' (<[t := k2]> (tasks s)) (g_tick_count s).
Proof.
  intros HL' ? ?. rewrite <- (insert_insert_eq (tasks s) t _ (k <| tick_head := false |>)).
  eapply tick_ok_upd; [exact HL'|apply lookup_insert_eq|done|done].
Qed.

Lemma abort_sleep :
  task_state k = K_SLEEP \/ task_state k = K_SLEEP_SUSPENDED ->
  wp (tick_list_rm t;; ready_list_add t;;
      task_upd t (fun k => k <| task_state := K_RDY |> <| blk_state := BLK_ABORT |>);;
      give) post (s <| irq_off := true |>).
Proof.
  intros Hst. pose proof Hok as (Hinv & _). pose proof (inv_task _ _ _ _ _ _ _ _ _ _ _ _ Hinv t k Ht) as Hk.
  assert (Ha : aborted_task k = k <| tick_head := false |> <| task_state := K_RDY |> <| blk_state := BLK_ABORT |>)
    by (unfold aborted_task; by destruct Hst as [-> | ->]).
  apply abort_tick. intros L' HL'. apply wp_bind. apply (q_readied s t k); [done|done|by destruct Hst as [-> | ->]|done|].
  intros rq' Hrq'. apply wp_bind. eapply wp_task_upd; [apply lookup_insert_eq|].
  match goal with |- wp _ _ ?x => assert (x = (setq s rq' (<[t := aborted_task k]> (tasks s)) (blk_objs s) L')
    <| irq_off := true |>) as -> by (rewrite Ha; kstate_eq) end.
  apply abort_ready; try (by destruct Hst as [-> | ->]).
  - by apply ended_ready; rewrite ?Ha.
  - by rewrite Ha.
  - apply Hrq'; by rewrite Ha.
  - apply (abort_tick_ok L'); [done|by rewrite Ha|by rewrite Ha].
Qed.

Lemma abort_pend :
  is_pend (task_state k) = true ->
  wp (tick_list_rm t;; blk_list_rm t;; ready_list_add t;;
      task_upd t (fun k => k <| task_state := K_RDY |> <| blk_state := BLK_ABORT |>);;
      mutex_task_pri_reset t;; task_upd t (fun k => k <| blk_obj := None |>);;
      give) post (s <| irq_off := true |>).
Proof.
  intros Hp. pose proof Hok as (Hinv & Hpi & _). pose proof (inv_task _ _ _ _ _ _ _ _ _ _ _ _ Hinv t k Ht) as Hk.
  assert (Hd : task_state k <> K_DELETED) by (intros He; by rewrite He in Hp).
  assert (Hr : task_state k <> K_RDY) by (intros He; by rewrite He in Hp).
  set (k2 := k <| tick_head := false |> <| task_state := K_RDY |> <| blk_state := BLK_ABORT |>).
  assert (Ha : aborted_task k = k2 <| blk_obj := None |>) by (unfold aborted_task; by destruct (task_state k)).
  apply abort_tick. intros L' HL'. apply wp_bind, wp_modify. apply wp_bind.
  match goal with |- wp _ _ ?x => assert (x = (setq s (g_ready_queue s) (<[t := k <| tick_head := false |>]> (tasks s))
    (blk_rm t (blk_objs s)) L') <| irq_off := true |>) as -> by done end.
  apply (q_readied s t k); [done|done|done|done|].
  intros rq' Hrq'. apply wp_bind. eapply wp_task_upd; [apply lookup_insert_eq|].
  match goal with |- wp _ _ ?x => assert (x = (setq (s <| irq_off := true |>) rq' (<[t := k2]> (tasks (s <| irq_off := true |>)))
    (blk_rm t (blk_objs (s <| irq_off := true |>))) L')) as -> by kstate_eq end.
  apply wp_seq_assoc. apply wp_bind. apply (wp_reset_done (s <| irq_off := true |>) t k k2); try done.
  - by apply ended_ready.
  - by apply Hrq'.
  - by apply (abort_tick_ok L').
  - intros rq2 T2 O2 Hsh Hre Hinv2 Hpi2. rewrite <- Ha in Hre.
    apply (abort_end rq2 T2 O2 L'); try done.
    eapply (reprio_locked_ready _ (setq s rq2 (<[t := aborted_task k]> (tasks s)) O2 L')); [exact Hre|].
    eapply locked_readied; [by apply kok_locked_ready|done|]. by rewrite Ha.
Qed.

Lemma abort_suspended :
  task_state k = K_SUSPENDED ->
  wp (task_upd t (fun k => k <| task_state := K_RDY |>);; ready_list_add t;; give) post (s <| irq_off := true |>).
Proof.
  intros Hsu. pose proof Hok as (Hinv & _). pose proof Hinv as []. pose proof (inv_task t k Ht) as Hk.
  assert (Hst : task_state k <> K_RDY) by (by rewrite Hsu).
  assert (Ha : aborted_task k = k <| task_state := K_RDY |>) by (unfold aborted_task; by rewrite Hsu).
  apply wp_bind. eapply wp_task_upd; [done|]. rewrite <- Ha.
  match goal with |- wp _ _ ?x => assert (x = (setq s (g_ready_queue s) (<[t := aborted_task k]> (tasks s)) (blk_objs s)
    (g_tick_head s)) <| irq_off := true |>) as -> by done end.
  apply wp_bind. apply (q_readied s t k); [done..|by rewrite Ha|]. intros rq' Hrq'.
  pose proof (tok_tick _ Hk) as Hth. rewrite Hsu in Hth.
  apply abort_ready; rewrite ?Hsu; try done.
  - by apply ended_ready; rewrite ?Ha.
  - by rewrite Ha.
  - apply Hrq'; by rewrite Ha.
  - eapply tick_ok_upd; [done..| |]; by rewrite Ha.
Qed.

Lemma abort_rdy : task_state k = K_RDY -> wp give post (s <| irq_off := true |>).
Proof.
  intros Hst. pose proof Hok as (Hinv & Hpi & _).
  assert (Ha : aborted_task k = k) by (unfold aborted_task; by rewrite Hst).
  rewrite <- (setq_id s) at 2. apply abort_end; rewrite ?setq_id, ?Hst; try done; [|by apply kok_locked_ready].
  rewrite Ha, insert_id by done. apply reprio_refl.
Qed.
End abort.

Lemma wp_wait_abort s t k :
  kok s -> tasks s !! t = Some k ->
  wp (krhino_task_wait_abort (Some t)) (fun r s' => kok s' /\ abort_spec s t k r s') s.
Proof.
  intros Hok Ht. pose proof Hok as (Hinv & _ & _ & Hc1 & Hc2).
  pose proof (tok_seed _ (inv_task _ _ _ _ _ _ _ _ _ _ _ _ Hinv t k Ht)) as Hseed.
  unfold krhino_task_wait_abort. apply wp_bind, wp_critical_enter.
  apply wp_nested_chk; [rewrite irq_restore; split; [done|by apply abort_intrpt]|]. intros Hn'. cbn in Hn'.
  assert (Hn : g_intrpt_nested_level s = 0) by lia. apply wp_bind. eapply wp_task_get; [done|].
  destruct (task_state k) eqn:Hst; try done.
  - by apply abort_rdy.
  - apply abort_pend; try done. by rewrite Hst.
  - by apply abort_suspended.
  - apply abort_pend; try done. by rewrite Hst.
  - apply abort_sleep; auto.
  - apply abort_sleep; auto.
  - apply wp_exit_ret. rewrite irq_restore. split; [done|by apply abort_deleted].
Qed.

(** ** Priority changes *)

(** The branches of [krhino_task_pri_change]. *)
Inductive pri_change_spec (s : kstate) (t : tid) (k : ktask_t) (pri : Z) (p : addr)
  : kstat_t -> kstate -> Prop :=
| pch_idle : RHINO_IDLE_PRI <= prio k \/ RHINO_IDLE_PRI <= pri ->
    pri_change_spec s t k pri p RHINO_PRI_CHG_NOT_ALLOWED s
| pch_deleted : task_state k = K_DELETED -> pri_change_spec s t k pri p RHINO_INV_TASK_STATE s
| pch_intrpt : 0 < g_intrpt_nested_level s -> pri_change_spec s t k pri p RHINO_NOT_CALLED_BY_INTRPT s
| pch_done rq' T' O' s' :
    prio k < RHINO_IDLE_PRI -> pri < RHINO_IDLE_PRI -> task_state k <> K_DELETED ->
    reprio (fun _ _ => True) (<[t := k <| b_prio := pri |>]> (tasks s)) T' -> same_shape (blk_objs s) O' ->
    switched (setq (s <| umem ::= <[p := prio k]> |>) rq' T' O' (g_tick_head s)) s' ->
    pri_change_spec s t k pri p RHINO_SUCCESS s'.

Lemma wp_pri_change s t k pri p :
  kok s -> tasks s !! t = Some k -> 0 <= pri ->
  wp (krhino_task_pri_change (Some t) pri (Some p)) (fun r s' => kok s' /\ pri_change_spec s t k pri p r s') s.
Proof.
  intros Hok Ht Hpri. pose proof Hok as (Hinv & Hpi & Hsch & Hcnt). pose proof Hinv as [].
  pose proof (inv_task t k Ht) as Hk.
  assert (Hlr : locked_ready s) by by apply kok_locked_ready.
  unfold krhino_task_pri_change. apply wp_bind. eapply wp_task_get; [done|].
  case_decide as H1; [apply wp_ret; split; [done|]; apply pch_idle; by left|].
  case_decide as H2; [apply wp_ret; split; [done|]; apply pch_idle; by right|].
  case_decide as H3; [apply wp_ret; split; [done|]; by apply pch_deleted|].
  apply wp_bind, wp_critical_enter.
  apply wp_nested_chk; [rewrite irq_restore; split; [done|by apply pch_intrpt]|]. intros Hn.
  assert (Hid : t <> g_idle_task s).
  { intros ->. destruct inv_idle as (ki & Hi & _ & Hp & _). assert (ki = k) as -> by congruence. lia. }
  apply wp_bind. eapply (wp_mutex_pri_limit (s <| irq_off := true |>) t k pri); [done|done|done|]. intros v Hv.
  apply wp_bind. eapply wp_task_upd; [done|]. set (k1 := k <| b_prio := pri |>).
  apply wp_bind. eapply wp_task_get; [apply lookup_insert_eq|]. apply wp_bind, wp_modify. cbn [prio].
  set (T1 := <[t := k1]> (tasks s)).
  set (s1 := setq (s <| umem ::= <[p := prio k]> |>) (g_ready_queue s) T1 (blk_objs s) (g_tick_head s)).
  match goal with |- wp _ _ ?x => assert (x = s1 <| irq_off := true |>) as -> by done end.
  assert (Hmax : RHINO_IDLE_PRI = RHINO_CONFIG_PRI_MAX - 1) by reflexivity.
  assert (HW : forall o x, waits T1 o x <-> waits (tasks s) o x).
  { intros o x. unfold T1. rewrite waits_insert. destruct (decide (x = t)) as [->|]; [|naive_solver].
    unfold waits. rewrite Ht. naive_solver. }
  assert (HP : forall x, prio_of T1 x = prio_of (tasks s) x).
  { intros x. unfold T1. rewrite prio_of_insert. case_decide; [|done]. subst. unfold prio_of. by rewrite Ht. }
  assert (Hinv1 : kinv s1).
  { apply (kinv_setq s t k); try done.
    - by apply (rq_ok_unseen _ _ t k).
    - by apply (bl_ok_unseen _ _ t k).
    - by apply (tick_ok_upd _ _ _ t k).
    - destruct Hk. split; try done. cbn. lia.
    - intros m Hm Hw. apply HW in Hw. by eapply inv_self. }
  assert (Hbut : pi_but T1 (blk_objs s) (mutexes s) (waits T1) t).
  { intros u ku Hu Hd Hne. unfold T1 in Hu. rewrite lookup_insert_ne in Hu by done.
    eapply pi_on_frame; [by apply pi_at_on, Hpi| |done|by intros; apply HW|by intros; apply HP].
    intros k' Hk'. unfold T1. rewrite lookup_insert_ne by done. eauto. }
  destruct Hv as (Hle & Hall & Hex).
  assert (Hat : pi_on T1 (blk_objs s) (mutexes s) (waits T1) t v).
  { exists k1. unfold T1. rewrite lookup_insert_eq. split; [done|]. fold T1. split; [done|]. split.
    - intros m x Hm Hx. rewrite HP. apply (Hall m x Hm). by apply HW.
    - destruct Hex as [?|(m & x & Hm & Hx & Hp)]; [by left|]. right. exists m, x. rewrite HP, HW. done. }
  assert (Hv : 0 <= v < RHINO_CONFIG_PRI_MAX).
  { destruct Hex as [->|(m & x & _ & (kx & Hkx & _) & <-)]; [lia|].
    unfold prio_of. cbn in Hkx. cbn. rewrite Hkx. pose proof (inv_task x kx Hkx) as []. done. }
  apply wp_bind. apply (wp_task_pri_change (s1 <| irq_off := true |>) t k1 v); try done; [apply lookup_insert_eq|].
  intros rq' T' O' Hsh Hre Hinv' Hpi'. rewrite decide_False by (intros He; by apply He).
  apply (wp_sched_back s (setq s1 rq' T' O' (g_tick_head s))); try done.
  - eapply (reprio_locked_ready _ s1); [exact Hre|]. by apply (locked_other s t k k1 (g_ready_queue s) (blk_objs s) (g_tick_head s)).
  - intros s' Hok' Hsw. split; [done|]. apply (pch_done s t k pri p rq' T' O'); try done; lia.
Qed.

(** ** Properties *)

Lemma wp_suspend s t k :
  kok s -> tasks s !! t = Some k ->
  wp (krhino_task_suspend (Some t)) (fun r s' => kok s' /\ suspend_spec s t k r s') s.
Proof.
  intros Hok Ht. apply wp_bind. eapply wp_task_get; [done|].
  case_decide; [apply wp_ret; split; [done|by apply susp_idle]|by apply wp_task_suspend].
Qed.

(** Suspending a task: a task in any live state becomes its suspended variant or, when it
    already is suspended, only the count goes up, never past 255; the idle task, a deleted
    task and the running task under a scheduler lock are refused; a ready task leaves the
    ready queue; every kernel invariant is kept and the scheduler runs. *)
Theorem krhino_task_suspend_correct (s : kstate) (t : tid) (k : ktask_t)
    (Hok : kok s) (Ht : tasks s !! t = Some k) :
  wp (krhino_task_suspend (Some t)) (fun r s' => kok s' /\ suspend_spec s t k r s') s.
Proof. by apply wp_suspend. Qed.

(** Resuming a task counts its suspensions down; the last one gives it back the state it
    had, which for a task that was suspended while ready is to be ready again. *)
Theorem krhino_task_resume_correct (s : kstate) (t : tid) (k : ktask_t)
    (Hok : kok s) (Ht : tasks s !! t = Some k) :
  wp (krhino_task_resume (Some t)) (fun r s' => kok s' /\ resume_spec s t k r s') s.
Proof. by apply wp_task_resume. Qed.

Lemma resumed_suspended k :
  resumed_task (suspended_task k) =
    k <| suspend_count := if is_suspended (task_state k) then suspend_count k else 0 |>
      <| task_state := if is_suspended (task_state k) then
                         (if decide (suspend_count k + 1 = 1) then resume_state (task_state k) else task_state k)
                       else task_state k |>.
Proof.
  set (n := if is_suspended (task_state k) then suspend_count k + 1 else 1).
  assert (Hn : n - 1 = if is_suspended (task_state k) then suspend_count k else 0).
  { unfold n. destruct (is_suspended _); lia. }
  transitivity (k <| suspend_count := n - 1 |>
    <| task_state := if decide (n = 1) then resume_state (suspend_state (task_state k)) else suspend_state (task_state k) |>);
    [reflexivity|]. rewrite Hn. f_equal. unfold n. by destruct (task_state k).
Qed.


(** Sleeping: the running task leaves the ready queue and enters the list of timed waits
    with the deadline that is [ticks] ahead, modulo the width of the tick counter, unless
    it was called with zero ticks, from an interrupt or under a scheduler lock. *)
Theorem krhino_task_sleep_correct (s : kstate) (ticks : Z)
    (Hok : kok s) (Hticks : 0 <= ticks < 2 ^ tick_bits)
    (Hidle : g_active_task s <> Some (g_idle_task s)) :
  wp (krhino_task_sleep ticks) (fun r s' => kok s' /\ sleep_spec s ticks r s') s.
Proof. by apply wp_task_sleep. Qed.

(** Yielding turns the ring of the running task's priority by one and changes no other
    ring and no task; unless the scheduler is locked the task that runs afterwards is the
    one that was next to the caller. *)
Theorem krhino_task_yield_correct (s : kstate) (Hok : kok s) (Hn : g_intrpt_nested_level s = 0) :
  wp krhino_task_yield (fun r s' => kok s' /\ r = RHINO_SUCCESS /\ yield_spec s s') s.
Proof. by apply wp_task_yield. Qed.

(** C14: aborting the wait of a task makes it ready whatever it waited for, takes it out of the
    list of timed waits and of the object, and gives the owner of a mutex it waited for the
    priority its other waiters ask for: all kernel invariants hold again. *)
Theorem krhino_task_wait_abort_correct (s : kstate) (t : tid) (k : ktask_t)
    (Hok : kok s) (Ht : tasks s !! t = Some k) :
  wp (krhino_task_wait_abort (Some t)) (fun r s' => kok s' /\ abort_spec s t k r s') s.
Proof. by apply wp_wait_abort. Qed.

(** C13: changing the base priority of a task: the loop that carries the change along the
    owners of mutexes ends, only priorities change, and afterwards every task runs at the best
    of its own priority and those of the tasks that wait for its mutexes.  The priority of
    the idle task is neither changed nor given away. *)
Theorem krhino_task_pri_change_correct (s : kstate) (t : tid) (k : ktask_t) (pri : Z) (p : addr)
    (Hok : kok s) (Ht : tasks s !! t = Some k) (Hpri : 0 <= pri) :
  wp (krhino_task_pri_change (Some t) pri (Some p))
    (fun r s' => kok s' /\ pri_change_spec s t k pri p r s') s.
Proof. by apply wp_pri_change. Qed.

End facts.

#[local] Existing Instance linuxhost.


(** Task 3 stops waiting for the mutex of the running task. *)
Lemma krhino_task_wait_abort_correct_witness :
  wp (krhino_task_wait_abort (Some 3%positive)) (fun r s' => kok s' /\
    abort_spec demo 3%positive (demo_k 3%positive) r s') demo.
Proof. apply (krhino_task_wait_abort_correct demo 3%positive (demo_k 3%positive) demo_ok). reflexivity. Defined.

(** Task 3, which waits for the mutex of the running task, gets the priority 30. *)
Lemma krhino_task_pri_change_correct_witness :
  wp (krhino_task_pri_change (Some 3%positive) 30 (Some 70%positive)) (fun r s' => kok s' /\
    pri_change_spec demo 3%positive (demo_k 3%positive) 30 70%positive r s') demo.
Proof.
  apply (krhino_task_pri_change_correct demo 3%positive (demo_k 3%positive) 30 70%positive demo_ok); [reflexivity|discriminate].
Defined.

End TaskFacts.
