(* ===== verification/Create.v ===== *)
(** * Creation of a task

    The facts about [krhino_task_create] of [k_task.c]: a fresh task joins a running system
    without disturbing it. *)
From S2P Require Import Prelude Config Kernel Sched TickList Pend Inv Demo Prio Own Task TaskFacts.
Import Sched TickList Pend Task TaskFacts.

Module Create.
Section create.
Context {cfg : RhinoConfig}.

(** [t] is no task, or a deleted one. *)
Definition unused_task (s : kstate) (t : tid) : Prop :=
  forall k, tasks s !! t = Some k -> task_state k = K_DELETED.

(** a task as [task_create] makes it *)
Record fresh (k : ktask_t) : Prop := {
  fr_ok : task_ok k;
  fr_state : task_state k = K_RDY \/ task_state k = K_SUSPENDED;
  fr_mutex : mutex_list k = None;
  fr_prio : prio k = b_prio k;
}.

Lemma fresh_not_pend k : fresh k -> is_pend (task_state k) = false.
Proof. by intros [_ [-> | ->] _ _]. Qed.

Lemma fresh_no_tick k : fresh k -> tick_head k = false.
Proof. intros [[_ _ _ Ht _ _ _] [Hs | Hs] _ _]; by rewrite Hs in Ht. Qed.

Lemma unused_no_tick s t k : kinv s -> unused_task s t -> tasks s !! t = Some k -> tick_head k = false.
Proof.
  intros Hinv Hun Hk. pose proof (tok_tick _ (inv_task _ _ _ _ _ _ _ _ _ _ _ _ Hinv t k Hk)) as H.
  by rewrite (Hun k Hk) in H.
Qed.

Lemma waits_fresh s t k o x :
  unused_task s t -> fresh k -> waits (<[t := k]> (tasks s)) o x <-> waits (tasks s) o x.
Proof.
  intros Hun Hk. rewrite waits_insert, (fresh_not_pend k Hk). split; [by intros [(_ & ? & _)|[_ ?]]|].
  intros Hw. right. split; [|done]. intros ->. destruct Hw as (k0 & Hk0 & Hp & _). by rewrite (Hun k0 Hk0) in Hp.
Qed.

Lemma rdy_unused s t p : unused_task s t -> ~ rdy (tasks s) t p.
Proof. intros Hun (k & Hk & Hr & _). specialize (Hun k Hk). congruence. Qed.

Lemma unused_holds s t m : kinv s -> unused_task s t -> ~ holds (blk_objs s) (mutexes s) t m.
Proof.
  intros Hinv Hun Hm. destruct (inv_owner _ _ _ _ _ _ _ _ _ _ _ _ Hinv t m Hm) as (k & Hk & Hl).
  by specialize (Hun k Hk).
Qed.

Lemma tick_fresh s t k :
  kinv s -> unused_task s t -> fresh k -> tick_ok (g_tick_head s) (<[t := k]> (tasks s)) (g_tick_count s).
Proof.
  intros Hinv Hun Hk. destruct (inv_tick _ _ _ _ _ _ _ _ _ _ _ _ Hinv) as [Hnd Hmem Hs Hpos].
  assert (Hnt : t ∉ g_tick_head s).
  { rewrite Hmem. intros (k0 & Hk0 & Hh). pose proof (unused_no_tick s t k0 Hinv Hun Hk0). congruence. }
  assert (Hrem : forall u, u ∈ g_tick_head s -> rem (<[t := k]> (tasks s)) (g_tick_count s) u = rem (tasks s) (g_tick_count s) u).
  { intros u Hu. unfold rem. rewrite lookup_insert_ne; [done|]. by intros ->. }
  split; [done| | |].
  - intros u. destruct (decide (u = t)) as [->|Hne].
    + rewrite lookup_insert_eq. split; [done|]. intros (? & [= <-] & Hh). by rewrite (fresh_no_tick k Hk) in Hh.
    + rewrite lookup_insert_ne by done. apply Hmem.
  - eapply StronglySorted_ext; [|exact Hs]. intros a b Ha Hb. by rewrite !Hrem.
  - intros u Hu. rewrite Hrem by done. by apply Hpos.
Qed.

(** a fresh task among the others *)
Lemma kinv_fresh s t k rq' :
  kinv s -> unused_task s t -> fresh k -> rq_ok rq' (rdy (<[t := k]> (tasks s))) ->
  kinv (setq s rq' (<[t := k]> (tasks s)) (blk_objs s) (g_tick_head s)).
Proof.
  intros Hinv Hun Hk Hrq. pose proof Hinv as []. pose proof (fun m => unused_holds s t m Hinv Hun) as Hnh.
  split; cbn; try done.
  - eapply bl_ok_ext; [exact inv_blk| |].
    + intros o x. by rewrite waits_fresh.
    + intros o x (kx & Hkx & Hp & _). unfold prio_of. rewrite lookup_insert_ne; [done|]. intros ->.
      by rewrite (Hun kx Hkx) in Hp.
  - by apply tick_fresh.
  - intros u ku [[<- <-]|[_ Hu]]%lookup_insert_Some; [by apply fr_ok|by eapply inv_task].
  - intros u ku [[<- <-]|[_ Hu]]%lookup_insert_Some Hd; [|by apply inv_chain].
    exists []. rewrite (fr_mutex k Hk). split; [done|]. split; [apply NoDup_nil_2|].
    intros m. split; [by intros ?%elem_of_nil|]. by intros ?%Hnh.
  - intros u m Hm. destruct (inv_owner u m Hm) as (ku & Hku & Hl). destruct (decide (u = t)) as [->|].
    + exists k. rewrite lookup_insert_eq. split; [done|]. by destruct (fr_state k Hk) as [-> | ->].
    + exists ku. by rewrite lookup_insert_ne.
  - intros u m Hm. rewrite waits_fresh by done. by apply inv_self.
  - destruct inv_idle as (ki & Hi & Hr & Hp). exists ki. rewrite lookup_insert_ne; [done|].
    intros ->. specialize (Hun ki Hi). congruence.
  - destruct inv_active as (a & Ha & Hka). exists a. split; [done|]. apply lookup_insert_is_Some'. by right.
Qed.

Lemma pi_fresh s t k rq' :
  kinv s -> pi_inv s -> unused_task s t -> fresh k ->
  pi_inv (setq s rq' (<[t := k]> (tasks s)) (blk_objs s) (g_tick_head s)).
Proof.
  intros Hinv Hpi Hun Hk u ku Hu Hd. cbn in Hu |- *. destruct (decide (u = t)) as [->|Hne].
  - rewrite lookup_insert_eq in Hu. injection Hu as <-. exists k. rewrite lookup_insert_eq.
    split; [done|]. rewrite (fr_prio k Hk). split; [lia|]. split; [|by left].
    intros m w Hm. by apply unused_holds in Hm.
  - rewrite lookup_insert_ne in Hu by done. destruct (Hpi u ku Hu Hd) as (k0 & Hk0 & Hle & Hall & Hex).
    assert (Hpr : forall m w, waits (tasks s) m w -> prio_of (<[t := k]> (tasks s)) w = prio_of (tasks s) w).
    { intros m w (kw & Hkw & Hp & _). unfold prio_of. rewrite lookup_insert_ne; [done|]. intros ->.
      by rewrite (Hun kw Hkw) in Hp. }
    exists k0. rewrite lookup_insert_ne by done. split; [done|]. split; [done|]. split.
    + intros m w Hm Hw%waits_fresh; [|done..]. rewrite (Hpr m w Hw). by eapply Hall.
    + destruct Hex as [?|(m & w & Hm & Hw & Heq)]; [by left|]. right. exists m, w.
      rewrite waits_fresh by done. by rewrite (Hpr m w Hw).
Qed.

(** ** The call *)

Context {port : Port}.

(** the task the call makes *)
Definition made_task (prio ticks : Z) (stk : addr) (size autorun flag sp : Z) : ktask_t :=
  (init_task prio ticks stk size autorun flag) <| task_stack := sp |>.

Lemma made_task_fresh prio ticks stk size autorun flag sp :
  0 <= prio < RHINO_CONFIG_PRI_MAX -> fresh (made_task prio ticks stk size autorun flag sp).
Proof.
  intros Hp. unfold made_task, init_task. destruct (decide (0 < autorun)); split; cbn; auto.
  - split; cbn; try done; lia.
  - split; cbn; try done; lia.
Qed.

(** what the first critical section and the set-up of the stack leave, with the task registered *)
Definition registered (s : kstate) (t : tid) (prio : Z) (stk : addr) (m : list Z) : kstate :=
  s <| g_idle_task_spawned := if decide (prio = RHINO_IDLE_PRI) then 1 else g_idle_task_spawned s |>
    <| ubufs ::= <[stk := m]> |>
    <| g_kobj_list ::= fun l => l <| task_list_head ::= fun q => q ++ [t] |> |>.

(** The branches of [krhino_task_create] with all its pointers given. *)
Inductive create_spec (s : kstate) (t : tid) (arg prio ticks : Z) (stk : addr) (size : Z) (entry : addr)
    (autorun : Z) : kstat_t -> kstate -> Prop :=
| create_no_stack : size = 0 -> create_spec s t arg prio ticks stk size entry autorun RHINO_TASK_INV_STACK_SIZE s
| create_pri : size <> 0 -> RHINO_CONFIG_PRI_MAX <= prio ->
    create_spec s t arg prio ticks stk size entry autorun RHINO_BEYOND_MAX_PRI s
| create_intrpt : 0 < g_intrpt_nested_level s ->
    create_spec s t arg prio ticks stk size entry autorun RHINO_NOT_CALLED_BY_INTRPT s
| create_idle : prio = RHINO_IDLE_PRI -> 0 < g_idle_task_spawned s ->
    create_spec s t arg prio ticks stk size entry autorun RHINO_IDLE_TASK_EXIST s
| create_done m m' sp rq' s' :
    ubufs s !! stk = Some m ->
    cpu_task_stack_init (<[0%nat := RHINO_TASK_STACK_OVF_MAGIC]> (replicate (Z.to_nat size) 0)) arg entry = (m', sp) ->
    let k := made_task prio ticks stk size autorun K_OBJ_STATIC_ALLOC sp in
    let s1 := setq (registered s t prio stk (m' ++ drop (Z.to_nat size) m))
                rq' (<[t := k]> (tasks s)) (blk_objs s) (g_tick_head s) in
    (if decide (0 < autorun)
     then ring_is (g_ready_queue s) rq' prio (ring (g_ready_queue s) prio ++ [t]) /\ switched s1 s'
     else rq' = g_ready_queue s /\ s' = s1) ->
    create_spec s t arg prio ticks stk size entry autorun RHINO_SUCCESS s'.

(** the last critical section, for a task to start at once *)
Lemma wp_start_fresh s t k (Q : kstat_t -> kstate -> Prop) :
  kinv s -> pi_inv s -> cnt_inv s -> locked_ready s -> unused_task s t -> fresh k -> task_state k = K_RDY ->
  g_sys_stat s = RHINO_RUNNING ->
  (forall rq' s', ring_is (g_ready_queue s) rq' (prio k) (ring (g_ready_queue s) (prio k) ++ [t]) ->
     kok s' -> switched (setq s rq' (<[t := k]> (tasks s)) (blk_objs s) (g_tick_head s)) s' -> Q RHINO_SUCCESS s') ->
  wp (ready_list_add_tail t;; stat ← gets g_sys_stat;
      if decide (stat = RHINO_RUNNING) then sched_ret (irq_off s) RHINO_SUCCESS else exit_ret (irq_off s) RHINO_SUCCESS) Q
    ((s <| tasks ::= <[t := k]> |>) <| irq_off := true |>).
Proof.
  intros Hinv Hpi Hcnt Hlr Hun Hk Hr Hrun HQ. pose proof (inv_rq _ _ _ _ _ _ _ _ _ _ _ _ Hinv) as Hrq.
  apply wp_bind. eapply wp_ready_list_add_tail; [exact Hrq|apply lookup_insert_eq|apply Hk| |].
  { intros q. by apply rdy_unused. }
  intros rq' Hrq' Hring. apply wp_bind, wp_gets. cbn [g_sys_stat]. rewrite decide_True by done.
  set (s1 := setq s rq' (<[t := k]> (tasks s)) (blk_objs s) (g_tick_head s)).
  match goal with |- wp _ _ ?x => assert (x = s1 <| irq_off := true |>) as -> by done end.
  apply (wp_sched_back s s1); [done| | |done| |].
  - apply kinv_fresh; [done..|]. eapply rq_ok_ext; [exact Hrq'|]. intros x p. rewrite rdy_insert. unfold plus.
    split; [intros [Hx|[-> ->]]; [right; split; [|done]|by left]|intros [(-> & _ & <-)|[_ ?]]; [by right|by left]].
    intros ->. by eapply rdy_unused.
  - by apply pi_fresh.
  - intros Hn Hl. destruct (Hlr Hn Hl) as (a & ka & Ha & Hka & Hra). exists a, ka. split; [done|]. split; [|done].
    cbn. rewrite lookup_insert_ne; [done|]. intros ->. specialize (Hun ka Hka). congruence.
  - intros s' Hok' Hsw. by apply (HQ rq').
Qed.

(** a fresh task that is to be resumed later *)
Lemma kok_suspended s t k :
  kok s -> unused_task s t -> fresh k -> task_state k = K_SUSPENDED ->
  kok (setq s (g_ready_queue s) (<[t := k]> (tasks s)) (blk_objs s) (g_tick_head s)).
Proof.
  intros (Hinv & Hpi & Hsch & Hcnt) Hun Hk Hs. apply kok_intro; [|by apply pi_fresh| |done].
  - apply kinv_fresh; [done..|]. eapply rq_ok_ext; [by eapply inv_rq|]. intros x p. rewrite rdy_insert, Hs.
    split; [|by intros [(_ & ? & _)|[_ ?]]]. intros Hx. right. split; [|done]. intros ->. by eapply rdy_unused.
  - intros Hn. destruct (Hsch Hn) as (a & ka & Ha & Hka & Hr & Htop). exists a, ka. split; [done|]. split; [|done].
    cbn. rewrite lookup_insert_ne; [done|]. intros ->. specialize (Hun ka Hka). congruence.
Qed.

Lemma wp_stack_prepare stk size arg entry m m' sp (Q : Z -> kstate -> Prop) s :
  ubufs s !! stk = Some m -> (Z.to_nat size <= length m)%nat ->
  cpu_task_stack_init (<[0%nat := RHINO_TASK_STACK_OVF_MAGIC]> (replicate (Z.to_nat size) 0)) arg entry = (m', sp) ->
  Q sp (s <| ubufs ::= <[stk := m' ++ drop (Z.to_nat size) m]> |>) -> wp (stack_prepare stk size arg entry) Q s.
Proof.
  intros Hm Hsize Hinit HQ. unfold wp, stack_prepare. rewrite Hm. cbn [mbind option_bind].
  rewrite decide_True by done. by rewrite Hinit.
Qed.

Lemma wp_spawned prio (Q : unit -> kstate -> Prop) s :
  Q tt (s <| g_idle_task_spawned := if decide (prio = RHINO_IDLE_PRI) then 1 else g_idle_task_spawned s |>) ->
  wp (if decide (prio = RHINO_IDLE_PRI) then modify (fun s => s <| g_idle_task_spawned := 1 |>) else mret tt) Q s.
Proof. destruct (decide (prio = RHINO_IDLE_PRI)); intros HQ; [by apply wp_modify|apply wp_ret; by destruct s]. Qed.

Lemma wp_krhino_task_create (s : kstate) (t : tid) (name : addr) (arg prio ticks : Z) (stk : addr)
    (size : Z) (entry : addr) (autorun : Z) (m : list Z)
    (Hok : kok s) (Hrun : g_sys_stat s = RHINO_RUNNING) (Hun : unused_task s t) (Hprio : 0 <= prio)
    (Hm : ubufs s !! stk = Some m) (Hsize : (Z.to_nat size <= length m)%nat) :
  wp (krhino_task_create (Some t) (Some name) arg prio ticks (Some stk) size (Some entry) autorun)
    (fun r s' => kok s' /\ create_spec s t arg prio ticks stk size entry autorun r s') s.
Proof.
  pose proof Hok as (Hinv & Hpi & Hsch & Hcnt). unfold krhino_task_create, task_create.
  case_decide as Hz; [apply wp_ret; split; [done|by apply create_no_stack]|].
  case_decide as Hp; [apply wp_ret; split; [done|by apply create_pri]|].
  apply wp_bind, wp_critical_enter, wp_bind, wp_gets. cbn [g_intrpt_nested_level].
  case_decide as Hn; cbn in Hn; [apply wp_fmap, wp_exit_ret; rewrite irq_restore; split; [done|by apply create_intrpt]|].
  apply wp_bind, wp_gets. cbn [g_idle_task_spawned].
  case_decide as Hi; cbn in Hi; [destruct Hi; apply wp_exit_ret; rewrite irq_restore; split; [done|by apply create_idle]|].
  apply wp_bind, wp_spawned, wp_bind, wp_modify, wp_bind, wp_modify, wp_bind.
  destruct (cpu_task_stack_init (<[0%nat := RHINO_TASK_STACK_OVF_MAGIC]> (replicate (Z.to_nat size) 0)) arg entry)
    as [m' sp] eqn:Hinit.
  eapply wp_stack_prepare; [exact Hm|done|exact Hinit|]. apply wp_bind. eapply wp_task_upd; [apply lookup_insert_eq|].
  apply wp_bind, wp_critical_enter, wp_bind, wp_modify.
  set (s0 := registered s t prio stk (m' ++ drop (Z.to_nat size) m)).
  set (k := made_task prio ticks stk size autorun K_OBJ_STATIC_ALLOC sp).
  assert (Hk : fresh k) by (apply made_task_fresh; lia).
  match goal with |- wp _ _ ?x => assert (x = (s0 <| tasks ::= <[t := k]> |>) <| irq_off := true |>) as -> by kstate_eq end.
  destruct (decide (0 < autorun)) as [Ha|Ha].
  - apply (wp_start_fresh s0 t k); try done; [by apply (kok_locked_ready s)|unfold k, made_task, init_task; by rewrite decide_True|].
    intros rq' s' Hring Hok' Hsw. split; [done|]. eapply (create_done s t arg prio ticks stk size entry autorun m m' sp rq'); try done.
    rewrite decide_True by done. by split.
  - apply wp_exit_ret.
    match goal with |- kok ?x /\ _ => assert (x = setq s0 (g_ready_queue s) (<[t := k]> (tasks s)) (blk_objs s) (g_tick_head s)) as -> by kstate_eq end.
    split; [|eapply (create_done s t arg prio ticks stk size entry autorun m m' sp (g_ready_queue s)); try done; by rewrite decide_False].
    apply (kok_suspended s0); [done..|]. unfold k, made_task, init_task. by rewrite decide_False.
Qed.

(** C15: creating a task at an address that is no live task's, in a running system: each
    refusal leaves the system as it was; otherwise the stack is cleared, marked at its end and
    filled by the port, the task is registered, and it is suspended or, to start at once, last
    among the ready tasks of its priority, so that it runs next exactly if its priority is
    higher than the running task's.  The invariant of the kernel holds afterwards. *)
Theorem krhino_task_create_correct (s : kstate) (t : tid) (name : addr) (arg prio ticks : Z) (stk : addr)
    (size : Z) (entry : addr) (autorun : Z) (m : list Z)
    (Hok : kok s) (Hrun : g_sys_stat s = RHINO_RUNNING) (Hun : unused_task s t) (Hprio : 0 <= prio)
    (Hm : ubufs s !! stk = Some m) (Hsize : (Z.to_nat size <= length m)%nat) :
  wp (krhino_task_create (Some t) (Some name) arg prio ticks (Some stk) size (Some entry) autorun)
    (fun r s' => kok s' /\ create_spec s t arg prio ticks stk size entry autorun r s') s.
Proof. by eapply wp_krhino_task_create. Qed.

End create.

#[local] Existing Instance linuxhost.

(** a port that leaves the stack as it is, with the stack pointer at its end *)
Definition flat_port : Port := {| cpu_task_stack_init m _ _ := (m, Z.of_nat (length m)) |}.
#[local] Existing Instance flat_port.

Lemma krhino_task_create_correct_witness :
  wp (krhino_task_create (Some 30%positive) (Some 1%positive) 7 3 0 (Some 40%positive) 4 (Some 9%positive) 1)
    (fun r s' => kok s' /\ create_spec demo 30%positive 7 3 0 40%positive 4 9%positive 1 r s') demo.
Proof.
  apply (krhino_task_create_correct demo 30%positive 1%positive 7 3 0 40%positive 4 9%positive 1 (replicate 8 0) demo_ok).
  - reflexivity.
  - intros k Hk. discriminate Hk.
  - lia.
  - reflexivity.
  - cbn. lia.
Defined.

End Create.
