(* ===== verification/TaskSem.v ===== *)
(** * Semaphores bound to tasks ([k_task_sem.c]) *)
From S2P Require Import Prelude Config Kernel Sched TickList Pend Inv Prio Sem Task.
Import Sched TickList Pend Sem Task.

Module TaskSem.
Section tasksem.
Context {cfg : RhinoConfig}.

Definition krhino_task_sem_create (task : option tid) (sem : option oid) (name : option addr) (count : Z)
  : K kstat_t :=
  match task with
  | None => mret RHINO_NULL_PTR
  | Some t =>
      ret ← krhino_sem_create sem name count;
      task_upd t (fun k => k <| task_sem_obj := if decide (ret = RHINO_SUCCESS) then sem else None |>);;
      mret ret
  end.

Definition krhino_task_sem_del (task : option tid) : K kstat_t :=
  match task with
  | None => mret RHINO_NULL_PTR
  | Some t => k ← task_get t; krhino_sem_del (task_sem_obj k)
  end.

Definition krhino_task_sem_give (notify : oid -> sid -> K unit) (task : option tid) : K kstat_t :=
  match task with
  | None => mret RHINO_NULL_PTR
  | Some t => k ← task_get t; krhino_sem_give notify (task_sem_obj k)
  end.

Definition krhino_task_sem_take (ticks : Z) : K kret :=
  t ← krhino_cur_task_get;
  t ← deref t;
  k ← task_get t;
  krhino_sem_take (task_sem_obj k) ticks.

Definition krhino_task_sem_count_set (task : option tid) (count : Z) : K kstat_t :=
  match task with
  | None => mret RHINO_NULL_PTR
  | Some t => k ← task_get t; krhino_sem_count_set (task_sem_obj k) count
  end.

Definition krhino_task_sem_count_get (task : option tid) (count : option addr) : K kstat_t :=
  match task with
  | None => mret RHINO_NULL_PTR
  | Some t => k ← task_get t; krhino_sem_count_get (task_sem_obj k) count
  end.

End tasksem.
End TaskSem.
