(* ===== verification/Tick.v ===== *)
(** * The tick interrupt ([k_tick.c]: [tick_list_update]; [k_time.c]) *)
From S2P Require Import Prelude Config Kernel Sched TickList Pend Inv Demo Prio Own.
Import Sched TickList Pend Prio Own.

Module Tick.
Section tick.
Context {cfg : RhinoConfig}.

(** [iter->next] for the node of [t] in the tick list; [None] is the head *)
Fixpoint next_of (t : tid) (l : list tid) : option tid :=
  match l with
  | [] => None
  | x :: l' => if decide (x = t) then head l' else next_of t l'
  end.

(** The wait of [p_tcb] is over. *)
Definition tick_expire (p_tcb : tid) : K unit :=
  k ← task_get p_tcb;
  match task_state k with
  | K_SLEEP =>
      task_upd p_tcb (fun k => k <| blk_state := BLK_FINISH |> <| task_state := K_RDY |>);;
      tick_list_rm p_tcb;;
      ready_list_add p_tcb
  | K_PEND =>
      tick_list_rm p_tcb;;
      blk_list_rm p_tcb;;
      ready_list_add p_tcb;;
      task_upd p_tcb (fun k => k <| blk_state := BLK_TIMEOUT |> <| task_state := K_RDY |>);;
      mutex_task_pri_reset p_tcb;;
      task_upd p_tcb (fun k => k <| blk_obj := None |>)
  | K_PEND_SUSPENDED =>
      tick_list_rm p_tcb;;
      blk_list_rm p_tcb;;
      task_upd p_tcb (fun k => k <| blk_state := BLK_TIMEOUT |> <| task_state := K_SUSPENDED |>);;
      mutex_task_pri_reset p_tcb;;
      task_upd p_tcb (fun k => k <| blk_obj := None |>)
  | K_SLEEP_SUSPENDED =>
      task_upd p_tcb (fun k => k <| task_state := K_SUSPENDED |> <| blk_state := BLK_FINISH |>);;
      tick_list_rm p_tcb
  | _ => k_err_proc RHINO_SYS_FATAL_ERR
  end.

(** [(tick_i_t)match - (tick_i_t)now], in two's complement *)
Definition tick_delta (tmatch now : Z) : Z := swrap tick_bits (tmatch - now).

Fixpoint tick_scan (fuel : nat) (iter : option tid) : K unit :=
  match fuel with
  | O => fault
  | S fuel =>
      match iter with
      | None => mret tt
      | Some p_tcb =>
          l ← gets g_tick_head;
          k ← task_get p_tcb;
          now ← gets g_tick_count;
          if decide (tick_delta (tick_match k) now <= 0) then
            tick_expire p_tcb;; tick_scan fuel (next_of p_tcb l)
          else mret tt
      end
  end.

(** one turn per task of the list, and one to see its end *)
Definition tick_list_update : K unit :=
  cpsr ← RHINO_CRITICAL_ENTER;
  modify (fun s => s <| g_tick_count ::= fun n => wrap tick_bits (n + 1) |>
                     <| g_sys_time_tick ::= fun n => wrap tick_bits (n + 1) |>);;
  l ← gets g_tick_head;
  tick_scan (S (length l)) (head l);;
  RHINO_CRITICAL_EXIT cpsr.

(** ** Code that does not look at the clock *)

Definition set_now (n : Z) (s : kstate) : kstate := s <| g_tick_count := n |>.

(** [m] does the same at any time. *)
Definition blind {A} (m : K A) : Prop :=
  forall s n, m (set_now n s) = (fun r => (r.1, set_now n r.2)) <$> m s.

Lemma blind_ret {A} (a : A) : blind (mret a).
Proof. done. Qed.

Lemma blind_bind {A B} (m : K A) (f : A -> K B) : blind m -> (forall a, blind (f a)) -> blind (m ≫= f).
Proof.
  intros Hm Hf s n. unfold mbind, K_bind. rewrite (Hm s n). destruct (m s) as [[a s']|]; [|done].
  cbn. apply Hf.
Qed.

Lemma blind_fault {A} : blind (fault : K A).
Proof. done. Qed.
Lemma blind_deref {A} (p : option A) : blind (deref p).
Proof. by destruct p. Qed.
Lemma blind_gets {A} (f : kstate -> A) : (forall s n, f (set_now n s) = f s) -> blind (gets f).
Proof. intros Hf s n. cbv -[set_now]. by rewrite Hf. Qed.
Lemma blind_modify (f : kstate -> kstate) : (forall s n, f (set_now n s) = set_now n (f s)) -> blind (modify f).
Proof. intros Hf s n. cbv -[set_now]. by rewrite Hf. Qed.
Lemma blind_task_get t : blind (task_get t).
Proof. intros s n. unfold task_get. cbn. by destruct (tasks s !! t). Qed.
Lemma blind_task_upd t f : blind (task_upd t f).
Proof. intros s n. unfold task_upd. cbn. by destruct (tasks s !! t). Qed.
Lemma blind_blk_get o : blind (blk_get o).
Proof. intros s n. unfold blk_get. cbn. by destruct (blk_objs s !! o). Qed.
Lemma blind_blk_upd o f : blind (blk_upd o f).
Proof. intros s n. unfold blk_upd. cbn. by destruct (blk_objs s !! o). Qed.
Lemma blind_mutex_get o : blind (mutex_get o).
Proof. intros s n. unfold mutex_get. cbn. by destruct (mutexes s !! o). Qed.
Lemma blind_mutex_upd o f : blind (mutex_upd o f).
Proof. intros s n. unfold mutex_upd. cbn. by destruct (mutexes s !! o). Qed.
Lemma blind_ring_get p : blind (ring_get p).
Proof. intros s n. unfold ring_get. cbn. by destruct (cur_list_item (g_ready_queue s) !! Z.to_nat p). Qed.
Lemma blind_pend_list_add o t : blind (pend_list_add o t).
Proof.
  intros s n. unfold pend_list_add. cbn. destruct (tasks s !! t); [|done]. cbn.
  destruct (blk_objs s !! o); [|done]. cbn. by destruct (insert_before _ _ _).
Qed.

End tick.

Create HintDb blind discriminated.
#[local] Hint Resolve blind_ret blind_fault blind_deref blind_task_get blind_task_upd blind_blk_get
  blind_blk_upd blind_mutex_get blind_mutex_upd blind_ring_get blind_pend_list_add : blind.

(** one step along the structure of a computation *)
Ltac blind_step :=
  match goal with
  | |- blind (_ ≫= _) => apply blind_bind; [|intros ?]
  | |- blind (modify _) => apply blind_modify; intros; reflexivity
  | |- blind (rq_mod _) => apply blind_modify; intros; reflexivity
  | |- blind (ring_set _ _) => apply blind_modify; intros; reflexivity
  | |- blind (gets _) => apply blind_gets; intros; reflexivity
  | |- blind (when ?b _) => unfold when; destruct b
  | |- blind (match ?x with _ => _ end) => destruct x
  | |- blind (k_err_proc _) => apply blind_modify; intros; reflexivity
  | |- blind _ => solve [eauto with blind]
  end.
Ltac blind := repeat blind_step.

Section scan.
Context {cfg : RhinoConfig}.

Lemma blind_ready_list_init t : blind (ready_list_init t).
Proof. unfold ready_list_init. blind. Qed.
Lemma blind_active : blind active.
Proof. unfold active. blind. Qed.
#[local] Hint Resolve blind_ready_list_init blind_active : blind.
Lemma blind_ready_list_add_tail t : blind (ready_list_add_tail t).
Proof. unfold ready_list_add_tail, is_ready_list_empty. blind. Qed.
Lemma blind_ready_list_add_head t : blind (ready_list_add_head t).
Proof. unfold ready_list_add_head, is_ready_list_empty. blind. Qed.
Lemma blind_ready_list_rm t : blind (ready_list_rm t).
Proof. unfold ready_list_rm. blind. Qed.
Lemma blind_pend_list_reorder t : blind (pend_list_reorder t).
Proof. unfold pend_list_reorder, blk_list_rm. blind. Qed.
Lemma blind_link_get p : blind (link_get p).
Proof. unfold link_get. blind. Qed.
Lemma blind_link_set p v : blind (link_set p v).
Proof. unfold link_set. blind. Qed.
Lemma blind_first_waiter_pri m pri : blind (first_waiter_pri m pri).
Proof. unfold first_waiter_pri. blind. Qed.
#[local] Hint Resolve blind_ready_list_add_tail blind_ready_list_add_head blind_ready_list_rm
  blind_pend_list_reorder blind_link_get blind_link_set blind_first_waiter_pri : blind.
Lemma blind_mutex_pri_look_loop fuel p rel new pri : blind (mutex_pri_look_loop fuel p rel new pri).
Proof. revert p rel new pri. induction fuel as [|fuel IH]; intros; cbn; blind. Qed.
#[local] Hint Resolve blind_mutex_pri_look_loop : blind.
Lemma blind_mutex_pri_look t rel : blind (mutex_pri_look t rel).
Proof. unfold mutex_pri_look. blind. Qed.
#[local] Hint Resolve blind_mutex_pri_look : blind.
Lemma blind_task_pri_change_step t p : blind (task_pri_change_step t p).
Proof. unfold task_pri_change_step. blind. Qed.
#[local] Hint Resolve blind_task_pri_change_step : blind.
Lemma blind_task_pri_change_loop fuel t p : blind (task_pri_change_loop fuel t p).
Proof. revert t p. induction fuel as [|fuel IH]; intros; cbn; blind. Qed.
#[local] Hint Resolve blind_task_pri_change_loop : blind.
Lemma blind_task_pri_change t p : blind (task_pri_change t p).
Proof. unfold task_pri_change. blind. Qed.
#[local] Hint Resolve blind_task_pri_change : blind.
Lemma blind_mutex_task_pri_reset t : blind (mutex_task_pri_reset t).
Proof. unfold mutex_task_pri_reset, mutex_release. blind. Qed.

(** What is proved at one time holds at another. *)
Lemma wp_blind {A} (m : K A) n Q s :
  blind m -> wp m (fun a s' => Q a (set_now (g_tick_count s) s')) (set_now n s) -> wp m Q s.
Proof.
  intros Hm. unfold wp. rewrite (Hm s n).
  assert (Hs : m s = m (set_now (g_tick_count s) s)) by (by destruct s).
  rewrite (Hm s (g_tick_count s)) in Hs. destruct (m s) as [[a s']|]; cbn; [|done].
  assert (Hs' : s' = set_now (g_tick_count s) s') by (cbn in Hs; congruence). intros HQ. rewrite Hs'. exact HQ.
Qed.

Lemma blind_tick_expire t : blind (tick_expire t).
Proof.
  pose proof (blind_mutex_task_pri_reset t). assert (blind (ready_list_add t)).
  { unfold ready_list_add. blind. }
  assert (blind (tick_list_rm t)) by (unfold tick_list_rm; blind).
  unfold tick_expire, blk_list_rm. blind.
Qed.

(** ** The end of one wait *)

(** the task when its deadline has come *)
Definition expired_task (k : ktask_t) : ktask_t :=
  let k := k <| tick_head := false |> in
  match task_state k with
  | K_SLEEP => k <| blk_state := BLK_FINISH |> <| task_state := K_RDY |>
  | K_SLEEP_SUSPENDED => k <| blk_state := BLK_FINISH |> <| task_state := K_SUSPENDED |>
  | K_PEND => k <| blk_state := BLK_TIMEOUT |> <| task_state := K_RDY |> <| blk_obj := None |>
  | K_PEND_SUSPENDED => k <| blk_state := BLK_TIMEOUT |> <| task_state := K_SUSPENDED |> <| blk_obj := None |>
  | _ => k
  end.

Lemma wp_tick_rm t k Q s :
  tick_ok (g_tick_head s) (tasks s) (g_tick_count s) -> tasks s !! t = Some k -> tick_head k = true ->
  (tick_ok (list_rm t (g_tick_head s)) (<[t := k <| tick_head := false |>]> (tasks s)) (g_tick_count s) ->
     Q tt (setq s (g_ready_queue s) (<[t := k <| tick_head := false |>]> (tasks s)) (blk_objs s)
       (list_rm t (g_tick_head s)))) ->
  wp (tick_list_rm t) Q s.
Proof.
  intros Hok Ht Hh HQ. unfold tick_list_rm. apply wp_bind. eapply wp_task_get; [done|]. rewrite Hh.
  apply wp_bind, wp_modify. eapply wp_task_upd; [done|].
  match goal with |- Q tt ?x => match type of HQ with _ -> Q tt ?y => assert (x = y) as -> by kstate_eq end end.
  apply HQ. by eapply tick_ok_rm.
Qed.

Lemma ended_tick k k' :
  task_ok k -> task_state k' = K_RDY \/ (task_state k' = K_SUSPENDED /\ 0 < suspend_count k) ->
  tick_head k' = false -> prio k' = prio k -> b_prio k' = b_prio k ->
  suspend_count k' = suspend_count k -> mutex_list k' = mutex_list k -> ended k k'.
Proof.
  intros [] Hr Hth Hp Hb Hc Hl. split; try done; try (by destruct Hr as [-> | [-> _]]).
  split; rewrite ?Hp, ?Hb, ?Hc, ?Hth; try done; destruct Hr as [-> | [-> ?]]; done.
Qed.

(** A sleeper wakes. *)
Lemma kinv_slept s t k k' rq' L' :
  kinv s -> pi_inv s -> tasks s !! t = Some k -> task_state k = K_SLEEP \/ task_state k = K_SLEEP_SUSPENDED ->
  ended k k' -> rq_ok rq' (rdy (<[t := k']> (tasks s))) -> tick_ok L' (<[t := k']> (tasks s)) (g_tick_count s) ->
  kinv (setq s rq' (<[t := k']> (tasks s)) (blk_objs s) L') /\
  pi_inv (setq s rq' (<[t := k']> (tasks s)) (blk_objs s) L').
Proof.
  intros Hinv Hpi Ht Hst [] Hrq Htk. pose proof Hinv as [].
  assert (Hp : is_pend (task_state k) = false) by (by destruct Hst as [-> | ->]).
  assert (Hd : task_state k <> K_DELETED) by (by destruct Hst as [-> | ->]). split.
  - apply (kinv_setq s t k); try done.
    + eapply pend_not_idle; [done..|]. by destruct Hst as [-> | ->].
    + apply (bl_ok_unseen _ _ t k); rewrite ?Hp; try done; by rewrite en_pend0.
    + intros m _. rewrite waits_insert, en_pend0. naive_solver.
  - eapply pi_setq; try done. intros u m _. rewrite en_pend0, Hp. naive_solver.
Qed.

Lemma tick_ok_again L T n t k1 k2 :
  tick_ok L (<[t := k1]> T) n -> tick_head k2 = tick_head k1 -> tick_match k2 = tick_match k1 ->
  tick_ok L (<[t := k2]> T) n.
Proof.
  intros Hok Hh Hm. rewrite <- (insert_insert_eq T t k2 k1). eapply tick_ok_upd; [exact Hok|apply lookup_insert_eq|done|done].
Qed.

Lemma wp_expire_sleep s t k Q :
  kinv s -> pi_inv s -> tasks s !! t = Some k -> tick_head k = true ->
  task_state k = K_SLEEP \/ task_state k = K_SLEEP_SUSPENDED ->
  (forall rq', let s' := setq s rq' (<[t := expired_task k]> (tasks s)) (blk_objs s) (list_rm t (g_tick_head s)) in
     kinv s' -> pi_inv s' -> Q tt s') ->
  wp (tick_expire t) Q s.
Proof.
  intros Hinv Hpi Ht Hh Hst HQ. pose proof Hinv as []. pose proof (inv_task t k Ht) as Hk.
  assert (Hr : task_state k <> K_RDY) by (by destruct Hst as [-> | ->]).
  assert (Hen : ended k (expired_task k)).
  { pose proof (tok_suspended _ Hk). unfold expired_task. cbn [task_state].
    change (task_state (k <| tick_head := false |>)) with (task_state k).
    destruct Hst as [Hs | Hs]; rewrite Hs in *; apply ended_tick; try done; cbn; auto. }
  assert (Hnext : forall k1 rq', k1 = expired_task k -> rq_ok rq' (rdy (<[t := k1]> (tasks s))) ->
    tick_ok (list_rm t (g_tick_head s)) (<[t := k1]> (tasks s)) (g_tick_count s) ->
    Q tt (setq s rq' (<[t := k1]> (tasks s)) (blk_objs s) (list_rm t (g_tick_head s)))).
  { intros k1 rq' -> Hrq Htk. destruct (kinv_slept s t k (expired_task k) rq' _ Hinv Hpi Ht Hst Hen Hrq Htk). by apply HQ. }
  unfold tick_expire. apply wp_bind. eapply wp_task_get; [done|].
  unfold expired_task in Hnext. change (task_state (k <| tick_head := false |>)) with (task_state k) in Hnext.
  destruct Hst as [Hs | Hs]; rewrite Hs in *.
  - apply wp_bind. eapply wp_task_upd; [done|]. apply wp_bind.
    set (k1 := k <| blk_state := BLK_FINISH |> <| task_state := K_RDY |>).
    eapply (wp_tick_rm t k1); cbn; [by eapply (tick_ok_upd _ _ _ t k)|apply lookup_insert_eq|done|].
    rewrite insert_insert_eq. intros Htk.
    destruct inv_active as (a & Ha & Hka).
    assert (is_Some (<[t := k1 <| tick_head := false |>]> (tasks s) !! a)) as [ka Hka'] by (apply lookup_insert_is_Some'; by right).
    match goal with |- wp _ _ ?x => assert (x = setq s (g_ready_queue s) (<[t := k1 <| tick_head := false |>]> (tasks s))
      (blk_objs s) (list_rm t (g_tick_head s))) as -> by kstate_eq end.
    eapply (q_ready_list_add _ _ _ _ _ t _ a ka); [done|apply lookup_insert_eq|done|done|apply Hk| |].
    { intros q (? & ? & ? & _). congruence. }
    intros rq' Hrq'. apply Hnext; [done| |done].
    eapply (rq_ok_readied _ _ t k); try done. by rewrite Hs.
  - apply wp_bind. eapply wp_task_upd; [done|].
    set (k1 := k <| task_state := K_SUSPENDED |> <| blk_state := BLK_FINISH |>).
    eapply (wp_tick_rm t k1); cbn; [by eapply (tick_ok_upd _ _ _ t k)|apply lookup_insert_eq|done|].
    rewrite insert_insert_eq. intros Htk.
    match goal with |- Q tt ?x => assert (x = setq s (g_ready_queue s) (<[t := k1 <| tick_head := false |>]> (tasks s))
      (blk_objs s) (list_rm t (g_tick_head s))) as -> by kstate_eq end.
    apply Hnext; [done| |done]. eapply (rq_ok_unseen _ _ t k); try done; by rewrite Hs.
Qed.

(** A wait for an object times out. *)
Lemma wp_expire_pend s t k Q :
  kinv s -> pi_inv s -> tasks s !! t = Some k -> tick_head k = true -> is_pend (task_state k) = true ->
  (forall rq' T' O', same_shape (blk_objs s) O' ->
     reprio (fun _ _ => True) (<[t := expired_task k]> (tasks s)) T' ->
     let s' := setq s rq' T' O' (list_rm t (g_tick_head s)) in kinv s' -> pi_inv s' -> Q tt s') ->
  wp (tick_expire t) Q s.
Proof.
  intros Hinv Hpi Ht Hh Hp HQ. pose proof Hinv as []. pose proof (inv_task t k Ht) as Hk.
  pose proof (tok_suspended _ Hk) as Hsus.
  set (L' := list_rm t (g_tick_head s)) in *. set (k1 := k <| tick_head := false |>).
  assert (Hreset : forall bs st rq', let k2 := k1 <| blk_state := bs |> <| task_state := st |> in
    k2 <| blk_obj := None |> = expired_task k ->
    st = K_RDY \/ (st = K_SUSPENDED /\ 0 < suspend_count k) ->
    rq_ok rq' (rdy (<[t := k2]> (tasks s))) ->
    tick_ok L' (<[t := k1]> (tasks s)) (g_tick_count s) ->
    wp (mutex_task_pri_reset t;; task_upd t (fun k => k <| blk_obj := None |>)) Q
      (setq s rq' (<[t := k2]> (tasks s)) (blk_rm t (blk_objs s)) L')).
  { intros bs st rq' k2 He Hst Hrq Htk. apply (wp_reset_done s t k k2); try done.
    - by apply ended_tick.
    - by eapply tick_ok_again.
    - rewrite He. intros. by eapply HQ. }
  unfold tick_expire. apply wp_bind. eapply wp_task_get; [done|].
  unfold expired_task in Hreset. change (task_state (k <| tick_head := false |>)) with (task_state k) in Hreset.
  assert (Hrm : forall (rest : K unit),
    (tick_ok L' (<[t := k1]> (tasks s)) (g_tick_count s) ->
       wp rest Q (setq s (g_ready_queue s) (<[t := k1]> (tasks s)) (blk_rm t (blk_objs s)) L')) ->
    wp (tick_list_rm t;; blk_list_rm t;; rest) Q s).
  { intros rest Hrest. apply wp_bind. eapply (wp_tick_rm t k); [done..|]. intros Htk.
    apply wp_bind, q_blk_list_rm. by apply Hrest. }
  destruct (task_state k) eqn:Hst; try done.
  - apply Hrm. intros Htk. destruct inv_active as (a & Ha & Hka).
    assert (is_Some (<[t := k1]> (tasks s) !! a)) as [ka Hka'] by (apply lookup_insert_is_Some'; by right).
    apply wp_bind. eapply (q_ready_list_add _ _ _ _ _ t _ a ka); [done|apply lookup_insert_eq|done|done|apply Hk| |].
    { intros q (? & ? & ? & _). congruence. }
    intros rq' Hrq'. apply wp_bind. eapply q_task_upd; [apply lookup_insert_eq|]. rewrite insert_insert_eq.
    apply (Hreset BLK_TIMEOUT K_RDY); try done; [by left|]. eapply (rq_ok_readied _ _ t k); try done. by rewrite Hst.
  - apply Hrm. intros Htk. apply wp_bind. eapply q_task_upd; [apply lookup_insert_eq|]. rewrite insert_insert_eq.
    apply (Hreset BLK_TIMEOUT K_SUSPENDED); try done; [by right|]. eapply (rq_ok_unseen _ _ t k); try done; by rewrite Hst.
Qed.

Lemma wp_tick_expire s t k Q :
  kinv s -> pi_inv s -> tasks s !! t = Some k -> tick_head k = true ->
  (forall rq' T' O', same_shape (blk_objs s) O' ->
     reprio (fun _ _ => True) (<[t := expired_task k]> (tasks s)) T' ->
     let s' := setq s rq' T' O' (list_rm t (g_tick_head s)) in kinv s' -> pi_inv s' -> Q tt s') ->
  wp (tick_expire t) Q s.
Proof.
  intros Hinv Hpi Ht Hh HQ. pose proof Hinv as []. pose proof (inv_task t k Ht) as Hk.
  pose proof (tok_tick _ Hk) as Htk. pose proof (tok_seed _ Hk). rewrite Hh in Htk.
  destruct (is_pend (task_state k)) eqn:Hp; [by apply (wp_expire_pend s t k)|].
  apply (wp_expire_sleep s t k); try done.
  - destruct (task_state k); auto; done.
  - intros rq' s' Hi Hpi'. apply (HQ rq'); [done|apply reprio_refl|done|done].
Qed.

(** ** The scan *)

(** [k] is due at the tick after [n]. *)
Definition due (n : Z) (k : ktask_t) : Prop :=
  tick_head k = true /\ wrap tick_bits (tick_match k - n) = 1.
#[global] Instance due_dec n k : Decision (due n k).
Proof. unfold due. apply _. Defined.

Definition tick_wake (n : Z) (k : ktask_t) : ktask_t := if decide (due n k) then expired_task k else k.

Lemma expired_not_due n k : ~ due n (expired_task k).
Proof. intros [Hh _]. unfold expired_task in Hh. cbn in Hh. by destruct (task_state k). Qed.

Lemma expired_prio k p : expired_task (k <| prio := p |>) = (expired_task k) <| prio := p |>.
Proof. unfold expired_task. cbn. by destruct (task_state k). Qed.

Lemma tick_wake_prio n k p : tick_wake n (k <| prio := p |>) = (tick_wake n k) <| prio := p |>.
Proof.
  unfold tick_wake. destruct (decide (due n k)) as [Hd|Hd].
  - rewrite decide_True by done. apply expired_prio.
  - by rewrite decide_False.
Qed.

Lemma reprio_any_trans T1 T2 T3 :
  reprio (fun _ _ => True) T1 T2 -> reprio (fun _ _ => True) T2 T3 -> reprio (fun _ _ => True) T1 T3.
Proof.
  intros H1 H2 u. destruct (H2 u) as [He|(k & p & Hk & _ & He)]; rewrite He; [apply H1|].
  right. destruct (H1 u) as [He1|(k1 & p1 & Hk1 & _ & He1)]; rewrite Hk in He1.
  - exists k, p. by rewrite <- He1.
  - injection He1 as ->. by exists k1, p.
Qed.

Lemma reprio_wake n (T T' : gmap tid ktask_t) :
  reprio (fun _ _ => True) T T' -> reprio (fun _ _ => True) (tick_wake n <$> T) (tick_wake n <$> T').
Proof.
  intros Hre u. rewrite !lookup_fmap. destruct (Hre u) as [->|(k & p & -> & _ & ->)]; [by left|right].
  cbn. rewrite tick_wake_prio. eauto.
Qed.

Lemma wake_expired n (T : gmap tid ktask_t) t k :
  T !! t = Some k -> due n k -> tick_wake n <$> <[t := expired_task k]> T = tick_wake n <$> T.
Proof.
  intros Ht Hd. rewrite fmap_insert. apply insert_id. rewrite lookup_fmap, Ht. cbn. f_equal.
  unfold tick_wake. rewrite decide_True by done. by rewrite decide_False by apply expired_not_due.
Qed.

Lemma tick_wake_nothing n (T : gmap tid ktask_t) :
  (forall t k, T !! t = Some k -> ~ due n k) -> tick_wake n <$> T = T.
Proof.
  intros Hn. apply map_eq. intros t. rewrite lookup_fmap. destruct (T !! t) as [k|] eqn:Ht; [|done].
  cbn. unfold tick_wake. rewrite decide_False; [done|]. by eapply Hn.
Qed.

(** the signed difference, for a deadline at most half the range away *)
Lemma tick_delta_near m n r :
  wrap tick_bits (m - n) = r -> 1 <= r <= 2 ^ (tick_bits - 1) ->
  tick_delta m (wrap tick_bits (n + 1)) = r - 1.
Proof.
  intros Hr Hb. pose proof tick_bits_pos as Hbits. unfold tick_delta.
  assert (Hp : 2 ^ tick_bits = 2 * 2 ^ (tick_bits - 1)) by (rewrite <- Z.pow_succ_r by lia; f_equal; lia).
  assert (Hw : wrap tick_bits (m - wrap tick_bits (n + 1)) = r - 1).
  { unfold wrap in *. rewrite Zminus_mod_idemp_r. replace (m - (n + 1)) with ((m - n) - 1) by lia.
    rewrite <- Zminus_mod_idemp_l, Hr. apply Z.mod_small. lia. }
  unfold swrap. rewrite Hw. by rewrite decide_True by lia.
Qed.

(** Without a task that is due the time may advance. *)
Lemma tick_ok_next L T n :
  tick_ok L T n -> (forall t, t ∈ L -> 2 <= rem T n t) -> tick_ok L T (wrap tick_bits (n + 1)).
Proof.
  intros [] Hfar. pose proof tick_bits_pos as Hbits.
  assert (Hrem : forall t, t ∈ L -> rem T (wrap tick_bits (n + 1)) t = rem T n t - 1).
  { intros t Ht. pose proof (Hfar t Ht) as Hr. unfold rem in *. destruct (T !! t) as [k|]; [|lia].
    assert (Hb : 0 <= wrap tick_bits (tick_match k - n) < 2 ^ tick_bits) by (apply wrap_range; lia). unfold wrap in *.
    rewrite Zminus_mod_idemp_r. replace (tick_match k - (n + 1)) with ((tick_match k - n) - 1) by lia.
    rewrite <- Zminus_mod_idemp_l. apply Z.mod_small. lia. }
  split; try done.
  - apply (StronglySorted_ext (fun a b => rem T n a <= rem T n b)); [|done].
    intros x y Hx Hy. rewrite !Hrem by done. lia.
  - intros t Ht. rewrite Hrem by done. specialize (Hfar t Ht). lia.
Qed.

(** the deadlines that [tick_scan] can tell from passed ones *)
Definition near_deadlines (n : Z) (T : gmap tid ktask_t) : Prop :=
  forall t k, T !! t = Some k -> tick_head k = true -> wrap tick_bits (tick_match k - n) <= 2 ^ (tick_bits - 1).

Lemma reprio_same_ticks T T' t k' :
  reprio (fun _ _ => True) T T' -> T' !! t = Some k' ->
  exists k, T !! t = Some k /\ tick_head k' = tick_head k /\ tick_match k' = tick_match k.
Proof. intros Hre Ht. destruct (reprio_lookup _ _ _ t k' Hre Ht) as (k & Hk & -> & _). by exists k. Qed.

Lemma next_of_head t l : next_of t (t :: l) = head l.
Proof. cbn. by rewrite decide_True. Qed.

Lemma wp_tick_scan fuel s n Q :
  kinv (set_now n s) -> pi_inv s -> g_tick_count s = wrap tick_bits (n + 1) ->
  near_deadlines n (tasks s) -> (length (g_tick_head s) < fuel)%nat ->
  (forall rq' T' O' L', same_shape (blk_objs s) O' ->
     reprio (fun _ _ => True) (tick_wake n <$> tasks s) T' ->
     let s' := setq s rq' T' O' L' in kinv s' -> pi_inv s' -> Q tt s') ->
  wp (tick_scan fuel (head (g_tick_head s))) Q s.
Proof.
  revert s. induction fuel as [|fuel IH]; intros s Hinv Hpi Hnow Hnear Hlen HQ; [lia|].
  pose proof Hinv as []. cbn in *. pose proof inv_tick as [tkn tkm tks tkp].
  assert (Hstop : (forall t, t ∈ g_tick_head s -> 2 <= rem (tasks s) n t) -> Q tt s).
  { intros Hfar. specialize (HQ (g_ready_queue s) (tasks s) (blk_objs s) (g_tick_head s)).
    rewrite setq_id in HQ. apply HQ; [done| |by split; try done; rewrite Hnow; apply tick_ok_next|done].
    rewrite tick_wake_nothing; [apply reprio_refl|]. intros t k Ht [Hh Hw].
    assert (Hin : t ∈ g_tick_head s) by (apply tkm; eauto). specialize (Hfar t Hin).
    unfold rem in Hfar. rewrite Ht in Hfar. lia. }
  destruct (g_tick_head s) as [|t l] eqn:HL; cbn [head].
  - apply wp_ret, Hstop. set_solver.
  - cbn [tick_scan]. apply wp_bind, wp_gets. rewrite HL.
    destruct (proj1 (tkm t)) as (k & Hk & Hh); [set_solver|].
    apply wp_bind. eapply wp_task_get; [done|]. apply wp_bind, wp_gets. rewrite Hnow.
    pose proof (tkp t ltac:(set_solver)) as Hpos. unfold rem in Hpos. rewrite Hk in Hpos.
    pose proof (Hnear t k Hk Hh) as Hfar.
    rewrite (tick_delta_near _ n _ eq_refl) by lia. case_decide as Hd.
    + assert (Hdue : due n k) by (split; [done|lia]).
      apply wp_bind. apply (wp_blind _ n); [apply blind_tick_expire|].
      apply (wp_tick_expire (set_now n s) t k); try done.
      intros rq' T' O' Hsh Hre s' Hinv' Hpi'. cbn in Hinv', Hpi', Hre.
      assert (HL' : list_rm t (g_tick_head s) = l).
      { rewrite HL. apply list_rm_cons. by apply NoDup_cons in tkn as []. }
      unfold s' in *. change (g_tick_head (set_now n s)) with (g_tick_head s) in *.
      rewrite HL' in Hinv', Hpi' |- *. rewrite next_of_head.
      change (set_now (g_tick_count s) (setq (set_now n s) rq' T' O' l)) with (setq s rq' T' O' l).
      apply (IH (setq s rq' T' O' l)); try done; cbn.
      * intros u ku Hu Hhu. destruct (reprio_same_ticks _ _ u ku Hre Hu) as (ku' & Hu' & He1 & He2).
        rewrite He1 in Hhu. rewrite He2. destruct (decide (u = t)) as [->|Hne].
        -- rewrite lookup_insert_eq in Hu'. injection Hu' as <-. exfalso.
           unfold expired_task in Hhu. cbn in Hhu. by destruct (task_state k).
        -- rewrite lookup_insert_ne in Hu' by done. by eapply Hnear.
      * cbn in Hlen. lia.
      * intros rq2 T2 O2 L2 Hsh2 Hre2 Hinv2 Hpi2. apply (HQ rq2 T2 O2 L2); try done.
        -- by eapply same_shape_trans.
        -- eapply reprio_any_trans; [|exact Hre2]. rewrite <- (wake_expired n (tasks s) t k) by done.
           by apply reprio_wake.
    + apply wp_ret, Hstop. intros u Hu. apply elem_of_cons in Hu as [->|Hu].
      * unfold rem. rewrite Hk. lia.
      * apply StronglySorted_inv in tks as [_ Hs]. rewrite Forall_forall in Hs. specialize (Hs u Hu).
        unfold rem in Hs at 1. rewrite Hk in Hs. lia.
Qed.

(** The tick, with the state it leaves. *)
Lemma wp_tick s (Q : unit -> kstate -> Prop) :
  kinv s -> pi_inv s -> 0 <= g_tick_count s < 2 ^ tick_bits -> near_deadlines (g_tick_count s) (tasks s) ->
  (forall rq' T' O' L', same_shape (blk_objs s) O' ->
     reprio (fun _ _ => True) (tick_wake (g_tick_count s) <$> tasks s) T' ->
     let s' := setq (s <| g_tick_count := wrap tick_bits (g_tick_count s + 1) |>
                       <| g_sys_time_tick := wrap tick_bits (g_sys_time_tick s + 1) |>) rq' T' O' L' in
     kinv s' -> pi_inv s' -> Q tt s') ->
  wp tick_list_update Q s.
Proof.
  intros Hinv Hpi Hnow Hnear HQ. unfold tick_list_update.
  apply wp_bind, wp_critical_enter, wp_bind, wp_modify, wp_bind, wp_gets, wp_bind.
  set (s1 := s <| irq_off := true |> <| g_tick_count ::= fun n => wrap tick_bits (n + 1) |>
               <| g_sys_time_tick ::= fun n => wrap tick_bits (n + 1) |>).
  apply (wp_tick_scan _ s1 (g_tick_count s)); try done.
  cbn. lia.
Qed.

(** C10: the tick: time advances by one, modulo the width of the counter, and exactly the
    tasks whose deadline that is stop waiting: sleepers are ready, timed-out waiters leave
    their object, suspended ones stay suspended, and nobody else changes but in the priority
    that a waiter gone from a mutex no longer lends.  The scan of the list ends. *)
Theorem tick_list_update_correct (s : kstate)
    (Hok : kok s) (Hnow : 0 <= g_tick_count s < 2 ^ tick_bits)
    (Hnear : near_deadlines (g_tick_count s) (tasks s)) :
  wp tick_list_update (fun _ s' =>
    kinv s' /\ pi_inv s' /\ g_tick_count s' = wrap tick_bits (g_tick_count s + 1) /\
    g_active_task s' = g_active_task s /\ irq_off s' = irq_off s /\ same_shape (blk_objs s) (blk_objs s') /\
    reprio (fun _ _ => True) (tick_wake (g_tick_count s) <$> tasks s) (tasks s')) s.
Proof.
  destruct Hok as (Hinv & Hpi & _). by apply wp_tick.
Qed.

End scan.

#[local] Existing Instance linuxhost.

(** The tick after 100 in a system where nobody is due. *)
Lemma tick_list_update_correct_witness :
  wp tick_list_update (fun _ s' =>
    kinv s' /\ pi_inv s' /\ g_tick_count s' = wrap tick_bits (g_tick_count demo + 1) /\
    g_active_task s' = g_active_task demo /\ irq_off s' = irq_off demo /\ same_shape (blk_objs demo) (blk_objs s') /\
    reprio (fun _ _ => True) (tick_wake (g_tick_count demo) <$> tasks demo) (tasks s')) demo.
Proof.
  apply (tick_list_update_correct demo demo_ok); [vm_compute; split; [discriminate|reflexivity]|].
  intros t k Hk Hh. cbn in Hk. task_cases Hk; cbn in Hh; try discriminate Hh; vm_compute; discriminate.
Defined.

End Tick.
