(* ===== verification/Time.v ===== *)
(** * Ticks and milliseconds ([k_time.c]) *)
From S2P Require Import Prelude Config Kernel Sched TickList Pend Prio Tick.
Import Sched TickList Pend Prio Tick.

Module Time.
Section time.
Context {cfg : RhinoConfig}.

Definition krhino_tick_proc : K unit :=
  tick_list_update;;
  a ← active;
  k ← task_get a;
  time_slice_update (prio k).

Definition krhino_sys_tick_get : K Z := gets g_sys_time_tick.

Definition krhino_sys_time_get : K Z :=
  t ← krhino_sys_tick_get;
  mret (wrap tick_bits (t * 1000) / RHINO_CONFIG_TICKS_PER_SECOND).

(** [padding] and [surplus] are [uint16_t]; the product is an [int]. *)
Definition krhino_ms_to_ticks (ms : Z) : Z :=
  let surplus := wrap 16 (ms mod 1000) in
  let ticks := wrap tick_bits (ms / 1000 * RHINO_CONFIG_TICKS_PER_SECOND) in
  let padding := wrap 16 (1000 / RHINO_CONFIG_TICKS_PER_SECOND) in
  let padding := if decide (0 < padding) then padding - 1 else 0 in
  wrap tick_bits (ticks + (surplus + padding) * RHINO_CONFIG_TICKS_PER_SECOND / 1000).

(** [padding] and [surplus] are [uint32_t]. *)
Definition krhino_ticks_to_ms (ticks : Z) : Z :=
  let surplus := wrap 32 (ticks mod RHINO_CONFIG_TICKS_PER_SECOND) in
  let time := wrap tick_bits (ticks / RHINO_CONFIG_TICKS_PER_SECOND * 1000) in
  let padding := wrap 32 (RHINO_CONFIG_TICKS_PER_SECOND / 1000) in
  let padding := if decide (0 < padding) then padding - 1 else 0 in
  wrap tick_bits (time + wrap 32 (wrap 32 (surplus + padding) * 1000) / RHINO_CONFIG_TICKS_PER_SECOND).

(** ** Conversions *)

Lemma tick_width : 2 ^ 32 <= 2 ^ tick_bits.
Proof. apply Z.pow_le_mono_r; [lia|]. destruct cfg_tick_bits; lia. Qed.

(** With [d] milliseconds to the tick, milliseconds become ticks by rounding up. *)
Lemma ms_to_ticks_ceil ms d :
  RHINO_CONFIG_TICKS_PER_SECOND * d = 1000 -> 0 <= ms < 2 ^ tick_bits - 1000 ->
  krhino_ms_to_ticks ms = (ms + d - 1) / d.
Proof.
  intros Hd Hms. pose proof cfg_ticks as Ht. set (tps := RHINO_CONFIG_TICKS_PER_SECOND) in *.
  assert (Hd1 : 1 <= d <= 1000) by nia. assert (Ht1 : 1 <= tps <= 1000) by nia. pose proof tick_width as Hw.
  pose proof (Z.div_mod ms 1000 ltac:(lia)) as Hdm. pose proof (Z.mod_pos_bound ms 1000 ltac:(lia)) as Hr.
  assert (Hq : 0 <= ms / 1000) by (apply Z.div_pos; lia).
  unfold krhino_ms_to_ticks. fold tps.
  assert (Hpad : 1000 / tps = d) by (rewrite <- Hd, Z.mul_comm; apply Z.div_mul; lia).
  rewrite Hpad, (wrap_small 16 d), (wrap_small 16 (ms mod 1000)) by lia. rewrite decide_True by lia.
  rewrite (wrap_small tick_bits (ms / 1000 * tps)) by nia.
  assert (Hfrac : (ms mod 1000 + (d - 1)) * tps / 1000 = (ms mod 1000 + (d - 1)) / d).
  { transitivity ((ms mod 1000 + (d - 1)) * tps / (d * tps)); [f_equal; lia|]. apply Z.div_mul_cancel_r; lia. }
  rewrite Hfrac.
  assert (Heq : ms / 1000 * tps + (ms mod 1000 + (d - 1)) / d = (ms + d - 1) / d).
  { rewrite <- Z.div_add_l by lia. f_equal. rewrite <- Z.mul_assoc, Hd. lia. }
  rewrite Heq. apply wrap_small. split; [apply Z.div_pos; lia|]. apply Z.div_lt_upper_bound; nia.
Qed.

Lemma ticks_to_ms_mul t d :
  RHINO_CONFIG_TICKS_PER_SECOND * d = 1000 -> 0 <= t -> t * d < 2 ^ tick_bits -> krhino_ticks_to_ms t = t * d.
Proof.
  intros Hd H0 Hfit. pose proof cfg_ticks as Ht. set (tps := RHINO_CONFIG_TICKS_PER_SECOND) in *.
  assert (Hd1 : 1 <= d <= 1000) by nia. assert (Ht1 : 1 <= tps <= 1000) by nia.
  pose proof (Z.div_mod t tps ltac:(lia)) as Hdm. pose proof (Z.mod_pos_bound t tps ltac:(lia)) as Hr.
  assert (Hq : 0 <= t / tps) by (apply Z.div_pos; lia). unfold krhino_ticks_to_ms. fold tps.
  assert (Hpad : (let padding := wrap 32 (tps / 1000) in if decide (0 < padding) then padding - 1 else 0) = 0).
  { cbv zeta. destruct (decide (tps = 1000)) as [->|Hne]; [vm_compute; done|].
    rewrite Z.div_small by lia. vm_compute. done. }
  cbv zeta in *. rewrite Hpad, Z.add_0_r, (wrap_small 32 (t mod tps)) by lia.
  rewrite (wrap_small 32 (t mod tps)), (wrap_small 32 (t mod tps * 1000)) by lia.
  assert (Hfrac : t mod tps * 1000 / tps = t mod tps * d).
  { transitivity (t mod tps * d * tps / tps); [f_equal; nia|]. apply Z.div_mul. lia. }
  rewrite Hfrac.
  assert (Hsum : t / tps * 1000 + t mod tps * d = t * d) by nia.
  rewrite (wrap_small tick_bits (t / tps * 1000)) by nia. rewrite Hsum. apply wrap_small. nia.
Qed.

(** On a clock whose tick is a whole number [d] of milliseconds, a time in
    milliseconds becomes the smallest number of ticks that is no shorter, and back in
    milliseconds it is never less and less than one tick more, without overflow up to one
    second below the width of the counter. *)
Theorem ms_ticks_roundtrip (ms d : Z)
    (Hd : RHINO_CONFIG_TICKS_PER_SECOND * d = 1000) (Hms : 0 <= ms < 2 ^ tick_bits - 1000) :
  krhino_ms_to_ticks ms = (ms + d - 1) / d /\
  ms <= krhino_ticks_to_ms (krhino_ms_to_ticks ms) < ms + d.
Proof.
  split; [by apply ms_to_ticks_ceil|]. rewrite (ms_to_ticks_ceil ms d) by done.
  pose proof cfg_ticks as Ht. assert (Hd1 : 1 <= d <= 1000) by nia.
  pose proof (Z.div_mod (ms + d - 1) d ltac:(lia)). pose proof (Z.mod_pos_bound (ms + d - 1) d ltac:(lia)).
  rewrite (ticks_to_ms_mul _ d); [nia|done|apply Z.div_pos; lia|nia].
Qed.

End time.

(** A clock of 300 ticks per second: a millisecond becomes no tick at all, although the
    padding is there to round up. *)
Program Definition clock300 : RhinoConfig := {|
  RHINO_CONFIG_PRI_MAX := 62;
  RHINO_CONFIG_TIME_SLICE_DEFAULT := 10;
  RHINO_CONFIG_TICKS_PER_SECOND := 300;
  RHINO_CONFIG_INTRPT_MAX_NESTED_LEVEL := 188;
  RHINO_CONFIG_TASK_INFO_NUM := 2;
  RHINO_CONFIG_NEXT_INTRPT_TICKS := 100;
  tick_bits := 64;
  size_bits := 32;
  RHINO_CONFIG_MM_MAXMSIZEBIT := 24;
  RHINO_CONFIG_MM_TLF_BLK_SIZE := 8192;
|}.
Solve All Obligations with (cbn; lia).

Lemma ms_to_ticks_rounds_down : @krhino_ms_to_ticks clock300 1 = 0.
Proof. vm_compute. reflexivity. Qed.

#[local] Existing Instance linuxhost.

End Time.
