(* ===== verification/Mblk.v ===== *)
(** * Pools of memory blocks ([k_mm_blk.c])

    The free blocks of a pool are chained through their first words, which live in the
    memory of words [umem]; 0 is the NULL pointer. *)
From S2P Require Import Prelude Config Kernel Sched Inv Demo Queue.
Import Sched Queue.

Module Mblk.
Section mblk.
Context {cfg : RhinoConfig}.

(** a pointer-sized word is written at the address [a] *)
Definition word_set (a v : Z) : K unit :=
  match a with Zpos p => store p v | _ => fault end.

(** reading a word that was never written is undefined *)
Definition word_get (a : Z) : K Z := fun s =>
  match a with Zpos p => v ← umem s !! p; Some (v, s) | _ => None end.

(** Chain the blocks; gives their number and the last address reached, [blk_next]. *)
Fixpoint blk_chain (fuel : nat) (blk_cur blk_next pool_end blk_size blks : Z) : K (Z * Z * Z) :=
  match fuel with
  | O => fault
  | S fuel =>
      if decide (blk_next < pool_end) then
        word_set blk_cur blk_next;;
        blk_chain fuel blk_next (blk_next + blk_size) pool_end blk_size (wrap 32 (blks + 1))
      else mret (blks, blk_cur, blk_next)
  end.

(** [pool_size] turns are enough when a block has at least one byte; with empty blocks the
    code does not terminate, and neither does the model. *)
Definition krhino_mblk_pool_init (pool name : option addr) (pool_start : option addr)
    (blk_size pool_size : Z) : K kstat_t :=
  match pool, name, pool_start with
  | Some p, Some _, Some start =>
      if decide (pool_size < wrap size_bits (Z.shiftl blk_size 1)) then mret RHINO_BLK_POOL_SIZE_ERR else
      let addr_align_mask := ptr_size - 1 in
      if decide (0 < Z.land (Zpos start) addr_align_mask) then mret RHINO_INV_ALIGN else
      if decide (0 < Z.land blk_size addr_align_mask) then mret RHINO_INV_ALIGN else
      if decide (0 < Z.land pool_size addr_align_mask) then mret RHINO_INV_ALIGN else
      let pool_end := Zpos start + pool_size in
      r ← blk_chain (S (Z.to_nat pool_size)) (Zpos start) (Zpos start + blk_size) pool_end blk_size 0;
      let blks := if decide (r.2 = pool_end) then wrap 32 (r.1.1 + 1) else r.1.1 in
      word_set r.1.2 0;;
      modify (fun s => s <| mblk_pools ::= <[p := mk_mblk_pool RHINO_MM_BLK_OBJ_TYPE blk_size blks blks (Zpos start)]> |>);;
      cpsr ← RHINO_CRITICAL_ENTER;
      modify (fun s => s <| g_kobj_list ::= fun l => l <| mblkpool_list_head ::= fun q => q ++ [p] |> |>);;
      exit_ret cpsr RHINO_SUCCESS
  | _, _, _ => mret RHINO_NULL_PTR
  end.

Definition pool_get (p : addr) : K mblk_pool_t := q ← gets (fun s => mblk_pools s !! p); deref q.

Definition pool_upd (p : addr) (f : mblk_pool_t -> mblk_pool_t) : K unit :=
  q ← pool_get p; modify (fun s => s <| mblk_pools ::= <[p := f q]> |>).

Definition krhino_mblk_alloc (pool blk : option addr) : K kstat_t :=
  match pool, blk with
  | Some p, Some out =>
      q ← pool_get p;
      if decide (mblk_obj_type q <> RHINO_MM_BLK_OBJ_TYPE) then mret RHINO_KOBJ_TYPE_ERR else
      cpsr ← RHINO_CRITICAL_ENTER;
      q ← pool_get p;
      if decide (0 < blk_avail q) then
        let avail_blk := avail_list q in
        store out avail_blk;;
        next ← word_get avail_blk;
        pool_upd p (fun q => q <| avail_list := next |> <| blk_avail ::= fun n => n - 1 |>);;
        exit_ret cpsr RHINO_SUCCESS
      else
        store out 0;;
        exit_ret cpsr RHINO_NO_MEM
  | _, _ => mret RHINO_NULL_PTR
  end.

Definition krhino_mblk_free (pool blk : option addr) : K kstat_t :=
  match pool, blk with
  | Some p, Some b =>
      q ← pool_get p;
      if decide (mblk_obj_type q <> RHINO_MM_BLK_OBJ_TYPE) then mret RHINO_KOBJ_TYPE_ERR else
      cpsr ← RHINO_CRITICAL_ENTER;
      q ← pool_get p;
      store b (avail_list q);;
      pool_upd p (fun q => q <| avail_list := Zpos b |> <| blk_avail ::= fun n => wrap size_bits (n + 1) |>);;
      exit_ret cpsr RHINO_SUCCESS
  | _, _ => mret RHINO_NULL_PTR
  end.

(** ** What a pool is *)

(** From [a] on the words of [m] link the blocks [l]; where the last one points is left open. *)
Fixpoint links (m : gmap addr Z) (a : Z) (l : list addr) : Prop :=
  match l with
  | [] => True
  | b :: l' => a = Zpos b /\ exists next, m !! b = Some next /\ links m next l'
  end.

(** The pool [p] offers exactly the blocks of [free], in this order and each once. *)
Record pool_ok (s : kstate) (p : addr) (q : mblk_pool_t) (free : list addr) : Prop := {
  pool_at : mblk_pools s !! p = Some q;
  pool_type : mblk_obj_type q = RHINO_MM_BLK_OBJ_TYPE;
  pool_avail : blk_avail q = Z.of_nat (length free);
  pool_links : links (umem s) (avail_list q) free;
  pool_nodup : NoDup free;
}.

Lemma links_frame m a l p v : links m a l -> p ∉ l -> links (<[p := v]> m) a l.
Proof.
  revert a. induction l as [|b l IH]; intros a; [done|]. intros [-> (next & Hn & Hl)] Hp. split; [done|].
  exists next. rewrite lookup_insert_ne by set_solver. split; [done|]. apply IH; [done|set_solver].
Qed.

(** ** Setting a pool up *)

(** the [i]-th block of a pool *)
Definition blk_addr (start sz : Z) (i : nat) : addr := Z.to_pos (start + Z.of_nat i * sz).

Lemma blk_addr_pos start sz i : 0 < start -> 0 <= sz -> Zpos (blk_addr start sz i) = start + Z.of_nat i * sz.
Proof. intros. unfold blk_addr. rewrite Z2Pos.id; lia. Qed.

Lemma blk_addr_inj start sz i j : 0 < start -> 0 < sz -> blk_addr start sz i = blk_addr start sz j -> i = j.
Proof.
  intros Hs Hz Heq. apply (f_equal Zpos) in Heq. rewrite !blk_addr_pos in Heq by lia. nia.
Qed.

(** the blocks from the [i]-th on *)
Definition blks_from (start sz : Z) (i n : nat) : list addr := blk_addr start sz <$> seq i n.

Lemma blks_from_nodup start sz i n : 0 < start -> 0 < sz -> NoDup (blks_from start sz i n).
Proof.
  intros Hs Hz. apply NoDup_fmap_2_strong; [|apply NoDup_seq].
  intros x y _ _. by apply blk_addr_inj.
Qed.

(** The words a pool links are its blocks' first ones. *)
Lemma links_blocks m start sz i n :
  0 < start -> 0 < sz ->
  (forall j, (i <= j < i + n)%nat -> m !! blk_addr start sz j = Some (start + Z.of_nat (S j) * sz) \/
    (S j = i + n /\ exists v, m !! blk_addr start sz j = Some v)%nat) ->
  links m (start + Z.of_nat i * sz) (blks_from start sz i n).
Proof.
  intros Hs Hz. revert i. induction n as [|n IH]; intros i Hm; cbn; [done|].
  rewrite blk_addr_pos by lia. split; [done|]. destruct (Hm i ltac:(lia)) as [Hi|(He & v & Hi)].
  - eexists. split; [done|]. apply IH. intros j Hj. specialize (Hm j ltac:(lia)).
    destruct Hm as [?|[? ?]]; [by left|right]. split; [lia|done].
  - exists v. split; [done|]. assert (n = 0%nat) as -> by lia. done.
Qed.

Lemma wp_blk_chain fuel start sz (i n : nat) (pool_end : Z) Q s :
  0 < start -> 0 < sz -> (i <= n)%nat -> (n - i < fuel)%nat -> Z.of_nat n < 2 ^ 32 ->
  start + Z.of_nat n * sz < pool_end -> pool_end <= start + Z.of_nat (S n) * sz ->
  (forall M, (forall a, (forall j, (i <= j < n)%nat -> a <> blk_addr start sz j) -> M !! a = umem s !! a) ->
     (forall j, (i <= j < n)%nat -> M !! blk_addr start sz j = Some (start + Z.of_nat (S j) * sz)) ->
     (forall a, is_Some (umem s !! a) -> is_Some (M !! a)) ->
     Q (Z.of_nat n, start + Z.of_nat n * sz, start + Z.of_nat (S n) * sz) (s <| umem := M |>)) ->
  wp (blk_chain fuel (start + Z.of_nat i * sz) (start + Z.of_nat (S i) * sz) pool_end sz (Z.of_nat i)) Q s.
Proof.
  intros Hs Hz. revert i s. induction fuel as [|fuel IH]; intros i s Hi Hf Hn Hlt Hle HQ; [lia|].
  cbn [blk_chain]. destruct (decide (i = n)) as [->|Hne].
  - rewrite decide_False by lia. apply wp_ret. specialize (HQ (umem s)).
    assert (s <| umem := umem s |> = s) as Hid by by destruct s. rewrite Hid in HQ. apply HQ; [done| |done]. intros; lia.
  - rewrite decide_True by nia. rewrite <- (blk_addr_pos start sz i) by lia. apply wp_bind, wp_modify.
    replace (start + Z.of_nat (S i) * sz + sz) with (start + Z.of_nat (S (S i)) * sz) by lia.
    rewrite (wrap_small 32) by lia. replace (Z.of_nat i + 1) with (Z.of_nat (S i)) by lia.
    apply (IH (S i)); try lia. intros M Hout Hin Hsome.
    match goal with |- Q _ ?x => assert (x = s <| umem := M |>) as -> by done end.
    cbn in Hout, Hsome. apply HQ.
    + intros a Ha. rewrite Hout by (intros j Hj; apply Ha; lia). apply lookup_insert_ne.
      intros He. apply (Ha i ltac:(lia)). done.
    + intros j Hj. destruct (decide (j = i)) as [->|]; [|apply Hin; lia].
      rewrite Hout; [apply lookup_insert_eq|]. intros j' Hj' He%blk_addr_inj; lia.
    + intros a Ha. apply Hsome. by apply lookup_insert_is_Some'; right.
Qed.

(** is [x] off the alignment of a pointer? *)
Definition misaligned (x : Z) : Prop := 0 < Z.land x (ptr_size - 1).
#[local] Instance misaligned_dec x : Decision (misaligned x).
Proof. unfold misaligned. apply _. Defined.

(** What setting a pool of [pool_size] bytes up reports and leaves. *)
Definition pool_init_spec (s : kstate) (p start : addr) (sz pool_size : Z) (r : kstat_t) (s' : kstate) : Prop :=
  if decide (pool_size < 2 * sz) then r = RHINO_BLK_POOL_SIZE_ERR /\ s' = s
  else if decide (misaligned (Zpos start) \/ misaligned sz \/ misaligned pool_size) then r = RHINO_INV_ALIGN /\ s' = s
  else let n := Z.to_nat (pool_size / sz) in
    r = RHINO_SUCCESS /\ exists q, pool_ok s' p q (blks_from (Zpos start) sz 0 n) /\
      blk_whole q = Z.of_nat n /\ blk_size q = sz /\
      (forall i, (i < n)%nat -> Zpos start <= Zpos (blk_addr (Zpos start) sz i) /\
         Zpos (blk_addr (Zpos start) sz i) + sz <= Zpos start + pool_size) /\
      tasks s' = tasks s /\ blk_objs s' = blk_objs s.

(** How many turns the loop makes: it stops at the last block that starts inside. *)
Lemma pool_turns sz pool_size :
  0 < sz -> 2 * sz <= pool_size ->
  exists k : nat, Z.of_nat k * sz < pool_size <= Z.of_nat (S k) * sz /\
    Z.to_nat (pool_size / sz) = (if decide (Z.of_nat (S k) * sz = pool_size) then S k else k) /\ (1 <= k)%nat.
Proof.
  intros Hz Hp. pose proof (Z.div_mod (pool_size - 1) sz ltac:(lia)) as Hd.
  pose proof (Z.mod_pos_bound (pool_size - 1) sz Hz) as Hr.
  assert (Hk : 1 <= (pool_size - 1) / sz) by (apply Z.div_le_lower_bound; lia).
  set (k := (pool_size - 1) / sz) in *. exists (Z.to_nat k). rewrite !Nat2Z.inj_succ, Z2Nat.id by lia.
  assert (Hb : k * sz < pool_size <= Z.succ k * sz) by nia. split; [done|]. split; [|lia].
  case_decide as He.
  - assert (pool_size / sz = Z.succ k) as ->; [|lia]. rewrite <- He. apply Z.div_mul. lia.
  - f_equal. symmetry. apply (Z.div_unique _ _ _ (pool_size - k * sz)); nia.
Qed.

Lemma wp_pool_chain start sz pool_size (Q : Z * Z * Z -> kstate -> Prop) s :
  0 < sz -> 2 * sz <= pool_size -> pool_size / sz < 2 ^ 32 - 1 ->
  (forall (k : nat) M, Z.of_nat k * sz < pool_size <= Z.of_nat (S k) * sz ->
     Z.to_nat (pool_size / sz) = (if decide (Z.of_nat (S k) * sz = pool_size) then S k else k) ->
     (forall j, (j < k)%nat -> M !! blk_addr (Zpos start) sz j = Some (Zpos start + Z.of_nat (S j) * sz)) ->
     (forall a, ~ Zpos start <= Zpos a < Zpos start + pool_size -> M !! a = umem s !! a) ->
     (forall a, is_Some (umem s !! a) -> is_Some (M !! a)) ->
     Q (Z.of_nat k, Zpos start + Z.of_nat k * sz, Zpos start + Z.of_nat (S k) * sz) (s <| umem := M |>)) ->
  wp (blk_chain (S (Z.to_nat pool_size)) (Zpos start) (Zpos start + sz) (Zpos start + pool_size) sz 0) Q s.
Proof.
  intros Hz Hp Hfit HQ. destruct (pool_turns sz pool_size Hz Hp) as (k & Hk & Hn & Hk1).
  assert (Hk2 : Z.of_nat k <= pool_size / sz) by (case_decide; lia).
  replace (Zpos start) with (Zpos start + Z.of_nat 0 * sz) at 1 by lia.
  replace (Zpos start + sz) with (Zpos start + Z.of_nat 1 * sz) by lia. change 0 with (Z.of_nat 0).
  apply (wp_blk_chain _ (Zpos start) sz 0 k); try lia; [nia..|].
  intros M Hout HM Hsome. apply HQ; try done; [intros j Hj; apply HM; lia|]. intros a Ha. apply Hout. intros j Hj ->.
  apply Ha. rewrite blk_addr_pos by lia. nia.
Qed.

Lemma wp_exit_stat cpsr stat (Q : kstat_t -> kstate -> Prop) s :
  Q stat (s <| irq_off := cpsr |>) -> wp (exit_ret cpsr stat) Q s.
Proof. done. Qed.

(** A pool is set up, and no word outside its memory changes. *)
Lemma wp_pool_init s p name start sz pool_size (Q : kstat_t -> kstate -> Prop) :
  0 < sz < 2 ^ (size_bits - 1) -> 0 <= pool_size -> pool_size / sz < 2 ^ 32 - 1 ->
  (pool_size < 2 * sz -> Q RHINO_BLK_POOL_SIZE_ERR s) ->
  (2 * sz <= pool_size -> misaligned (Zpos start) \/ misaligned sz \/ misaligned pool_size -> Q RHINO_INV_ALIGN s) ->
  (2 * sz <= pool_size -> ~ (misaligned (Zpos start) \/ misaligned sz \/ misaligned pool_size) -> forall M q,
     let n := Z.to_nat (pool_size / sz) in
     let s' := s <| umem := M |> <| mblk_pools ::= <[p := q]> |>
       <| g_kobj_list ::= fun l => l <| mblkpool_list_head ::= fun q => q ++ [p] |> |> in
     pool_ok s' p q (blks_from (Zpos start) sz 0 n) -> blk_whole q = Z.of_nat n -> blk_size q = sz ->
     (forall i, (i < n)%nat -> Zpos start <= Zpos (blk_addr (Zpos start) sz i) /\
        Zpos (blk_addr (Zpos start) sz i) + sz <= Zpos start + pool_size) ->
     (forall a, ~ Zpos start <= Zpos a < Zpos start + pool_size -> M !! a = umem s !! a) ->
     (forall a, is_Some (umem s !! a) -> is_Some (M !! a)) -> Q RHINO_SUCCESS s') ->
  wp (krhino_mblk_pool_init (Some p) (Some name) (Some start) sz pool_size) Q s.
Proof.
  intros Hsz Hp Hfit HQ1 HQ2 HQ3.
  assert (Hbits : 2 ^ size_bits = 2 * 2 ^ (size_bits - 1)).
  { rewrite <- Z.pow_succ_r by (destruct cfg_size_bits; lia). f_equal. lia. }
  unfold krhino_mblk_pool_init. rewrite Z.shiftl_mul_pow2, wrap_small by lia.
  rewrite (Z.mul_comm sz (2 ^ 1)). change (2 ^ 1 * sz) with (2 * sz).
  case_decide as Hs1; [by apply wp_ret, HQ1|]. cbv zeta. assert (Hs2 : 2 * sz <= pool_size) by lia.
  specialize (HQ2 Hs2). specialize (HQ3 Hs2).
  destruct (decide (0 < Z.land (Zpos start) _)) as [H1|H1]; [apply wp_ret, HQ2; by left|].
  destruct (decide (0 < Z.land sz _)) as [H2|H2]; [apply wp_ret, HQ2; by right; left|].
  destruct (decide (0 < Z.land pool_size _)) as [H3|H3]; [apply wp_ret, HQ2; by right; right|].
  assert (Hal : ~ (misaligned (Zpos start) \/ misaligned sz \/ misaligned pool_size)) by (unfold misaligned; tauto).
  apply wp_bind, wp_pool_chain; [lia..|]. intros k M Hk Hn HM Hout Hsome. cbn [fst snd].
  rewrite <- (blk_addr_pos (Zpos start) sz k) by lia.
  apply wp_bind, wp_modify, wp_bind, wp_modify, wp_bind, wp_critical_enter, wp_bind, wp_modify, wp_exit_stat.
  assert (Hnum : (if decide (Zpos start + Z.of_nat (S k) * sz = Zpos start + pool_size)
      then wrap 32 (Z.of_nat k + 1) else Z.of_nat k)
    = Z.of_nat (if decide (Z.of_nat (S k) * sz = pool_size) then S k else k)).
  { destruct (decide (Z.of_nat (S k) * sz = pool_size)) as [He|He].
    - rewrite decide_True, wrap_small by lia. lia.
    - by rewrite decide_False by lia. }
  specialize (HQ3 Hal (<[blk_addr (Zpos start) sz k := 0]> M)). cbv zeta in HQ3.
  match goal with |- Q _ ?x => assert (x = x <| irq_off := irq_off s |>) as -> by done end.
  set (q := mk_mblk_pool _ _ _ _ _). specialize (HQ3 q).
  match type of HQ3 with _ -> _ -> _ -> _ -> _ -> _ -> Q _ ?y => match goal with |- Q _ ?x => assert (x = y) as -> by by apply kstate_ext end end.
  apply HQ3; rewrite ?Hn; cbn [blk_whole blk_size q].
  - split; try done.
    + cbn. apply lookup_insert_eq.
    + cbn [blk_avail q]. rewrite Hnum. unfold blks_from. by rewrite length_fmap, length_seq.
    + cbn. replace (Zpos start) with (Zpos start + Z.of_nat 0 * sz) at 2 by lia.
      apply links_blocks; [lia..|]. intros j Hj. destruct (decide (j = k)) as [->|Hne].
      * right. case_decide; [|lia]. split; [lia|]. eexists. apply lookup_insert_eq.
      * left. rewrite lookup_insert_ne by (intros He%blk_addr_inj; lia). apply HM. case_decide; lia.
    + apply blks_from_nodup; lia.
  - exact Hnum.
  - done.
  - intros i Hi. rewrite blk_addr_pos by lia. split; [nia|].
    assert (Z.of_nat (S i) * sz <= pool_size); [|lia].
    case_decide as He; [|nia]. rewrite <- He. apply Z.mul_le_mono_nonneg_r; lia.
  - intros a Ha. rewrite lookup_insert_ne; [by apply Hout|]. intros <-. apply Ha. rewrite blk_addr_pos by lia. nia.
  - intros a Ha. apply lookup_insert_is_Some'. right. by apply Hsome.
Qed.

(** Setting up a pool of memory blocks: it refuses a pool of less than two blocks and
    anything that is not aligned, and otherwise offers every whole block of the memory, each
    once and inside it, chained in order of address; the loop over the blocks ends. *)
Theorem krhino_mblk_pool_init_correct (s : kstate) (p name start : addr) (sz pool_size : Z)
    (Hok : kok s) (Hsz : 0 < sz < 2 ^ (size_bits - 1)) (Hp : 0 <= pool_size)
    (Hfit : pool_size / sz < 2 ^ 32 - 1) :
  wp (krhino_mblk_pool_init (Some p) (Some name) (Some start) sz pool_size)
    (fun r s' => kok s' /\ pool_init_spec s p start sz pool_size r s') s.
Proof.
  unfold pool_init_spec. apply wp_pool_init; [done..| | |].
  - intros Hs. by rewrite decide_True.
  - intros Hs Hm. rewrite decide_False by lia. by rewrite decide_True.
  - intros Hs Hm M q n s' Hq Hw Hb Hr _ _. split; [done|]. rewrite decide_False by lia. rewrite decide_False by done.
    split; [done|]. by exists q.
Qed.

(** ** Blocks out and back in *)

Lemma wp_pool_get p q (Q : mblk_pool_t -> kstate -> Prop) s :
  mblk_pools s !! p = Some q -> Q q s -> wp (pool_get p) Q s.
Proof. intros Hp HQ. unfold wp, pool_get, gets, deref, mbind, K_bind. cbn. rewrite Hp. done. Qed.

Lemma wp_pool_upd p f q (Q : unit -> kstate -> Prop) s :
  mblk_pools s !! p = Some q -> Q tt (s <| mblk_pools ::= <[p := f q]> |>) -> wp (pool_upd p f) Q s.
Proof. intros Hp HQ. apply wp_bind. eapply wp_pool_get; [done|]. by apply wp_modify. Qed.

Lemma wp_word_get p v (Q : Z -> kstate -> Prop) s : umem s !! p = Some v -> Q v s -> wp (word_get (Zpos p)) Q s.
Proof. intros Hp HQ. unfold wp, word_get. by rewrite Hp. Qed.

(** The first block goes out: its address is written to [out], which is no block itself. *)
Lemma wp_mblk_alloc s p q free out (Q : kstat_t -> kstate -> Prop) :
  pool_ok s p q free -> out ∉ free ->
  match free with
  | [] => Q RHINO_NO_MEM (s <| umem ::= <[out := 0]> |>)
  | b :: free' => forall next,
      let q' := q <| avail_list := next |> <| blk_avail := blk_avail q - 1 |> in
      let s' := s <| umem ::= <[out := Zpos b]> |> <| mblk_pools ::= <[p := q']> |> in
      pool_ok s' p q' free' -> Q RHINO_SUCCESS s'
  end -> wp (krhino_mblk_alloc (Some p) (Some out)) Q s.
Proof.
  intros [Hp Hty Hav Hl Hnd] Hout HQ. unfold krhino_mblk_alloc. apply wp_bind. eapply wp_pool_get; [done|].
  rewrite decide_False by tauto. apply wp_bind, wp_critical_enter, wp_bind. eapply wp_pool_get; [done|].
  destruct free as [|b free]; cbn [length] in Hav.
  - rewrite decide_False by lia. apply wp_bind, wp_modify, wp_exit_stat. exact HQ.
  - rewrite decide_True by lia. destruct Hl as [Ha (next & Hn & Hl)]. rewrite Ha.
    apply not_elem_of_cons in Hout as [Hob Hof]. apply NoDup_cons in Hnd as [Hbf Hnd].
    apply wp_bind, wp_modify, wp_bind.
    eapply (wp_word_get b next); [cbn; by rewrite lookup_insert_ne by done|].
    apply wp_bind. eapply wp_pool_upd; [done|]. apply wp_exit_stat.
    specialize (HQ next). cbv zeta in HQ. apply HQ. split; cbn; try done.
    + apply lookup_insert_eq.
    + lia.
    + by apply links_frame.
Qed.

Lemma wp_mblk_free s p q free b (Q : kstat_t -> kstate -> Prop) :
  pool_ok s p q free -> b ∉ free -> blk_avail q + 1 < 2 ^ size_bits ->
  (let q' := q <| avail_list := Zpos b |> <| blk_avail := blk_avail q + 1 |> in
   let s' := s <| umem ::= <[b := avail_list q]> |> <| mblk_pools ::= <[p := q']> |> in
   pool_ok s' p q' (b :: free) -> Q RHINO_SUCCESS s') ->
  wp (krhino_mblk_free (Some p) (Some b)) Q s.
Proof.
  intros [Hp Hty Hav Hl Hnd] Hb Hroom HQ. unfold krhino_mblk_free. apply wp_bind. eapply wp_pool_get; [done|].
  rewrite decide_False by tauto. apply wp_bind, wp_critical_enter, wp_bind. eapply wp_pool_get; [done|].
  apply wp_bind, wp_modify, wp_bind. eapply wp_pool_upd; [done|]. apply wp_exit_stat.
  set (q' := q <| avail_list := Zpos b |> <| blk_avail := blk_avail q + 1 |>).
  match goal with |- Q _ ?x => assert (x = s <| umem ::= <[b := avail_list q]> |> <| mblk_pools ::= <[p := q']> |>) as -> end.
  { apply kstate_ext; cbn -[wrap]; try reflexivity. unfold q', upd. cbn -[wrap]. by rewrite wrap_small by lia. }
  apply HQ. split; cbn; try done.
  - apply lookup_insert_eq.
  - lia.
  - split; [done|]. exists (avail_list q). rewrite lookup_insert_eq. split; [done|]. by apply links_frame.
  - by constructor.
Qed.

(** A pool in use: the blocks handed out are [live]; their owners may write to them. *)
Inductive mblk_step (p out : addr) : kstate * list addr -> kstate * list addr -> Prop :=
| step_alloc s s' live b :
    krhino_mblk_alloc (Some p) (Some out) s = Some (RHINO_SUCCESS, s') -> umem s' !! out = Some (Zpos b) ->
    mblk_step p out (s, live) (s', b :: live)
| step_no_mem s s' live :
    krhino_mblk_alloc (Some p) (Some out) s = Some (RHINO_NO_MEM, s') -> mblk_step p out (s, live) (s', live)
| step_free s s' live b r :
    b ∈ live -> krhino_mblk_free (Some p) (Some b) s = Some (r, s') ->
    mblk_step p out (s, live) (s', list_rm b live)
| step_write s live b v :
    b ∈ live -> mblk_step p out (s, live) (s <| umem ::= <[b := v]> |>, live).

(** the pool and the blocks out of it are the blocks of the memory, each once *)
Definition pool_inv (p : addr) (blocks : list addr) (st : kstate * list addr) : Prop :=
  exists q free, pool_ok st.1 p q free /\ free ++ st.2 ≡ₚ blocks.

Lemma pool_step p out blocks st st' :
  NoDup blocks -> out ∉ blocks -> Z.of_nat (length blocks) < 2 ^ size_bits ->
  pool_inv p blocks st -> mblk_step p out st st' -> pool_inv p blocks st'.
Proof.
  intros Hnd Hout Hroom (q & free & Hq & Hperm) Hst. assert (Hof : out ∉ free).
  { intros Hin. apply Hout. rewrite <- Hperm. set_solver. }
  assert (Hnd' : NoDup (free ++ st.2)) by by rewrite Hperm.
  destruct Hst as [s s' live b Hrun Hb|s s' live Hrun|s s' live b r Hb Hrun|s live b v Hb]; cbn [fst snd] in *.
  - assert (Hwp : wp (krhino_mblk_alloc (Some p) (Some out)) (fun r s2 => r = RHINO_SUCCESS ->
        umem s2 !! out = Some (Zpos b) -> pool_inv p blocks (s2, b :: live)) s).
    { eapply wp_mblk_alloc; [done..|]. destruct free as [|b0 free]; [done|]. intros next q' s2 Hq' _ Hb2.
      cbn in Hb2. rewrite lookup_insert_eq in Hb2. injection Hb2 as ->. exists q', free. split; [done|].
      cbn. rewrite <- Hperm. cbn. by rewrite <- Permutation_middle. }
    by apply (wp_run _ _ _ _ _ Hwp Hrun).
  - assert (Hwp : wp (krhino_mblk_alloc (Some p) (Some out)) (fun r s2 => r = RHINO_NO_MEM ->
        pool_inv p blocks (s2, live)) s).
    { eapply wp_mblk_alloc; [done..|]. destruct free as [|b0 free]; [|done]. intros _. exists q, [].
      split; [|done]. destruct Hq. by split. }
    by apply (wp_run _ _ _ _ _ Hwp Hrun).
  - assert (Hbf : b ∉ free) by (intros Hin; apply NoDup_app in Hnd' as (_ & Hd & _); by apply (Hd b)).
    assert (Hwp : wp (krhino_mblk_free (Some p) (Some b)) (fun _ s2 => pool_inv p blocks (s2, list_rm b live)) s).
    { eapply wp_mblk_free; [done..| |].
      - rewrite (pool_avail _ _ _ _ Hq). apply Permutation_length in Hperm. rewrite length_app in Hperm.
        destruct live; [set_solver|]. cbn in Hperm. lia.
      - intros q' s2 Hq'. exists q', (b :: free). split; [done|]. rewrite <- Hperm. cbn.
        apply NoDup_app in Hnd' as (_ & _ & Hnl). apply list_elem_of_split in Hb as (l1 & l2 & ->).
        apply NoDup_app in Hnl as (_ & Hd1 & Hn2). apply NoDup_cons in Hn2 as [Hn2 _].
        rewrite list_rm_app, list_rm_cons, list_rm_id by (try done; intros Hin; apply (Hd1 b); set_solver).
        rewrite (app_assoc free l1 (b :: l2)), <- Permutation_middle. by rewrite app_assoc. }
    by apply (wp_run _ _ _ _ _ Hwp Hrun).
  - exists q, free. split; [|done]. destruct Hq. split; try done. cbn. apply links_frame; [done|].
    intros Hin. apply NoDup_app in Hnd' as (_ & Hd & _). by apply (Hd b).
Qed.

(** C38: whatever the order in which blocks are taken, written to by their owners and given
    back, no block is handed out twice and none is lost: the free ones and the ones in use
    together always are the blocks of the pool, each once; and as long as one is free the
    next allocation succeeds. *)
Theorem mblk_pool_safe (p out : addr) (blocks : list addr) (s s' : kstate) (q : mblk_pool_t) (live : list addr)
    (Hq : pool_ok s p q blocks) (Hout : out ∉ blocks) (Hroom : Z.of_nat (length blocks) < 2 ^ size_bits)
    (Hsteps : rtc (mblk_step p out) (s, []) (s', live)) :
  NoDup live /\ live ⊆ blocks /\
  wp (krhino_mblk_alloc (Some p) (Some out)) (fun r s2 =>
    if decide (length live < length blocks)%nat
    then r = RHINO_SUCCESS /\ exists b, umem s2 !! out = Some (Zpos b) /\ b ∈ blocks /\ b ∉ live
    else r = RHINO_NO_MEM) s'.
Proof.
  assert (Hinv : pool_inv p blocks (s', live)).
  { pose proof (pool_nodup _ _ _ _ Hq) as Hnd.
    assert (Hgen : forall st st', rtc (mblk_step p out) st st' -> pool_inv p blocks st -> pool_inv p blocks st').
    { induction 1; [done|]. intros ?. by eauto using pool_step. }
    apply (Hgen (s, [])); [done|]. exists q, blocks. by rewrite app_nil_r. }
  destruct Hinv as (q' & free & Hq' & Hperm). cbn in *. pose proof (pool_nodup _ _ _ _ Hq) as Hnd.
  assert (Hnd' : NoDup (free ++ live)) by by rewrite Hperm. apply NoDup_app in Hnd' as (_ & Hd & Hnl).
  split; [done|]. split; [intros b Hb; rewrite <- Hperm; set_solver|].
  assert (Hlen : (length free + length live = length blocks)%nat) by (rewrite <- Hperm, length_app; done).
  eapply wp_mblk_alloc; [done| |].
  - intros Hin. apply Hout. rewrite <- Hperm. set_solver.
  - destruct free as [|b free]; cbn in Hlen.
    + by rewrite decide_False by lia.
    + intros next q2 s2 _. rewrite decide_True by lia. split; [done|]. exists b. cbn. rewrite lookup_insert_eq.
      split; [done|]. split; [rewrite <- Hperm; set_solver|]. intros Hin. apply (Hd b); set_solver.
Qed.

End mblk.

(** ** Witnesses *)

#[local] Existing Instance linuxhost.

(** a pool of two blocks, of which one is taken *)
Definition two_blocks : kstate :=
  demo <| umem := <[4096%positive := 4104]> (<[4104%positive := 0]> ∅) |>
       <| mblk_pools := <[70%positive := mk_mblk_pool RHINO_MM_BLK_OBJ_TYPE 8 2 2 4096]> ∅ |>.
Definition one_block : kstate :=
  two_blocks <| umem ::= <[50%positive := 4096]> |>
    <| mblk_pools := <[70%positive := mk_mblk_pool RHINO_MM_BLK_OBJ_TYPE 8 1 2 4104]> ∅ |>.

Lemma mblk_pool_safe_witness :
  NoDup [4096%positive] /\ [4096%positive] ⊆ [4096%positive; 4104%positive] /\
  wp (krhino_mblk_alloc (Some 70%positive) (Some 50%positive)) (fun r s2 =>
    if decide (length [4096%positive] < length [4096%positive; 4104%positive])%nat
    then r = RHINO_SUCCESS /\ exists b, umem s2 !! 50%positive = Some (Zpos b) /\
      b ∈ [4096%positive; 4104%positive] /\ b ∉ [4096%positive]
    else r = RHINO_NO_MEM) one_block.
Proof.
  apply (mblk_pool_safe 70%positive 50%positive [4096%positive; 4104%positive] two_blocks one_block
    (mk_mblk_pool RHINO_MM_BLK_OBJ_TYPE 8 2 2 4096)).
  - split; try done.
    + split; [done|]. exists 4104. split; [done|]. split; [done|]. by exists 0.
    + apply NoDup_ListNoDup; repeat constructor; set_solver.
  - set_solver.
  - reflexivity.
  - apply rtc_once. apply step_alloc; [|reflexivity]. vm_compute. reflexivity.
Defined.

End Mblk.
