(* ===== verification/Heap.v ===== *)
(** * The heap ([k_mm.h], [k_mm.c], [k_mm_debug.c])

    A two-level segregated fit: free blocks hang in lists by class of size, and two levels
    of bitmaps find a list that is not empty.  The headers of the blocks and the links of the
    free ones are words of the memory [umem], at the offsets of [k_mm_list_t]; the head of
    the heap is a record.  An access to a word that does not exist is undefined, so a heap
    that strays outside its memory has no result.

    The pool of small blocks lies in a block of the heap and is the one of k_mm_blk.c; its
    descriptor is a record of [mblk_pools] at the address of that block's payload. *)
From S2P Require Import Prelude Config Bitmap Kernel Sched Queue Mblk.
Import Bitmap Queue Mblk.

Module Heap.

(** what [bitmap_search] is asked for *)
Inductive SEARCH_ACTION : Set := ACTION_INSERT | ACTION_GET.
#[export] Instance search_action_eq_dec : EqDecision SEARCH_ACTION.
Proof. solve_decision. Defined.

Definition FIX_BLK_BIT : Z := 5.
Definition DEF_FIX_BLK_SIZE : Z := Z.shiftl 1 FIX_BLK_BIT.
Definition MIN_FLT_BIT : Z := 7.
Definition MIN_FLT_SIZE : Z := Z.shiftl 1 MIN_FLT_BIT.
Definition MAX_LOG2_SLT : Z := 5.
Definition SLT_SIZE : Z := Z.shiftl 1 MAX_LOG2_SLT.
Definition MIN_FREE_MEMORY_SIZE : Z := 1024.
Definition RHINO_MM_PRESTAT_MASK : Z := 2.
Definition RHINO_MM_FREE : Z := 1.
Definition RHINO_MM_ALLOCED : Z := 0.
Definition RHINO_MM_PREVFREE : Z := 2.
Definition RHINO_MM_PREVALLOCED : Z := 0.
Definition RHINO_MM_CORRUPT_DYE : Z := 0xFEFEFEFE.
Definition RHINO_MM_FREE_DYE : Z := 0xABABABAB.
Definition AOS_UNSIGNED_INT_MSB : Z := Z.shiftl 1 31.

Section heap.
Context {cfg : RhinoConfig}.

Definition MAX_MM_BIT : Z := RHINO_CONFIG_MM_MAXMSIZEBIT.
Definition MAX_MM_SIZE : Z := Z.shiftl 1 MAX_MM_BIT.
Definition FLT_SIZE : Z := MAX_MM_BIT - MIN_FLT_BIT + 1.
Definition MM_ALIGN_MASK : Z := ptr_size - 1.
Definition MM_ALIGN_UP (a : Z) : Z := Z.land (wrap size_bits (a + MM_ALIGN_MASK)) (Z.lnot MM_ALIGN_MASK).
Definition MM_ALIGN_DOWN (a : Z) : Z := Z.land a (Z.lnot MM_ALIGN_MASK).
Definition RHINO_MM_BLKSIZE_MASK : Z := 0xFFFFFFFF - MM_ALIGN_MASK.

(** ** The structures in memory *)

(** [k_mm_list_t]: the offsets of its fields, all of the size of a pointer *)
Definition dye_at (b : Z) : Z := b.
Definition owner_at (b : Z) : Z := b + ptr_size.
Definition prev_at (b : Z) : Z := b + 2 * ptr_size.
Definition size_at (b : Z) : Z := b + 3 * ptr_size.
Definition free_prev_at (b : Z) : Z := b + 4 * ptr_size.
Definition free_next_at (b : Z) : Z := b + 5 * ptr_size.
Definition buffer_at (b : Z) : Z := b + 4 * ptr_size.
Definition sizeof_mm_list : Z := 6 * ptr_size.
Definition sizeof_free_ptr : Z := 2 * ptr_size.
Definition MMLIST_HEAD_SIZE : Z := sizeof_mm_list - sizeof_free_ptr.
Definition AOS_MM_TLF_ALLOC_MIN_LENGTH : Z := 2 * ptr_size.

(** [k_mm_region_info_t] *)
Definition end_at (r : Z) : Z := r.
Definition next_at (r : Z) : Z := r + ptr_size.
Definition sizeof_region_info : Z := 2 * ptr_size.
Definition MMREGION_USED_SIZE : Z := MM_ALIGN_UP sizeof_region_info + 3 * MMLIST_HEAD_SIZE.

(** [k_mm_head]: two pointers, three sizes, the statistics, the bitmaps and the table *)
Definition sizeof_mm_head : Z :=
  (5 + MAX_MM_BIT) * ptr_size + MM_ALIGN_UP (4 * (1 + FLT_SIZE)) + FLT_SIZE * SLT_SIZE * ptr_size.

(** [mblk_pool_t]: the type, the name, three sizes, the first free block and the links *)
Definition sizeof_mblk_pool : Z := 8 * ptr_size.

(** the size of a block, from its word with the flags *)
Definition blksize (w : Z) : Z := Z.land w RHINO_MM_BLKSIZE_MASK.
Definition NEXT_MM_BLK (a r : Z) : Z := wrap size_bits (a + r).

(** a word of memory is written, which has to exist *)
Definition hset (a v : Z) : K unit := fun s =>
  match a with
  | Zpos p => _ ← umem s !! p; Some (tt, s <| umem ::= <[p := v]> |>)
  | _ => None
  end.

Definition hupd (a : Z) (f : Z -> Z) : K unit := w ← word_get a; hset a (f w).

Definition mm_get (mmhead : addr) : K k_mm_head := fun s =>
  h ← mm_heads (kmm s) !! mmhead; Some (h, s).
Definition mm_upd (mmhead : addr) (f : k_mm_head -> k_mm_head) : K unit := fun s =>
  h ← mm_heads (kmm s) !! mmhead; Some (tt, s <| kmm ::= fun m => m <| mm_heads ::= <[mmhead := f h]> |> |>).

(** an array is accessed at an index of any sign *)
Definition at_ix {A} (l : list A) (i : Z) : K A :=
  if decide (0 <= i) then deref (l !! Z.to_nat i) else fault.

Definition tbl_get (mmhead : addr) (flt slt : Z) : K Z :=
  h ← mm_get mmhead; row ← at_ix (mm_tbl h) flt; at_ix row slt.
Definition tbl_set (mmhead : addr) (flt slt v : Z) : K unit :=
  _ ← tbl_get mmhead flt slt;
  mm_upd mmhead (fun h => h <| mm_tbl ::= alter (<[Z.to_nat slt := v]>) (Z.to_nat flt) |>).
Definition sl_get (mmhead : addr) (flt : Z) : K Z := h ← mm_get mmhead; at_ix (sl_bitmap h) flt.

(** ** Bitmaps of one word *)

(** the words in memory of a [size_t], which [krhino_find_first_bit] scans *)
Definition words_of (size : Z) : list Z :=
  if decide (size_bits = 32) then [size] else [wrap 32 size; Z.shiftr size 32].

(** With no bit set the scan runs past the variable. *)
Definition find_first_bit (size : Z) : K Z := deref (krhino_find_first_bit (words_of size)).

Definition bitmap_word (f : list Z -> Z -> option (list Z)) (w nr : Z) : K Z := deref (f [w] nr ≫= head).

Definition sl_upd (f : list Z -> Z -> option (list Z)) (mmhead : addr) (flt slt : Z) : K unit :=
  w ← sl_get mmhead flt;
  w' ← bitmap_word f w (31 - slt);
  mm_upd mmhead (fun h => h <| sl_bitmap ::= <[Z.to_nat flt := w']> |>).
Definition fl_upd (f : list Z -> Z -> option (list Z)) (mmhead : addr) (flt : Z) : K unit :=
  h ← mm_get mmhead;
  w' ← bitmap_word f (fl_bitmap h) (31 - flt);
  mm_upd mmhead (fun h => h <| fl_bitmap := w' |>).

(** ** Statistics *)

Definition sizetoindex (size : Z) : K Z := n ← find_first_bit size; mret (wrap size_bits (31 - n)).

Definition addsize (mmhead : addr) (size req_size : Z) : K unit :=
  mm_upd mmhead (fun h =>
    h <| free_size := if decide (size < free_size h) then free_size h - size else 0 |>
      <| used_size ::= fun n => wrap size_bits (n + size) |>);;
  mm_upd mmhead (fun h => if decide (maxused_size h < used_size h) then h <| maxused_size := used_size h |> else h);;
  index ← sizetoindex (wrap size_bits (req_size - 1));
  let index := if decide (MAX_MM_BIT < index) then MAX_MM_BIT else index in
  let index := if decide (index < 1) then 1 else index in
  h ← mm_get mmhead;
  n ← at_ix (mm_size_stats h) (index - 1);
  mm_upd mmhead (fun h => h <| mm_size_stats ::= <[Z.to_nat (index - 1) := wrap size_bits (n + 1)]> |>).

Definition removesize (mmhead : addr) (size : Z) : K unit :=
  mm_upd mmhead (fun h =>
    h <| used_size := if decide (size < used_size h) then used_size h - size else 0 |>
      <| free_size ::= fun n => wrap size_bits (n + size) |>).

(** ** Classes of sizes *)

(** [1 << n] in an int *)
Definition int_shl_1 (n : Z) : K Z := if decide (0 <= n < 32) then mret (swrap 32 (Z.shiftl 1 n)) else fault.

(** the status, the first and the second index of the class of [size] *)
Definition bitmap_search (size : Z) (action : SEARCH_ACTION) : K (kstat_t * Z * Z) :=
  '(flt, slt) ← (if decide (size < MIN_FLT_SIZE) then mret (0, Z.shiftr size (MIN_FLT_BIT - MAX_LOG2_SLT))
    else
      n ← find_first_bit size;
      let firstbit := wrap size_bits (31 - n) in
      '(tmp_size, firstbit) ← (if decide (action = ACTION_GET) then
          p ← int_shl_1 (firstbit - MAX_LOG2_SLT);
          let tmp_size := wrap size_bits (size + wrap size_bits (p - 1)) in
          n ← find_first_bit tmp_size;
          mret (tmp_size, wrap size_bits (31 - n))
        else mret (size, firstbit));
      let flt := wrap size_bits (firstbit - MIN_FLT_BIT + 1) in
      p ← int_shl_1 firstbit;
      let tmp_size := wrap size_bits (tmp_size - p) in
      let shift := wrap size_bits (firstbit - MAX_LOG2_SLT) in
      if decide (shift < size_bits) then mret (flt, Z.shiftr tmp_size shift) else fault);
  mret (if decide (FLT_SIZE <= flt \/ SLT_SIZE <= slt) then RHINO_MM_FREE_ADDR_ERR else RHINO_SUCCESS, flt, slt).

(** The negation of the least int is taken to wrap. *)
Definition find_last_bit (bitmap : Z) : K Z :=
  if decide (bitmap = 0) then mret 0 else
  let x := wrap size_bits (Z.land bitmap (swrap 32 (- bitmap))) in
  lsbit ← find_first_bit x;
  mret (31 - lsbit).

(** ** The lists of free blocks *)

Definition insert_block (mmhead : addr) (blk flt slt : Z) : K unit :=
  hset (free_prev_at blk) 0;;
  t ← tbl_get mmhead flt slt;
  hset (free_next_at blk) t;;
  (if decide (t <> 0) then hset (free_prev_at t) blk else mret tt);;
  tbl_set mmhead flt slt blk;;
  sl_upd krhino_bitmap_set mmhead flt slt;;
  fl_upd krhino_bitmap_set mmhead flt.

(** the bits of a list that may have become empty *)
Definition clear_bits (mmhead : addr) (flt slt : Z) : K unit :=
  sl_upd krhino_bitmap_clear mmhead flt slt;;
  w ← sl_get mmhead flt;
  if decide (w = 0) then fl_upd krhino_bitmap_clear mmhead flt else mret tt.

Definition get_block (mmhead : addr) (blk flt slt : Z) : K unit :=
  next ← word_get (free_next_at blk);
  (if decide (next <> 0) then
     prev ← word_get (free_prev_at blk);
     hset (free_prev_at next) prev
   else mret tt);;
  prev ← word_get (free_prev_at blk);
  (if decide (prev <> 0) then
     next ← word_get (free_next_at blk);
     hset (free_next_at prev) next
   else mret tt);;
  t ← tbl_get mmhead flt slt;
  (if decide (t = blk) then
     next ← word_get (free_next_at blk);
     tbl_set mmhead flt slt next;;
     t ← tbl_get mmhead flt slt;
     if decide (t = 0) then clear_bits mmhead flt slt else mret tt
   else mret tt);;
  hset (free_prev_at blk) 0;;
  hset (free_next_at blk) 0.

(** the block found, and its class *)
Definition findblk_byidx (mmhead : addr) (flt slt : Z) : K (Z * Z * Z) :=
  w ← sl_get mmhead flt;
  let tmp := Z.land w (wrap 32 (Z.shiftl (-1) slt)) in
  if decide (tmp <> 0) then
    slt ← find_last_bit (swrap 32 tmp);
    find ← tbl_get mmhead flt slt;
    mret (find, flt, slt)
  else
    h ← mm_get mmhead;
    flt ← find_last_bit (swrap 32 (Z.land (fl_bitmap h) (wrap 32 (Z.shiftl (-1) (flt + 1)))));
    if decide (0 < flt) then
      w ← sl_get mmhead flt;
      slt ← find_last_bit (swrap 32 w);
      find ← tbl_get mmhead flt slt;
      mret (find, flt, slt)
    else mret (0, flt, slt).

(** ** Allocation *)

(** the address of the local variable [tmp] of [k_mm_smallblk_alloc] *)
Context (tmp_at : addr).

(** the pool in the block [fixedmblk] *)
Definition mm_pool_of (h : k_mm_head) : addr := Z.to_pos (buffer_at (fixedmblk h)).

Definition k_mm_smallblk_alloc (mmhead : option addr) (size : Z) : K Z :=
  match mmhead with
  | None => mret 0
  | Some p =>
      h ← mm_get p;
      sta ← krhino_mblk_alloc (Some (mm_pool_of h)) (Some tmp_at);
      if decide (sta <> RHINO_SUCCESS) then mret 0 else
      tmp ← word_get (Zpos tmp_at);
      addsize p DEF_FIX_BLK_SIZE size;;
      mret tmp
  end.

Definition k_mm_smallblk_free (mmhead : option addr) (ptr : Z) : K unit :=
  match mmhead with
  | None => mret tt
  | Some p =>
      if decide (ptr = 0) then mret tt else
      h ← mm_get p;
      sta ← krhino_mblk_free (Some (mm_pool_of h)) (Some (Z.to_pos ptr));
      (if decide (sta <> RHINO_SUCCESS) then k_err_proc RHINO_SYS_FATAL_ERR else mret tt);;
      removesize p DEF_FIX_BLK_SIZE
  end.

Definition ISFIXEDBLK (mmhead : addr) (ptr : Z) : K bool :=
  h ← mm_get mmhead;
  if decide (fixedmblk h = 0) then mret false else
  if decide (buffer_at (fixedmblk h) < ptr) then
    w ← word_get (size_at (fixedmblk h));
    mret (bool_decide (ptr < wrap size_bits (buffer_at (fixedmblk h) + w)))
  else mret false.

(** the first block of a list is taken out of it *)
Definition take_first (mmhead : addr) (b fl sl : Z) : K unit :=
  next ← word_get (free_next_at b);
  tbl_set mmhead fl sl next;;
  t ← tbl_get mmhead fl sl;
  (if decide (t <> 0) then hset (free_prev_at t) 0 else clear_bits mmhead fl sl);;
  hset (free_prev_at b) 0;;
  hset (free_next_at b) 0.

(** The block [b] is cut to [size] bytes, or handed out whole. *)
Definition split_block (mmhead : addr) (b size : Z) : K unit :=
  w ← word_get (size_at b);
  let next_b := NEXT_MM_BLK (buffer_at b) (blksize w) in
  let tmp_size := wrap size_bits (blksize w - size) in
  if decide (sizeof_mm_list <= tmp_size) then
    let tmp_size := wrap size_bits (tmp_size - MMLIST_HEAD_SIZE) in
    let b2 := NEXT_MM_BLK (buffer_at b) size in
    hset (size_at b2) (Z.lor (Z.lor tmp_size RHINO_MM_FREE) RHINO_MM_PREVALLOCED);;
    hset (dye_at b2) RHINO_MM_FREE_DYE;;
    hset (prev_at next_b) b2;;
    r ← bitmap_search tmp_size ACTION_INSERT;
    insert_block mmhead b2 r.1.2 r.2;;
    hupd (size_at b) (fun w => Z.lor size (Z.land w RHINO_MM_PRESTAT_MASK))
  else
    hupd (size_at next_b) (fun w => Z.land w (Z.lnot RHINO_MM_PREVFREE));;
    hupd (size_at b) (fun w => Z.land w (Z.lnot RHINO_MM_FREE)).

(** A block is looked for and cut: the way through the lists of [k_mm_alloc]. *)
Definition tlsf_alloc (mmhead : addr) (size req_size : Z) : K Z :=
  let size := MM_ALIGN_UP size in
  let size := if decide (size < AOS_MM_TLF_ALLOC_MIN_LENGTH) then AOS_MM_TLF_ALLOC_MIN_LENGTH else size in
  r ← bitmap_search size ACTION_GET;
  if decide (r.1.1 <> RHINO_SUCCESS) then mret 0 else
  f ← findblk_byidx mmhead r.1.2 r.2;
  let b := f.1.1 in
  if decide (b = 0) then mret 0 else
  take_first mmhead b f.1.2 f.2;;
  split_block mmhead b size;;
  hset (dye_at b) RHINO_MM_CORRUPT_DYE;;
  let retptr := buffer_at b in
  (if decide (retptr <> 0) then
     w ← word_get (size_at b);
     addsize mmhead (wrap size_bits (blksize w + MMLIST_HEAD_SIZE)) req_size
   else mret tt);;
  mret retptr.

Definition k_mm_alloc (mmhead : option addr) (size : Z) : K Z :=
  match mmhead with
  | None => mret 0
  | Some p =>
      if decide (size = 0) then mret 0 else
      cpsr ← RHINO_CRITICAL_ENTER;
      h ← mm_get p;
      retptr ← (if decide (fixedmblk h <> 0) then
          q ← pool_get (mm_pool_of h);
          if decide (size <= DEF_FIX_BLK_SIZE /\ 0 < blk_avail q) then k_mm_smallblk_alloc mmhead size
          else mret 0
        else mret 0);
      if decide (retptr <> 0) then RHINO_CRITICAL_EXIT cpsr;; mret retptr else
      retptr ← tlsf_alloc p size size;
      RHINO_CRITICAL_EXIT cpsr;;
      mret retptr
  end.

(** ** Release *)

(** An error is reported outside the critical section; when the hook returns, the call goes
    on without it. *)
Definition mm_report (bad : bool) (cpsr : bool) : K unit :=
  when bad (RHINO_CRITICAL_EXIT cpsr;; k_err_proc RHINO_SYS_FATAL_ERR).

(** the free block [t] leaves its list *)
Definition unlist_block (mmhead : addr) (t : Z) : K unit :=
  w ← word_get (size_at t);
  r ← bitmap_search (blksize w) ACTION_INSERT;
  get_block mmhead t r.1.2 r.2.

(** The next block is joined to [b] when it is free. *)
Definition merge_next (mmhead : addr) (b : Z) : K unit :=
  w ← word_get (size_at b);
  let tmp_b := NEXT_MM_BLK (buffer_at b) (blksize w) in
  wt ← word_get (size_at tmp_b);
  if decide (Z.land wt RHINO_MM_FREE <> 0) then
    unlist_block mmhead tmp_b;;
    wt ← word_get (size_at tmp_b);
    hupd (size_at b) (fun w => wrap size_bits (w + (blksize wt + MMLIST_HEAD_SIZE)))
  else mret tt.

(** [b] is joined to the block before it when that is free; gives the block that remains. *)
Definition merge_prev (mmhead : addr) (b : Z) (cpsr : bool) : K Z :=
  w ← word_get (size_at b);
  if decide (Z.land w RHINO_MM_PREVFREE <> 0) then
    tmp_b ← word_get (prev_at b);
    dye ← word_get (dye_at tmp_b);
    mm_report (bool_decide (dye <> RHINO_MM_FREE_DYE)) cpsr;;
    unlist_block mmhead tmp_b;;
    w ← word_get (size_at b);
    hupd (size_at tmp_b) (fun wt => wrap size_bits (wt + (blksize w + MMLIST_HEAD_SIZE)));;
    mret tmp_b
  else mret b.

(** [b] enters its list, and the next block learns that it is free. *)
Definition list_block (mmhead : addr) (b : Z) (cpsr : bool) : K unit :=
  w ← word_get (size_at b);
  r ← bitmap_search (blksize w) ACTION_INSERT;
  insert_block mmhead b r.1.2 r.2;;
  w ← word_get (size_at b);
  let tmp_b := NEXT_MM_BLK (buffer_at b) (blksize w) in
  dye ← word_get (dye_at tmp_b);
  mm_report (bool_decide (dye <> RHINO_MM_FREE_DYE /\ dye <> RHINO_MM_CORRUPT_DYE)) cpsr;;
  hupd (size_at tmp_b) (fun w => Z.lor w RHINO_MM_PREVFREE);;
  hset (prev_at tmp_b) b.

Definition k_mm_free (mmhead : option addr) (ptr : Z) : K unit :=
  match mmhead with
  | None => mret tt
  | Some p =>
      if decide (ptr = 0) then mret tt else
      cpsr ← RHINO_CRITICAL_ENTER;
      fixed ← ISFIXEDBLK p ptr;
      if (fixed : bool) then k_mm_smallblk_free mmhead ptr;; RHINO_CRITICAL_EXIT cpsr else
      let b := wrap size_bits (ptr - MMLIST_HEAD_SIZE) in
      dye ← word_get (dye_at b);
      mm_report (bool_decide (dye = RHINO_MM_FREE_DYE)) cpsr;;
      mm_report (bool_decide (dye <> RHINO_MM_CORRUPT_DYE)) cpsr;;
      hset (dye_at b) RHINO_MM_FREE_DYE;;
      hupd (size_at b) (fun w => Z.lor w RHINO_MM_FREE);;
      w ← word_get (size_at b);
      removesize p (wrap size_bits (blksize w + MMLIST_HEAD_SIZE));;
      merge_next p b;;
      b ← merge_prev p b cpsr;
      list_block p b cpsr;;
      RHINO_CRITICAL_EXIT cpsr
  end.

(** ** Change of size *)

(** [memcpy] of whole words *)
Fixpoint word_copy (n : nat) (dst src : Z) : K unit :=
  match n with
  | O => mret tt
  | S n => w ← word_get src; hset dst w;; word_copy n (dst + ptr_size) (src + ptr_size)
  end.
Definition memcpy (dst src n : Z) : K unit :=
  if decide (n mod ptr_size = 0) then word_copy (Z.to_nat (n / ptr_size)) dst src else fault.

(** The [tmp_size] bytes behind the [new_size] ones of [b] become a free block before
    [next_b], if they are enough for one. *)
Definition split_rest (mmhead : addr) (b next_b new_size tmp_size : Z) : K unit :=
  if decide (sizeof_mm_list <= tmp_size) then
    let tmp_size := wrap size_bits (tmp_size - MMLIST_HEAD_SIZE) in
    let tmp_b := NEXT_MM_BLK (buffer_at b) new_size in
    hset (size_at tmp_b) (Z.lor (Z.lor tmp_size RHINO_MM_FREE) RHINO_MM_PREVALLOCED);;
    hset (dye_at tmp_b) RHINO_MM_FREE_DYE;;
    hset (owner_at tmp_b) 0;;
    hset (prev_at next_b) tmp_b;;
    hupd (size_at next_b) (fun w => Z.lor w RHINO_MM_PREVFREE);;
    r ← bitmap_search tmp_size ACTION_INSERT;
    insert_block mmhead tmp_b r.1.2 r.2;;
    hupd (size_at b) (fun w => Z.lor new_size (Z.land w RHINO_MM_PRESTAT_MASK))
  else mret tt.

(** The statistics are told the size of the block. *)
Definition stats_of (stats : Z -> K unit) (b : Z) : K unit :=
  w ← word_get (size_at b); stats (wrap size_bits (blksize w + MMLIST_HEAD_SIZE)).

(** [b] is cut to [new_size] bytes in place. *)
Definition realloc_shrink (mmhead : addr) (b next_b new_size req_size : Z) : K Z :=
  w ← word_get (size_at b);
  let tmp_size := blksize w in
  stats_of (removesize mmhead) b;;
  wn ← word_get (size_at next_b);
  '(tmp_size, next_b) ← (if decide (Z.land wn RHINO_MM_FREE <> 0) then
      unlist_block mmhead next_b;;
      wn ← word_get (size_at next_b);
      mret (wrap size_bits (tmp_size + (blksize wn + MMLIST_HEAD_SIZE)),
            NEXT_MM_BLK (buffer_at next_b) (blksize wn))
    else mret (tmp_size, next_b));
  split_rest mmhead b next_b new_size (wrap size_bits (tmp_size - new_size));;
  stats_of (fun n => addsize mmhead n req_size) b;;
  mret (buffer_at b).

(** [b] takes the free block behind it, and gives back what it does not need. *)
Definition realloc_grow (mmhead : addr) (b next_b new_size req_size : Z) : K Z :=
  stats_of (removesize mmhead) b;;
  unlist_block mmhead next_b;;
  wn ← word_get (size_at next_b);
  hupd (size_at b) (fun w => wrap size_bits (w + (blksize wn + MMLIST_HEAD_SIZE)));;
  w ← word_get (size_at b);
  let next_b := NEXT_MM_BLK (buffer_at b) (blksize w) in
  hset (prev_at next_b) b;;
  hupd (size_at next_b) (fun w => Z.land w (Z.lnot RHINO_MM_PREVFREE));;
  w ← word_get (size_at b);
  split_rest mmhead b next_b new_size (wrap size_bits (blksize w - new_size));;
  stats_of (fun n => addsize mmhead n req_size) b;;
  mret (buffer_at b).

(** A block of the pool of small blocks stays or moves to the heap proper. *)
Definition realloc_small (mmhead : addr) (oldmem new_size : Z) : K Z :=
  if decide (new_size <= DEF_FIX_BLK_SIZE) then mret oldmem else
  ptr_aux ← k_mm_alloc (Some mmhead) new_size;
  (if decide (ptr_aux <> 0) then
     memcpy ptr_aux oldmem DEF_FIX_BLK_SIZE;;
     k_mm_smallblk_free (Some mmhead) oldmem
   else mret tt);;
  mret ptr_aux.

(** A new block, to which the contents are copied. *)
Definition realloc_move (mmhead : addr) (b oldmem new_size : Z) : K Z :=
  ptr_aux ← k_mm_alloc (Some mmhead) new_size;
  if decide (ptr_aux = 0) then mret 0 else
  w ← word_get (size_at b);
  let cpsize := if decide (new_size < blksize w) then new_size else blksize w in
  memcpy ptr_aux oldmem (wrap 32 cpsize);;
  k_mm_free (Some mmhead) oldmem;;
  mret ptr_aux.

(** the size the code asks a block of the heap for *)
Definition realloc_size (new_size : Z) : Z :=
  if decide (new_size < sizeof_mm_list) then sizeof_mm_list else MM_ALIGN_UP new_size.

Definition realloc_block (mmhead : addr) (oldmem req_size : Z) : K Z :=
  let b := wrap size_bits (oldmem - MMLIST_HEAD_SIZE) in
  w ← word_get (size_at b);
  let tmp_size := blksize w in
  let next_b := NEXT_MM_BLK (buffer_at b) (blksize w) in
  let new_size := realloc_size req_size in
  wn ← word_get (size_at next_b);
  ptr_aux ← (if decide (new_size <= tmp_size) then realloc_shrink mmhead b next_b new_size req_size
    else if decide (Z.land wn RHINO_MM_FREE <> 0) then
      if decide (new_size <= wrap size_bits (tmp_size + blksize wn)) then realloc_grow mmhead b next_b new_size req_size
      else mret 0
    else mret 0);
  if decide (ptr_aux <> 0) then hset (dye_at b) RHINO_MM_CORRUPT_DYE;; mret ptr_aux
  else realloc_move mmhead b oldmem new_size.

Definition k_mm_realloc (mmhead : option addr) (oldmem new_size : Z) : K Z :=
  if decide (oldmem = 0) then
    if decide (new_size <> 0) then k_mm_alloc mmhead new_size else mret 0
  else if decide (new_size = 0) then k_mm_free mmhead oldmem;; mret 0 else
  cpsr ← RHINO_CRITICAL_ENTER;
  p ← deref mmhead;
  fixed ← ISFIXEDBLK p oldmem;
  ptr_aux ← (if (fixed : bool) then realloc_small p oldmem new_size else realloc_block p oldmem new_size);
  RHINO_CRITICAL_EXIT cpsr;;
  mret ptr_aux.

(** ** Setting a heap up *)

(** A region becomes a first block that holds its description, one block that is marked
    allocated, and a last one of no size. *)
Definition init_mm_region (regionaddr len : Z) : K Z :=
  let firstblk := regionaddr in
  hset (size_at firstblk) (Z.lor (Z.lor (MM_ALIGN_UP sizeof_region_info) RHINO_MM_ALLOCED) RHINO_MM_PREVALLOCED);;
  w ← word_get (size_at firstblk);
  let curblk := NEXT_MM_BLK (buffer_at firstblk) (blksize w) in
  hset (size_at curblk)
    (Z.lor (Z.lor (MM_ALIGN_DOWN (wrap size_bits (len - MMREGION_USED_SIZE))) RHINO_MM_ALLOCED) RHINO_MM_PREVALLOCED);;
  hset (free_next_at curblk) 0;;
  hset (free_prev_at curblk) 0;;
  w ← word_get (size_at curblk);
  let lastblk := NEXT_MM_BLK (buffer_at curblk) (blksize w) in
  hset (prev_at lastblk) curblk;;
  hset (size_at lastblk) (Z.lor (Z.lor 0 RHINO_MM_ALLOCED) RHINO_MM_PREVFREE);;
  hset (dye_at lastblk) RHINO_MM_CORRUPT_DYE;;
  hset (owner_at lastblk) 0;;
  hset (dye_at firstblk) RHINO_MM_CORRUPT_DYE;;
  hset (owner_at firstblk) 0;;
  let region := buffer_at firstblk in
  hset (next_at region) 0;;
  hset (end_at region) lastblk;;
  mret firstblk.

(** [memset(head, 0, sizeof( *head))] *)
Definition zero_mm_head : k_mm_head :=
  mk_mm_head 0 0 0 0 0 (replicate (Z.to_nat MAX_MM_BIT) 0) 0 (replicate (Z.to_nat FLT_SIZE) 0)
    (replicate (Z.to_nat FLT_SIZE) (replicate (Z.to_nat SLT_SIZE) 0)).
Definition clear_mm_head (mmhead : addr) : K unit :=
  modify (fun s => s <| kmm ::= fun m => m <| mm_heads ::= <[mmhead := zero_mm_head]> |> |>).

(** The pool of small blocks is set up in a block of the heap. *)
Definition init_fixedmblk (pmmhead : addr) : K unit :=
  mmblk_pool ← k_mm_alloc (Some pmmhead) (wrap size_bits (RHINO_CONFIG_MM_TLF_BLK_SIZE + MM_ALIGN_UP sizeof_mblk_pool));
  if decide (mmblk_pool <> 0) then
    let curblk := wrap size_bits (mmblk_pool - MMLIST_HEAD_SIZE) in
    stat ← krhino_mblk_pool_init (Some (Z.to_pos mmblk_pool)) (Some (Z.to_pos mmblk_pool))
      (Some (Z.to_pos (wrap size_bits (mmblk_pool + MM_ALIGN_UP sizeof_mblk_pool))))
      DEF_FIX_BLK_SIZE RHINO_CONFIG_MM_TLF_BLK_SIZE;
    (if decide (stat = RHINO_SUCCESS) then mm_upd pmmhead (fun h => h <| fixedmblk := curblk |>)
     else k_mm_free (Some pmmhead) mmblk_pool);;
    removesize pmmhead RHINO_CONFIG_MM_TLF_BLK_SIZE
  else mret tt.

(** [ppmmhead] is given by what an assignment to its target does. *)
Definition krhino_init_mm_head (ppmmhead : option (addr -> K unit)) (address len : Z) : K kstat_t :=
  match ppmmhead with
  | None => mret RHINO_NULL_PTR
  | Some out =>
      if decide (address = 0) then mret RHINO_NULL_PTR else
      let orig_addr := address in
      let address := MM_ALIGN_UP address in
      let len := wrap size_bits (len - wrap size_bits (address - orig_addr)) in
      let len := MM_ALIGN_DOWN len in
      if decide (Z.land address MM_ALIGN_MASK <> 0 \/ len <> MM_ALIGN_DOWN len) then mret RHINO_INV_ALIGN else
      if decide (len = 0 \/ len < MIN_FREE_MEMORY_SIZE + RHINO_CONFIG_MM_TLF_BLK_SIZE \/ MAX_MM_SIZE < len)
      then mret RHINO_MM_POOL_SIZE_ERR else
      let pmmhead := Z.to_pos address in
      clear_mm_head pmmhead;;
      cpsr ← RHINO_CRITICAL_ENTER;
      firstblk ← init_mm_region (wrap size_bits (address + MM_ALIGN_UP sizeof_mm_head))
        (MM_ALIGN_DOWN (wrap size_bits (len - sizeof_mm_head)));
      mm_upd pmmhead (fun h => h <| regioninfo := buffer_at firstblk |>);;
      w ← word_get (size_at firstblk);
      let nextblk := NEXT_MM_BLK (buffer_at firstblk) (blksize w) in
      out pmmhead;;
      hset (dye_at nextblk) RHINO_MM_CORRUPT_DYE;;
      k_mm_free (Some pmmhead) (buffer_at nextblk);;
      w ← word_get (size_at nextblk);
      mm_upd pmmhead (fun h => h <| free_size := blksize w |> <| used_size := wrap size_bits (len - blksize w) |>
        <| maxused_size := wrap size_bits (len - blksize w) |>);;
      mm_upd pmmhead (fun h => h <| fixedmblk := 0 |>);;
      init_fixedmblk pmmhead;;
      RHINO_CRITICAL_EXIT cpsr;;
      mret RHINO_SUCCESS
  end.

Definition krhino_deinit_mm_head (mmhead : addr) : K kstat_t := clear_mm_head mmhead;; mret RHINO_SUCCESS.

(** ** Further regions *)

(** [memset(address, 0, len)] of whole words *)
Fixpoint word_zero (n : nat) (a : Z) : K unit :=
  match n with O => mret tt | S n => hset a 0;; word_zero n (a + ptr_size) end.

(** [ptr] leaves the list of regions; gives the next one. *)
Definition region_unlink (mmhead : addr) (ptr ptr_prev : Z) : K Z :=
  h ← mm_get mmhead;
  next ← word_get (next_at ptr);
  (if decide (regioninfo h = ptr) then mm_upd mmhead (fun h => h <| regioninfo := next |>)
   else hset (next_at ptr_prev) next);;
  mret next.

(** The region of the blocks [ib0], [b0] and [lb0] is joined to the ones it touches. *)
Fixpoint merge_regions (fuel : nat) (mmhead : addr) (ptr ptr_prev ib0 b0 lb0 : Z) : K (Z * Z * Z) :=
  match fuel with
  | O => fault
  | S fuel =>
      if decide (ptr = 0) then mret (ib0, b0, lb0) else
      let ib1 := wrap size_bits (ptr - MMLIST_HEAD_SIZE) in
      w1 ← word_get (size_at ib1);
      let b1 := NEXT_MM_BLK (buffer_at ib1) (blksize w1) in
      lb1 ← word_get (end_at ptr);
      if decide (ib1 = wrap size_bits (lb0 + MMLIST_HEAD_SIZE)) then
        next ← region_unlink mmhead ptr ptr_prev;
        w0 ← word_get (size_at b0);
        w1 ← word_get (size_at ib1);
        hset (size_at b0) (Z.lor (Z.lor (MM_ALIGN_DOWN (wrap size_bits (blksize w0 + blksize w1 + 2 * MMLIST_HEAD_SIZE)))
          RHINO_MM_ALLOCED) RHINO_MM_PREVALLOCED);;
        hset (prev_at b1) b0;;
        merge_regions fuel mmhead next ptr_prev ib0 b0 lb1
      else if decide (buffer_at lb1 = ib0) then
        next ← region_unlink mmhead ptr ptr_prev;
        w0 ← word_get (size_at b0);
        wi ← word_get (size_at ib0);
        hupd (size_at lb1) (fun w => Z.lor (Z.lor
          (MM_ALIGN_DOWN (wrap size_bits (blksize w0 + blksize wi + 2 * MMLIST_HEAD_SIZE))) RHINO_MM_ALLOCED)
          (Z.land w RHINO_MM_PRESTAT_MASK));;
        w ← word_get (size_at lb1);
        hset (prev_at (NEXT_MM_BLK (buffer_at lb1) (blksize w))) lb1;;
        merge_regions fuel mmhead next ptr_prev ib1 lb1 lb0
      else
        next ← word_get (next_at ptr);
        merge_regions fuel mmhead next ptr ib0 b0 lb0
  end.

(** Neither the blocks of a region nor the regions outnumber the words of memory. *)
Definition walk_fuel : K nat := m ← gets umem; mret (S (size m)).

Definition krhino_add_mm_region (mmhead : option addr) (address len : Z) : K kstat_t :=
  match mmhead with
  | None => mret RHINO_NULL_PTR
  | Some p =>
      if decide (address = 0) then mret RHINO_NULL_PTR else
      if decide (Z.land address MM_ALIGN_MASK <> 0 \/ len <> MM_ALIGN_DOWN len) then mret RHINO_INV_ALIGN else
      if decide (len = 0 \/ len < sizeof_region_info + sizeof_mm_list * 2) then mret RHINO_MM_POOL_SIZE_ERR else
      word_zero (Z.to_nat (len / ptr_size)) address;;
      cpsr ← RHINO_CRITICAL_ENTER;
      h ← mm_get p;
      let ptr := regioninfo h in
      ib0 ← init_mm_region address len;
      w ← word_get (size_at ib0);
      let b0 := NEXT_MM_BLK (buffer_at ib0) (blksize w) in
      w ← word_get (size_at b0);
      let lb0 := NEXT_MM_BLK (buffer_at b0) (blksize w) in
      fuel ← walk_fuel;
      r ← merge_regions fuel p ptr 0 ib0 b0 lb0;
      let '(ib0, b0, lb0) := r in
      let ai := buffer_at ib0 in
      h ← mm_get p;
      hset (next_at ai) (regioninfo h);;
      hset (end_at ai) lb0;;
      mm_upd p (fun h => h <| regioninfo := ai |>);;
      hset (dye_at b0) RHINO_MM_CORRUPT_DYE;;
      w ← word_get (size_at b0);
      mm_upd p (fun h => h <| used_size ::= fun n => wrap size_bits (n + (blksize w + MMLIST_HEAD_SIZE)) |>);;
      k_mm_free (Some p) (buffer_at b0);;
      RHINO_CRITICAL_EXIT cpsr;;
      mret RHINO_SUCCESS
  end.

(** The first region carries the heap, the others are added to it. *)
Fixpoint add_mm_regions (g_mm_region : list (Z * Z)) : K unit :=
  match g_mm_region with
  | [] => mret tt
  | (start, len) :: rest =>
      p ← gets (fun s => g_kmm_head (kmm s));
      krhino_add_mm_region p start len;;
      add_mm_regions rest
  end.
Definition set_kmm_head (p : addr) : K unit :=
  modify (fun s => s <| kmm ::= fun m => m <| g_kmm_head := Some p |> |>).
Definition k_mm_init (g_mm_region : list (Z * Z)) : K unit :=
  match g_mm_region with
  | [] => fault
  | (start, len) :: rest =>
      krhino_init_mm_head (Some set_kmm_head) start len;;
      add_mm_regions rest
  end.

(** ** What is printed about a heap ([k_mm_debug.c])

    A line of the output is the record of the values printed. *)

Record block_line := mk_line {
  ln_block : Z;
  ln_free : bool;                   (* "free" or "used" *)
  ln_marked : bool;                 (* "!": the dye is not the one of the state *)
  ln_size : Z;                      (* 0 is printed as "sentinel" *)
  ln_dye : Z;
  ln_owner : Z;
  ln_prev : option Z;               (* "pre-free" with the block, or "pre-used" *)
  ln_links : option (Z * Z);
}.

Definition print_block (b : Z) : K (list block_line) :=
  if decide (b = 0) then mret [] else
  w ← word_get (size_at b);
  dye ← word_get (dye_at b);
  let free := bool_decide (Z.land w RHINO_MM_FREE <> 0) in
  let marked := if free then bool_decide (dye <> RHINO_MM_FREE_DYE) else bool_decide (dye <> RHINO_MM_CORRUPT_DYE) in
  owner ← word_get (owner_at b);
  prev ← (if decide (Z.land w RHINO_MM_PREVFREE <> 0) then p ← word_get (prev_at b); mret (Some p) else mret None);
  links ← (if free then
      p ← word_get (free_prev_at b); n ← word_get (free_next_at b); mret (Some (p, n))
    else mret None);
  mret [mk_line b free marked (blksize w) dye owner prev links].

(** the blocks of a region, from [cur] on *)
Fixpoint dump_blocks (fuel : nat) (cur : Z) : K (list block_line) :=
  match fuel with
  | O => fault
  | S fuel =>
      if decide (cur = 0) then mret [] else
      l ← print_block cur;
      w ← word_get (size_at cur);
      let next := if decide (blksize w <> 0) then NEXT_MM_BLK (buffer_at cur) (blksize w) else 0 in
      r ← dump_blocks fuel next;
      mret (l ++ r)
  end.

(** the regions from [reginfo] on; [turns] bounds the blocks of each *)
Fixpoint dump_regions (fuel turns : nat) (reginfo : Z) : K (list block_line) :=
  match fuel with
  | O => fault
  | S fuel =>
      if decide (reginfo = 0) then mret [] else
      l ← dump_blocks turns (wrap size_bits (reginfo - MMLIST_HEAD_SIZE));
      nextreg ← word_get (next_at reginfo);
      r ← dump_regions fuel turns nextreg;
      mret (l ++ r)
  end.

Definition dump_kmm_map (mmhead : option addr) : K (list block_line) :=
  match mmhead with
  | None => mret []
  | Some p => h ← mm_get p; fuel ← walk_fuel; dump_regions fuel fuel (regioninfo h)
  end.

(** the blocks of a list of free ones *)
Fixpoint dump_list (fuel : nat) (next : Z) : K (list block_line) :=
  match fuel with
  | O => fault
  | S fuel =>
      if decide (next = 0) then mret [] else
      l ← print_block next;
      tmp ← word_get (free_next_at next);
      r ← dump_list fuel tmp;
      mret (l ++ r)
  end.

(** the lists of the classes of one row, from the column [j] on, and of the rows from [i] on *)
Fixpoint dump_row (p : addr) (i : Z) (j n : nat) : K (list block_line) :=
  match n with
  | O => mret []
  | S n =>
      fuel ← walk_fuel;
      next ← tbl_get p i (Z.of_nat j);
      l ← dump_list fuel next;
      r ← dump_row p i (S j) n;
      mret (l ++ r)
  end.
Fixpoint dump_rows (p : addr) (i n : nat) : K (list block_line) :=
  match n with
  | O => mret []
  | S n =>
      _ ← sl_get p (Z.of_nat i);
      l ← dump_row p (Z.of_nat i) 0 (Z.to_nat SLT_SIZE);
      r ← dump_rows p (S i) n;
      mret (l ++ r)
  end.
Definition dump_kmm_free_map (mmhead : option addr) : K (list block_line) :=
  match mmhead with
  | None => mret []
  | Some p => dump_rows p 0 (Z.to_nat FLT_SIZE)
  end.

(** the sizes and the counts of the requests *)
Definition dump_kmm_statistic_info (mmhead : option addr) : K (list Z) :=
  match mmhead with
  | None => mret []
  | Some p =>
      h ← mm_get p;
      mret ([free_size h; used_size h; maxused_size h] ++ take (Z.to_nat (MAX_MM_BIT - 1)) (mm_size_stats h))
  end.

Definition kmm_head : K (option addr) := gets (fun s => g_kmm_head (kmm s)).

Definition dumpsys_mm_info_func : K kstat_t :=
  p ← kmm_head;
  _ ← dump_kmm_map p;
  _ ← dump_kmm_free_map p;
  _ ← dump_kmm_statistic_info p;
  mret RHINO_SUCCESS.

(** ** The interface *)

Definition krhino_owner_attach (mmhead : option addr) (ptr allocator : Z) : K unit :=
  match mmhead with
  | None => mret tt
  | Some p =>
      if decide (ptr = 0) then mret tt else
      cpsr ← RHINO_CRITICAL_ENTER;
      fixed ← ISFIXEDBLK p ptr;
      (if (fixed : bool) then mret tt
       else hset (owner_at (wrap size_bits (ptr - MMLIST_HEAD_SIZE))) allocator);;
      RHINO_CRITICAL_EXIT cpsr
  end.

(** the size without the mark of the callers that attach the owner themselves *)
Definition unmarked (size : Z) : Z := Z.land size (Z.lxor AOS_UNSIGNED_INT_MSB 0xFFFFFFFF).

(** [caller] is the return address. *)
Definition krhino_mm_alloc (caller size : Z) : K Z :=
  let app_malloc := Z.land size AOS_UNSIGNED_INT_MSB in
  let size := unmarked size in
  if decide (size = 0) then mret 0 else
  p ← kmm_head;
  tmp ← k_mm_alloc p size;
  dumped ← gets (fun s => alloc_dumped (kmm s));
  if decide (tmp = 0 /\ dumped = true) then mret tmp else
  (if decide (tmp = 0) then
     modify (fun s => s <| kmm ::= fun m => m <| alloc_dumped := true |> |>);;
     _ ← dumpsys_mm_info_func;
     k_err_proc RHINO_NO_MEM
   else mret tt);;
  (if decide (app_malloc = 0) then krhino_owner_attach p tmp caller else mret tt);;
  mret tmp.

Definition krhino_mm_free (ptr : Z) : K unit := p ← kmm_head; k_mm_free p ptr.

Definition krhino_mm_realloc (caller oldmem newsize : Z) : K Z :=
  let app_malloc := Z.land newsize AOS_UNSIGNED_INT_MSB in
  let newsize := unmarked newsize in
  p ← kmm_head;
  tmp ← k_mm_realloc p oldmem newsize;
  (if decide (app_malloc = 0) then krhino_owner_attach p tmp caller else mret tt);;
  dumped ← gets (fun s => realloc_dumped (kmm s));
  if decide (tmp = 0 /\ newsize <> 0 /\ dumped = false) then
    modify (fun s => s <| kmm ::= fun m => m <| realloc_dumped := true |> |>);;
    _ ← dumpsys_mm_info_func;
    k_err_proc RHINO_SYS_FATAL_ERR;;
    mret tmp
  else mret tmp.

End heap.
End Heap.
