(* ===== verification/HeapClass.v ===== *)
(** * Classes of sizes ([bitmap_search], [find_last_bit])

    Sizes below 128 have a class per four bytes; from there on every power of two is cut
    into 32 classes of equal width.  A request is rounded up to the next class, so that any
    block of its class or a higher one is large enough. *)
From S2P Require Import Prelude Config Bitmap Kernel Sched Queue Mblk Heap.
Import Bitmap Queue Mblk Heap.

Module HeapClass.
Section heap_class.
Context {cfg : RhinoConfig}.

Lemma size_bits_pow : 2 ^ 32 <= 2 ^ size_bits.
Proof. apply Z.pow_le_mono_r; [lia|]. destruct cfg_size_bits; lia. Qed.

Lemma max_mm_size : MAX_MM_SIZE = 2 ^ MAX_MM_BIT.
Proof. unfold MAX_MM_SIZE. by rewrite Z.shiftl_1_l. Qed.

Lemma max_mm_bound : 2 ^ 11 <= 2 ^ MAX_MM_BIT <= 2 ^ 30.
Proof. pose proof cfg_mm_bits. unfold MAX_MM_BIT. split; apply Z.pow_le_mono_r; lia. Qed.

(** ** The class of a size *)

Definition size_class (sz : Z) : Z * Z :=
  if decide (sz < 128) then (0, sz / 4)
  else (Z.log2 sz - 6, (sz - 2 ^ Z.log2 sz) / 2 ^ (Z.log2 sz - 5)).

(** what a request is rounded up to *)
Definition round_size (sz : Z) : Z :=
  if decide (sz < 128) then sz else sz + 2 ^ (Z.log2 sz - 5) - 1.

(** the order in which the lists are searched *)
Definition class_le (a b : Z * Z) : Prop := a.1 < b.1 \/ a.1 = b.1 /\ a.2 <= b.2.

Lemma log2_small n k : 2 ^ k <= n -> 0 <= k -> k <= Z.log2 n.
Proof. intros. apply Z.log2_le_pow2; [|done]. pose proof (pow2_pos k). lia. Qed.

Lemma log2_lower n : 0 < n -> 2 ^ Z.log2 n <= n.
Proof. intros. by apply Z.log2_spec. Qed.

Lemma log2_upper n : 0 < n -> n < 2 * 2 ^ Z.log2 n.
Proof. intros. pose proof (Z.log2_nonneg n). rewrite <- Z.pow_succ_r by lia. by apply Z.log2_spec. Qed.

(** A size of at least 128 is [2 ^ k] and a part below it, of which the class has five bits. *)
Lemma class_parts n : 128 <= n -> exists k, k = Z.log2 n /\ 7 <= k /\ 2 ^ k <= n < 2 * 2 ^ k /\
  2 ^ k = 32 * 2 ^ (k - 5) /\ 4 <= 2 ^ (k - 5).
Proof.
  intros Hn. assert (7 <= Z.log2 n) by (apply (log2_small n 7); lia).
  exists (Z.log2 n). repeat split; try lia.
  - apply log2_lower; lia.
  - apply log2_upper; lia.
  - change 32 with (2 ^ 5). rewrite <- Z.pow_add_r by lia. f_equal. lia.
  - change 4 with (2 ^ 2). apply Z.pow_le_mono_r; lia.
Qed.

Lemma class_range sz f s : 0 <= sz < MAX_MM_SIZE -> size_class sz = (f, s) ->
  0 <= f < FLT_SIZE /\ 0 <= s < SLT_SIZE.
Proof.
  rewrite max_mm_size. intros Hsz. pose proof cfg_mm_bits as Hb.
  unfold size_class, FLT_SIZE, SLT_SIZE, MIN_FLT_BIT, MAX_LOG2_SLT, MAX_MM_BIT in *.
  change (Z.shiftl 1 5) with 32. case_decide as H; intros [= <- <-].
  - split; [lia|]. split; [apply Z.div_pos; lia|apply Z.div_lt_upper_bound; lia].
  - destruct (class_parts sz ltac:(lia)) as (k & <- & Hk & Hr & Hp & Hq).
    assert (k < RHINO_CONFIG_MM_MAXMSIZEBIT) by (apply (Z.pow_lt_mono_r_iff 2); lia).
    split; [lia|]. split; [apply Z.div_pos; lia|apply Z.div_lt_upper_bound; lia].
Qed.

Lemma round_size_ge sz : 0 <= sz -> sz <= round_size sz <= 2 * sz.
Proof.
  intros. unfold round_size. case_decide; [lia|].
  destruct (class_parts sz ltac:(lia)) as (k & <- & Hk & Hr & Hp & Hq). lia.
Qed.

(** Every block of the class of the rounded size, or of a higher class, fits. *)
Lemma class_fit sz b : 0 <= sz -> sz mod 4 = 0 -> 0 <= b -> b mod 4 = 0 ->
  class_le (size_class (round_size sz)) (size_class b) -> sz <= b.
Proof.
  intros Hsz Ha Hb Hab Hle. destruct (decide (128 <= sz)) as [Hbig|Hsmall].
  2: { unfold round_size in Hle. rewrite decide_True in Hle by lia. unfold size_class in Hle.
    rewrite (decide_True (P := sz < 128)) in Hle by lia. case_decide; [|lia].
    destruct Hle as [Hle|[_ Hle]]; cbn in Hle; [lia|].
    pose proof (Z.div_mod sz 4 ltac:(lia)). pose proof (Z.div_mod b 4 ltac:(lia)). lia. }
  destruct (class_parts sz Hbig) as (k & Hk & Hk7 & Hr & Hp & Hq).
  unfold round_size in Hle. rewrite decide_False in Hle by lia. rewrite <- Hk in Hle.
  set (g := 2 ^ (k - 5)) in *. set (n := sz + g - 1) in *.
  destruct (class_parts n ltac:(lia)) as (j & Hj & Hj7 & Hjr & Hjp & Hjq).
  unfold size_class in Hle. rewrite (decide_False (P := n < 128)) in Hle by lia. rewrite <- Hj in Hle.
  destruct (decide (128 <= b)) as [Hb128|Hb128].
  2: { rewrite decide_True in Hle by lia. destruct Hle as [Hle|[Hle _]]; cbn in Hle; lia. }
  rewrite decide_False in Hle by lia. destruct (class_parts b Hb128) as (i & Hi & Hi7 & Hir & Hip & Hiq).
  rewrite <- Hi in Hle. assert (Hkj : k <= j).
  { destruct (decide (k <= j)); [done|]. exfalso. assert (2 ^ (j + 1) <= 2 ^ k) by (apply Z.pow_le_mono_r; lia).
    rewrite Z.pow_add_r in * by lia. lia. }
  destruct Hle as [Hle|[Hle Hle2]]; cbn in *.
  - assert (2 ^ (j + 1) <= 2 ^ i) by (apply Z.pow_le_mono_r; lia). rewrite Z.pow_add_r in * by lia. lia.
  - assert (i = j) as -> by lia. destruct (decide (j = k)) as [->|Hne].
    + fold g in Hle2. pose proof (Z.div_mod (n - 2 ^ k) g ltac:(lia)) as H1.
      pose proof (Z.mod_pos_bound (n - 2 ^ k) g ltac:(lia)).
      pose proof (Z.div_mod (b - 2 ^ k) g ltac:(lia)) as H2. pose proof (Z.mod_pos_bound (b - 2 ^ k) g ltac:(lia)). nia.
    + assert (2 ^ (k + 1) <= 2 ^ j) by (apply Z.pow_le_mono_r; lia). rewrite Z.pow_add_r in * by lia. lia.
Qed.

(** A larger block has no lower class. *)
Lemma class_mono a b : 0 <= a <= b -> class_le (size_class a) (size_class b).
Proof.
  intros Hab. unfold size_class, class_le. destruct (decide (b < 128)) as [Hb|Hb].
  - rewrite decide_True by lia. right. split; [done|]. cbn. apply Z.div_le_mono; lia.
  - destruct (class_parts b ltac:(lia)) as (i & <- & Hi7 & Hir & Hip & Hiq). case_decide as Ha; cbn; [left; lia|].
    destruct (class_parts a ltac:(lia)) as (k & <- & Hk7 & Hr & Hp & Hq).
    destruct (decide (k = i)) as [->|Hne]; [right; split; [done|]; apply Z.div_le_mono; lia|].
    left. destruct (decide (k < i)); [lia|]. exfalso.
    assert (2 ^ (i + 1) <= 2 ^ k) by (apply Z.pow_le_mono_r; lia). rewrite Z.pow_add_r in * by lia. lia.
Qed.

(** ** The bit scans *)

(** The scan of a variable starts with its low 32 bits. *)
Lemma find_first_bit_low x s : 0 <= x < 2 ^ size_bits -> 0 < wrap 32 x ->
  find_first_bit x s = Some (31 - Z.log2 (wrap 32 x), s).
Proof.
  intros Hx Hw. unfold find_first_bit, words_of.
  assert (Hf : forall rest, krhino_find_first_bit (wrap 32 x :: rest) = Some (31 - Z.log2 (wrap 32 x))).
  { intros rest. unfold krhino_find_first_bit. cbn [find_first_bit_from]. rewrite decide_False by lia.
    pose proof (wrap_range 32 x ltac:(lia)). by rewrite bitmap_clz_spec by lia. }
  case_decide as Hb; [|by rewrite Hf]. rewrite Hb in Hx. rewrite <- (wrap_small 32 x Hx) at 1. by rewrite Hf.
Qed.

Lemma find_first_bit_eq x s : 0 < x < 2 ^ 32 -> find_first_bit x s = Some (31 - Z.log2 x, s).
Proof.
  intros Hx. pose proof size_bits_pow. rewrite find_first_bit_low; rewrite ?wrap_small by lia; [done|lia..].
Qed.

Lemma log2_word x : 0 < x < 2 ^ 32 -> 0 <= Z.log2 x < 32.
Proof. intros. split; [apply Z.log2_nonneg|]. apply Z.log2_lt_pow2; lia. Qed.

Lemma wrap_size x : 0 <= x < 2 ^ 32 -> wrap size_bits x = x.
Proof. intros. apply wrap_small. pose proof size_bits_pow. lia. Qed.

Lemma int_shl_1_eq n s : 0 <= n < 31 -> int_shl_1 n s = Some (2 ^ n, s).
Proof.
  intros Hn. unfold int_shl_1. rewrite decide_True by lia. rewrite Z.shiftl_1_l. unfold mret, K_ret.
  rewrite swrap_small; [done|lia|]. assert (2 ^ n < 2 ^ 31) by (apply Z.pow_lt_mono_r; lia).
  pose proof (pow2_pos n). change (2 ^ (32 - 1)) with (2 ^ 31). lia.
Qed.

(** a word with bits: its lowest *)
Definition low_bit (w n : Z) : Prop := 0 <= n /\ Z.testbit w n = true /\ forall m, 0 <= m < n -> Z.testbit w m = false.

(** [x & -x] is the lowest bit set. *)
Lemma land_opp w n : low_bit w n -> Z.land w (- w) = 2 ^ n.
Proof.
  intros (Hn & Hb & Hl). assert (Hm : w mod 2 ^ n = 0).
  { apply Z.bits_inj'. intros i Hi. rewrite Z.bits_0. destruct (decide (i < n)).
    - rewrite Z.mod_pow2_bits_low by lia. apply Hl. lia.
    - apply Z.mod_pow2_bits_high. lia. }
  pose proof (pow2_pos n Hn). set (q := w / 2 ^ n). assert (Hw : w = q * 2 ^ n) by (pose proof (Z.div_mod w (2 ^ n)); lia).
  assert (Hodd : Z.odd q = true).
  { unfold q. rewrite <- Z.bit0_odd, Z.div_pow2_bits by lia. done. }
  rewrite Hw. replace (- (q * 2 ^ n)) with ((- q) * 2 ^ n) by lia.
  rewrite <- !Z.shiftl_mul_pow2, <- Z.shiftl_land by lia.
  assert (Hq : Z.land q (- q) = 1).
  { apply Z.bits_inj'. intros i Hi. rewrite Z.land_spec. replace (- q) with (Z.lnot (q - 1)) by (unfold Z.lnot; lia).
    rewrite Z.lnot_spec by lia. apply Zodd_bool_iff in Hodd. destruct (Zodd_ex q Hodd) as [r ->].
    replace (2 * r + 1 - 1) with (2 * r) by lia. destruct (decide (i = 0)) as [->|].
    - rewrite Z.testbit_odd_0, Z.testbit_even_0. done.
    - replace i with (Z.succ (i - 1)) by lia. rewrite Z.testbit_odd_succ, Z.testbit_even_succ by lia.
      destruct (Z.testbit r (i - 1)); cbn; symmetry; (apply (Z.bits_above_log2 1); [lia|cbn; lia]). }
  rewrite Hq. by rewrite Z.shiftl_mul_pow2, Z.mul_1_l.
Qed.

Lemma low_bit_wrap n w : 0 <= n < 32 -> low_bit (wrap 32 w) n -> low_bit (swrap 32 w) n.
Proof.
  intros Hn (_ & Hb & Hl). unfold wrap in *.
  assert (He : forall i, 0 <= i < 32 -> Z.testbit (swrap 32 w) i = Z.testbit (w mod 2 ^ 32) i).
  { intros i Hi. unfold swrap, wrap. case_decide; [done|]. rewrite <- (Z.mod_pow2_bits_low _ 32) by lia.
    f_equal. replace (w mod 2 ^ 32 - 2 ^ 32) with (w mod 2 ^ 32 + (-1) * 2 ^ 32) by lia.
    rewrite Z.mod_add by lia. apply Z.mod_mod. lia. }
  split; [lia|]. split; [by rewrite He|]. intros m Hm. rewrite He by lia. by apply Hl.
Qed.

(** [find_last_bit] gives the lowest bit of a word, the highest one included. *)
Lemma find_last_bit_eq w n s : 0 <= n < 32 -> low_bit (wrap 32 w) n -> find_last_bit (swrap 32 w) s = Some (n, s).
Proof.
  intros Hn Hlow. pose proof (low_bit_wrap n w Hn Hlow) as Hs. unfold find_last_bit.
  assert (Hr : - 2 ^ 31 <= swrap 32 w < 2 ^ 31).
  { unfold swrap. pose proof (wrap_range 32 w ltac:(lia)). case_decide; lia. }
  rewrite decide_False. 2: { intros H0. destruct Hs as (_ & Hb & _). rewrite H0, Z.testbit_0_l in Hb. done. }
  set (b := swrap 32 w) in *. pose proof (pow2_pos n ltac:(lia)) as Hp.
  assert (Hx : wrap 32 (wrap size_bits (Z.land b (swrap 32 (- b)))) = 2 ^ n).
  { assert (Hpow : 2 ^ n < 2 ^ 32) by (apply Z.pow_lt_mono_r; lia).
    assert (Hww : forall z, wrap 32 (wrap size_bits z) = wrap 32 z).
    { intros z. unfold wrap. assert (Hd : 2 ^ size_bits = 2 ^ (size_bits - 32) * 2 ^ 32).
      { rewrite <- Z.pow_add_r by (destruct cfg_size_bits; lia). f_equal. lia. }
      rewrite Hd, (Z.mul_comm (2 ^ _)), Z.rem_mul_r by (try apply pow2_pos; destruct cfg_size_bits; lia).
      rewrite (Z.mul_comm (2 ^ 32)), Z.mod_add by lia. apply Z.mod_mod. lia. }
    rewrite Hww. destruct (decide (b = - 2 ^ 31)) as [He|Hne].
    - rewrite He in Hs |- *. vm_compute (Z.land _ _). destruct Hs as (_ & Hb & _).
      assert (n = 31) as ->; [|done]. destruct (decide (n < 31)); [|lia]. exfalso.
      replace (- 2 ^ 31) with ((-1) * 2 ^ 31) in Hb by lia. by rewrite Z.mul_pow2_bits_low in Hb by lia.
    - rewrite (swrap_small 32 (- b)) by lia. rewrite (land_opp b n Hs). apply wrap_small. lia. }
  unfold mbind, K_bind. rewrite find_first_bit_low.
  - rewrite Hx, Z.log2_pow2 by lia. unfold mret, K_ret. do 2 f_equal. lia.
  - apply wrap_range. destruct cfg_size_bits; lia.
  - lia.
Qed.

(** ** [bitmap_search] *)

Lemma bitmap_search_insert sz f sl s : 0 <= sz < MAX_MM_SIZE -> size_class sz = (f, sl) ->
  bitmap_search sz ACTION_INSERT s = Some ((RHINO_SUCCESS, f, sl), s).
Proof.
  intros Hsz Hc. destruct (class_range _ _ _ Hsz Hc) as [Hf Hs].
  assert (Hfin : (if decide (FLT_SIZE <= f \/ SLT_SIZE <= sl) then RHINO_MM_FREE_ADDR_ERR else RHINO_SUCCESS) = RHINO_SUCCESS)
    by (rewrite decide_False by lia; done).
  rewrite max_mm_size in Hsz. pose proof max_mm_bound. unfold bitmap_search, size_class in *.
  unfold MIN_FLT_SIZE, MIN_FLT_BIT, MAX_LOG2_SLT. change (Z.shiftl 1 7) with 128.
  unfold mbind, K_bind. destruct (decide (sz < 128)) as [Hsm|Hsm].
  - injection Hc as <- <-. unfold mret, K_ret. change (7 - 5) with 2. rewrite Z.shiftr_div_pow2 by lia.
    change (2 ^ 2) with 4. by rewrite Hfin.
  - destruct (class_parts sz ltac:(lia)) as (k & Hk & Hk7 & Hr & Hp & Hq). rewrite <- Hk in Hc.
    injection Hc as <- <-. rewrite find_first_bit_eq by lia. rewrite <- Hk.
    assert (k < 31) by (apply (Z.pow_lt_mono_r_iff 2); lia).
    replace (31 - (31 - k)) with k by lia. rewrite (wrap_size k) by lia. rewrite decide_False by done.
    unfold mret at 1, K_ret. rewrite int_shl_1_eq by lia. rewrite !wrap_size by lia.
    rewrite decide_True by (destruct cfg_size_bits; lia). unfold mret, K_ret. rewrite Z.shiftr_div_pow2 by lia.
    replace (k - 7 + 1) with (k - 6) by lia. by rewrite Hfin.
Qed.

Lemma bitmap_search_small sz act s : 0 <= sz < 128 -> bitmap_search sz act s = Some ((RHINO_SUCCESS, 0, sz / 4), s).
Proof.
  intros Hsz. pose proof cfg_mm_bits. unfold bitmap_search, FLT_SIZE, SLT_SIZE, MAX_MM_BIT.
  unfold MIN_FLT_SIZE, MIN_FLT_BIT, MAX_LOG2_SLT. change (Z.shiftl 1 7) with 128. change (Z.shiftl 1 5) with 32.
  unfold mbind, K_bind. rewrite decide_True by lia. unfold mret, K_ret. change (7 - 5) with 2.
  rewrite Z.shiftr_div_pow2 by lia. change (2 ^ 2) with 4. rewrite decide_False; [done|].
  assert (sz / 4 < 32) by (apply Z.div_lt_upper_bound; lia). lia.
Qed.

(** A request is looked for from the class of its rounded size on, or refused when that is
    too large for the heap. *)
Lemma bitmap_search_get sz s : 0 <= sz <= 2 ^ 31 ->
  (round_size sz < MAX_MM_SIZE -> forall f sl, size_class (round_size sz) = (f, sl) ->
    bitmap_search sz ACTION_GET s = Some ((RHINO_SUCCESS, f, sl), s)) /\
  (MAX_MM_SIZE <= round_size sz -> exists f sl, bitmap_search sz ACTION_GET s = Some ((RHINO_MM_FREE_ADDR_ERR, f, sl), s)).
Proof.
  intros Hsz. pose proof max_mm_bound as Hmax. destruct (decide (sz < 128)) as [Hsm|Hbig].
  { unfold round_size. rewrite decide_True, max_mm_size by done. split; [|lia]. intros _ f sl Hc.
    unfold size_class in Hc. rewrite decide_True in Hc by done. injection Hc as <- <-. apply bitmap_search_small. lia. }
  destruct (class_parts sz ltac:(lia)) as (k & Hk & Hk7 & Hr & Hp & Hq).
  assert (Hn : round_size sz = sz + (2 ^ (k - 5) - 1)) by (unfold round_size; rewrite decide_False, <- Hk by done; lia).
  assert (Hk31 : k <= 31) by (apply (Z.pow_le_mono_r_iff 2); lia).
  assert (Hg : 2 ^ (k - 5) <= 2 ^ 26) by (apply Z.pow_le_mono_r; lia).
  destruct (class_parts (round_size sz) ltac:(lia)) as (j & Hj & Hj7 & Hjr & Hjp & Hjq).
  set (n := round_size sz) in *. assert (Hj31 : j <= 31) by (apply Z.lt_succ_r, (Z.pow_lt_mono_r_iff 2); lia).
  assert (Hrun : forall p, int_shl_1 j s = Some (p, s) -> bitmap_search sz ACTION_GET s =
    Some ((if decide (FLT_SIZE <= j - 6 \/ SLT_SIZE <= Z.shiftr (wrap size_bits (n - p)) (j - 5))
           then RHINO_MM_FREE_ADDR_ERR else RHINO_SUCCESS, j - 6, Z.shiftr (wrap size_bits (n - p)) (j - 5)), s)).
  { intros p Hj1. unfold bitmap_search. unfold MIN_FLT_SIZE, MIN_FLT_BIT, MAX_LOG2_SLT. change (Z.shiftl 1 7) with 128.
    unfold mbind, K_bind. rewrite decide_False by done. rewrite find_first_bit_eq, <- Hk by lia.
    replace (31 - (31 - k)) with k by lia. rewrite (wrap_size k) by lia. rewrite decide_True by done.
    rewrite int_shl_1_eq by lia. rewrite (wrap_size (_ - 1)), <- Hn, (wrap_size n) by lia.
    rewrite find_first_bit_eq, <- Hj by lia. unfold mret at 1, K_ret. replace (31 - (31 - j)) with j by lia.
    rewrite (wrap_size j), Hj1, (wrap_size (j - 5)), (wrap_size (j - 7 + 1)) by lia.
    rewrite decide_True by (destruct cfg_size_bits; lia). unfold mret, K_ret. by replace (j - 7 + 1) with (j - 6) by lia. }
  split; intros Hle; rewrite max_mm_size in Hle.
  - intros f sl Hc. assert (j < 31) by (apply (Z.pow_lt_mono_r_iff 2); lia).
    rewrite (Hrun _ (int_shl_1_eq j s ltac:(lia))). rewrite wrap_size, Z.shiftr_div_pow2 by lia.
    destruct (class_range n f sl) as [Hf Hs]; [rewrite max_mm_size; lia|done|].
    unfold size_class in Hc. rewrite decide_False, <- Hj in Hc by lia. injection Hc as <- <-.
    by rewrite decide_False by lia.
  - assert (Hjm : MAX_MM_BIT <= j).
    { destruct (decide (MAX_MM_BIT <= j)); [done|]. exfalso.
      assert (2 ^ (j + 1) <= 2 ^ MAX_MM_BIT) by (apply Z.pow_le_mono_r; lia). rewrite Z.pow_add_r in * by lia. lia. }
    assert (exists p, int_shl_1 j s = Some (p, s)) as [p Hp1] by (unfold int_shl_1; rewrite decide_True by lia; by eexists).
    eexists _, _. rewrite (Hrun _ Hp1), decide_True; [done|]. left. unfold FLT_SIZE, MIN_FLT_BIT. lia.
Qed.

End heap_class.
End HeapClass.
