(* ===== verification/HeapList.v ===== *)
(** * The free lists of the heap ([insert_block], [get_block], [findblk_byidx])

    What the lists are in memory, doubly linked segments under a table of first blocks with
    two levels of bitmaps, and what the operations on them do: which list changes, and that
    no word of memory but the links of free blocks does. *)
From S2P Require Import Prelude Config Bitmap Kernel Sched Queue Mblk Heap HeapClass.
Import Bitmap Queue Mblk Heap HeapClass.

Module HeapList.

(** ** Words of memory *)

Definition rd (m : gmap addr Z) (a : Z) : option Z := match a with Zpos p => m !! p | _ => None end.
Definition wr (m : gmap addr Z) (a v : Z) : gmap addr Z := match a with Zpos p => <[p := v]> m | _ => m end.

(** the word exists *)
Definition has (m : gmap addr Z) (a : Z) : Prop := is_Some (rd m a).

Lemma rd_wr m a v : has m a -> rd (wr m a v) a = Some v.
Proof. intros [w Hw]. destruct a; try done. apply lookup_insert_eq. Qed.

Lemma rd_wr_ne m a b v : a <> b -> rd (wr m a v) b = rd m b.
Proof. intros Hne. destruct a, b; try done. cbn. apply lookup_insert_ne. congruence. Qed.

Lemma has_wr m a b v : has m b -> has (wr m a v) b.
Proof.
  intros Hb. destruct (decide (a = b)) as [->|]; unfold has; [rewrite rd_wr by done; by eexists|].
  by rewrite rd_wr_ne.
Qed.

Lemma has_pos m a : has m a -> 0 < a.
Proof. intros [v Hv]. by destruct a. Qed.

#[export] Hint Resolve has_wr : rhino.

(** removing an element that occurs once *)
Lemma list_rm_middle {A} `{EqDecision A} (x : A) l1 l2 : NoDup (l1 ++ x :: l2) -> list_rm x (l1 ++ x :: l2) = l1 ++ l2.
Proof.
  intros (_ & Hd & Hn)%NoDup_app. apply NoDup_cons in Hn as [Hn _].
  rewrite list_rm_app, list_rm_cons, (list_rm_id x l1); [done| |done]. intros Hin. apply (Hd x Hin). left.
Qed.

Section heap_list.
Context {cfg : RhinoConfig} (hd : addr).

(** ** States with another heap

    [put s m h] is [s] with the memory [m] and the head [h]; symbolic execution keeps states
    in this form. *)
Definition put (s : kstate) (m : gmap addr Z) (h : k_mm_head) : kstate :=
  s <| umem := m |> <| kmm ::= fun k => k <| mm_heads ::= <[hd := h]> |> |>.

Lemma put_put s m h m' h' : put (put s m h) m' h' = put s m' h'.
Proof.
  apply kstate_ext; try reflexivity. cbn. unfold upd. cbn. by rewrite insert_insert_eq.
Qed.

Lemma put_id s h : mm_heads (kmm s) !! hd = Some h -> put s (umem s) h = s.
Proof.
  intros Hh. unfold put, upd. cbn. unfold upd. cbn. rewrite insert_id by done. by destruct s as [????????????????????????? []].
Qed.

Lemma wp_rd a v (Q : Z -> kstate -> Prop) s m h : rd m a = Some v -> Q v (put s m h) -> wp (word_get a) Q (put s m h).
Proof. intros Hr HQ. unfold wp, word_get. destruct a; try done. cbn in *. by rewrite Hr. Qed.

Lemma wp_hset a v (Q : unit -> kstate -> Prop) s m h : has m a -> Q tt (put s (wr m a v) h) -> wp (hset a v) Q (put s m h).
Proof. intros [w Hr] HQ. unfold wp, hset. destruct a; try done. cbn in *. by rewrite Hr. Qed.

Lemma wp_hupd a w f (Q : unit -> kstate -> Prop) s m h :
  rd m a = Some w -> Q tt (put s (wr m a (f w)) h) -> wp (hupd a f) Q (put s m h).
Proof.
  intros Hr HQ. apply wp_bind. eapply wp_rd; [done|]. apply wp_hset; [by eexists|done].
Qed.

Lemma wp_mm_get (Q : k_mm_head -> kstate -> Prop) s m h : Q h (put s m h) -> wp (mm_get hd) Q (put s m h).
Proof. intros HQ. unfold wp, mm_get. cbn. unfold upd. cbn. by rewrite lookup_insert_eq. Qed.

Lemma wp_mm_upd f (Q : unit -> kstate -> Prop) s m h : Q tt (put s m (f h)) -> wp (mm_upd hd f) Q (put s m h).
Proof.
  intros HQ. unfold wp, mm_upd. cbn. unfold upd. cbn. rewrite lookup_insert_eq. cbn.
  unfold put, upd in HQ. cbn in HQ. unfold upd in *. cbn in HQ. by rewrite insert_insert_eq.
Qed.

Lemma wp_at_ix {A} (l : list A) i x (Q : A -> kstate -> Prop) s :
  0 <= i -> l !! Z.to_nat i = Some x -> Q x s -> wp (at_ix l i) Q s.
Proof. intros Hi Hl HQ. unfold at_ix. rewrite decide_True by done. by eapply wp_deref. Qed.

Lemma wp_eq {A} (m : K A) a (Q : A -> kstate -> Prop) s : m s = Some (a, s) -> Q a s -> wp m Q s.
Proof. unfold wp. by intros ->. Qed.

(** ** Segments of doubly linked blocks

    [dseg m pp p q qn l]: the blocks [l], the first of them [p] and the last [q], are linked
    in both directions, with [pp] before and [qn] behind them. *)
Fixpoint dseg (m : gmap addr Z) (pp p q qn : Z) (l : list Z) : Prop :=
  match l with
  | [] => p = qn /\ pp = q
  | a :: l => p = a /\ a <> 0 /\ rd m (free_prev_at a) = Some pp /\
      exists n, rd m (free_next_at a) = Some n /\ dseg m a n q qn l
  end.

Lemma dseg_app m pp p q qn l1 l2 :
  dseg m pp p q qn (l1 ++ l2) <-> exists j jn, dseg m pp p j jn l1 /\ dseg m j jn q qn l2.
Proof.
  revert pp p. induction l1 as [|a l1 IH]; intros pp p; cbn.
  - split; [intros H; by exists pp, p|]. by intros (j & jn & [-> ->] & H).
  - split.
    + intros (-> & Ha & Hp & n & Hn & H). apply IH in H as (j & jn & H1 & H2). exists j, jn. split; [|done].
      repeat split; try done. by exists n.
    + intros (j & jn & (-> & Ha & Hp & n & Hn & H1) & H2). repeat split; try done. exists n. split; [done|].
      apply IH. by exists j, jn.
Qed.

(** Links elsewhere do not matter. *)
Lemma dseg_frame m m' pp p q qn l :
  (forall a, a ∈ l -> rd m' (free_prev_at a) = rd m (free_prev_at a) /\ rd m' (free_next_at a) = rd m (free_next_at a)) ->
  dseg m pp p q qn l -> dseg m' pp p q qn l.
Proof.
  revert pp p. induction l as [|a l IH]; intros pp p Hm; cbn; [done|].
  intros (-> & Ha & Hp & n & Hn & H). destruct (Hm a ltac:(set_solver)) as [H1 H2].
  repeat split; try done; [by rewrite H1|]. exists n. split; [by rewrite H2|]. apply IH; [set_solver|done].
Qed.

Lemma dseg_first m pp p q l : dseg m pp p q 0 l -> p = 0 <-> l = [].
Proof. destruct l; cbn; [naive_solver|]. intros (-> & ? & _). naive_solver. Qed.

Lemma dseg_links m pp p q qn l a : dseg m pp p q qn l -> a ∈ l -> has m (free_prev_at a) /\ has m (free_next_at a).
Proof.
  intros Hd Ha. apply list_elem_of_split in Ha as (l1 & l2 & ->). apply dseg_app in Hd as (j & jn & _ & Hd).
  cbn in Hd. destruct Hd as (_ & _ & Hp & n & Hn & _). split; by eexists.
Qed.

(** ** Bits of one word *)

Lemma in_word nr w : 0 <= nr < 32 -> in_bitmap [w] nr.
Proof. unfold in_bitmap. cbn. lia. Qed.

(** Setting or clearing the bit [s] of [w] gives a word with that bit [b] and the others as
    they were. *)
Definition word_with (w s : Z) (b : bool) (w' : Z) : Prop :=
  0 <= w' < 2 ^ 32 /\ forall i, 0 <= i -> Z.testbit w' i = if decide (i = s) then b else Z.testbit w i.

Lemma word_with_intro bm w s b :
  0 <= w < 2 ^ 32 -> 0 <= s < 32 -> words_ok bm -> length bm = 1%nat ->
  (forall p, 0 <= p -> bit_at bm p = if decide (p = 31 - s) then b else bit_at [w] p) ->
  exists w', bm = [w'] /\ word_with w s b w'.
Proof.
  intros Hw Hs Hok Hlen Hb. destruct bm as [|w' [|]]; try done. exists w'. split; [done|].
  unfold words_ok in Hok. rewrite Forall_singleton in Hok. split; [exact Hok|]. intros i Hi. destruct (decide (i < 32)).
  - specialize (Hb (31 - i) ltac:(lia)). rewrite !bit_at_cons_low in Hb by lia.
    replace (31 - (31 - i)) with i in Hb by lia. rewrite Hb. repeat case_decide; done || lia.
  - rewrite decide_False by lia. rewrite (testbit_above 32 w'), (testbit_above 32 w) by lia. done.
Qed.

Lemma word_set w s : 0 <= w < 2 ^ 32 -> 0 <= s < 32 ->
  exists w', krhino_bitmap_set [w] (31 - s) = Some [w'] /\ word_with w s true w'.
Proof.
  intros Hw Hs. destruct (bitmap_set_spec [w] (31 - s)) as (bm & Hset & Hok & Hlen & Hb).
  - by apply Forall_singleton.
  - apply in_word. lia.
  - destruct (word_with_intro bm w s true) as (w' & -> & Hw'); try done; [|by exists w'].
    intros p Hp. rewrite Hb by done. case_decide; [by rewrite bool_decide_true|by rewrite bool_decide_false].
Qed.

Lemma word_clear w s : 0 <= w < 2 ^ 32 -> 0 <= s < 32 ->
  exists w', krhino_bitmap_clear [w] (31 - s) = Some [w'] /\ word_with w s false w'.
Proof.
  intros Hw Hs. destruct (bitmap_clear_spec [w] (31 - s)) as (bm & Hset & Hok & Hlen & Hb).
  - by apply Forall_singleton.
  - apply in_word. lia.
  - destruct (word_with_intro bm w s false) as (w' & -> & Hw'); try done; [|by exists w'].
    intros p Hp. rewrite Hb by done. case_decide; [by rewrite bool_decide_true|by rewrite bool_decide_false].
Qed.

Lemma word_with_zero w s w' : word_with w s false w' -> 0 <= w ->
  w' = 0 <-> forall i, 0 <= i -> i <> s -> Z.testbit w i = false.
Proof.
  intros [Hr Hb] Hw. split.
  - intros -> i Hi Hne. specialize (Hb i Hi). rewrite Z.testbit_0_l, decide_False in Hb by done. done.
  - intros Hz. apply Z.bits_inj'. intros i Hi. rewrite Hb, Z.testbit_0_l by done. case_decide; [done|]. by apply Hz.
Qed.

Lemma word_nonzero w i : Z.testbit w i = true -> w <> 0.
Proof. intros Hb ->. by rewrite Z.testbit_0_l in Hb. Qed.

(** ** The table and the bitmaps *)

Definition tbl_at (h : k_mm_head) (f s : Z) : option Z := row ← mm_tbl h !! Z.to_nat f; row !! Z.to_nat s.

(** an index of the table *)
Definition in_tbl (f s : Z) : Prop := 0 <= f < FLT_SIZE /\ 0 <= s < SLT_SIZE.

(** [F f s] are the free blocks of the class [f], [s], in the order of their list. *)
Record lists_ok (m : gmap addr Z) (h : k_mm_head) (F : Z -> Z -> list Z) : Prop := {
  lo_rows : length (sl_bitmap h) = Z.to_nat FLT_SIZE;
  lo_dll : forall f s, in_tbl f s -> exists t q, tbl_at h f s = Some t /\ dseg m 0 t q 0 (F f s);
  lo_sl : forall f w, sl_bitmap h !! Z.to_nat f = Some w -> 0 <= w < 2 ^ 32 /\
    forall s, in_tbl f s -> Z.testbit w s = bool_decide (F f s <> []);
  lo_fl : 0 <= fl_bitmap h < 2 ^ 32 /\ forall f, 0 <= f ->
    Z.testbit (fl_bitmap h) f = true <-> f < FLT_SIZE /\ exists w, sl_bitmap h !! Z.to_nat f = Some w /\ w <> 0;
  lo_nodup : forall f s, NoDup (F f s);
}.

(** nothing of the head changes but the lists *)
Definition relist (h h' : k_mm_head) : Prop :=
  h' = h <| fl_bitmap := fl_bitmap h' |> <| sl_bitmap := sl_bitmap h' |> <| mm_tbl := mm_tbl h' |>.

(** nothing of the memory changes but the links of the blocks in [N] *)
Definition relink (N : Z -> Prop) (m m' : gmap addr Z) : Prop :=
  (forall a, (forall n, N n -> a <> free_prev_at n /\ a <> free_next_at n) -> rd m' a = rd m a) /\
  (forall a, has m a -> has m' a).

Definition setF (F : Z -> Z -> list Z) (f s : Z) (l : list Z) : Z -> Z -> list Z :=
  fun f' s' => if decide (f' = f /\ s' = s) then l else F f' s'.

Lemma setF_eq F f s l : setF F f s l f s = l.
Proof. unfold setF. by rewrite decide_True by done. Qed.

Lemma setF_ne F f s l f' s' : (f', s') <> (f, s) -> setF F f s l f' s' = F f' s'.
Proof. unfold setF. intros. rewrite decide_False; [done|naive_solver]. Qed.

Lemma relist_refl h : relist h h.
Proof. by destruct h. Qed.
Lemma relist_trans h1 h2 h3 : relist h1 h2 -> relist h2 h3 -> relist h1 h3.
Proof. unfold relist. destruct h1, h2, h3; cbn. unfold upd. cbn. intros [= -> -> -> -> -> ->] [= -> -> -> -> -> ->]. done. Qed.

Lemma relink_refl N m : relink N m m.
Proof. by split. Qed.
Lemma relink_trans N m1 m2 m3 : relink N m1 m2 -> relink N m2 m3 -> relink N m1 m3.
Proof. intros [H1 H2] [H3 H4]. split; [|by auto]. intros a Ha. rewrite H3 by done. by apply H1. Qed.
Lemma relink_mono (N N' : Z -> Prop) m m' : (forall n, N n -> N' n) -> relink N m m' -> relink N' m m'.
Proof. intros HN [H1 H2]. split; [|done]. intros a Ha. apply H1. auto. Qed.
Lemma relink_wr (N : Z -> Prop) m n v a : N n -> a = free_prev_at n \/ a = free_next_at n -> relink N m (wr m a v).
Proof.
  intros Hn Ha. split; [|auto with rhino]. intros b Hb. apply rd_wr_ne. destruct (Hb n Hn). destruct Ha; congruence.
Qed.

(** ** One list changes *)

(** Links of different blocks, and the two of one block, are different words. *)
Definition spread (N : Z -> Prop) : Prop := forall x y, N x -> N y -> free_prev_at x <> free_next_at y.

Lemma link_ne N x y : spread N -> N x -> N y ->
  free_prev_at x <> free_next_at y /\ (x <> y -> free_prev_at x <> free_prev_at y /\ free_next_at x <> free_next_at y).
Proof. intros Hs Hx Hy. split; [by apply Hs|]. unfold free_prev_at, free_next_at. lia. Qed.

(** the head after the list of a class got the first block [t], and the words of the bitmaps
    that go with it *)
Definition rehead (h h' : k_mm_head) (f s t w' : Z) (b : bool) : Prop :=
  (forall f' s', in_tbl f' s' -> tbl_at h' f' s' = if decide ((f', s') = (f, s)) then Some t else tbl_at h f' s') /\
  length (sl_bitmap h') = length (sl_bitmap h) /\
  (forall f', 0 <= f' -> sl_bitmap h' !! Z.to_nat f' = if decide (f' = f) then Some w' else sl_bitmap h !! Z.to_nat f') /\
  (exists w, sl_bitmap h !! Z.to_nat f = Some w /\ word_with w s b w') /\
  word_with (fl_bitmap h) f (bool_decide (w' <> 0)) (fl_bitmap h').

Lemma lists_change m h F f s l m' h' t q w' :
  lists_ok m h F -> in_tbl f s -> NoDup l -> dseg m' 0 t q 0 l ->
  (forall f' s', (f', s') <> (f, s) -> forall t q, dseg m 0 t q 0 (F f' s') -> dseg m' 0 t q 0 (F f' s')) ->
  rehead h h' f s t w' (bool_decide (l <> [])) -> lists_ok m' h' (setF F f s l).
Proof.
  intros [] Hfs Hnd Hd Hoth (Ht & Hlen & Hsl & (w & Hw & Hw') & Hfl). split.
  - by rewrite Hlen.
  - intros f' s' Hin. rewrite Ht by done. destruct (decide ((f', s') = (f, s))) as [[= -> ->]|He].
    + rewrite setF_eq. by exists t, q.
    + rewrite setF_ne by done. destruct (lo_dll0 f' s' Hin) as (t' & q' & H1 & H2). exists t', q'. eauto.
  - intros f' v Hv. destruct (decide (0 <= f')) as [Hf'|Hf'].
    2: { assert (Z.to_nat f' = Z.to_nat 0) as Hz by lia. rewrite Hz in Hv.
      assert (Hno : forall s', ~ in_tbl f' s') by (unfold in_tbl; lia).
      split; [|intros s' Hin; by apply Hno in Hin].
      rewrite Hsl in Hv by lia. destruct (decide (0 = f)).
      - injection Hv as <-. by destruct Hw'.
      - by destruct (lo_sl0 0 v Hv). }
    rewrite Hsl in Hv by done. destruct (decide (f' = f)) as [->|He].
    + injection Hv as <-. destruct Hw' as [Hr Hb]. split; [done|]. intros s' Hin. rewrite Hb by (unfold in_tbl in *; lia).
      destruct (decide (s' = s)) as [->|]; [by rewrite setF_eq|]. rewrite setF_ne by congruence.
      destruct (lo_sl0 f w Hw) as [_ Hb0]. by apply Hb0.
    + destruct (lo_sl0 f' v Hv) as [Hr Hb]. split; [done|]. intros s' Hin. rewrite setF_ne by congruence. by apply Hb.
  - destruct Hfl as [Hr Hb]. split; [done|]. intros f' Hf'. rewrite Hb, Hsl by done. destruct (decide (f' = f)) as [->|He].
    + rewrite bool_decide_eq_true. unfold in_tbl in *. split; [intros; split; [lia|by exists w']|].
      by intros (_ & ? & [= <-] & ?).
    + destruct lo_fl0 as [_ Hb0]. by apply Hb0.
  - intros f' s'. unfold setF. destruct (decide _); [done|]. apply lo_nodup0.
Qed.

(** ** Steps on the table and the bitmaps *)

Lemma wp_tbl_get f sl t (Q : Z -> kstate -> Prop) s m h :
  in_tbl f sl -> tbl_at h f sl = Some t -> Q t (put s m h) -> wp (tbl_get hd f sl) Q (put s m h).
Proof.
  unfold tbl_at. intros Hin Ht HQ. apply bind_Some in Ht as (row & Hr & Ht). unfold in_tbl in *.
  apply wp_bind, wp_mm_get, wp_bind. eapply wp_at_ix; [lia|done|]. eapply wp_at_ix; [lia|done|done].
Qed.

Lemma wp_tbl_set f sl t v (Q : unit -> kstate -> Prop) s m h :
  in_tbl f sl -> tbl_at h f sl = Some t ->
  (forall h', h' = h <| mm_tbl ::= alter (<[Z.to_nat sl := v]>) (Z.to_nat f) |> ->
     (forall f' s', in_tbl f' s' -> tbl_at h' f' s' = if decide ((f', s') = (f, sl)) then Some v else tbl_at h f' s') ->
     Q tt (put s m h')) -> wp (tbl_set hd f sl v) Q (put s m h).
Proof.
  intros Hin Ht HQ. apply wp_bind. eapply wp_tbl_get; [done..|]. apply wp_mm_upd. apply HQ; [done|].
  intros f' s' Hin'. unfold tbl_at in *. cbn. apply bind_Some in Ht as (row & Hr & Ht). unfold in_tbl in *.
  rewrite list_lookup_alter. destruct (decide (f' = f)) as [->|Hf].
  - rewrite decide_True by done. rewrite Hr. cbn. destruct (decide (s' = sl)) as [->|Hs].
    + rewrite decide_True by done. apply list_lookup_insert_eq. by eapply lookup_lt_Some.
    + rewrite decide_False by congruence. rewrite list_lookup_insert_ne; [done|]. lia.
  - rewrite decide_False by lia. rewrite decide_False by congruence. done.
Qed.

Lemma wp_sl_get f w (Q : Z -> kstate -> Prop) s m h :
  0 <= f -> sl_bitmap h !! Z.to_nat f = Some w -> Q w (put s m h) -> wp (sl_get hd f) Q (put s m h).
Proof. intros Hf Hw HQ. apply wp_bind, wp_mm_get. by eapply wp_at_ix. Qed.

Lemma wp_bitmap_word op w nr w' (Q : Z -> kstate -> Prop) s : op [w] nr = Some [w'] -> Q w' s -> wp (bitmap_word op w nr) Q s.
Proof. intros Ho HQ. unfold bitmap_word. rewrite Ho. by eapply wp_deref. Qed.

(** [op] sets the bit of a position, or clears it. *)
Definition bit_op (op : list Z -> Z -> option (list Z)) (b : bool) : Prop :=
  forall w i, 0 <= w < 2 ^ 32 -> 0 <= i < 32 -> exists w', op [w] (31 - i) = Some [w'] /\ word_with w i b w'.

Lemma wp_sl_upd op b f sl w (Q : unit -> kstate -> Prop) s m h :
  bit_op op b -> in_tbl f sl -> sl_bitmap h !! Z.to_nat f = Some w -> 0 <= w < 2 ^ 32 ->
  (forall w', word_with w sl b w' -> Q tt (put s m (h <| sl_bitmap ::= <[Z.to_nat f := w']> |>))) ->
  wp (sl_upd op hd f sl) Q (put s m h).
Proof.
  intros Hop [Hf Hs] Hw Hr HQ. apply wp_bind. eapply wp_sl_get; [lia|done|].
  destruct (Hop w sl Hr) as (w' & Ho & Hw'); [change SLT_SIZE with 32 in Hs; lia|].
  apply wp_bind. eapply wp_bitmap_word; [done|]. apply wp_mm_upd. by apply HQ.
Qed.

Lemma wp_fl_upd op b f (Q : unit -> kstate -> Prop) s m h :
  bit_op op b -> 0 <= f < FLT_SIZE -> 0 <= fl_bitmap h < 2 ^ 32 ->
  (forall w', word_with (fl_bitmap h) f b w' -> Q tt (put s m (h <| fl_bitmap := w' |>))) ->
  wp (fl_upd op hd f) Q (put s m h).
Proof.
  intros Hop Hf Hr HQ. apply wp_bind, wp_mm_get.
  destruct (Hop (fl_bitmap h) f Hr) as (w' & Ho & Hw').
  { pose proof cfg_mm_bits. unfold FLT_SIZE, MIN_FLT_BIT, MAX_MM_BIT in Hf. lia. }
  apply wp_bind. eapply wp_bitmap_word; [done|]. apply wp_mm_upd. by apply HQ.
Qed.

(** A bit that is already right stays. *)
Lemma word_with_same w i b : 0 <= w < 2 ^ 32 -> Z.testbit w i = b -> word_with w i b w.
Proof. intros Hr Hb. split; [done|]. intros j Hj. case_decide; [by subst|done]. Qed.

Lemma bit_op_set : bit_op krhino_bitmap_set true.
Proof. intros w i Hw Hi. by apply word_set. Qed.
Lemma bit_op_clear : bit_op krhino_bitmap_clear false.
Proof. intros w i Hw Hi. by apply word_clear. Qed.

Lemma lists_word m h F f s : lists_ok m h F -> in_tbl f s ->
  exists w, sl_bitmap h !! Z.to_nat f = Some w /\ 0 <= w < 2 ^ 32 /\ Z.testbit w s = bool_decide (F f s <> []) /\
    Z.testbit (fl_bitmap h) f = bool_decide (w <> 0).
Proof.
  intros [] Hin. destruct (lookup_lt_is_Some_2 (sl_bitmap h) (Z.to_nat f)) as [w Hw]; [unfold in_tbl in *; lia|].
  exists w. destruct (lo_sl0 f w Hw) as [Hr Hb]. split; [done|]. split; [done|]. split; [by apply Hb|].
  destruct lo_fl0 as [_ Hfl]. destruct Hin as [Hf _]. case_bool_decide as Hz.
  - apply Hfl; [lia|]. split; [lia|by exists w].
  - apply not_true_is_false. intros (_ & w' & Hw' & Hz')%Hfl; [|lia]. naive_solver.
Qed.

Lemma lists_tbl m h F f s : lists_ok m h F -> in_tbl f s -> exists t q, tbl_at h f s = Some t /\ dseg m 0 t q 0 (F f s).
Proof. intros [] Hin. by apply lo_dll0. Qed.

(** the blocks whose links an operation on the list [l] may change, the block [b] included *)
Definition near (b : Z) (l : list Z) (n : Z) : Prop := n = b \/ n ∈ l.

(** The links of other lists stay. *)
Lemma others_stay (N N' : Z -> Prop) m m' l : spread N -> relink N' m m' -> (forall a, N' a -> N a) ->
  (forall a, a ∈ l -> N a /\ ~ N' a) -> forall pp t q qn, dseg m pp t q qn l -> dseg m' pp t q qn l.
Proof.
  intros Hsp [Hm _] Hsub Hl pp t q qn. apply dseg_frame. intros a Ha. destruct (Hl a Ha) as [HN HN'].
  split; apply Hm; intros n Hn; (assert (a <> n) by (intros ->; done));
    destruct (link_ne N a n Hsp HN (Hsub n Hn)) as [H1 H2]; destruct (link_ne N n a Hsp (Hsub n Hn) HN) as [H3 _];
    destruct H2; done || naive_solver.
Qed.

(** ** Lists as segments of memory *)

(** Nodes that are linked, with their links apart. *)
Definition nodes (N : Z -> Prop) (l : list Z) : Prop := spread N /\ NoDup l /\ forall a, a ∈ l -> N a.

(** A word of a link of [b] is none of those of the other blocks. *)
Lemma link_wr_ne N m b c v : spread N -> N b -> N c -> b <> c ->
  (rd (wr m (free_prev_at b) v) (free_prev_at c) = rd m (free_prev_at c) /\
   rd (wr m (free_prev_at b) v) (free_next_at c) = rd m (free_next_at c)) /\
  (rd (wr m (free_next_at b) v) (free_prev_at c) = rd m (free_prev_at c) /\
   rd (wr m (free_next_at b) v) (free_next_at c) = rd m (free_next_at c)).
Proof.
  intros Hs Hb Hc Hne. destruct (link_ne N b c Hs Hb Hc) as [H1 H2]. destruct (H2 Hne). pose proof (Hs c b Hc Hb).
  split; split; apply rd_wr_ne; done || congruence.
Qed.

Lemma dseg_wr_out N m b v pp p q qn l : nodes N l -> N b -> b ∉ l ->
  dseg m pp p q qn l -> dseg (wr m (free_prev_at b) v) pp p q qn l /\ dseg (wr m (free_next_at b) v) pp p q qn l.
Proof.
  intros (Hs & _ & HN) Hb Hbl Hd. assert (Hout : forall c, c ∈ l -> b <> c) by (intros c Hc ->; done).
  split; revert Hd; apply dseg_frame; intros c Hc; by destruct (link_wr_ne N m b c v Hs Hb (HN c Hc) (Hout c Hc)).
Qed.

(** The memory after [b] was put in front of a list that starts at [t]. *)
Definition pushed (m : gmap addr Z) (b t : Z) : gmap addr Z :=
  let m2 := wr (wr m (free_prev_at b) 0) (free_next_at b) t in
  if decide (t <> 0) then wr m2 (free_prev_at t) b else m2.

Lemma dseg_push N m b t q l : nodes N l -> N b -> b ∉ l -> b <> 0 -> has m (free_prev_at b) -> has m (free_next_at b) ->
  dseg m 0 t q 0 l -> (exists q', dseg (pushed m b t) 0 b q' 0 (b :: l)) /\ relink (near b l) m (pushed m b t).
Proof.
  intros HN Hb Hbl Hb0 Hp Hn Hd. destruct HN as (Hs & Hnd & HN). pose proof (Hs b b Hb Hb) as Hbb.
  assert (H2 : relink (near b l) m (wr (wr m (free_prev_at b) 0) (free_next_at b) t)).
  { eapply relink_trans; eapply (relink_wr _ _ b); eauto; by left. }
  assert (Hbn : has (wr m (free_prev_at b) 0) (free_next_at b)) by by apply has_wr. unfold pushed.
  destruct l as [|a l]; cbn in Hd.
  { destruct Hd as [-> <-]. rewrite decide_False by auto. split; [|done]. exists b. cbn. rewrite rd_wr_ne, rd_wr by done.
    repeat split; try done. exists 0. by rewrite rd_wr. }
  destruct Hd as (-> & Ha0 & Hpa & n & Hna & Hd). rewrite decide_True by done.
  apply not_elem_of_cons in Hbl as [Hab Hbl]. apply NoDup_cons in Hnd as [Hal Hnd].
  assert (HNa : N a) by (apply HN; left). pose proof (Hs a a HNa HNa) as Haa. pose proof (Hs a b HNa Hb) as Hx.
  destruct (link_wr_ne N m b a 0 Hs Hb HNa Hab) as [[E1 E2] _].
  destruct (link_wr_ne N (wr m (free_prev_at b) 0) b a a Hs Hb HNa Hab) as [_ [E3 E4]].
  split; [|eapply relink_trans; [done|]; eapply (relink_wr _ _ a); [right; left|by left]].
  set (m2 := wr (wr m (free_prev_at b) 0) (free_next_at b) a) in *.
  destruct (link_wr_ne N m2 a b b Hs HNa Hb ltac:(congruence)) as [[E5 E6] _].
  exists q. cbn. split; [done|]. split; [done|]. rewrite E5. unfold m2. rewrite rd_wr_ne, rd_wr by done. split; [done|].
  exists a. fold m2. rewrite E6. unfold m2. rewrite rd_wr by done. repeat split; try done.
  { fold m2. apply rd_wr. destruct H2 as [_ Hh]. apply Hh. by eexists. }
  exists n. rewrite rd_wr_ne by done. fold m2. rewrite E4, E2. split; [done|].
  assert (Hl : nodes N l) by (repeat split; try done; intros c Hc; apply HN; by right).
  eapply dseg_wr_out; [done..|]. eapply dseg_wr_out; [done..|]. by eapply dseg_wr_out.
Qed.

(** The first link back and the last link forward of a segment are changed. *)
Lemma dseg_first_wr N m pp p q qn d l x : nodes N (d :: l) -> dseg m pp p q qn (d :: l) ->
  dseg (wr m (free_prev_at d) x) x p q qn (d :: l).
Proof.
  intros (Hs & Hnd & HN) (-> & Hd0 & Hp & n & Hn & Hd). apply NoDup_cons in Hnd as [Hdl Hnd].
  assert (HNd : N d) by (apply HN; left). cbn. split; [done|]. split; [done|].
  split; [apply rd_wr; by eexists|]. exists n. rewrite rd_wr_ne by by apply Hs. split; [done|].
  eapply (dseg_wr_out N m d); [|done..]. repeat split; try done. intros c Hc. apply HN. by right.
Qed.

Lemma dseg_last_wr N m pp p q qn l c x : nodes N (l ++ [c]) -> dseg m pp p q qn (l ++ [c]) ->
  q = c /\ dseg (wr m (free_next_at c) x) pp p c x (l ++ [c]).
Proof.
  intros (Hs & Hnd & HN) Hd. apply dseg_app in Hd as (j & jn & H1 & H2). cbn in H2.
  destruct H2 as (-> & Hc0 & Hp & n & Hn & -> & <-). split; [done|].
  apply NoDup_app in Hnd as (Hnd & Hcl & _). assert (HNc : N c) by (apply HN; set_solver).
  apply dseg_app. exists j, c. split.
  - eapply (dseg_wr_out N m c); [|done| |done]; [|intros Hc; by apply (Hcl c Hc); left].
    repeat split; try done. intros a Ha. apply HN. set_solver.
  - cbn. split; [done|]. split; [done|]. split; [by rewrite rd_wr_ne by (apply not_eq_sym, Hs; done)|].
    exists x. split; [|done]. apply rd_wr. by eexists.
Qed.

Lemma nodes_sub N l l' : nodes N l -> sublist l' l -> nodes N l'.
Proof.
  intros (Hs & Hnd & HN) Hsub. split; [done|]. split; [by eapply sublist_NoDup|].
  intros a Ha. apply HN. by eapply elem_of_submseteq; [|apply sublist_submseteq].
Qed.

(** The memory after [b], between [p0] and [n], left its list; the links of [b] go to 0. *)
Definition unlinked (m : gmap addr Z) (p0 n : Z) : gmap addr Z :=
  let m1 := if decide (n <> 0) then wr m (free_prev_at n) p0 else m in
  if decide (p0 <> 0) then wr m1 (free_next_at p0) n else m1.
Definition cut (m : gmap addr Z) (b p0 n : Z) : gmap addr Z :=
  wr (wr (unlinked m p0 n) (free_prev_at b) 0) (free_next_at b) 0.

(** A block and its neighbours in a list. *)
Lemma dseg_around m t q l b : dseg m 0 t q 0 l -> b ∈ l -> NoDup l ->
  exists l1 l2 p0 n, l = l1 ++ b :: l2 /\ rd m (free_prev_at b) = Some p0 /\ rd m (free_next_at b) = Some n /\
    dseg m 0 t p0 b l1 /\ dseg m b n q 0 l2 /\ b <> 0 /\ (t = b <-> p0 = 0).
Proof.
  intros Hd Hb Hnd. apply list_elem_of_split in Hb as (l1 & l2 & ->). apply dseg_app in Hd as (j & jn & H1 & H2).
  cbn in H2. destruct H2 as (-> & Hb0 & Hp & n & Hn & H2). exists l1, l2, j, n. repeat split; try done.
  - intros ->. destruct l1 as [|a l1]; cbn in H1; [naive_solver|]. destruct H1 as [-> _].
    apply NoDup_app in Hnd as (_ & Hx & _). exfalso. apply (Hx a); left.
  - intros ->. destruct l1 as [|a l1] using rev_ind; cbn in H1; [naive_solver|]. clear IHl1.
    apply dseg_app in H1 as (j & jn & _ & (-> & Ha0 & _ & n0 & _ & _ & Heq)). congruence.
Qed.

Lemma dseg_cut N m t q l1 b l2 p0 n : nodes N (l1 ++ b :: l2) ->
  dseg m 0 t p0 b l1 -> dseg m b n q 0 l2 -> 
  (exists q', dseg (cut m b p0 n) 0 (if decide (t = b) then n else t) q' 0 (l1 ++ l2)) /\
  relink (near b (l1 ++ b :: l2)) m (cut m b p0 n).
Proof.
  intros HN H1 H2. assert (Hsub : nodes N (l1 ++ l2)) by (eapply nodes_sub; [done|]; apply sublist_app; [done|by apply sublist_cons]).
  destruct HN as (Hs & Hnd & HN). assert (HNb : N b) by (apply HN; set_solver).
  assert (Hbl : b ∉ l1 ++ l2).
  { apply NoDup_app in Hnd as (_ & Hx & Hnd). apply NoDup_cons in Hnd as [Hnd _]. intros [Hb|Hb]%elem_of_app; [|done].
    apply (Hx b Hb). left. }
  assert (Hun : (exists q', dseg (unlinked m p0 n) 0 (if decide (t = b) then n else t) q' 0 (l1 ++ l2)) /\
      relink (near b (l1 ++ b :: l2)) m (unlinked m p0 n)).
  2: { destruct Hun as [(q' & Hq) Hm]. split.
    - exists q'. unfold cut. destruct (dseg_wr_out N _ b 0 _ _ _ _ _ Hsub HNb Hbl Hq) as [Hq1 _].
      by destruct (dseg_wr_out N _ b 0 _ _ _ _ _ Hsub HNb Hbl Hq1) as [_ Hq2].
    - eapply relink_trans; [exact Hm|]. eapply relink_trans; eapply (relink_wr _ _ b); eauto; by left. }
  destruct Hsub as (_ & Hnd' & HN'). apply NoDup_app in Hnd' as (Hnd1 & Hx & Hnd2).
  (* the part behind [b] *)
  assert (Hb2 : dseg (if decide (n <> 0) then wr m (free_prev_at n) p0 else m) 0 t p0 b l1 /\
      (exists q', dseg (if decide (n <> 0) then wr m (free_prev_at n) p0 else m) p0 n q' 0 l2) /\
      relink (near b (l1 ++ b :: l2)) m (if decide (n <> 0) then wr m (free_prev_at n) p0 else m)).
  { destruct l2 as [|d l2].
    - cbn in H2. destruct H2 as [-> ->]. rewrite decide_False by auto. split; [done|]. split; [|apply relink_refl].
      by exists p0.
    - assert (n = d) as -> by (cbn in H2; tauto). rewrite decide_True by (cbn in H2; tauto).
      assert (HNd : N d) by (apply HN; set_solver). split; [|split].
      + eapply (dseg_wr_out N m d); [|done| |done].
        * repeat split; try done. intros a Ha. apply HN. set_solver.
        * intros Hd. apply (Hx d Hd). left.
      + exists q. eapply dseg_first_wr; [|done]. repeat split; try done. intros a Ha. apply HN. set_solver.
      + eapply (relink_wr _ _ d); [right; set_solver|by left]. }
  destruct Hb2 as (H1' & (q' & H2') & Hm'). unfold unlinked. set (m1 := if decide (n <> 0) then _ else _) in *.
  destruct l1 as [|c l1] using rev_ind.
  - cbn in H1. destruct H1 as [-> <-]. rewrite decide_False, decide_True by auto. split; [|done]. by exists q'.
  - clear IHl1. assert (HNc : N c) by (apply HN; set_solver).
    assert (Hn1 : nodes N (l1 ++ [c])) by (repeat split; try done; intros a Ha; apply HN; set_solver).
    destruct (dseg_last_wr N m1 _ _ _ _ l1 c n Hn1 H1') as [-> H3].
    assert (Hc0 : c <> 0) by (apply dseg_app in H1 as (j & jn & _ & (_ & ? & _)); done).
    assert (Htb : t <> b).
    { intros ->. destruct l1 as [|a l1]; cbn in H1; [destruct H1 as [-> _]|destruct H1 as [-> _]]; apply Hbl; set_solver. }
    rewrite decide_True, decide_False by done. split.
    + exists q'. apply dseg_app. exists c, n. split; [done|]. eapply (dseg_wr_out N m1 c); [|done| |done].
      * repeat split; try done. intros a Ha. apply HN. set_solver.
      * intros Hc. apply (Hx c); [set_solver|done].
    + eapply relink_trans; [done|]. eapply (relink_wr _ _ c); [right; set_solver|by right].
Qed.

(** The neighbours of a block in its list are other blocks of it. *)
Lemma dseg_near m t p0 b l1 n q l2 x : dseg m 0 t p0 b l1 -> dseg m b n q 0 l2 -> x = p0 \/ x = n -> x <> 0 ->
  NoDup (l1 ++ b :: l2) -> x ∈ l1 ++ l2 /\ x <> b.
Proof.
  intros H1 H2 Hx Hx0 Hnd. assert (Hin : x ∈ l1 ++ l2).
  { apply elem_of_app. destruct Hx as [->| ->].
    - left. destruct l1 as [|a l1] using rev_ind; cbn in H1; [naive_solver|].
      apply dseg_app in H1 as (j & jn & _ & (_ & _ & _ & n0 & _ & _ & <-)). set_solver.
    - right. destruct l2; cbn in H2; [naive_solver|]. destruct H2 as [-> _]. left. }
  split; [done|]. intros ->. apply NoDup_app in Hnd as (_ & Hd & Hnd). apply NoDup_cons in Hnd as [Hnd _].
  apply elem_of_app in Hin as [Hin|Hin]; [|done]. apply (Hd b Hin). left.
Qed.

(** When is a list empty after [b] left it? *)
Lemma dseg_empty m t p0 b l1 n q l2 : dseg m 0 t p0 b l1 -> dseg m b n q 0 l2 -> (t = b <-> p0 = 0) ->
  (t = b -> n = 0 <-> l1 ++ l2 = []) /\ (t <> b -> l1 ++ l2 <> []).
Proof.
  intros H1 H2 Htb. split; intros Ht.
  - assert (l1 = []) as ->.
    { destruct l1 as [|a l1] using rev_ind; [done|]. exfalso.
      apply dseg_app in H1 as (j & jn & _ & (_ & Ha0 & _ & n0 & _ & _ & <-)). tauto. }
    cbn. by eapply dseg_first.
  - destruct l1; [|done]. cbn in H1. tauto.
Qed.

Section list_ops.
Context (st : kstate) (m : gmap addr Z) (h : k_mm_head) (F : Z -> Z -> list Z) (N : Z -> Prop).
Hypothesis Hok : lists_ok m h F.
Hypothesis Hspread : spread N.
Hypothesis HN : forall f s a, a ∈ F f s -> N a.
Hypothesis Honce : forall f s f' s' a, a ∈ F f s -> a ∈ F f' s' -> (f', s') = (f, s).

(** what an operation on the list of a class leaves: the list [l] there, nothing else changed
    but links of [N'] *)
Definition list_done (f s : Z) (l : list Z) (N' : Z -> Prop) (Q : unit -> kstate -> Prop) : Prop :=
  forall m' h', lists_ok m' h' (setF F f s l) -> relist h h' -> relink N' m m' -> Q tt (put st m' h').

Lemma list_other (b f s : Z) m' : relink (near b (F f s)) m m' -> (N b) -> (forall f s, b ∈ F f s -> False) \/ b ∈ F f s ->
  forall f' s', (f', s') <> (f, s) -> forall t q, dseg m 0 t q 0 (F f' s') -> dseg m' 0 t q 0 (F f' s').
Proof.
  intros Hm Hb Hin f' s' Hne t q. apply (others_stay N (near b (F f s)) m m'); [done|done| |].
  - intros a [->|Ha]; [done|by eapply HN].
  - intros a Ha. split; [by eapply HN|]. intros [->|Ha']; [|apply Hne; by eapply Honce].
    destruct Hin as [Hin|Hin]; [by eapply Hin|apply Hne; by eapply Honce].
Qed.

(** The head after an operation, from what it wrote. *)
Lemma rehead_words h1 f s v w w' fl' b :
  0 <= f -> (forall f' s', in_tbl f' s' -> tbl_at h1 f' s' = if decide ((f', s') = (f, s)) then Some v else tbl_at h f' s') ->
  sl_bitmap h1 = sl_bitmap h -> fl_bitmap h1 = fl_bitmap h -> sl_bitmap h !! Z.to_nat f = Some w ->
  word_with w s b w' -> word_with (fl_bitmap h) f (bool_decide (w' <> 0)) fl' ->
  rehead h (h1 <| sl_bitmap ::= <[Z.to_nat f := w']> |> <| fl_bitmap := fl' |>) f s v w' b.
Proof.
  intros Hf Ht Hsl Hfl Hw Hw' Hfl'. split; [done|]. cbn. rewrite Hsl, length_insert. split; [done|]. split; [|by split; [by exists w|]].
  intros f' Hf'. destruct (decide (f' = f)) as [->|]; [apply list_lookup_insert_eq; by eapply lookup_lt_Some|].
  apply list_lookup_insert_ne. lia.
Qed.

Lemma rehead_kept h1 f s v w :
  0 <= f -> (forall f' s', in_tbl f' s' -> tbl_at h1 f' s' = if decide ((f', s') = (f, s)) then Some v else tbl_at h f' s') ->
  sl_bitmap h1 = sl_bitmap h -> fl_bitmap h1 = fl_bitmap h -> sl_bitmap h !! Z.to_nat f = Some w ->
  0 <= w < 2 ^ 32 -> Z.testbit w s = true -> Z.testbit (fl_bitmap h) f = bool_decide (w <> 0) ->
  rehead h h1 f s v w true.
Proof.
  intros Hf Ht Hsl Hfl Hw Hr Hb Hfb. destruct (lo_fl _ _ _ Hok) as [Hfr _].
  split; [done|]. rewrite Hsl, Hfl. split; [done|]. split; [|split; [exists w; split; [done|]|]; by apply word_with_same].
  intros f' Hf'. by destruct (decide (f' = f)) as [->|].
Qed.

(** A block enters its list in front. *)
Lemma wp_insert_block b f s Q : in_tbl f s -> b <> 0 -> N b -> (forall f s, b ∈ F f s -> False) ->
  has m (free_prev_at b) -> has m (free_next_at b) ->
  list_done f s (b :: F f s) (near b (F f s)) Q -> wp (insert_block hd b f s) Q (put st m h).
Proof.
  intros Hin Hb0 HNb Hnew Hp Hn HQ. destruct (lists_tbl _ _ _ _ _ Hok Hin) as (t & q & Ht & Hd).
  destruct (lists_word _ _ _ _ _ Hok Hin) as (w & Hw & Hwr & Hbit & Hfl). pose proof (lo_nodup _ _ _ Hok f s) as Hnd.
  assert (Hnb : b ∉ F f s) by (intros Hx; by eapply Hnew).
  destruct (dseg_push N m b t q (F f s)) as [[q' Hd'] Hm']; try done; [by repeat split; [..|apply HN]|].
  apply wp_bind, wp_hset; [done|]. apply wp_bind. eapply wp_tbl_get; [done..|].
  apply wp_bind, wp_hset; [by apply has_wr|]. apply wp_bind.
  assert (Hpush : wp (if decide (t <> 0) then hset (free_prev_at t) b else mret tt)
    (fun _ s' => s' = put st (pushed m b t) h) (put st (wr (wr m (free_prev_at b) 0) (free_next_at b) t) h)).
  { unfold pushed. destruct (decide (t <> 0)) as [Ht0|]; [|by apply wp_ret]. apply wp_hset; [|done].
    do 2 apply has_wr. destruct (F f s) as [|a l]; cbn in Hd; [naive_solver|]. destruct Hd as (-> & _ & Hpa & _). by eexists. }
  eapply wp_mono; [exact Hpush|]. intros _ s' ->. apply wp_bind. eapply wp_tbl_set; [done..|]. intros h1 -> Htbl.
  apply wp_bind. eapply (wp_sl_upd _ _ _ _ w); [apply bit_op_set|done|done|done|]. intros w' Hw'.
  eapply (wp_fl_upd _ _); [apply bit_op_set|by destruct Hin|by destruct (lo_fl _ _ _ Hok)|]. intros fl' Hfl'. apply HQ; [|done|done].
  eapply (lists_change m h F f s _ _ _ b q' w'); [done|done|by apply NoDup_cons|done|by eapply list_other; [|done|left]|].
  apply (rehead_words _ f s b w); try done; [destruct Hin; lia|]. rewrite bool_decide_true; [done|].
  apply (word_nonzero w' s). destruct Hw' as [_ Hb]. rewrite Hb by (destruct Hin; lia). by rewrite decide_True.
Qed.

(** The bits of a list that is empty now. *)
Lemma wp_clear_bits f s w (Q : unit -> kstate -> Prop) m1 h1 :
  in_tbl f s -> sl_bitmap h1 !! Z.to_nat f = Some w -> 0 <= w < 2 ^ 32 -> 0 <= fl_bitmap h1 < 2 ^ 32 ->
  Z.testbit (fl_bitmap h1) f = bool_decide (w <> 0) ->
  (forall w' fl', word_with w s false w' -> word_with (fl_bitmap h1) f (bool_decide (w' <> 0)) fl' ->
     Q tt (put st m1 (h1 <| sl_bitmap ::= <[Z.to_nat f := w']> |> <| fl_bitmap := fl' |>))) ->
  wp (clear_bits hd f s) Q (put st m1 h1).
Proof.
  intros Hin Hw Hr Hfr Hfb HQ. apply wp_bind. eapply (wp_sl_upd _ _ _ _ w); [apply bit_op_clear|done|done|done|].
  intros w' Hw'. apply wp_bind. eapply (wp_sl_get f w'); [destruct Hin; lia|cbn; apply list_lookup_insert_eq; by eapply lookup_lt_Some|].
  destruct (decide (w' = 0)) as [Hz|Hz].
  - eapply wp_fl_upd; [apply bit_op_clear|by destruct Hin|done|]. intros fl' Hfl'. apply (HQ w' fl'); [done|].
    by rewrite bool_decide_false by auto.
  - apply wp_ret. specialize (HQ w' (fl_bitmap h1) Hw').
    match goal with |- Q _ (put _ _ ?x) => assert (x = x <| fl_bitmap := fl_bitmap h1 |>) as -> by done end.
    apply HQ. apply word_with_same; [done|]. rewrite Hfb. apply bool_decide_ext. split; [done|]. intros _ ->.
    destruct Hz. destruct Hw' as [Hr' Hb]. apply Z.bits_inj'. intros i Hi. rewrite Hb, !Z.testbit_0_l by done. by destruct (decide (i = s)).
Qed.

(** The table and the bitmaps after the first block [t] of a list of [l] others may have left it. *)
Lemma wp_retable b f s t n w (l : list Z) m1 (Q : unit -> kstate -> Prop) :
  in_tbl f s -> tbl_at h f s = Some t -> rd m1 (free_next_at b) = Some n ->
  sl_bitmap h !! Z.to_nat f = Some w -> 0 <= w < 2 ^ 32 -> Z.testbit w s = true ->
  Z.testbit (fl_bitmap h) f = bool_decide (w <> 0) ->
  (t = b -> n = 0 <-> l = []) /\ (t <> b -> l <> []) ->
  (forall h' w', relist h h' -> rehead h h' f s (if decide (t = b) then n else t) w' (bool_decide (l <> [])) -> Q tt (put st m1 h')) ->
  wp (if decide (t = b) then next ← word_get (free_next_at b); tbl_set hd f s next;;
      t ← tbl_get hd f s; (if decide (t = 0) then clear_bits hd f s else mret tt) else mret tt) Q (put st m1 h).
Proof.
  intros Hin Ht Hn Hw Hwr Hbit Hfl [He1 He2] HQ. destruct (lo_fl _ _ _ Hok) as [Hfr _].
  assert (Hf0 : 0 <= f) by (destruct Hin; lia).
  destruct (decide (t = b)) as [->|Htb].
  2: { apply wp_ret. apply (HQ h w); [apply relist_refl|]. rewrite bool_decide_true by auto.
    apply rehead_kept; try done. intros f' s' _. destruct (decide ((f', s') = (f, s))) as [[= -> ->]|]; done. }
  apply wp_bind. eapply wp_rd; [done|]. apply wp_bind. eapply wp_tbl_set; [done..|]. intros h1 Hh1 Htbl.
  apply wp_bind. eapply (wp_tbl_get f s n); [done|rewrite Htbl by done; by rewrite decide_True by done|].
  destruct (decide (n = 0)) as [Hn0|Hn0].
  - rewrite bool_decide_false in HQ by (intros Hl; apply Hl; by apply He1). subst h1.
    eapply (wp_clear_bits f s w); try done. intros w' fl' Hw' Hfl'. eapply HQ; [done|].
    by apply (rehead_words _ f s n w).
  - rewrite bool_decide_true in HQ by (intros Hl; apply Hn0; by apply He1). apply wp_ret. subst h1. eapply HQ; [done|].
    by apply rehead_kept.
Qed.

(** A block of a list leaves it. *)
Lemma wp_get_block b f s Q : in_tbl f s -> b ∈ F f s ->
  list_done f s (list_rm b (F f s)) (near b (F f s)) Q -> wp (get_block hd b f s) Q (put st m h).
Proof.
  intros Hin Hb HQ. destruct (lists_tbl _ _ _ _ _ Hok Hin) as (t & q & Ht & Hd).
  destruct (lists_word _ _ _ _ _ Hok Hin) as (w & Hw & Hwr & Hbit & Hfl). pose proof (lo_nodup _ _ _ Hok f s) as Hnd.
  destruct (dseg_around _ _ _ _ _ Hd Hb Hnd) as (l1 & l2 & p0 & n & HF & Hp & Hn & H1 & H2 & Hb0 & Htb).
  assert (Hnodes : nodes N (l1 ++ b :: l2)) by (rewrite <- HF; split; [done|]; split; [done|]; by apply HN).
  destruct (dseg_cut N m t q l1 b l2 p0 n Hnodes H1 H2) as [[q' Hq'] Hm'].
  assert (Hrm : list_rm b (F f s) = l1 ++ l2) by by (rewrite HF in Hnd |- *; apply list_rm_middle).
  rewrite Hrm in HQ. rewrite <- HF in Hm'. pose proof (HN _ _ _ Hb) as HNb.
  assert (Hlinks : forall x, x = p0 \/ x = n -> x <> 0 -> has m (free_prev_at x) /\ has m (free_next_at x) /\ x <> b /\ N x).
  { intros x Hx Hx0. destruct (dseg_near _ _ _ _ _ _ _ _ _ H1 H2 Hx Hx0) as [Hin12 Hneq]; [by rewrite <- HF|].
    assert (x ∈ F f s) by (rewrite HF; set_solver). destruct (dseg_links _ _ _ _ _ _ x Hd); [done|]. eauto. }
  assert (Hbb : free_prev_at b <> free_next_at b) by by apply Hspread.
  apply wp_bind. eapply wp_rd; [exact Hn|].
  (* the links around [b] *)
  apply wp_bind. set (m1 := if decide (n <> 0) then wr m (free_prev_at n) p0 else m).
  assert (E1 : rd m1 (free_prev_at b) = Some p0 /\ rd m1 (free_next_at b) = Some n).
  { unfold m1. destruct (decide (n <> 0)) as [Hn0|]; [|done]. destruct (Hlinks n ltac:(auto) Hn0) as (_ & _ & Hne & HNn).
    destruct (link_wr_ne N m n b p0 Hspread HNn HNb Hne) as [[-> ->] _]. done. }
  assert (W1 : wp (if decide (n <> 0) then prev ← word_get (free_prev_at b); hset (free_prev_at n) prev else mret tt)
    (fun _ s' => s' = put st m1 h) (put st m h)).
  { unfold m1. destruct (decide (n <> 0)) as [Hn0|]; [|by apply wp_ret]. apply wp_bind. eapply wp_rd; [done|].
    apply wp_hset; [by apply Hlinks; auto|done]. }
  eapply wp_mono; [exact W1|]. intros _ s' ->. apply wp_bind. eapply wp_rd; [apply E1|]. apply wp_bind.
  set (m2 := unlinked m p0 n).
  assert (E2 : rd m2 (free_next_at b) = Some n /\ has m2 (free_prev_at b)).
  { unfold m2, unlinked. fold m1. destruct (decide (p0 <> 0)) as [Hp0|]; [|split; [apply E1|by eexists; apply E1]].
    destruct (Hlinks p0 ltac:(auto) Hp0) as (_ & _ & Hne & HNp).
    destruct (link_wr_ne N m1 p0 b n Hspread HNp HNb Hne) as [_ [F1 F2]]. rewrite F2. split; [apply E1|].
    eexists. rewrite F1. apply E1. }
  assert (W2 : wp (if decide (p0 <> 0) then next ← word_get (free_next_at b); hset (free_next_at p0) next else mret tt)
    (fun _ s' => s' = put st m2 h) (put st m1 h)).
  { unfold m2, unlinked. fold m1. destruct (decide (p0 <> 0)) as [Hp0|]; [|by apply wp_ret]. apply wp_bind.
    eapply wp_rd; [apply E1|]. apply wp_hset; [|done]. unfold m1.
    destruct (decide (n <> 0)); [apply has_wr|]; by apply Hlinks; auto. }
  eapply wp_mono; [exact W2|]. intros _ s' ->. apply wp_bind. eapply wp_tbl_get; [done..|]. apply wp_bind.
  (* the head *)
  assert (Hbt : Z.testbit w s = true) by (rewrite Hbit, HF; apply bool_decide_true; by destruct l1).
  assert (Hemp : (t = b -> n = 0 <-> l1 ++ l2 = []) /\ (t <> b -> l1 ++ l2 <> [])) by by eapply dseg_empty.
  destruct E2 as [E2 E3]. apply (wp_retable b f s t n w (l1 ++ l2) m2 _ Hin Ht E2 Hw Hwr Hbt Hfl Hemp).
  intros h' w' Hrel Hre.
  apply wp_bind, wp_hset; [exact E3|]. apply wp_hset; [apply has_wr; by eexists|]. apply HQ; [|done|done].
  eapply (lists_change m h F f s _ _ h' _ q' w'); [done|done| |exact Hq'| |done].
  - eapply sublist_NoDup; [exact Hnd|]. rewrite HF. apply sublist_app; [done|by apply sublist_cons].
  - eapply list_other; [done|done|by right].
Qed.

(** The first block of a list leaves it. *)
Lemma wp_take_first b f s l Q : in_tbl f s -> F f s = b :: l ->
  list_done f s l (near b (F f s)) Q -> wp (take_first hd b f s) Q (put st m h).
Proof.
  intros Hin HF HQ. destruct (lists_tbl _ _ _ _ _ Hok Hin) as (t & q & Ht & Hd).
  destruct (lists_word _ _ _ _ _ Hok Hin) as (w & Hw & Hwr & Hbit & Hfl). pose proof (lo_nodup _ _ _ Hok f s) as Hnd.
  rewrite HF in Hd, Hnd, Hbit. cbn in Hd. destruct Hd as (-> & Hb0 & Hp & n & Hn & Hd).
  assert (Hnodes : nodes N ([] ++ b :: l)) by (cbn; rewrite <- HF; split; [done|]; split; [by rewrite HF|by apply HN]).
  assert (H1 : dseg m 0 b 0 b []) by done.
  destruct (dseg_cut N m b q [] b l 0 n Hnodes H1 Hd) as [[q' Hq'] Hm']. cbn in Hm'. rewrite <- HF in Hm'.
  rewrite decide_True in Hq' by done. assert (HNb : N b) by (apply (HN f s); rewrite HF; left).
  apply wp_bind. eapply wp_rd; [done|]. apply wp_bind. eapply wp_tbl_set; [done..|]. intros h1 Hh1 Htbl.
  apply wp_bind. eapply (wp_tbl_get f s n); [done|rewrite Htbl by done; by rewrite decide_True by done|]. apply wp_bind.
  assert (Hun : unlinked m 0 n = if decide (n <> 0) then wr m (free_prev_at n) 0 else m) by (unfold unlinked; by rewrite (decide_False (P := 0 <> 0)) by auto).
  assert (Hup : has (unlinked m 0 n) (free_prev_at b) /\ has (unlinked m 0 n) (free_next_at b)).
  { rewrite Hun. destruct (decide (n <> 0)); split; rewrite ?Hun; try apply has_wr; by eexists. }
  assert (Hend : forall h' w', relist h h' -> rehead h h' f s n w' (bool_decide (l <> [])) ->
    wp (hset (free_prev_at b) 0;; hset (free_next_at b) 0) Q (put st (unlinked m 0 n) h')).
  { intros h' w' Hrel Hre. apply wp_bind, wp_hset; [apply Hup|]. apply wp_hset; [apply has_wr, Hup|].
    apply NoDup_cons in Hnd as [_ Hnd]. apply HQ; [|done|done]. eapply (lists_change m h F f s _ _ h' _ q' w'); try done.
    eapply list_other; [done|done|right; rewrite HF; left]. }
  destruct (lo_fl _ _ _ Hok) as [Hfr _]. assert (Hf0 : 0 <= f) by (destruct Hin; lia).
  assert (Hl : n = 0 <-> l = []) by by eapply dseg_first.
  destruct (decide (n <> 0)) as [Hn0|Hn0].
  - assert (Hhn : has m (free_prev_at n)).
    { destruct l as [|d l]; [tauto|]. cbn in Hd. destruct Hd as (-> & _ & Hpd & _). by eexists. }
    apply wp_hset; [done|]. rewrite <- Hun. subst h1. eapply Hend; [done|].
    rewrite bool_decide_true by tauto. by apply (rehead_kept _ f s n w).
  - assert (n = 0) as -> by lia. rewrite Hun in Hend. subst h1.
    eapply (wp_clear_bits f s w); try done. intros w' fl' Hw' Hfl'. eapply Hend; [done|].
    rewrite bool_decide_false by tauto. by apply (rehead_words _ f s 0 w).
Qed.

End list_ops.

(** ** Looking for a list that is not empty *)

Lemma low_bit_exists w : 0 < w < 2 ^ 32 -> exists n, 0 <= n < 32 /\ low_bit w n.
Proof.
  intros Hw. assert (Hk : forall k : nat, (exists n, 0 <= n < Z.of_nat k /\ low_bit w n) \/ forall i, 0 <= i < Z.of_nat k -> Z.testbit w i = false).
  { induction k as [|k [(n & Hn & Hl)|Hz]]; [right; lia|left; exists n; split; [lia|done]|].
    destruct (Z.testbit w (Z.of_nat k)) eqn:Hb.
    - left. exists (Z.of_nat k). split; [lia|]. split; [lia|]. by split.
    - right. intros i Hi. destruct (decide (i = Z.of_nat k)) as [->|]; [done|]. apply Hz. lia. }
  destruct (Hk 32%nat) as [(n & Hn & Hl)|Hz]; [by exists n|]. exfalso.
  assert (w = 0); [|lia]. apply Z.bits_inj'. intros i Hi. rewrite Z.testbit_0_l.
  destruct (decide (i < 32)); [apply Hz; lia|]. apply (testbit_above 32); lia.
Qed.

(** the bits of [w] from [s] on *)
Lemma masked_bit w s i : 0 <= s -> 0 <= i < 32 ->
  Z.testbit (Z.land w (wrap 32 (Z.shiftl (-1) s))) i = Z.testbit w i && bool_decide (s <= i).
Proof.
  intros Hs Hi. rewrite Z.land_spec. f_equal. unfold wrap. rewrite Z.mod_pow2_bits_low by lia.
  rewrite Z.shiftl_spec by lia. case_bool_decide.
  - replace (-1) with (Z.lnot 0) by done. by rewrite Z.lnot_spec, Z.testbit_0_l by lia.
  - by rewrite Z.testbit_neg_r by lia.
Qed.

(** The scan of the masked word gives its lowest bit from [s] on, if there is one. *)
Lemma masked_scan w s st : 0 <= w < 2 ^ 32 -> 0 <= s ->
  let tmp := Z.land w (wrap 32 (Z.shiftl (-1) s)) in
  (tmp = 0 /\ forall i, s <= i < 32 -> Z.testbit w i = false) \/
  (tmp <> 0 /\ exists i, s <= i < 32 /\ Z.testbit w i = true /\ find_last_bit (swrap 32 tmp) st = Some (i, st)).
Proof.
  intros Hw Hs tmp. pose proof (land_range w (wrap 32 (Z.shiftl (-1) s)) Hw) as Hr. fold tmp in Hr.
  destruct (decide (tmp = 0)) as [H0|H0].
  - left. split; [done|]. intros i Hi. pose proof (masked_bit w s i Hs ltac:(lia)) as Hb. fold tmp in Hb.
    rewrite H0, Z.testbit_0_l, bool_decide_true, andb_true_r in Hb by lia. done.
  - right. split; [done|]. destruct (low_bit_exists tmp ltac:(lia)) as (i & Hi & Hl). exists i.
    pose proof Hl as (_ & Hb & _). unfold tmp in Hb. rewrite masked_bit in Hb by lia.
    apply andb_true_iff in Hb as [Hb Hsi]. apply bool_decide_eq_true in Hsi. split; [lia|]. split; [done|].
    apply find_last_bit_eq; [done|]. by rewrite wrap_small.
Qed.

(** The search gives the first block of a list of the class or a higher one, unless all of
    these are empty. *)
Lemma wp_findblk f s F m h (Q : Z * Z * Z -> kstate -> Prop) st :
  lists_ok m h F -> in_tbl f s ->
  (forall b f' s' l, in_tbl f' s' -> class_le (f, s) (f', s') -> F f' s' = b :: l -> b <> 0 -> Q (b, f', s') (put st m h)) ->
  ((forall f' s', in_tbl f' s' -> class_le (f, s) (f', s') -> F f' s' = []) -> forall f' s', Q (0, f', s') (put st m h)) ->
  wp (findblk_byidx hd f s) Q (put st m h).
Proof.
  intros Hok Hin Hfound Hnone. destruct (lists_word _ _ _ _ _ Hok Hin) as (w & Hw & Hwr & _ & _).
  assert (Hsl : SLT_SIZE = 32) by done. pose proof cfg_mm_bits as Hmm.
  assert (Hfl : FLT_SIZE <= 24) by (unfold FLT_SIZE, MIN_FLT_BIT, MAX_MM_BIT; lia).
  assert (Hget : forall f' s' w', in_tbl f' s' -> class_le (f, s) (f', s') -> sl_bitmap h !! Z.to_nat f' = Some w' ->
    Z.testbit w' s' = true -> wp (find ← tbl_get hd f' s'; mret (find, f', s')) Q (put st m h)).
  { intros f' s' w' Hin' Hle Hw' Hb. destruct (lists_tbl _ _ _ _ _ Hok Hin') as (t & q & Ht & Hd).
    destruct (lo_sl _ _ _ Hok f' w' Hw') as [_ Hs']. rewrite Hs' in Hb by done. apply bool_decide_eq_true in Hb.
    apply wp_bind. eapply wp_tbl_get; [done..|]. apply wp_ret.
    destruct (F f' s') as [|a l] eqn:HF; [done|]. cbn in Hd. destruct Hd as (-> & Ha0 & _). by eapply Hfound. }
  destruct Hin as [Hf Hs]. apply wp_bind. eapply (wp_sl_get f w); [lia|done|].
  destruct (masked_scan w s (put st m h) Hwr ltac:(lia)) as [[H0 Hz]|(H0 & i & Hi & Hb & Hrun)].
  2: { rewrite decide_True by done. apply wp_bind. eapply wp_eq; [exact Hrun|].
    apply (Hget f i w); [split; lia|right; cbn; lia|done|done]. }
  rewrite decide_False by auto. apply wp_bind, wp_mm_get, wp_bind. destruct (lo_fl _ _ _ Hok) as [Hfr Hfb].
  assert (Hrow : forall f' s', in_tbl f' s' -> f' = f -> s <= s' -> F f' s' = []).
  { intros f' s' Hin' -> Hle. destruct (lo_sl _ _ _ Hok f w Hw) as [_ Hs']. specialize (Hs' s' Hin').
    rewrite Hz in Hs' by (destruct Hin'; lia). symmetry in Hs'. apply bool_decide_eq_false in Hs'.
    by destruct (F f s') as [|? ?]; [|destruct Hs']. }
  destruct (masked_scan (fl_bitmap h) (f + 1) (put st m h) Hfr ltac:(lia)) as [[G0 Gz]|(G0 & i & Hi & Hb & Hrun')].
  - rewrite G0. change (swrap 32 0) with 0. eapply (wp_eq _ 0); [done|]. rewrite decide_False by lia. apply wp_ret.
    apply Hnone. intros f' s' Hin' [Hle|[He Hle]]; cbn in *; [|by apply Hrow].
    destruct (lists_word _ _ _ _ _ Hok Hin') as (w' & Hw' & _ & Hb' & Hfb'). rewrite Gz in Hfb' by (destruct Hin'; lia).
    symmetry in Hfb'. apply bool_decide_eq_false in Hfb'. assert (w' = 0) as -> by lia.
    rewrite Z.testbit_0_l in Hb'. symmetry in Hb'. apply bool_decide_eq_false in Hb'.
    by destruct (F f' s') as [|? ?]; [|destruct Hb'].
  - eapply wp_eq; [exact Hrun'|]. rewrite decide_True by lia. apply Hfb in Hb as (Hif & w' & Hw' & Hw0); [|lia].
    apply wp_bind. eapply (wp_sl_get i w'); [lia|done|]. destruct (lo_sl _ _ _ Hok i w' Hw') as [Hwr' _].
    destruct (low_bit_exists w' ltac:(lia)) as (j & Hj & Hl). apply wp_bind.
    eapply (wp_eq _ j); [apply find_last_bit_eq; [done|by rewrite wrap_small]|]. destruct Hl as (_ & Hb & _).
    apply (Hget i j w'); [split; lia|left; cbn; lia|done|done].
Qed.

End heap_list.
End HeapList.
