(* ===== verification/HeapInv.v ===== *)
(** * What a heap is

    The logical description of a heap: a map from the addresses of the headers to the size
    and the state of each block, the windows of memory the blocks lie in, and the free lists;
    and how the memory represents them.  While a call works on blocks, these are in a set [X]
    of blocks that are in no list and whose neighbours need not know their state. *)
From S2P Require Import Prelude Config Bitmap Kernel Sched Queue Mblk Heap HeapClass HeapList.
Import Bitmap Queue Mblk Heap HeapClass HeapList.

Module HeapInv.

(** ** The word of the size *)

Section low_bits.

Lemma low_split q r : 0 <= r < 4 -> q * 4 + r = Z.lor (Z.shiftl q 2) r.
Proof.
  intros Hr. apply Z.bits_inj'. intros i Hi. rewrite Z.lor_spec, Z.shiftl_spec by lia.
  destruct (decide (i < 2)) as [Hlt|Hge].
  - rewrite (Z.testbit_neg_r q) by lia. cbn. replace (q * 4 + r) with (r + q * 2 ^ 2) by lia.
    rewrite <- (Z.mod_pow2_bits_low _ 2), Z.mod_add, Z.mod_pow2_bits_low by lia. done.
  - rewrite (testbit_above 2 r), orb_false_r by lia. replace i with ((i - 2) + 2) at 1 by lia.
    rewrite <- Z.div_pow2_bits by lia. f_equal. change (2 ^ 2) with 4.
    symmetry. apply (Z.div_unique _ _ _ r); lia.
Qed.

Lemma land_shift_low q c : 0 <= c < 4 -> Z.land (Z.shiftl q 2) c = 0.
Proof.
  intros Hc. apply Z.bits_inj'. intros i Hi. rewrite Z.land_spec, Z.shiftl_spec, Z.testbit_0_l by lia.
  destruct (decide (i < 2)); [by rewrite Z.testbit_neg_r by lia|]. rewrite (testbit_above 2 c) by lia. apply andb_false_r.
Qed.

Lemma land_low q r c : 0 <= r < 4 -> 0 <= c < 4 -> Z.land (q * 4 + r) c = Z.land r c.
Proof. intros. rewrite low_split by done. by rewrite Z.land_lor_distr_l, land_shift_low. Qed.

Lemma lor_low q r c : 0 <= r < 4 -> 0 <= c < 4 -> 0 <= Z.lor r c < 4 -> Z.lor (q * 4 + r) c = q * 4 + Z.lor r c.
Proof. intros. by rewrite !low_split, Z.lor_assoc by done. Qed.

Lemma clear_low q r c : 0 <= r < 4 -> 0 <= c < 4 -> 0 <= Z.land r (Z.lnot c) < 4 ->
  Z.land (q * 4 + r) (Z.lnot c) = q * 4 + Z.land r (Z.lnot c).
Proof.
  intros. rewrite !low_split, Z.land_lor_distr_l by done. f_equal.
  apply Z.bits_inj'. intros i Hi. rewrite Z.land_spec, Z.lnot_spec, Z.shiftl_spec by lia.
  destruct (decide (i < 2)); [by rewrite Z.testbit_neg_r by lia|]. rewrite (testbit_above 2 c) by lia. apply andb_true_r.
Qed.

(** Masking the low [k] bits off a 32-bit word. *)
Lemma land_high w k : 0 <= w < 2 ^ 32 -> 0 <= k <= 32 -> Z.land w (2 ^ 32 - 2 ^ k) = (w / 2 ^ k) * 2 ^ k.
Proof.
  intros Hw Hk. pose proof (pow2_pos k ltac:(lia)). assert (Hm : 2 ^ 32 - 2 ^ k = Z.shiftl (Z.ones (32 - k)) k).
  { rewrite Z.shiftl_mul_pow2, Z.ones_equiv by lia. replace (2 ^ 32) with (2 ^ (32 - k) * 2 ^ k) by (rewrite <- Z.pow_add_r by lia; f_equal; lia).
    rewrite <- Z.sub_1_r. lia. }
  rewrite Hm. apply Z.bits_inj'. intros i Hi. rewrite Z.land_spec, Z.shiftl_spec by lia.
  destruct (decide (i < k)).
  - rewrite (Z.testbit_neg_r (Z.ones _)), Z.mul_pow2_bits_low by lia. apply andb_false_r.
  - rewrite Z.mul_pow2_bits by lia. rewrite Z.div_pow2_bits by lia. replace (i - k + k) with i by lia.
    destruct (decide (i < 32)); [rewrite Z.ones_spec_low by lia; apply andb_true_r|].
    by rewrite (testbit_above 32 w) by lia.
Qed.

End low_bits.

(** the cases of a lookup in an updated map *)
Ltac map_cases :=
  repeat match goal with
  | H : <[_ := _]> _ !! _ = Some _ |- _ => apply lookup_insert_Some in H as [[? ?]|[? H]]; [subst|]
  | H : delete _ _ !! _ = Some _ |- _ => apply lookup_delete_Some in H as [? H]
  end.

Section heap_inv.
Context {cfg : RhinoConfig} (hd : addr).

(** a multiple of the size of a pointer *)
Definition al (a : Z) : Prop := (ptr_size | a).

Lemma ptr_cases : ptr_size = 4 \/ ptr_size = 8.
Proof. unfold ptr_size. destruct cfg_size_bits as [-> | ->]; [by left|by right]. Qed.

Lemma head_size : MMLIST_HEAD_SIZE = 4 * ptr_size.
Proof. unfold MMLIST_HEAD_SIZE, sizeof_mm_list, sizeof_free_ptr. lia. Qed.

Lemma al_mod a : al a <-> a mod ptr_size = 0.
Proof. unfold al. symmetry. apply Z.mod_divide. destruct ptr_cases as [-> | ->]; lia. Qed.

Lemma al_4 a : al a -> exists q, a = q * 4.
Proof. intros [k ->]. destruct ptr_cases as [-> | ->]; [by exists k|exists (k * 2); lia]. Qed.

Lemma align_mask : exists k, (k = 2 \/ k = 3) /\ ptr_size = 2 ^ k /\ MM_ALIGN_MASK = Z.ones k /\ RHINO_MM_BLKSIZE_MASK = 2 ^ 32 - 2 ^ k.
Proof.
  unfold RHINO_MM_BLKSIZE_MASK, MM_ALIGN_MASK. destruct ptr_cases as [-> | ->]; [exists 2|exists 3]; repeat split; auto.
Qed.

Lemma blksize_eq sz r : al sz -> 0 <= sz < 2 ^ 31 -> 0 <= r < 4 -> blksize (sz + r) = sz.
Proof.
  intros [q ->] Hsz Hr. unfold blksize. destruct align_mask as (k & Hk & Hp & _ & ->). rewrite Hp in *.
  assert (Hk4 : 4 <= 2 ^ k) by (destruct Hk as [-> | ->]; lia).
  assert (Hr32 : 0 <= q * 2 ^ k + r < 2 ^ 32) by lia. rewrite land_high by lia.
  f_equal. symmetry. apply (Z.div_unique _ _ _ r); lia.
Qed.

Lemma align_down_eq a : 0 <= a -> MM_ALIGN_DOWN a = a - a mod ptr_size.
Proof.
  intros Ha. unfold MM_ALIGN_DOWN. destruct align_mask as (k & Hk & -> & -> & _).
  assert (Hk0 : 0 <= k) by lia. change (Z.land a (Z.lnot (Z.ones k))) with (Z.ldiff a (Z.ones k)) || rewrite <- Z.ldiff_land.
  rewrite Z.ldiff_ones_r, Z.shiftl_mul_pow2, Z.shiftr_div_pow2 by lia.
  pose proof (Z.div_mod a (2 ^ k)). pose proof (pow2_pos k). lia.
Qed.

Lemma align_down_id a : 0 <= a -> al a -> MM_ALIGN_DOWN a = a.
Proof. intros Ha Hal%al_mod. rewrite align_down_eq, Hal by done. lia. Qed.

Lemma align_up_eq a : 0 <= a -> a + 7 < 2 ^ size_bits -> a <= MM_ALIGN_UP a < a + ptr_size /\ al (MM_ALIGN_UP a).
Proof.
  intros Ha Hb. assert (Hm : MM_ALIGN_UP a = MM_ALIGN_DOWN (a + (ptr_size - 1))).
  { unfold MM_ALIGN_UP, MM_ALIGN_DOWN, MM_ALIGN_MASK. rewrite wrap_small; [done|]. destruct ptr_cases as [-> | ->]; lia. }
  pose proof ptr_cases as Hp. rewrite Hm, align_down_eq by (destruct Hp as [-> | ->]; lia).
  pose proof (Z.mod_pos_bound (a + (ptr_size - 1)) ptr_size ltac:(destruct Hp; lia)) as Hr.
  pose proof (Z.div_mod (a + (ptr_size - 1)) ptr_size ltac:(destruct Hp; lia)) as Hd. split; [lia|].
  exists ((a + (ptr_size - 1)) / ptr_size). lia.
Qed.

Lemma align_up_id a : 0 <= a -> a + 7 < 2 ^ size_bits -> al a -> MM_ALIGN_UP a = a.
Proof.
  intros Ha Hb Hal. destruct (align_up_eq a Ha Hb) as [H1 H2]. destruct Hal as [q Hq], H2 as [q' Hq'].
  destruct ptr_cases as [Hp|Hp]; rewrite Hp in *; lia.
Qed.

(** ** Blocks and windows *)

Record blk := mk_blk {
  bsz : Z;                          (* bytes behind the header *)
  bfree : bool;
  bpf : bool;                       (* the block before it is free *)
}.
#[export] Instance blk_settable : Settable blk := fun b => mk_blk (bsz b) (bfree b) (bpf b).

Definition blk_end (a : Z) (b : blk) : Z := a + MMLIST_HEAD_SIZE + bsz b.
Definition flag_bits (b : blk) : Z := (if bfree b then 1 else 0) + (if bpf b then 2 else 0).
Definition sizeword (b : blk) : Z := bsz b + flag_bits b.
Definition dye_of (b : blk) : Z := if bfree b then RHINO_MM_FREE_DYE else RHINO_MM_CORRUPT_DYE.

Lemma flag_range b : 0 <= flag_bits b < 4.
Proof. unfold flag_bits. destruct (bfree b), (bpf b); lia. Qed.

(** Windows are apart, and none is larger than the heap can manage. *)
Record win_ok (W : list (Z * Z)) : Prop := {
  wn_apart : forall v w, v ∈ W -> w ∈ W -> v = w \/ v.2 < w.1 \/ w.2 < v.1;
  wn_range : forall w, w ∈ W -> 0 < w.1 /\ w.2 - w.1 <= MAX_MM_SIZE /\ w.2 + 8 < 2 ^ size_bits;
}.

(** [G] are the blocks; those of [X] are being worked on. *)
Record layout (W : list (Z * Z)) (X : gset Z) (G : gmap Z blk) : Prop := {
  ly_blk : forall a b, G !! a = Some b -> al a /\ al (bsz b) /\ 0 <= bsz b /\ (bfree b = true -> 2 * ptr_size <= bsz b) /\
    exists w, w ∈ W /\ w.1 <= a /\ blk_end a b <= w.2;
  ly_sep : forall a b c d, G !! a = Some b -> G !! c = Some d -> a < c -> blk_end a b <= c;
  ly_next : forall a b, G !! a = Some b -> 0 < bsz b ->
    exists d, G !! blk_end a b = Some d /\ (a ∉ X -> bpf d = bfree b);
  ly_prev : forall c d, G !! c = Some d -> bpf d = true -> (bfree d = false \/ c ∈ X) /\
    exists a b, G !! a = Some b /\ blk_end a b = c /\ (bfree b = true \/ a ∈ X);
  ly_cover : forall w y, w ∈ W -> w.1 <= y < w.2 -> exists a b, G !! a = Some b /\ a <= y < blk_end a b;
}.

(** What is closed by lia about the sizes of headers. *)
Lemma sizes : MMLIST_HEAD_SIZE = 4 * ptr_size /\ 4 <= ptr_size.
Proof. split; [apply head_size|]. destruct ptr_cases; lia. Qed.

Lemma layout_mono W X X' G : X ⊆ X' -> layout W X G -> layout W X' G.
Proof.
  intros HX []. split; [done|done| | |done].
  - intros a b Ha Hs. destruct (ly_next0 a b Ha Hs) as (d & Hd & Hp). exists d. split; [done|]. intros Hx. apply Hp. set_solver.
  - intros c d Hc Hd. destruct (ly_prev0 c d Hc Hd) as (H1 & a & b & Ha & He & H2). split; [set_solver|].
    exists a, b. set_solver.
Qed.

Lemma layout_end_inj W X G a b c d : layout W X G -> G !! a = Some b -> G !! c = Some d ->
  blk_end a b = blk_end c d -> a = c.
Proof.
  intros [] Ha Hc He. pose proof sizes. destruct (ly_blk0 c d Hc) as (_ & _ & ? & _). destruct (ly_blk0 a b Ha) as (_ & _ & ? & _).
  destruct (Z.lt_trichotomy a c) as [Hl|[?|Hl]]; [|done|].
  - pose proof (ly_sep0 _ _ _ _ Ha Hc Hl). unfold blk_end in *. lia.
  - pose proof (ly_sep0 _ _ _ _ Hc Ha Hl). unfold blk_end in *. lia.
Qed.

(** Neighbours lie in the same window. *)
Lemma layout_window W X G a b d : win_ok W -> layout W X G -> G !! a = Some b -> G !! blk_end a b = Some d ->
  exists w, w ∈ W /\ w.1 <= a /\ blk_end (blk_end a b) d <= w.2.
Proof.
  intros [Hap _] [] Ha Hd. pose proof sizes. destruct (ly_blk0 _ _ Ha) as (_ & _ & ? & _ & w & Hw & H1 & H2).
  destruct (ly_blk0 _ _ Hd) as (_ & _ & ? & _ & v & Hv & H3 & H4). exists w. split; [done|]. split; [done|].
  destruct (Hap w v Hw Hv) as [->|[Hlt|Hlt]]; [done|lia|]. unfold blk_end in *. lia.
Qed.

(** The size of a block fits its word. *)
Lemma layout_size W X G a b : win_ok W -> layout W X G -> G !! a = Some b ->
  0 < a /\ bsz b + MMLIST_HEAD_SIZE <= MAX_MM_SIZE /\ blk_end a b + 8 < 2 ^ size_bits.
Proof.
  intros [_ Hr] [] Ha. destruct (ly_blk0 _ _ Ha) as (_ & _ & ? & _ & w & Hw & H1 & H2). destruct (Hr w Hw) as (? & ? & ?).
  unfold blk_end in *. lia.
Qed.

(** ** Steps on the blocks *)

(** [a] is marked as free, and is being worked on from now on. *)
Lemma layout_mark W G a b : layout W ∅ G -> G !! a = Some b -> 2 * ptr_size <= bsz b ->
  layout W {[a]} (<[a := b <| bfree := true |>]> G).
Proof.
  intros Hly Ha Hs. pose proof Hly as [].
  assert (Hold : forall x y, <[a := b <| bfree := true |>]> G !! x = Some y ->
    exists y0, G !! x = Some y0 /\ bsz y = bsz y0 /\ bpf y = bpf y0 /\ (x <> a -> y = y0)).
  { intros x y Hx. map_cases; [by exists b|by exists y]. }
  assert (Hnew : forall x y, G !! x = Some y -> exists y', <[a := b <| bfree := true |>]> G !! x = Some y' /\
    bsz y' = bsz y /\ bpf y' = bpf y /\ (bfree y = true -> bfree y' = true)).
  { intros x y Hx. destruct (decide (x = a)) as [->|]; [rewrite lookup_insert_eq|rewrite lookup_insert_ne by done].
    - rewrite Ha in Hx. injection Hx as <-. by eexists.
    - by exists y. }
  split.
  - intros x y Hx. destruct (Hold x y Hx) as (y0 & Hx0 & Hsz & _ & Heq). unfold blk_end. rewrite Hsz.
    destruct (ly_blk0 x y0 Hx0) as (? & ? & ? & Hf & ?). repeat split; try done. intros Hfy.
    destruct (decide (x = a)) as [->|]; [rewrite Ha in Hx0; by injection Hx0 as <-|]. apply Hf. by rewrite <- Heq.
  - intros x y u v Hx Hu Hlt. destruct (Hold x y Hx) as (y0 & Hx0 & Hsz & _). destruct (Hold u v Hu) as (v0 & Hu0 & _).
    unfold blk_end. rewrite Hsz. by apply (ly_sep0 x y0 u v0).
  - intros x y Hx Hy. destruct (Hold x y Hx) as (y0 & Hx0 & Hsz & _ & Heq). unfold blk_end. rewrite Hsz in *.
    destruct (ly_next0 x y0 Hx0 Hy) as (d & Hd & Hp). destruct (Hnew _ _ Hd) as (d' & Hd' & _ & Hpd & _).
    exists d'. split; [done|]. rewrite Hpd. intros Hxa. rewrite Heq by set_solver. apply Hp. set_solver.
  - intros x y Hx Hp. destruct (Hold x y Hx) as (y0 & Hx0 & Hsz & Hpf & Heq). rewrite Hpf in Hp.
    destruct (ly_prev0 x y0 Hx0 Hp) as (H1 & u & v & Hu & Hue & H2). split.
    + destruct (decide (x = a)) as [->|Hxa]; [right; set_solver|]. rewrite Heq by done. left. set_solver.
    + destruct (Hnew u v Hu) as (v' & Hv' & Hsz' & _ & Hf'). exists u, v'. split; [done|].
      unfold blk_end in *. rewrite Hsz'. split; [done|]. left. apply Hf'. set_solver.
  - intros w y Hw Hy. destruct (ly_cover0 w y Hw Hy) as (u & v & Hu & Huy). destruct (Hnew u v Hu) as (v' & Hv' & Hsz & _).
    exists u, v'. unfold blk_end in *. by rewrite Hsz.
Qed.

(** [a] takes in the block [t] behind it. *)
Section join.
Context (W : list (Z * Z)) (G : gmap Z blk) (a t : Z) (b c : blk).
Hypothesis Hwin : win_ok W.
Hypothesis Hly : layout W {[a; t]} G.
Hypothesis Ha : G !! a = Some b.
Hypothesis Ht : G !! t = Some c.
Hypothesis He : blk_end a b = t.
Hypothesis Hc : 0 < bsz c.

Definition joined : blk := b <| bsz := bsz b + (bsz c + MMLIST_HEAD_SIZE) |>.
Definition join_map : gmap Z blk := delete t (<[a := joined]> G).

Lemma join_end : blk_end a joined = blk_end t c.
Proof. unfold blk_end in *. cbn. lia. Qed.

Lemma join_old x y : join_map !! x = Some y -> x <> t /\ (x = a /\ y = joined \/ x <> a /\ G !! x = Some y).
Proof. unfold join_map. intros Hx. map_cases; split; auto. Qed.

Lemma join_new x y : x <> t -> x <> a -> G !! x = Some y -> join_map !! x = Some y.
Proof. intros. unfold join_map. by rewrite lookup_delete_ne, lookup_insert_ne by done. Qed.

Lemma join_order : a < t.
Proof. pose proof sizes. destruct (ly_blk _ _ _ Hly a b Ha) as (_ & _ & ? & _). unfold blk_end in He. lia. Qed.

Lemma join_at : join_map !! a = Some joined.
Proof. pose proof join_order. unfold join_map. rewrite lookup_delete_ne by lia. apply lookup_insert_eq. Qed.

Lemma layout_join : layout W {[a]} join_map.
Proof.
  pose proof Hly as []. pose proof sizes as [HH Hp4]. pose proof join_order as Hat. pose proof join_end as Heq.
  destruct (ly_blk0 _ _ Ha) as (A1 & A2 & A3 & A4 & w & A5 & A6 & A7). destruct (ly_blk0 _ _ Ht) as (T1 & T2 & T3 & T4 & _).
  split.
  - intros x y Hx. destruct (join_old _ _ Hx) as [Hxt [[-> ->]|[Hxa Hx']]]; [|by apply ly_blk0]. split; [done|]. cbn.
    split; [apply Z.divide_add_r; [done|]; apply Z.divide_add_r; [done|]; rewrite HH; apply Z.divide_factor_r|].
    split; [lia|]. split; [intros Hf; specialize (A4 Hf); lia|]. rewrite Heq. rewrite <- He.
    destruct (layout_window W _ G a b c Hwin Hly Ha) as (v & ? & ? & ?); [by rewrite He|]. by exists v.
  - intros x y u v Hx Hu Hlt. destruct (join_old _ _ Hx) as [Hxt [[-> ->]|[Hxa Hx']]], (join_old _ _ Hu) as [Hut [[-> ->]|[Hua Hu']]].
    + lia.
    + rewrite Heq. pose proof (ly_sep0 _ _ _ _ Ha Hu' Hlt). apply (ly_sep0 t c u v); [done|done|lia].
    + by apply (ly_sep0 _ _ _ _ Hx' Ha).
    + by apply (ly_sep0 _ _ _ _ Hx' Hu').
  - intros x y Hx Hs. assert (Hend : exists d, G !! blk_end x y = Some d /\ (x <> a -> bpf d = bfree y) /\ blk_end x y <> t).
    { destruct (join_old _ _ Hx) as [Hxt [[-> ->]|[Hxa Hx']]].
      - destruct (ly_next0 t c Ht Hc) as (d & Hd & _). exists d. rewrite Heq. repeat split; [done..|]. unfold blk_end. lia.
      - destruct (ly_next0 x y Hx' Hs) as (d & Hd & Hpd). exists d. split; [done|]. split; [intros _; apply Hpd; set_solver|].
        intros Hxe. apply Hxa. apply (layout_end_inj W _ G x y a b Hly Hx' Ha). by rewrite Hxe. }
    destruct Hend as (d & Hd & Hpd & Hne). destruct (decide (blk_end x y = a)) as [Hxe|Hxe].
    + rewrite Hxe in *. exists joined. split; [apply join_at|]. rewrite Ha in Hd. injection Hd as <-. cbn. set_solver.
    + exists d. split; [by apply join_new|]. set_solver.
  - intros x y Hx Hp. assert (exists y0, G !! x = Some y0 /\ bpf y0 = true /\ bfree y0 = bfree y /\ x <> t) as (y0 & Hx0 & Hp0 & Hf0 & Hxt).
    { destruct (join_old _ _ Hx) as [Hxt [[-> ->]|[Hxa Hx']]]; [by exists b|by exists y]. }
    destruct (ly_prev0 x y0 Hx0 Hp0) as (H1 & u & v & Hu & Hue & H2). rewrite Hf0 in H1. split; [set_solver|].
    destruct (decide (u = t)) as [->|Hut].
    + exists a, joined. rewrite join_at, join_end. rewrite Ht in Hu. injection Hu as <-. set_solver.
    + destruct (decide (u = a)) as [->|Hua]; [rewrite Ha in Hu; injection Hu as <-; congruence|].
      exists u, v. split; [by apply join_new|]. set_solver.
  - intros w' y Hw' Hy. destruct (ly_cover0 w' y Hw' Hy) as (u & v & Hu & Huy). destruct (decide (u = t)) as [->|Hut].
    { exists a, joined. split; [apply join_at|]. rewrite Heq. rewrite Ht in Hu. injection Hu as <-. lia. }
    destruct (decide (u = a)) as [->|Hua]; [|exists u, v; split; [by apply join_new|done]].
    exists a, joined. split; [apply join_at|]. rewrite Heq. rewrite Ha in Hu. injection Hu as <-. rewrite He in Huy.
    pose proof sizes. unfold blk_end. lia.
Qed.
End join.

(** The block that was worked on is free, and the one behind it, in use, learns so. *)
Section close.
Context (W : list (Z * Z)) (G : gmap Z blk) (a : Z) (b d : blk).
Hypothesis Hly : layout W {[a]} G.
Hypothesis Ha : G !! a = Some b.
Hypothesis Hd : G !! blk_end a b = Some d.
Hypothesis Hs : 0 < bsz b.

Lemma close_order : a < blk_end a b.
Proof. pose proof sizes. unfold blk_end. lia. Qed.

(** Only [a] ends where [d] begins. *)
Lemma close_pred x y : G !! x = Some y -> blk_end x y = blk_end a b -> x = a.
Proof. intros Hx He. by apply (layout_end_inj W _ G x y a b Hly Hx Ha). Qed.

Definition flagged (f1 f2 : bool) : gmap Z blk :=
  <[a := b <| bfree := f1 |>]> (<[blk_end a b := d <| bpf := f2 |>]> G).

Lemma flagged_old f1 f2 x y : flagged f1 f2 !! x = Some y -> exists y0, G !! x = Some y0 /\ bsz y = bsz y0 /\
  (x = a /\ y = b <| bfree := f1 |> \/ x = blk_end a b /\ y = d <| bpf := f2 |> \/ x <> a /\ x <> blk_end a b /\ y = y0).
Proof.
  unfold flagged. intros Hx. map_cases; [exists b|exists d|exists y]; auto 10.
Qed.

Lemma flagged_new f1 f2 x y : G !! x = Some y -> exists y', flagged f1 f2 !! x = Some y' /\ bsz y' = bsz y /\
  (x = a /\ y = b /\ y' = b <| bfree := f1 |> \/ x = blk_end a b /\ y = d /\ y' = d <| bpf := f2 |> \/ x <> a /\ x <> blk_end a b /\ y' = y).
Proof.
  intros Hx. unfold flagged. pose proof close_order. destruct (decide (x = a)) as [->|Hxa].
  - rewrite lookup_insert_eq. rewrite Ha in Hx. injection Hx as <-. eexists; split; [done|]. auto 10.
  - rewrite lookup_insert_ne by done. destruct (decide (x = blk_end a b)) as [->|Hxn].
    + rewrite lookup_insert_eq. rewrite Hd in Hx. injection Hx as <-. eexists; split; [done|]. auto 10.
    + rewrite lookup_insert_ne by done. exists y. auto 10.
Qed.

(** Both ends of the boundary agree: [a] is marked as it is, in use or free. *)
Lemma layout_flag f : (f = true -> bfree b = true /\ bpf b = false /\ bfree d = false) -> layout W ∅ (flagged f f).
Proof.
  intros Hf. pose proof Hly as []. pose proof sizes. pose proof close_order. split.
  - intros x y Hx. destruct (flagged_old _ _ _ _ Hx) as (y0 & Hx0 & Hsz & Hc).
    destruct (ly_blk0 x y0 Hx0) as (? & ? & ? & Hfr & ?). unfold blk_end. rewrite Hsz. repeat split; try done.
    intros Hy. apply Hfr. destruct Hc as [[-> ->]|[[-> ->]|(_ & _ & ->)]]; cbn in *; [|by rewrite Hd in Hx0; injection Hx0 as <-|done].
    rewrite Ha in Hx0. injection Hx0 as <-. subst f. by destruct Hf.
  - intros x y u v Hx Hu Hlt. destruct (flagged_old _ _ _ _ Hx) as (y0 & Hx0 & Hsz & _).
    destruct (flagged_old _ _ _ _ Hu) as (v0 & Hu0 & _). unfold blk_end. rewrite Hsz. by apply (ly_sep0 x y0 u v0).
  - intros x y Hx Hy. destruct (flagged_old _ _ _ _ Hx) as (y0 & Hx0 & Hsz & Hc). unfold blk_end. rewrite Hsz in *.
    destruct (ly_next0 x y0 Hx0 Hy) as (e & He & Hp). destruct (flagged_new f f _ _ He) as (e' & He' & _ & Hce).
    exists e'. split; [done|]. intros _. destruct (decide (x = a)) as [->|Hxa].
    + rewrite Ha in Hx0. injection Hx0 as <-. destruct Hc as [[_ ->]|[[? _]|(? & _)]]; [|lia|done].
      destruct Hce as [(He0 & _)|[(_ & _ & ->)|(_ & Hne & _)]]; [fold (blk_end a b) in He0; lia|done|done].
    + assert (Hey : bfree y = bfree y0).
      { destruct Hc as [[-> _]|[[-> ->]|(_ & _ & ->)]]; [done| |done]. cbn. rewrite Hd in Hx0. by injection Hx0 as <-. }
      rewrite Hey, <- Hp by set_solver.
      destruct Hce as [(_ & -> & ->)|[(He0 & _)|(_ & _ & ->)]]; [done| |done].
      exfalso. apply Hxa. by apply (close_pred x y0).
  - intros x y Hx Hp. destruct (flagged_old _ _ _ _ Hx) as (y0 & Hx0 & Hsz & Hc). destruct (decide (x = blk_end a b)) as [->|Hxn].
    + destruct Hc as [[? _]|[[_ ->]|(_ & ? & _)]]; [lia| |done]. cbn in Hp. subst f. destruct Hf as (Hb1 & Hb2 & Hd1); [done|].
      split; [by left|]. exists a, (b <| bfree := true |>). unfold flagged. rewrite lookup_insert_eq. auto.
    + assert (Hp0 : bpf y0 = true /\ (x = a -> f = false) /\ (x <> a -> y = y0) /\ (x = a -> bfree y = f)).
      { destruct Hc as [[-> ->]|[[-> ->]|(? & _ & ->)]]; [|done|repeat split; done || intros; done].
        rewrite Ha in Hx0. injection Hx0 as <-. cbn in *. repeat split; try done. intros _. destruct f; [|done].
        destruct Hf as (_ & ? & _); congruence. }
      destruct Hp0 as (Hp0 & Hxa & Hxy & Hfa). destruct (ly_prev0 x y0 Hx0 Hp0) as (H1 & u & v & Hu & Hue & H2). split.
      * left. destruct (decide (x = a)) as [->|Hne]; [rewrite Hfa by done; by apply Hxa|]. rewrite Hxy by done. set_solver.
      * assert (Hua : u <> a) by (intros ->; rewrite Ha in Hu; injection Hu as <-; done).
        destruct (flagged_new f f _ _ Hu) as (v' & Hv' & Hsz' & Hcv). exists u, v'. unfold blk_end in *. rewrite Hsz'.
        split; [done|]. split; [done|]. left. destruct Hcv as [(? & _)|[(_ & -> & ->)|(_ & _ & ->)]]; [done|cbn; set_solver|set_solver].
  - intros w y Hw Hy. destruct (ly_cover0 w y Hw Hy) as (u & v & Hu & Huy). destruct (flagged_new f f _ _ Hu) as (v' & Hv' & Hsz & _).
    exists u, v'. unfold blk_end in *. by rewrite Hsz.
Qed.

(** [a] keeps [sz] bytes and is in use; the rest behind it is a free block. *)
Context (sz rest : Z).
Hypothesis Hsz : bsz b = sz + MMLIST_HEAD_SIZE + rest.
Hypothesis Hsz0 : 0 <= sz /\ al sz.
Hypothesis Hrest : 2 * ptr_size <= rest.
Hypothesis Hdf : bfree d = false.

Definition split_at : Z := a + MMLIST_HEAD_SIZE + sz.
Definition split_map : gmap Z blk :=
  <[a := mk_blk sz false (bpf b)]> (<[split_at := mk_blk rest true false]> (<[blk_end a b := d <| bpf := true |>]> G)).

Lemma split_order : a < split_at < blk_end a b /\ split_at + MMLIST_HEAD_SIZE + rest = blk_end a b.
Proof. pose proof sizes. unfold split_at, blk_end. lia. Qed.

Lemma split_fresh : G !! split_at = None.
Proof.
  destruct (G !! split_at) as [y|] eqn:Hy; [|done]. exfalso. pose proof split_order as [[H1 H2] _].
  pose proof (ly_sep _ _ _ Hly a b split_at y Ha Hy ltac:(lia)). lia.
Qed.

Lemma split_old x y : split_map !! x = Some y ->
  x = a /\ y = mk_blk sz false (bpf b) \/ x = split_at /\ y = mk_blk rest true false \/
  x = blk_end a b /\ y = d <| bpf := true |> \/ x <> a /\ x <> split_at /\ x <> blk_end a b /\ G !! x = Some y.
Proof. unfold split_map. intros Hx. map_cases; auto 10. Qed.

Lemma split_new x y : x <> a -> x <> blk_end a b -> G !! x = Some y -> split_map !! x = Some y.
Proof.
  intros. unfold split_map. rewrite !lookup_insert_ne; try done. intros Heq. rewrite <- Heq in *. by rewrite split_fresh in *.
Qed.

Lemma split_lookups : split_map !! a = Some (mk_blk sz false (bpf b)) /\ split_map !! split_at = Some (mk_blk rest true false) /\
  split_map !! blk_end a b = Some (d <| bpf := true |>).
Proof.
  pose proof split_order as [[H1 H2] _]. unfold split_map.
  rewrite lookup_insert_eq, !(lookup_insert_ne _ a), lookup_insert_eq, (lookup_insert_ne _ split_at), lookup_insert_eq by lia. done.
Qed.

Lemma layout_split : layout W ∅ split_map.
Proof.
  pose proof Hly as []. pose proof sizes as [HH Hp4]. pose proof split_order as [Hso Hse]. destruct split_lookups as (La & Lc & Ln).
  destruct (ly_blk0 a b Ha) as (A1 & A2 & A3 & _ & w & A5 & A6 & A7). destruct Hsz0 as [Hsz1 Hsz2].
  assert (HHal : al MMLIST_HEAD_SIZE) by (rewrite HH; apply Z.divide_factor_r).
  assert (Hral : al rest) by (replace rest with (bsz b - (sz + MMLIST_HEAD_SIZE)) by lia; apply Z.divide_sub_r; [done|by apply Z.divide_add_r]).
  split.
  - intros x y Hx. destruct (split_old _ _ Hx) as [[-> ->]|[[-> ->]|[[-> ->]|(_ & _ & _ & Hx')]]]; [| | |by apply ly_blk0].
    + repeat split; try done. exists w. unfold blk_end in *. cbn. repeat split; try done. lia.
    + unfold split_at. repeat split; cbn; try done; try lia; [by do 2 (apply Z.divide_add_r; [|done])|].
      exists w. repeat split; try done; [lia|]. unfold blk_end in *. cbn. unfold split_at in *. lia.
    + exact (ly_blk0 _ _ Hd).
  - intros x y u v Hx Hu Hlt. destruct (split_old _ _ Hx) as [[-> ->]|[[-> ->]|[[-> ->]|(Hxa & _ & Hxn & Hx')]]],
      (split_old _ _ Hu) as [[-> ->]|[[-> ->]|[[-> ->]|(Hua & _ & Hun & Hu')]]]; try lia.
    + unfold blk_end, split_at. cbn. lia.
    + unfold blk_end in *. cbn. lia.
    + pose proof (ly_sep0 _ _ _ _ Ha Hu' Hlt). unfold blk_end in *. cbn. lia.
    + unfold blk_end at 1. cbn. lia.
    + pose proof (ly_sep0 _ _ _ _ Ha Hu' ltac:(lia)). unfold blk_end at 1. cbn. lia.
    + by apply (ly_sep0 _ _ _ _ Hd Hu').
    + by apply (ly_sep0 _ _ _ _ Hx' Ha).
    + destruct (decide (x < a)) as [Hxl|]; [pose proof (ly_sep0 _ _ _ _ Hx' Ha Hxl); lia|].
      exfalso. pose proof (ly_sep0 _ _ _ _ Ha Hx' ltac:(lia)). lia.
    + by apply (ly_sep0 _ _ _ _ Hx' Hd).
    + by apply (ly_sep0 _ _ _ _ Hx' Hu').
  - assert (Hgen : forall x y, x <> a -> G !! x = Some y -> 0 < bsz y ->
      exists d', split_map !! blk_end x y = Some d' /\ bpf d' = bfree y).
    { intros x y Hxa Hx Hy. destruct (ly_next0 x y Hx Hy) as (e & He & Hp). specialize (Hp ltac:(set_solver)).
      destruct (decide (blk_end x y = a)) as [Hxe|Hxe].
      - rewrite Hxe in *. eexists. split; [exact La|]. cbn. by rewrite Ha in He; injection He as <-.
      - exists e. split; [|done]. apply split_new; [done| |done]. intros Heq. apply Hxa. by apply (close_pred x y). }
    intros x y Hx Hy. destruct (split_old _ _ Hx) as [[-> ->]|[[-> ->]|[[-> ->]|(Hxa & _ & _ & Hx')]]].
    + eexists. split; [exact Lc|done].
    + unfold blk_end at 1. cbn. rewrite Hse. eexists. split; [exact Ln|done].
    + destruct (Hgen (blk_end a b) d ltac:(lia) Hd Hy) as (e & He & Hp). exists e. by split.
    + destruct (Hgen x y Hxa Hx' Hy) as (e & He & Hp). by exists e.
  - assert (Hgen : forall x y, x <> blk_end a b -> G !! x = Some y -> bpf y = true -> exists u v, split_map !! u = Some v /\ blk_end u v = x /\ (bfree v = true \/ u ∈ (∅ : gset Z))).
    { intros x y Hxn Hx Hp. destruct (ly_prev0 x y Hx Hp) as (_ & u & v & Hu & Hue & H2).
      assert (Hua : u <> a) by (intros ->; rewrite Ha in Hu; injection Hu as <-; done).
      destruct (decide (u = blk_end a b)) as [->|Hun].
      - exists (blk_end a b), (d <| bpf := true |>). split; [done|]. rewrite Hd in Hu. injection Hu as <-. split; [done|]. cbn. set_solver.
      - exists u, v. split; [by apply split_new|]. split; [done|]. set_solver. }
    intros x y Hx Hp. destruct (split_old _ _ Hx) as [[-> ->]|[[-> ->]|[[-> ->]|(Hxa & _ & Hxn & Hx')]]]; cbn in *.
    + split; [by left|]. apply (Hgen a b); [lia|done|done].
    + done.
    + split; [by left|]. eexists _, _. split; [exact Lc|]. split; [exact Hse|by left].
    + split; [|by apply (Hgen x y)]. destruct (ly_prev0 x y Hx' Hp) as [H1 _]. set_solver.
  - intros w' y Hw' Hy. destruct (ly_cover0 w' y Hw' Hy) as (u & v & Hu & Huy). destruct (decide (u = a)) as [->|Hua].
    + rewrite Ha in Hu. injection Hu as <-. destruct (decide (y < split_at)).
      * eexists a, _. split; [exact La|]. unfold blk_end, split_at in *. cbn. lia.
      * eexists split_at, _. split; [exact Lc|]. unfold blk_end at 1. cbn. lia.
    + destruct (decide (u = blk_end a b)) as [->|Hub]; [|exists u, v; split; [by apply split_new|done]].
      rewrite Hd in Hu. injection Hu as <-. eexists _, _. split; [exact Ln|]. exact Huy.
Qed.
End close.

(** ** The heap in memory

    [P] are words that a call must not change, [m0] and [h0] the memory and the head it began
    with. *)

(** a word of no header, of no free block *)
Definition safe (G : gmap Z blk) (y : Z) : Prop :=
  forall a b, G !! a = Some b -> a <= y < blk_end a b -> bfree b = false /\ buffer_at a <= y.

Record heap_at (W : list (Z * Z)) (P : Z -> Prop) (m0 : gmap addr Z) (h0 : k_mm_head)
    (X : gset Z) (m : gmap addr Z) (h : k_mm_head) (G : gmap Z blk) (F : Z -> Z -> list Z) : Prop := {
  hp_win : win_ok W;
  hp_layout : layout W X G;
  hp_size : forall a b, G !! a = Some b -> rd m (size_at a) = Some (sizeword b);
  hp_dye : forall a b, G !! a = Some b -> rd m (dye_at a) = Some (dye_of b);
  hp_back : forall a b, G !! a = Some b -> bfree b = true -> a ∉ X -> rd m (prev_at (blk_end a b)) = Some a;
  hp_mem : forall w y, w ∈ W -> al y -> w.1 <= y < w.2 -> has m y;
  hp_lists : lists_ok m h F;
  hp_listed : forall f s a, a ∈ F f s <-> exists b, G !! a = Some b /\ bfree b = true /\ a ∉ X /\ size_class (bsz b) = (f, s);
  hp_safe : forall y, P y -> safe G y;
  hp_kept : forall y, P y -> rd m y = rd m0 y;
  hp_head : regioninfo h = regioninfo h0 /\ fixedmblk h = fixedmblk h0 /\ length (mm_size_stats h) = Z.to_nat MAX_MM_BIT;
}.

Arguments hp_win {_ _ _ _ _ _ _ _ _} _.
Arguments hp_layout {_ _ _ _ _ _ _ _ _} _.
Arguments hp_size {_ _ _ _ _ _ _ _ _} _.
Arguments hp_dye {_ _ _ _ _ _ _ _ _} _.
Arguments hp_back {_ _ _ _ _ _ _ _ _} _.
Arguments hp_mem {_ _ _ _ _ _ _ _ _} _.
Arguments hp_lists {_ _ _ _ _ _ _ _ _} _.
Arguments hp_listed {_ _ _ _ _ _ _ _ _} _.
Arguments hp_safe {_ _ _ _ _ _ _ _ _} _.
Arguments hp_kept {_ _ _ _ _ _ _ _ _} _.
Arguments hp_head {_ _ _ _ _ _ _ _ _} _.

#[local] Ltac offsets := unfold dye_at, owner_at, prev_at, size_at, free_prev_at, free_next_at, buffer_at, blk_end in *.

(** Words of different blocks are different. *)
Lemma word_ne W X G a b c d y z : layout W X G -> G !! a = Some b -> G !! c = Some d -> a <> c ->
  a <= y < blk_end a b -> c <= z < blk_end c d -> y <> z.
Proof.
  intros Hly Ha Hc Hne Hy Hz. destruct (decide (a < c)).
  - pose proof (ly_sep _ _ _ Hly a b c d Ha Hc ltac:(lia)). lia.
  - pose proof (ly_sep _ _ _ Hly c d a b Hc Ha ltac:(lia)). lia.
Qed.

(** blocks with room for links *)
Definition roomy (G : gmap Z blk) (a : Z) : Prop := exists b, G !! a = Some b /\ 2 * ptr_size <= bsz b.

Lemma roomy_spread W X G : layout W X G -> spread (roomy G).
Proof.
  intros Hly x y (b & Hx & Hb) (d & Hy & Hd) Heq. pose proof sizes.
  destruct (decide (x = y)) as [->|Hne]; [offsets; lia|].
  apply (word_ne W X G x b y d (free_prev_at x) (free_next_at y) Hly Hx Hy Hne); [offsets; lia..|done].
Qed.

(** A word of a header or of a free block. *)
Definition owned (G : gmap Z blk) (y : Z) : Prop :=
  exists a b, G !! a = Some b /\ a <= y < blk_end a b /\ (bfree b = true \/ y < buffer_at a).

Lemma owned_unsafe G y : owned G y -> safe G y -> False.
Proof. intros (a & b & Ha & Hy & Ho) Hs. destruct (Hs a b Ha Hy) as [Hf Hb]. destruct Ho; [congruence|lia]. Qed.

Lemma owned_hdr W X G a b y : layout W X G -> G !! a = Some b -> a <= y < buffer_at a -> owned G y.
Proof.
  intros Hly Ha Hy. pose proof sizes. destruct (ly_blk _ _ _ Hly a b Ha) as (_ & _ & ? & _).
  exists a, b. split; [done|]. offsets. split; [lia|right; lia].
Qed.

Lemma lists_frame m m' h F : lists_ok m h F ->
  (forall f s a, a ∈ F f s -> rd m' (free_prev_at a) = rd m (free_prev_at a) /\ rd m' (free_next_at a) = rd m (free_next_at a)) ->
  lists_ok m' h F.
Proof.
  intros [] Hm. split; try done. intros f s Hin. destruct (lo_dll0 f s Hin) as (t & q & Ht & Hd). exists t, q.
  split; [done|]. revert Hd. apply dseg_frame. intros a Ha. by eapply Hm.
Qed.

Lemma lists_head m h h' F : lists_ok m h F -> mm_tbl h' = mm_tbl h -> sl_bitmap h' = sl_bitmap h -> fl_bitmap h' = fl_bitmap h ->
  lists_ok m h' F.
Proof.
  intros [] Ht Hs Hf. split; try (rewrite ?Hs, ?Hf; done).
  intros f s Hin. unfold tbl_at. rewrite Ht. by apply lo_dll0.
Qed.

Section heap_steps.
Context (W : list (Z * Z)) (P : Z -> Prop) (m0 : gmap addr Z) (h0 : k_mm_head) (st : kstate).
Notation heap := (heap_at W P m0 h0).

Lemma heap_class X m h G F a b f s : heap X m h G F -> G !! a = Some b -> size_class (bsz b) = (f, s) ->
  0 <= bsz b < MAX_MM_SIZE /\ in_tbl f s.
Proof.
  intros Hh Ha Hc. pose proof sizes. destruct (layout_size _ _ _ _ _ (hp_win Hh) (hp_layout Hh) Ha) as (_ & H1 & _).
  destruct (ly_blk _ _ _ (hp_layout Hh) a b Ha) as (_ & _ & H2 & _).
  assert (0 <= bsz b < MAX_MM_SIZE) as Hr by lia. split; [done|]. by eapply class_range.
Qed.

Lemma heap_blksize X m h G F a b : heap X m h G F -> G !! a = Some b -> blksize (sizeword b) = bsz b.
Proof.
  intros Hh Ha. pose proof sizes. destruct (layout_size _ _ _ _ _ (hp_win Hh) (hp_layout Hh) Ha) as (_ & H1 & _).
  destruct (ly_blk _ _ _ (hp_layout Hh) a b Ha) as (_ & H3 & H2 & _).
  pose proof max_mm_bound. rewrite max_mm_size in H1. apply blksize_eq; [done|lia|apply flag_range].
Qed.

(** The next block in memory. *)
Lemma heap_next X m h G F a b : heap X m h G F -> G !! a = Some b -> NEXT_MM_BLK (buffer_at a) (bsz b) = blk_end a b.
Proof.
  intros Hh Ha. destruct (layout_size _ _ _ _ _ (hp_win Hh) (hp_layout Hh) Ha) as (H1 & _ & H2).
  destruct (ly_blk _ _ _ (hp_layout Hh) a b Ha) as (_ & _ & H3 & _). pose proof sizes.
  unfold NEXT_MM_BLK. rewrite wrap_small; offsets; lia.
Qed.

(** A word of a block exists. *)
Lemma heap_has X m h G F a b i : heap X m h G F -> G !! a = Some b -> 0 <= i * ptr_size < MMLIST_HEAD_SIZE + bsz b ->
  has m (a + i * ptr_size).
Proof.
  intros Hh Ha Hi. destruct (ly_blk _ _ _ (hp_layout Hh) a b Ha) as (Hal & _ & _ & _ & w & Hw & H1 & H2).
  apply (hp_mem Hh w); [done| |unfold blk_end in *; lia].
  apply Z.divide_add_r; [done|apply Z.divide_factor_r].
Qed.

Lemma free_size_flags b : sizeword b = bsz b + flag_bits b.
Proof. done. Qed.

(** What an operation on the list of a class needs of the blocks. *)
Lemma heap_listed X m h G F : heap X m h G F ->
  (forall f s a, a ∈ F f s -> roomy G a) /\ (forall f s f' s' a, a ∈ F f s -> a ∈ F f' s' -> (f', s') = (f, s)).
Proof.
  intros Hh. split.
  - intros f s a (b & Ha & Hfb & _)%(hp_listed Hh). exists b. split; [done|]. by apply (ly_blk _ _ _ (hp_layout Hh) a b Ha).
  - intros f1 s1 f2 s2 a (b & Ha & _ & _ & H1)%(hp_listed Hh) (b' & Ha' & _ & _ & H2)%(hp_listed Hh). congruence.
Qed.

(** A block that left its list is being worked on. *)
Lemma heap_left X m h G F t c f s m' h' : heap X m h G F -> G !! t = Some c -> bfree c = true -> size_class (bsz c) = (f, s) ->
  t ∈ F f s -> lists_ok m' h' (setF F f s (list_rm t (F f s))) -> relist h h' -> relink (near t (F f s)) m m' ->
  heap ({[t]} ∪ X) m' h' G (setF F f s (list_rm t (F f s))).
Proof.
  intros Hh Ht Hf Hc HtF Hl Hrel [Hm1 Hm2]. pose proof Hh as [].
  assert (Hhdr : forall y, ~ (exists a b, G !! a = Some b /\ bfree b = true /\ buffer_at a <= y < blk_end a b) -> rd m' y = rd m y).
  { intros y Hy. apply Hm1. intros n Hn. assert (n ∈ F f s) as Hn' by (destruct Hn as [->|Hn]; done).
    apply hp_listed0 in Hn' as (b & Hb & Hbf & _). pose proof sizes. destruct (ly_blk _ _ _ hp_layout0 n b Hb) as (_ & _ & _ & H2 & _).
    specialize (H2 Hbf). split; intros ->; apply Hy; exists n, b; offsets; (repeat split; [done..| |]); lia. }
  assert (Hword : forall a b y, G !! a = Some b -> a <= y < buffer_at a -> rd m' y = rd m y).
  { intros a b y Ha Hy. apply Hhdr. intros (a' & b' & Ha' & _ & Hy'). pose proof sizes.
    destruct (ly_blk _ _ _ hp_layout0 a b Ha) as (_ & _ & ? & _). destruct (decide (a = a')) as [->|Hne]; [lia|].
    apply (word_ne W X G a b a' b' y y hp_layout0 Ha Ha' Hne); [offsets; lia|offsets; lia|done]. }
  pose proof sizes as Hs4. split; try done.
  - eapply layout_mono; [|done]. set_solver.
  - intros a b Ha. rewrite (Hword a b); [by apply hp_size0|done|offsets; lia].
  - intros a b Ha. rewrite (Hword a b); [by apply hp_dye0|done|offsets; lia].
  - intros a b Ha Hb Hx. destruct (ly_next _ _ _ hp_layout0 a b Ha) as (d & Hd & _).
    { destruct (ly_blk _ _ _ hp_layout0 a b Ha) as (_ & _ & _ & H2 & _). specialize (H2 Hb). lia. }
    rewrite (Hword _ d _ Hd) by (offsets; lia). apply hp_back0; [done..|set_solver].
  - intros w y Hw Hy Hr'. apply Hm2. by eapply hp_mem0.
  - intros f' s' a. unfold setF. destruct (decide (f' = f /\ s' = s)) as [[-> ->]|Hne].
    + rewrite elem_of_list_rm, hp_listed0. set_solver.
    + rewrite hp_listed0. split; intros (b & H1 & H2 & H3 & H4); exists b; (repeat split; [done..| |done]); [|set_solver].
      intros [->%elem_of_singleton|]%elem_of_union; [|done]. apply Hne. rewrite Ht in H1. injection H1 as <-. rewrite Hc in H4. by injection H4.
  - intros y Hy. rewrite Hhdr; [by apply hp_kept0|]. intros (a & b & Ha & Hb & Hy'). pose proof sizes.
    destruct (hp_safe0 y Hy a b Ha) as [? _]; [offsets; lia|congruence].
  - unfold relist in Hrel. rewrite Hrel. done.
Qed.

(** A free block leaves its list, to be worked on. *)
Lemma wp_unlist_block X m h G F t c Q : heap X m h G F -> G !! t = Some c -> bfree c = true -> t ∉ X ->
  (forall m' h' F', heap ({[t]} ∪ X) m' h' G F' -> Q tt (put hd st m' h')) -> wp (unlist_block hd t) Q (put hd st m h).
Proof.
  intros Hh Ht Hf HX HQ. pose proof Hh as []. destruct (size_class (bsz c)) as [f s] eqn:Hc.
  destruct (heap_class _ _ _ _ _ _ _ _ _ Hh Ht Hc) as [Hr Hin]. apply wp_bind. eapply wp_rd; [by apply hp_size0|].
  rewrite (heap_blksize _ _ _ _ _ _ _ Hh Ht). apply wp_bind. eapply wp_eq; [by apply bitmap_search_insert|]. cbn [fst snd].
  assert (HtF : t ∈ F f s) by (apply hp_listed0; by exists c). destruct (heap_listed _ _ _ _ _ Hh) as [HN Honce].
  eapply (wp_get_block hd st m h F (roomy G) hp_lists0 (roomy_spread _ _ _ hp_layout0) HN Honce); [done|done|].
  intros m' h' Hl Hrel Hm. eapply HQ. by eapply heap_left.
Qed.

(** The first block of a list leaves it. *)
Lemma wp_take_listed X m h G F f s t l Q : heap X m h G F -> in_tbl f s -> F f s = t :: l ->
  (forall m' h' F', heap ({[t]} ∪ X) m' h' G F' -> Q tt (put hd st m' h')) -> wp (take_first hd t f s) Q (put hd st m h).
Proof.
  intros Hh Hin Hl HQ. pose proof Hh as []. destruct (heap_listed _ _ _ _ _ Hh) as [HN Honce].
  assert (HtF : t ∈ F f s) by (rewrite Hl; left). apply hp_listed0 in HtF as Ht. destruct Ht as (c & Ht & Hf & HX & Hc).
  eapply (wp_take_first hd st m h F (roomy G) hp_lists0 (roomy_spread _ _ _ hp_layout0) HN Honce); [done|done|].
  pose proof (lo_nodup _ _ _ hp_lists0 f s) as Hnd. intros m' h' Hl' Hrel Hm. apply (HQ m' h' (setF F f s (list_rm t (F f s)))).
  eapply heap_left; try done. rewrite Hl in Hnd |- *. apply NoDup_cons in Hnd as [Hnd _]. by rewrite list_rm_cons.
Qed.

(** Writing a word of one block does not change those of others. *)
Lemma wr_other X m G a b x d z y v : layout W X G -> G !! a = Some b -> G !! x = Some d -> a <= z < blk_end a b ->
  x <= y < blk_end x d -> (x = a -> y <> z) -> rd (wr m z v) y = rd m y.
Proof.
  intros Hly Ha Hx Hz Hy Hne. apply rd_wr_ne. destruct (decide (x = a)) as [->|Hxa]; [apply not_eq_sym; auto|].
  by apply (word_ne W X G a b x d z y Hly).
Qed.

(** The links of listed blocks are apart from the headers. *)
Lemma listed_links X m h G F a b z v : heap X m h G F -> G !! a = Some b -> a <= z < blk_end a b -> z < buffer_at a \/ a ∈ X ->
  lists_ok (wr m z v) h F.
Proof.
  intros Hh Ha Hz Hor. pose proof sizes. eapply lists_frame; [apply (hp_lists Hh)|]. intros f s n Hn.
  apply (hp_listed Hh) in Hn as (d & Hd & Hf & HX & _). destruct (ly_blk _ _ _ (hp_layout Hh) n d Hd) as (_ & _ & _ & Hr & _).
  specialize (Hr Hf). split; (eapply wr_other; [apply (hp_layout Hh)|exact Ha|exact Hd|done|offsets; lia|]);
    intros ->; (destruct Hor; [offsets; lia|done]).
Qed.

(** What is written is a word of [a], which the call may write. *)
Lemma kept_wr X m h G F z v : heap X m h G F -> owned G z -> forall y, P y -> rd (wr m z v) y = rd m0 y.
Proof.
  intros Hh Ho y Hy. rewrite rd_wr_ne; [by apply (hp_kept Hh)|]. intros ->. eapply owned_unsafe; [done|by apply (hp_safe Hh)].
Qed.

(** A call begins to work on a block in use. *)
Lemma heap_open X m h G F a b : heap X m h G F -> G !! a = Some b -> bfree b = false -> heap ({[a]} ∪ X) m h G F.
Proof.
  intros [] Ha Hf. split; try done.
  - eapply layout_mono; [|done]. set_solver.
  - intros x y Hx Hy HX. apply hp_back0; set_solver.
  - intros f s x. rewrite hp_listed0. split; intros (y & H1 & H2 & H3 & H4); exists y; (repeat split; [done..| |done]).
    + intros [->%elem_of_singleton|]%elem_of_union; [congruence|done].
    + set_solver.
Qed.

(** [a] is marked as free. *)
Lemma heap_mark m h G F a b : heap ∅ m h G F -> G !! a = Some b -> bfree b = false -> 2 * ptr_size <= bsz b ->
  (forall y, P y -> ~ a <= y < blk_end a b) ->
  heap {[a]} (wr (wr m (dye_at a) RHINO_MM_FREE_DYE) (size_at a) (sizeword (b <| bfree := true |>))) h (<[a := b <| bfree := true |>]> G) F.
Proof.
  intros Hh Ha Hf Hs HP. pose proof Hh as []. pose proof sizes. set (b' := b <| bfree := true |>).
  assert (Hhas : forall i, 0 <= i * ptr_size < MMLIST_HEAD_SIZE + bsz b -> has m (a + i * ptr_size)) by (intros; by eapply heap_has).
  assert (Hd : has m (dye_at a)) by (specialize (Hhas 0); unfold dye_at; replace (a + 0 * ptr_size) with a in Hhas by lia; apply Hhas; lia).
  assert (Hz : has (wr m (dye_at a) RHINO_MM_FREE_DYE) (size_at a)) by (apply has_wr, Hhas; lia).
  assert (Hother : forall x d y, G !! x = Some d -> x <= y < blk_end x d -> (x = a -> y <> dye_at a /\ y <> size_at a) ->
    rd (wr (wr m (dye_at a) RHINO_MM_FREE_DYE) (size_at a) (sizeword b')) y = rd m y).
  { intros x d y Hx Hy Hne. rewrite (wr_other ∅ _ G a b x d), (wr_other ∅ _ G a b x d); try done; try (offsets; lia); by intros ->; apply Hne. }
  assert (Hcase : forall x y, <[a := b']> G !! x = Some y -> x = a /\ y = b' \/ x <> a /\ G !! x = Some y) by (intros; map_cases; auto).
  split; try done.
  - by apply layout_mark.
  - intros x y Hx. destruct (Hcase _ _ Hx) as [[-> ->]|[Hxa Hx']]; [by apply rd_wr|].
    destruct (ly_blk _ _ _ hp_layout0 x y Hx') as (_ & _ & ? & _).
    rewrite (Hother x y); [by apply hp_size0|done|offsets; lia|done].
  - intros x y Hx. destruct (Hcase _ _ Hx) as [[-> ->]|[Hxa Hx']].
    + rewrite rd_wr_ne by (offsets; lia). by rewrite rd_wr.
    + destruct (ly_blk _ _ _ hp_layout0 x y Hx') as (_ & _ & ? & _).
      rewrite (Hother x y); [by apply hp_dye0|done|offsets; lia|done].
  - intros x y Hx Hy HX. destruct (Hcase _ _ Hx) as [[-> ->]|[Hxa Hx']]; [set_solver|].
    destruct (ly_blk _ _ _ hp_layout0 x y Hx') as (_ & _ & _ & Hr & _). specialize (Hr Hy).
    destruct (ly_next _ _ _ hp_layout0 x y Hx' ltac:(lia)) as (d & Hd' & _).
    destruct (ly_blk _ _ _ hp_layout0 _ d Hd') as (_ & _ & ? & _).
    rewrite (Hother _ d _ Hd'); [by apply hp_back0; [done..|set_solver]|offsets; lia|intros He; offsets; lia].
  - intros w y Hw Hy Hr. do 2 apply has_wr. by eapply hp_mem0.
  - eapply lists_frame; [exact hp_lists0|]. intros f s n Hn. apply hp_listed0 in Hn as (d & Hd' & Hfd & _).
    destruct (ly_blk _ _ _ hp_layout0 n d Hd') as (_ & _ & _ & Hr & _). specialize (Hr Hfd).
    split; (apply (Hother n d); [done|offsets; lia|intros ->; congruence]).
  - intros f s x. rewrite hp_listed0. split; intros (y & H1 & H2 & H3 & H4).
    + exists y. assert (x <> a) by (intros ->; congruence). rewrite lookup_insert_ne by done. set_solver.
    + destruct (Hcase _ _ H1) as [[-> ->]|[Hxa Hx']]; [set_solver|]. exists y. set_solver.
  - intros y Hy x d Hx Hr. destruct (Hcase _ _ Hx) as [[-> ->]|[Hxa Hx']]; [|by apply (hp_safe0 y Hy x d)].
    exfalso. by apply (HP y Hy).
  - intros y Hy. assert (Hout : forall z, a <= z < blk_end a b -> z <> y) by (intros z Hz' ->; by apply (HP y Hy)).
    rewrite !rd_wr_ne; [by apply hp_kept0|..]; apply Hout; offsets; lia.
Qed.

End heap_steps.

End heap_inv.

Arguments hp_win {_ _ _ _ _ _ _ _ _ _} _.
Arguments hp_layout {_ _ _ _ _ _ _ _ _ _} _.
Arguments hp_size {_ _ _ _ _ _ _ _ _ _} _.
Arguments hp_dye {_ _ _ _ _ _ _ _ _ _} _.
Arguments hp_back {_ _ _ _ _ _ _ _ _ _} _.
Arguments hp_mem {_ _ _ _ _ _ _ _ _ _} _.
Arguments hp_lists {_ _ _ _ _ _ _ _ _ _} _.
Arguments hp_listed {_ _ _ _ _ _ _ _ _ _} _.
Arguments hp_safe {_ _ _ _ _ _ _ _ _ _} _.
Arguments hp_kept {_ _ _ _ _ _ _ _ _ _} _.
Arguments hp_head {_ _ _ _ _ _ _ _ _ _} _.

(** the addresses of fields, for lia *)
Ltac offsets := unfold dye_at, owner_at, prev_at, size_at, free_prev_at, free_next_at, buffer_at, blk_end in *.

End HeapInv.
