(* ===== verification/HeapStep.v ===== *)
(** * Joining and cutting blocks in memory

    What the pieces of the calls do to a heap: a block takes in the one behind it, is cut in
    two, is handed out whole, or enters its list. *)
From S2P Require Import Prelude Config Bitmap Kernel Sched Queue Mblk Heap HeapClass HeapList HeapInv.
Import Bitmap Queue Mblk Heap HeapClass HeapList HeapInv.

Module HeapStep.
Section heap_step.
Context {cfg : RhinoConfig} (hd : addr).
Context (W : list (Z * Z)) (P : Z -> Prop) (m0 : gmap addr Z) (h0 : k_mm_head) (st : kstate).
Notation heap := (heap_at W P m0 h0).

(** [a] takes in the free block behind it: only its word of the size is written. *)
Lemma heap_join m h G F a b t c : heap {[a; t]} m h G F -> G !! a = Some b -> G !! t = Some c -> blk_end a b = t ->
  bfree c = true -> heap {[a]} (wr m (size_at a) (sizeword (joined b c))) h (join_map G a t b c) F.
Proof.
  intros Hh Ha Ht He Hf. pose proof Hh as []. pose proof sizes.
  destruct (ly_blk _ _ _ hp_layout0 t c Ht) as (_ & _ & T1 & T2 & _). specialize (T2 Hf).
  destruct (ly_blk _ _ _ hp_layout0 a b Ha) as (_ & _ & A1 & _).
  assert (Hat : a < t) by (unfold blk_end in He; lia).
  assert (Hne : a <> t) by lia. pose proof (join_at W G a t b c hp_layout0 Ha He) as Hja.
  assert (Hother : forall x d y, G !! x = Some d -> x <= y < blk_end x d -> (x = a -> y <> size_at a) ->
    rd (wr m (size_at a) (sizeword (joined b c))) y = rd m y).
  { intros x d y Hx Hy Hy'. eapply (wr_other W _ m G a b x d); try done. offsets; lia. }
  pose proof (join_old W G a t b c hp_layout0 Ha Ht He) as Hold. split; try done.
  - apply (layout_join W G a t b c); try done. lia.
  - intros x y Hx. destruct (Hold x y Hx) as [Hxt [[-> ->]|[Hxa Hx']]].
    + apply rd_wr. eexists. by apply hp_size0.
    + destruct (ly_blk _ _ _ hp_layout0 x y Hx') as (_ & _ & ? & _). rewrite (Hother x y); [by apply hp_size0|done|offsets; lia|done].
  - intros x y Hx. destruct (Hold x y Hx) as [Hxt [[-> ->]|[Hxa Hx']]].
    + rewrite rd_wr_ne by (offsets; lia). exact (hp_dye0 a b Ha).
    + destruct (ly_blk _ _ _ hp_layout0 x y Hx') as (_ & _ & ? & _). rewrite (Hother x y); [by apply hp_dye0|done|offsets; lia|done].
  - intros x y Hx Hy HX. destruct (Hold x y Hx) as [Hxt [[-> ->]|[Hxa Hx']]]; [set_solver|].
    destruct (ly_blk _ _ _ hp_layout0 x y Hx') as (_ & _ & _ & Hr & _). specialize (Hr Hy).
    destruct (ly_next _ _ _ hp_layout0 x y Hx' ltac:(lia)) as (d & Hd & _). destruct (ly_blk _ _ _ hp_layout0 _ d Hd) as (_ & _ & ? & _).
    rewrite (Hother _ d _ Hd); [apply hp_back0; [done..|set_solver]|offsets; lia|intros Hxe; offsets; lia].
  - intros w y Hw Hy Hr. apply has_wr. by eapply hp_mem0.
  - eapply (listed_links W P m0 h0); [exact Hh|exact Ha|offsets; lia|right; set_solver].
  - intros f s x. rewrite hp_listed0. split; intros (y & H1 & H2 & H3 & H4).
    + exists y. assert (x <> a /\ x <> t) as [Hxa Hxt] by set_solver. rewrite (join_new G a t b c x y) by done. set_solver.
    + destruct (Hold x y H1) as [Hxt [[-> ->]|[Hxa Hx']]]; [set_solver|]. exists y. set_solver.
  - intros y Hy x d Hx Hr. destruct (Hold x d Hx) as [Hxt [[-> ->]|[Hxa Hx']]]; [|by apply (hp_safe0 y Hy x d)].
    rewrite (join_end a t b c He) in Hr. destruct (decide (y < t)) as [Hlt|Hge]; [apply (hp_safe0 y Hy a b Ha); lia|].
    destruct (hp_safe0 y Hy t c Ht); [lia|congruence].
  - eapply (kept_wr W P m0 h0); [exact Hh|]. eapply owned_hdr; [exact hp_layout0|exact Ha|offsets; lia].
Qed.

(** What the first writes of a cut of [a] leave: a header of [rest] bytes at [c], and [n]
    behind it that knows it.  The size of [a] is written later. *)
Record cut_written (m m1 : gmap addr Z) (a c rest n : Z) (d : blk) : Prop := {
  cw_size : rd m1 (size_at c) = Some (rest + 1);
  cw_dye : rd m1 (dye_at c) = Some RHINO_MM_FREE_DYE;
  cw_back : rd m1 (prev_at n) = Some c;
  cw_next : rd m1 (size_at n) = Some (sizeword (d <| bpf := true |>));
  cw_other : forall y, ~ c <= y < buffer_at c -> y <> prev_at n -> y <> size_at n -> y <> size_at a -> rd m1 y = rd m y;
  cw_has : forall y, has m y -> has m1 y;
}.

(** what a word is not *)
#[local] Ltac side := try (intros ?; exfalso); offsets; lia.

Section cut.
Context (m m1 : gmap addr Z) (h : k_mm_head) (G : gmap Z blk) (F : Z -> Z -> list Z) (a : Z) (b d : blk) (sz rest : Z).
Hypothesis Hh : heap {[a]} m h G F.
Hypothesis Ha : G !! a = Some b.
Hypothesis Hd : G !! blk_end a b = Some d.
Hypothesis Hdf : bfree d = false.
Hypothesis Hsz : bsz b = sz + MMLIST_HEAD_SIZE + rest.
Hypothesis Hsz0 : 0 <= sz /\ al sz.
Hypothesis Hrest : 2 * ptr_size <= rest.
Hypothesis HP : forall y, P y -> ~ split_at a sz <= y < blk_end a b.
Hypothesis Hcut : cut_written m m1 a (split_at a sz) rest (blk_end a b) d.

#[local] Notation c := (split_at a sz).
#[local] Notation G' := (split_map G a b d sz rest).

Lemma cut_layout : layout W ∅ G'.
Proof. pose proof sizes. apply (layout_split W G a b d (hp_layout Hh) Ha Hd ltac:(lia) sz rest); done. Qed.

Lemma cut_order : a < c < blk_end a b /\ c + MMLIST_HEAD_SIZE + rest = blk_end a b.
Proof. by apply split_order. Qed.

Lemma cut_lookups : G' !! a = Some (mk_blk sz false (bpf b)) /\ G' !! c = Some (mk_blk rest true false) /\
  G' !! blk_end a b = Some (d <| bpf := true |>).
Proof. by apply split_lookups. Qed.

(** What a word of a block that is not cut holds. *)
Lemma cut_word x y z : G !! x = Some y -> x <> a -> x <= z < blk_end x y -> z <> prev_at (blk_end a b) -> z <> size_at (blk_end a b) ->
  rd m1 z = rd m z.
Proof.
  intros Hx Hxa Hz H1 H2. pose proof cut_order. pose proof sizes.
  assert (Hza : forall w, a <= w < blk_end a b -> z <> w) by (intros w Hw; by apply (word_ne W _ G x y a b z w (hp_layout Hh) Hx Ha Hxa Hz)).
  apply (cw_other _ _ _ _ _ _ _ Hcut); [|done|done|apply Hza; offsets; lia]. intros Hc. apply (Hza z); [offsets; lia|done].
Qed.

Lemma cut_lists : lists_ok m1 h F.
Proof.
  eapply lists_frame; [apply (hp_lists Hh)|]. intros f s n Hn. apply (hp_listed Hh) in Hn as (y & Hy & Hf & HX & _).
  pose proof sizes. destruct (ly_blk _ _ _ (hp_layout Hh) n y Hy) as (_ & _ & _ & Hr & _). specialize (Hr Hf).
  assert (n <> a) by set_solver. assert (n <> blk_end a b) by (intros ->; congruence).
  assert (Hne : forall z, n <= z < blk_end n y -> forall w, blk_end a b <= w < blk_end (blk_end a b) d -> z <> w).
  { intros z Hz w Hw. by apply (word_ne W _ G n y (blk_end a b) d z w (hp_layout Hh)). }
  destruct (ly_blk _ _ _ (hp_layout Hh) _ d Hd) as (_ & _ & ? & _).
  split; (apply (cut_word n y); [done|done|offsets; lia|apply Hne; offsets; lia..]).
Qed.

(** The rest entered its list, and the sizes are written. *)
Context (m2 : gmap addr Z) (h2 : k_mm_head) (f s : Z).
Hypothesis Hcl : size_class rest = (f, s).
Hypothesis Hl2 : lists_ok m2 h2 (setF F f s (c :: F f s)).
Hypothesis Hrel : relist h h2.
Hypothesis Hlinked : relink (near c (F f s)) m1 m2.

#[local] Notation F' := (setF F f s (c :: F f s)).
#[local] Notation m' := (wr (wr m2 (size_at a) (sizeword (mk_blk sz false (bpf b)))) (dye_at a) RHINO_MM_CORRUPT_DYE).

Lemma cut_kept x y : x <> a -> bfree y = true -> G !! x = Some y -> G' !! x = Some y.
Proof.
  intros Hxa Hf Hx. apply (split_new W G a b d (hp_layout Hh) Ha sz rest); try done.
  intros ->. rewrite Hd in Hx. injection Hx as <-. congruence.
Qed.

Lemma cut_listed f' s' x :
  x ∈ F' f' s' <-> exists e, G' !! x = Some e /\ bfree e = true /\ x ∉ (∅ : gset Z) /\ size_class (bsz e) = (f', s').
Proof.
  destruct cut_lookups as (La & Lc & Ln).
  assert (Hin : x ∈ F' f' s' <-> x ∈ F f' s' \/ x = c /\ (f', s') = (f, s)).
  { unfold setF. destruct (decide (f' = f /\ s' = s)) as [[-> ->]|Hne]; set_solver. }
  rewrite Hin, (hp_listed Hh). split.
  - intros [(y & Hx & Hf & HX & Hc)|[-> [= -> ->]]].
    + exists y. split; [|done]. apply cut_kept; [set_solver|done|done].
    + by exists (mk_blk rest true false).
  - intros (e & Hx & Hf & _ & Hc).
    destruct (split_old G a b d sz rest x e Hx) as [[-> ->]|[[-> ->]|[[-> ->]|(Hxa & Hxc & Hxn & Hx')]]]; cbn in Hf, Hc.
    + done.
    + right. split; [done|]. congruence.
    + congruence.
    + left. exists e. set_solver.
Qed.

(** The insertion wrote links of free blocks only. *)
Lemma cut_link y : ~ (exists x e, G' !! x = Some e /\ bfree e = true /\ buffer_at x <= y < blk_end x e) -> rd m2 y = rd m1 y.
Proof.
  intros Hy. destruct Hlinked as [Hm _]. pose proof sizes. apply Hm. intros n Hn.
  assert (n ∈ F' f s) as (e & He & Hf & _)%cut_listed by (rewrite setF_eq; destruct Hn; set_solver).
  destruct (ly_blk _ _ _ cut_layout n e He) as (_ & _ & _ & Hr & _). specialize (Hr Hf).
  split; intros ->; apply Hy; exists n, e; (repeat split; [done..| |]); offsets; lia.
Qed.

(** It wrote no header. *)
Lemma cut_unlinked x e y : G' !! x = Some e -> x <= y < buffer_at x -> rd m2 y = rd m1 y.
Proof.
  intros Hx Hy. pose proof cut_layout as Hly'. pose proof sizes. destruct (ly_blk _ _ _ Hly' x e Hx) as (_ & _ & ? & _).
  apply cut_link. intros (u & v & Hu & _ & Hy'). destruct (decide (x = u)) as [->|Hxu]; [lia|].
  by apply (word_ne W ∅ G' x e u v y y Hly' Hx Hu Hxu); [offsets; lia..|].
Qed.

(** The words of the headers are as before, but for two of [a]. *)
Lemma cut_header x e y : G' !! x = Some e -> x <= y < buffer_at x -> (x = a -> y <> size_at a /\ y <> dye_at a) -> rd m' y = rd m1 y.
Proof.
  intros Hx Hy Hne. pose proof cut_layout as Hly'. pose proof sizes. destruct cut_lookups as (La & _).
  destruct (ly_blk _ _ _ Hly' x e Hx) as (_ & _ & ? & _). destruct (ly_blk _ _ _ Hly' a _ La) as (_ & _ & ? & _).
  assert (Hya : forall z, a <= z < buffer_at a -> (x = a -> y <> z) -> z <> y).
  { intros z Hz Hxz Heq. destruct (decide (x = a)) as [Hxa|Hxa]; [by apply (Hxz Hxa)|].
    by apply (word_ne W ∅ G' x e a _ y z Hly' Hx La Hxa); [offsets; lia|offsets; cbn in *; lia|]. }
  rewrite !rd_wr_ne; [by apply (cut_unlinked x e)|apply Hya; [offsets; lia|by intros [? ?]%Hne]..].
Qed.

(** The words of the headers of blocks that are not cut are as they were, but for two of the
    next block. *)
Lemma cut_same x e y : G !! x = Some e -> x <> a -> x <= y < buffer_at x -> (x = blk_end a b -> y <> size_at x /\ y <> prev_at x) ->
  rd m' y = rd m y.
Proof.
  intros Hx Hxa Hy Hne. pose proof sizes. destruct (ly_blk _ _ _ (hp_layout Hh) x e Hx) as (_ & _ & ? & _).
  assert (exists e', G' !! x = Some e') as [e' He'].
  { destruct (decide (x = blk_end a b)) as [->|Hxn]; [eexists; apply cut_lookups|]. exists e.
    by apply (split_new W G a b d (hp_layout Hh) Ha sz rest). }
  rewrite (cut_header x e' y) by done. destruct (ly_blk _ _ _ (hp_layout Hh) _ d Hd) as (_ & _ & ? & _).
  assert (Hyn : forall z, blk_end a b <= z < buffer_at (blk_end a b) -> (x = blk_end a b -> y <> z) -> y <> z).
  { intros z Hz Hxz. destruct (decide (x = blk_end a b)) as [Hxn|Hxn]; [by apply Hxz|].
    apply (word_ne W _ G x e (blk_end a b) d y z (hp_layout Hh) Hx Hd Hxn); offsets; lia. }
  apply (cut_word x e); [done|done|offsets; lia|apply Hyn..]; try (intros Hxn; rewrite <- Hxn; by apply Hne); offsets; lia.
Qed.

Lemma cut_has y : has m y -> has m' y.
Proof. intros Hy. do 2 apply has_wr. destruct Hlinked as [_ Hm]. by apply Hm, (cw_has _ _ _ _ _ _ _ Hcut). Qed.

Lemma cut_own : rd m' (size_at a) = Some (sizeword (mk_blk sz false (bpf b))) /\ rd m' (dye_at a) = Some RHINO_MM_CORRUPT_DYE.
Proof.
  pose proof sizes. assert (Hhas : forall y, has m y -> has m2 y).
  { intros y Hy. destruct Hlinked as [_ Hm]. by apply Hm, (cw_has _ _ _ _ _ _ _ Hcut). }
  split; [rewrite rd_wr_ne by (offsets; lia)|]; apply rd_wr; [|apply has_wr]; apply Hhas; eexists; [by apply (hp_size Hh)|by apply (hp_dye Hh)].
Qed.

Lemma cut_sizes x y : G' !! x = Some y -> rd m' (size_at x) = Some (sizeword y) /\ rd m' (dye_at x) = Some (dye_of y).
Proof.
  intros Hx. pose proof sizes. pose proof cut_order as [Hord _].
  destruct (split_old G a b d sz rest x y Hx) as [[-> ->]|[[-> ->]|[[-> ->]|(Hxa & Hxc & Hxn & Hx')]]].
  - apply cut_own.
  - rewrite !(cut_header _ _ _ Hx) by side. split; [exact (cw_size _ _ _ _ _ _ _ Hcut)|exact (cw_dye _ _ _ _ _ _ _ Hcut)].
  - rewrite (cut_header _ _ _ Hx) by side. split; [exact (cw_next _ _ _ _ _ _ _ Hcut)|].
    rewrite (cut_same _ d) by (done || side || (split; side)). exact (hp_dye Hh _ _ Hd).
  - rewrite !(cut_same x y) by (done || (offsets; lia)). split; [by apply (hp_size Hh)|by apply (hp_dye Hh)].
Qed.

Lemma cut_back x y : G' !! x = Some y -> bfree y = true -> rd m' (prev_at (blk_end x y)) = Some x.
Proof.
  intros Hx Hf. pose proof sizes. pose proof cut_order as [Hord Hend]. destruct cut_lookups as (La & _ & Ln).
  destruct (split_old G a b d sz rest x y Hx) as [[-> ->]|[[-> ->]|[[-> ->]|(Hxa & Hxc & Hxn & Hx')]]]; cbn in Hf; try congruence.
  - unfold blk_end at 1. cbn. rewrite Hend, (cut_header _ _ _ Ln) by side. exact (cw_back _ _ _ _ _ _ _ Hcut).
  - destruct (ly_blk _ _ _ (hp_layout Hh) x y Hx') as (_ & _ & _ & Hr & _). specialize (Hr Hf).
    destruct (ly_next _ _ _ (hp_layout Hh) x y Hx' ltac:(lia)) as (e & He & _).
    assert (Hold : rd m (prev_at (blk_end x y)) = Some x) by (apply (hp_back Hh); [done..|set_solver]).
    assert (Hne : blk_end x y <> blk_end a b) by (intros Heq; apply Hxa; by apply (layout_end_inj W _ G x y a b (hp_layout Hh))).
    destruct (decide (blk_end x y = a)) as [Hxe|Hxe].
    + rewrite <- Hold, Hxe, (cut_header _ _ _ La) by (offsets; lia). apply (cw_other _ _ _ _ _ _ _ Hcut); offsets; lia.
    + rewrite (cut_same _ e) by (done || (offsets; lia)). done.
Qed.

Lemma cut_safe y : P y -> safe G' y.
Proof.
  intros Hy x e Hx Hr. pose proof cut_order as [Hord Hend].
  destruct (split_old G a b d sz rest x e Hx) as [[-> ->]|[[-> ->]|[[-> ->]|(Hxa & Hxc & Hxn & Hx')]]]; cbn.
  - split; [done|]. apply (hp_safe Hh y Hy a b Ha). split; [lia|]. unfold blk_end in Hr at 1. cbn in Hr. unfold split_at in Hord. lia.
  - exfalso. apply (HP y Hy). unfold blk_end in Hr at 1. cbn in Hr. lia.
  - by apply (hp_safe Hh y Hy _ d Hd).
  - by apply (hp_safe Hh y Hy x e).
Qed.

Lemma cut_keeps y : P y -> rd m' y = rd m0 y.
Proof.
  intros Hy. rewrite <- (hp_kept Hh y Hy). pose proof sizes. pose proof cut_order as [Hord Hend].
  assert (Hsafe : forall x e z, G !! x = Some e -> x <= z < buffer_at x -> y <> z).
  { intros x e z Hx Hz ->. apply (owned_unsafe G z); [|by apply (hp_safe Hh)]. by apply (owned_hdr W _ G x e z (hp_layout Hh)). }
  rewrite !rd_wr_ne by (apply not_eq_sym, (Hsafe a b); [done|offsets; lia]).
  rewrite cut_link.
  - apply (cw_other _ _ _ _ _ _ _ Hcut); [|apply (Hsafe _ d _ Hd); offsets; lia..|apply (Hsafe a b _ Ha); offsets; lia].
    intros Hc. apply (HP y Hy). offsets. lia.
  - intros (x & e & Hx & Hf & Hr). destruct (cut_safe y Hy x e Hx); [offsets; lia|congruence].
Qed.

Lemma heap_cut : heap ∅ m' h2 G' F'.
Proof.
  pose proof sizes. split.
  - apply (hp_win Hh).
  - apply cut_layout.
  - intros x y Hx. by apply cut_sizes.
  - intros x y Hx. by apply cut_sizes.
  - intros x y Hx Hf _. by apply cut_back.
  - intros w y Hw Hy Hr. apply cut_has. by eapply (hp_mem Hh).
  - eapply lists_frame; [exact Hl2|]. intros f' s' n (e & He & Hf & _)%cut_listed. destruct cut_lookups as (La & _).
    assert (Hna : a <> n) by (intros <-; rewrite La in He; injection He as <-; done).
    destruct (ly_blk _ _ _ cut_layout n e He) as (_ & _ & _ & Hr & _). specialize (Hr Hf).
    split; rewrite !rd_wr_ne; try done;
      (apply (word_ne W ∅ G' a _ n e _ _ cut_layout La He Hna); offsets; cbn; lia).
  - apply cut_listed.
  - apply cut_safe.
  - apply cut_keeps.
  - unfold relist in Hrel. rewrite Hrel. apply (hp_head Hh).
Qed.
End cut.

(** A write of the link back behind [a], which is being worked on, does not matter. *)
Lemma heap_prev_wr X m h G F a b d v : heap X m h G F -> G !! a = Some b -> a ∈ X -> G !! blk_end a b = Some d ->
  heap X (wr m (prev_at (blk_end a b)) v) h G F.
Proof.
  intros Hh Ha HX Hd. pose proof Hh as []. pose proof sizes. destruct (ly_blk _ _ _ hp_layout0 _ d Hd) as (_ & _ & ? & _).
  assert (Hhdr : forall x e y, G !! x = Some e -> x <= y < buffer_at x -> y <> prev_at x \/ x <> blk_end a b ->
    rd (wr m (prev_at (blk_end a b)) v) y = rd m y).
  { intros x e y Hx Hy Hne. destruct (ly_blk _ _ _ hp_layout0 x e Hx) as (_ & _ & ? & _).
    eapply (wr_other W X m G (blk_end a b) d x e); try done; [offsets; lia..|]. intros ->. by destruct Hne. }
  split; try done.
  - intros x y Hx. rewrite (Hhdr x y) by (done || (offsets; lia)). by apply hp_size0.
  - intros x y Hx. rewrite (Hhdr x y) by (done || (offsets; lia)). by apply hp_dye0.
  - intros x y Hx Hf HxX. destruct (ly_blk _ _ _ hp_layout0 x y Hx) as (_ & _ & _ & Hr & _). specialize (Hr Hf).
    destruct (ly_next _ _ _ hp_layout0 x y Hx ltac:(lia)) as (e & He & _).
    rewrite (Hhdr _ e _ He); [by apply hp_back0|offsets; lia|]. right. intros Heq. assert (x = a) as -> by by eapply layout_end_inj. done.
  - intros w y Hw Hy Hr. apply has_wr. by eapply hp_mem0.
  - eapply (listed_links W P m0 h0); [exact Hh|exact Hd|offsets; lia|left; offsets; lia].
  - eapply (kept_wr W P m0 h0); [exact Hh|]. eapply owned_hdr; [exact hp_layout0|exact Hd|offsets; lia].
Qed.

Lemma wr_id m y v : rd m y = Some v -> wr m y v = m.
Proof. destruct y; try done. cbn. intros Hy. by apply insert_id. Qed.

(** ** The end of the work on a block *)

Section close.
Context (m : gmap addr Z) (h : k_mm_head) (G : gmap Z blk) (F : Z -> Z -> list Z) (a : Z) (b d : blk).
Hypothesis Hh : heap {[a]} m h G F.
Hypothesis Ha : G !! a = Some b.
Hypothesis Hd : G !! blk_end a b = Some d.
Hypothesis Hs : 0 < bsz b.

#[local] Notation n := (blk_end a b).

(** Everything but the headers of [a] and of the next block, and links of free blocks. *)
Definition close_words (y : Z) : Prop := (a <= y < buffer_at a) \/ (n <= y < buffer_at n).

Lemma close_other x y : G !! x = Some y -> x <> a -> x <> n -> forall z, x <= z < blk_end x y -> ~ close_words z.
Proof.
  intros Hx Hxa Hxn z Hz. pose proof sizes. destruct (ly_blk _ _ _ (hp_layout Hh) _ d Hd) as (_ & _ & ? & _).
  intros [Hc|Hc]; [apply (word_ne W _ G x y a b z z (hp_layout Hh) Hx Ha Hxa Hz)|apply (word_ne W _ G x y n d z z (hp_layout Hh) Hx Hd Hxn Hz)];
    try done; offsets; lia.
Qed.

Lemma close_safe f1 f2 y : f1 = false \/ ~ (a <= y < n) -> P y -> safe (flagged G a b d f1 f2) y.
Proof.
  intros Hf Hy x e Hx Hr. destruct (flagged_old W G a b d (hp_layout Hh) Ha Hd f1 f2 x e Hx) as (e0 & He0 & Hsz & Hc).
  assert (Hr0 : x <= y < blk_end x e0) by (unfold blk_end in *; lia). destruct (hp_safe Hh y Hy x e0 He0 Hr0) as [Hf0 Hb].
  split; [|done]. destruct Hc as [[-> ->]|[[-> ->]|(_ & _ & ->)]]; cbn; [|by rewrite Hd in He0; injection He0 as <-|done].
  destruct Hf as [->|Hf]; [done|]. rewrite Ha in He0. injection He0 as <-. lia.
Qed.

(** A word of no header and no free block is not written. *)
Lemma close_out y : P y -> ~ close_words y.
Proof.
  intros Hy Hc. apply (owned_unsafe G y); [|by apply (hp_safe Hh)].
  destruct Hc; [by apply (owned_hdr W _ G a b y (hp_layout Hh) Ha)|by apply (owned_hdr W _ G n d y (hp_layout Hh) Hd)].
Qed.

(** The links back of other free blocks stay. *)
Lemma close_back x y : G !! x = Some y -> bfree y = true -> x <> a -> rd m (prev_at (blk_end x y)) = Some x /\
  dye_at a <> prev_at (blk_end x y) /\ size_at a <> prev_at (blk_end x y) /\ size_at n <> prev_at (blk_end x y) /\ prev_at n <> prev_at (blk_end x y).
Proof.
  intros Hx Hf Hxa. pose proof sizes. pose proof (close_order a b Hs). destruct (ly_blk _ _ _ (hp_layout Hh) x y Hx) as (_ & _ & _ & Hr & _).
  specialize (Hr Hf). destruct (ly_next _ _ _ (hp_layout Hh) x y Hx ltac:(lia)) as (e & He & _).
  destruct (ly_blk _ _ _ (hp_layout Hh) _ e He) as (_ & _ & ? & _). destruct (ly_blk _ _ _ (hp_layout Hh) a b Ha) as (_ & _ & ? & _).
  destruct (ly_blk _ _ _ (hp_layout Hh) _ d Hd) as (_ & _ & ? & _).
  split; [by apply (hp_back Hh); [..|set_solver]|]. set (t := blk_end x y) in *.
  assert (t <> n) by (intros Heq; apply Hxa; by apply (close_pred W G a b (hp_layout Hh) Ha x y)).
  assert (Hn : forall z, n <= z < buffer_at n -> z <> prev_at t) by (intros z Hz; apply (word_ne W _ G n d t e z _ (hp_layout Hh)); offsets; done || lia).
  destruct (decide (t = a)) as [->|Hta]; [offsets; lia|].
  assert (Han : forall z, a <= z < buffer_at a -> z <> prev_at t) by (intros z Hz; apply (word_ne W _ G a b t e z _ (hp_layout Hh)); offsets; done || lia).
  repeat split; [apply Han|apply Han|apply Hn|apply Hn]; offsets; lia.
Qed.

(** The links of the listed blocks stay. *)
Lemma close_listed f s x : x ∈ F f s -> x <> a /\ exists y, G !! x = Some y /\ bfree y = true /\ size_class (bsz y) = (f, s) /\
  forall z, close_words z -> z <> free_prev_at x /\ z <> free_next_at x.
Proof.
  intros (y & Hx & Hf & HX & Hc)%(hp_listed Hh). pose proof sizes. assert (Hxa : x <> a) by set_solver. split; [done|].
  exists y. split; [done|]. split; [done|]. split; [done|]. destruct (ly_blk _ _ _ (hp_layout Hh) x y Hx) as (_ & _ & _ & Hr & _). specialize (Hr Hf).
  destruct (ly_blk _ _ _ (hp_layout Hh) a b Ha) as (_ & _ & ? & _). destruct (ly_blk _ _ _ (hp_layout Hh) _ d Hd) as (_ & _ & ? & _).
  intros z Hz. assert (Hzn : forall w, buffer_at x <= w < blk_end x y -> z <> w); [|split; apply Hzn; offsets; lia].
  intros w Hw ->. destruct Hz as [Hz|Hz]; [apply (word_ne W _ G x y a b w w (hp_layout Hh) Hx Ha Hxa); [..|done]; offsets; lia|].
  destruct (decide (x = n)) as [->|Hxn]; [lia|]. apply (word_ne W _ G x y n d w w (hp_layout Hh) Hx Hd Hxn); [..|done]; offsets; lia.
Qed.

(** *** ... as a used block *)

#[local] Notation mu := (wr (wr (wr m (size_at n) (sizeword (d <| bpf := false |>))) (size_at a) (sizeword (b <| bfree := false |>)))
  (dye_at a) RHINO_MM_CORRUPT_DYE).
#[local] Notation Gu := (flagged G a b d false false).

Lemma used_other y : ~ close_words y -> rd mu y = rd m y.
Proof. pose proof sizes. unfold close_words. intros Hy. rewrite !rd_wr_ne; [done|intros <-; apply Hy; offsets; lia..]. Qed.

Lemma used_header x y : Gu !! x = Some y -> rd mu (size_at x) = Some (sizeword y) /\ rd mu (dye_at x) = Some (dye_of y).
Proof.
  intros Hx. pose proof sizes. pose proof (close_order a b Hs) as Hord. destruct (ly_blk _ _ _ (hp_layout Hh) a b Ha) as (_ & _ & ? & _).
  destruct (flagged_old W G a b d (hp_layout Hh) Ha Hd _ _ x y Hx) as (y0 & Hx0 & Hsz & [[-> ->]|[[-> ->]|(Hxa & Hxn & ->)]]).
  - split; [rewrite rd_wr_ne by (offsets; lia)|]; apply rd_wr; repeat apply has_wr; eexists; [by apply (hp_size Hh)|by apply (hp_dye Hh)].
  - split; [rewrite 2!rd_wr_ne by (offsets; lia); apply rd_wr; eexists; by apply (hp_size Hh)|].
    rewrite !rd_wr_ne by (offsets; lia). exact (hp_dye Hh _ _ Hd).
  - destruct (ly_blk _ _ _ (hp_layout Hh) x _ Hx0) as (_ & _ & ? & _).
    rewrite !used_other by (apply (close_other x y0 Hx0 Hxa Hxn); offsets; lia). split; [by apply (hp_size Hh)|by apply (hp_dye Hh)].
Qed.

Lemma heap_close_used : heap ∅ mu h Gu F.
Proof.
  pose proof sizes. pose proof Hh as []. pose proof (close_order a b Hs).
  pose proof (flagged_old W G a b d hp_layout0 Ha Hd false false) as Hold. split.
  - done.
  - by apply layout_flag.
  - intros x y Hx. by apply used_header.
  - intros x y Hx. by apply used_header.
  - intros x y Hx Hf _. destruct (Hold x y Hx) as (y0 & Hx0 & Hsz & Hc).
    assert (blk_end x y = blk_end x y0) as -> by (unfold blk_end; lia).
    assert (Hxa : x <> a) by (intros ->; destruct Hc as [[_ ->]|[[? _]|(? & _)]]; [done|lia|done]).
    assert (Hf0 : bfree y0 = true) by (destruct Hc as [[? _]|[[-> ->]|(_ & _ & ->)]]; [done|rewrite Hd in Hx0; by injection Hx0 as <-|done]).
    destruct (close_back x y0 Hx0 Hf0 Hxa) as (H1 & H2 & H3 & H4 & _). by rewrite !rd_wr_ne.
  - intros w y Hw Hy Hr. repeat apply has_wr. by eapply hp_mem0.
  - eapply lists_frame; [exact hp_lists0|]. intros f s x Hx. destruct (close_listed f s x Hx) as (_ & y & _ & _ & _ & Hw).
    split; (rewrite !rd_wr_ne; [done|apply Hw; unfold close_words; offsets; lia..]).
  - intros f s x. split.
    + intros Hx. destruct (close_listed f s x Hx) as (Hxa & y & Hx0 & Hf & Hc & _).
      destruct (flagged_new G a b d Ha Hd Hs false false x y Hx0) as (y' & Hy' & Hsz & Hcase). exists y'. rewrite Hsz.
      repeat split; try done. destruct Hcase as [(? & _)|[(_ & -> & ->)|(_ & _ & ->)]]; done.
    + intros (y & Hx & Hf & _ & Hc). destruct (Hold x y Hx) as (y0 & Hx0 & Hsz & Hcase). apply hp_listed0. exists y0. rewrite <- Hsz.
      destruct Hcase as [[-> ->]|[[-> ->]|(Hxa & _ & ->)]]; [done| |set_solver].
      rewrite Hd in Hx0. injection Hx0 as <-. repeat split; try done. apply not_elem_of_singleton. lia.
  - intros y Hy. apply close_safe; [by left|done].
  - intros y Hy. rewrite used_other by by apply close_out. by apply hp_kept0.
  - done.
Qed.
(** *** ... as a free block, which entered its list *)

Context (m2 : gmap addr Z) (h2 : k_mm_head) (f s : Z).
Hypothesis Hbf : bfree b = true /\ bpf b = false.
Hypothesis Hdf : bfree d = false.
Hypothesis Hcl : size_class (bsz b) = (f, s).
Hypothesis Hl2 : lists_ok m2 h2 (setF F f s (a :: F f s)).
Hypothesis Hrel : relist h h2.
Hypothesis Hlinked : relink (near a (F f s)) m m2.

#[local] Notation mf := (wr (wr m2 (size_at n) (sizeword (d <| bpf := true |>))) (prev_at n) a).
#[local] Notation Gf := (flagged G a b d true true).
#[local] Notation F' := (setF F f s (a :: F f s)).

Lemma free_listed f' s' x :
  x ∈ F' f' s' <-> exists e, Gf !! x = Some e /\ bfree e = true /\ x ∉ (∅ : gset Z) /\ size_class (bsz e) = (f', s').
Proof.
  assert (Hin : x ∈ F' f' s' <-> x ∈ F f' s' \/ x = a /\ (f', s') = (f, s)).
  { unfold setF. destruct (decide (f' = f /\ s' = s)) as [[-> ->]|Hne]; set_solver. }
  rewrite Hin. split.
  - intros [Hx|[-> [= -> ->]]].
    + destruct (close_listed f' s' x Hx) as (Hxa & y & Hx0 & Hf & Hc & _).
      destruct (flagged_new G a b d Ha Hd Hs true true x y Hx0) as (y' & Hy' & Hsz & Hcase). exists y'. rewrite Hsz.
      repeat split; try done. destruct Hcase as [(? & _)|[(_ & -> & ->)|(_ & _ & ->)]]; done.
    + exists (b <| bfree := true |>). unfold flagged. by rewrite lookup_insert_eq.
  - intros (y & Hx & Hf & _ & Hc). destruct (flagged_old W G a b d (hp_layout Hh) Ha Hd true true x y Hx) as (y0 & Hx0 & Hsz & Hcase).
    rewrite Hsz in Hc. destruct Hcase as [[-> ->]|[[-> ->]|(Hxa & _ & ->)]].
    + right. split; [done|]. rewrite Ha in Hx0. injection Hx0 as <-. congruence.
    + exfalso. cbn in Hf. congruence.
    + left. apply (hp_listed Hh). exists y0. set_solver.
Qed.

(** The insertion wrote links of free blocks only. *)
Lemma free_link y : ~ (exists x e, Gf !! x = Some e /\ bfree e = true /\ buffer_at x <= y < blk_end x e) -> rd m2 y = rd m y.
Proof.
  intros Hy. destruct Hlinked as [Hm _]. pose proof sizes. apply Hm. intros x Hx.
  assert (x ∈ F' f s) as (e & He & Hf & _)%free_listed by (rewrite setF_eq; destruct Hx; set_solver).
  destruct (flagged_old W G a b d (hp_layout Hh) Ha Hd true true x e He) as (e0 & He0 & Hsz & Hc).
  destruct (ly_blk _ _ _ (hp_layout Hh) x e0 He0) as (_ & _ & _ & Hr & _).
  assert (Hf0 : bfree e0 = true).
  { destruct Hc as [[-> ->]|[[-> ->]|(_ & _ & ->)]]; [|cbn in Hf; congruence|done]. rewrite Ha in He0. injection He0 as <-. apply Hbf. }
  specialize (Hr Hf0). split; intros ->; apply Hy; exists x, e; (repeat split; [done..| |]); offsets; lia.
Qed.

Lemma free_word x e y : G !! x = Some e -> x <= y < buffer_at x -> rd m2 y = rd m y.
Proof.
  intros Hx Hy. apply free_link. intros (u & v & Hu & _ & Hr). pose proof sizes.
  destruct (flagged_old W G a b d (hp_layout Hh) Ha Hd true true u v Hu) as (v0 & Hv0 & Hsz & _).
  destruct (ly_blk _ _ _ (hp_layout Hh) x e Hx) as (_ & _ & ? & _).
  destruct (decide (x = u)) as [->|Hxu]; [lia|].
  apply (word_ne W _ G x e u v0 y y (hp_layout Hh) Hx Hv0 Hxu); [..|done]; offsets; lia.
Qed.

Lemma free_header x y : Gf !! x = Some y -> rd mf (size_at x) = Some (sizeword y) /\ rd mf (dye_at x) = Some (dye_of y).
Proof.
  intros Hx. pose proof sizes. pose proof (close_order a b Hs) as Hord. destruct (ly_blk _ _ _ (hp_layout Hh) a b Ha) as (_ & _ & ? & _).
  destruct (ly_blk _ _ _ (hp_layout Hh) _ d Hd) as (_ & _ & ? & _).
  destruct (flagged_old W G a b d (hp_layout Hh) Ha Hd _ _ x y Hx) as (y0 & Hx0 & Hsz & Hc).
  assert (Hsame : x <> n -> (x = a -> sizeword y = sizeword y0 /\ dye_of y = dye_of y0) -> (x <> a -> y = y0) ->
    rd mf (size_at x) = Some (sizeword y) /\ rd mf (dye_at x) = Some (dye_of y)).
  { intros Hxn Hxa Hxy. destruct (ly_blk _ _ _ (hp_layout Hh) x y0 Hx0) as (_ & _ & ? & _).
    assert (Hne : forall z, x <= z < buffer_at x -> size_at n <> z /\ prev_at n <> z).
    { intros z Hz. split; apply not_eq_sym, (word_ne W _ G x y0 n d z _ (hp_layout Hh) Hx0 Hd Hxn); offsets; lia. }
    rewrite !rd_wr_ne by (apply Hne; offsets; lia). rewrite !(free_word x y0) by (done || (offsets; lia)).
    rewrite (hp_size Hh _ _ Hx0), (hp_dye Hh _ _ Hx0).
    destruct (decide (x = a)) as [Heq|Hne']; [by destruct (Hxa Heq) as [-> ->]|by rewrite (Hxy Hne')]. }
  destruct Hc as [[-> ->]|[[-> ->]|(Hxa & Hxn & ->)]].
  - rewrite Ha in Hx0. injection Hx0 as <-. destruct Hbf as [Hb1 _]. apply Hsame; [lia| |done]. intros _. unfold sizeword, flag_bits, dye_of. cbn. by rewrite Hb1.
  - split; [rewrite rd_wr_ne by (offsets; lia); apply rd_wr|rewrite !rd_wr_ne by (offsets; lia)].
    + destruct Hlinked as [_ Hm]. apply Hm. eexists. by apply (hp_size Hh).
    + rewrite (free_word n d) by (done || (offsets; lia)). exact (hp_dye Hh _ _ Hd).
  - apply Hsame; done.
Qed.

Lemma heap_close_free : heap ∅ mf h2 Gf F'.
Proof.
  pose proof sizes. pose proof Hh as []. pose proof (close_order a b Hs). destruct Hbf as [Hb1 Hb2].
  pose proof (flagged_old W G a b d hp_layout0 Ha Hd true true) as Hold. destruct Hlinked as [_ Hmh]. split.
  - done.
  - by apply layout_flag.
  - intros x y Hx. by apply free_header.
  - intros x y Hx. by apply free_header.
  - intros x y Hx Hf _. destruct (Hold x y Hx) as (y0 & Hx0 & Hsz & Hc).
    assert (blk_end x y = blk_end x y0) as -> by (unfold blk_end; lia).
    destruct (decide (x = a)) as [->|Hxa].
    + rewrite Ha in Hx0. injection Hx0 as <-. apply rd_wr, has_wr, Hmh.
      destruct (ly_blk _ _ _ hp_layout0 _ d Hd) as (Hal & _ & ? & _ & w & Hw & Hw1 & Hw2). apply (hp_mem0 w); [done| |offsets; lia].
      unfold prev_at. apply Z.divide_add_r; [done|apply Z.divide_factor_r].
    + assert (Hf0 : bfree y0 = true) by (destruct Hc as [[? _]|[[-> ->]|(_ & _ & ->)]]; [done|rewrite Hd in Hx0; by injection Hx0 as <-|done]).
      destruct (close_back x y0 Hx0 Hf0 Hxa) as (H1 & _ & _ & H4 & H5). rewrite !rd_wr_ne by done.
      destruct (ly_blk _ _ _ hp_layout0 x y0 Hx0) as (_ & _ & _ & Hr & _). specialize (Hr Hf0).
      destruct (ly_next _ _ _ hp_layout0 x y0 Hx0 ltac:(lia)) as (e & He & _). by rewrite (free_word _ e) by (done || (offsets; lia)).
  - intros w y Hw Hy Hr. repeat apply has_wr. apply Hmh. by eapply hp_mem0.
  - eapply lists_frame; [exact Hl2|]. intros f' s' x (y & Hx & Hf & _ & _)%free_listed.
    destruct (Hold x y Hx) as (y0 & Hx0 & Hsz & Hc). assert (Hxn : x <> n) by (intros ->; destruct Hc as [[? _]|[[_ ->]|(_ & ? & _)]]; [lia|cbn in Hf; congruence|done]).
    destruct (ly_blk _ _ _ hp_layout0 x y0 Hx0) as (_ & _ & ? & Hr & _). destruct (ly_blk _ _ _ hp_layout0 _ d Hd) as (_ & _ & ? & _).
    assert (bfree y0 = true) as Hr0%Hr by (destruct Hc as [[-> ->]|[[? _]|(_ & _ & ->)]]; [rewrite Ha in Hx0; by injection Hx0 as <-|done|done]).
    split; (rewrite !rd_wr_ne; [done|apply (word_ne W _ G n d x y0 _ _ hp_layout0 Hd Hx0); [done|offsets; lia..]..]).
  - apply free_listed.
  - intros y Hy. apply close_safe; [right|done]. intros Hr. destruct (hp_safe0 y Hy a b Ha Hr). congruence.
  - intros y Hy. assert (Hns : safe Gf y) by (apply close_safe; [right|done]; intros Hr; destruct (hp_safe0 y Hy a b Ha Hr); congruence).
    rewrite !rd_wr_ne by (intros <-; apply (close_out _ Hy); right; offsets; lia).
    rewrite free_link; [by apply hp_kept0|]. intros (x & e & Hx & Hf & Hr). destruct (Hns x e Hx); [offsets; lia|congruence].
  - unfold relist in Hrel. rewrite Hrel. apply hp_head0.
Qed.
End close.

End heap_step.
End HeapStep.
