(* ===== verification/HeapAlloc.v ===== *)
(** * Allocation and release through the lists ([k_mm_alloc], [k_mm_free])

    What the calls do to a heap: a request is answered by a block that is cut, a block that
    is given back is joined to its free neighbours. *)
From S2P Require Import Prelude Config Bitmap Kernel Sched Queue Mblk Heap HeapClass HeapList HeapInv HeapStep.
Import Bitmap Queue Mblk Heap HeapClass HeapList HeapInv HeapStep.

Module HeapAlloc.
Section heap_alloc.
Context {cfg : RhinoConfig} (hd : addr).

(** ** The flags in the word of the size *)

Section words.
Context (b : blk).
Hypothesis Hal : al (bsz b).

#[local] Ltac flags := unfold sizeword, flag_bits, RHINO_MM_FREE, RHINO_MM_PREVFREE, RHINO_MM_PRESTAT_MASK;
  cbn [bsz bfree bpf]; destruct (al_4 _ Hal) as [q Hq]; destruct b as [sz [|] [|]]; cbn [bsz bfree bpf] in *; rewrite Hq.
#[local] Ltac small := by (split; vm_compute).

Lemma word_free : Z.land (sizeword b) RHINO_MM_FREE <> 0 <-> bfree b = true.
Proof. flags; rewrite land_low by small; done. Qed.
Lemma word_prevfree : Z.land (sizeword b) RHINO_MM_PREVFREE <> 0 <-> bpf b = true.
Proof. flags; rewrite land_low by small; done. Qed.
Lemma word_clear_prev : Z.land (sizeword b) (Z.lnot RHINO_MM_PREVFREE) = sizeword (b <| bpf := false |>).
Proof. flags; rewrite clear_low by small; done. Qed.
Lemma word_clear_free : Z.land (sizeword b) (Z.lnot RHINO_MM_FREE) = sizeword (b <| bfree := false |>).
Proof. flags; rewrite clear_low by small; done. Qed.
Lemma word_set_prev : Z.lor (sizeword b) RHINO_MM_PREVFREE = sizeword (b <| bpf := true |>).
Proof. flags; rewrite lor_low by small; done. Qed.
Lemma word_set_free : Z.lor (sizeword b) RHINO_MM_FREE = sizeword (b <| bfree := true |>).
Proof. flags; rewrite lor_low by small; done. Qed.
Lemma word_prestat : Z.land (sizeword b) RHINO_MM_PRESTAT_MASK = if bpf b then 2 else 0.
Proof. flags; rewrite land_low by small; done. Qed.
Lemma word_resize size : al size -> Z.lor size (Z.land (sizeword b) RHINO_MM_PRESTAT_MASK) = sizeword (mk_blk size false (bpf b)).
Proof.
  intros Hsz. destruct (al_4 _ Hsz) as [r ->]. flags; rewrite land_low by small; rewrite <- (Z.add_0_r (r * 4)) at 1;
    rewrite lor_low by small; done.
Qed.
End words.

Lemma word_rest rest : al rest -> Z.lor (Z.lor rest RHINO_MM_FREE) RHINO_MM_PREVALLOCED = rest + 1.
Proof.
  intros Hal. destruct (al_4 _ Hal) as [q ->]. rewrite Z.lor_0_r, <- (Z.add_0_r (q * 4)) at 1. by rewrite lor_low by (by (split; vm_compute)).
Qed.

(** ** Statistics *)

(** the head but for its sizes and counts *)
Definition restat (h h' : k_mm_head) : Prop :=
  regioninfo h' = regioninfo h /\ fixedmblk h' = fixedmblk h /\ length (mm_size_stats h') = length (mm_size_stats h) /\
  fl_bitmap h' = fl_bitmap h /\ sl_bitmap h' = sl_bitmap h /\ mm_tbl h' = mm_tbl h.

Lemma wp_removesize st m h size Q : (forall h', restat h h' -> Q tt (put hd st m h')) -> wp (removesize hd size) Q (put hd st m h).
Proof. intros HQ. apply wp_mm_upd, HQ. by repeat split. Qed.

Lemma find_first_bit_some x s : 0 < x < 2 ^ size_bits -> exists n, find_first_bit x s = Some (n, s) /\ 0 <= n.
Proof.
  intros Hx. assert (words_ok (words_of x) /\ krhino_find_first_bit (words_of x) <> None) as [Hok Hne].
  { unfold words_of, words_ok. destruct (decide (size_bits = 32)) as [He|He].
    - rewrite He in Hx. split; [apply Forall_singleton; lia|]. cbn. by rewrite decide_False by lia.
    - assert (size_bits = 64) as H64 by (destruct cfg_size_bits; lia). rewrite H64 in Hx.
      rewrite Z.shiftr_div_pow2 by lia. pose proof (wrap_range 32 x ltac:(lia)). pose proof (Z.div_mod x (2 ^ 32) ltac:(lia)) as Hm.
      assert (0 <= x / 2 ^ 32 < 2 ^ 32) by (split; [apply Z.div_pos; lia|apply Z.div_lt_upper_bound; lia]).
      split; [by do 2 (apply Forall_cons; split; [done|]); apply Forall_nil|]. unfold wrap in *. cbn [krhino_find_first_bit find_first_bit_from].
      destruct (decide (x mod 2 ^ 32 = 0)) as [Hz|]; [|done]. by rewrite decide_False by lia. }
  unfold find_first_bit. destruct (krhino_find_first_bit (words_of x)) as [n|] eqn:Hn; [|done]. exists n.
  split; [done|]. apply find_first_bit_from_spec in Hn as (? & _); [|done]. lia.
Qed.

Lemma wp_addsize st m h size req Q : 2 <= req < 2 ^ size_bits -> length (mm_size_stats h) = Z.to_nat MAX_MM_BIT ->
  (forall h', restat h h' -> Q tt (put hd st m h')) -> wp (addsize hd size req) Q (put hd st m h).
Proof.
  intros Hreq Hlen HQ. pose proof cfg_mm_bits as Hmm. unfold addsize. do 2 apply wp_bind, wp_mm_upd.
  set (h1 := _ <| free_size := _ |> <| used_size ::= _ |>). apply wp_bind. unfold sizetoindex. apply wp_bind.
  rewrite wrap_small by lia. set (h2 := if decide _ then _ else h1).
  assert (Hh2 : restat h h2) by (unfold h2, h1; repeat destruct (decide _); by repeat split).
  destruct (find_first_bit_some (req - 1) (put hd st m h2)) as (n & Hn & Hn0); [lia|]. eapply wp_eq; [exact Hn|]. apply wp_ret.
  apply wp_bind, wp_mm_get. set (i0 := if decide (MAX_MM_BIT < _) then _ else _). set (i := if decide (i0 < 1) then 1 else i0).
  assert (Hi : 1 <= i <= MAX_MM_BIT).
  { unfold i, i0, MAX_MM_BIT in *. pose proof (wrap_range size_bits (31 - n) ltac:(destruct cfg_size_bits; lia)). repeat case_decide; lia. }
  destruct Hh2 as (R1 & R2 & R3 & R4 & R5 & R6).
  destruct (lookup_lt_is_Some_2 (mm_size_stats h2) (Z.to_nat (i - 1))) as [v Hv]; [lia|].
  apply wp_bind. eapply wp_at_ix; [lia|exact Hv|]. apply wp_mm_upd, HQ. repeat split; try done. cbn. rewrite length_insert. lia.
Qed.

Section blocks.
Context (W : list (Z * Z)) (P : Z -> Prop) (m0 : gmap addr Z) (h0 : k_mm_head) (st : kstate).
Notation heap := (heap_at W P m0 h0).

Lemma heap_restat X m h h' G F : heap X m h G F -> restat h h' -> heap X m h' G F.
Proof.
  intros [] (R1 & R2 & R3 & R4 & R5 & R6). split; try done; [by eapply lists_head|].
  destruct hp_head0 as (? & ? & ?). repeat split; congruence.
Qed.

(** ** Blocks in use *)

(** the blocks in use with their sizes *)
Definition used (G : gmap Z blk) : gmap Z Z := omap (fun b => if bfree b then None else Some (bsz b)) G.

Lemma lookup_used G a n : used G !! a = Some n <-> exists b, G !! a = Some b /\ bfree b = false /\ bsz b = n.
Proof.
  unfold used. rewrite lookup_omap, bind_Some. split.
  - intros (b & Hb & Hs). destruct (bfree b) eqn:Hf; [done|]. injection Hs as <-. eauto.
  - intros (b & Hb & Hf & Hn). exists b. rewrite Hf. split; [done|by f_equal].
Qed.

Lemma used_insert G a b : used (<[a := b]> G) = if bfree b then delete a (used G) else <[a := bsz b]> (used G).
Proof. unfold used. destruct (bfree b) eqn:Hf; [by rewrite omap_insert_None by by rewrite Hf|]. apply omap_insert_Some. by rewrite Hf. Qed.

Lemma used_same G a b b' : G !! a = Some b -> bfree b' = bfree b -> bsz b' = bsz b -> used (<[a := b']> G) = used G.
Proof.
  intros Ha Hf Hs. rewrite used_insert, Hf, Hs. destruct (bfree b) eqn:Hb.
  - apply delete_id. apply eq_None_not_Some. intros [n (c & Hc & Hcf & _)%lookup_used]. congruence.
  - apply insert_id, lookup_used. by exists b.
Qed.

Lemma used_free G a b : G !! a = Some b -> bfree b = true -> used G !! a = None.
Proof. intros Ha Hf. apply eq_None_not_Some. intros [n (c & Hc & Hcf & _)%lookup_used]. congruence. Qed.

Lemma used_flagged G a b d f : G !! a = Some b -> G !! blk_end a b = Some d -> 0 < bsz b -> (f = true -> bfree b = true) ->
  used (flagged G a b d f f) = if f then used G else <[a := bsz b]> (used G).
Proof.
  intros Ha Hd Hs Hf. pose proof (close_order a b Hs). unfold flagged. rewrite used_insert. cbn.
  rewrite (used_same G _ d) by done. destruct f; [|done]. apply delete_id. eapply used_free; eauto.
Qed.

Lemma used_split X G a b d sz rest : layout W X G -> G !! a = Some b -> G !! blk_end a b = Some d -> bsz b = sz + MMLIST_HEAD_SIZE + rest ->
  0 <= sz -> 2 * ptr_size <= rest -> used (split_map G a b d sz rest) = <[a := sz]> (used G).
Proof.
  intros Hly Ha Hd Hs Hsz Hr. unfold split_map. rewrite used_insert. cbn. rewrite used_insert. cbn. rewrite (used_same G _ d) by done.
  f_equal. apply delete_id. apply eq_None_not_Some. intros [n (c & Hc & _)%lookup_used]. pose proof sizes.
  pose proof (ly_sep _ _ _ Hly a b _ c Ha Hc). unfold split_at, blk_end in *. lia.
Qed.

(** ** Cutting a block *)

(** The rest of a block that is cut enters its list, and the block gets its new size; the dye
    is written by the callers. *)
Lemma wp_cut m m1 h G F a b d sz rest w Q :
  heap {[a]} m h G F -> G !! a = Some b -> G !! blk_end a b = Some d -> bfree d = false ->
  bsz b = sz + MMLIST_HEAD_SIZE + rest -> 0 <= sz /\ al sz -> 2 * ptr_size <= rest ->
  (forall y, P y -> ~ split_at a sz <= y < blk_end a b) -> cut_written m m1 a (split_at a sz) rest (blk_end a b) d ->
  rd m1 (size_at a) = Some w -> Z.land w RHINO_MM_PRESTAT_MASK = Z.land (sizeword b) RHINO_MM_PRESTAT_MASK ->
  (forall m2 h2 F', heap ∅ (wr m2 (dye_at a) RHINO_MM_CORRUPT_DYE) h2 (split_map G a b d sz rest) F' -> has m2 (dye_at a) ->
     Q tt (put hd st m2 h2)) ->
  wp (r ← bitmap_search rest ACTION_INSERT; insert_block hd (split_at a sz) r.1.2 r.2;;
      hupd (size_at a) (fun w => Z.lor sz (Z.land w RHINO_MM_PRESTAT_MASK))) Q (put hd st m1 h).
Proof.
  intros Hh Ha Hd Hdf Hsz [Hsz0 Hal] Hrest HP Hcut Hw Hwb HQ. pose proof sizes. set (c := split_at a sz) in *.
  pose proof (cut_layout W P m0 h0 m h G F a b d sz rest Hh Ha Hd Hdf Hsz (conj Hsz0 Hal) Hrest) as Hly.
  destruct (cut_lookups G a b d sz rest) as (La & Lc & Ln); [done..|]. fold c in Lc.
  destruct (cut_order a b sz rest) as [Hord Hend]; [done..|]. fold c in Hord, Hend.
  destruct (layout_size W _ G a b (hp_win Hh) (hp_layout Hh) Ha) as (Ha0 & Hmax & _).
  destruct (size_class rest) as [f s] eqn:Hc. destruct (class_range rest f s) as [Hf Hs]; [lia|done|].
  assert (Hlists : lists_ok m1 h F) by by apply (cut_lists W P m0 h0 m m1 h G F a b d sz rest).
  assert (Hin : forall f s x, x ∈ F f s -> roomy (split_map G a b d sz rest) x /\ exists y, G !! x = Some y /\ size_class (bsz y) = (f, s)).
  { intros f' s' x (y & Hx & Hfy & HX & Hcy)%(hp_listed Hh). split; [|by exists y]. exists y.
    split; [|by apply (ly_blk _ _ _ (hp_layout Hh) x y Hx)]. apply (cut_kept W P m0 h0 m h G F); try done. set_solver. }
  assert (Hcm : forall i, 0 <= i * ptr_size < MMLIST_HEAD_SIZE + rest -> has m1 (c + i * ptr_size)).
  { intros i Hi. apply (cw_has _ _ _ _ _ _ _ Hcut). destruct (ly_blk _ _ _ (hp_layout Hh) a b Ha) as (Aal & _ & _ & _ & w' & Hw' & Hw1 & Hw2).
    apply (hp_mem Hh w'); [done| |lia]. unfold c, split_at. rewrite head_size.
    repeat apply Z.divide_add_r; done || apply Z.divide_factor_r. }
  apply wp_bind. eapply wp_eq; [apply bitmap_search_insert; [lia|exact Hc]|]. cbn [fst snd]. apply wp_bind.
  eapply (wp_insert_block hd st m1 h F (roomy (split_map G a b d sz rest)) Hlists (roomy_spread _ _ _ Hly)).
  - intros. by eapply Hin.
  - intros f1 s1 f2 s2 x H1 H2. destruct (Hin _ _ _ H1) as (_ & y & Hy & <-), (Hin _ _ _ H2) as (_ & y' & Hy' & <-). congruence.
  - done.
  - lia.
  - by exists (mk_blk rest true false).
  - intros f' s' Hx. destruct (Hin _ _ _ Hx) as (_ & y & Hy & _).
    pose proof (split_fresh W G a b (hp_layout Hh) Ha sz rest Hsz (conj Hsz0 Hal) Hrest). unfold c in Hy. congruence.
  - apply (Hcm 4). lia.
  - apply (Hcm 5). lia.
  - intros m2 h2 Hl2 Hrel Hm2.
    assert (Hw2 : rd m2 (size_at a) = Some w).
    { rewrite <- Hw. eapply (cut_unlinked W P m0 h0 m m1 h G F a b d sz rest) with (e := mk_blk sz false (bpf b)); try done; offsets; lia. }
    eapply wp_hupd; [exact Hw2|]. destruct (ly_blk _ _ _ (hp_layout Hh) a b Ha) as (_ & Hbal & _).
    rewrite Hwb, word_resize by done. eapply HQ.
    + eapply (heap_cut W P m0 h0 m m1 h G F); done.
    + apply has_wr. destruct Hm2 as [_ Hm2]. apply Hm2, (cw_has _ _ _ _ _ _ _ Hcut). eexists. by apply (hp_dye Hh).
Qed.

(** The free block [a] was taken out of its list; [sz] bytes of it are handed out. *)
Lemma wp_split_block m h G F a b d sz Q :
  heap {[a]} m h G F -> G !! a = Some b -> bfree b = true -> bpf b = false ->
  G !! blk_end a b = Some d -> bpf d = true -> bfree d = false -> al sz -> 2 * ptr_size <= sz <= bsz b ->
  (forall m' h' G' F' k, heap ∅ (wr m' (dye_at a) RHINO_MM_CORRUPT_DYE) h' G' F' -> used G' = <[a := k]> (used G) -> sz <= k < sz + sizeof_mm_list ->
    has m' (dye_at a) -> Q tt (put hd st m' h')) ->
  wp (split_block hd a sz) Q (put hd st m h).
Proof.
  intros Hh Ha Hbf Hbp Hd Hdp Hdf Hal Hsz HQ. pose proof Hh as []. pose proof sizes.
  destruct (layout_size W _ G a b hp_win0 hp_layout0 Ha) as (Ha0 & Hmax & Hend). pose proof max_mm_bound as Hmm. rewrite max_mm_size in Hmax.
  destruct (ly_blk _ _ _ hp_layout0 a b Ha) as (Aal & Abal & _). pose proof size_bits_pow.
  apply wp_bind. eapply wp_rd; [by apply hp_size0|]. rewrite (heap_blksize _ _ _ _ _ _ _ _ _ _ _ Hh Ha), (heap_next _ _ _ _ _ _ _ _ _ _ _ Hh Ha). cbv zeta.
  rewrite (wrap_small size_bits (bsz b - sz)) by lia. destruct (decide (sizeof_mm_list <= bsz b - sz)) as [Hbig|Hsmall].
  - change (NEXT_MM_BLK (buffer_at a) sz) with (wrap size_bits (buffer_at a + sz)).
    assert (Hc : wrap size_bits (buffer_at a + sz) = split_at a sz) by (rewrite wrap_small; unfold split_at; offsets; lia).
    rewrite Hc. unfold sizeof_mm_list in Hbig. rewrite (wrap_small size_bits (bsz b - sz - MMLIST_HEAD_SIZE)) by lia.
    set (rest := bsz b - sz - MMLIST_HEAD_SIZE). assert (Hsum : bsz b = sz + MMLIST_HEAD_SIZE + rest) by lia.
    assert (Hral : al rest) by (apply Z.divide_sub_r; [by apply Z.divide_sub_r|rewrite head_size; apply Z.divide_factor_r]).
    rewrite word_rest by done. destruct (split_order a b sz rest) as [Hord Hce]; [done|split; [lia|done]|lia|].
    assert (Hcm : forall i, 0 <= i < 4 -> has m (split_at a sz + i * ptr_size)).
    { intros i Hi. destruct (ly_blk _ _ _ hp_layout0 a b Ha) as (_ & _ & _ & _ & w' & Hw' & Hw1 & Hw2).
      apply (hp_mem0 w'); [done| |nia]. unfold split_at. rewrite head_size.
      repeat apply Z.divide_add_r; done || apply Z.divide_factor_r. }
    destruct (ly_blk _ _ _ hp_layout0 _ d Hd) as (Dal & _ & ? & _ & w' & Hw' & Hw1 & Hw2).
    apply wp_bind, wp_hset; [apply (Hcm 3); lia|]. apply wp_bind, wp_hset.
    { apply has_wr. specialize (Hcm 0). unfold dye_at. replace (split_at a sz + 0 * ptr_size) with (split_at a sz) in Hcm by lia. apply Hcm; lia. }
    apply wp_bind, wp_hset.
    { do 2 apply has_wr. apply (hp_mem0 w'); [done| |offsets; lia]. apply Z.divide_add_r; [done|apply Z.divide_factor_r]. }
    eapply (wp_cut m _ h G F a b d sz rest); try done; [split; [lia|done]|lia|..].
    + intros y Hy Hr. destruct (hp_safe0 y Hy a b Ha); [lia|congruence].
    + assert (Hcn : forall y, split_at a sz <= y < buffer_at (split_at a sz) -> y < blk_end a b) by (intros; offsets; lia).
      split.
      * rewrite 2!rd_wr_ne by (unfold split_at in *; offsets; lia). apply rd_wr, (Hcm 3). lia.
      * rewrite rd_wr_ne by (unfold split_at in *; offsets; lia). apply rd_wr, has_wr. specialize (Hcm 0). rewrite Z.add_0_r in Hcm. apply Hcm; lia.
      * apply rd_wr. do 2 apply has_wr. apply (hp_mem0 w'); [done| |offsets; lia]. apply Z.divide_add_r; [done|apply Z.divide_factor_r].
      * rewrite !rd_wr_ne by (unfold split_at in *; offsets; lia). rewrite (hp_size0 _ _ Hd). destruct d; cbn in *. by subst.
      * intros y H1' H2' _ _. rewrite !rd_wr_ne; [done|intros <-; apply H1' || apply H2'; unfold split_at in *; offsets; lia..].
      * intros y Hy. by repeat apply has_wr.
    + rewrite !rd_wr_ne by (unfold split_at in *; offsets; lia). by apply hp_size0.
    + intros m2 h2 F' Hh2 Hhas. eapply (HQ _ _ _ _ sz); [exact Hh2| |unfold sizeof_mm_list; lia|done].
      apply (used_split {[a]}); done || lia.
  - apply wp_bind. eapply wp_hupd; [by apply hp_size0|]. destruct (ly_blk _ _ _ hp_layout0 _ d Hd) as (_ & Dal & _).
    eapply wp_hupd; [rewrite rd_wr_ne by (offsets; lia); by apply hp_size0|]. rewrite word_clear_prev, word_clear_free by done.
    eapply (HQ _ _ _ _ (bsz b)); [eapply heap_close_used; done || lia|apply used_flagged; done || lia|lia|]. do 2 apply has_wr. eexists. by apply hp_dye0.
Qed.

(** A free block lies between blocks in use. *)
Lemma free_around G a b : layout W ∅ G -> G !! a = Some b -> bfree b = true ->
  bpf b = false /\ exists d, G !! blk_end a b = Some d /\ bpf d = true /\ bfree d = false.
Proof.
  intros Hly Ha Hf. pose proof sizes. destruct (ly_blk _ _ _ Hly a b Ha) as (_ & _ & _ & Hr & _). specialize (Hr Hf). split.
  - destruct (bpf b) eqn:Hp; [|done]. destruct (ly_prev _ _ _ Hly a b Ha Hp) as [[?|?] _]; [congruence|set_solver].
  - destruct (ly_next _ _ _ Hly a b Ha ltac:(lia)) as (d & Hd & Hp). exists d.
    assert (Hdp : bpf d = true) by (rewrite Hp by set_solver; done). split; [done|]. split; [done|].
    destruct (ly_prev _ _ _ Hly _ d Hd Hdp) as [[?|?] _]; [done|set_solver].
Qed.

(** ** Looking for a block *)

(** the size that is looked for *)
Definition asked (size : Z) : Z :=
  let size := MM_ALIGN_UP size in if decide (size < AOS_MM_TLF_ALLOC_MIN_LENGTH) then AOS_MM_TLF_ALLOC_MIN_LENGTH else size.

Lemma asked_ok size : 0 < size <= 2 ^ 31 -> al (asked size) /\ size <= asked size /\ 2 * ptr_size <= asked size <= 2 ^ 31 /\
  asked size < size + 2 * ptr_size.
Proof.
  intros Hs. pose proof size_bits_pow. destruct (align_up_eq size) as [Hr Hal]; [lia..|].
  assert (MM_ALIGN_UP size <= 2 ^ 31).
  { destruct Hal as [q Hq]. destruct ptr_cases as [Hp|Hp]; rewrite Hp in *; lia. }
  unfold asked, AOS_MM_TLF_ALLOC_MIN_LENGTH. cbv zeta. destruct ptr_cases as [Hp|Hp]; case_decide; rewrite ?Hp in *; repeat split;
    try done; try lia; exists 2; rewrite Hp; lia.
Qed.

(** No free block is as large as what the request is rounded up to. *)
Definition no_room (G : gmap Z blk) (size : Z) : Prop :=
  forall a b, G !! a = Some b -> bfree b = true -> bsz b < round_size (asked size).

Lemma wp_tlsf_alloc m h G F size req Q :
  heap ∅ m h G F -> 0 < size <= 2 ^ 31 -> 2 <= req < 2 ^ size_bits ->
  (no_room G size -> Q 0 (put hd st m h)) ->
  (forall m' h' G' F' a b k, heap ∅ m' h' G' F' -> G !! a = Some b -> bfree b = true -> used G' = <[a := k]> (used G) ->
     asked size <= k < asked size + sizeof_mm_list ->
     Q (buffer_at a) (put hd st m' h')) ->
  wp (tlsf_alloc hd size req) Q (put hd st m h).
Proof.
  intros Hh Hsize Hreq HQ0 HQ. pose proof Hh as []. pose proof sizes. destruct (asked_ok size Hsize) as (Aal & A1 & A2 & A3).
  unfold tlsf_alloc. change (if decide (MM_ALIGN_UP size < _) then _ else _) with (asked size). cbv zeta. apply wp_bind.
  destruct (bitmap_search_get (asked size) (put hd st m h)) as [Hok Hbad]; [lia|].
  destruct (decide (round_size (asked size) < MAX_MM_SIZE)) as [Hlt|Hge].
  2: { destruct Hbad as (f & s & Hrun); [lia|]. eapply wp_eq; [exact Hrun|]. cbn [fst snd]. apply wp_ret, HQ0.
    intros a b Ha _. destruct (layout_size _ _ _ _ _ hp_win0 hp_layout0 Ha) as (_ & ? & _). lia. }
  destruct (size_class (round_size (asked size))) as [f s] eqn:Hc. eapply wp_eq; [by apply Hok|]. cbn [fst snd].
  destruct (round_size_ge (asked size)) as [Hrge _]; [lia|]. pose proof (class_range _ f s ltac:(split; [|exact Hlt]; lia) Hc) as Hin.
  rewrite decide_False by auto. apply wp_bind. eapply (wp_findblk hd f s F); [done|done|..].
  2: { intros Hnone f' s'. cbn [fst snd]. rewrite decide_True by done. apply wp_ret, HQ0. intros a b Ha Hf.
    destruct (decide (bsz b < round_size (asked size))); [done|]. exfalso.
    destruct (size_class (bsz b)) as [f1 s1] eqn:Hc1. destruct (heap_class _ _ _ _ _ _ _ _ _ _ _ _ _ Hh Ha Hc1) as [Hr Hin1].
    assert (a ∈ F f1 s1) as Hx by (apply hp_listed0; exists b; set_solver). rewrite Hnone in Hx; [by apply not_elem_of_nil in Hx|done|].
    rewrite <- Hc, <- Hc1. apply class_mono. lia. }
  intros a f1 s1 l Hin1 Hle HF Ha0. cbn [fst snd]. rewrite decide_False by done.
  assert (a ∈ F f1 s1) as (b & Ha & Hf & _ & Hc1)%hp_listed0 by (rewrite HF; left).
  destruct (free_around G a b hp_layout0 Ha Hf) as (Hbp & d & Hd & Hdp & Hdf).
  assert (Hfit : asked size <= bsz b).
  { destruct (ly_blk _ _ _ hp_layout0 a b Ha) as (_ & Bal & ? & _). destruct (al_4 _ Bal) as [q Hq], (al_4 _ Aal) as [q' Hq'].
    apply class_fit; [lia|rewrite Hq'; apply Z.mod_mul; lia|lia|rewrite Hq; apply Z.mod_mul; lia|]. by rewrite Hc, Hc1. }
  apply wp_bind. eapply (wp_take_listed hd W P m0 h0); [done|done|done|]. intros m1 h1 F1 Hh1. rewrite union_empty_r_L in Hh1.
  apply wp_bind. eapply (wp_split_block m1 h1 G F1 a b d (asked size)); try done; [lia|]. intros m2 h2 G2 F2 k Hh2 Hu Hk Hdye.
  apply wp_bind, wp_hset; [done|]. rewrite decide_True by (destruct (layout_size _ _ _ _ _ hp_win0 hp_layout0 Ha); offsets; lia).
  assert (used G2 !! a = Some k) as (b2 & Hb2 & Hbf2 & Hbk)%lookup_used by (rewrite Hu; apply lookup_insert_eq).
  apply wp_bind, wp_bind. eapply wp_rd; [by apply (hp_size Hh2)|]. apply wp_addsize; [done|by apply (hp_head Hh2)|].
  intros h3 Hst. apply wp_ret. eapply HQ; [by eapply heap_restat|done..].
Qed.

(** ** Giving a block back *)

Lemma wp_mm_report (p : Prop) `{Decision p} cpsr Q s : ~ p -> Q tt s -> wp (mm_report (bool_decide p) cpsr) Q s.
Proof. intros Hp HQ. unfold mm_report, when. rewrite bool_decide_false by done. by apply wp_ret. Qed.

Lemma joined_word X m h G F a b c : heap X m h G F -> G !! a = Some b -> 0 <= bsz c -> blk_end a b + MMLIST_HEAD_SIZE + bsz c + 8 < 2 ^ size_bits ->
  wrap size_bits (sizeword b + (bsz c + MMLIST_HEAD_SIZE)) = sizeword (joined b c).
Proof.
  intros Hh Ha Hc Hr. pose proof sizes. destruct (layout_size _ _ _ _ _ (hp_win Hh) (hp_layout Hh) Ha) as (Ha0 & _ & _).
  destruct (ly_blk _ _ _ (hp_layout Hh) a b Ha) as (_ & _ & ? & _). pose proof (flag_range b).
  rewrite wrap_small; unfold sizeword, blk_end, joined, flag_bits in *; cbn; lia.
Qed.

Lemma used_join X G a b t c : layout W X G -> G !! a = Some b -> G !! t = Some c -> a < t -> bfree c = true ->
  used (join_map G a t b c) = if bfree b then used G else <[a := bsz b + (bsz c + MMLIST_HEAD_SIZE)]> (used G).
Proof.
  intros Hly Ha Ht Hat Hf. unfold join_map. unfold used at 1. rewrite omap_delete. fold (used (<[a := joined b c]> G)).
  rewrite used_insert. cbn. pose proof (used_free G t c Ht Hf) as Htn. destruct (bfree b) eqn:Hb.
  - rewrite (delete_id _ _ (used_free G a b Ha Hb)). by apply delete_id.
  - apply delete_id. by rewrite lookup_insert_ne by lia.
Qed.

(** What stands behind the block that is worked on. *)
Definition walled (G : gmap Z blk) (a : Z) (b : blk) : Prop := exists d, G !! blk_end a b = Some d /\ bfree d = false.

(** The block joins the one behind it if that is free. *)
Lemma wp_merge_next m h G F a b Q : heap {[a]} m h G F -> G !! a = Some b -> 0 < bsz b -> bfree b = true ->
  (forall m' h' G' F' b', heap {[a]} m' h' G' F' -> G' !! a = Some b' -> bfree b' = true -> bpf b' = bpf b -> 0 < bsz b' ->
     walled G' a b' -> used G' = used G -> Q tt (put hd st m' h')) ->
  wp (merge_next hd a) Q (put hd st m h).
Proof.
  intros Hh Ha Hs Hbf HQ. pose proof Hh as []. pose proof sizes.
  destruct (ly_next _ _ _ hp_layout0 a b Ha Hs) as (c & Ht & _). set (t := blk_end a b) in *.
  assert (Hat : a < t) by (unfold t; offsets; lia). destruct (ly_blk _ _ _ hp_layout0 _ c Ht) as (_ & Tal & _ & Tr & _).
  apply wp_bind. eapply wp_rd; [by apply hp_size0|]. rewrite (heap_blksize _ _ _ _ _ _ _ _ _ _ _ Hh Ha), (heap_next _ _ _ _ _ _ _ _ _ _ _ Hh Ha).
  fold t. cbv zeta. apply wp_bind. eapply wp_rd; [by apply hp_size0|].
  destruct (decide (Z.land (sizeword c) RHINO_MM_FREE <> 0)) as [Hc%word_free|Hc]; [|done|].
  2: { apply wp_ret. eapply (HQ m h G F b); try done. exists c. split; [done|]. apply not_true_is_false. by intros ?%word_free. }
  specialize (Tr Hc). apply wp_bind. eapply (wp_unlist_block hd W P m0 h0); [exact Hh|exact Ht|done|set_solver by lia|].
  intros m1 h1 F1 Hh1. rewrite union_comm_L in Hh1. apply wp_bind. eapply wp_rd; [by apply (hp_size Hh1)|].
  rewrite (heap_blksize _ _ _ _ _ _ _ _ _ _ _ Hh1 Ht). eapply wp_hupd; [by apply (hp_size Hh1)|].
  destruct (layout_size _ _ _ _ _ hp_win0 hp_layout0 Ht) as (_ & _ & Hend).
  rewrite (joined_word _ _ _ _ _ _ _ _ Hh1 Ha) by (unfold blk_end in *; lia).
  assert (Hj : heap {[a]} (wr m1 (size_at a) (sizeword (joined b c))) h1 (join_map G a t b c) F1) by by apply heap_join.
  eapply (HQ _ _ _ _ (joined b c)); [exact Hj|by apply (join_at W _ _ _ _ _ (hp_layout Hh1))|done|done|cbn; lia| |].
  - destruct (ly_next _ _ _ hp_layout0 t c Ht ltac:(lia)) as (d & Hd & Hdp).
    assert (Hord : t < blk_end t c) by (unfold blk_end; lia).
    exists d. rewrite (join_end a t b c) by done. split; [apply join_new; [lia..|done]|].
    destruct (ly_prev _ _ _ hp_layout0 _ d Hd) as [[?|?] _]; [rewrite Hdp; [done|set_solver by lia]|done|set_solver by lia].
  - rewrite (used_join _ _ _ _ _ _ hp_layout0) by done. by rewrite Hbf.
Qed.

(** The block joins the one before it if that is free. *)
Lemma wp_merge_prev m h G F a b cpsr Q : heap {[a]} m h G F -> G !! a = Some b -> 0 < bsz b -> bfree b = true -> walled G a b ->
  (forall m' h' G' F' a' b', heap {[a']} m' h' G' F' -> G' !! a' = Some b' -> bfree b' = true -> bpf b' = false -> 0 < bsz b' ->
     walled G' a' b' -> used G' = used G -> Q a' (put hd st m' h')) ->
  wp (merge_prev hd a cpsr) Q (put hd st m h).
Proof.
  intros Hh Ha Hs Hbf (d & Hd & Hdf) HQ. pose proof Hh as []. pose proof sizes.
  destruct (ly_blk _ _ _ hp_layout0 a b Ha) as (_ & Aal & _). apply wp_bind. eapply wp_rd; [by apply hp_size0|].
  destruct (decide (Z.land (sizeword b) RHINO_MM_PREVFREE <> 0)) as [Hp%word_prevfree|Hp]; [|done|].
  2: { apply wp_ret. eapply (HQ m h G F a b); try done; [|by exists d]. apply not_true_is_false. by intros ?%word_prevfree. }
  destruct (ly_prev _ _ _ hp_layout0 a b Ha Hp) as (_ & u & v & Hu & Hue & Hvf).
  destruct (ly_blk _ _ _ hp_layout0 u v Hu) as (_ & Val & V0 & Vr & _).
  assert (Hua : u < a) by (unfold blk_end in Hue; lia). assert (Hv : bfree v = true) by (destruct Hvf; [done|set_solver by lia]).
  specialize (Vr Hv). assert (Hback : rd m (prev_at a) = Some u) by (rewrite <- Hue; apply hp_back0; [done..|set_solver by lia]).
  apply wp_bind. eapply wp_rd; [exact Hback|]. apply wp_bind. eapply wp_rd; [by apply hp_dye0|].
  apply wp_bind, wp_mm_report; [unfold dye_of; rewrite Hv; auto|].
  apply wp_bind. eapply (wp_unlist_block hd W P m0 h0); [exact Hh|exact Hu|done|set_solver by lia|]. intros m1 h1 F1 Hh1.
  apply wp_bind. eapply wp_rd; [by apply (hp_size Hh1)|]. rewrite (heap_blksize _ _ _ _ _ _ _ _ _ _ _ Hh1 Ha).
  apply wp_bind. eapply wp_hupd; [by apply (hp_size Hh1)|]. destruct (layout_size _ _ _ _ _ hp_win0 hp_layout0 Ha) as (_ & _ & Hend).
  rewrite (joined_word _ _ _ _ _ _ _ _ Hh1 Hu) by (unfold blk_end in *; lia). apply wp_ret.
  assert (Hj : heap {[u]} (wr m1 (size_at u) (sizeword (joined v b))) h1 (join_map G u a v b) F1) by by apply heap_join.
  eapply (HQ _ _ _ _ u (joined v b)); [exact Hj|by apply (join_at W _ _ _ _ _ (hp_layout Hh1))|done| |cbn; lia| |].
  - cbn. destruct (bpf v) eqn:Hpv; [|done]. destruct (ly_prev _ _ _ hp_layout0 u v Hu Hpv) as [[?|?] _]; [congruence|set_solver by lia].
  - exists d. rewrite (join_end u a v b) by done. assert (a < blk_end a b) by (unfold blk_end; lia).
    split; [apply join_new; [lia..|done]|done].
  - rewrite (used_join _ _ _ _ _ _ hp_layout0) by done. by rewrite Hv.
Qed.

(** The block enters its list. *)
Lemma wp_list_block m h G F a b cpsr Q : heap {[a]} m h G F -> G !! a = Some b -> 0 < bsz b -> bfree b = true -> bpf b = false -> walled G a b ->
  (forall m' h' G' F', heap ∅ m' h' G' F' -> used G' = used G -> Q tt (put hd st m' h')) ->
  wp (list_block hd a cpsr) Q (put hd st m h).
Proof.
  intros Hh Ha Hs Hbf Hbp (d & Hd & Hdf) HQ. pose proof Hh as []. pose proof sizes.
  destruct (size_class (bsz b)) as [f s] eqn:Hc. destruct (heap_class _ _ _ _ _ _ _ _ _ _ _ _ _ Hh Ha Hc) as [Hr Hin].
  destruct (ly_blk _ _ _ hp_layout0 a b Ha) as (_ & Aal & _ & Ar & _). specialize (Ar Hbf).
  destruct (ly_blk _ _ _ hp_layout0 _ d Hd) as (_ & Dal & _). destruct (layout_size _ _ _ _ _ hp_win0 hp_layout0 Ha) as (Ha0 & _).
  apply wp_bind. eapply wp_rd; [by apply hp_size0|]. rewrite (heap_blksize _ _ _ _ _ _ _ _ _ _ _ Hh Ha).
  apply wp_bind. eapply wp_eq; [by apply bitmap_search_insert|]. cbn [fst snd]. apply wp_bind.
  destruct (heap_listed _ _ _ _ _ _ _ _ _ Hh) as [HN Honce].
  eapply (wp_insert_block hd st m h F (roomy G) hp_lists0 (roomy_spread _ _ _ hp_layout0) HN Honce); [done|lia|by exists b| | | |].
  - intros f' s' (y & _ & _ & ? & _)%hp_listed0. set_solver.
  - apply (heap_has _ _ _ _ _ _ _ _ _ _ _ 4 Hh Ha). lia.
  - apply (heap_has _ _ _ _ _ _ _ _ _ _ _ 5 Hh Ha). lia.
  - intros m2 h2 Hl2 Hrel Hm2.
    assert (Hword : forall x e y, G !! x = Some e -> x <= y < buffer_at x -> rd m2 y = rd m y).
    { intros x e y. by apply (free_word W P m0 h0 m h G F a b d Hh Ha Hd Hs m2 h2 f s (conj Hbf Hbp)). }
    apply wp_bind. eapply wp_rd; [rewrite (Hword _ _ _ Ha) by (offsets; lia); by apply hp_size0|].
    rewrite (heap_blksize _ _ _ _ _ _ _ _ _ _ _ Hh Ha), (heap_next _ _ _ _ _ _ _ _ _ _ _ Hh Ha). cbv zeta.
    apply wp_bind. eapply wp_rd; [rewrite (Hword _ _ _ Hd) by (offsets; lia); by apply hp_dye0|].
    apply wp_bind, wp_mm_report; [unfold dye_of; rewrite Hdf; tauto|].
    apply wp_bind. eapply wp_hupd; [rewrite (Hword _ _ _ Hd) by (offsets; lia); by apply hp_size0|]. rewrite word_set_prev by done.
    apply wp_hset; [|].
    + apply has_wr. destruct Hm2 as [_ Hm2]. apply Hm2.
      destruct (ly_blk _ _ _ hp_layout0 _ d Hd) as (Dal' & _ & ? & _ & w & Hw & Hw1 & Hw2). apply (hp_mem0 w); [done| |offsets; lia].
      apply Z.divide_add_r; [done|apply Z.divide_factor_r].
    + eapply HQ; [by eapply (heap_close_free W P m0 h0 m h G F a b d)|]. by apply used_flagged.
Qed.

(** A block that is marked as free joins its neighbours and enters a list. *)
Lemma wp_free_marked m h G F a b cpsr (Q : unit -> kstate -> Prop) (k : K unit) :
  heap {[a]} m h G F -> G !! a = Some b -> bfree b = true -> 0 < bsz b ->
  (forall m' h' G' F', heap ∅ m' h' G' F' -> used G' = used G -> wp k Q (put hd st m' h')) ->
  wp (w ← word_get (size_at a);
      removesize hd (wrap size_bits (blksize w + MMLIST_HEAD_SIZE));;
      merge_next hd a;;
      b ← merge_prev hd a cpsr;
      list_block hd b cpsr;;
      k) Q (put hd st m h).
Proof.
  intros Hm Ha Hbf Hs HQ. apply wp_bind. eapply wp_rd; [by apply (hp_size Hm)|]. apply wp_bind, wp_removesize. intros h1 Hst.
  eapply heap_restat in Hm; [|exact Hst]. apply wp_bind.
  eapply (wp_merge_next _ _ _ _ a b); [exact Hm|done..|]. intros m2 h2 G2 F2 b2 Hh2 Hb2 Hf2 _ Hs2 Hw2 Hu2.
  apply wp_bind. eapply (wp_merge_prev _ _ _ _ a b2); [exact Hh2|done..|]. intros m3 h3 G3 F3 a3 b3 Hh3 Hb3 Hf3 Hp3 Hs3 Hw3 Hu3.
  apply wp_bind. eapply (wp_list_block _ _ _ _ a3 b3); [exact Hh3|done..|]. intros m4 h4 G4 F4 Hh4 Hu4.
  eapply HQ; [exact Hh4|]. by rewrite Hu4, Hu3.
Qed.

(** The way through the lists of [k_mm_free]: the dye of a block in use is in order. *)
Definition free_body (a : Z) (cpsr : bool) (k : K unit) : K unit :=
  dye ← word_get (dye_at a);
  mm_report (bool_decide (dye = RHINO_MM_FREE_DYE)) cpsr;;
  mm_report (bool_decide (dye <> RHINO_MM_CORRUPT_DYE)) cpsr;;
  hset (dye_at a) RHINO_MM_FREE_DYE;;
  hupd (size_at a) (fun w => Z.lor w RHINO_MM_FREE);;
  w ← word_get (size_at a);
  removesize hd (wrap size_bits (blksize w + MMLIST_HEAD_SIZE));;
  merge_next hd a;;
  b ← merge_prev hd a cpsr;
  list_block hd b cpsr;;
  k.

Lemma wp_free_dyed m h a b cpsr (Q : unit -> kstate -> Prop) k : al (bsz b) ->
  rd m (dye_at a) = Some RHINO_MM_CORRUPT_DYE -> rd m (size_at a) = Some (sizeword b) ->
  wp (w ← word_get (size_at a);
      removesize hd (wrap size_bits (blksize w + MMLIST_HEAD_SIZE));;
      merge_next hd a;;
      b ← merge_prev hd a cpsr;
      list_block hd b cpsr;;
      k) Q (put hd st (wr (wr m (dye_at a) RHINO_MM_FREE_DYE) (size_at a) (sizeword (b <| bfree := true |>))) h) ->
  wp (free_body a cpsr k) Q (put hd st m h).
Proof.
  intros Hal Hd Hw Hk. pose proof sizes. apply wp_bind. eapply wp_rd; [exact Hd|].
  apply wp_bind, wp_mm_report; [done|]. apply wp_bind, wp_mm_report; [intros Hne; by apply Hne|].
  apply wp_bind, wp_hset; [by eexists|]. apply wp_bind. eapply wp_hupd; [rewrite rd_wr_ne by (offsets; lia); exact Hw|].
  by rewrite word_set_free.
Qed.

(** A block in use goes back. *)
Lemma wp_free_block m h G F a b cpsr (Q : unit -> kstate -> Prop) (k : K unit) :
  heap ∅ m h G F -> G !! a = Some b -> bfree b = false -> 2 * ptr_size <= bsz b -> (forall y, P y -> ~ a <= y < blk_end a b) ->
  (forall m' h' G' F', heap ∅ m' h' G' F' -> used G' = delete a (used G) -> wp k Q (put hd st m' h')) ->
  wp (free_body a cpsr k) Q (put hd st m h).
Proof.
  intros Hh Ha Hbf Hs HP HQ. pose proof Hh as []. pose proof sizes. destruct (ly_blk _ _ _ hp_layout0 a b Ha) as (_ & Hal & _).
  eapply wp_free_dyed; [exact Hal|rewrite hp_dye0 with (b := b) by done; unfold dye_of; by rewrite Hbf|by apply hp_size0|].
  pose proof (heap_mark W P m0 h0 m h G F a b Hh Ha Hbf Hs HP) as Hm.
  eapply (wp_free_marked _ _ _ _ a (b <| bfree := true |>)); [exact Hm|apply lookup_insert_eq|done|cbn; lia|].
  intros m' h' G' F' Hh' Hu. eapply HQ; [exact Hh'|]. by rewrite Hu, used_insert.
Qed.

End blocks.
End heap_alloc.
End HeapAlloc.
