(* ===== verification/HeapRealloc.v ===== *)
(** * Changing the size of a block in place ([k_mm_realloc])

    A block gives the bytes it does not need back, or takes the free block behind it; its
    contents stay where they are. *)
From S2P Require Import Prelude Config Bitmap Kernel Sched Queue Mblk Heap HeapClass HeapList HeapInv HeapStep HeapAlloc.
Import Bitmap Queue Mblk Heap HeapClass HeapList HeapInv HeapStep HeapAlloc.

Module HeapRealloc.
Section heap_realloc.
Context {cfg : RhinoConfig} (hd : addr).
Context (W : list (Z * Z)) (P : Z -> Prop) (m0 : gmap addr Z) (h0 : k_mm_head) (st : kstate).
Notation heap := (heap_at W P m0 h0).

Lemma realloc_size_ok n : 0 < n <= 2 ^ 31 -> al (realloc_size n) /\ n <= realloc_size n <= 2 ^ 31 /\ 6 * ptr_size <= realloc_size n.
Proof.
  intros Hn. unfold realloc_size, sizeof_mm_list. pose proof size_bits_pow. destruct (align_up_eq n) as [Hr Hal]; [lia..|].
  assert (MM_ALIGN_UP n <= 2 ^ 31) by (destruct Hal as [q Hq]; destruct ptr_cases as [Hp|Hp]; rewrite Hp in *; lia).
  case_decide; [split; [apply Z.divide_factor_r|destruct ptr_cases as [Hp|Hp]; rewrite Hp in *; lia]|]. split; [done|].
  destruct Hal as [q Hq], ptr_cases as [Hp|Hp]; rewrite Hp in *; lia.
Qed.

(** The tail of [a] becomes a free block.  In memory the size of [a] may be an older one. *)
Lemma wp_rest_cut m mg h G F a b d sz w Q :
  heap {[a]} mg h G F -> G !! a = Some b -> G !! blk_end a b = Some d -> bfree d = false ->
  (forall y, y <> size_at a -> rd m y = rd mg y) -> rd m (size_at a) = Some w ->
  Z.land w RHINO_MM_PRESTAT_MASK = Z.land (sizeword b) RHINO_MM_PRESTAT_MASK ->
  0 <= sz /\ al sz -> sz + sizeof_mm_list <= bsz b -> (forall y, P y -> ~ split_at a sz <= y < blk_end a b) ->
  (forall m' h' G' F', heap ∅ (wr m' (dye_at a) RHINO_MM_CORRUPT_DYE) h' G' F' -> used G' = <[a := sz]> (used G) ->
    has m' (dye_at a) -> Q tt (put hd st m' h')) ->
  wp (split_rest hd a (blk_end a b) sz (bsz b - sz)) Q (put hd st m h).
Proof.
  intros Hh Ha Hd Hdf Hmg Hw Hwb [Hsz0 Hsal] Hbig HP HQ. pose proof Hh as []. pose proof sizes as [HH Hp4]. unfold sizeof_mm_list in Hbig.
  destruct (layout_size W _ G a b hp_win0 hp_layout0 Ha) as (Ha0 & Hmax & Hend). pose proof max_mm_bound as Hmm. rewrite max_mm_size in Hmax.
  destruct (ly_blk _ _ _ hp_layout0 a b Ha) as (Aal & Abal & _ & _ & wa & Hwa & Hwa1 & Hwa2). pose proof size_bits_pow.
  destruct (ly_blk _ _ _ hp_layout0 _ d Hd) as (Dal & Dbal & D0 & _ & wd & Hwd & Hwd1 & Hwd2).
  unfold split_rest. rewrite decide_True by (unfold sizeof_mm_list; lia). cbv zeta.
  change (NEXT_MM_BLK (buffer_at a) sz) with (wrap size_bits (buffer_at a + sz)).
  assert (Hc : wrap size_bits (buffer_at a + sz) = split_at a sz) by (rewrite wrap_small; unfold split_at; offsets; lia).
  rewrite Hc. rewrite (wrap_small size_bits (bsz b - sz - MMLIST_HEAD_SIZE)) by lia.
  set (rest := bsz b - sz - MMLIST_HEAD_SIZE). assert (Hsum : bsz b = sz + MMLIST_HEAD_SIZE + rest) by lia.
  assert (Hral : al rest) by (apply Z.divide_sub_r; [by apply Z.divide_sub_r|rewrite HH; apply Z.divide_factor_r]).
  rewrite word_rest by done. destruct (split_order a b sz rest) as [Hord Hce]; [done|done|lia|].
  assert (Hhas : forall y, has mg y -> has m y).
  { intros y Hy. unfold has. destruct (decide (y = size_at a)) as [->|Hne]; [by eexists|]. by rewrite Hmg. }
  set (c := split_at a sz) in *. assert (Hcd : c = a + MMLIST_HEAD_SIZE + sz) by done.
  assert (Hcm : forall i, 0 <= i < 4 -> has m (c + i * ptr_size)).
  { intros i Hi. apply Hhas, (hp_mem0 wa); [done| |nia]. rewrite Hcd, HH. repeat apply Z.divide_add_r; done || apply Z.divide_factor_r. }
  assert (Hnm : forall i, 0 <= i < 4 -> has m (blk_end a b + i * ptr_size)).
  { intros i Hi. apply Hhas, (hp_mem0 wd); [done| |unfold blk_end in *; nia]. apply Z.divide_add_r; [done|apply Z.divide_factor_r]. }
  pose proof (Hcm 0 ltac:(lia)) as Hc0. rewrite Z.add_0_r in Hc0.
  set (n := blk_end a b) in *. assert (Hcn : c + 4 * ptr_size <= n) by lia. assert (Hac : a + 4 * ptr_size <= c) by lia.
  apply wp_bind, wp_hset; [apply (Hcm 3); lia|]. apply wp_bind, wp_hset; [by apply has_wr|].
  apply wp_bind, wp_hset. { do 2 apply has_wr. specialize (Hcm 1). unfold owner_at. rewrite Z.mul_1_l in Hcm. apply Hcm. lia. }
  apply wp_bind, wp_hset; [do 3 apply has_wr; apply (Hnm 2); lia|].
  assert (Hout : forall y v1 v2 v3 v4, ~ c <= y < buffer_at c -> y <> prev_at n ->
    rd (wr (wr (wr (wr m (size_at c) v1) (dye_at c) v2) (owner_at c) v3) (prev_at n) v4) y = rd m y).
  { intros y v1 v2 v3 v4 H1 H2. rewrite !rd_wr_ne; [done|intros <-; apply H1 || apply H2; offsets; lia..]. }
  assert (Hdm : rd m (size_at n) = Some (sizeword d)) by (rewrite Hmg by (offsets; lia); by apply hp_size0).
  apply wp_bind. eapply wp_hupd; [rewrite Hout by (offsets; lia); exact Hdm|]. rewrite word_set_prev by done.
  eapply (wp_cut hd W P m0 h0 st mg _ h G F a b d sz rest); try done; [lia|..].
  - split.
    + rewrite 4!rd_wr_ne by (offsets; lia). apply rd_wr, (Hcm 3). lia.
    + rewrite 3!rd_wr_ne by (offsets; lia). by apply rd_wr, has_wr.
    + rewrite rd_wr_ne by (offsets; lia). apply rd_wr. do 3 apply has_wr. apply (Hnm 2). lia.
    + apply rd_wr. do 4 apply has_wr. by eexists.
    + intros y H1 H2 H3 H4. rewrite rd_wr_ne by auto. rewrite Hout by done. by apply Hmg.
    + intros y Hy. do 5 apply has_wr. by apply Hhas.
  - rewrite rd_wr_ne by (offsets; lia). by rewrite Hout by (offsets; lia).
  - intros m2 h2 F' Hh2 Hdye. eapply HQ; [exact Hh2| |done]. by apply (used_split W {[a]}); try done; lia.
Qed.

(** What a change of size in place leaves; the dye of the block is written by the caller. *)
Definition resized (G : gmap Z blk) (a sz : Z) (Q : Z -> kstate -> Prop) : Prop :=
  forall m' h' G' F' k, heap ∅ (wr m' (dye_at a) RHINO_MM_CORRUPT_DYE) h' G' F' -> used G' = <[a := k]> (used G) -> sz <= k ->
    has m' (dye_at a) -> Q (buffer_at a) (put hd st m' h').

(** The statistics are told, and the address is returned. *)
Lemma wp_resize_done m' h' G G' F' a k sz req Q : heap ∅ (wr m' (dye_at a) RHINO_MM_CORRUPT_DYE) h' G' F' ->
  used G' = <[a := k]> (used G) -> sz <= k -> has m' (dye_at a) -> 2 <= req < 2 ^ size_bits -> resized G a sz Q ->
  wp (stats_of (fun n => addsize hd n req) a;; mret (buffer_at a)) Q (put hd st m' h').
Proof.
  intros Hh Hu Hk Hd Hreq HQ. pose proof sizes.
  assert (used G' !! a = Some k) as (b & Hb & _)%lookup_used by (rewrite Hu; apply lookup_insert_eq).
  apply wp_bind, wp_bind. eapply wp_rd.
  { rewrite <- (rd_wr_ne m' (dye_at a) (size_at a) RHINO_MM_CORRUPT_DYE) by (offsets; lia). by apply (hp_size Hh). }
  apply wp_addsize; [done|by apply (hp_head Hh)|]. intros h'' Hst. apply wp_ret.
  eapply HQ; [eapply (heap_restat W P m0 h0); [exact Hh|done]|done..].
Qed.

(** The bytes behind the first [sz] ones of [a] are given back, if they are enough for a block. *)
Lemma wp_split_rest m h G F a b d sz Q :
  heap ∅ m h G F -> G !! a = Some b -> bfree b = false -> G !! blk_end a b = Some d -> bfree d = false ->
  0 <= sz <= bsz b /\ al sz -> (forall y, P y -> ~ split_at a sz <= y < blk_end a b) ->
  (forall m' h' G' F' k, heap ∅ (wr m' (dye_at a) RHINO_MM_CORRUPT_DYE) h' G' F' -> used G' = <[a := k]> (used G) -> sz <= k ->
     has m' (dye_at a) -> Q tt (put hd st m' h')) ->
  wp (split_rest hd a (blk_end a b) sz (bsz b - sz)) Q (put hd st m h).
Proof.
  intros Hh Ha Hbf Hd Hdf [Hsz Hsal] HP HQ. destruct (decide (sizeof_mm_list <= bsz b - sz)) as [Hbig|Hsmall].
  - eapply (wp_rest_cut m m h G F a b d sz); try done; [|by apply (hp_size Hh)|split; [lia|done]|lia|].
    + rewrite <- (union_empty_r_L {[a]}). by eapply heap_open.
    + intros m' h' G' F' Hh' Hu Hdye. by eapply HQ.
  - unfold split_rest. rewrite decide_False by done. apply wp_ret.
    assert (Hdye : rd m (dye_at a) = Some RHINO_MM_CORRUPT_DYE) by (rewrite (hp_dye Hh _ _ Ha); unfold dye_of; by rewrite Hbf).
    eapply (HQ m h G F (bsz b)); [by rewrite (wr_id _ _ _ Hdye)| |lia|by eexists].
    symmetry. apply insert_id, lookup_used. by exists b.
Qed.

(** The next block, if it is free, is taken out of its list. *)
Lemma wp_realloc_shrink m h G F a b sz req Q :
  heap ∅ m h G F -> G !! a = Some b -> bfree b = false -> 0 < sz <= bsz b /\ al sz ->
  (forall y, P y -> ~ split_at a sz <= y < blk_end a b) -> 2 <= req < 2 ^ size_bits -> resized G a sz Q ->
  wp (realloc_shrink hd a (blk_end a b) sz req) Q (put hd st m h).
Proof.
  intros Hh Ha Hbf [Hsz Hsal] HP Hreq HQ. pose proof Hh as []. pose proof sizes.
  destruct (ly_next _ _ _ hp_layout0 a b Ha ltac:(lia)) as (d & Hd & _). set (t := blk_end a b) in *.
  assert (Hat : a < t) by (unfold t, blk_end; lia). destruct (ly_blk _ _ _ hp_layout0 _ d Hd) as (_ & Dal & D0 & Dr & _).
  destruct (layout_size _ _ _ _ _ hp_win0 hp_layout0 Hd) as (_ & Hdmax & Hdend). pose proof max_mm_bound as Hmm. rewrite max_mm_size in Hdmax.
  destruct (layout_size _ _ _ _ _ hp_win0 hp_layout0 Ha) as (_ & Hamax & _). rewrite max_mm_size in Hamax. pose proof size_bits_pow.
  apply wp_bind. eapply wp_rd; [by apply hp_size0|]. rewrite (heap_blksize _ _ _ _ _ _ _ _ _ _ _ Hh Ha). cbv zeta.
  apply wp_bind, wp_bind. eapply wp_rd; [by apply hp_size0|]. apply wp_removesize. intros h1 Hst.
  assert (Hh1 : heap ∅ m h1 G F) by by eapply heap_restat. apply wp_bind. eapply wp_rd; [by apply hp_size0|]. apply wp_bind.
  destruct (decide (Z.land (sizeword d) RHINO_MM_FREE <> 0)) as [Hdf%word_free|Hdf]; [|done|].
  - specialize (Dr Hdf). apply wp_bind. eapply (wp_unlist_block hd W P m0 h0); [eapply heap_open; [exact Hh1|exact Ha|done]|exact Hd|done|set_solver by lia|].
    rewrite union_empty_r_L, union_comm_L. intros m2 h2 F2 Hh2. apply wp_bind. eapply wp_rd; [by apply (hp_size Hh2)|].
    rewrite (heap_blksize _ _ _ _ _ _ _ _ _ _ _ Hh2 Hd), (heap_next _ _ _ _ _ _ _ _ _ _ _ Hh2 Hd). apply wp_ret.
    assert (Hj : heap {[a]} (wr m2 (size_at a) (sizeword (joined b d))) h2 (join_map G a t b d) F2) by by apply heap_join.
    destruct (free_around W G t d hp_layout0 Hd Hdf) as (_ & e & He & _ & Hef).
    assert (Hend : blk_end a (joined b d) = blk_end t d) by by apply join_end.
    rewrite (wrap_small size_bits (bsz b + _)) by lia. rewrite wrap_small by lia. rewrite <- Hend.
    replace (bsz b + (bsz d + MMLIST_HEAD_SIZE) - sz) with (bsz (joined b d) - sz) by (cbn; lia). apply wp_bind.
    eapply (wp_rest_cut m2 _ h2 _ F2 a (joined b d) e sz (sizeword b)); [exact Hj|by apply (join_at W _ _ _ _ _ (hp_layout Hh2))|..]; try done.
    + rewrite Hend. apply join_new; [unfold blk_end in *; lia..|done].
    + intros y Hy. rewrite rd_wr_ne; [done|]. auto.
    + by apply (hp_size Hh2).
    + destruct (ly_blk _ _ _ (hp_layout Hj) a _ (join_at W _ _ _ _ _ (hp_layout Hh2) Ha eq_refl)) as (_ & Jal & _).
      destruct (ly_blk _ _ _ hp_layout0 a b Ha) as (_ & Aal & _). by rewrite !word_prestat.
    + split; [lia|done].
    + cbn. unfold sizeof_mm_list. lia.
    + rewrite Hend. intros y Hy Hr. destruct (decide (y < t)); [apply (HP y Hy); lia|].
      destruct (hp_safe0 y Hy t d Hd); [unfold blk_end in *; lia|congruence].
    + intros m3 h3 G3 F3 Hh3 Hu Hdye. eapply (wp_resize_done m3 h3 G G3 F3 a sz sz); try done.
      rewrite Hu, (used_join _ _ _ _ _ _ _ hp_layout0), Hbf by done. apply insert_insert_eq.
  - apply wp_ret. rewrite wrap_small by lia. apply wp_bind.
    eapply (wp_split_rest m h1 G F a b d sz); try done; [apply not_true_is_false; by intros ?%word_free|split; [lia|done]|].
    intros m3 h3 G3 F3 k Hh3 Hu Hk Hdye. by eapply (wp_resize_done m3 h3 G G3 F3 a k sz).
Qed.

(** The block takes the free one behind it. *)
Lemma wp_realloc_grow m h G F a b d sz req Q :
  heap ∅ m h G F -> G !! a = Some b -> bfree b = false -> G !! blk_end a b = Some d -> bfree d = true ->
  bsz b < sz <= bsz b + bsz d /\ al sz -> 2 <= req < 2 ^ size_bits -> resized G a sz Q ->
  wp (realloc_grow hd a (blk_end a b) sz req) Q (put hd st m h).
Proof.
  intros Hh Ha Hbf Hd Hdf [Hsz Hsal] Hreq HQ. pose proof Hh as []. pose proof sizes. set (t := blk_end a b) in *.
  destruct (ly_blk _ _ _ hp_layout0 _ b Ha) as (_ & Bal & B0 & _). destruct (ly_blk _ _ _ hp_layout0 _ d Hd) as (_ & _ & _ & Dr & _).
  specialize (Dr Hdf). assert (Hat : a < t) by (unfold t, blk_end; lia). destruct (free_around W G t d hp_layout0 Hd Hdf) as (_ & e & He & _ & Hef).
  destruct (layout_size _ _ _ _ _ hp_win0 hp_layout0 Hd) as (_ & Hdmax & Hdend). pose proof size_bits_pow.
  apply wp_bind, wp_bind. eapply wp_rd; [by apply hp_size0|]. apply wp_removesize. intros h1 Hst.
  assert (Hh1 : heap ∅ m h1 G F) by by eapply heap_restat.
  apply wp_bind. eapply (wp_unlist_block hd W P m0 h0); [eapply heap_open; [exact Hh1|exact Ha|done]|exact Hd|done|set_solver by lia|].
  rewrite union_empty_r_L, union_comm_L. intros m2 h2 F2 Hh2. apply wp_bind. eapply wp_rd; [by apply (hp_size Hh2)|].
  rewrite (heap_blksize _ _ _ _ _ _ _ _ _ _ _ Hh2 Hd). apply wp_bind. eapply wp_hupd; [by apply (hp_size Hh2)|].
  rewrite (joined_word W P m0 h0 _ _ _ _ _ _ _ _ Hh2 Ha) by (unfold t, blk_end in *; lia).
  assert (Hj : heap {[a]} (wr m2 (size_at a) (sizeword (joined b d))) h2 (join_map G a t b d) F2) by by apply heap_join.
  assert (Hja : join_map G a t b d !! a = Some (joined b d)) by by apply (join_at W _ _ _ _ _ (hp_layout Hh2)).
  assert (Hend : blk_end a (joined b d) = blk_end t d) by by apply join_end.
  assert (Hje : join_map G a t b d !! blk_end a (joined b d) = Some e) by (rewrite Hend; apply join_new; [unfold blk_end in *; lia..|done]).
  set (j := joined b d) in *. set (G1 := join_map G a t b d) in *. set (n := blk_end a j) in *.
  apply wp_bind. eapply wp_rd; [by apply (hp_size Hj)|]. rewrite (heap_blksize _ _ _ _ _ _ _ _ _ _ _ Hj Hja), (heap_next _ _ _ _ _ _ _ _ _ _ _ Hj Hja).
  fold n. cbv zeta. destruct (ly_blk _ _ _ (hp_layout Hj) _ e Hje) as (Eal & Esal & E0 & _ & we & Hwe & Hwe1 & Hwe2).
  apply wp_bind, wp_hset. { apply (hp_mem Hj we); [done|apply Z.divide_add_r; [done|apply Z.divide_factor_r]|unfold blk_end, prev_at in *; lia]. }
  assert (Hp := heap_prev_wr W P m0 h0 {[a]} _ h2 G1 F2 a j e a Hj Hja ltac:(set_solver) Hje). fold n in Hp.
  apply wp_bind. eapply wp_hupd; [by apply (hp_size Hp)|]. rewrite word_clear_prev by done.
  assert (Hjs : 0 < bsz j) by (unfold j; cbn; lia).
  assert (Hu := heap_close_used W P m0 h0 _ h2 G1 F2 a j e Hp Hja Hje Hjs). fold n in Hu.
  set (m3 := wr (wr (wr m2 _ _) _ _) _ _) in *. assert (Hjf : j <| bfree := false |> = j) by (unfold j, joined; destruct b; cbn in *; by subst).
  assert (Hna : n > a + MMLIST_HEAD_SIZE) by (unfold n, blk_end; lia). rewrite Hjf in Hu.
  assert (Hja3 : rd m3 (size_at a) = Some (sizeword j) /\ rd m3 (dye_at a) = Some RHINO_MM_CORRUPT_DYE).
  { unfold m3. rewrite !(rd_wr_ne _ (size_at n)) by (offsets; lia). rewrite (hp_size Hp _ _ Hja), (hp_dye Hp _ _ Hja).
    by rewrite <- Hjf. }
  rewrite (wr_id m3 (size_at a)), (wr_id m3 (dye_at a)) in Hu by apply Hja3.
  set (G3 := flagged G1 a j e false false) in *. assert (Hg3 : G3 !! a = Some j) by (unfold G3, flagged; rewrite lookup_insert_eq; by rewrite Hjf).
  assert (Hg3n : G3 !! n = Some (e <| bpf := false |>)) by (unfold G3, flagged; rewrite lookup_insert_ne by lia; apply lookup_insert_eq).
  apply wp_bind. eapply wp_rd; [by apply (hp_size Hu)|]. rewrite (heap_blksize _ _ _ _ _ _ _ _ _ _ _ Hu Hg3).
  assert (Hw : wrap size_bits (bsz j - sz) = bsz j - sz) by (destruct (layout_size _ _ _ _ _ hp_win0 (hp_layout Hu) Hg3); apply wrap_small; unfold j in *; cbn in *; unfold blk_end in *; lia).
  rewrite Hw. apply wp_bind. eapply (wp_split_rest m3 h2 G3 F2 a j (e <| bpf := false |>) sz); try done.
  - split; [|done]. unfold j. cbn. lia.
  - fold n. intros y Hy Hr. destruct (hp_safe0 y Hy t d Hd); [|congruence]. unfold split_at, n, t, blk_end in *. lia.
  - intros m4 h4 G4 F4 k Hh4 Hu4 Hk Hdye. eapply (wp_resize_done m4 h4 G G4 F4 a k sz); try done.
    rewrite Hu4. unfold G3. rewrite used_flagged by done. unfold G1. rewrite (used_join _ _ _ _ _ _ _ hp_layout0), Hbf by done.
    by rewrite !insert_insert_eq.
Qed.

End heap_realloc.
End HeapRealloc.
