(* ===== verification/HeapOk.v ===== *)
(** * The heap as its callers see it

    A state of the kernel holds a heap that has handed out the blocks [U] and has the free
    blocks [B]: both map an address to a size, the first the one given to the caller, the
    second the one of the header.  Blocks come from the lists or, when they are small, from
    the pool of small blocks inside the heap. *)
From S2P Require Import Prelude Config Bitmap Kernel Sched Inv Queue Mblk Heap HeapClass HeapList HeapInv HeapStep HeapAlloc HeapRealloc.
Import Bitmap Sched Queue Mblk Heap HeapClass HeapList HeapInv HeapStep HeapAlloc HeapRealloc.

Module HeapOk.
Section heap_ok.
Context {cfg : RhinoConfig} (hd tmp_at : addr).

(** the windows of memory the heap manages, and the headers of blocks that are no caller's:
    the first and the last one of each region and the pool of small blocks *)
Context (W : list (Z * Z)) (R : gmap Z Z).

(** the word belongs to no region *)
Definition outside (y : Z) : Prop := forall w, w ∈ W -> ~ w.1 <= y < w.2.

Definition small_start (fx : Z) : Z := buffer_at fx + MM_ALIGN_UP sizeof_mblk_pool.
Definition small_blocks (fx : Z) : list addr :=
  blks_from (small_start fx) DEF_FIX_BLK_SIZE 0 (Z.to_nat (RHINO_CONFIG_MM_TLF_BLK_SIZE / DEF_FIX_BLK_SIZE)).

(** the pool of small blocks, of which [live] are out *)
Definition small_ok (s : kstate) (h : k_mm_head) (G : gmap Z blk) (live : list addr) : Prop :=
  let fx := fixedmblk h in
  (fx = 0 /\ live = []) \/
  (fx <> 0 /\ exists k q free, used G !! fx = Some k /\ fx ∈ dom R /\
     MM_ALIGN_UP sizeof_mblk_pool + RHINO_CONFIG_MM_TLF_BLK_SIZE <= k /\
     pool_ok s (mm_pool_of h) q free /\ free ++ live ≡ₚ small_blocks fx).

Definition free_of (G : gmap Z blk) : gmap Z Z := omap (fun b => if bfree b then Some (bsz b) else None) G.

(** what the callers hold *)
Definition holds (G : gmap Z blk) (live : list addr) (U : gmap Z Z) : Prop :=
  forall x k, U !! x = Some k <->
    (exists a, x = buffer_at a /\ a ∉ dom R /\ used G !! a = Some k) \/ (exists b, b ∈ live /\ x = Zpos b /\ k = DEF_FIX_BLK_SIZE).

Record heap_state (s : kstate) (h : k_mm_head) (G : gmap Z blk) (live : list addr) : Prop := {
  hs_at : mm_heads (kmm s) !! hd = Some h;
  hs_heap : exists F, heap_at W (fun _ => False) (umem s) h ∅ (umem s) h G F;
  hs_small : small_ok s h G live;
  hs_reserved : forall a k, R !! a = Some k -> used G !! a = Some k;
  hs_room : forall a k, used G !! a = Some k -> a ∉ dom R -> 2 * ptr_size <= k;
}.

Definition heap_ok (s : kstate) (U B : gmap Z Z) : Prop :=
  exists h G live, heap_state s h G live /\ holds G live U /\ B = free_of G.

(** a word of a block that a caller holds *)
Definition held (U : gmap Z Z) (y : Z) : Prop := exists x k, U !! x = Some k /\ x <= y < x + k.

(** The words of [U] and those outside the regions are as before. *)
Definition keeps (U : gmap Z Z) (s s' : kstate) : Prop :=
  forall y, held U y \/ outside y -> y <> Zpos tmp_at -> rd (umem s') y = rd (umem s) y.

(** Nothing of the kernel changes but the memory, the head of the heap and its pool. *)
Definition only_heap (s s' : kstate) : Prop :=
  exists m h p, s' = (put hd s m h) <| mblk_pools := p |>.

(** ** The words of the callers are safe *)

Lemma heap_rebase P m h G F : heap_at W (fun _ => False) m h ∅ m h G F -> (forall y, P y -> safe G y) -> heap_at W P m h ∅ m h G F.
Proof. intros [] HP. by split. Qed.

Lemma small_align : MM_ALIGN_UP sizeof_mblk_pool = 8 * ptr_size.
Proof.
  unfold sizeof_mblk_pool. pose proof size_bits_pow. apply align_up_id; [destruct ptr_cases as [-> | ->]; lia..|].
  apply Z.divide_factor_r.
Qed.

Lemma small_block fx b : 0 < fx -> b ∈ small_blocks fx ->
  small_start fx <= Zpos b /\ Zpos b + DEF_FIX_BLK_SIZE <= small_start fx + RHINO_CONFIG_MM_TLF_BLK_SIZE /\
  forall b', b' ∈ small_blocks fx -> b' = b \/ Zpos b' + DEF_FIX_BLK_SIZE <= Zpos b \/ Zpos b + DEF_FIX_BLK_SIZE <= Zpos b'.
Proof.
  intros Hfx. unfold small_blocks, blks_from. rewrite list_elem_of_fmap. intros (i & -> & Hi%elem_of_seq).
  pose proof sizes as [HH Hp4]. pose proof cfg_mm_blk as Hblk. change DEF_FIX_BLK_SIZE with 32 in *.
  assert (Hst : 0 < small_start fx) by (unfold small_start; rewrite small_align; offsets; lia).
  pose proof (Z.div_mod RHINO_CONFIG_MM_TLF_BLK_SIZE 32 ltac:(lia)) as Hd. pose proof (Z.mod_pos_bound RHINO_CONFIG_MM_TLF_BLK_SIZE 32 ltac:(lia)).
  rewrite blk_addr_pos by lia. split; [lia|]. split; [lia|].
  intros b' (j & -> & Hj%elem_of_seq)%list_elem_of_fmap. rewrite blk_addr_pos by lia.
  destruct (decide (i = j)) as [->|Hne]; [by left|right]. lia.
Qed.

Lemma links_ext m m' a l : (forall b, b ∈ l -> m' !! b = m !! b) -> links m a l -> links m' a l.
Proof.
  revert a. induction l as [|b l IH]; intros a Hm; [done|]. intros [-> (n & Hn & Hl)]. split; [done|]. exists n.
  split; [by rewrite Hm by set_solver|]. apply IH; [set_solver|done].
Qed.

Lemma used_apart G a k a' k' : layout W ∅ G -> used G !! a = Some k -> used G !! a' = Some k' -> a <> a' ->
  buffer_at a + k <= buffer_at a' /\ buffer_at a + k <= a' \/ buffer_at a' + k' <= buffer_at a /\ buffer_at a' + k' <= a.
Proof.
  intros Hly (b & Ha & _ & <-)%lookup_used (b' & Ha' & _ & <-)%lookup_used Hne. pose proof sizes. destruct (decide (a < a')).
  - pose proof (ly_sep _ _ _ Hly a b a' b' Ha Ha' ltac:(lia)). offsets. lia.
  - pose proof (ly_sep _ _ _ Hly a' b' a b Ha' Ha ltac:(lia)). offsets. lia.
Qed.

Section state.
Context (s : kstate) (h : k_mm_head) (G : gmap Z blk) (live : list addr).
Hypothesis Hs : heap_state s h G live.

Lemma state_layout : win_ok W /\ layout W ∅ G.
Proof. destruct (hs_heap _ _ _ _ Hs) as [F []]. by split. Qed.

(** the payload of a block in use *)
Lemma payload_safe a k y : used G !! a = Some k -> buffer_at a <= y < buffer_at a + k -> safe G y.
Proof.
  intros (b & Ha & Hf & Hk)%lookup_used Hy c d Hc Hr. destruct state_layout as [_ Hly]. pose proof sizes.
  destruct (decide (c = a)) as [->|Hne]; [rewrite Ha in Hc; injection Hc as <-; split; [done|lia]|].
  exfalso. apply (word_ne W ∅ G a b c d y y Hly Ha Hc); [done|offsets; lia|done|done].
Qed.

Lemma outside_safe y : outside y -> safe G y.
Proof.
  intros Hy a b Ha Hr. exfalso. destruct state_layout as [_ Hly].
  destruct (ly_blk _ _ _ Hly a b Ha) as (_ & _ & _ & _ & w & Hw & H1 & H2). apply (Hy w Hw). lia.
Qed.

(** the block of the pool, when there is one *)
Lemma small_live b : b ∈ live -> fixedmblk h ∈ dom R /\ exists k, used G !! fixedmblk h = Some k /\ b ∈ small_blocks (fixedmblk h) /\
  buffer_at (fixedmblk h) < Zpos b /\ Zpos b + DEF_FIX_BLK_SIZE <= buffer_at (fixedmblk h) + k.
Proof.
  intros Hb. destruct (hs_small _ _ _ _ Hs) as [[_ ->]|(_ & k & q & free & Hk & HR & Hle & _ & Hp)]; [by apply not_elem_of_nil in Hb|].
  split; [done|]. exists k. split; [done|]. assert (Hin : b ∈ small_blocks (fixedmblk h)) by (rewrite <- Hp; set_solver).
  split; [done|]. apply lookup_used in Hk as Hu. destruct Hu as (c & Hc & _). destruct state_layout as [Hwin Hly].
  destruct (layout_size _ _ _ _ _ Hwin Hly Hc) as (H0 & _). destruct (small_block _ _ H0 Hin) as (H1 & H2 & _).
  unfold small_start in *. rewrite small_align in *. pose proof sizes. lia.
Qed.

Lemma held_safe U y : holds G live U -> held U y -> safe G y.
Proof.
  intros HU (x & k & [(a & -> & Ha & Hk)|(b & Hb & -> & ->)]%HU & Hy); [by eapply payload_safe|].
  destruct (small_live b Hb) as (_ & k & Hk & _ & H1 & H2). eapply payload_safe; [done|lia].
Qed.

(** The blocks of the callers are apart. *)
Lemma holds_disjoint U x k x' k' : holds G live U -> U !! x = Some k -> U !! x' = Some k' -> x <> x' -> x + k <= x' \/ x' + k' <= x.
Proof.
  intros HU H1 H2 Hne. destruct state_layout as [Hwin Hly]. pose proof sizes.
  pose proof (fun a k a' k' => used_apart G a k a' k' Hly) as Hbig.
  assert (Hmix : forall a k b, a ∉ dom R -> used G !! a = Some k -> b ∈ live -> buffer_at a + k <= Zpos b \/ Zpos b + DEF_FIX_BLK_SIZE <= buffer_at a).
  { intros a n b HR Ha Hb. destruct (small_live b Hb) as (HfR & n' & Hfx & _ & H3 & H4).
    destruct (Hbig a n (fixedmblk h) n' Ha Hfx) as [[]|[]]; [by intros ->|left|right]; offsets; lia. }
  apply HU in H1, H2. destruct H1 as [(a & -> & HR & Ha)|(b & Hb & -> & ->)], H2 as [(a' & -> & HR' & Ha')|(b' & Hb' & -> & ->)].
  - destruct (Hbig a k a' k' Ha Ha') as [[]|[]]; [by intros ->|by left|by right].
  - by apply Hmix.
  - destruct (Hmix a' k' b); auto.
  - destruct (small_live b Hb) as (_ & n & Hn & Hin & _). destruct (small_live b' Hb') as (_ & _ & _ & Hin' & _).
    apply lookup_used in Hn as (c & Hc & _). destruct (layout_size _ _ _ _ _ Hwin Hly Hc) as (H0 & _).
    destruct (small_block _ _ H0 Hin) as (_ & _ & Hd). destruct (Hd b' Hin') as [->|[]]; [done|by right|by left].
Qed.

(** The pool of small blocks survives what leaves its block alone. *)
Lemma small_frame s' h' G' : mblk_pools s' = mblk_pools s -> fixedmblk h' = fixedmblk h ->
  (forall k, used G !! fixedmblk h = Some k -> used G' !! fixedmblk h = Some k) ->
  (forall y k, used G !! fixedmblk h = Some k -> buffer_at (fixedmblk h) <= y < buffer_at (fixedmblk h) + k -> rd (umem s') y = rd (umem s) y) ->
  small_ok s' h' G' live.
Proof.
  intros Hp Hf Hu Hm. unfold small_ok, mm_pool_of. rewrite Hf.
  destruct (hs_small _ _ _ _ Hs) as [Hz|(Hz & k & q & free & Hk & HR & Hle & Hq & Hperm)]; [by left|right].
  split; [done|]. exists k, q, free. split; [by apply Hu|]. split; [done|]. split; [done|]. split; [|done].
  destruct Hq. split; try done; [by rewrite Hp|]. eapply links_ext; [|exact pool_links0]. intros b Hb.
  apply lookup_used in Hk as Hu'. destruct Hu' as (c & Hc & _). destruct state_layout as [Hwin Hly].
  destruct (layout_size _ _ _ _ _ Hwin Hly Hc) as (H0 & _).
  destruct (small_block (fixedmblk h) b H0) as (H1 & H2 & _); [rewrite <- Hperm; set_solver|].
  apply (Hm (Zpos b) k Hk). pose proof sizes. unfold small_start in *. rewrite small_align in *. change DEF_FIX_BLK_SIZE with 32 in *. lia.
Qed.
End state.

(** ** Steps of the whole heap *)

Lemma state_put s h : mm_heads (kmm s) !! hd = Some h -> s = put hd s (umem s) h.
Proof. intros Hh. symmetry. by apply put_id. Qed.

(** An operation on the lists that leaves the reserved blocks alone. *)
Lemma state_step s h G live P m' h' G' F' : heap_state s h G live -> heap_at W P (umem s) h ∅ m' h' G' F' ->
  (forall a, a ∈ dom R -> used G' !! a = used G !! a) -> (forall a k, used G' !! a = Some k -> a ∉ dom R -> 2 * ptr_size <= k) ->
  (forall y a k, a ∈ dom R -> used G !! a = Some k -> buffer_at a <= y < buffer_at a + k -> P y) ->
  heap_state (put hd s m' h') h' G' live.
Proof.
  intros Hs Hh HR Hroom HP. pose proof Hh as []. destruct hp_head0 as (_ & Hfx & Hlen). split.
  - cbn. unfold upd. cbn. apply lookup_insert_eq.
  - exists F'. by split.
  - eapply (small_frame s h G live Hs); [done|done| |].
    + intros k Hk. destruct (hs_small _ _ _ _ Hs) as [[Hz _]|(_ & k' & q & free & Hk' & Hin & _)]; [|by rewrite HR].
      apply lookup_used in Hk as (c & Hc & _). destruct (state_layout s h G live Hs) as [Hwin Hly].
      destruct (layout_size _ _ _ _ _ Hwin Hly Hc). lia.
    + intros y k Hk Hy. destruct (hs_small _ _ _ _ Hs) as [[Hz _]|(_ & k' & q & free & Hk' & Hin & _)]; [|by apply hp_kept0, (HP y (fixedmblk h) k)].
      apply lookup_used in Hk as (c & Hc & _). destruct (state_layout s h G live Hs) as [Hwin Hly].
      destruct (layout_size _ _ _ _ _ Hwin Hly Hc). lia.
  - intros a k Ha. rewrite HR by by eapply elem_of_dom_2. by apply (hs_reserved _ _ _ _ Hs).
  - done.
Qed.

(** A small block is no block of the lists. *)
Lemma small_not_big s h G live a k b : heap_state s h G live -> a ∉ dom R -> used G !! a = Some k -> b ∈ live -> Zpos b <> buffer_at a.
Proof.
  intros Hs Ha Hk Hb He. destruct (small_live s h G live Hs b Hb) as (HR & n & Hn & _ & H1 & H2). pose proof sizes.
  destruct (state_layout s h G live Hs) as [_ Hly]. pose proof (hs_room _ _ _ _ Hs a k Hk Ha).
  change DEF_FIX_BLK_SIZE with 32 in *.
  destruct (used_apart G a k (fixedmblk h) n Hly Hk Hn) as [[]|[]]; [by intros ->|offsets; lia..].
Qed.

Lemma holds_grow s h G live U s' h' G' a k : heap_state s h G live -> holds G live U -> heap_state s' h' G' live ->
  used G' = <[a := k]> (used G) -> a ∉ dom R -> holds G' live (<[buffer_at a := k]> U).
Proof.
  intros Hs HU Hs' Hu Ha x n. rewrite Hu. destruct (decide (x = buffer_at a)) as [->|Hne].
  - rewrite lookup_insert_eq. split.
    + intros [= ->]. left. exists a. by rewrite lookup_insert_eq.
    + intros [(a' & He & _ & Hk)|(b & Hb & He & _)].
      * assert (a' = a) as -> by (offsets; lia). rewrite lookup_insert_eq in Hk. congruence.
      * exfalso. apply (small_not_big s' h' G' live a k b); try done. rewrite Hu. apply lookup_insert_eq.
  - rewrite lookup_insert_ne, (HU x n) by done. split; (intros [(a' & -> & Ha' & Hk)|?]; [left|by right]); exists a'; (split; [done|]; split; [done|]).
    + by rewrite lookup_insert_ne by (intros ->; done).
    + by rewrite lookup_insert_ne in Hk by (intros ->; done).
Qed.

Lemma holds_delete s h G live U G' a k : heap_state s h G live -> holds G live U -> used G' = delete a (used G) -> a ∉ dom R ->
  used G !! a = Some k -> holds G' live (delete (buffer_at a) U).
Proof.
  intros Hs HU Hu Ha Hk x n. rewrite Hu. destruct (decide (x = buffer_at a)) as [->|Hne].
  - rewrite lookup_delete_eq. split; [done|]. intros [(a' & He & _ & Hk')|(b & Hb & He & _)].
    + assert (a' = a) as -> by (offsets; lia). by rewrite lookup_delete_eq in Hk'.
    + exfalso. by apply (small_not_big s h G live a k b).
  - rewrite lookup_delete_ne, (HU x n) by done. split; (intros [(a' & -> & Ha' & Hk')|?]; [left|by right]); exists a'; (split; [done|]; split; [done|]).
    + by rewrite lookup_delete_ne by (intros ->; done).
    + by rewrite lookup_delete_ne in Hk' by (intros ->; done).
Qed.

(** What a write outside the header words keeps. *)
Lemma keeps_step s h G live U P m' h' G' F' : heap_state s h G live -> heap_at W P (umem s) h ∅ m' h' G' F' ->
  (forall y, held U y \/ outside y -> P y) -> keeps U s (put hd s m' h').
Proof. intros Hs Hh HP y Hy _. cbn. apply (hp_kept Hh). by apply HP. Qed.

Lemma only_heap_put s m h : only_heap s (put hd s m h).
Proof. exists m, h, (mblk_pools s). by destruct s. Qed.

Lemma only_heap_trans s1 s2 s3 : only_heap s1 s2 -> only_heap s2 s3 -> only_heap s1 s3.
Proof.
  intros (m & h & p & ->) (m' & h' & p' & ->). exists m', h', p'. apply kstate_ext; try reflexivity. cbn. unfold upd. cbn.
  by rewrite insert_insert_eq.
Qed.

(** ** Changes elsewhere *)

(** Words of no header and of no free block do not matter. *)
Lemma heap_unowned m m' h G F : heap_at W (fun _ => False) m h ∅ m h G F ->
  (forall y, owned G y -> rd m' y = rd m y) -> (forall y, ~ outside y -> has m y -> has m' y) -> heap_at W (fun _ => False) m' h ∅ m' h G F.
Proof.
  intros [] Hm Hhas. pose proof sizes.
  assert (Hin : forall a b y, G !! a = Some b -> a <= y < buffer_at a -> rd m' y = rd m y) by (intros; by eapply Hm, owned_hdr).
  split; try done.
  - intros a b Ha. rewrite (Hin a b) by (done || (offsets; lia)). by apply hp_size0.
  - intros a b Ha. rewrite (Hin a b) by (done || (offsets; lia)). by apply hp_dye0.
  - intros a b Ha Hf HX. destruct (ly_blk _ _ _ hp_layout0 a b Ha) as (_ & _ & _ & Hr & _). specialize (Hr Hf).
    destruct (ly_next _ _ _ hp_layout0 a b Ha ltac:(lia)) as (d & Hd & _).
    rewrite (Hin _ d) by (done || (offsets; lia)). by apply hp_back0.
  - intros w y Hw Hy Hr. apply Hhas; [intros Ho; by apply (Ho w)|]. by eapply hp_mem0.
  - eapply lists_frame; [exact hp_lists0|]. intros f s a (b & Ha & Hf & _)%hp_listed0.
    destruct (ly_blk _ _ _ hp_layout0 a b Ha) as (_ & _ & _ & Hr & _). specialize (Hr Hf).
    split; (apply Hm; exists a, b; split; [done|]; split; [offsets; lia|by left]).
Qed.

Lemma heap_rehead m h h' G F : heap_at W (fun _ => False) m h ∅ m h G F -> restat h h' -> heap_at W (fun _ => False) m h' ∅ m h' G F.
Proof.
  intros [] (R1 & R2 & R3 & R4 & R5 & R6). split; try done; [by eapply lists_head|].
  destruct hp_head0 as (_ & _ & Hl). repeat split; congruence.
Qed.

Lemma list_rm_perm (b : addr) l : NoDup l -> b ∈ l -> b :: list_rm b l ≡ₚ l.
Proof. intros Hnd Hb. apply list_elem_of_split in Hb as (l1 & l2 & ->). rewrite list_rm_middle by done. apply Permutation_middle. Qed.

Lemma pool_ok_same s s' p q free : mblk_pools s' = mblk_pools s -> umem s' = umem s -> pool_ok s p q free -> pool_ok s' p q free.
Proof. intros Hp Hm []. split; try done; [by rewrite Hp|by rewrite Hm]. Qed.

Lemma state_same s s' h G live : mblk_pools s' = mblk_pools s -> umem s' = umem s -> kmm s' = kmm s ->
  heap_state s h G live -> heap_state s' h G live.
Proof.
  intros Hp Hm Hk []. split; try done; [by rewrite Hk|by rewrite Hm|].
  destruct hs_small0 as [?|(Hz & k & q & free & ? & ? & ? & Hq & ?)]; [by left|right]. split; [done|]. exists k, q, free.
  repeat split; try done; by destruct (pool_ok_same s s' _ q free Hp Hm Hq).
Qed.

End heap_ok.
End HeapOk.
