(* ===== verification/HeapWhole.v ===== *)
(** * No memory is lost

    Every byte of a region belongs to a block; free blocks never touch.  Therefore the blocks
    in use determine the free ones. *)
From S2P Require Import Prelude Config Bitmap Kernel Sched Inv Queue Mblk Heap HeapClass HeapList HeapInv HeapStep HeapAlloc HeapRealloc HeapOk.
Import Bitmap Sched Queue Mblk Heap HeapClass HeapList HeapInv HeapStep HeapAlloc HeapRealloc HeapOk.

Module HeapWhole.
Section heap_whole.
Context {cfg : RhinoConfig} (hd : addr) (W : list (Z * Z)) (R : gmap Z Z).

Notation heap_state := (heap_state hd W R).
Notation heap_ok := (heap_ok hd W R).
Notation holds := (holds R).

Lemma free_of_lookup G a n : free_of G !! a = Some n <-> exists b, G !! a = Some b /\ bfree b = true /\ bsz b = n.
Proof.
  unfold free_of. rewrite lookup_omap_Some. split.
  - intros (b & Hb & Hf). destruct (bfree b) eqn:E; [|done]. injection Hb as <-. eauto.
  - intros (b & Hb & Hf & <-). exists b. by rewrite Hf.
Qed.

(** Blocks that share a byte are the same. *)
Lemma layout_overlap G a b c d y : layout W ∅ G -> G !! a = Some b -> G !! c = Some d ->
  a <= y < blk_end a b -> c <= y < blk_end c d -> a = c.
Proof.
  intros Hly Ha Hc H1 H2. destruct (Z.lt_trichotomy a c) as [Hl|[?|Hl]]; [|done|].
  - pose proof (ly_sep _ _ _ Hly a b c d Ha Hc Hl). lia.
  - pose proof (ly_sep _ _ _ Hly c d a b Hc Ha Hl). lia.
Qed.

(** A free block of the one layout shares no byte with a block in use of the other. *)
Lemma free_apart G G' a b c d y : layout W ∅ G -> used G = used G' -> G !! a = Some b -> bfree b = true ->
  G' !! c = Some d -> bfree d = false -> a <= y < blk_end a b -> c <= y < blk_end c d -> False.
Proof.
  intros Hly Hu Ha Hbf Hc Hdf H1 H2. assert (used G !! c = Some (bsz d)) as (e & He & Hef & Hes)%lookup_used.
  { rewrite Hu. apply lookup_used. by exists d. }
  assert (Hend : blk_end c e = blk_end c d) by (unfold blk_end; congruence).
  assert (a = c) as -> by (apply (layout_overlap G a b c e y); try done; by rewrite Hend). congruence.
Qed.

(** Before a free block, in its region, stands a block in use. *)
Lemma free_before G a b u v y : layout W ∅ G -> G !! a = Some b -> bfree b = true -> G !! u = Some v -> u <= y < blk_end u v -> y = a - 1 ->
  bfree v = false.
Proof.
  intros Hly Ha Hbf Hu Hr ->. pose proof sizes. destruct (bfree v) eqn:Hvf; [|done]. exfalso.
  destruct (free_around W G u v Hly Hu Hvf) as (_ & d & Hd & _ & Hdf).
  pose proof (ly_sep _ _ _ Hly u v a b Hu Ha ltac:(lia)). assert (blk_end u v = a) as He by lia. rewrite He in Hd. congruence.
Qed.

Lemma free_same G G' a b : layout W ∅ G -> layout W ∅ G' -> used G = used G' -> G !! a = Some b -> bfree b = true ->
  exists b', G' !! a = Some b' /\ bfree b' = true /\ bsz b' = bsz b.
Proof.
  intros Hly Hly' Hu Ha Hbf. pose proof sizes as [HH Hp]. destruct (ly_blk _ _ _ Hly a b Ha) as (_ & _ & _ & Hr & w & Hw & Hw1 & Hw2).
  specialize (Hr Hbf). assert (Hab : a < blk_end a b) by (unfold blk_end; lia).
  destruct (ly_cover _ _ _ Hly' w a Hw ltac:(lia)) as (u & v & Huv & Hua).
  assert (Hvf : bfree v = true) by (destruct (bfree v) eqn:E; [done|]; exfalso; by apply (free_apart G G' a b u v a)).
  destruct (ly_blk _ _ _ Hly' u v Huv) as (_ & _ & Hv0 & _ & w' & Hw' & Hw1' & Hw2').
  assert (u = a) as ->.
  { destruct (decide (u = a)); [done|]. exfalso. destruct (ly_cover _ _ _ Hly w' (a - 1) Hw' ltac:(lia)) as (p & q & Hpq & Hpa).
    assert (Hqf : bfree q = false) by by apply (free_before G a b p q (a - 1)).
    apply (free_apart G' G u v p q (a - 1)); try done. lia. }
  exists v. split; [done|]. split; [done|].
  destruct (free_around W G a b Hly Ha Hbf) as (_ & d & Hd & _ & Hdf). destruct (free_around W G' a v Hly' Huv Hvf) as (_ & e & He & _ & Hef).
  destruct (ly_blk _ _ _ Hly _ d Hd) as (_ & _ & Hd0 & _). destruct (ly_blk _ _ _ Hly' _ e He) as (_ & _ & He0 & _).
  destruct (Z.lt_trichotomy (bsz v) (bsz b)) as [Hl|[?|Hl]]; [|done|]; exfalso.
  - apply (free_apart G G' a b (blk_end a v) e (blk_end a v)); try done; unfold blk_end in *; lia.
  - apply (free_apart G' G a v (blk_end a b) d (blk_end a b)); try done; unfold blk_end in *; lia.
Qed.

(** The blocks in use determine the free ones. *)
Lemma free_of_same G G' : layout W ∅ G -> layout W ∅ G' -> used G = used G' -> free_of G = free_of G'.
Proof.
  intros Hly Hly' Hu. apply map_eq. intros a. apply option_eq. intros n. rewrite !free_of_lookup.
  split; intros (b & Ha & Hf & <-); [by apply (free_same G G')|by apply (free_same G' G)].
Qed.

(** ** States *)

(** What the callers hold determines the blocks in use: the small blocks lie in the pool's. *)
Lemma used_same_half s h G live s' h' G' live' U a k : heap_state s h G live -> heap_state s' h' G' live' ->
  holds G live U -> holds G' live' U -> used G !! a = Some k -> used G' !! a = Some k.
Proof.
  intros Hs Hs' HU HU' Hk. destruct (R !! a) as [n|] eqn:HR.
  { apply (hs_reserved _ _ _ _ _ _ _ Hs') in HR as Hk'. apply (hs_reserved _ _ _ _ _ _ _ Hs) in HR. congruence. }
  assert (HaR : a ∉ dom R) by by apply not_elem_of_dom.
  assert (Hx : U !! buffer_at a = Some k) by (apply HU; left; by exists a).
  apply HU' in Hx as [(c & He & _ & Hc)|(b & Hb & He & _)]; [assert (a = c) as -> by (offsets; lia); done|]. exfalso.
  destruct (small_live hd W R s' h' G' live' Hs' b Hb) as ([n Hn]%elem_of_dom & n' & Hn' & _ & H1 & H2).
  pose proof (hs_reserved _ _ _ _ _ _ _ Hs' _ _ Hn) as Hn2. assert (n' = n) as -> by congruence.
  apply (hs_reserved _ _ _ _ _ _ _ Hs) in Hn as Hfx. destruct (state_layout hd W R s h G live Hs) as [_ Hly].
  pose proof (hs_room _ _ _ _ _ _ _ Hs a k Hk HaR). pose proof sizes. change DEF_FIX_BLK_SIZE with 32 in *.
  assert (Hne : a <> fixedmblk h') by (intros ->; congruence).
  destruct (used_apart W G a k _ n Hly Hk Hfx Hne) as [[]|[]]; lia.
Qed.

Lemma heap_ok_determined s s' U B B' : heap_ok s U B -> heap_ok s' U B' -> B = B'.
Proof.
  intros (h & G & live & Hs & HU & ->) (h' & G' & live' & Hs' & HU' & ->).
  destruct (state_layout hd W R s h G live Hs) as [_ Hly], (state_layout hd W R s' h' G' live' Hs') as [_ Hly'].
  apply free_of_same; [done..|]. apply map_eq. intros a. apply option_eq. intros k.
  split; intros Hk; [by eapply (used_same_half s h G live s')|by eapply (used_same_half s' h' G' live' s)].
Qed.

(** the block of [n] bytes with its header at [a] *)
Definition spans (a n y : Z) : Prop := a <= y < buffer_at a + n.

(** Each byte of the regions belongs to the heap itself, to a caller's block or to a free one;
    and no free block begins where another one ends. *)
Definition whole (U B : gmap Z Z) : Prop :=
  (forall w y, w ∈ W -> w.1 <= y < w.2 ->
     (exists a n, R !! a = Some n /\ spans a n y) \/ (exists a n, U !! buffer_at a = Some n /\ spans a n y) \/
     (exists a n, B !! a = Some n /\ spans a n y)) /\
  (forall a n, B !! a = Some n -> B !! (buffer_at a + n) = None).

Lemma heap_ok_whole s U B : heap_ok s U B -> whole U B.
Proof.
  intros (h & G & live & Hs & HU & ->). destruct (state_layout hd W R s h G live Hs) as [_ Hly]. split.
  - intros w y Hw Hy. destruct (ly_cover _ _ _ Hly w y Hw Hy) as (a & b & Ha & Hr).
    assert (Hsp : spans a (bsz b) y) by (unfold spans; pose proof sizes; offsets; lia). destruct (bfree b) eqn:Hf.
    { right. right. exists a, (bsz b). split; [|done]. apply free_of_lookup. by exists b. }
    assert (Hk : used G !! a = Some (bsz b)) by (apply lookup_used; by exists b). destruct (R !! a) as [n|] eqn:HR.
    + left. exists a, (bsz b). split; [|done]. apply (hs_reserved _ _ _ _ _ _ _ Hs) in HR as ?. congruence.
    + right. left. exists a, (bsz b). split; [|done]. apply HU. left. exists a. by rewrite not_elem_of_dom.
  - intros a n (b & Ha & Hf & <-)%free_of_lookup. apply eq_None_not_Some. intros [m (c & Hc & Hcf & _)%free_of_lookup].
    destruct (free_around W G a b Hly Ha Hf) as (_ & d & Hd & _ & Hdf). pose proof sizes.
    assert (He : buffer_at a + bsz b = blk_end a b) by (offsets; lia). rewrite He in Hc. congruence.
Qed.

End heap_whole.
End HeapWhole.
