(* ===== verification/HeapCalls.v ===== *)
(** * The calls of the heap ([k_mm_alloc], [k_mm_free], [k_mm_realloc])

    Each call on a heap that is in order leaves one that is, with the callers' blocks and
    the words of the others as they should be. *)
From S2P Require Import Prelude Config Bitmap Kernel Sched Inv Demo Queue Mblk Heap HeapClass HeapList HeapInv HeapStep HeapAlloc HeapRealloc HeapOk.
Import Bitmap Sched Queue Mblk Heap HeapClass HeapList HeapInv HeapStep HeapAlloc HeapRealloc HeapOk.

Module HeapCalls.
Section heap_calls.
Context {cfg : RhinoConfig} (hd tmp_at : addr) (W : list (Z * Z)) (R : gmap Z Z).
Hypothesis Htmp : outside W (Zpos tmp_at).

Notation heap_state := (heap_state hd W R).
Notation heap_ok := (heap_ok hd W R).
Notation keeps := (keeps tmp_at W).
Notation holds := (holds R).
Notation only_heap := (only_heap hd).

Lemma wp_mm_get_at s h (Q : k_mm_head -> kstate -> Prop) : mm_heads (kmm s) !! hd = Some h -> Q h s -> wp (mm_get hd) Q s.
Proof. intros Hh HQ. unfold wp, mm_get. by rewrite Hh. Qed.

Lemma state_irq s h G live v : heap_state s h G live -> heap_state (s <| irq_off := v |>) h G live.
Proof. by apply state_same. Qed.

Lemma heap_ok_irq s U B v : heap_ok s U B -> heap_ok (s <| irq_off := v |>) U B.
Proof. intros (h & G & live & Hs & HU). exists h, G, live. split; [by apply state_irq|done]. Qed.

Lemma keeps_irq U s s' v w : keeps U (s <| irq_off := v |>) s' -> keeps U s (s' <| irq_off := w |>).
Proof. done. Qed.

Lemma only_heap_irq s s' : only_heap (s <| irq_off := true |>) s' -> only_heap s (s' <| irq_off := irq_off s |>).
Proof. intros (m & h & p & ->). exists m, h, p. by apply kstate_ext. Qed.

Lemma keeps_trans U s1 s2 s3 : keeps U s1 s2 -> keeps U s2 s3 -> keeps U s1 s3.
Proof. intros H1 H2 y Hy Hne. by rewrite H2, H1. Qed.

Lemma keeps_mono U U' s s' : keeps U s s' -> (forall x k, U' !! x = Some k -> U !! x = Some k) -> keeps U' s s'.
Proof. intros Hk HU y [(x & k & Hx & Hy)|Hy]; apply Hk; [left; exists x, k; auto|by right]. Qed.

(** ** Small blocks *)

Lemma holds_small G live U b : holds G live U ->
  (forall a k, a ∉ dom R -> used G !! a = Some k -> Zpos b <> buffer_at a) -> holds G (b :: live) (<[Zpos b := DEF_FIX_BLK_SIZE]> U).
Proof.
  intros HU Hbig x n. destruct (decide (x = Zpos b)) as [->|Hne].
  - rewrite lookup_insert_eq. split.
    + intros [= <-]. right. exists b. set_solver.
    + intros [(a & He & Ha & Hk)|(b' & Hb' & [= <-] & ->)]; [by destruct (Hbig a n Ha Hk)|done].
  - rewrite lookup_insert_ne, (HU x n) by done. split; (intros [?|(b' & Hb' & -> & ->)]; [by left|right]); exists b'; set_solver.
Qed.

(** The pool hands out a block. *)
Lemma wp_k_mm_smallblk_alloc s h G live q b free size Q :
  heap_state s h G live -> fixedmblk h <> 0 -> pool_ok s (mm_pool_of h) q (b :: free) -> b :: free ++ live ≡ₚ small_blocks (fixedmblk h) ->
  2 <= size < 2 ^ size_bits ->
  (forall s' h', only_heap s s' -> (forall y, y <> Zpos tmp_at -> rd (umem s') y = rd (umem s) y) ->
     heap_state s' h' G (b :: live) -> fixedmblk h' = fixedmblk h -> Q (Zpos b) s') ->
  wp (k_mm_smallblk_alloc tmp_at (Some hd) size) Q s.
Proof.
  intros Hs Hfx Hq Hperm Hsize HQ. destruct (hs_small _ _ _ _ _ _ _ Hs) as [[? _]|(_ & k & q0 & free0 & Hk & HR & Hle & _ & _)]; [done|].
  apply wp_bind. eapply wp_mm_get_at; [by apply (hs_at _ _ _ _ _ _ _ Hs)|]. apply wp_bind.
  assert (Hblk : forall x, x ∈ small_blocks (fixedmblk h) -> Zpos x <> Zpos tmp_at).
  { intros x Hx Heq. apply lookup_used in Hk as (c & Hc & _ & Hck). destruct (state_layout hd W R s h G live Hs) as [Hwin Hly].
    destruct (layout_size _ _ _ _ _ Hwin Hly Hc) as (H0 & _). destruct (small_block _ _ H0 Hx) as (H1 & H2 & _).
    destruct (ly_blk _ _ _ Hly _ _ Hc) as (_ & _ & _ & _ & w & Hw & Hw1 & Hw2). apply (Htmp w Hw). rewrite <- Heq.
    unfold small_start in *. rewrite small_align in *. change DEF_FIX_BLK_SIZE with 32 in *. pose proof sizes. offsets. lia. }
  eapply wp_mblk_alloc; [exact Hq| |].
  { intros Hin. apply (Hblk tmp_at); [rewrite <- Hperm; set_solver|done]. }
  intros next q' s2 Hq2. rewrite decide_False by (intros Hf; by apply Hf). apply wp_bind.
  eapply (wp_word_get tmp_at (Zpos b)); [cbn; apply lookup_insert_eq|]. apply wp_bind.
  assert (Hh2 : mm_heads (kmm s2) !! hd = Some h) by by apply (hs_at _ _ _ _ _ _ _ Hs).
  assert (Hout : forall y, y <> Zpos tmp_at -> rd (umem s2) y = rd (umem s) y).
  { intros y Hy. destruct y; try done. cbn. apply lookup_insert_ne. congruence. }
  destruct (hs_heap _ _ _ _ _ _ _ Hs) as [F HF]. rewrite (state_put hd s2 h Hh2).
  apply wp_addsize; [done|by apply (hp_head HF)|]. intros h' Hst. apply wp_ret.
  assert (HF2 : heap_at W (fun _ => False) (umem s2) h' ∅ (umem s2) h' G F).
  { assert (HF1 : heap_at W (fun _ => False) (umem s2) h ∅ (umem s2) h G F).
    { eapply heap_unowned; [exact HF| |].
      - intros y Hy. apply Hout. intros ->. apply (owned_unsafe G _ Hy). by eapply outside_safe.
      - intros y _ [v Hv]. unfold has. destruct (decide (y = Zpos tmp_at)) as [->|Hne]; [cbn; rewrite lookup_insert_eq; by eexists|].
        rewrite Hout by done. by exists v. }
    by eapply heap_rehead. }
  apply (HQ _ h').
  - exists (umem s2), h', (mblk_pools s2). by apply kstate_ext.
  - done.
  - split; [cbn; unfold upd; cbn; apply lookup_insert_eq|by exists F| |by apply (hs_reserved _ _ _ _ _ _ _ Hs)|by apply (hs_room _ _ _ _ _ _ _ Hs)].
    right. destruct Hst as (_ & Hst & _). rewrite Hst. split; [done|]. exists k, q', free.
    split; [done|]. split; [done|]. split; [done|]. unfold mm_pool_of. rewrite Hst. split.
    + by destruct Hq2.
    + by rewrite <- Permutation_middle.
  - by destruct Hst as (_ & ? & _).
Qed.

(** ** Allocation *)

(** The result of a request of [size] bytes, from a heap with the blocks [G] of which the
    callers hold [U]. *)
Definition alloc_done (h : k_mm_head) (G : gmap Z blk) (live : list addr) (U : gmap Z Z) (size r : Z) (s' : kstate) : Prop :=
  exists h' G' live', heap_state s' h' G' live' /\ used G ⊆ used G' /\ live ⊆ live' /\ fixedmblk h' = fixedmblk h /\
    ((r = 0 /\ holds G' live' U /\ free_of G' = free_of G /\ no_room G size) \/
     (exists k, 0 < r /\ al r /\ U !! r = None /\ size <= k < size + 8 * ptr_size /\ holds G' live' (<[r := k]> U))).

Lemma alloc_done_irq h G live U size r s v : alloc_done h G live U size r s -> alloc_done h G live U size r (s <| irq_off := v |>).
Proof. intros (h' & G' & live' & Hs & H). exists h', G', live'. split; [by apply state_irq|done]. Qed.

Lemma small_al fx b : al fx -> b ∈ small_blocks fx -> 0 < fx -> al (Zpos b).
Proof.
  intros Hal (i & -> & _)%list_elem_of_fmap Hfx. pose proof sizes as [HH Hp4]. unfold small_start. rewrite small_align.
  change DEF_FIX_BLK_SIZE with 32. rewrite blk_addr_pos by (offsets; lia). apply Z.divide_add_r.
  - unfold buffer_at. repeat (apply Z.divide_add_r; [|apply Z.divide_factor_r]). done.
  - destruct ptr_cases as [Hp|Hp]; [exists (Z.of_nat i * 8)|exists (Z.of_nat i * 4)]; rewrite Hp; lia.
Qed.

(** A block through the lists. *)
Lemma wp_alloc_lists s h G live U size Q : heap_state s h G live -> holds G live U -> 2 <= size <= 2 ^ 31 ->
  (forall r s', only_heap s s' -> keeps U s s' -> alloc_done h G live U size r s' -> Q r s') ->
  wp (tlsf_alloc hd size size) Q s.
Proof.
  intros Hs HU Hsize HQ. destruct (hs_heap _ _ _ _ _ _ _ Hs) as [F HF]. pose proof sizes. pose proof size_bits_pow.
  destruct (state_layout hd W R s h G live Hs) as [Hwin Hly]. rewrite (state_put hd s h) by apply (hs_at _ _ _ _ _ _ _ Hs).
  eapply (wp_tlsf_alloc hd W (safe G) (umem s) h s (umem s) h G F); [by apply heap_rebase|lia|lia|..].
  - intros Hno. rewrite <- (state_put hd s h) by apply (hs_at _ _ _ _ _ _ _ Hs). apply HQ; [|done|].
    + exists (umem s), h, (mblk_pools s). rewrite <- (state_put hd s h) by apply (hs_at _ _ _ _ _ _ _ Hs). by destruct s.
    + exists h, G, live. do 4 (split; [done|]). by left.
  - intros m' h' G' F' a b k HF' Ha Hbf Hu Hk. destruct (asked_ok size) as (_ & A1 & A2 & A3); [lia|]. unfold sizeof_mm_list in Hk.
    pose proof (used_free G a b Ha Hbf) as Hua. destruct (layout_size _ _ _ _ _ Hwin Hly Ha) as (Ha0 & _).
    destruct (ly_blk _ _ _ Hly a b Ha) as (Hal & _).
    assert (HaR : a ∉ dom R) by (intros [n HaR%(hs_reserved _ _ _ _ _ _ _ Hs)]%elem_of_dom; congruence).
    assert (Hs' : heap_state (put hd s m' h') h' G' live).
    { eapply (state_step hd W R s h G live); [done|exact HF'|..].
      - intros x Hx. rewrite Hu. apply lookup_insert_ne. by intros ->.
      - intros x n Hx HxR. rewrite Hu in Hx. apply lookup_insert_Some in Hx as [[-> <-]|[_ Hx]]; [lia|].
        by apply (hs_room _ _ _ _ _ _ _ Hs x).
      - intros y x n _ Hx Hy. by eapply payload_safe. }
    apply HQ; [apply only_heap_put|eapply (keeps_step hd tmp_at W R); [exact Hs|exact HF'|]|].
    { intros y [Hy|Hy]; [by eapply held_safe|by eapply outside_safe]. }
    exists h', G', live. split; [done|]. split; [rewrite Hu; by apply insert_subseteq|]. split; [done|].
    split; [by destruct (hp_head HF') as (_ & ? & _)|].
    right. exists k. split; [offsets; lia|]. split; [apply Z.divide_add_r; [done|apply Z.divide_factor_r]|].
    split; [|split; [lia|by eapply (holds_grow hd W R s h G live)]].
    apply eq_None_not_Some. intros [n [(x & He & _ & Hx)|(y & Hy & He & _)]%HU].
    + assert (x = a) as -> by (offsets; lia). congruence.
    + apply (small_not_big hd W R (put hd s m' h') h' G' live a k y); try done. rewrite Hu. apply lookup_insert_eq.
Qed.

Lemma wp_k_mm_alloc s h G live U size Q : heap_state s h G live -> holds G live U -> 2 <= size <= 2 ^ 31 ->
  (forall r s', only_heap s s' -> keeps U s s' -> alloc_done h G live U size r s' -> Q r s') ->
  wp (k_mm_alloc tmp_at (Some hd) size) Q s.
Proof.
  intros Hs HU Hsize HQ. pose proof size_bits_pow. unfold k_mm_alloc. rewrite decide_False by lia.
  apply wp_bind, wp_critical_enter. set (s1 := s <| irq_off := true |>).
  assert (Hs1 : heap_state s1 h G live) by by apply state_irq.
  apply wp_bind. eapply wp_mm_get_at; [by apply (hs_at _ _ _ _ _ _ _ Hs1)|]. apply wp_bind.
  assert (Hlists : wp (retptr ← tlsf_alloc hd size size; RHINO_CRITICAL_EXIT (irq_off s);; mret retptr) Q s1).
  { apply wp_bind. eapply wp_alloc_lists; [done..|]. intros r s' Ho Hk Hp. apply wp_bind, wp_modify, wp_ret.
    apply HQ; [by apply only_heap_irq|done|by apply alloc_done_irq]. }
  destruct (hs_small _ _ _ _ _ _ _ Hs1) as [[Hz _]|(Hz & k & q & free & Hk & HR & Hle & Hq & Hperm)].
  { rewrite decide_False by auto. apply wp_ret. rewrite decide_False by auto. exact Hlists. }
  rewrite decide_True by done. apply wp_bind. eapply wp_pool_get; [apply (pool_at _ _ _ _ Hq)|].
  destruct (decide (size <= DEF_FIX_BLK_SIZE /\ 0 < blk_avail q)) as [[Hsm Hav]|_].
  2: { apply wp_ret. rewrite decide_False by auto. exact Hlists. }
  rewrite (pool_avail _ _ _ _ Hq) in Hav. destruct free as [|b free]; [cbn in Hav; lia|].
  eapply (wp_k_mm_smallblk_alloc s1 h G live q b free); [done|done|done|done|lia|]. intros s2 h2 Ho Hm Hs2 Hfx2.
  rewrite decide_True by done. apply wp_bind, wp_modify, wp_ret. apply HQ; [by apply only_heap_irq| |].
  { intros y _ Hy. by apply Hm. }
  destruct (small_live hd W R s2 h2 G (b :: live) Hs2 b) as (HR2 & k2 & Hk2 & Hin & _); [left|].
  apply lookup_used in Hk2 as (c & Hc & _). destruct (state_layout hd W R s2 h2 G _ Hs2) as [Hwin Hly].
  destruct (layout_size _ _ _ _ _ Hwin Hly Hc) as (Hfx & _). destruct (ly_blk _ _ _ Hly _ _ Hc) as (Hal & _).
  assert (Hnd : NoDup ((b :: free) ++ live)).
  { rewrite Hperm. apply lookup_used in Hk as (c1 & Hc1 & _). destruct (layout_size _ _ _ _ _ Hwin Hly Hc1) as (Hfx1 & _).
    apply blks_from_nodup; [unfold small_start; rewrite small_align; pose proof sizes; offsets; lia|done]. }
  assert (Hbl : b ∉ live) by (apply NoDup_cons in Hnd as [Hnd _]; set_solver).
  assert (Hbig : forall a n, a ∉ dom R -> used G !! a = Some n -> Zpos b <> buffer_at a).
  { intros a n Ha Hn. by apply (small_not_big hd W R s2 h2 G (b :: live) a n b); [..|left]. }
  exists h2, G, (b :: live). split; [by apply state_irq|]. split; [done|]. split; [set_solver|]. split; [done|]. right. exists DEF_FIX_BLK_SIZE.
  split; [done|]. split; [by eapply small_al|]. split; [|split; [pose proof sizes; split; [exact Hsm|change DEF_FIX_BLK_SIZE with 32; lia]|by apply holds_small]].
  apply eq_None_not_Some. intros [n [(a & He & Ha & Hn)|(b' & Hb' & [= <-] & _)]%HU]; [by apply (Hbig a n)|done].
Qed.


(** ** Release *)

(** A pointer into the pool of small blocks is told from one that the lists gave. *)
Lemma wp_ISFIXEDBLK s h G live x (v : bool) Q : heap_state s h G live ->
  (if v then exists b, b ∈ live /\ x = Zpos b else exists a k, a ∉ dom R /\ used G !! a = Some k /\ x = buffer_at a) ->
  Q v s -> wp (ISFIXEDBLK hd x) Q s.
Proof.
  intros Hs Hx HQ. destruct (state_layout hd W R s h G live Hs) as [Hwin Hly]. pose proof sizes.
  apply wp_bind. eapply wp_mm_get_at; [by apply (hs_at _ _ _ _ _ _ _ Hs)|].
  destruct (hs_small _ _ _ _ _ _ _ Hs) as [[Hz ->]|(Hz & k & q & free & Hk & HR & Hle & Hq & Hperm)].
  { rewrite decide_True by done. apply wp_ret. destruct v; [|done]. destruct Hx as (b & Hb & _). by apply not_elem_of_nil in Hb. }
  rewrite decide_False by done. apply lookup_used in Hk as Hc. destruct Hc as (c & Hc & Hcf & Hck).
  destruct (layout_size _ _ _ _ _ Hwin Hly Hc) as (H0 & _ & Hend). destruct (ly_blk _ _ _ Hly _ _ Hc) as (_ & _ & C0 & _).
  destruct (hs_heap _ _ _ _ _ _ _ Hs) as [F HF]. pose proof (hp_size HF _ _ Hc) as Hw. pose proof (flag_range c) as Hfl.
  assert (Hrd : forall Q' : Z -> kstate -> Prop, Q' (sizeword c) s -> wp (word_get (size_at (fixedmblk h))) Q' s).
  { intros Q' HQ'. destruct (size_at (fixedmblk h)) as [|p|p] eqn:He; [done| |done]. by eapply wp_word_get. }
  assert (Hsum : wrap size_bits (buffer_at (fixedmblk h) + sizeword c) = buffer_at (fixedmblk h) + k + flag_bits c).
  { rewrite wrap_small; unfold sizeword; offsets; lia. }
  destruct v.
  - destruct Hx as (b & Hb & ->). destruct (small_live hd W R s h G live Hs b Hb) as (_ & k' & Hk' & _ & H1 & H2).
    assert (k' = k) as -> by congruence. change DEF_FIX_BLK_SIZE with 32 in *.
    rewrite decide_True by lia. apply wp_bind, Hrd, wp_ret. rewrite Hsum, bool_decide_true by lia. done.
  - destruct Hx as (a & n & HaR & Ha & ->). pose proof (hs_room _ _ _ _ _ _ _ Hs a n Ha HaR).
    assert (Hne : a <> fixedmblk h) by by intros ->.
    destruct (used_apart W G a n (fixedmblk h) k Hly Ha Hk Hne) as [[]|[]].
    + rewrite decide_False by lia. by apply wp_ret.
    + destruct (decide (buffer_at (fixedmblk h) < buffer_at a)); [|by apply wp_ret].
      apply wp_bind, Hrd, wp_ret. rewrite Hsum, bool_decide_false by (offsets; lia). done.
Qed.

(** A small block goes back to the pool. *)
Lemma wp_k_mm_smallblk_free s h G live U b Q : heap_state s h G live -> holds G live U -> b ∈ live ->
  (forall s' h' live', only_heap s s' -> keeps (delete (Zpos b) U) s s' -> heap_state s' h' G live' ->
     holds G live' (delete (Zpos b) U) -> Q tt s') ->
  wp (k_mm_smallblk_free (Some hd) (Zpos b)) Q s.
Proof.
  intros Hs HU Hb HQ. destruct (state_layout hd W R s h G live Hs) as [Hwin Hly]. pose proof sizes. pose proof cfg_mm_blk as Hblk.
  destruct (hs_small _ _ _ _ _ _ _ Hs) as [[_ ->]|(Hz & k & q & free & Hk & HR & Hle & Hq & Hperm)]; [by apply not_elem_of_nil in Hb|].
  apply lookup_used in Hk as Hc. destruct Hc as (c & Hc & Hcf & Hck). destruct (layout_size _ _ _ _ _ Hwin Hly Hc) as (H0 & _).
  assert (Hnd : NoDup (free ++ live)).
  { rewrite Hperm. apply blks_from_nodup; [unfold small_start; rewrite small_align; offsets; lia|done]. }
  apply NoDup_app in Hnd as (Hndf & Hdisj & Hndl). apply wp_bind. eapply wp_mm_get_at; [by apply (hs_at _ _ _ _ _ _ _ Hs)|].
  assert (Hlen : (length free < Z.to_nat (RHINO_CONFIG_MM_TLF_BLK_SIZE / DEF_FIX_BLK_SIZE))%nat).
  { apply Permutation_length in Hperm. unfold small_blocks, blks_from in Hperm. rewrite length_app, length_fmap, length_seq in Hperm.
    destruct live; [by apply not_elem_of_nil in Hb|cbn in Hperm; lia]. }
  apply wp_bind. eapply wp_mblk_free; [exact Hq|intros Hin; by apply (Hdisj b)| |].
  { rewrite (pool_avail _ _ _ _ Hq). pose proof size_bits_pow. change DEF_FIX_BLK_SIZE with 32 in Hlen.
    assert (RHINO_CONFIG_MM_TLF_BLK_SIZE / 32 <= RHINO_CONFIG_MM_TLF_BLK_SIZE) by (apply Z.div_le_upper_bound; lia). lia. }
  intros q' s2 Hq2. rewrite decide_False by (intros Hf; by apply Hf). apply wp_bind, wp_ret.
  assert (Hout : forall y, y <> Zpos b -> rd (umem s2) y = rd (umem s) y).
  { intros y Hy. destruct y; try done. cbn. apply lookup_insert_ne. congruence. }
  destruct (hs_heap _ _ _ _ _ _ _ Hs) as [F HF].
  assert (HF1 : heap_at W (fun _ => False) (umem s2) h ∅ (umem s2) h G F).
  { eapply heap_unowned; [exact HF| |].
    - intros y Hy. apply Hout. intros ->. apply (owned_unsafe G _ Hy). destruct (small_live hd W R s h G live Hs b Hb) as (_ & n & Hn & _ & H1 & H2).
      eapply payload_safe; [exact Hs|exact Hn|]. change DEF_FIX_BLK_SIZE with 32 in H2. lia.
    - intros y _ [v Hv]. unfold has. destruct (decide (y = Zpos b)) as [->|Hne]; [cbn; rewrite lookup_insert_eq; by eexists|].
      rewrite Hout by done. by exists v. }
  rewrite (state_put hd s2 h) by apply (hs_at _ _ _ _ _ _ _ Hs). apply wp_removesize. intros h' Hst.
  assert (HF2 : heap_at W (fun _ => False) (umem s2) h' ∅ (umem s2) h' G F).
  { eapply heap_rehead; [|exact Hst]. done. }
  apply (HQ _ h' (list_rm b live)).
  - exists (umem s2), h', (mblk_pools s2). by apply kstate_ext.
  - intros y Hy _. cbn -[s2]. apply Hout. intros ->. destruct Hy as [(x & n & [Hne Hx]%lookup_delete_Some & Hr)|Hy].
    + assert (Hb2 : U !! Zpos b = Some DEF_FIX_BLK_SIZE) by (apply HU; right; by exists b).
      destruct (holds_disjoint hd W R s h G live Hs U (Zpos b) _ x n HU Hb2 Hx Hne) as [|]; [change DEF_FIX_BLK_SIZE with 32 in *|]; lia.
    + destruct (small_live hd W R s h G live Hs b Hb) as (_ & n & Hn & _ & H1 & H2). change DEF_FIX_BLK_SIZE with 32 in H2.
      assert (n = k) as -> by congruence. destruct (ly_blk _ _ _ Hly _ _ Hc) as (_ & _ & _ & _ & w & Hw & Hw1 & Hw2).
      apply (Hy w Hw). offsets. lia.
  - split; [cbn; unfold upd; cbn; apply lookup_insert_eq|by exists F| |by apply (hs_reserved _ _ _ _ _ _ _ Hs)|by apply (hs_room _ _ _ _ _ _ _ Hs)].
    right. destruct Hst as (_ & Hst & _). rewrite Hst. split; [done|]. exists k, q', (b :: free).
    split; [done|]. split; [done|]. split; [done|]. unfold mm_pool_of. rewrite Hst. split; [by destruct Hq2|].
    rewrite <- Hperm. cbn. rewrite Permutation_middle. f_equiv. by apply list_rm_perm.
  - intros x n. rewrite lookup_delete_Some, (HU x n). split.
    + intros [Hne [?|(b' & Hb' & -> & ->)]]; [by left|right]. exists b'. rewrite elem_of_list_rm. naive_solver.
    + intros [(a & -> & Ha & Hn)|(b' & [Hb' Hne]%elem_of_list_rm & -> & ->)].
      * split; [|left; by exists a]. by apply (small_not_big hd W R s h G live a n b).
      * split; [naive_solver|right; by exists b'].
Qed.

(** A word of a caller lies in the payload of a block in use. *)
Lemma held_in s h G live U y : heap_state s h G live -> holds G live U -> held U y ->
  exists c n, used G !! c = Some n /\ buffer_at c <= y < buffer_at c + n /\ (c ∈ dom R \/ U !! buffer_at c = Some n).
Proof.
  intros Hs HU (x & k & Hx & Hy). apply HU in Hx as HUx. destruct HUx as [(a & -> & Ha & Hk)|(b & Hb & -> & ->)].
  - exists a, k. split; [done|]. split; [done|by right].
  - destruct (small_live hd W R s h G live Hs b Hb) as (HR & n & Hn & _ & H1 & H2). exists (fixedmblk h), n. split; [done|]. split; [lia|by left].
Qed.

(** What a call on the block [a] may not touch. *)
Definition apart (G : gmap Z blk) (a : Z) (b : blk) (y : Z) : Prop := safe G y /\ ~ a <= y < blk_end a b.

Lemma held_apart s h G live U a b k y : heap_state s h G live -> holds G live U -> G !! a = Some b -> bfree b = false -> a ∉ dom R ->
  U !! buffer_at a = Some k -> held (delete (buffer_at a) U) y \/ outside W y -> apart G a b y.
Proof.
  intros Hs HU Ha Hbf HaR Hak [Hy|Hy].
  - assert (HyU : held U y) by (destruct Hy as (x & n & [_ Hx]%lookup_delete_Some & Hr); by exists x, n).
    split; [by eapply held_safe|]. destruct Hy as (x & n & [Hne Hx]%lookup_delete_Some & Hr). intros Hin.
    destruct (state_layout hd W R s h G live Hs) as [_ Hly]. apply HU in Hx as [(c & -> & Hc & Hn)|(c & Hc & -> & ->)].
    + apply lookup_used in Hn as (d & Hd & _ & <-). apply (word_ne W ∅ G a b c d y y Hly Ha Hd); [by intros ->|done|pose proof sizes; offsets; lia|done].
    + destruct (small_live hd W R s h G live Hs c Hc) as (HR & n & Hn & _ & H1 & H2). pose proof sizes. apply lookup_used in Hn as (d & Hd & _ & <-).
      apply (word_ne W ∅ G a b (fixedmblk h) d y y Hly Ha Hd); [by intros ->|done|offsets; lia|done].
  - split; [by eapply outside_safe|]. intros Hr. destruct (state_layout hd W R s h G live Hs) as [_ Hly].
    destruct (ly_blk _ _ _ Hly a b Ha) as (_ & _ & _ & _ & w & Hw & H1 & H2). apply (Hy w Hw). lia.
Qed.

(** The reserved blocks are apart from the callers'. *)
Lemma reserved_apart s h G live a b c n y : heap_state s h G live -> G !! a = Some b -> a ∉ dom R -> c ∈ dom R -> used G !! c = Some n ->
  buffer_at c <= y < buffer_at c + n -> apart G a b y.
Proof.
  intros Hs Ha HaR HcR Hn Hy. pose proof sizes. split; [by eapply payload_safe|]. intros Hr. apply lookup_used in Hn as (d & Hd & _ & <-).
  destruct (state_layout hd W R s h G live Hs) as [_ Hly].
  apply (word_ne W ∅ G a b c d y y Hly Ha Hd); [by intros ->|done|offsets; lia|done].
Qed.

Lemma wp_k_mm_free s U B x k Q : heap_ok s U B -> U !! x = Some k ->
  (forall s' B', only_heap s s' -> keeps (delete x U) s s' -> heap_ok s' (delete x U) B' -> Q tt s') ->
  wp (k_mm_free (Some hd) x) Q s.
Proof.
  intros (h & G & live & Hs & HU & ->) Hx HQ. pose proof sizes. destruct (state_layout hd W R s h G live Hs) as [Hwin Hly].
  unfold k_mm_free. apply HU in Hx as HUx. set (s1 := s <| irq_off := true |>). assert (Hs1 : heap_state s1 h G live) by by apply state_irq.
  destruct HUx as [(a & -> & HaR & Ha)|(b & Hb & -> & ->)].
  - apply lookup_used in Ha as Hb. destruct Hb as (b & Hb & Hbf & Hbk). destruct (layout_size _ _ _ _ _ Hwin Hly Hb) as (H0 & _ & Hend).
    destruct (ly_blk _ _ _ Hly _ _ Hb) as (_ & _ & B0 & _).
    rewrite decide_False by (offsets; lia). apply wp_bind, wp_critical_enter. fold s1. apply wp_bind.
    eapply (wp_ISFIXEDBLK s1 h G live _ false); [done|by exists a, k|]. cbv zeta.
    assert (Hwa : wrap size_bits (buffer_at a - MMLIST_HEAD_SIZE) = a) by (rewrite wrap_small; offsets; lia). rewrite Hwa.
    destruct (hs_heap _ _ _ _ _ _ _ Hs1) as [F HF]. rewrite (state_put hd s1 h) by apply (hs_at _ _ _ _ _ _ _ Hs1).
    eapply (wp_free_block hd W (apart G a b) (umem s1) h s1 (umem s1) h G F a b); [apply heap_rebase; [done|by intros y []]|done|done| |by intros y []|].
    { rewrite Hbk. by apply (hs_room _ _ _ _ _ _ _ Hs a). }
    intros m' h' G' F' Hh' Hu. apply wp_modify.
    assert (Hs' : heap_state (put hd s1 m' h') h' G' live).
    { eapply (state_step hd W R s1 h G live); [done|exact Hh'|..].
      - intros c Hc. rewrite Hu. apply lookup_delete_ne. by intros ->.
      - intros c n Hc HcR. rewrite Hu in Hc. apply lookup_delete_Some in Hc as [_ Hc]. by apply (hs_room _ _ _ _ _ _ _ Hs c).
      - intros y c n Hc Hn Hy. by eapply (reserved_apart s h G live). }
    apply (HQ _ (free_of G')).
    + apply only_heap_irq, only_heap_put.
    + intros y Hy Hne. cbn. change (umem s) with (umem s1). apply (hp_kept Hh'). eapply (held_apart s h G live U a b k); done.
    + apply heap_ok_irq. exists h', G', live. split; [done|]. split; [|done]. by eapply (holds_delete hd W R s h G live U G' a k).
  - rewrite decide_False by done. apply wp_bind, wp_critical_enter. fold s1. apply wp_bind.
    eapply (wp_ISFIXEDBLK s1 h G live _ true); [done|by exists b|]. apply wp_bind.
    eapply (wp_k_mm_smallblk_free s1 h G live U b); [done..|]. intros s' h' live' Ho Hk Hs' HU'. apply wp_modify.
    apply (HQ _ (free_of G)); [by apply only_heap_irq|done|]. apply heap_ok_irq. by exists h', G, live'.
Qed.

End heap_calls.
End HeapCalls.
