(* ===== verification/HeapCopy.v ===== *)
(** * Contents of blocks ([memcpy], [k_mm_realloc])

    What callers write to the blocks they hold does not disturb the heap, and a block that
    moves takes its contents with it. *)
From S2P Require Import Prelude Config Bitmap Kernel Sched Inv Demo Queue Mblk Heap HeapClass HeapList HeapInv HeapStep HeapAlloc HeapRealloc HeapOk HeapCalls.
Import Bitmap Sched Queue Mblk Heap HeapClass HeapList HeapInv HeapStep HeapAlloc HeapRealloc HeapOk HeapCalls.

Module HeapCopy.
Section heap_copy.
Context {cfg : RhinoConfig} (hd tmp_at : addr) (W : list (Z * Z)) (R : gmap Z Z).
Hypothesis Htmp : outside W (Zpos tmp_at).

Notation heap_state := (heap_state hd W R).
Notation keeps := (keeps tmp_at W).
Notation holds := (holds R).
Notation only_heap := (only_heap hd).

(** ** Copying words *)

Definition word_of (a : Z) (i : nat) : Z := a + Z.of_nat i * ptr_size.

Lemma word_of_S a i : word_of (a + ptr_size) i = word_of a (S i).
Proof. unfold word_of. lia. Qed.

Lemma wp_word_copy n dst src st m h (Q : unit -> kstate -> Prop) :
  (forall i, (i < n)%nat -> has m (word_of dst i) /\ has m (word_of src i)) ->
  (forall i j, (i < n)%nat -> (j < n)%nat -> word_of src i <> word_of dst j) ->
  (forall m', (forall i, (i < n)%nat -> rd m' (word_of dst i) = rd m (word_of src i)) ->
     (forall y, (forall i, (i < n)%nat -> y <> word_of dst i) -> rd m' y = rd m y) -> (forall y, has m y -> has m' y) ->
     Q tt (put hd st m' h)) ->
  wp (word_copy n dst src) Q (put hd st m h).
Proof.
  pose proof sizes as [_ Hp]. revert dst src m. induction n as [|n IH]; intros dst src m Hm Hd HQ; cbn [word_copy].
  { apply wp_ret. apply HQ; [lia|done|done]. }
  destruct (Hm 0%nat ltac:(lia)) as [H0d [v H0s]]. unfold word_of in H0d, H0s. rewrite Z.mul_0_l, Z.add_0_r in H0d, H0s.
  assert (Hsd : forall i, (i < S n)%nat -> rd (wr m dst v) (word_of src i) = rd m (word_of src i)).
  { intros i Hi. apply rd_wr_ne. specialize (Hd i 0%nat Hi ltac:(lia)). unfold word_of in *. lia. }
  apply wp_bind. eapply wp_rd; [exact H0s|]. apply wp_bind, wp_hset; [done|]. apply IH.
  - intros i Hi. rewrite !word_of_S. destruct (Hm (S i) ltac:(lia)). by split; apply has_wr.
  - intros i j Hi Hj. rewrite !word_of_S. apply Hd; lia.
  - intros m' H1 H2 H3. apply HQ.
    + intros [|i] Hi.
      * rewrite H2 by (intros j Hj; unfold word_of; lia). unfold word_of. rewrite Z.mul_0_l, !Z.add_0_r, H0s. by apply rd_wr.
      * rewrite <- word_of_S, H1 by lia. rewrite word_of_S. by apply Hsd.
    + intros y Hy. rewrite H2 by (intros i Hi; rewrite word_of_S; apply Hy; lia). apply rd_wr_ne.
      specialize (Hy 0%nat ltac:(lia)). unfold word_of in Hy. lia.
    + intros y Hy. by apply H3, has_wr.
Qed.

(** ** Writing to held blocks *)

(** The heap does not look at what the callers hold. *)
Lemma state_write s h G live U m' : heap_state s h G live -> holds G live U ->
  (forall y, ~ held U y -> ~ outside W y -> rd m' y = rd (umem s) y) -> (forall y, ~ outside W y -> has (umem s) y -> has m' y) ->
  heap_state (s <| umem := m' |>) h G live.
Proof.
  intros Hs HU Hm Hhas. destruct (hs_heap _ _ _ _ _ _ _ Hs) as [F HF]. destruct (state_layout hd W R s h G live Hs) as [Hwin Hly].
  assert (Howned : forall y, owned G y -> ~ held U y) by (intros y Hy Hh; apply (owned_unsafe G y Hy); by eapply held_safe).
  split; [by apply (hs_at _ _ _ _ _ _ _ Hs)| | |by apply (hs_reserved _ _ _ _ _ _ _ Hs)|by apply (hs_room _ _ _ _ _ _ _ Hs)].
  { exists F. eapply heap_unowned; [exact HF| |done]. intros y Hy. apply Hm; [by apply Howned|]. intros Ho. apply (owned_unsafe G y Hy). by eapply outside_safe. }
  destruct (hs_small _ _ _ _ _ _ _ Hs) as [?|(Hz & k & q & free & Hk & HR & Hle & Hq & Hperm)]; [by left|right].
  split; [done|]. exists k, q, free. do 3 (split; [done|]). split; [|done]. destruct Hq. split; try done.
  eapply links_ext; [|exact pool_links0]. intros b Hb. 
  apply lookup_used in Hk as Hc. destruct Hc as (c & Hc & _). destruct (layout_size _ _ _ _ _ Hwin Hly Hc) as (H0 & _).
  destruct (small_block (fixedmblk h) b H0) as (H1 & H2 & Hap); [rewrite <- Hperm; set_solver|].
  pose proof sizes. pose proof small_align as Hal. unfold small_start in *. rewrite Hal in *. change DEF_FIX_BLK_SIZE with 32 in *.
  apply (Hm (Zpos b)).
  2: { destruct (ly_blk _ _ _ Hly _ _ Hc) as (_ & _ & _ & _ & w & Hw & Hw1 & Hw2). intros Ho. apply (Ho w Hw).
    apply lookup_used in Hk as (c' & Hc' & _ & <-). assert (c' = c) as -> by congruence. offsets. lia. }
  intros (x & n & [(a & -> & Ha & Hn)|(b' & Hb' & -> & ->)]%HU & Hr).
  - destruct (used_apart W G a n (fixedmblk h) k Hly Hn Hk) as [[]|[]]; [by intros ->|offsets; lia..].
  - change DEF_FIX_BLK_SIZE with 32 in *. destruct (Hap b') as [->|[|]]; [rewrite <- Hperm; set_solver| |lia..].
    assert (Hnd : NoDup (free ++ live)) by (rewrite Hperm; apply blks_from_nodup; [unfold small_start; rewrite small_align; offsets; lia|done]).
    apply NoDup_app in Hnd as (_ & Hd & _). by apply (Hd b).
Qed.

(** Held blocks lie in the regions, and their words exist. *)
Lemma held_inside s h G live U y : heap_state s h G live -> holds G live U -> held U y -> ~ outside W y.
Proof.
  intros Hs HU Hy Ho. destruct (held_in hd W R s h G live U y Hs HU Hy) as (c & n & (b & Hb & _ & <-)%lookup_used & Hr & _).
  destruct (state_layout hd W R s h G live Hs) as [_ Hly]. pose proof sizes.
  destruct (ly_blk _ _ _ Hly _ _ Hb) as (_ & _ & ? & _ & w & Hw & H1 & H2). apply (Ho w Hw). offsets. lia.
Qed.

Lemma held_has s h G live U y : heap_state s h G live -> holds G live U -> held U y -> al y -> has (umem s) y.
Proof.
  intros Hs HU Hy Hal. destruct (held_in hd W R s h G live U y Hs HU Hy) as (c & n & (b & Hb & _ & <-)%lookup_used & Hr & _).
  destruct (state_layout hd W R s h G live Hs) as [_ Hly]. pose proof sizes.
  destruct (ly_blk _ _ _ Hly _ _ Hb) as (_ & _ & ? & _ & w & Hw & H1 & H2). destruct (hs_heap _ _ _ _ _ _ _ Hs) as [F HF].
  apply (hp_mem HF w); [done|done|offsets; lia].
Qed.

Lemma held_al s h G live U x k : heap_state s h G live -> holds G live U -> U !! x = Some k -> al x /\ 0 < x.
Proof.
  intros Hs HU Hx. destruct (state_layout hd W R s h G live Hs) as [Hwin Hly]. pose proof sizes.
  apply HU in Hx as [(a & -> & _ & (b & Hb & _)%lookup_used)|(b & Hb & -> & _)].
  - destruct (layout_size _ _ _ _ _ Hwin Hly Hb) as (H0 & _). destruct (ly_blk _ _ _ Hly _ _ Hb) as (Hal & _).
    split; [apply Z.divide_add_r; [done|apply Z.divide_factor_r]|offsets; lia].
  - destruct (small_live hd W R s h G live Hs b Hb) as (_ & n & (c & Hc & _)%lookup_used & Hin & _).
    destruct (layout_size _ _ _ _ _ Hwin Hly Hc) as (H0 & _). destruct (ly_blk _ _ _ Hly _ _ Hc) as (Hal & _).
    split; [by eapply small_al|done].
Qed.

(** Copying from one held block to another. *)
Lemma wp_memcpy s h G live U r x k k' n Q : heap_state s h G live -> holds G live U ->
  U !! r = Some k' -> U !! x = Some k -> x <> r -> al n -> 0 <= n -> n <= k -> n <= k' ->
  (forall m', heap_state (s <| umem := m' |>) h G live ->
     (forall i, al i -> 0 <= i < n -> rd m' (r + i) = rd (umem s) (x + i)) -> (forall y, ~ r <= y < r + n -> rd m' y = rd (umem s) y) ->
     Q tt (s <| umem := m' |>)) ->
  wp (memcpy r x n) Q s.
Proof.
  intros Hs HU Hr Hx Hne Hal Hn0 Hk Hk' HQ. pose proof sizes as [_ Hp]. destruct Hal as [q ->].
  destruct (held_al s h G live U x k Hs HU Hx) as [Hxal _], (held_al s h G live U r k' Hs HU Hr) as [Hral _].
  pose proof (holds_disjoint hd W R s h G live Hs U x k r k' HU Hx Hr Hne) as Hd.
  unfold memcpy. rewrite Z.mod_mul, decide_True, Z.div_mul by (lia || done). rewrite (state_put hd s h) by apply (hs_at _ _ _ _ _ _ _ Hs).
  assert (Hw : forall a i, al a -> al (word_of a i)) by (intros; apply Z.divide_add_r; [done|apply Z.divide_factor_r]).
  assert (Hq : forall i : nat, (i < Z.to_nat q)%nat -> 0 <= Z.of_nat i * ptr_size < q * ptr_size) by (intros i Hi; nia).
  apply wp_word_copy.
  - intros i Hi. specialize (Hq i Hi). split; apply (held_has s h G live U); try done; try by apply Hw.
    + exists r, k'. unfold word_of. split; [done|lia].
    + exists x, k. unfold word_of. split; [done|lia].
  - intros i j Hi Hj. pose proof (Hq i Hi). pose proof (Hq j Hj). unfold word_of. lia.
  - intros m' H1 H2 H3. assert (put hd s m' h = s <| umem := m' |>) as ->.
    { unfold put. pose proof (hs_at _ _ _ _ _ _ _ Hs) as Hh. apply kstate_ext; try reflexivity. cbn. unfold upd. cbn.
      rewrite insert_id by done. by destruct (kmm s). }
    assert (Hout : forall y, ~ r <= y < r + q * ptr_size -> rd m' y = rd (umem s) y).
    { intros y Hy. apply H2. intros i Hi ->. specialize (Hq i Hi). unfold word_of in Hy. lia. }
    apply HQ; [|intros i [j ->] Hi|done].
    + eapply state_write; [done|done| |by auto]. intros y Hy _. apply Hout. intros Hr'. apply Hy. exists r, k'. split; [done|lia].
    + specialize (H1 (Z.to_nat j)). unfold word_of in H1. rewrite Z2Nat.id in H1 by nia. apply H1. nia.
Qed.

(** ** Change of size *)

(** [x], of [k] bytes, became [r] with room for [size], and took its contents along; or the
    request failed and [x] stays. *)
Definition realloc_done (U : gmap Z Z) (x k size r : Z) (s s' : kstate) : Prop :=
  (r = 0 /\ (exists B', heap_ok hd W R s' U B') /\ keeps U s s') \/
  (exists k' B', 0 < r /\ al r /\ size <= k' /\ (r = x \/ U !! r = None) /\ heap_ok hd W R s' (<[r := k']> (delete x U)) B' /\
     keeps (delete x U) s s' /\ forall i, al i -> 0 <= i < Z.min k size -> rd (umem s') (r + i) = rd (umem s) (x + i)).

Lemma heap_ok_of s h G live U : heap_state s h G live -> holds G live U -> heap_ok hd W R s U (free_of G).
Proof. intros. by exists h, G, live. Qed.

Lemma keeps_delete U s s' x : keeps U s s' -> keeps (delete x U) s s'.
Proof. intros Hk. eapply keeps_mono; [exact Hk|]. by intros y n [_ ?]%lookup_delete_Some. Qed.

Lemma held_keeps s h G live U s' y : heap_state s h G live -> holds G live U -> keeps U s s' -> held U y -> rd (umem s') y = rd (umem s) y.
Proof.
  intros Hs HU Hk Hy. apply Hk; [by left|]. pose proof (held_inside s h G live U y Hs HU Hy). by intros ->.
Qed.

(** The contents are copied to a block that was just handed out, and the old one goes back. *)
Lemma wp_move s s2 h G live h2 G2 live2 U x k r kr size n {A} (k_free : K A) (Q : A -> kstate -> Prop) (QF : kstate -> Prop) :
  heap_state s h G live -> holds G live U -> U !! x = Some k -> U !! r = None -> 0 < r -> al r -> size <= kr ->
  heap_state s2 h2 G2 live2 -> holds G2 live2 (<[r := kr]> U) -> only_heap s s2 -> keeps U s s2 ->
  al n -> Z.min k size <= n -> 0 <= n <= k -> n <= kr ->
  (forall s3 U', heap_state s3 h2 G2 live2 -> holds G2 live2 U' -> U' = <[r := kr]> U ->
     (forall s4 B4, only_heap s3 s4 -> keeps (delete x U') s3 s4 -> heap_ok hd W R s4 (delete x U') B4 -> QF s4) ->
     wp k_free Q s3) ->
  (forall s4, only_heap s s4 -> realloc_done U x k size r s s4 -> QF s4) ->
  wp (memcpy r x n;; k_free) Q s2.
Proof.
  intros Hs HU Hx Hr Hr0 Hral Hkr Hs2 HU2 Ho Hk Hal Hn1 Hn2 Hn3 HK HQ. assert (Hxr : x <> r) by (intros ->; congruence).
  assert (Hx2 : <[r := kr]> U !! x = Some k) by by rewrite lookup_insert_ne.
  apply wp_bind. eapply (wp_memcpy s2 h2 G2 live2 (<[r := kr]> U) r x k kr n); try done; [apply lookup_insert_eq|lia..|].
  intros m3 Hs3 Hcopy Hout. set (s3 := s2 <| umem := m3 |>).
  assert (Ho3 : only_heap s s3).
  { eapply only_heap_trans; [exact Ho|]. exists m3, h2, (mblk_pools s2). pose proof (hs_at _ _ _ _ _ _ _ Hs2) as Hh.
    apply kstate_ext; try reflexivity. cbn. unfold upd. cbn. rewrite insert_id by done. by destruct (kmm s2). }
  apply (HK s3 (<[r := kr]> U)); [done..|]. intros s4 B4 Ho4 Hk4 Hok4. apply HQ; [by eapply only_heap_trans|].
  assert (Hdel : delete x (<[r := kr]> U) = <[r := kr]> (delete x U)) by by apply delete_insert_ne.
  rewrite Hdel in *. right. exists kr, B4. do 3 (split; [done|]). split; [by right|]. split; [done|].
  assert (Hinr : forall y, r <= y < r + kr -> ~ held U y).
  { intros y Hy (x' & n' & Hx' & Hy'). assert (x' <> r) by (intros ->; congruence).
    destruct (holds_disjoint hd W R s2 h2 G2 live2 Hs2 (<[r := kr]> U) x' n' r kr HU2); [by rewrite lookup_insert_ne|apply lookup_insert_eq|done|lia..]. }
  split.
  - intros y Hy Hne. rewrite (Hk4 y); [|destruct Hy as [(x' & n' & Hx' & Hy)|Hy]; [left|by right]|done].
    + cbn. rewrite Hout; [apply (keeps_delete U s s2 x Hk y Hy Hne)|]. intros Hry.
      destruct Hy as [(x' & n' & [_ Hx']%lookup_delete_Some & Hy)|Hy].
      * apply (Hinr y); [lia|]. by exists x', n'.
      * apply (held_inside s2 h2 G2 live2 (<[r := kr]> U) y Hs2 HU2); [|done]. exists r, kr. split; [apply lookup_insert_eq|lia].
    + exists x', n'. split; [|done]. rewrite lookup_insert_ne; [done|]. intros <-. apply lookup_delete_Some in Hx' as [_ Hx']. congruence.
  - intros i Hi Hr'. destruct (held_al s h G live U x k Hs HU Hx) as [Hxal _].
    rewrite <- (held_keeps s h G live U s2 (x + i) Hs HU Hk); [|exists x, k; split; [done|lia]].
    rewrite <- Hcopy by (done || lia). change m3 with (umem s3).
    assert (Hh : held (<[r := kr]> U) (r + i)) by (exists r, kr; split; [apply lookup_insert_eq|lia]).
    apply Hk4; [left; exists r, kr; split; [apply lookup_insert_eq|lia]|]. intros He. rewrite He in Hh.
    by apply (held_inside s2 h2 G2 live2 _ _ Hs2 HU2 Hh).
Qed.

(** A block of the lists moves. *)
Lemma wp_realloc_move s h G live U a b k size new Q : heap_state s h G live -> holds G live U ->
  G !! a = Some b -> bfree b = false -> a ∉ dom R -> U !! buffer_at a = Some k -> bsz b = k ->
  2 <= size <= new -> al new -> new <= 2 ^ 31 ->
  (forall r s', only_heap s s' -> realloc_done U (buffer_at a) k size r s s' -> Q r s') ->
  wp (realloc_move tmp_at hd a (buffer_at a) new) Q s.
Proof.
  intros Hs HU Ha Hbf HaR Hx Hbk Hsize Hal Hnew HQ. unfold realloc_move. apply wp_bind.
  eapply (wp_k_mm_alloc hd tmp_at W R Htmp s h G live U new); [done|done|lia|].
  intros r s2 Ho Hk (h2 & G2 & live2 & Hs2 & Hsub & _ & _ & [(-> & HU2 & _)|(kr & Hr0 & Hral & Hr & Hkr & HU2)]).
  { rewrite decide_True by done. apply wp_ret, HQ; [done|]. left. split; [done|]. split; [|done]. eexists. by eapply heap_ok_of. }
  rewrite decide_False by lia. assert (Hu2 : used G2 !! a = Some k) by (eapply lookup_weaken; [|exact Hsub]; apply lookup_used; by exists b).
  apply lookup_used in Hu2 as (b2 & Hb2 & _ & Hbk2). destruct (hs_heap _ _ _ _ _ _ _ Hs2) as [F2 HF2].
  destruct (state_layout hd W R s2 h2 G2 live2 Hs2) as [Hwin Hly]. destruct (ly_blk _ _ _ Hly _ _ Hb2) as (_ & Hkal & Hk0 & _).
  destruct (layout_size _ _ _ _ _ Hwin Hly Hb2) as (Ha0 & Hmax & _). pose proof max_mm_bound. rewrite max_mm_size in Hmax. pose proof sizes.
  apply wp_bind. rewrite (state_put hd s2 h2) by apply (hs_at _ _ _ _ _ _ _ Hs2). eapply wp_rd; [by apply (hp_size HF2)|].
  rewrite <- (state_put hd s2 h2) by apply (hs_at _ _ _ _ _ _ _ Hs2). rewrite (heap_blksize _ _ _ _ _ _ _ _ _ _ _ HF2 Hb2), Hbk2. cbv zeta.
  set (cp := if decide (new < k) then new else k). assert (Hcp : cp = Z.min new k) by (unfold cp; case_decide; lia).
  rewrite Hbk2 in *. rewrite (wrap_small 32) by lia.
  eapply (wp_move s s2 h G live h2 G2 live2 U (buffer_at a) k r kr size cp _ _ (Q r)); try done; [lia|unfold cp; by case_decide|lia..| |].
  - intros s3 U' Hs3 HU3 -> HQ4. apply wp_bind.
    eapply (wp_k_mm_free hd tmp_at W R); [by eapply heap_ok_of|by rewrite lookup_insert_ne by (intros ->; congruence)|].
    intros s4 B4 Ho4 Hk4 Hok4. apply wp_ret. by eapply HQ4.
  - intros s4 Ho4 Hd. by apply HQ.
Qed.

(** A small block stays or moves. *)
Lemma wp_realloc_small s h G live U b size Q : heap_state s h G live -> holds G live U -> b ∈ live -> 2 <= size <= 2 ^ 31 ->
  (forall r s', only_heap s s' -> realloc_done U (Zpos b) DEF_FIX_BLK_SIZE size r s s' -> Q r s') ->
  wp (realloc_small tmp_at hd (Zpos b) size) Q s.
Proof.
  intros Hs HU Hb Hsize HQ. assert (Hx : U !! Zpos b = Some DEF_FIX_BLK_SIZE) by (apply HU; right; by exists b).
  unfold realloc_small. destruct (decide (size <= DEF_FIX_BLK_SIZE)) as [Hle|Hgt].
  { apply wp_ret, HQ; [exists (umem s), h, (mblk_pools s); rewrite <- (state_put hd s h) by apply (hs_at _ _ _ _ _ _ _ Hs); by destruct s|].
    right. exists DEF_FIX_BLK_SIZE, (free_of G). destruct (held_al s h G live U _ _ Hs HU Hx) as [Hal H0]. do 3 (split; [done|]).
    split; [by left|]. rewrite insert_delete_eq, insert_id by done. split; [by eapply heap_ok_of|]. split; [by apply keeps_delete|done]. }
  apply wp_bind. eapply (wp_k_mm_alloc hd tmp_at W R Htmp s h G live U size); [done|done|lia|].
  intros r s2 Ho Hk (h2 & G2 & live2 & Hs2 & _ & Hsub & _ & [(-> & HU2 & _)|(kr & Hr0 & Hral & Hr & Hkr & HU2)]).
  { rewrite decide_False by auto. apply wp_bind, wp_ret, wp_ret, HQ; [done|]. left. split; [done|]. split; [|done]. eexists. by eapply heap_ok_of. }
  rewrite decide_True by lia. apply wp_bind. change DEF_FIX_BLK_SIZE with 32 in *.
  eapply (wp_move s s2 h G live h2 G2 live2 U (Zpos b) 32 r kr size 32 _ _ (Q r)); try done; try lia.
  - destruct ptr_cases as [Hp|Hp]; [exists 8|exists 4]; rewrite Hp; lia.
  - intros s3 U' Hs3 HU3 -> HQ4. eapply (wp_k_mm_smallblk_free hd tmp_at W R); [done|done|by apply Hsub|].
    intros s4 h4 live4 Ho4 Hk4 Hs4 HU4. apply wp_ret. eapply HQ4; [done|done|by eapply heap_ok_of].
  - intros s4 Ho4 Hd. by apply HQ.
Qed.

(** A change of size in place, seen by the callers. *)
Lemma resized_done s h G live U a b k size sz m' h' G' F' k' :
  heap_state s h G live -> holds G live U -> G !! a = Some b -> bfree b = false -> a ∉ dom R -> U !! buffer_at a = Some k -> bsz b = k ->
  size <= sz -> 2 * ptr_size <= sz -> sz <= k' ->
  heap_at W (fun y => safe G y /\ ~ split_at a sz <= y < blk_end a b) (umem s) h ∅ m' h' G' F' -> used G' = <[a := k']> (used G) ->
  realloc_done U (buffer_at a) k size (buffer_at a) s (put hd s m' h').
Proof.
  intros Hs HU Ha Hbf HaR Hx Hbk Hsize Hsz Hk' HF' Hu. pose proof sizes. destruct (state_layout hd W R s h G live Hs) as [Hwin Hly].
  assert (Hapart : forall y, apart G a b y -> safe G y /\ ~ split_at a sz <= y < blk_end a b).
  { intros y [H1 H2]. split; [done|]. intros Hr. apply H2. unfold split_at, blk_end in *. lia. }
  assert (Hs' : heap_state (put hd s m' h') h' G' live).
  { eapply (state_step hd W R s h G live); [done|exact HF'|..].
    - intros c Hc. rewrite Hu. apply lookup_insert_ne. by intros ->.
    - intros c n Hc HcR. rewrite Hu in Hc. apply lookup_insert_Some in Hc as [[-> <-]|[_ Hc]]; [lia|]. by apply (hs_room _ _ _ _ _ _ _ Hs c).
    - intros y c n Hc Hn Hy. apply Hapart. by eapply (reserved_apart hd W R s h G live). }
  destruct (held_al s h G live U _ _ Hs HU Hx) as [Hal H0]. right. exists k', (free_of G'). split; [done|]. split; [done|]. split; [lia|].
  split; [by left|]. rewrite insert_delete_eq. split; [|split].
  - exists h', G', live. split; [done|]. split; [|done]. by eapply (holds_grow hd W R s h G live).
  - intros y Hy _. apply (hp_kept HF'). apply Hapart. by eapply (held_apart hd W R s h G live U a b k).
  - intros i _ Hi. apply (hp_kept HF'). split.
    + eapply (payload_safe hd W R s h G live Hs a k); [apply lookup_used; by exists b|lia].
    + unfold split_at, blk_end. offsets. lia.
Qed.

(** A block of the lists gets another size. *)
Lemma wp_realloc_block s h G live U a b k size Q : heap_state s h G live -> holds G live U ->
  G !! a = Some b -> bfree b = false -> a ∉ dom R -> U !! buffer_at a = Some k -> bsz b = k -> 2 <= size <= 2 ^ 31 ->
  (forall r s', only_heap s s' -> realloc_done U (buffer_at a) k size r s s' -> Q r s') ->
  wp (realloc_block tmp_at hd (buffer_at a) size) Q s.
Proof.
  intros Hs HU Ha Hbf HaR Hx Hbk Hsize HQ. pose proof sizes. destruct (state_layout hd W R s h G live Hs) as [Hwin Hly].
  destruct (layout_size _ _ _ _ _ Hwin Hly Ha) as (H0 & Hmax & Hend). destruct (ly_blk _ _ _ Hly _ _ Ha) as (Hal & Hbal & B0 & _).
  destruct (hs_heap _ _ _ _ _ _ _ Hs) as [F HF0]. pose proof (hs_room _ _ _ _ _ _ _ Hs a k ltac:(apply lookup_used; by exists b) HaR) as Hroom.
  destruct (ly_next _ _ _ Hly a b Ha ltac:(lia)) as (d & Hd & _). destruct (ly_blk _ _ _ Hly _ _ Hd) as (_ & Dal & D0 & _).
  destruct (layout_size _ _ _ _ _ Hwin Hly Hd) as (_ & Hdmax & _). destruct (realloc_size_ok size ltac:(lia)) as (Sal & Hsz & Hsz6).
  set (sz := realloc_size size) in *. set (P := fun y => safe G y /\ ~ split_at a sz <= y < blk_end a b).
  assert (HF : heap_at W P (umem s) h ∅ (umem s) h G F) by (apply heap_rebase; [done|by intros y []]).
  assert (Hwa : wrap size_bits (buffer_at a - MMLIST_HEAD_SIZE) = a) by (rewrite wrap_small; offsets; lia).
  pose proof size_bits_pow. pose proof max_mm_bound. rewrite max_mm_size in *.
  assert (Hs0 : wp (realloc_move tmp_at hd a (buffer_at a) sz) Q s).
  { eapply (wp_realloc_move s h G live U a b k size sz); try done; lia. }
  unfold realloc_block. rewrite Hwa. cbv zeta. fold sz. rewrite (state_put hd s h) by apply (hs_at _ _ _ _ _ _ _ Hs).
  apply wp_bind. eapply wp_rd; [by apply (hp_size HF)|]. rewrite (heap_blksize _ _ _ _ _ _ _ _ _ _ _ HF Ha), (heap_next _ _ _ _ _ _ _ _ _ _ _ HF Ha).
  apply wp_bind. eapply wp_rd; [by apply (hp_size HF)|]. rewrite (heap_blksize _ _ _ _ _ _ _ _ _ _ _ HF Hd).
  apply wp_bind.
  assert (Hdone : resized hd W P (umem s) h s G a sz (fun r s' => wp (if decide (r <> 0) then hset (dye_at a) RHINO_MM_CORRUPT_DYE;; mret r
    else realloc_move tmp_at hd a (buffer_at a) sz) Q s')).
  { intros m' h' G' F' k' HF' Hu Hk' Hdye. rewrite decide_True by (offsets; lia). apply wp_bind, wp_hset; [done|]. apply wp_ret.
    apply HQ; [apply only_heap_put|]. eapply (resized_done s h G live U a b k size sz _ h' G' F' k'); try done; lia. }
  assert (Hback : put hd s (umem s) h = s) by (symmetry; apply state_put, (hs_at _ _ _ _ _ _ _ Hs)).
  destruct (decide (sz <= bsz b)) as [Hle|Hgt].
  - eapply (wp_realloc_shrink hd W P (umem s) h s _ _ G F a b sz size); try done; [split; [lia|done]|by intros y []|lia].
  - destruct (decide (Z.land (sizeword d) RHINO_MM_FREE <> 0)) as [Hdf%word_free|_]; [|done|].
    2: { apply wp_ret. rewrite decide_False by auto. by rewrite Hback. }
    rewrite wrap_small by lia. destruct (decide (sz <= bsz b + bsz d)).
    2: { apply wp_ret. rewrite decide_False by auto. by rewrite Hback. }
    eapply (wp_realloc_grow hd W P (umem s) h s _ _ G F a b d sz size); try done; [split; [lia|done]|lia].
Qed.

Lemma wp_k_mm_realloc s U B x k size Q : heap_ok hd W R s U B -> U !! x = Some k -> 2 <= size <= 2 ^ 31 ->
  (forall r s', only_heap s s' -> realloc_done U x k size r s s' -> Q r s') ->
  wp (k_mm_realloc tmp_at (Some hd) x size) Q s.
Proof.
  intros (h & G & live & Hs & HU & _) Hx Hsize HQ. destruct (held_al s h G live U x k Hs HU Hx) as [_ Hx0]. unfold k_mm_realloc.
  rewrite decide_False by lia. rewrite decide_False by lia. apply wp_bind, wp_critical_enter. set (s1 := s <| irq_off := true |>).
  assert (Hs1 : heap_state s1 h G live) by by apply state_irq. apply wp_bind. eapply wp_deref; [done|].
  assert (Hirq : forall r s', only_heap s1 s' -> realloc_done U x k size r s1 s' ->
    wp (RHINO_CRITICAL_EXIT (irq_off s);; mret r) Q s').
  { intros r s' Ho Hd. apply wp_bind, wp_modify, wp_ret, HQ; [by apply only_heap_irq|].
    destruct Hd as [(-> & [B' Hok] & Hk)|(k' & B' & H1 & H2 & H3 & H4 & Hok & Hk)]; [left|right].
    - split; [done|]. split; [|done]. exists B'. by apply heap_ok_irq.
    - exists k', B'. do 4 (split; [done|]). split; [by apply heap_ok_irq|done]. }
  apply HU in Hx as HUx. apply wp_bind. destruct HUx as [(a & -> & HaR & (b & Hb & Hbf & Hbk)%lookup_used)|(b & Hb & -> & ->)].
  - eapply (wp_ISFIXEDBLK hd W R s1 h G live _ false); [done|exists a, k; split; [done|split; [|done]]; apply lookup_used; by exists b|].
    apply wp_bind. by eapply (wp_realloc_block s1 h G live U a b k).
  - eapply (wp_ISFIXEDBLK hd W R s1 h G live _ true); [done|by exists b|].
    apply wp_bind. by eapply (wp_realloc_small s1 h G live U b).
Qed.

End heap_copy.
End HeapCopy.
