(* ===== verification/HeapInit.v ===== *)
(** * Setting a heap up ([krhino_init_mm_head])

    A region of raw memory becomes a heap with one free block and, when there is room, the
    pool of small blocks in it. *)
From S2P Require Import Prelude Config Bitmap Kernel Sched Inv Demo Queue Mblk Heap HeapClass HeapList HeapInv HeapStep HeapAlloc HeapRealloc HeapOk HeapCalls HeapCopy.
Import Bitmap Sched Queue Mblk Heap HeapClass HeapList HeapInv HeapStep HeapAlloc HeapRealloc HeapOk HeapCalls HeapCopy.

Module HeapInit.
Section heap_init.
Context {cfg : RhinoConfig} (hd : addr).

Lemma region_info : MM_ALIGN_UP sizeof_region_info = 2 * ptr_size.
Proof.
  unfold sizeof_region_info. pose proof size_bits_pow. apply align_up_id; [destruct ptr_cases as [-> | ->]; lia..|]. apply Z.divide_factor_r.
Qed.

Lemma region_used : MMREGION_USED_SIZE = 14 * ptr_size.
Proof. unfold MMREGION_USED_SIZE. rewrite region_info, head_size. lia. Qed.

Lemma size_flags sz f : al sz -> 0 <= f < 4 -> Z.lor sz f = sz + f.
Proof.
  intros Hal Hf. destruct (al_4 _ Hal) as [q ->]. rewrite <- (Z.add_0_r (q * 4)) at 1. rewrite lor_low by (rewrite ?Z.lor_0_l; lia).
  by rewrite Z.lor_0_l.
Qed.

(** ** A region *)

Section region.
Context (r0 rl : Z).

(** the block behind the description, and the last one *)
Definition first_free : Z := r0 + MMLIST_HEAD_SIZE + 2 * ptr_size.
Definition last_blk : Z := r0 + rl - MMLIST_HEAD_SIZE.
Definition region_size : Z := rl - MMREGION_USED_SIZE.

Definition region_map : gmap Z blk :=
  <[r0 := mk_blk (2 * ptr_size) false false]> (<[first_free := mk_blk region_size true false]> (<[last_blk := mk_blk 0 false true]> ∅)).

(** what [init_mm_region] leaves in memory, the dye of the second block apart *)
Record region_written (m m' : gmap addr Z) : Prop := {
  rw_first : rd m' (size_at r0) = Some (2 * ptr_size) /\ rd m' (dye_at r0) = Some RHINO_MM_CORRUPT_DYE;
  rw_free : rd m' (size_at first_free) = Some region_size;
  rw_last : rd m' (size_at last_blk) = Some 2 /\ rd m' (dye_at last_blk) = Some RHINO_MM_CORRUPT_DYE;
  rw_info : rd m' (end_at (buffer_at r0)) = Some last_blk /\ rd m' (next_at (buffer_at r0)) = Some 0;
  rw_has : forall y, has m y -> has m' y;
  rw_other : forall y, ~ r0 <= y < r0 + rl -> rd m' y = rd m y;
}.

Hypothesis Hr0 : 0 < r0 /\ al r0.
Hypothesis Hrl : MMREGION_USED_SIZE + 2 * ptr_size <= rl <= MAX_MM_SIZE /\ al rl.
Hypothesis Hend : r0 + rl + 8 < 2 ^ size_bits.

Lemma wp_init_mm_region st m h Q : (forall y, al y -> r0 <= y < r0 + rl -> has m y) ->
  (forall m', region_written m m' -> Q r0 (put hd st m' h)) -> wp (init_mm_region r0 rl) Q (put hd st m h).
Proof.
  intros Hm HQ. pose proof sizes as [HH Hp]. pose proof region_used as HU. rewrite HU in Hrl. destruct Hr0 as [H0 Hal0], Hrl as [Hr Halr].
  pose proof max_mm_bound as Hmax. rewrite max_mm_size in Hr. pose proof size_bits_pow.
  assert (Halc : al region_size) by (unfold region_size; rewrite HU; apply Z.divide_sub_r; [done|apply Z.divide_factor_r]).
  assert (Hcs : wrap size_bits (rl - MMREGION_USED_SIZE) = region_size) by (unfold region_size; rewrite HU; apply wrap_small; lia).
  assert (Hb1 : blksize (2 * ptr_size) = 2 * ptr_size).
  { replace (2 * ptr_size) with (2 * ptr_size + 0) at 1 by lia. apply blksize_eq; [apply Z.divide_factor_r|lia|lia]. }
  assert (Hb2 : blksize region_size = region_size).
  { replace region_size with (region_size + 0) at 1 by lia. unfold region_size in *. rewrite HU in *. apply blksize_eq; [done|lia|lia]. }
  assert (Hw : forall i, 0 <= i -> (i + 1) * ptr_size <= rl -> has m (r0 + i * ptr_size)).
  { intros i Hi Hir. apply Hm; [apply Z.divide_add_r; [done|apply Z.divide_factor_r]|lia]. }
  assert (Hwl : forall i, 0 <= i < 4 -> has m (last_blk + i * ptr_size)).
  { intros i Hi. apply Hm; [|unfold last_blk; rewrite HH; nia]. unfold last_blk. rewrite HH.
    apply Z.divide_add_r; [|apply Z.divide_factor_r]. apply Z.divide_sub_r; [by apply Z.divide_add_r|apply Z.divide_factor_r]. }
  unfold init_mm_region. cbv zeta.
  rewrite Hcs, region_info, (align_down_id region_size), !Z.lor_0_r by (done || (unfold region_size; rewrite HU; lia)).
  apply wp_bind, wp_hset; [apply (Hw 3); lia|]. apply wp_bind. eapply wp_rd; [apply rd_wr, (Hw 3); lia|]. rewrite Hb1.
  assert (Hn1 : NEXT_MM_BLK (buffer_at r0) (2 * ptr_size) = first_free).
  { unfold NEXT_MM_BLK, first_free. rewrite wrap_small; offsets; lia. }
  rewrite Hn1. set (c := first_free) in *. set (l := last_blk) in *. set (cs := region_size) in *.
  assert (Hc : c = r0 + 6 * ptr_size) by (unfold c, first_free; lia).
  assert (Hl : l = r0 + rl - 4 * ptr_size) by (unfold l, last_blk; lia).
  assert (Hcsv : cs = rl - 14 * ptr_size) by (unfold cs, region_size; lia).
  assert (Hc0 : first_free = c) by done. assert (Hl00 : last_blk = l) by done. assert (Hcs0 : region_size = cs) by done.
  clearbody c l cs. clear Hm Hn1.
  assert (Hwc : forall i, 0 <= i < 6 -> has m (c + i * ptr_size)).
  { intros i Hi. replace (c + i * ptr_size) with (r0 + (i + 6) * ptr_size) by lia. apply Hw; nia. }
  assert (Hn2 : NEXT_MM_BLK (buffer_at c) cs = l) by (unfold NEXT_MM_BLK; rewrite wrap_small; offsets; lia).
  apply wp_bind, wp_hset; [apply has_wr, (Hwc 3); lia|]. apply wp_bind, wp_hset; [do 2 apply has_wr; apply (Hwc 5); lia|].
  apply wp_bind, wp_hset; [do 3 apply has_wr; apply (Hwc 4); lia|].
  apply wp_bind. eapply wp_rd; [rewrite 2!rd_wr_ne by (offsets; lia); apply rd_wr, has_wr, (Hwc 3); lia|]. rewrite Hb2, Hn2.
  assert (Hl0 : has m l) by (specialize (Hwl 0); rewrite Z.add_0_r in Hwl; apply Hwl; lia).
  assert (Hl1 : has m (owner_at l)) by (specialize (Hwl 1); rewrite Z.mul_1_l in Hwl; apply Hwl; lia).
  assert (Hr1 : has m (dye_at r0)) by (specialize (Hw 0); unfold dye_at; rewrite Z.add_0_r in Hw; apply Hw; lia).
  assert (Hr2 : has m (owner_at r0)) by (specialize (Hw 1); unfold owner_at; rewrite Z.mul_1_l in Hw; apply Hw; lia).
  assert (Hr3 : has m (next_at (buffer_at r0))) by (specialize (Hw 5); unfold next_at, buffer_at; replace (r0 + 4 * ptr_size + ptr_size) with (r0 + 5 * ptr_size) by lia; apply Hw; lia).
  assert (Hr4 : has m (end_at (buffer_at r0))) by (apply (Hw 4); lia).
  apply wp_bind, wp_hset; [do 4 apply has_wr; apply (Hwl 2); lia|]. apply wp_bind, wp_hset; [do 5 apply has_wr; apply (Hwl 3); lia|].
  apply wp_bind, wp_hset; [by do 6 apply has_wr|]. apply wp_bind, wp_hset; [by do 7 apply has_wr|].
  apply wp_bind, wp_hset; [by do 8 apply has_wr|]. apply wp_bind, wp_hset; [by do 9 apply has_wr|].
  apply wp_bind, wp_hset; [by do 10 apply has_wr|]. apply wp_bind, wp_hset; [by do 11 apply has_wr|]. apply wp_ret. apply HQ.
  assert (Hn : next_at (buffer_at r0) = r0 + 5 * ptr_size /\ end_at (buffer_at r0) = r0 + 4 * ptr_size) by (unfold next_at, end_at; offsets; lia).
  destruct Hn as [En Ee].
  assert (Hhas : has m (size_at r0) /\ has m (size_at c) /\ has m (size_at l)) by (split; [apply (Hw 3)|split; [apply (Hwc 3)|apply (Hwl 3)]]; lia).
  destruct Hhas as (Hh1 & Hh2 & Hh3). rewrite Z.lor_0_l.
  split; rewrite ?Hc0, ?Hl00, ?Hcs0.
  - split; repeat first [rewrite rd_wr_ne by (rewrite ?En, ?Ee; offsets; lia)|apply rd_wr]; by repeat apply has_wr.
  - repeat first [rewrite rd_wr_ne by (rewrite ?En, ?Ee; offsets; lia)|apply rd_wr]; by repeat apply has_wr.
  - split; repeat first [rewrite rd_wr_ne by (rewrite ?En, ?Ee; offsets; lia)|apply rd_wr]; by repeat apply has_wr.
  - split; repeat first [rewrite rd_wr_ne by (rewrite ?En, ?Ee; offsets; lia)|apply rd_wr]; by repeat apply has_wr.
  - intros y Hy. by repeat apply has_wr.
  - intros y Hy. rewrite !rd_wr_ne; [done|intros <-; apply Hy; rewrite ?En, ?Ee; offsets; lia..].
Qed.

Lemma first_next : NEXT_MM_BLK (buffer_at r0) (blksize (2 * ptr_size)) = first_free.
Proof.
  pose proof sizes as [HH Hp]. pose proof ptr_cases as Hpc. rewrite <- (Z.add_0_r (2 * ptr_size)), blksize_eq by (apply Z.divide_factor_r || lia).
  pose proof region_used as HU. unfold NEXT_MM_BLK, first_free. rewrite wrap_small; offsets; lia.
Qed.

(** the dye of the second block is written *)
Lemma region_dyed m m1 : (forall y, al y -> r0 <= y < r0 + rl -> has m y) -> region_written m m1 ->
  let m2 := wr m1 (dye_at first_free) RHINO_MM_CORRUPT_DYE in
  has m1 (dye_at first_free) /\ region_written m m2 /\ rd m2 (dye_at first_free) = Some RHINO_MM_CORRUPT_DYE.
Proof.
  intros Hm [] m2. pose proof sizes as [HH Hp]. pose proof region_used as HU. destruct Hr0 as [H0 Hal0], Hrl as [Hr Halr]. rewrite HU in Hr.
  assert (Hc : first_free = r0 + 6 * ptr_size) by (unfold first_free; lia). assert (Hl : last_blk = r0 + rl - 4 * ptr_size) by (unfold last_blk; lia).
  assert (Hhas : has m1 (dye_at first_free)).
  { apply rw_has0, Hm; unfold dye_at; [rewrite Hc; apply Z.divide_add_r; [done|apply Z.divide_factor_r]|lia]. }
  split; [done|]. split; [|by apply rd_wr]. unfold m2.
  split; rewrite ?rd_wr_ne by (unfold end_at, next_at; offsets; lia); try done; [intros y Hy; by apply has_wr, rw_has0|].
  intros y Hy. rewrite rd_wr_ne by (intros <-; apply Hy; offsets; lia). by apply rw_other0.
Qed.


Lemma region_dyed_al : al (size_at first_free) /\ r0 <= size_at first_free < r0 + rl.
Proof.
  pose proof sizes as [HH Hp]. pose proof region_used as HU. destruct Hr0 as [H0 Hal0], Hrl as [Hr _]. rewrite HU in Hr.
  unfold size_at, first_free. rewrite HH. split; [|lia].
  repeat apply Z.divide_add_r; [done|apply Z.divide_factor_r..].
Qed.

(** ** The first block *)

Definition region_win : list (Z * Z) := [(r0, r0 + rl)].

Lemma region_win_ok : win_ok region_win.
Proof.
  unfold region_win. split.
  - intros v w Hv%list_elem_of_singleton Hw%list_elem_of_singleton. left. congruence.
  - intros w ->%list_elem_of_singleton. cbn. lia.
Qed.

Lemma region_order : r0 < first_free /\ first_free = r0 + MMLIST_HEAD_SIZE + 2 * ptr_size /\
  last_blk = first_free + MMLIST_HEAD_SIZE + region_size /\ last_blk + MMLIST_HEAD_SIZE = r0 + rl /\ 2 * ptr_size <= region_size.
Proof.
  pose proof sizes as [HH Hp]. pose proof region_used as HU. destruct Hrl as [Hr _]. unfold first_free, last_blk, region_size.
  rewrite HU in *. lia.
Qed.

Lemma region_look a b : region_map !! a = Some b ->
  a = r0 /\ b = mk_blk (2 * ptr_size) false false \/ a = first_free /\ b = mk_blk region_size true false \/
  a = last_blk /\ b = mk_blk 0 false true.
Proof.
  unfold region_map. intros H. apply lookup_insert_Some in H as [[<- <-]|[_ H]]; [auto|].
  apply lookup_insert_Some in H as [[<- <-]|[_ H]]; [auto|]. apply lookup_insert_Some in H as [[<- <-]|[_ H]]; [auto|done].
Qed.

Lemma region_at : region_map !! r0 = Some (mk_blk (2 * ptr_size) false false) /\
  region_map !! first_free = Some (mk_blk region_size true false) /\ region_map !! last_blk = Some (mk_blk 0 false true).
Proof.
  destruct region_order as (H1 & H2 & H3 & H4 & H5). pose proof sizes. unfold region_map.
  rewrite lookup_insert_eq. rewrite !(lookup_insert_ne _ r0), lookup_insert_eq by lia.
  rewrite (lookup_insert_ne _ first_free), lookup_insert_eq by lia. done.
Qed.

Lemma region_layout : layout region_win {[first_free]} region_map.
Proof.
  destruct region_order as (H1 & H2 & H3 & H4 & H5). pose proof sizes as [HH Hp]. destruct region_at as (A1 & A2 & A3).
  destruct Hr0 as [H0 Hal0]. destruct Hrl as [_ Halr].
  assert (Hp2 : al (2 * ptr_size)) by apply Z.divide_factor_r. assert (HHal : al MMLIST_HEAD_SIZE) by (rewrite HH; apply Z.divide_factor_r).
  assert (Hcal : al first_free) by (rewrite H2; apply Z.divide_add_r; [by apply Z.divide_add_r|done]).
  assert (Hsal : al region_size) by (unfold region_size; rewrite region_used; apply Z.divide_sub_r; [done|apply Z.divide_factor_r]).
  assert (Hlal : al last_blk) by (rewrite H3; apply Z.divide_add_r; [by apply Z.divide_add_r|done]).
  split.
  - intros a b H. assert (Hw : forall x, (r0, r0 + rl) = x -> x ∈ region_win) by (intros x <-; left).
    destruct (region_look a b H) as [[-> ->]|[[-> ->]|[-> ->]]]; cbn [bsz bfree];
      (split; [done|]; split; [done || apply Z.divide_0_r|]; split; [lia|]; split; [done || lia|]; exists (r0, r0 + rl);
       split; [by apply Hw|]; unfold blk_end; cbn [fst snd bsz]; lia).
  - intros a b c d Ha Hc Hac. destruct (region_look a b Ha) as [[-> ->]|[[-> ->]|[-> ->]]],
      (region_look c d Hc) as [[-> ->]|[[-> ->]|[-> ->]]]; unfold blk_end; cbn [bsz]; lia.
  - intros a b Ha Hs. destruct (region_look a b Ha) as [[-> ->]|[[-> ->]|[-> ->]]]; unfold blk_end; cbn [bsz bfree] in *; [| |lia].
    + exists (mk_blk region_size true false). rewrite <- H2. split; [done|]. by cbn.
    + exists (mk_blk 0 false true). rewrite <- H3. split; [done|]. by cbn.
  - intros c d Hc Hp'. destruct (region_look c d Hc) as [[-> ->]|[[-> ->]|[-> ->]]]; [done|done|]. split; [by left|].
    exists first_free, (mk_blk region_size true false). split; [done|]. split; [unfold blk_end; cbn; lia|by left].
  - intros w y ->%list_elem_of_singleton. cbn [fst snd]. intros Hy. destruct (decide (y < first_free)); [|destruct (decide (y < last_blk))].
    + eexists _, _. split; [exact A1|]. unfold blk_end. cbn. lia.
    + eexists _, _. split; [exact A2|]. unfold blk_end. cbn. lia.
    + eexists _, _. split; [exact A3|]. unfold blk_end. cbn. lia.
Qed.

Lemma fresh_lists m h : fl_bitmap h = 0 -> sl_bitmap h = replicate (Z.to_nat FLT_SIZE) 0 ->
  mm_tbl h = replicate (Z.to_nat FLT_SIZE) (replicate (Z.to_nat SLT_SIZE) 0) -> lists_ok m h (fun _ _ => []).
Proof.
  intros Hf Hs Ht. split.
  - by rewrite Hs, length_replicate.
  - intros f s [Hf1 Hs1]. exists 0, 0. split; [|done]. unfold tbl_at. rewrite Ht. rewrite lookup_replicate_2 by lia. cbn. apply lookup_replicate_2. lia.
  - intros f w. rewrite Hs. intros [-> _]%lookup_replicate. split; [lia|]. intros s _. by rewrite Z.testbit_0_l.
  - rewrite Hf. split; [lia|]. intros f _. rewrite Z.testbit_0_l. split; [done|]. intros (_ & w & Hw & Hw0). rewrite Hs in Hw.
    by apply lookup_replicate in Hw as [-> _].
  - intros. constructor.
Qed.

(** The region, its second block marked as free, is a heap on which a call works. *)
Lemma fresh_heap m m1 h : region_written m m1 -> (forall y, al y -> r0 <= y < r0 + rl -> has m y) ->
  fl_bitmap h = 0 -> sl_bitmap h = replicate (Z.to_nat FLT_SIZE) 0 ->
  mm_tbl h = replicate (Z.to_nat FLT_SIZE) (replicate (Z.to_nat SLT_SIZE) 0) -> length (mm_size_stats h) = Z.to_nat MAX_MM_BIT ->
  let m2 := wr (wr m1 (dye_at first_free) RHINO_MM_FREE_DYE) (size_at first_free) (sizeword (mk_blk region_size true false)) in
  heap_at region_win (outside region_win) m h {[first_free]} m2 h region_map (fun _ _ => []).
Proof.
  intros [] Hm Hf Hs Ht Hl m2. destruct region_order as (H1 & H2 & H3 & H4 & H5). pose proof sizes as [HH Hp].
  assert (Hhas : forall y, al y -> r0 <= y < r0 + rl -> has m1 y) by auto.
  assert (Hcal : al first_free) by (rewrite H2; destruct Hr0; apply Z.divide_add_r; [apply Z.divide_add_r; [done|rewrite HH]|]; apply Z.divide_factor_r).
  assert (Hc : has m1 (dye_at first_free)) by (apply Hhas; [done|offsets; lia]).
  assert (Hc' : has m1 (size_at first_free)) by by eexists.
  split.
  - apply region_win_ok.
  - apply region_layout.
  - intros a b Ha. unfold m2. destruct (region_look a b Ha) as [[-> ->]|[[-> ->]|[-> ->]]].
    + rewrite !rd_wr_ne by (offsets; lia). cbn. rewrite (proj1 rw_first0). f_equal. unfold sizeword, flag_bits. cbn. lia.
    + apply rd_wr. by apply has_wr.
    + rewrite !rd_wr_ne by (offsets; lia). apply rw_last0.
  - intros a b Ha. unfold m2. destruct (region_look a b Ha) as [[-> ->]|[[-> ->]|[-> ->]]].
    + rewrite !rd_wr_ne by (offsets; lia). apply rw_first0.
    + rewrite rd_wr_ne by (offsets; lia). by apply rd_wr.
    + rewrite !rd_wr_ne by (offsets; lia). apply rw_last0.
  - intros a b Ha Hbf HX. destruct (region_look a b Ha) as [[-> ->]|[[-> ->]|[-> ->]]]; [done|set_solver|done].
  - intros w y ->%list_elem_of_singleton Hal Hy. cbn in Hy. unfold m2. do 2 apply has_wr. by apply Hhas.
  - by apply fresh_lists.
  - intros f s a. split; [by intros ?%not_elem_of_nil|]. intros (b & Ha & Hbf & HX & _).
    destruct (region_look a b Ha) as [[-> ->]|[[-> ->]|[-> ->]]]; [done|set_solver|done].
  - intros y Hy a b Ha Hr. exfalso. apply (Hy (r0, r0 + rl)); [left|]. cbn.
    destruct (region_look a b Ha) as [[-> ->]|[[-> ->]|[-> ->]]]; unfold blk_end in Hr; cbn in Hr; lia.
  - intros y Hy. assert (Hyr : ~ r0 <= y < r0 + rl) by (intros Hr; by apply (Hy (r0, r0 + rl)); [left|]).
    unfold m2. rewrite !rd_wr_ne; [by apply rw_other0|intros <-; apply Hyr; offsets; lia..].
  - by repeat split.
Qed.
End region.
(** ** The calls that set a heap up *)

Section setup.
Context (tmp_at : addr) (r0 rl : Z).
Hypothesis Hr0 : 0 < r0 /\ al r0.
Hypothesis Hrl : MMREGION_USED_SIZE + 2 * ptr_size <= rl <= MAX_MM_SIZE /\ al rl.
Hypothesis Hend : r0 + rl + 8 < 2 ^ size_bits.

#[local] Notation W := (region_win r0 rl).
#[local] Notation c := (first_free r0).

(** the blocks of the region itself *)
Definition region_reserved : gmap Z Z := <[r0 := 2 * ptr_size]> {[last_blk r0 rl := 0]}.

(** a head as [memset] leaves it *)
Definition blank (h : k_mm_head) : Prop :=
  fixedmblk h = 0 /\ fl_bitmap h = 0 /\ sl_bitmap h = replicate (Z.to_nat FLT_SIZE) 0 /\
  mm_tbl h = replicate (Z.to_nat FLT_SIZE) (replicate (Z.to_nat SLT_SIZE) 0) /\ length (mm_size_stats h) = Z.to_nat MAX_MM_BIT.

Lemma region_in_use : used (region_map r0 rl) = region_reserved.
Proof.
  unfold region_map, region_reserved. rewrite !used_insert. cbn [bfree bsz]. unfold used. rewrite omap_empty.
  rewrite delete_id; [done|]. destruct (region_order r0 rl Hrl) as (H1 & H2 & H3 & H4 & H5). pose proof sizes.
  by rewrite lookup_insert_ne by lia.
Qed.

(** The second block of the region becomes the first free one. *)
Lemma wp_free_region s m h m1 Q : (forall y, al y -> r0 <= y < r0 + rl -> has m y) -> region_written r0 rl m m1 -> blank h ->
  rd m1 (dye_at c) = Some RHINO_MM_CORRUPT_DYE ->
  (forall m' h' G', heap_state hd W region_reserved (put hd s m' h') h' G' [] -> (forall y, outside W y -> rd m' y = rd m y) ->
     fixedmblk h' = 0 -> used G' = used (region_map r0 rl) -> Q tt (put hd s m' h')) ->
  wp (k_mm_free (Some hd) (buffer_at c)) Q (put hd s m1 h).
Proof.
  intros Hm Hw (Hfx & Hf & Hsl & Ht & Hst) Hdye HQ. pose proof sizes. destruct (region_order r0 rl Hrl) as (H1 & H2 & H3 & H4 & H5).
  unfold k_mm_free. rewrite decide_False by (offsets; lia). apply wp_bind, wp_critical_enter. apply wp_bind.
  change ((put hd s m1 h) <| irq_off := true |>) with (put hd (s <| irq_off := true |>) m1 h).
  apply wp_bind, wp_mm_get. rewrite decide_True by done. apply wp_ret. cbv zeta.
  assert (Hwc : wrap size_bits (buffer_at c - MMLIST_HEAD_SIZE) = c) by (rewrite wrap_small; offsets; lia). rewrite Hwc.
  change (irq_off (put hd s m1 h)) with (irq_off s). fold (free_body hd c (irq_off s) (RHINO_CRITICAL_EXIT (irq_off s))).
  assert (Hral : al (region_size rl)) by (unfold region_size; rewrite region_used; apply Z.divide_sub_r; [apply Hrl|apply Z.divide_factor_r]).
  eapply wp_free_dyed with (b := mk_blk (region_size rl) false false); [exact Hral|exact Hdye| |].
  { rewrite (rw_free _ _ _ _ Hw). f_equal. unfold sizeword, flag_bits. cbn. lia. }
  change ((mk_blk (region_size rl) false false) <| bfree := true |>) with (mk_blk (region_size rl) true false).
  pose proof (fresh_heap r0 rl Hr0 Hrl Hend m m1 h Hw Hm Hf Hsl Ht Hst) as Hh. destruct (region_at r0 rl Hrl) as (_ & A2 & _).
  eapply wp_free_marked; [exact Hh|exact A2|done|cbn; lia|]. intros m' h' G' F' Hh' Hu. apply wp_modify.
  match goal with |- Q tt ?x => assert (x = put hd s m' h') as -> by by apply kstate_ext end.
  apply (HQ m' h' G'); [|by apply (hp_kept Hh')| |done].
  - destruct (hp_head Hh') as (_ & Hfx' & _). split.
    + cbn. unfold upd. cbn. apply lookup_insert_eq.
    + exists F'. destruct Hh'. split; try done; [by intros y []..|]. by destruct hp_head0 as (_ & _ & ?).
    + left. split; [congruence|done].
    + by rewrite Hu, region_in_use.
    + rewrite Hu, region_in_use. intros a k Hk%elem_of_dom_2 Ha. by destruct Ha.
  - destruct (hp_head Hh') as (_ & -> & _). done.
Qed.
End setup.
(** ** The pool of small blocks *)

Section small_pool.
Context (tmp_at : addr) (W : list (Z * Z)) (R : gmap Z Z).
Hypothesis Htmp : outside W (Zpos tmp_at).

(** what setting up may change of the kernel *)
Definition only_setup (s s' : kstate) : Prop :=
  exists m h p l, s' = (put hd s m h) <| mblk_pools := p |> <| g_kobj_list := l |>.

Lemma only_setup_heap s s' : only_heap hd s s' -> only_setup s s'.
Proof. intros (m & h & p & ->). exists m, h, p, (g_kobj_list s). by apply kstate_ext. Qed.

Lemma only_setup_trans s1 s2 s3 : only_setup s1 s2 -> only_setup s2 s3 -> only_setup s1 s3.
Proof.
  intros (m & h & p & l & ->) (m' & h' & p' & l' & ->). exists m', h', p', l'. apply kstate_ext; try reflexivity. cbn. unfold upd. cbn.
  by rewrite insert_insert_eq.
Qed.

Lemma state_restat R1 s h h' G live : heap_state hd W R1 s h G live -> restat h h' -> heap_state hd W R1 (put hd s (umem s) h') h' G live.
Proof.
  intros Hs Hst. destruct (hs_heap _ _ _ _ _ _ _ Hs) as [F HF]. split.
  - cbn. unfold upd. cbn. apply lookup_insert_eq.
  - exists F. by eapply heap_rehead.
  - destruct Hst as (_ & Hfx & _). eapply small_frame; [exact Hs|done..].
  - apply (hs_reserved _ _ _ _ _ _ _ Hs).
  - apply (hs_room _ _ _ _ _ _ _ Hs).
Qed.

Lemma holds_none G live : holds R G live ∅ -> live = [].
Proof.
  intros HU. destruct live as [|b live]; [done|]. assert ((∅ : gmap Z Z) !! Zpos b = Some DEF_FIX_BLK_SIZE) as Hb; [|done].
  apply HU. right. exists b. split; [left|done].
Qed.

(** The memory of a block in use becomes the pool. *)
Lemma pool_state s h G a k q M p l : heap_state hd W R s h G [] -> holds R G [] (<[buffer_at a := k]> ∅) -> a ∉ dom R -> used G !! a = Some k ->
  MM_ALIGN_UP sizeof_mblk_pool + RHINO_CONFIG_MM_TLF_BLK_SIZE <= k ->
  (forall y, ~ buffer_at a <= y < buffer_at a + k -> rd M y = rd (umem s) y) -> (forall y, has (umem s) y -> has M y) ->
  let h' := h <| fixedmblk := a |> in
  let s' := (put hd s M h') <| mblk_pools := p |> <| g_kobj_list := l |> in
  pool_ok s' (mm_pool_of h') q (small_blocks a) ->
  heap_state hd W (<[a := k]> R) s' h' G [] /\ holds (<[a := k]> R) G [] ∅.
Proof.
  intros Hs HU HaR Hk Hle HM Hhas h' s' Hq. destruct (state_layout hd W R s h G [] Hs) as [Hwin Hly].
  apply lookup_used in Hk as Hb. destruct Hb as (b & Hb & _). destruct (layout_size _ _ _ _ _ Hwin Hly Hb) as (Ha0 & _).
  assert (Hs1 : heap_state hd W R (s <| umem := M |>) h G []).
  { eapply (state_write hd tmp_at W R Htmp); [exact Hs|exact HU| |by auto]. intros y Hy _. apply HM. intros Hr. apply Hy. exists (buffer_at a), k.
    split; [apply lookup_insert_eq|done]. }
  destruct (hs_heap _ _ _ _ _ _ _ Hs1) as [F HF]. split; [split|].
  - cbn. unfold upd. cbn. apply lookup_insert_eq.
  - exists F. destruct HF. split; try done; [by eapply lists_head|]. by destruct hp_head0 as (_ & _ & ?).
  - right. split; [cbn; lia|]. exists k, q, (small_blocks a). split; [done|]. split; [set_solver|]. split; [done|]. split; [done|].
    by rewrite app_nil_r.
  - intros x n [[<- <-]|[_ Hx]]%lookup_insert_Some; [done|by apply (hs_reserved _ _ _ _ _ _ _ Hs)].
  - intros x n Hx HxR. apply (hs_room _ _ _ _ _ _ _ Hs x); [done|set_solver].
  - intros x n. split; [done|]. intros [(c & -> & Hc & Hn)|(c & Hc & _)]; [|by apply not_elem_of_nil in Hc]. exfalso.
    assert (HxU : (<[buffer_at a := k]> ∅ : gmap Z Z) !! buffer_at c = Some n) by (apply HU; left; exists c; set_solver).
    apply lookup_insert_Some in HxU as [[He _]|[_ ?]]; [|done]. apply Hc. assert (c = a) as -> by (offsets; lia). set_solver.
Qed.

(** besides [R0], the heap keeps a block for the pool of small blocks, or none *)
Definition pooled (R0 R1 : gmap Z Z) : Prop :=
  R1 = R0 \/ exists a k, R1 = <[a := k]> R0 /\ R0 !! a = None /\ k < RHINO_CONFIG_MM_TLF_BLK_SIZE + 16 * ptr_size.

Lemma wp_init_fixedmblk s h G Q : heap_state hd W R s h G [] -> holds R G [] ∅ -> fixedmblk h = 0 ->
  (forall s' h' G' R', pooled R R' -> only_setup s s' -> heap_state hd W R' s' h' G' [] -> holds R' G' [] ∅ ->
     (forall y, outside W y -> y <> Zpos tmp_at -> rd (umem s') y = rd (umem s) y) -> Q tt s') ->
  wp (init_fixedmblk tmp_at hd) Q s.
Proof.
  intros Hs HU Hfx HQ. pose proof cfg_mm_blk as Hblk. pose proof sizes as [HH Hp]. pose proof size_bits_pow.
  assert (Hal8 : MM_ALIGN_UP sizeof_mblk_pool <= 64) by (rewrite small_align; destruct ptr_cases as [-> | ->]; lia).
  assert (Hal0 : 0 < MM_ALIGN_UP sizeof_mblk_pool) by (rewrite small_align; lia).
  unfold init_fixedmblk. rewrite (wrap_small size_bits (RHINO_CONFIG_MM_TLF_BLK_SIZE + _)) by lia. apply wp_bind.
  eapply (wp_k_mm_alloc hd tmp_at W R Htmp s h G [] ∅); [done|done|lia|].
  intros r s2 Ho Hk2 (h2 & G2 & live2 & Hs2 & _ & _ & Hfx2 & Hr).
  assert (live2 = []) as -> by (destruct (hs_small _ _ _ _ _ _ _ Hs2) as [[_ ->]|[? _]]; [done|congruence]).
  destruct Hr as [(-> & HU2 & _)|(k & Hr0 & Hral & Hrn & Hrk & HU2)].
  { rewrite decide_False by auto. apply wp_ret. eapply HQ; [by left|by apply only_setup_heap|done|done|].
    intros y Hy Hne. apply Hk2; [by right|done]. }
  rewrite decide_True by lia. cbv zeta.
  assert ((<[r := k]> ∅ : gmap Z Z) !! r = Some k) as Hrk2 by apply lookup_insert_eq. apply HU2 in Hrk2 as Ha.
  destruct Ha as [(a & -> & HaR & Ha)|(b & Hb & _)]; [|by apply not_elem_of_nil in Hb].
  destruct (state_layout hd W R s2 h2 G2 [] Hs2) as [Hwin Hly]. apply lookup_used in Ha as Hb. destruct Hb as (b & Hb & Hbf & Hbk).
  destruct (layout_size _ _ _ _ _ Hwin Hly Hb) as (Ha0 & Hbmax & Hbend).
  assert (Hw1 : wrap size_bits (buffer_at a - MMLIST_HEAD_SIZE) = a) by (rewrite wrap_small; offsets; lia).
  assert (Hw2 : wrap size_bits (buffer_at a + MM_ALIGN_UP sizeof_mblk_pool) = small_start a) by (unfold small_start; rewrite wrap_small; offsets; lia).
  rewrite Hw1, Hw2. assert (Hst : Zpos (Z.to_pos (small_start a)) = small_start a) by (apply Z2Pos.id; unfold small_start; offsets; lia).
  assert (Hbits : 2 ^ 31 <= 2 ^ (size_bits - 1)) by (apply Z.pow_le_mono_r; [lia|]; destruct cfg_size_bits; lia).
  change DEF_FIX_BLK_SIZE with 32.
  assert (Hkeep : forall y, outside W y -> y <> Zpos tmp_at -> rd (umem s2) y = rd (umem s) y) by (intros y Hy Hne; apply Hk2; [by right|done]).
  assert (Hbad : forall stat, stat <> RHINO_SUCCESS -> wp ((if decide (stat = RHINO_SUCCESS) then mm_upd hd (fun h => h <| fixedmblk := a |>)
    else k_mm_free (Some hd) (buffer_at a));; removesize hd RHINO_CONFIG_MM_TLF_BLK_SIZE) Q s2).
  { intros stat Hstat. rewrite decide_False by done. apply wp_bind.
    eapply (wp_k_mm_free hd tmp_at W R s2 _ (free_of G2)); [by exists h2, G2, []|exact Hrk2|].
    rewrite delete_insert_id by done. intros s4 B4 Ho4 Hk4 (h4 & G4 & live4 & Hs4 & HU4 & _).
    pose proof (holds_none G4 live4 HU4) as ->. rewrite (state_put hd s4 h4) by apply (hs_at _ _ _ _ _ _ _ Hs4). apply wp_removesize.
    intros h5 Hst5. eapply (HQ _ h5 G4 R); [by left| |by eapply state_restat|done|].
    - eapply only_setup_trans; [by apply only_setup_heap|]. eapply only_setup_trans; [by apply only_setup_heap|].
      apply only_setup_heap, only_heap_put.
    - intros y Hy Hne. cbn. rewrite (Hk4 y) by (done || by right). by apply Hkeep. }
  apply wp_bind. eapply wp_pool_init; [lia|lia| |intros _; by apply Hbad|intros _ _; by apply Hbad|].
  { apply Z.div_lt_upper_bound; lia. }
  rewrite Hst. intros _ _ M q n s3 Hq _ _ _ Hout Hsome. rewrite decide_True by done. apply wp_bind.
  assert (Hh3 : mm_heads (kmm s3) !! hd = Some h2) by apply (hs_at _ _ _ _ _ _ _ Hs2).
  rewrite (state_put hd s3 h2 Hh3). apply wp_mm_upd, wp_removesize. intros h5 Hst5.
  assert (HM : forall y, ~ small_start a <= y < small_start a + RHINO_CONFIG_MM_TLF_BLK_SIZE -> rd (umem s3) y = rd (umem s2) y).
  { intros y Hy. destruct y as [|y|y]; try done. cbn. by apply Hout. }
  set (s4 := put hd s3 (umem s3) (h2 <| fixedmblk := a |>)).
  destruct (pool_state s2 h2 G2 a k q (umem s3) (mblk_pools s3) (g_kobj_list s3) Hs2 HU2 HaR Ha) as [Hs5 HU5]; [lia|..].
  - intros y Hy. apply HM. unfold small_start. lia.
  - intros y [v Hv]. unfold has. destruct y as [|y|y]; try done. apply Hsome. by exists v.
  - assert (Hq4 : pool_ok s4 (mm_pool_of (h2 <| fixedmblk := a |>)) q (small_blocks a)) by by apply (pool_ok_same s3).
    eapply pool_ok_same; [..|exact Hq4]; done.
  - eapply (HQ _ h5 G2 (<[a := k]> R)).
    + right. exists a, k. split; [done|]. split; [by apply not_elem_of_dom|]. rewrite small_align in Hrk. lia.
    + eapply only_setup_trans; [by apply only_setup_heap|]. exists (umem s3), h5, (mblk_pools s3), (g_kobj_list s3). by apply kstate_ext.
    + eapply state_same; [..|eapply (state_restat (<[a := k]> R) _ _ h5 _ _ Hs5 Hst5)]; [done..|].
      unfold put. cbn. unfold upd. cbn. by rewrite insert_insert_eq.
    + done.
    + intros y Hy Hne. cbn -[s3]. rewrite HM; [by apply Hkeep|]. intros Hry.
      destruct (ly_blk _ _ _ Hly a b Hb) as (_ & _ & _ & _ & w & Hw & Hlo & Hhi). apply (Hy w Hw). unfold small_start in Hry. offsets. lia.
Qed.
End small_pool.

(** ** The head and its first region *)

Section start.
Context (tmp_at : addr).

(** the bytes that [krhino_init_mm_head] uses, and what they leave to the region *)
Definition start_len (address len : Z) : Z :=
  MM_ALIGN_DOWN (wrap size_bits (len - wrap size_bits (MM_ALIGN_UP address - address))).
Definition start_at (address : Z) : Z := MM_ALIGN_UP address + sizeof_mm_head.
Definition start_room (address len : Z) : Z := start_len address len - sizeof_mm_head.

Lemma head_room : al sizeof_mm_head /\ 0 < sizeof_mm_head < 2 ^ 20.
Proof.
  pose proof cfg_mm_bits as Hb. pose proof size_bits_pow. unfold sizeof_mm_head, FLT_SIZE, SLT_SIZE, MIN_FLT_BIT, MAX_MM_BIT, MAX_LOG2_SLT.
  change (Z.shiftl 1 5) with 32. set (b := RHINO_CONFIG_MM_MAXMSIZEBIT) in *.
  destruct (align_up_eq (4 * (1 + (b - 7 + 1)))) as [Hr Hal]; [lia..|]. split.
  - repeat apply Z.divide_add_r; [apply Z.divide_factor_r|exact Hal|apply Z.divide_factor_r].
  - destruct ptr_cases as [Hp|Hp]; rewrite Hp in *; nia.
Qed.

Lemma align_down_al a : al (MM_ALIGN_DOWN a).
Proof.
  unfold MM_ALIGN_DOWN. destruct align_mask as (k & Hk & Hp & -> & _). unfold al. rewrite Hp. rewrite <- Z.ldiff_land, Z.ldiff_ones_r by lia.
  rewrite Z.shiftl_mul_pow2 by lia. apply Z.divide_factor_r.
Qed.

Lemma align_down_le a : 0 <= a -> 0 <= MM_ALIGN_DOWN a <= a /\ a < MM_ALIGN_DOWN a + ptr_size.
Proof.
  intros Ha. pose proof sizes as [_ Hp]. assert (Hp0 : 0 < ptr_size) by lia. rewrite align_down_eq by done.
  pose proof (Z.mod_pos_bound a ptr_size Hp0). pose proof (Z.mod_le a ptr_size Ha Hp0). lia.
Qed.

(** A length that is accepted did not wrap. *)
Lemma start_len_le address len : 0 < address -> address + 8 < 2 ^ size_bits -> 0 <= len < 2 ^ size_bits ->
  start_len address len <= MAX_MM_SIZE -> MM_ALIGN_UP address + start_len address len <= address + len.
Proof.
  intros Ha Hb Hl Hm. destruct (align_up_eq address) as [[Hu1 Hu2] _]; [lia..|]. pose proof sizes. pose proof ptr_cases. pose proof max_mm_bound.
  rewrite max_mm_size in Hm. pose proof size_bits_pow.
  unfold start_len in *. rewrite (wrap_small size_bits (MM_ALIGN_UP address - address)) in * by lia.
  set (x := len - (MM_ALIGN_UP address - address)) in *. destruct (decide (0 <= x)) as [Hx|Hx].
  - rewrite wrap_small in * by (unfold x in *; lia). destruct (align_down_le x Hx). unfold x in *. lia.
  - exfalso. assert (Hw : wrap size_bits x = x + 2 ^ size_bits).
    { unfold wrap. symmetry. apply (Z.mod_unique _ _ (-1)); unfold x in *; lia. }
    rewrite Hw in Hm. destruct (align_down_le (x + 2 ^ size_bits)); unfold x in *; lia.
Qed.

Lemma wp_krhino_init_mm_head s address len Q :
  let r0 := start_at address in let rl := start_room address len in
  0 < address -> address + len + 16 < 2 ^ size_bits -> 0 <= len -> hd = Z.to_pos (MM_ALIGN_UP address) ->
  (start_len address len < MIN_FREE_MEMORY_SIZE + RHINO_CONFIG_MM_TLF_BLK_SIZE \/ MAX_MM_SIZE < start_len address len ->
    Q RHINO_MM_POOL_SIZE_ERR s) ->
  (MIN_FREE_MEMORY_SIZE + RHINO_CONFIG_MM_TLF_BLK_SIZE <= start_len address len <= MAX_MM_SIZE ->
    MMREGION_USED_SIZE + 2 * ptr_size <= rl /\ outside (region_win r0 rl) (Zpos tmp_at) /\
    (forall y, al y -> r0 <= y < r0 + rl -> has (umem s) y) /\
    forall s' h' G' R', pooled (region_reserved r0 rl) R' -> only_setup (s <| kmm ::= fun m => m <| g_kmm_head := Some hd |> |>) s' ->
      heap_state hd (region_win r0 rl) R' s' h' G' [] -> holds R' G' [] ∅ ->
      (forall y, outside (region_win r0 rl) y -> y <> Zpos tmp_at -> rd (umem s') y = rd (umem s) y) -> Q RHINO_SUCCESS s') ->
  wp (krhino_init_mm_head tmp_at (Some set_kmm_head) address len) Q s.
Proof.
  intros r0 rl Ha Hend Hlen Hhd HQ1 HQ2. pose proof sizes as [HH Hp]. pose proof size_bits_pow. pose proof head_room as [Hhal Hhr].
  destruct (align_up_eq address) as [[Hu1 Hu2] Hual]; [lia..|]. pose proof ptr_cases as Hpc.
  unfold krhino_init_mm_head. rewrite decide_False by lia. cbv zeta. fold (start_len address len).
  assert (Hlal : al (start_len address len)) by apply align_down_al.
  assert (Hl0 : 0 <= start_len address len) by (apply align_down_le; apply Z.mod_pos_bound; lia).
  rewrite decide_False.
  2: { intros [Hm|Hm]; apply Hm; [|by rewrite align_down_id]. unfold MM_ALIGN_UP. by rewrite <- Z.land_assoc, (Z.land_comm (Z.lnot _)), Z.land_lnot_diag, Z.land_0_r. }
  destruct (decide (start_len address len = 0 \/ _)) as [Hbad|Hgood].
  { apply wp_ret, HQ1. unfold MIN_FREE_MEMORY_SIZE in *. pose proof cfg_mm_blk. lia. }
  destruct HQ2 as (Hroom & Htmp & Hm & HQ); [lia|]. clear HQ1.
  pose proof (start_len_le address len Ha ltac:(lia) ltac:(lia) ltac:(lia)) as Hfit.
  pose proof region_used as HU. rewrite HU in Hroom.
  assert (Hr0 : 0 < r0 /\ al r0) by (unfold r0, start_at; split; [lia|by apply Z.divide_add_r]).
  assert (Hrl : MMREGION_USED_SIZE + 2 * ptr_size <= rl <= MAX_MM_SIZE /\ al rl).
  { rewrite HU. unfold rl, start_room in *. split; [lia|by apply Z.divide_sub_r]. }
  assert (Hre : r0 + rl + 8 < 2 ^ size_bits) by (unfold r0, rl, start_at, start_room; lia).
  assert (Her : wrap size_bits (MM_ALIGN_UP address + MM_ALIGN_UP sizeof_mm_head) = r0).
  { rewrite (align_up_id sizeof_mm_head), wrap_small by (done || (unfold rl, start_room in *; lia)). done. }
  assert (Hel : MM_ALIGN_DOWN (wrap size_bits (start_len address len - sizeof_mm_head)) = rl).
  { rewrite wrap_small, align_down_id by (try apply Hrl; unfold rl, start_room in *; lia). done. }
  rewrite Her, Hel, <- Hhd. clear Her Hel Hhd Hlal Hl0 Hgood Hfit Hend.
  unfold clear_mm_head. apply wp_bind, wp_modify, wp_bind, wp_critical_enter.
  set (s1 := s <| irq_off := true |>). match goal with |- wp _ _ ?x => assert (x = put hd s1 (umem s) zero_mm_head) as -> by by apply kstate_ext end.
  apply wp_bind, (wp_init_mm_region r0 rl Hr0 Hrl Hre s1 (umem s)); [done|]. intros m1 Hw.
  apply wp_bind, wp_mm_upd. destruct (rw_first _ _ _ _ Hw) as [Hwf _]. apply wp_bind. eapply wp_rd; [exact Hwf|].
  rewrite (first_next r0 rl Hr0 Hrl Hre). apply wp_bind, wp_modify.
  set (s2 := s1 <| kmm ::= fun m => m <| g_kmm_head := Some hd |> |>). set (h1 := zero_mm_head <| regioninfo := buffer_at r0 |>).
  match goal with |- wp _ _ ?x => assert (x = put hd s2 m1 h1) as -> by by apply kstate_ext end.
  destruct (region_dyed r0 rl Hr0 Hrl (umem s) m1 Hm Hw) as (Hdc & Hw2 & Hd2).
  apply wp_bind, wp_hset; [exact Hdc|]. apply wp_bind.
  eapply (wp_free_region r0 rl Hr0 Hrl Hre s2 (umem s) h1); [done|exact Hw2| |exact Hd2|].
  { repeat split; try done. apply length_replicate. }
  intros m3 h3 G3 Hs3 Hk3 Hfx3 Hu3. destruct (hs_heap _ _ _ _ _ _ _ Hs3) as [F3 HF3]. destruct (region_dyed_al r0 rl Hr0 Hrl) as [Hcal Hcr].
  destruct (hp_mem HF3 (r0, r0 + rl) (size_at (first_free r0))) as [w Hw3]; [left|done|done|].
  apply wp_bind. eapply wp_rd; [exact Hw3|]. apply wp_bind, wp_mm_upd, wp_bind, wp_mm_upd. apply wp_bind.
  match goal with |- wp _ _ (put hd s2 m3 ?h) => set (h5 := h) end.
  assert (Hst : restat h3 h5) by by repeat split.
  pose proof (state_restat (region_win r0 rl) _ _ h3 h5 G3 [] Hs3 Hst) as Hs5. cbn [umem put] in Hs5.
  match type of Hs5 with HeapOk.heap_state _ _ _ ?x _ _ _ => assert (x = put hd s2 m3 h5) as Hx by (apply put_put) end. rewrite Hx in Hs5. clear Hx.
  eapply (wp_init_fixedmblk tmp_at _ _ Htmp _ h5 G3); [exact Hs5| |done|].
  { intros x n. split; [done|]. intros [(a & _ & HaR & Hn)|(b & Hb & _)]; [|by apply not_elem_of_nil in Hb].
    rewrite Hu3, (region_in_use r0 rl Hrl) in Hn. apply elem_of_dom_2 in Hn. exfalso. by apply HaR. }
  intros s' h' G' R' HR Hso Hs' HU' Hkeep. apply wp_bind, wp_modify, wp_ret. apply (HQ _ h' G' R'); [done|..].
  - destruct Hso as (m & h & p & l & ->). exists m, h, p, l. apply kstate_ext; try reflexivity. cbn. unfold upd. cbn. by rewrite !insert_insert_eq.
  - eapply state_same; [..|exact Hs']; done.
  - done.
  - intros y Hy Hne. cbn. rewrite Hkeep by done. cbn. apply Hk3, Hy.
Qed.
End start.
End heap_init.
End HeapInit.
