(* ===== verification/HeapSpec.v ===== *)
(** * What the heap promises

    The calls of the heap, each by itself and in any order together with what their callers
    do to the memory they hold: the heap behaves like a store that maps the address of a
    block to its contents. *)
From S2P Require Import Prelude Config Bitmap Kernel Sched Inv Demo Queue Mblk Heap HeapClass HeapList HeapInv HeapStep HeapAlloc HeapRealloc HeapOk HeapWhole HeapCalls HeapCopy HeapInit.
Import Bitmap Sched Queue Mblk Heap HeapClass HeapList HeapInv HeapStep HeapAlloc HeapRealloc HeapOk HeapWhole HeapCalls HeapCopy HeapInit.

Module HeapSpec.
Section heap_spec.
Context {cfg : RhinoConfig} (hd tmp_at : addr) (W : list (Z * Z)) (R : gmap Z Z).
Hypothesis Htmp : outside W (Zpos tmp_at).

Notation heap_state := (heap_state hd W R).
Notation heap_ok := (heap_ok hd W R).
Notation keeps := (keeps tmp_at W).
Notation holds := (holds R).
Notation only_heap := (only_heap hd).

(** ** Single calls *)

(** the bytes from [r] on are no caller's *)
Definition fresh (U : gmap Z Z) (r k : Z) : Prop := forall x n, U !! x = Some n -> r + k <= x \/ x + n <= r.

(** A request of [size] bytes gives a block of at least as many, on a pointer's boundary and
    apart from those in use; it fails when each free block is smaller than [size] rounded up. *)
Definition alloc_spec (s : kstate) (U B : gmap Z Z) (size r : Z) (s' : kstate) : Prop :=
  only_heap s s' /\ keeps U s s' /\
  if decide (r = 0) then heap_ok s' U B /\ (size <> 0 -> forall a n, B !! a = Some n -> n < round_size (asked size))
  else exists k B', 0 < r /\ al r /\ size <= k < size + 8 * ptr_size /\ fresh U r k /\ heap_ok s' (<[r := k]> U) B'.

Lemma holds_fresh s h G live U r k : heap_state s h G live -> holds G live (<[r := k]> U) -> U !! r = None -> fresh U r k.
Proof.
  intros Hs HU Hr x n Hx. assert (r <> x) by (intros ->; congruence).
  apply (holds_disjoint hd W R s h G live Hs (<[r := k]> U) r k x n HU); [apply lookup_insert_eq|by rewrite lookup_insert_ne|done].
Qed.

Lemma wp_alloc_spec s U B size : heap_ok s U B -> size = 0 \/ 2 <= size <= 2 ^ 31 ->
  wp (k_mm_alloc tmp_at (Some hd) size) (alloc_spec s U B size) s.
Proof.
  intros (h & G & live & Hs & HU & ->) [->|Hsize].
  { unfold k_mm_alloc. rewrite decide_True by done. apply wp_ret. split; [|split; [done|]].
    - rewrite (state_put hd s h) at 2 by apply (hs_at _ _ _ _ _ _ _ Hs). apply only_heap_put.
    - rewrite decide_True by done. split; [by exists h, G, live|done]. }
  eapply (wp_k_mm_alloc hd tmp_at W R Htmp s h G live U); [done..|].
  intros r s' Ho Hk (h' & G' & live' & Hs' & _ & _ & _ & Hr). split; [done|]. split; [done|].
  destruct Hr as [(-> & HU' & HB & Hno)|(k & Hr & Hal & Hn & Hk' & HU')].
  - rewrite decide_True by done. split; [exists h', G', live'; by rewrite HB|]. intros _ a n (b & Hb & Hf & <-)%free_of_lookup. by eapply Hno.
  - rewrite decide_False by lia. exists k, (free_of G'). do 3 (split; [done|]). split; [by eapply holds_fresh|]. by exists h', G', live'.
Qed.

(** Giving back: the block joins the free ones, and no other caller's word changes. *)
Definition free_spec (s : kstate) (U : gmap Z Z) (x : Z) (s' : kstate) : Prop :=
  only_heap s s' /\ keeps (delete x U) s s' /\ exists B', heap_ok s' (delete x U) B'.

Lemma wp_free_spec s U B x k : heap_ok s U B -> U !! x = Some k ->
  wp (k_mm_free (Some hd) x) (fun _ s' => free_spec s U x s') s.
Proof.
  intros Hok Hx. eapply (wp_k_mm_free hd tmp_at W R); [done..|]. intros s' B' Ho Hk Hok'. split; [done|]. split; [done|]. by exists B'.
Qed.

(** Change of size: the block moves or stays and takes along what fits; or the request fails
    and the block stays as it is. *)
Definition realloc_spec (s : kstate) (U : gmap Z Z) (x k size r : Z) (s' : kstate) : Prop :=
  if decide (size = 0) then r = 0 /\ free_spec s U x s'
  else only_heap s s' /\ realloc_done hd tmp_at W R U x k size r s s'.

Lemma wp_realloc_spec s U B x k size : heap_ok s U B -> U !! x = Some k -> size = 0 \/ 2 <= size <= 2 ^ 31 ->
  wp (k_mm_realloc tmp_at (Some hd) x size) (fun r s' => realloc_spec s U x k size r s') s.
Proof.
  intros Hok Hx Hsize. pose proof Hok as (h & G & live & Hs & HU & _). destruct (held_al hd W R s h G live U x k Hs HU Hx) as [_ Hx0].
  unfold realloc_spec. destruct Hsize as [->|Hsize].
  - unfold k_mm_realloc. rewrite decide_False by lia. rewrite decide_True by done. apply wp_bind.
    eapply wp_mono; [by eapply wp_free_spec|]. intros [] s' Hf. apply wp_ret. by rewrite decide_True.
  - eapply (wp_k_mm_realloc hd tmp_at W R Htmp); [done..|]. intros r s' Ho Hd. by rewrite decide_False by lia.
Qed.

(** ** The heap as a store *)

(** a block of the size that was asked for, and what was written to it, by offset *)
Notation store := (gmap Z (Z * gmap Z Z)).

(** what is left of the contents in a block of [size] bytes *)
Definition cut (size : Z) (c : gmap Z Z) : gmap Z Z := filter (fun iv => iv.1 + ptr_size <= size) c.

(** The callers ask for blocks, give them back and write to the ones they hold; anything else
    leaves the regions, the head of the heap and the pools alone. *)
Inductive heap_step : kstate * store -> kstate * store -> Prop :=
| step_alloc s s' V size r :
    2 <= size <= 2 ^ 31 -> k_mm_alloc tmp_at (Some hd) size s = Some (r, s') ->
    heap_step (s, V) (s', if decide (r = 0) then V else <[r := (size, ∅)]> V)
| step_free s s' V x :
    is_Some (V !! x) -> k_mm_free (Some hd) x s = Some (tt, s') -> heap_step (s, V) (s', delete x V)
| step_realloc s s' V x n c size r :
    V !! x = Some (n, c) -> 2 <= size <= 2 ^ 31 -> k_mm_realloc tmp_at (Some hd) x size s = Some (r, s') ->
    heap_step (s, V) (s', if decide (r = 0) then V else <[r := (size, cut size c)]> (delete x V))
| step_write s V x n c i v :
    V !! x = Some (n, c) -> al i -> 0 <= i -> i + ptr_size <= n ->
    heap_step (s, V) (s <| umem ::= fun m => wr m (x + i) v |>, <[x := (n, <[i := v]> c)]> V)
| step_other s s' V :
    mblk_pools s' = mblk_pools s -> kmm s' = kmm s -> (forall y, ~ outside W y -> rd (umem s') y = rd (umem s) y) ->
    heap_step (s, V) (s', V).

(** The contents of the block [x] of [n] bytes. *)
Definition keeps_contents (s : kstate) (x n : Z) (c : gmap Z Z) : Prop :=
  forall i v, c !! i = Some v -> al i /\ 0 <= i /\ i + ptr_size <= n /\ rd (umem s) (x + i) = Some v.

(** The heap of the state holds the store. *)
Definition backs (s : kstate) (V : store) : Prop :=
  exists U B, heap_ok s U B /\ (forall x, is_Some (V !! x) <-> is_Some (U !! x)) /\
    forall x n c, V !! x = Some (n, c) -> (forall k, U !! x = Some k -> n <= k) /\ keeps_contents s x n c.

Lemma contents_keep s s' U x n k c h G live : heap_state s h G live -> holds G live U -> U !! x = Some k -> n <= k ->
  keeps U s s' -> keeps_contents s x n c -> keeps_contents s' x n c.
Proof.
  intros Hs HU Hx Hn Hk Hc i v (Hal & H0 & H1 & Hv)%Hc. pose proof sizes as [_ Hp]. do 3 (split; [done|]).
  rewrite <- Hv. apply (held_keeps hd tmp_at W R Htmp s h G live U); try done. exists x, k. split; [done|lia].
Qed.

Lemma heap_ok_contents s s' U B x n k c : heap_ok s U B -> U !! x = Some k -> n <= k ->
  keeps U s s' -> keeps_contents s x n c -> keeps_contents s' x n c.
Proof. intros (h & G & live & Hs & HU & _). by apply contents_keep with h G live. Qed.

Lemma contents_other s s' U B x y n k c : heap_ok s U B -> x <> y -> U !! y = Some k -> n <= k ->
  keeps (delete x U) s s' -> keeps_contents s y n c -> keeps_contents s' y n c.
Proof.
  intros (h & G & live & Hs & HU & _) Hne Hy Hn Hk Hc i v (Hal & H0 & H1 & Hv)%Hc. do 3 (split; [done|]).
  pose proof sizes as [_ Hp]. rewrite <- Hv. apply Hk.
  - left. exists y, k. rewrite lookup_delete_ne by done. split; [done|lia].
  - intros He. assert (Hh : held U (y + i)) by (exists y, k; split; [done|lia]). rewrite He in Hh.
    by apply (held_inside hd W R s h G live U _ Hs HU Hh).
Qed.

Lemma backs_alloc s V size : backs s V -> 2 <= size <= 2 ^ 31 ->
  wp (k_mm_alloc tmp_at (Some hd) size) (fun r s' => backs s' (if decide (r = 0) then V else <[r := (size, ∅)]> V)) s.
Proof.
  intros (U & B & Hok & Hdom & Hc) Hsize. eapply wp_mono; [apply (wp_alloc_spec s U B size Hok); by right|].
  intros r s' (_ & Hk & Hr). assert (Hold : forall x n c k, V !! x = Some (n, c) -> U !! x = Some k -> keeps_contents s' x n c).
  { intros x n c k Hx Hxk. destruct (Hc x n c Hx) as [Hn Hcx]. by eapply heap_ok_contents; [| |by apply Hn| |]. }
  destruct (decide (r = 0)) as [->|Hr0].
  - destruct Hr as [Hok' _]. exists U, B. split; [done|]. split; [done|]. intros x n c Hx. split; [by apply (Hc x n c)|].
    destruct (proj1 (Hdom x)) as [k Hxk]; [by eexists|]. by eapply Hold.
  - destruct Hr as (k & B' & _ & _ & Hk' & _ & Hok'). exists (<[r := k]> U), B'. split; [done|]. split.
    + intros x. rewrite !lookup_insert_is_Some. pose proof (Hdom x). tauto.
    + intros x n c Hx. destruct (decide (x = r)) as [->|Hne].
      * rewrite lookup_insert_eq in Hx. injection Hx as <- <-. rewrite lookup_insert_eq. split; [intros k1 [= <-]; lia|].
        intros j v Hj. by rewrite lookup_empty in Hj.
      * rewrite lookup_insert_ne in Hx by done. rewrite (lookup_insert_ne U) by done. split; [by apply (Hc x n c)|].
        destruct (proj1 (Hdom x)) as [k1 Hxk]; [by eexists|]. by eapply Hold.
Qed.

Lemma backs_free s V x : backs s V -> is_Some (V !! x) ->
  wp (k_mm_free (Some hd) x) (fun _ s' => backs s' (delete x V)) s.
Proof.
  intros (U & B & Hok & Hdom & Hc) Hx. destruct (proj1 (Hdom x) Hx) as [k Hxk].
  eapply wp_mono; [by eapply wp_free_spec|]. intros [] s' (_ & Hk & B' & Hok'). exists (delete x U), B'. split; [done|]. split.
  - intros y. rewrite !lookup_delete_is_Some. pose proof (Hdom y). tauto.
  - intros y n c [Hne Hy]%lookup_delete_Some. rewrite lookup_delete_ne by done. destruct (Hc y n c Hy) as [Hn Hcy]. split; [done|].
    destruct (proj1 (Hdom y)) as [k1 Hyk]; [by eexists|]. apply (contents_other s s' U B x y n k1 c); auto.
Qed.

Lemma backs_other s s' V : mblk_pools s' = mblk_pools s -> kmm s' = kmm s ->
  (forall y, ~ outside W y -> rd (umem s') y = rd (umem s) y) -> backs s V -> backs s' V.
Proof.
  intros Hp Hk Hm (U & B & (h & G & live & Hs & HU & ->) & Hdom & Hc). exists U, (free_of G). split; [|split; [done|]].
  - exists h, G, live. split; [|done]. assert (Hs1 : heap_state (s <| umem := umem s' |>) h G live).
    { eapply (state_write hd tmp_at W R Htmp); [exact Hs|exact HU|intros y _; apply Hm|intros y Hy; unfold has; by rewrite Hm]. }
    by eapply state_same; [..|exact Hs1].
  - intros x n c Hx. destruct (Hc x n c Hx) as [Hn Hcx]. split; [done|]. intros i v (Hal & H0 & H1 & Hv)%Hcx. do 3 (split; [done|]).
    rewrite Hm; [done|]. destruct (proj1 (Hdom x)) as [k Hxk]; [by eexists|]. pose proof (Hn k Hxk). pose proof sizes.
    apply (held_inside hd W R s h G live U); try done. exists x, k. split; [done|lia].
Qed.

Lemma cut_lookup size c i v : cut size c !! i = Some v <-> c !! i = Some v /\ i + ptr_size <= size.
Proof. unfold cut. by rewrite map_lookup_filter_Some. Qed.

Lemma backs_realloc s V x n c size : backs s V -> V !! x = Some (n, c) -> 2 <= size <= 2 ^ 31 ->
  wp (k_mm_realloc tmp_at (Some hd) x size)
    (fun r s' => backs s' (if decide (r = 0) then V else <[r := (size, cut size c)]> (delete x V))) s.
Proof.
  intros (U & B & Hok & Hdom & Hc) HV Hsize. destruct (proj1 (Hdom x)) as [k Hxk]; [by eexists|]. pose proof sizes as [_ Hp].
  eapply wp_mono; [apply (wp_realloc_spec s U B x k size); [done..|by right]|]. intros r s' Hr.
  unfold realloc_spec in Hr. rewrite decide_False in Hr by lia.
  destruct Hr as (_ & [(-> & [B' Hok'] & Hk)|(k' & B' & H0 & _ & Hk' & Hrx & Hok' & Hk & Hcp)]).
  - rewrite decide_True by done. exists U, B'. split; [done|]. split; [done|]. intros y m d Hy. destruct (Hc y m d Hy) as [Hm Hd].
    split; [done|]. destruct (proj1 (Hdom y)) as [j Hyj]; [by eexists|]. apply (heap_ok_contents s s' U B y m j d); auto.
  - rewrite decide_False by lia. exists (<[r := k']> (delete x U)), B'. split; [done|]. split.
    + intros y. rewrite !lookup_insert_is_Some, !lookup_delete_is_Some. pose proof (Hdom y). tauto.
    + intros y m d Hy. destruct (decide (y = r)) as [->|Hne].
      * rewrite lookup_insert_eq in Hy. injection Hy as <- <-. rewrite lookup_insert_eq. split; [intros k1 [= <-]; lia|].
        intros i v [Hi Hic]%cut_lookup. destruct (Hc x n c HV) as [Hn Hcx]. destruct (Hcx i v Hi) as (Hal & Hi0 & Hi1 & Hv).
        pose proof (Hn k Hxk). do 3 (split; [done|]). rewrite Hcp by (done || lia). done.
      * rewrite lookup_insert_ne in Hy by done. apply lookup_delete_Some in Hy as [Hyx Hy]. rewrite (lookup_insert_ne (delete x U)), lookup_delete_ne by done.
        destruct (Hc y m d Hy) as [Hm Hd]. split; [done|]. destruct (proj1 (Hdom y)) as [j Hyj]; [by eexists|].
        apply (contents_other s s' U B x y m j d); auto.
Qed.

Lemma backs_write s V x n c i v : backs s V -> V !! x = Some (n, c) -> al i -> 0 <= i -> i + ptr_size <= n ->
  backs (s <| umem ::= fun m => wr m (x + i) v |>) (<[x := (n, <[i := v]> c)]> V).
Proof.
  intros (U & B & (h & G & live & Hs & HU & ->) & Hdom & Hc) HV Hal Hi0 Hi1. destruct (proj1 (Hdom x)) as [k Hxk]; [by eexists|].
  pose proof sizes as [_ Hp]. destruct (Hc x n c HV) as [Hn Hcx]. pose proof (Hn k Hxk) as Hnk.
  assert (Hh : held U (x + i)) by (exists x, k; split; [done|lia]). destruct (held_al hd W R s h G live U x k Hs HU Hxk) as [Hxal _].
  assert (Hhas : has (umem s) (x + i)) by (apply (held_has hd W R s h G live U); try done; by apply Z.divide_add_r).
  exists U, (free_of G). split; [|split].
  - exists h, G, live. split; [|done]. apply (state_write hd tmp_at W R Htmp s h G live U (wr (umem s) (x + i) v)); [done|done| |].
    + intros y Hy _. apply rd_wr_ne. by intros <-.
    + intros y _ Hy. by apply has_wr.
  - intros y. rewrite !lookup_insert_is_Some. rewrite <- (Hdom y). split; [intros [<-|[_ ?]]; [by eexists|done]|].
    destruct (decide (x = y)); auto.
  - intros y m d Hy. destruct (decide (y = x)) as [->|Hne].
    + rewrite lookup_insert_eq in Hy. injection Hy as <- <-. split; [done|]. intros j w Hj.
      destruct (decide (j = i)) as [->|Hji].
      * rewrite lookup_insert_eq in Hj. injection Hj as <-. do 3 (split; [done|]). cbn. by apply rd_wr.
      * rewrite lookup_insert_ne in Hj by done. destruct (Hcx j w Hj) as (H1 & H2 & H3 & H4). do 3 (split; [done|]).
        cbn. rewrite rd_wr_ne by lia. done.
    + rewrite lookup_insert_ne in Hy by done. destruct (Hc y m d Hy) as [Hm Hd]. split; [done|].
      destruct (proj1 (Hdom y)) as [k1 Hyk]; [by eexists|]. pose proof (Hm k1 Hyk).
      intros j w (H1 & H2 & H3 & H4)%Hd. do 3 (split; [done|]). cbn. rewrite rd_wr_ne; [done|].
      destruct (holds_disjoint hd W R s h G live Hs U x k y k1 HU Hxk Hyk); lia.
Qed.

Lemma backs_step s V s' V' : heap_step (s, V) (s', V') -> backs s V -> backs s' V'.
Proof.
  intros Hstep Hb. remember (s, V) as st eqn:E. remember (s', V') as st' eqn:E'.
  destruct Hstep as [s1 s2 V1 size r Hsz Hrun|s1 s2 V1 x Hx Hrun|s1 s2 V1 x n c size r Hx Hsz Hrun|s1 V1 x n c i v Hx Hal H0 H1|s1 s2 V1 Hp Hk Hm];
    injection E as -> ->; injection E' as <- <-.
  - by apply (wp_run _ _ _ _ _ (backs_alloc s V size Hb Hsz) Hrun).
  - by apply (wp_run _ _ _ _ _ (backs_free s V x Hb Hx) Hrun).
  - by apply (wp_run _ _ _ _ _ (backs_realloc s V x n c size Hb Hx Hsz) Hrun).
  - by apply backs_write.
  - by eapply backs_other.
Qed.

(** A block that is held lies in one region. *)
Lemma held_window s h G live U x k : heap_state s h G live -> holds G live U -> U !! x = Some k ->
  exists w, w ∈ W /\ w.1 <= x /\ x + k <= w.2.
Proof.
  intros Hs HU Hx. destruct (state_layout hd W R s h G live Hs) as [Hwin Hly]. pose proof sizes.
  apply HU in Hx as [(a & -> & _ & (b & Hb & _ & <-)%lookup_used)|(b & Hb & -> & ->)].
  - destruct (ly_blk _ _ _ Hly _ _ Hb) as (_ & _ & _ & _ & w & Hw & H1 & H2). exists w. split; [done|]. offsets. lia.
  - destruct (small_live hd W R s h G live Hs b Hb) as (_ & n & (c & Hc & _ & <-)%lookup_used & _ & H1 & H2).
    destruct (ly_blk _ _ _ Hly _ _ Hc) as (_ & _ & _ & _ & w & Hw & H3 & H4). exists w. split; [done|]. offsets. lia.
Qed.

(** The blocks of the store are where blocks can be, apart from each other, with the contents
    their holders gave them. *)
Definition store_ok (s : kstate) (V : store) : Prop :=
  (forall x n c, V !! x = Some (n, c) ->
     al x /\ 0 < x /\ (exists w, w ∈ W /\ w.1 <= x /\ x + n <= w.2) /\ keeps_contents s x n c) /\
  (forall x n c y m d, V !! x = Some (n, c) -> V !! y = Some (m, d) -> x <> y -> x + n <= y \/ y + m <= x).

Lemma backs_store s V : backs s V -> store_ok s V.
Proof.
  intros (U & B & (h & G & live & Hs & HU & _) & Hdom & Hc). split.
  - intros x n c Hx. destruct (Hc x n c Hx) as [Hn Hcx]. destruct (proj1 (Hdom x)) as [k Hxk]; [by eexists|]. pose proof (Hn k Hxk).
    destruct (held_al hd W R s h G live U x k Hs HU Hxk) as [Hal H0]. do 2 (split; [done|]). split; [|done].
    destruct (held_window s h G live U x k Hs HU Hxk) as (w & Hw & H1 & H2). exists w. split; [done|lia].
  - intros x n c y m d Hx Hy Hne. destruct (Hc x n c Hx) as [Hn _], (Hc y m d Hy) as [Hm _].
    destruct (proj1 (Hdom x)) as [k Hxk]; [by eexists|]. destruct (proj1 (Hdom y)) as [j Hyj]; [by eexists|].
    pose proof (Hn k Hxk). pose proof (Hm j Hyj). destruct (holds_disjoint hd W R s h G live Hs U x k y j HU Hxk Hyj Hne); lia.
Qed.

(** The calls return. *)
Definition calls_return (s : kstate) (V : store) : Prop :=
  (forall size, 2 <= size <= 2 ^ 31 -> exists r s', k_mm_alloc tmp_at (Some hd) size s = Some (r, s')) /\
  forall x, is_Some (V !! x) -> (exists s', k_mm_free (Some hd) x s = Some (tt, s')) /\
    forall size, 2 <= size <= 2 ^ 31 -> exists r s', k_mm_realloc tmp_at (Some hd) x size s = Some (r, s').

Lemma backs_return s V : backs s V -> calls_return s V.
Proof.
  assert (Hret : forall A (m : K A) Q, wp m Q s -> exists r s', m s = Some (r, s')).
  { intros A m Q Hm. unfold wp in Hm. destruct (m s) as [[r s']|]; [by exists r, s'|done]. }
  intros Hb. split; [intros size Hsize; by eapply Hret, backs_alloc|]. intros x Hx. split.
  - destruct (Hret _ _ _ (backs_free s V x Hb Hx)) as ([] & s' & Hrun). by exists s'.
  - intros size Hsize. destruct Hx as [[n c] Hx]. by eapply Hret, backs_realloc.
Qed.

Lemma backs_steps s V s' V' : rtc heap_step (s, V) (s', V') -> backs s V -> backs s' V'.
Proof.
  intros Hsteps. remember (s, V) as st eqn:E. remember (s', V') as st' eqn:E'. revert s V E.
  induction Hsteps as [st|st [s1 V1] st' Hst Hsteps IH]; intros s V ->; [by injection E' as -> ->|].
  intros Hb. apply (IH E' s1 V1 eq_refl). by eapply backs_step.
Qed.

Lemma backs_start s B : heap_ok s ∅ B -> backs s ∅.
Proof. intros Hok. exists ∅, B. split; [done|]. split; [by intros x; rewrite !lookup_empty|]. intros x n c Hx. by apply lookup_empty_Some in Hx. Qed.

(** C35: a request to the heap fails or gives a block of at least the size asked for and at most
    eight words more, aligned and apart from every block in use; a failure means that no free
    block is as large as the size rounded up to its class; no other caller's word changes, and
    nothing of the kernel but the heap. *)
Theorem k_mm_alloc_correct (s : kstate) (U B : gmap Z Z) (size : Z) (Hok : heap_ok s U B)
    (Hsize : size = 0 \/ 2 <= size <= 2 ^ 31) : wp (k_mm_alloc tmp_at (Some hd) size) (alloc_spec s U B size) s.
Proof. by apply wp_alloc_spec. Qed.

(** C36: a block whose size changes, in place or by moving, keeps its contents up to the smaller
    of the sizes; when there is no room it stays as it is; size 0 gives it back. *)
Theorem k_mm_realloc_correct (s : kstate) (U B : gmap Z Z) (x k size : Z) (Hok : heap_ok s U B) (Hx : U !! x = Some k)
    (Hsize : size = 0 \/ 2 <= size <= 2 ^ 31) :
  wp (k_mm_realloc tmp_at (Some hd) x size) (fun r s' => realloc_spec s U x k size r s') s.
Proof. by eapply wp_realloc_spec. Qed.

(** C6: whatever the callers of the heap do with it, in any order, it behaves like a store that
    maps the address of a block to its contents. *)
Theorem heap_refines_store (s0 s : kstate) (B0 : gmap Z Z) (V : store) (Hok : heap_ok s0 ∅ B0)
    (Hsteps : rtc heap_step (s0, ∅) (s, V)) : store_ok s V /\ calls_return s V.
Proof.
  assert (Hb : backs s V) by (eapply backs_steps; [exact Hsteps|by eapply backs_start]).
  split; [by apply backs_store|by apply backs_return].
Qed.

(** C7: the heap loses no memory and keeps it in one piece.  Whatever has been asked for,
    written, moved and given back, every byte of the regions is in a block of the heap itself,
    in a block in use or in a free one, and free blocks never touch; and once all blocks are
    back, the free blocks are those of the start. *)
Theorem heap_loses_nothing (s0 s : kstate) (B0 : gmap Z Z) (V : store) (Hok : heap_ok s0 ∅ B0)
    (Hsteps : rtc heap_step (s0, ∅) (s, V)) :
  (exists U B, heap_ok s U B /\ dom U = dom V /\ whole W R U B) /\ (V = ∅ -> heap_ok s ∅ B0).
Proof.
  assert (Hb : backs s V) by (eapply backs_steps; [exact Hsteps|by eapply backs_start]).
  destruct Hb as (U & B & Hok' & Hdom & _). split.
  - exists U, B. split; [done|]. split; [|by eapply heap_ok_whole]. apply set_eq. intros x. rewrite !elem_of_dom. by rewrite Hdom.
  - intros ->. assert (U = ∅) as ->.
    { apply map_empty. intros x. apply eq_None_not_Some. intros Hx%Hdom. by rewrite lookup_empty in Hx; destruct Hx. }
    by rewrite (heap_ok_determined hd W R s0 s ∅ B0 B).
Qed.

End heap_spec.

(** ** Setting up *)

Section start_spec.
Context {cfg : RhinoConfig} (tmp_at : addr).

(** What [krhino_init_mm_head] makes of [len] bytes at [address]: it refuses NULL and lengths
    out of its range, or there is a heap with the head at the aligned address and one region
    behind it, of which it keeps the first and the last block and the pool of small blocks;
    no word outside the region changes. *)
Definition start_spec (s : kstate) (address len : Z) (r : kstat_t) (s' : kstate) : Prop :=
  if decide (address = 0) then r = RHINO_NULL_PTR /\ s' = s
  else if decide (start_len address len < MIN_FREE_MEMORY_SIZE + RHINO_CONFIG_MM_TLF_BLK_SIZE \/ MAX_MM_SIZE < start_len address len)
  then r = RHINO_MM_POOL_SIZE_ERR /\ s' = s
  else let hd := Z.to_pos (MM_ALIGN_UP address) in let W := region_win (start_at address) (start_room address len) in
    r = RHINO_SUCCESS /\ only_setup hd (s <| kmm ::= fun m => m <| g_kmm_head := Some hd |> |>) s' /\
    (exists R B, pooled (region_reserved (start_at address) (start_room address len)) R /\ heap_ok hd W R s' ∅ B /\ whole W R ∅ B) /\
    forall y, outside W y -> y <> Zpos tmp_at -> rd (umem s') y = rd (umem s) y.

Lemma wp_start_spec s address len : 0 <= address -> 0 <= len -> address + len + 16 < 2 ^ size_bits ->
  (MIN_FREE_MEMORY_SIZE + RHINO_CONFIG_MM_TLF_BLK_SIZE <= start_len address len ->
     sizeof_mm_head + MMREGION_USED_SIZE + 2 * ptr_size <= start_len address len) ->
  outside (region_win (start_at address) (start_room address len)) (Zpos tmp_at) ->
  (forall y, al y -> start_at address <= y < start_at address + start_room address len -> has (umem s) y) ->
  wp (krhino_init_mm_head tmp_at (Some set_kmm_head) address len) (start_spec s address len) s.
Proof.
  intros Ha Hl Hend Hroom Htmp Hm. unfold start_spec. destruct (decide (address = 0)) as [->|Ha0].
  { unfold krhino_init_mm_head. rewrite decide_True by done. by apply wp_ret. }
  eapply wp_krhino_init_mm_head; [lia|done|done|done| |].
  - intros Hbad. by rewrite decide_True.
  - intros Hgood. split; [unfold start_room; lia|]. split; [done|]. split; [done|]. intros s' h' G' R' HR Ho Hs' HU' Hk.
    rewrite decide_False by lia. split; [done|]. split; [done|]. split; [|done]. exists R', (free_of G').
    assert (Hok : heap_ok (Z.to_pos (MM_ALIGN_UP address)) (region_win (start_at address) (start_room address len)) R' s' ∅ (free_of G'))
      by by exists h', G', [].
    split; [done|]. split; [done|]. by eapply heap_ok_whole.
Qed.

(** the heap after a length that is accepted *)
Lemma start_spec_run (m : K kstat_t) s address len : wp m (start_spec s address len) s -> address <> 0 ->
  MIN_FREE_MEMORY_SIZE + RHINO_CONFIG_MM_TLF_BLK_SIZE <= start_len address len <= MAX_MM_SIZE ->
  exists R B, heap_ok (Z.to_pos (MM_ALIGN_UP address)) (region_win (start_at address) (start_room address len)) R
    (default s (snd <$> m s)) ∅ B.
Proof.
  intros Hwp Ha Hl. unfold wp in Hwp. destruct (m s) as [[r s']|]; [|done]. unfold start_spec in Hwp.
  rewrite !decide_False in Hwp by lia. destruct Hwp as (_ & _ & (R & B & _ & Hok & _) & _). by exists R, B.
Qed.


End start_spec.

(** ** Witnesses *)

#[local] Existing Instance linuxhost.

(** 32 kB of raw memory at 4096 *)
Definition raw_mem (a n : Z) : gmap addr Z :=
  list_to_map ((fun i : nat => (Z.to_pos (a + Z.of_nat i * 4), 0)) <$> seq 0 (Z.to_nat n)).

Lemma raw_mem_has a n y : 0 < a -> (4 | a) -> (4 | y) -> a <= y < a + n * 4 -> has (raw_mem a n) y.
Proof.
  intros Ha [p Hp] [q Hq] Hy. unfold has, rd. destruct y as [|y|y]; [lia| |lia].
  apply not_eq_None_Some. intros Hnone%not_elem_of_list_to_map. apply Hnone. rewrite <- list_fmap_compose. apply list_elem_of_fmap.
  exists (Z.to_nat (q - p)). cbn. split; [lia|]. apply elem_of_seq. lia.
Qed.

Definition raw_state : kstate := demo <| umem := raw_mem 4096 8192 |>.
Definition raw_head : addr := 4096%positive.
Definition raw_start : K kstat_t := krhino_init_mm_head 50%positive (Some set_kmm_head) 4096 32768.

(** the state with the heap *)
Definition started : kstate := default raw_state (snd <$> raw_start raw_state).
Definition started_win : list (Z * Z) := region_win (start_at 4096) (start_room 4096 32768).

Lemma raw_outside : outside started_win (Zpos 50).
Proof. intros w ->%list_elem_of_singleton. vm_compute. by intros []. Qed.

Lemma raw_words y : al y -> start_at 4096 <= y < start_at 4096 + start_room 4096 32768 -> has (umem raw_state) y.
Proof.
  change (start_at 4096) with 6592. change (start_room 4096 32768) with 30272. intros Hal Hy.
  apply raw_mem_has; [lia|by exists 1024|exact Hal|lia].
Qed.

Lemma started_run : wp raw_start (start_spec 50%positive raw_state 4096 32768) raw_state.
Proof. apply wp_start_spec; [lia|lia|reflexivity|by vm_compute|apply raw_outside|apply raw_words]. Qed.

Lemma started_ok : exists R B, heap_ok raw_head started_win R started ∅ B.
Proof.
  destruct (start_spec_run 50%positive raw_start raw_state 4096 32768 started_run) as (R & B & Hok); [lia|by vm_compute|].
  exists R, B. exact Hok.
Qed.


Lemma k_mm_alloc_correct_witness : exists R B,
  wp (k_mm_alloc 50%positive (Some raw_head) 100) (alloc_spec raw_head 50%positive started_win R started ∅ B 100) started.
Proof.
  destruct started_ok as (R & B & Hok). exists R, B.
  apply (k_mm_alloc_correct raw_head 50%positive started_win R raw_outside started ∅ B 100 Hok). right. lia.
Defined.

(** a block of 100 bytes is out *)
Definition got : kstate := default raw_state (snd <$> k_mm_alloc 50%positive (Some raw_head) 100 started).

Lemma run_default {A} (m : K A) (s s0 : kstate) r : fst <$> m s = Some r -> m s = Some (r, default s0 (snd <$> m s)).
Proof. destruct (m s) as [[r' s']|]; [|done]. cbn. by intros [= ->]. Qed.

Lemma got_run : k_mm_alloc 50%positive (Some raw_head) 100 started = Some (14872, got).
Proof. apply run_default. by vm_compute. Qed.

Lemma got_ok : exists R B k, heap_ok raw_head started_win R got (<[14872 := k]> ∅) B.
Proof.
  destruct started_ok as (R & B & Hok). exists R.
  assert (Hsz : 100 = 0 \/ 2 <= 100 <= 2 ^ 31) by (right; lia).
  pose proof (wp_alloc_spec raw_head 50%positive started_win R raw_outside started ∅ B 100 Hok Hsz) as Hwp.
  destruct (wp_run _ _ _ _ _ Hwp got_run) as (_ & _ & Hr). rewrite decide_False in Hr by lia.
  destruct Hr as (k & B' & _ & _ & _ & _ & Hok'). by exists B', k.
Qed.

Lemma k_mm_realloc_correct_witness : exists R k,
  wp (k_mm_realloc 50%positive (Some raw_head) 14872 200)
    (fun r s' => realloc_spec raw_head 50%positive started_win R got (<[14872 := k]> ∅) 14872 k 200 r s') got.
Proof.
  destruct got_ok as (R & B & k & Hok). exists R, k.
  apply (k_mm_realloc_correct raw_head 50%positive started_win R raw_outside got (<[14872 := k]> ∅) B 14872 k 200 Hok); [apply lookup_insert_eq|].
  right. lia.
Defined.

(** The block is taken, its word at offset 8 written. *)
Definition written : kstate := got <| umem ::= fun m => wr m (14872 + 8) 7 |>.

Lemma written_steps : rtc (heap_step raw_head 50%positive started_win) (started, ∅) (written, <[14872 := (100, <[8 := 7]> ∅)]> (<[14872 := (100, ∅)]> ∅)).
Proof.
  eapply rtc_l; [eapply (step_alloc raw_head 50%positive started_win started got ∅ 100 14872); [lia|exact got_run]|].
  rewrite decide_False by lia. apply rtc_once.
  apply (step_write raw_head 50%positive started_win got _ 14872 100 ∅ 8 7); [apply lookup_insert_eq|by exists 2|lia|by vm_compute].
Qed.

Lemma heap_refines_store_witness :
  let V := <[14872 := (100, <[8 := 7]> ∅)]> (<[14872 := (100, ∅)]> ∅) in
  store_ok started_win written V /\ calls_return raw_head 50%positive written V.
Proof.
  intros V. destruct started_ok as (R & B & Hok).
  apply (heap_refines_store raw_head 50%positive started_win R raw_outside started written B V Hok written_steps).
Defined.

(** The block goes back. *)
Definition given : kstate := default raw_state (snd <$> k_mm_free (Some raw_head) 14872 written).

Lemma given_steps : rtc (heap_step raw_head 50%positive started_win) (started, ∅) (given, ∅).
Proof.
  eapply rtc_r; [apply written_steps|].
  match goal with |- heap_step _ _ _ (_, ?V) _ => assert (delete 14872 V = ∅) as <- by (rewrite !delete_insert_eq; apply delete_empty) end.
  apply step_free; [eexists; apply lookup_insert_eq|]. apply run_default. by vm_compute.
Qed.

Lemma heap_loses_nothing_witness : exists R B0,
  (exists U B, heap_ok raw_head started_win R given U B /\ dom U = dom (∅ : gmap Z (Z * gmap Z Z)) /\ whole started_win R U B) /\
  ((∅ : gmap Z (Z * gmap Z Z)) = ∅ -> heap_ok raw_head started_win R given ∅ B0).
Proof.
  destruct started_ok as (R & B0 & Hok). exists R, B0.
  apply (heap_loses_nothing raw_head 50%positive started_win R raw_outside started given B0 ∅ Hok given_steps).
Defined.

End HeapSpec.
