(* ===== verification/Timer.v ===== *)
(** * Software timers ([k_timer.c])

    The calls only send commands through a queue of fixed-size records; the timer task
    receives them, keeps the list of armed timers and runs the callbacks.  The task is a
    state machine: [timer_pc] is where its body stands, each step runs to the next receive
    or loop test. *)
From S2P Require Import Prelude Config Kernel Sched TickList Pend Inv Prio Sem Task Queue BufQueue Tick Time.
From S2P Require Ringbuf Demo.
Import Sched TickList Pend Task Queue BufQueue Tick Time.

Module Timer.

Inductive timer_cmd : Set :=
| TIMER_CMD_CB | TIMER_CMD_START | TIMER_CMD_STOP | TIMER_CMD_CHG | TIMER_ARG_CHG
| TIMER_ARG_CHG_AUTO | TIMER_CMD_DEL | TIMER_CMD_DYN_DEL.
#[export] Instance timer_cmd_eq_dec : EqDecision timer_cmd.
Proof. solve_decision. Defined.

Definition cmd_code (c : timer_cmd) : Z :=
  match c with
  | TIMER_CMD_CB => 0 | TIMER_CMD_START => 1 | TIMER_CMD_STOP => 2 | TIMER_CMD_CHG => 3
  | TIMER_ARG_CHG => 4 | TIMER_ARG_CHG_AUTO => 5 | TIMER_CMD_DEL => 6 | TIMER_CMD_DYN_DEL => 7
  end.

(** The command record; [cb_u] is the union of [round] and [arg]. *)
Record k_timer_queue_cb := mk_timer_cb {
  cb_timer : Z;
  cb_first : Z;
  cb_u : Z;
  cb_num : Z;
}.

Section timer.
Context {cfg : RhinoConfig}.

Definition get_timer (t : addr) : K ktimer_t :=
  k ← gets (fun s => timers (ktimers s) !! t); deref k.
Definition upd_timer (t : addr) (f : ktimer_t -> ktimer_t) : K unit :=
  k ← get_timer t; modify (fun s => s <| ktimers ::= fun y => y <| timers ::= <[t := f k]> |> |>).

(** insertion before the first timer that is later; a dangling node is undefined *)
Definition timer_list_pri_insert (timer : addr) : K unit := fun s =>
  k ← timers (ktimers s) !! timer;
  l ← insert_before (fun q => kq ← timers (ktimers s) !! q;
        Some (bool_decide (tremain k < wrap tick_bits (tmatch kq - g_timer_count (ktimers s)))))
      timer (g_timer_head (ktimers s));
  Some (tt, s <| ktimers ::= fun y => y <| g_timer_head := l |> |>).

Definition timer_list_rm (timer : addr) : K unit :=
  k ← get_timer timer;
  if to_head k then
    modify (fun s => s <| ktimers ::= fun y => y <| g_timer_head ::= list_rm timer |> |>);;
    upd_timer timer (fun k => k <| to_head := false |>)
  else mret tt.

(** ** The record on the wire: pointers, [sys_time_t]s and a byte, padded to words *)

Definition int_bytes (n : nat) (v : Z) : list Z :=
  (fun i => Ringbuf.Ringbuf.byte_of v (Z.of_nat i)) <$> seq 0 n.

Definition tick_bytes : nat := Z.to_nat (tick_bits / 8).
Definition ptr_len : nat := Z.to_nat ptr_size.

(** [sizeof(k_timer_queue_cb)]: the byte is padded to a word; pointers are no wider than
    ticks, so the union has the size of a [sys_time_t] *)
Definition cb_size : nat := (ptr_len + tick_bytes + tick_bytes + ptr_len)%nat.

Definition cb_bytes (c : k_timer_queue_cb) : list Z :=
  int_bytes ptr_len (cb_timer c) ++ int_bytes tick_bytes (cb_first c) ++
  int_bytes tick_bytes (cb_u c) ++ int_bytes 1 (cb_num c) ++ replicate (ptr_len - 1) 0.

Definition cb_of_bytes (l : list Z) : k_timer_queue_cb :=
  mk_timer_cb (ptr_of_bytes (take ptr_len l))
    (ptr_of_bytes (take tick_bytes (drop ptr_len l)))
    (ptr_of_bytes (take tick_bytes (drop (ptr_len + tick_bytes) l)))
    (ptr_of_bytes (take 1 (drop (ptr_len + tick_bytes + tick_bytes) l))).

(** ** The calls *)

(** [krhino_buf_queue_send(&g_timer_queue, &cb, sizeof(k_timer_queue_cb))]; the members a
    command does not use are uninitialised in the code, and 0 here. *)
Definition timer_queue_send (notify : oid -> sid -> K unit) (timer : addr) (first u : Z) (cmd : timer_cmd)
  : K kstat_t :=
  q ← gets (fun s => g_timer_queue (ktimers s));
  buf_queue_send notify q (cb_bytes (mk_timer_cb (Zpos timer) first u (cmd_code cmd)))
    (Z.of_nat cb_size) false.

Definition krhino_timer_start notify (timer : option addr) : K kstat_t :=
  match timer with None => mret RHINO_NULL_PTR | Some t => timer_queue_send notify t 0 0 TIMER_CMD_START end.
Definition krhino_timer_stop notify (timer : option addr) : K kstat_t :=
  match timer with None => mret RHINO_NULL_PTR | Some t => timer_queue_send notify t 0 0 TIMER_CMD_STOP end.
Definition krhino_timer_del notify (timer : option addr) : K kstat_t :=
  match timer with None => mret RHINO_NULL_PTR | Some t => timer_queue_send notify t 0 0 TIMER_CMD_DEL end.
Definition krhino_timer_dyn_del notify (timer : option addr) : K kstat_t :=
  match timer with None => mret RHINO_NULL_PTR | Some t => timer_queue_send notify t 0 0 TIMER_CMD_DYN_DEL end.

Definition krhino_timer_change notify (timer : option addr) (first round : Z) : K kstat_t :=
  match timer with
  | None => mret RHINO_NULL_PTR
  | Some t =>
      if decide (2 ^ tick_bits - 1 <= first) then mret RHINO_INV_PARAM else
      if decide (2 ^ tick_bits - 1 <= round) then mret RHINO_INV_PARAM else
      timer_queue_send notify t first round TIMER_CMD_CHG
  end.

Definition krhino_timer_arg_change notify (timer : option addr) (arg : Z) : K kstat_t :=
  match timer with None => mret RHINO_NULL_PTR | Some t => timer_queue_send notify t 0 arg TIMER_ARG_CHG end.
Definition krhino_timer_arg_change_auto notify (timer : option addr) (arg : Z) : K kstat_t :=
  match timer with None => mret RHINO_NULL_PTR | Some t => timer_queue_send notify t 0 arg TIMER_ARG_CHG_AUTO end.

Definition timer_create notify (timer name cb : option addr) (first round arg auto_run mm_alloc_flag : Z)
  : K kstat_t :=
  match timer, name, cb with
  | Some t, Some _, Some f =>
      if decide (first = 0) then mret RHINO_INV_PARAM else
      if decide (MAX_TIMER_TICKS <= first) then mret RHINO_INV_PARAM else
      if decide (MAX_TIMER_TICKS <= round) then mret RHINO_INV_PARAM else
      cpsr ← RHINO_CRITICAL_ENTER;
      INTRPT_NESTED_LEVEL_CHK cpsr id (
      RHINO_CRITICAL_EXIT cpsr;;
      modify (fun s => s <| ktimers ::= fun y => y <| timers ::= fun m =>
        <[t := mk_ktimer false f arg 0 0 first round (m !! t ≫= priv) RHINO_TIMER_OBJ_TYPE
                 TIMER_DEACTIVE mm_alloc_flag]> m |> |>);;
      (if decide (0 < auto_run) then _ ← krhino_timer_start notify (Some t); mret tt else mret tt);;
      mret RHINO_SUCCESS)
  | _, _, _ => mret RHINO_NULL_PTR
  end.

Definition krhino_timer_create notify (timer name cb : option addr) (first round arg auto_run : Z) : K kstat_t :=
  timer_create notify timer name cb first round arg auto_run K_OBJ_STATIC_ALLOC.

(** [alloc] is the block [krhino_mm_alloc] returned, [out] is where the pointer goes. *)
Definition krhino_timer_dyn_create notify (out name cb : option addr) (first round arg auto_run : Z)
    (alloc : option addr) : K kstat_t :=
  match out with
  | None => mret RHINO_NULL_PTR
  | Some p =>
      if decide (MAX_TIMER_TICKS <= first) then mret RHINO_INV_PARAM else
      if decide (MAX_TIMER_TICKS <= round) then mret RHINO_INV_PARAM else
      match alloc with
      | None => mret RHINO_NO_MEM
      | Some timer_obj =>
          ret ← timer_create notify (Some timer_obj) name cb first round arg auto_run K_OBJ_DYN_ALLOC;
          if decide (ret <> RHINO_SUCCESS) then krhino_mm_free timer_obj;; mret ret
          else store p (Zpos timer_obj);; mret ret
      end
  end.

(** ** The timer task *)

(** [iter->next] in the list; [None] is the head, or a node that is not linked *)
Fixpoint succ_of (t : addr) (l : list addr) : option addr :=
  match l with
  | [] => None
  | x :: l' => if decide (x = t) then head l' else succ_of t l'
  end.

(** [call f timer arg] runs the callback [f]. *)
Section callbacks.
Context (call : addr -> addr -> Z -> K unit).

(** One pass over the due timers.  A one-shot timer's node keeps its link after its removal;
    a periodic one is linked anew, and the pass goes on behind its new place. *)
Fixpoint timer_cb_scan (fuel : nat) (q : option addr) : K unit :=
  match fuel with
  | O => fault
  | S fuel =>
      match q with
      | None => mret tt
      | Some timer =>
          k ← get_timer timer;
          now ← gets (fun s => g_timer_count (ktimers s));
          if decide (swrap tick_bits (tmatch k - now) <= 0) then
            call (timer_cb k) timer (timer_cb_arg k);;
            l ← gets (fun s => g_timer_head (ktimers s));
            timer_list_rm timer;;
            k ← get_timer timer;
            if decide (0 < round_ticks k) then
              now ← gets (fun s => g_timer_count (ktimers s));
              upd_timer timer (fun k => k <| tremain := round_ticks k |>
                <| tmatch := wrap tick_bits (now + round_ticks k) |> <| to_head := true |>);;
              timer_list_pri_insert timer;;
              l ← gets (fun s => g_timer_head (ktimers s));
              timer_cb_scan fuel (succ_of timer l)
            else
              upd_timer timer (fun k => k <| timer_state := TIMER_DEACTIVE |>);;
              timer_cb_scan fuel (succ_of timer l)
          else mret tt
      end
  end.

(** each turn but the last removes or defers one timer of the list *)
Definition timer_cb_proc : K unit :=
  l ← gets (fun s => g_timer_head (ktimers s));
  timer_cb_scan (S (length l)) (head l).

Definition cmd_proc (cb : k_timer_queue_cb) (cmd : Z) : K unit :=
  match cb_timer cb with
  | Zpos timer =>
      let is_timer k := bool_decide (timer_obj_type k = RHINO_TIMER_OBJ_TYPE) in
      let deactive k := bool_decide (timer_state k = TIMER_DEACTIVE) in
      if decide (cmd = cmd_code TIMER_CMD_START) then
        k ← get_timer timer;
        when (is_timer k && deactive k)
          (now ← gets (fun s => g_timer_count (ktimers s));
           upd_timer timer (fun k => k <| tmatch := wrap tick_bits (now + init_count k) |>
             <| tremain := init_count k |> <| to_head := true |>);;
           timer_list_pri_insert timer;;
           upd_timer timer (fun k => k <| timer_state := TIMER_ACTIVE |>))
      else if decide (cmd = cmd_code TIMER_CMD_STOP) then
        k ← get_timer timer;
        when (is_timer k && negb (deactive k))
          (timer_list_rm timer;;
           upd_timer timer (fun k => k <| timer_state := TIMER_DEACTIVE |>))
      else if decide (cmd = cmd_code TIMER_CMD_CHG) then
        if decide (cb_first cb = 0) then mret tt else
        k ← get_timer timer;
        when (is_timer k && deactive k)
          (upd_timer timer (fun k => k <| init_count := cb_first cb |> <| round_ticks := cb_u cb |>))
      else if decide (cmd = cmd_code TIMER_ARG_CHG) then
        k ← get_timer timer;
        when (is_timer k && deactive k)
          (upd_timer timer (fun k => k <| timer_cb_arg := wrap size_bits (cb_u cb) |>))
      else if decide (cmd = cmd_code TIMER_CMD_DEL) then
        k ← get_timer timer;
        when (is_timer k && deactive k && bool_decide (timer_mm_alloc_flag k = K_OBJ_STATIC_ALLOC))
          (upd_timer timer (fun k => k <| timer_obj_type := RHINO_OBJ_TYPE_NONE |>))
      else if decide (cmd = cmd_code TIMER_CMD_DYN_DEL) then
        k ← get_timer timer;
        when (is_timer k && deactive k && bool_decide (timer_mm_alloc_flag k = K_OBJ_DYN_ALLOC))
          (upd_timer timer (fun k => k <| timer_obj_type := RHINO_OBJ_TYPE_NONE |>);;
           krhino_mm_free timer)
      else k_err_proc RHINO_SYS_FATAL_ERR
  | _ => fault
  end.

Definition timer_cmd_proc (cb : k_timer_queue_cb) : K unit :=
  if decide (cb_num cb = cmd_code TIMER_ARG_CHG_AUTO) then
    cmd_proc cb (cmd_code TIMER_CMD_STOP);;
    cmd_proc cb (cmd_code TIMER_ARG_CHG);;
    cmd_proc cb (cmd_code TIMER_CMD_START)
  else cmd_proc cb (cb_num cb).

(** Where [timer_task] stands: at the first receive, behind it with its status, at the test
    of the inner loop, or behind the receive with a timeout; [blocked] while it waits. *)
Inductive timer_pc :=
| TT_OUTER
| TT_OUTER_BLOCKED
| TT_OUTER_GOT (err : kstat_t)
| TT_INNER
| TT_INNER_BLOCKED
| TT_INNER_GOT (err : kstat_t).

Definition set_timer_count (t : Z) : K unit :=
  modify (fun s => s <| ktimers ::= fun y => y <| g_timer_count := t |> |>).

(** the command in the task's local [cb_msg] *)
Definition received (cb_msg : addr) : K k_timer_queue_cb :=
  m ← gets (fun s => ubufs s !! cb_msg); m ← deref m; mret (cb_of_bytes m).

(** One step of [timer_task]; a blocked task steps when it runs again. *)
Definition timer_task_step (cb_msg msg_size : addr) (pc : timer_pc) : K timer_pc :=
  match pc with
  | TT_OUTER =>
      q ← gets (fun s => g_timer_queue (ktimers s));
      r ← krhino_buf_queue_recv (Some q) RHINO_CONFIG_NEXT_INTRPT_TICKS (Some cb_msg) (Some msg_size);
      mret (match r with Ret err => TT_OUTER_GOT err | Pending => TT_OUTER_BLOCKED end)
  | TT_OUTER_BLOCKED => err ← buf_queue_recv_resume msg_size; mret (TT_OUTER_GOT err)
  | TT_OUTER_GOT err =>
      tick_end ← krhino_sys_tick_get;
      if decide (err = RHINO_BLK_TIMEOUT) then set_timer_count tick_end;; mret TT_OUTER else
      (if decide (err = RHINO_SUCCESS) then set_timer_count tick_end
       else k_err_proc RHINO_SYS_FATAL_ERR);;
      cb ← received cb_msg;
      timer_cmd_proc cb;;
      mret TT_INNER
  | TT_INNER =>
      l ← gets (fun s => g_timer_head (ktimers s));
      match l with
      | [] => mret TT_OUTER
      | timer :: _ =>
          k ← get_timer timer;
          tick_start ← krhino_sys_tick_get;
          let delta := swrap tick_bits (tmatch k - tick_start) in
          if decide (0 < delta) then
            q ← gets (fun s => g_timer_queue (ktimers s));
            r ← krhino_buf_queue_recv (Some q) delta (Some cb_msg) (Some msg_size);
            mret (match r with Ret err => TT_INNER_GOT err | Pending => TT_INNER_BLOCKED end)
          else
            set_timer_count tick_start;;
            timer_cb_proc;;
            mret TT_INNER
      end
  | TT_INNER_BLOCKED => err ← buf_queue_recv_resume msg_size; mret (TT_INNER_GOT err)
  | TT_INNER_GOT err =>
      tick_end ← krhino_sys_tick_get;
      (if decide (err = RHINO_BLK_TIMEOUT) then set_timer_count tick_end
       else if decide (err = RHINO_SUCCESS) then
         set_timer_count tick_end;;
         cb ← received cb_msg;
         timer_cmd_proc cb
       else k_err_proc RHINO_SYS_FATAL_ERR);;
      timer_cb_proc;;
      mret TT_INNER
  end.
End callbacks.

(** the globals [ktimer_init] passes on: the task, its stack and entry, and the queue's
    memory and names *)
Record timer_globals := mk_timer_globals {
  g_timer_task : tid;
  g_timer_task_stack : addr;
  timer_task_entry : addr;
  timer_queue_cb : addr;
  timer_name : addr;
  RHINO_CONFIG_TIMER_MSG_NUM : Z;
  RHINO_CONFIG_TIMER_TASK_PRI : Z;
  RHINO_CONFIG_TIMER_TASK_STACK_SIZE : Z;
}.

Definition ktimer_init {port : Port} (g : timer_globals) : K unit :=
  modify (fun s => s <| ktimers ::= fun y => y <| g_timer_head := [] |> |>);;
  q ← gets (fun s => g_timer_queue (ktimers s));
  _ ← krhino_fix_buf_queue_create (Some q) (Some (timer_name g)) (Some (timer_queue_cb g))
        (Z.of_nat cb_size) (RHINO_CONFIG_TIMER_MSG_NUM g);
  _ ← krhino_task_create (Some (g_timer_task g)) (Some (timer_name g)) 0 (RHINO_CONFIG_TIMER_TASK_PRI g) 0
        (Some (g_timer_task_stack g)) (RHINO_CONFIG_TIMER_TASK_STACK_SIZE g)
        (Some (timer_task_entry g)) 1;
  mret tt.

(** ** The record survives the wire *)

Lemma length_int_bytes n v : length (int_bytes n v) = n.
Proof. unfold int_bytes. by rewrite length_fmap, length_seq. Qed.

Lemma int_roundtrip n v : 0 <= v < 2 ^ (8 * Z.of_nat n) -> ptr_of_bytes (int_bytes n v) = v.
Proof. apply le_bytes_roundtrip. Qed.

(** one field of a record *)
Lemma take_field n v (l : list Z) : take n (int_bytes n v ++ l) = int_bytes n v.
Proof. rewrite take_app_le by by rewrite length_int_bytes. by apply take_ge; rewrite length_int_bytes. Qed.

Lemma drop_field n v (l : list Z) : drop n (int_bytes n v ++ l) = l.
Proof. rewrite drop_app_ge by by rewrite length_int_bytes. by rewrite length_int_bytes, Nat.sub_diag, drop_0. Qed.

Lemma tick_bytes_bits : 8 * Z.of_nat tick_bytes = tick_bits.
Proof. unfold tick_bytes. destruct cfg_tick_bits as [-> | ->]; reflexivity. Qed.

(** the values the fields of a record can have *)
Definition cb_ok (c : k_timer_queue_cb) : Prop :=
  0 <= cb_timer c < 2 ^ size_bits /\ 0 <= cb_first c < 2 ^ tick_bits /\
  0 <= cb_u c < 2 ^ tick_bits /\ 0 <= cb_num c < 256.

(** A command record that goes through the queue as bytes comes out as it went in: what
    the timer task reads is what the caller sent, in exactly the size the queue was created
    with. *)
Theorem cb_bytes_roundtrip (c : k_timer_queue_cb) (Hc : cb_ok c) :
  cb_of_bytes (cb_bytes c) = c /\ length (cb_bytes c) = cb_size.
Proof.
  destruct c as [t f u n], Hc as (Ht & Hf & Hu & Hn). cbn in Ht, Hf, Hu, Hn.
  pose proof ptr_size_pos as [Hp Hb]. pose proof tick_bytes_bits as Htb. split.
  - unfold cb_of_bytes, cb_bytes. cbn [cb_timer cb_first cb_u cb_num].
    rewrite <- !drop_drop, !drop_field, !take_field, !int_roundtrip; try done.
    + by rewrite Htb.
    + by rewrite Htb.
    + unfold ptr_len. by rewrite Hb.
  - unfold cb_bytes, cb_size. rewrite !length_app, !length_int_bytes, length_replicate. unfold ptr_len. lia.
Qed.

(** ** The armed timers *)

(** ticks left until a timer runs *)
Definition left_of (y : timer_sys) (t : addr) : Z :=
  match timers y !! t with Some k => wrap tick_bits (tmatch k - g_timer_count y) | None => 0 end.

(** The list holds the active timers, each once, the next to run first. *)
Record timers_ok (y : timer_sys) : Prop := {
  tm_nodup : NoDup (g_timer_head y);
  tm_mem : forall t, t ∈ g_timer_head y <-> exists k, timers y !! t = Some k /\ to_head k = true;
  tm_state : forall t k, timers y !! t = Some k -> to_head k = true <-> timer_state k = TIMER_ACTIVE;
  tm_count : forall t k, timers y !! t = Some k -> 0 <= init_count k < 2 ^ tick_bits /\ 0 <= round_ticks k < 2 ^ tick_bits;
  tm_sorted : StronglySorted (fun a b => left_of y a <= left_of y b) (g_timer_head y);
}.

(** what a command does to a timer at the time [now] *)
Definition cmd_effect (now : Z) (cb : k_timer_queue_cb) (cmd : timer_cmd) (k : ktimer_t) : ktimer_t :=
  if decide (timer_obj_type k <> RHINO_TIMER_OBJ_TYPE) then k else
  match cmd, timer_state k with
  | TIMER_CMD_START, TIMER_DEACTIVE =>
      k <| tmatch := wrap tick_bits (now + init_count k) |> <| tremain := init_count k |>
        <| to_head := true |> <| timer_state := TIMER_ACTIVE |>
  | TIMER_CMD_STOP, TIMER_ACTIVE => k <| to_head := false |> <| timer_state := TIMER_DEACTIVE |>
  | TIMER_CMD_CHG, TIMER_DEACTIVE =>
      if decide (cb_first cb = 0) then k else k <| init_count := cb_first cb |> <| round_ticks := cb_u cb |>
  | TIMER_ARG_CHG, TIMER_DEACTIVE => k <| timer_cb_arg := wrap size_bits (cb_u cb) |>
  | TIMER_CMD_DEL, TIMER_DEACTIVE =>
      if decide (timer_mm_alloc_flag k = K_OBJ_STATIC_ALLOC) then k <| timer_obj_type := RHINO_OBJ_TYPE_NONE |> else k
  | TIMER_CMD_DYN_DEL, TIMER_DEACTIVE =>
      if decide (timer_mm_alloc_flag k = K_OBJ_DYN_ALLOC) then k <| timer_obj_type := RHINO_OBJ_TYPE_NONE |> else k
  | _, _ => k
  end.

(** the state with other timers, armed ones and freed blocks *)
Definition retimed (s : kstate) (l : list addr) (T : gmap addr ktimer_t) (f : list addr) : kstate :=
  s <| ktimers := (ktimers s) <| g_timer_head := l |> <| timers := T |> |> <| heap_free := f |>.

Lemma retimed_id s : retimed s (g_timer_head (ktimers s)) (timers (ktimers s)) (heap_free s) = s.
Proof. unfold retimed. destruct s as [? ? ? ? ? ? ? ? ? ? ? ? ? ? ? ? ? ? ? ? ? ? ? y]. by destruct y. Qed.

Lemma wp_get_timer t k (Q : ktimer_t -> kstate -> Prop) s :
  timers (ktimers s) !! t = Some k -> Q k s -> wp (get_timer t) Q s.
Proof. intros Ht HQ. apply wp_bind, wp_gets. eapply wp_deref; [done|]. done. Qed.

Lemma wp_upd_timer t f k (Q : unit -> kstate -> Prop) s :
  timers (ktimers s) !! t = Some k ->
  Q tt (retimed s (g_timer_head (ktimers s)) (<[t := f k]> (timers (ktimers s))) (heap_free s)) ->
  wp (upd_timer t f) Q s.
Proof.
  intros Ht HQ. apply wp_bind. eapply wp_get_timer; [done|]. apply wp_modify.
  match goal with |- Q tt ?x => match type of HQ with Q tt ?y => assert (x = y) as -> end end; [|done].
  unfold retimed. destruct s as [? ? ? ? ? ? ? ? ? ? ? ? ? ? ? ? ? ? ? ? ? ? ? y]. by destruct y.
Qed.

Lemma left_of_other y l t k' x :
  x <> t -> left_of (y <| g_timer_head := l |> <| timers := <[t := k']> (timers y) |>) x = left_of y x.
Proof. intros Hne. unfold left_of. cbn. by rewrite lookup_insert_ne. Qed.

(** a change of one timer that the list does not see *)
Lemma timers_ok_same y t k k' :
  timers_ok y -> timers y !! t = Some k -> to_head k' = to_head k -> timer_state k' = timer_state k ->
  tmatch k' = tmatch k -> 0 <= init_count k' < 2 ^ tick_bits -> 0 <= round_ticks k' < 2 ^ tick_bits ->
  timers_ok (y <| g_timer_head := g_timer_head y |> <| timers := <[t := k']> (timers y) |>).
Proof.
  intros [Hnd Hm Hst Hc Hs] Ht Hh Hs' Hmt Hi Hr.
  assert (Hleft : forall x, left_of (y <| g_timer_head := g_timer_head y |> <| timers := <[t := k']> (timers y) |>) x = left_of y x).
  { intros x. destruct (decide (x = t)) as [->|]; [|by apply left_of_other].
    unfold left_of. cbn. by rewrite lookup_insert_eq, Ht, Hmt. }
  split; cbn; try done.
  - intros x. rewrite Hm. destruct (decide (x = t)) as [->|].
    + rewrite lookup_insert_eq, Ht. split; intros (? & [= <-] & ?); eexists; (split; [done|]); congruence.
    + by rewrite lookup_insert_ne.
  - intros x kx Hx. apply lookup_insert_Some in Hx as [[<- <-]|[_ Hx]]; [|by apply (Hst x)].
    rewrite Hh, Hs'. by apply (Hst t).
  - intros x kx Hx. apply lookup_insert_Some in Hx as [[<- <-]|[_ Hx]]; [done|by apply (Hc x)].
  - eapply StronglySorted_ext; [|exact Hs]. intros a b _ _. by rewrite !Hleft.
Qed.

Lemma timers_ok_start y t k k' :
  timers_ok y -> timers y !! t = Some k -> timer_state k = TIMER_DEACTIVE ->
  k' = k <| tmatch := wrap tick_bits (g_timer_count y + init_count k) |> <| tremain := init_count k |>
         <| to_head := true |> <| timer_state := TIMER_ACTIVE |> ->
  timers_ok (y <| g_timer_head := insert_by (fun q => bool_decide (init_count k < left_of y q)) t (g_timer_head y) |>
               <| timers := <[t := k']> (timers y) |>).
Proof.
  intros [Hnd Hm Hst Hc Hs] Ht Hd Hk'. destruct (Hc t k Ht) as [Hi Hr].
  assert (Hnt : t ∉ g_timer_head y).
  { rewrite Hm. intros (k0 & Hk0 & Hh). assert (k0 = k) as -> by congruence. apply (Hst t k Ht) in Hh. congruence. }
  set (y' := y <| g_timer_head := _ |> <| timers := _ |>).
  assert (Hleft : forall x, x <> t -> left_of y' x = left_of y x) by (intros x Hx; by apply left_of_other).
  assert (Hlt : left_of y' t = init_count k).
  { unfold left_of, y'. cbn. rewrite lookup_insert_eq, Hk'. cbn -[wrap]. unfold wrap.
    rewrite Zminus_mod_idemp_l. replace (g_timer_count y + init_count k - g_timer_count y) with (init_count k) by lia.
    by apply Z.mod_small. }
  split.
  - by apply NoDup_insert_by.
  - intros x. cbn. rewrite elem_of_insert_by. destruct (decide (x = t)) as [->|].
    + rewrite lookup_insert_eq. split; [|by left]. intros _. exists k'. by rewrite Hk'.
    + rewrite lookup_insert_ne by done. rewrite <- Hm. naive_solver.
  - intros x kx Hx. cbn in Hx. apply lookup_insert_Some in Hx as [[<- <-]|[_ Hx]]; [by rewrite Hk'|by apply (Hst x)].
  - intros x kx Hx. cbn in Hx. apply lookup_insert_Some in Hx as [[<- <-]|[_ Hx]]; [by rewrite Hk'|by apply (Hc x)].
  - apply insert_by_sorted.
    + intros q Hq. rewrite Hlt, Hleft; [done|]. intros ->. done.
    + eapply StronglySorted_ext; [|exact Hs]. intros a b Ha Hb. rewrite !Hleft; [done|intros ->; done..].
Qed.

Lemma timers_ok_stop y t k k' :
  timers_ok y -> timers y !! t = Some k -> k' = k <| to_head := false |> <| timer_state := TIMER_DEACTIVE |> ->
  timers_ok (y <| g_timer_head := list_rm t (g_timer_head y) |> <| timers := <[t := k']> (timers y) |>).
Proof.
  intros [Hnd Hm Hst Hc Hs] Ht Hk'. split; cbn.
  - by apply NoDup_list_rm.
  - intros x. rewrite elem_of_list_rm, Hm. destruct (decide (x = t)) as [->|].
    + rewrite lookup_insert_eq. split; [by intros [_ ?]|]. intros (? & [= <-] & Hh). by rewrite Hk' in Hh.
    + rewrite lookup_insert_ne by done. naive_solver.
  - intros x kx Hx. apply lookup_insert_Some in Hx as [[<- <-]|[_ Hx]]; [by rewrite Hk'|by apply (Hst x)].
  - intros x kx Hx. apply lookup_insert_Some in Hx as [[<- <-]|[_ Hx]]; [rewrite Hk'; by apply (Hc t k)|by apply (Hc x)].
  - apply StronglySorted_list_rm. eapply StronglySorted_ext; [|exact Hs]. intros a b _ _.
    assert (Hl : forall x, left_of (y <| g_timer_head := list_rm t (g_timer_head y) |> <| timers := <[t := k']> (timers y) |>) x = left_of y x).
    { intros x. destruct (decide (x = t)) as [->|]; [|by apply left_of_other].
      unfold left_of. cbn. by rewrite lookup_insert_eq, Ht, Hk'. }
    by rewrite !Hl.
Qed.

Lemma wp_timer_insert t k (Q : unit -> kstate -> Prop) s :
  timers (ktimers s) !! t = Some k ->
  (forall q, q ∈ g_timer_head (ktimers s) -> is_Some (timers (ktimers s) !! q)) ->
  Q tt (retimed s (insert_by (fun q => bool_decide (tremain k < left_of (ktimers s) q)) t (g_timer_head (ktimers s)))
          (timers (ktimers s)) (heap_free s)) ->
  wp (timer_list_pri_insert t) Q s.
Proof.
  intros Ht Hl HQ. unfold wp, timer_list_pri_insert. rewrite Ht. cbn [mbind option_bind].
  rewrite (insert_before_pure _ (fun q => bool_decide (tremain k < left_of (ktimers s) q))).
  - cbn [mbind option_bind]. match type of HQ with Q tt ?y => match goal with |- Q tt ?x => assert (x = y) as -> end end; [|done].
    unfold retimed. destruct s as [? ? ? ? ? ? ? ? ? ? ? ? ? ? ? ? ? ? ? ? ? ? ? y]. by destruct y.
  - intros q Hq. destruct (Hl q Hq) as [kq Hkq]. unfold left_of. by rewrite Hkq.
Qed.

Lemma retimed_retimed s l T f l' T' f' : retimed (retimed s l T f) l' T' f' = retimed s l' T' f'.
Proof. unfold retimed. destruct s as [? ? ? ? ? ? ? ? ? ? ? ? ? ? ? ? ? ? ? ? ? ? ? y]. by destruct y. Qed.

(** what one command leaves *)
Definition commanded (s : kstate) (t : addr) (k' : ktimer_t) (s' : kstate) : Prop :=
  exists l f, s' = retimed s l (<[t := k']> (timers (ktimers s))) f /\ timers_ok (ktimers s').

Lemma commanded_same s t k k' :
  timers_ok (ktimers s) -> timers (ktimers s) !! t = Some k -> k' = k -> commanded s t k' s.
Proof.
  intros Hok Ht ->. exists (g_timer_head (ktimers s)), (heap_free s).
  by rewrite insert_id, retimed_id.
Qed.

(** a command that changes fields the list does not look at *)
Lemma wp_upd_commanded s t k f :
  timers_ok (ktimers s) -> timers (ktimers s) !! t = Some k -> to_head (f k) = to_head k ->
  timer_state (f k) = timer_state k -> tmatch (f k) = tmatch k ->
  0 <= init_count (f k) < 2 ^ tick_bits -> 0 <= round_ticks (f k) < 2 ^ tick_bits ->
  wp (upd_timer t f) (fun _ s' => commanded s t (f k) s') s.
Proof.
  intros Hok Ht ? ? ? ? ?. eapply wp_upd_timer; [done|].
  eexists _, _. split; [done|]. by eapply timers_ok_same.
Qed.

Lemma wp_start_commanded s t k :
  timers_ok (ktimers s) -> timers (ktimers s) !! t = Some k -> timer_state k = TIMER_DEACTIVE ->
  wp (now ← gets (fun s => g_timer_count (ktimers s));
      upd_timer t (fun k => k <| tmatch := wrap tick_bits (now + init_count k) |>
        <| tremain := init_count k |> <| to_head := true |>);;
      timer_list_pri_insert t;;
      upd_timer t (fun k => k <| timer_state := TIMER_ACTIVE |>))
    (fun _ s' => commanded s t (k <| tmatch := wrap tick_bits (g_timer_count (ktimers s) + init_count k) |>
       <| tremain := init_count k |> <| to_head := true |> <| timer_state := TIMER_ACTIVE |>) s') s.
Proof.
  intros Hok Ht Hd. pose proof Hok as [Hnd Hm Hst Hc Hs]. apply wp_bind, wp_gets, wp_bind.
  assert (Hnt : t ∉ g_timer_head (ktimers s)).
  { rewrite Hm. intros (k0 & Hk0 & Hh). assert (k0 = k) as -> by congruence. apply (Hst t k Ht) in Hh. congruence. }
  eapply wp_upd_timer; [done|]. apply wp_bind. eapply wp_timer_insert.
  { cbn. by rewrite lookup_insert_eq. }
  { cbn. intros q Hq. apply Hm in Hq as (kq & Hkq & _). apply lookup_insert_is_Some. destruct (decide (t = q)); eauto. }
  rewrite retimed_retimed. eapply wp_upd_timer; [cbn; by rewrite lookup_insert_eq|].
  rewrite retimed_retimed. cbn -[wrap]. rewrite insert_insert_eq.
  eexists _, _. split; [done|]. cbn -[wrap].
  erewrite insert_by_ext; [by eapply timers_ok_start|].
  intros q Hq. cbn -[wrap]. unfold left_of. cbn -[wrap].
  rewrite lookup_insert_ne; [done|]. by intros ->.
Qed.

Lemma wp_stop_commanded s t k :
  timers_ok (ktimers s) -> timers (ktimers s) !! t = Some k -> timer_state k = TIMER_ACTIVE ->
  wp (timer_list_rm t;; upd_timer t (fun k => k <| timer_state := TIMER_DEACTIVE |>))
    (fun _ s' => commanded s t (k <| to_head := false |> <| timer_state := TIMER_DEACTIVE |>) s') s.
Proof.
  intros Hok Ht Ha. apply wp_bind. unfold timer_list_rm. apply wp_bind.
  eapply wp_get_timer; [done|]. rewrite (proj2 (tm_state _ Hok t k Ht) Ha). apply wp_bind, wp_modify.
  eapply wp_upd_timer; [exact Ht|]. eapply wp_upd_timer; [cbn; by rewrite lookup_insert_eq|].
  rewrite retimed_retimed. cbn. rewrite insert_insert_eq.
  eexists (list_rm t (g_timer_head (ktimers s))), (heap_free s).
  match goal with |- ?x = ?y /\ _ => assert (x = y) as -> end; [|split; [done|by eapply timers_ok_stop]].
  unfold retimed. destruct s as [? ? ? ? ? ? ? ? ? ? ? ? ? ? ? ? ? ? ? ? ? ? ? y]. by destruct y.
Qed.

(** One command, for a timer in a record the calls can send. *)
Lemma wp_cmd_proc s t k cb cmd :
  timers_ok (ktimers s) -> timers (ktimers s) !! t = Some k -> cb_timer cb = Zpos t -> cb_ok cb ->
  cmd <> TIMER_CMD_CB -> cmd <> TIMER_ARG_CHG_AUTO ->
  wp (cmd_proc cb (cmd_code cmd))
    (fun _ s' => commanded s t (cmd_effect (g_timer_count (ktimers s)) cb cmd k) s') s.
Proof.
  intros Hok Ht Hcb (_ & Hf & Hu & _) Hn1 Hn2. unfold cmd_proc. rewrite Hcb.
  destruct (tm_count _ Hok t k Ht) as [Hi Hr].
  destruct cmd; try done; cbn [cmd_code]; cbv zeta;
    repeat (rewrite decide_False by discriminate); rewrite decide_True by reflexivity.
  all: try (case_decide as Hz; [apply wp_ret; eapply commanded_same; try done; unfold cmd_effect;
    rewrite ?(decide_True _ _ Hz); by repeat case_match|]).
  all: apply wp_bind; (eapply wp_get_timer; [done|]); unfold when, cmd_effect.
  all: destruct (decide (timer_obj_type k = RHINO_TIMER_OBJ_TYPE)) as [Hty|Hty];
    [rewrite (decide_False (P := timer_obj_type k <> _)) by auto; rewrite bool_decide_true by done
    |rewrite decide_True by done; rewrite bool_decide_false by done; apply wp_ret; by eapply commanded_same].
  all: destruct (timer_state k) eqn:Hs; cbn [andb negb]; try (apply wp_ret; by eapply commanded_same).
  - by apply wp_start_commanded.
  - by apply wp_stop_commanded.
  - rewrite decide_False by done. by apply (wp_upd_commanded s t k).
  - by apply (wp_upd_commanded s t k).
  - destruct (decide (timer_mm_alloc_flag k = K_OBJ_STATIC_ALLOC)) as [Ha|Ha];
      [rewrite !bool_decide_true by done|rewrite (bool_decide_false (_ = K_OBJ_STATIC_ALLOC)) by done; apply wp_ret; by eapply commanded_same].
    by apply (wp_upd_commanded s t k).
  - destruct (decide (timer_mm_alloc_flag k = K_OBJ_DYN_ALLOC)) as [Ha|Ha];
      [rewrite !bool_decide_true by done|rewrite (bool_decide_false (_ = K_OBJ_DYN_ALLOC)) by done; apply wp_ret; by eapply commanded_same].
    apply wp_bind.
    eapply wp_mono; [by apply (wp_upd_commanded s t k)|].
    intros _ s' (l & f & -> & Hok'). apply wp_modify. by exists l, (t :: f).
Qed.

Lemma commanded_trans s t k1 s1 k2 s2 :
  commanded s t k1 s1 -> commanded s1 t k2 s2 -> commanded s t k2 s2.
Proof.
  intros (l1 & f1 & -> & _) (l2 & f2 & -> & Hok). exists l2, f2. split; [|done].
  rewrite retimed_retimed. cbn. by rewrite insert_insert_eq.
Qed.

Lemma commanded_in s t k1 s1 :
  commanded s t k1 s1 -> timers_ok (ktimers s1) /\ timers (ktimers s1) !! t = Some k1 /\
    g_timer_count (ktimers s1) = g_timer_count (ktimers s).
Proof. intros (l & f & -> & Hok). split; [done|]. cbn. by rewrite lookup_insert_eq. Qed.

(** the commands a record stands for: the automatic change of the argument is three *)
Definition cmds_of (cmd : timer_cmd) : list timer_cmd :=
  match cmd with
  | TIMER_ARG_CHG_AUTO => [TIMER_CMD_STOP; TIMER_ARG_CHG; TIMER_CMD_START]
  | _ => [cmd]
  end.

(** C40: every command the calls can send keeps the timers well-formed, the list holding
    exactly the active timers, each once, the one with the fewest ticks left first; it changes
    the one timer it names, the way its state allows, and no other. *)
Theorem timer_cmd_proc_correct s t k cb cmd
    (Hok : timers_ok (ktimers s)) (Ht : timers (ktimers s) !! t = Some k)
    (Hcb : cb_ok cb) (Htm : cb_timer cb = Zpos t) (Hcmd : cb_num cb = cmd_code cmd)
    (Hcall : cmd <> TIMER_CMD_CB) :
  wp (timer_cmd_proc cb)
    (fun _ s' => timers_ok (ktimers s') /\
       exists l f, s' = retimed s l (<[t := foldl (fun k c => cmd_effect (g_timer_count (ktimers s)) cb c k)
                                            k (cmds_of cmd)]> (timers (ktimers s))) f) s.
Proof.
  apply wp_mono with (fun _ s' => commanded s t (foldl (fun k c => cmd_effect (g_timer_count (ktimers s)) cb c k)
                                            k (cmds_of cmd)) s').
  2: { intros _ s' (l & f & -> & H). split; [done|]. by exists l, f. }
  unfold timer_cmd_proc. rewrite Hcmd. destruct (decide (cmd = TIMER_ARG_CHG_AUTO)) as [->|Hauto].
  - rewrite decide_True by done. apply wp_bind.
    eapply wp_mono; [by apply (wp_cmd_proc s t k cb TIMER_CMD_STOP)|]. intros ? s1 H1.
    destruct (commanded_in _ _ _ _ H1) as (Hok1 & Ht1 & Hn1). apply wp_bind.
    eapply wp_mono; [by eapply (wp_cmd_proc s1 t _ cb TIMER_ARG_CHG)|]. intros ? s2 H2.
    destruct (commanded_in _ _ _ _ H2) as (Hok2 & Ht2 & Hn2).
    eapply wp_mono; [by eapply (wp_cmd_proc s2 t _ cb TIMER_CMD_START)|]. intros ? s3 H3.
    pose proof (commanded_trans _ _ _ _ _ _ H1 (commanded_trans _ _ _ _ _ _ H2 H3)) as H.
    cbn [cmds_of foldl]. by rewrite Hn2, Hn1 in H.
  - rewrite decide_False by (by destruct cmd). destruct cmd; try done; by apply wp_cmd_proc.
Qed.

End timer.

#[local] Existing Instance linuxhost.


(** timer 70 runs at tick 107, 71 is stopped; it is tick 100 *)
Definition two_timers : timer_sys :=
  let k (on : bool) (m first : Z) := mk_ktimer on 9%positive 1 m first first 5 None RHINO_TIMER_OBJ_TYPE
             (if on then TIMER_ACTIVE else TIMER_DEACTIVE) K_OBJ_STATIC_ALLOC in
  mk_timer_sys [70%positive] 100 27%positive
    (<[70%positive := k true 107 7]> (<[71%positive := k false 50 3]> ∅)).

Lemma two_timers_lookup t k : timers two_timers !! t = Some k ->
  t = 70%positive /\ k = mk_ktimer true 9%positive 1 107 7 7 5 None RHINO_TIMER_OBJ_TYPE TIMER_ACTIVE K_OBJ_STATIC_ALLOC \/
  t = 71%positive /\ k = mk_ktimer false 9%positive 1 50 3 3 5 None RHINO_TIMER_OBJ_TYPE TIMER_DEACTIVE K_OBJ_STATIC_ALLOC.
Proof.
  cbn. rewrite !lookup_insert_Some, lookup_empty. intros [[<- <-]|[_ [[<- <-]|[_ [=]]]]]; auto.
Qed.

Lemma two_timers_ok : timers_ok two_timers.
Proof.
  split.
  - by apply NoDup_singleton.
  - intros t. cbn [g_timer_head two_timers]. rewrite list_elem_of_singleton. split.
    + intros ->. by eexists.
    + intros (k & [[-> ->]|[-> ->]]%two_timers_lookup & Hh); done.
  - by intros t k [[-> ->]|[-> ->]]%two_timers_lookup.
  - by intros t k [[-> ->]|[-> ->]]%two_timers_lookup.
  - repeat constructor.
Qed.

Lemma timer_cmd_proc_correct_witness :
  wp (timer_cmd_proc (mk_timer_cb 71 0 0 (cmd_code TIMER_CMD_START)))
    (fun _ s' => timers_ok (ktimers s') /\
       exists l f, s' = retimed (Demo.demo <| ktimers := two_timers |>) l
         (<[71%positive := mk_ktimer true 9%positive 1 103 3 3 5 None RHINO_TIMER_OBJ_TYPE TIMER_ACTIVE K_OBJ_STATIC_ALLOC]>
            (timers two_timers)) f)
    (Demo.demo <| ktimers := two_timers |>).
Proof.
  refine (timer_cmd_proc_correct (Demo.demo <| ktimers := two_timers |>) 71%positive
    (mk_ktimer false 9%positive 1 50 3 3 5 None RHINO_TIMER_OBJ_TYPE TIMER_DEACTIVE K_OBJ_STATIC_ALLOC)
    (mk_timer_cb 71 0 0 (cmd_code TIMER_CMD_START)) TIMER_CMD_START two_timers_ok _ _ _ _ _); try done.
Defined.

(** The list's order is by an unsigned difference, so an overdue timer counts as far away:
    at tick 110 timer 70 has been due since 107, yet the start of 71 puts 71 in front, and
    the pass over the due timers stops there and calls nothing. *)
Lemma overdue_timer_overtaken :
  fst <$> (timer_cmd_proc (mk_timer_cb 71 0 0 (cmd_code TIMER_CMD_START));;
           timer_cb_proc (fun _ _ _ => fault);;
           gets (fun s => g_timer_head (ktimers s)))
    (Demo.demo <| ktimers := two_timers <| g_timer_count := 110 |> |>) = Some [71; 70]%positive.
Proof. vm_compute. reflexivity. Qed.

End Timer.
