(* ===== verification/Workqueue.v ===== *)
(** * Work queues ([k_workqueue.c])

    A work queue is a task that runs the works of its list, one per unit of its semaphore.
    Delayed works come from a timer's callback. *)
From S2P Require Import Prelude Config Kernel Sched TickList Pend Inv Prio Sem Task Queue BufQueue Tick Time Timer.
From S2P Require Demo.
Import Sched TickList Pend Sem Task Timer.

Module Workqueue.
Section workqueue.
Context {cfg : RhinoConfig} {port : Port}.
Context (notify : oid -> sid -> K unit).

Definition get_wq (w : addr) : K kworkqueue_t := q ← gets (fun s => workqueues (kworks s) !! w); deref q.
Definition upd_wq (w : addr) (f : kworkqueue_t -> kworkqueue_t) : K unit :=
  q ← get_wq w; modify (fun s => s <| kworks ::= fun y => y <| workqueues ::= <[w := f q]> |> |>).
Definition get_work (w : addr) : K kwork_t := q ← gets (fun s => works (kworks s) !! w); deref q.
Definition upd_work (w : addr) (f : kwork_t -> kwork_t) : K unit :=
  q ← get_work w; modify (fun s => s <| kworks ::= fun y => y <| works ::= <[w := f q]> |> |>).

(** [klist_rm_init(&work->work_node)]: the node is linked in one list at most *)
Definition work_unlink (w : addr) : K unit :=
  modify (fun s => s <| kworks ::= fun y => y
    <| workqueues ::= fmap (fun q => q <| work_list ::= list_rm w |>) |> |>).

Definition work_link (q w : addr) : K unit :=
  work_unlink w;;
  upd_wq q (fun q => q <| work_list ::= fun l => l ++ [w] |>).

Definition workqueue_is_exist (workqueue : addr) : K kstat_t :=
  cpsr ← RHINO_CRITICAL_ENTER;
  l ← gets (fun s => g_workqueue_list_head (kworks s));
  if decide (workqueue ∈ l) then exit_ret cpsr RHINO_WORKQUEUE_EXIST
  else exit_ret cpsr RHINO_WORKQUEUE_NOT_EXIST.

(** Where [worker_task] stands: before its receive, blocked in it, behind it with the
    status, or in the handler of a work. *)
Inductive worker_pc :=
| WK_TAKE
| WK_BLOCKED
| WK_GOT (ret : kstat_t)
| WK_RUN (work : addr).

(** [call h arg] runs the handler [h].  The list must have a work: the code would take the
    list head for one. *)
Definition worker_task_step (call : addr -> Z -> K unit) (queue : addr) (pc : worker_pc) : K worker_pc :=
  match pc with
  | WK_TAKE =>
      q ← get_wq queue;
      r ← krhino_sem_take (Some (wq_sem q)) RHINO_WAIT_FOREVER;
      mret (match r with Ret st => WK_GOT st | Pending => WK_BLOCKED end)
  | WK_BLOCKED => st ← pend_resume; mret (WK_GOT st)
  | WK_GOT ret =>
      (if decide (ret <> RHINO_SUCCESS) then k_err_proc ret else mret tt);;
      cpsr ← RHINO_CRITICAL_ENTER;
      q ← get_wq queue;
      work ← deref (head (work_list q));
      work_unlink work;;
      upd_wq queue (fun q => q <| work_current := Some work |>);;
      upd_work work (fun w => w <| work_exit := 0 |>);;
      RHINO_CRITICAL_EXIT cpsr;;
      mret (WK_RUN work)
  | WK_RUN work =>
      w ← get_work work;
      call (work_handle w) (work_arg w);;
      cpsr ← RHINO_CRITICAL_ENTER;
      upd_wq queue (fun q => q <| work_current := None |>);;
      RHINO_CRITICAL_EXIT cpsr;;
      mret WK_TAKE
  end.

(** The addresses of the members [sem] and [worker] come with the address of the queue;
    [entry] is [worker_task]. *)
Definition krhino_workqueue_create (workqueue : option addr) (sem : oid) (wk : tid) (entry : addr)
    (name : option addr) (pri : Z) (stack_buf : option addr) (stack_size : Z) : K kstat_t :=
  match workqueue, name, stack_buf with
  | Some w, Some _, Some _ =>
      if decide (RHINO_CONFIG_PRI_MAX <= pri) then mret RHINO_BEYOND_MAX_PRI else
      if decide (stack_size = 0) then mret RHINO_TASK_INV_STACK_SIZE else
      ret ← workqueue_is_exist w;
      if decide (ret = RHINO_WORKQUEUE_EXIST) then mret RHINO_WORKQUEUE_EXIST else
      modify (fun s => s <| kworks ::= fun y => y <| workqueues ::= <[w := mk_kworkqueue [] None wk sem]> |> |>);;
      ret ← krhino_sem_create (Some sem) name 0;
      if decide (ret <> RHINO_SUCCESS) then mret ret else
      cpsr ← RHINO_CRITICAL_ENTER;
      modify (fun s => s <| kworks ::= fun y => y <| g_workqueue_list_head ::= fun l => l ++ [w] |> |>);;
      RHINO_CRITICAL_EXIT cpsr;;
      ret ← krhino_task_create (Some wk) name (Zpos w) pri 0 stack_buf stack_size (Some entry) 1;
      if decide (ret <> RHINO_SUCCESS) then
        cpsr ← RHINO_CRITICAL_ENTER;
        modify (fun s => s <| kworks ::= fun y => y <| g_workqueue_list_head ::= list_rm w |> |>);;
        RHINO_CRITICAL_EXIT cpsr;;
        _ ← krhino_sem_del (Some sem);
        mret ret
      else mret RHINO_SUCCESS
  | _, _, _ => mret RHINO_NULL_PTR
  end.

Definition krhino_workqueue_del (workqueue : option addr) : K kstat_t :=
  match workqueue with
  | None => mret RHINO_NULL_PTR
  | Some w =>
      ret ← workqueue_is_exist w;
      if decide (ret = RHINO_WORKQUEUE_NOT_EXIST) then mret RHINO_WORKQUEUE_NOT_EXIST else
      cpsr ← RHINO_CRITICAL_ENTER;
      q ← get_wq w;
      if decide (work_list q <> []) then exit_ret cpsr RHINO_WORKQUEUE_BUSY else
      if decide (work_current q <> None) then exit_ret cpsr RHINO_WORKQUEUE_BUSY else
      RHINO_CRITICAL_EXIT cpsr;;
      ret ← krhino_task_del (Some (worker q));
      if decide (ret <> RHINO_SUCCESS) then mret ret else
      ret ← krhino_sem_del (Some (wq_sem q));
      if decide (ret <> RHINO_SUCCESS) then mret ret else
      cpsr ← RHINO_CRITICAL_ENTER;
      modify (fun s => s <| kworks ::= fun y => y <| g_workqueue_list_head ::= list_rm w |> |>);;
      exit_ret cpsr RHINO_SUCCESS
  end.

(** The tail of [krhino_work_run] and of [work_timer_cb] within the critical section: the
    status to stop with, or the semaphore to give. *)
Definition work_enqueue (cpsr : bool) (workqueue work : addr) : K (kstat_t + oid) :=
  q ← get_wq workqueue;
  if decide (work_current q = Some work) then inl <$> exit_ret cpsr RHINO_WORKQUEUE_WORK_RUNNING else
  w ← get_work work;
  if decide (work_exit w = 1) then inl <$> exit_ret cpsr RHINO_WORKQUEUE_WORK_EXIST else
  work_link workqueue work;;
  upd_work work (fun w => w <| wq := Some workqueue |> <| work_exit := 1 |>);;
  RHINO_CRITICAL_EXIT cpsr;;
  mret (inr (wq_sem q)).

Definition work_timer_cb (timer : addr) (arg : Z) : K unit :=
  k ← get_timer timer;
  work ← deref (priv k);
  match arg with
  | Zpos w =>
      cpsr ← RHINO_CRITICAL_ENTER;
      r ← work_enqueue cpsr w work;
      match r with
      | inl _ => mret tt
      | inr sem => _ ← krhino_sem_give notify (Some sem); mret tt
      end
  | _ => fault
  end.

(** [timer_cb_entry] is [work_timer_cb]; [alloc] is the block allocated for the timer. *)
Definition krhino_work_init (work handle : option addr) (arg delay : Z)
    (work_timer_field name timer_cb_entry : addr) (alloc : option addr) : K kstat_t :=
  match work, handle with
  | Some w, Some h =>
      modify (fun s => s <| kworks ::= fun y => y <| works ::= <[w := mk_kwork h arg delay None None 0]> |> |>);;
      if decide (0 < delay) then
        ret ← krhino_timer_dyn_create notify (Some work_timer_field) (Some name) (Some timer_cb_entry)
                delay 0 (Zpos w) 0 alloc;
        if decide (ret <> RHINO_SUCCESS) then mret ret else
        upd_work w (fun k => k <| work_timer := alloc |>);;
        mret RHINO_SUCCESS
      else mret RHINO_SUCCESS
  | _, _ => mret RHINO_NULL_PTR
  end.

Definition krhino_work_run (workqueue work : option addr) : K kstat_t :=
  match workqueue, work with
  | Some q, Some w =>
      k ← get_work w;
      if decide (dly k = 0) then
        cpsr ← RHINO_CRITICAL_ENTER;
        r ← work_enqueue cpsr q w;
        match r with
        | inl st => mret st
        | inr sem =>
            ret ← krhino_sem_give notify (Some sem);
            mret ret
        end
      else
        cpsr ← RHINO_CRITICAL_ENTER;
        t ← deref (work_timer k);
        upd_timer t (fun t => t <| priv := Some w |>);;
        RHINO_CRITICAL_EXIT cpsr;;
        ret ← krhino_timer_arg_change_auto notify (Some t) (Zpos q);
        mret ret
  | _, _ => mret RHINO_NULL_PTR
  end.

Definition krhino_work_sched (work : option addr) : K kstat_t :=
  d ← gets (fun s => g_workqueue_default (kworks s));
  krhino_work_run (Some d) work.

Definition krhino_work_cancel (work : option addr) : K kstat_t :=
  match work with
  | None => mret RHINO_NULL_PTR
  | Some w =>
      k ← get_work w;
      match wq k with
      | None =>
          (if decide (0 < dly k) then _ ← krhino_timer_stop notify (work_timer k); mret tt else mret tt);;
          mret RHINO_SUCCESS
      | Some q =>
          cpsr ← RHINO_CRITICAL_ENTER;
          kq ← get_wq q;
          if decide (work_current kq = Some w) then exit_ret cpsr RHINO_WORKQUEUE_WORK_RUNNING else
          k ← get_work w;
          if decide (work_exit k = 1) then exit_ret cpsr RHINO_WORKQUEUE_WORK_EXIST else
          work_unlink w;;
          upd_work w (fun k => k <| wq := None |>);;
          exit_ret cpsr RHINO_SUCCESS
      end
  end.

(** the globals [workqueue_init] passes on *)
Record workqueue_globals := mk_workqueue_globals {
  default_sem : oid;
  default_worker : tid;
  g_workqueue_stack : addr;
  worker_entry : addr;
  workqueue_name : addr;
  RHINO_CONFIG_WORKQUEUE_TASK_PRIO : Z;
  RHINO_CONFIG_WORKQUEUE_STACK_SIZE : Z;
}.

Definition workqueue_init (g : workqueue_globals) : K unit :=
  modify (fun s => s <| kworks ::= fun y => y <| g_workqueue_list_head := [] |> |>);;
  d ← gets (fun s => g_workqueue_default (kworks s));
  _ ← krhino_workqueue_create (Some d) (default_sem g) (default_worker g) (worker_entry g)
        (Some (workqueue_name g)) (RHINO_CONFIG_WORKQUEUE_TASK_PRIO g) (Some (g_workqueue_stack g))
        (RHINO_CONFIG_WORKQUEUE_STACK_SIZE g);
  mret tt.

(** ** The works in the queues *)

(** A work is in the list of the queue it names exactly while [work_exit] is set, once. *)
Record works_ok (y : work_sys) : Prop := {
  wk_list : forall q kq, workqueues y !! q = Some kq -> NoDup (work_list kq) /\
    forall w, w ∈ work_list kq -> exists k, works y !! w = Some k /\ work_exit k = 1 /\ wq k = Some q;
  wk_pending : forall w k, works y !! w = Some k -> work_exit k = 1 -> exists q kq,
    wq k = Some q /\ workqueues y !! q = Some kq /\ w ∈ work_list kq;
  wk_bit : forall w k, works y !! w = Some k -> work_exit k = 0 \/ work_exit k = 1;
}.

(** the state with other queues and works *)
Definition reworked (s : kstate) (Q : gmap addr kworkqueue_t) (W : gmap addr kwork_t) : kstate :=
  s <| kworks := (kworks s) <| workqueues := Q |> <| works := W |> |>.

Lemma reworked_reworked s Q W Q' W' : reworked (reworked s Q W) Q' W' = reworked s Q' W'.
Proof. unfold reworked. apply kstate_ext; try reflexivity. Qed.

Lemma reworked_id s : reworked s (workqueues (kworks s)) (works (kworks s)) = s.
Proof. unfold reworked. apply kstate_ext; try reflexivity. cbn. by destruct (kworks s). Qed.

Lemma kok_reworked s Q W : kok s -> kok (reworked s Q W).
Proof. intros (? & ? & ? & ?). by apply kok_intro. Qed.

Lemma wp_get_wq q kq (Q : kworkqueue_t -> kstate -> Prop) s :
  workqueues (kworks s) !! q = Some kq -> Q kq s -> wp (get_wq q) Q s.
Proof. intros Hq HQ. apply wp_bind, wp_gets. by eapply wp_deref. Qed.

Lemma wp_get_work w k (Q : kwork_t -> kstate -> Prop) s :
  works (kworks s) !! w = Some k -> Q k s -> wp (get_work w) Q s.
Proof. intros Hw HQ. apply wp_bind, wp_gets. by eapply wp_deref. Qed.

Lemma wp_upd_wq q f kq (Q : unit -> kstate -> Prop) s :
  workqueues (kworks s) !! q = Some kq ->
  Q tt (reworked s (<[q := f kq]> (workqueues (kworks s))) (works (kworks s))) -> wp (upd_wq q f) Q s.
Proof.
  intros Hq HQ. apply wp_bind. eapply wp_get_wq; [done|]. apply wp_modify.
  match type of HQ with Q tt ?y => match goal with |- Q tt ?x => assert (x = y) as -> end end; [|done].
  unfold reworked. apply kstate_ext; reflexivity.
Qed.

Lemma wp_upd_work w f k (Q : unit -> kstate -> Prop) s :
  works (kworks s) !! w = Some k ->
  Q tt (reworked s (workqueues (kworks s)) (<[w := f k]> (works (kworks s)))) -> wp (upd_work w f) Q s.
Proof.
  intros Hq HQ. apply wp_bind. eapply wp_get_work; [done|]. apply wp_modify.
  match type of HQ with Q tt ?y => match goal with |- Q tt ?x => assert (x = y) as -> end end; [|done].
  unfold reworked. apply kstate_ext; reflexivity.
Qed.

(** what unlinking a node does to the lists *)
Definition unlinked (w : addr) (m : gmap addr kworkqueue_t) : gmap addr kworkqueue_t :=
  (fun q => q <| work_list ::= list_rm w |>) <$> m.

Lemma unlinked_free w m :
  (forall q kq, m !! q = Some kq -> w ∉ work_list kq) -> unlinked w m = m.
Proof.
  intros Hn. apply map_eq. intros q. unfold unlinked. rewrite lookup_fmap.
  destruct (m !! q) as [kq|] eqn:Hq; [|done]. cbn. f_equal. specialize (Hn q _ Hq).
  destruct kq as [l c wk sm]. unfold upd; cbn in *. f_equal. by apply list_rm_id.
Qed.

Lemma unlinked_head y w q kq l :
  works_ok y -> workqueues y !! q = Some kq -> work_list kq = w :: l ->
  unlinked w (workqueues y) = <[q := kq <| work_list := l |>]> (workqueues y).
Proof.
  intros [Hlist _ _] Hq Hl. apply map_eq. intros q'. unfold unlinked. rewrite lookup_fmap.
  destruct (Hlist q _ Hq) as [Hnd Hin0]. rewrite Hl in Hnd, Hin0. apply NoDup_cons in Hnd as [Hnin _].
  destruct (decide (q' = q)) as [->|Hne].
  - rewrite lookup_insert_eq, Hq. cbn. f_equal. destruct kq as [l0 c wk sm]. unfold upd; cbn in *. subst l0. f_equal.
    by apply list_rm_cons.
  - rewrite lookup_insert_ne by done. destruct (workqueues y !! q') as [kq'|] eqn:Hq'; [|done]. cbn. f_equal.
    destruct (Hlist q' _ Hq') as [_ Hin]. destruct kq' as [l' c wk sm]. unfold upd; cbn in *. f_equal.
    apply list_rm_id. intros Hw. destruct (Hin w Hw) as (k & Hk & _ & Hwq).
    destruct (Hin0 w) as (k0 & Hk0 & _ & Hwq0); [by left|]. congruence.
Qed.

Lemma wp_work_unlink w (Q : unit -> kstate -> Prop) s :
  Q tt (reworked s (unlinked w (workqueues (kworks s))) (works (kworks s))) -> wp (work_unlink w) Q s.
Proof.
  intros HQ. apply wp_modify. match type of HQ with Q tt ?y => match goal with |- Q tt ?x => assert (x = y) as -> end end; [|done].
  unfold reworked. apply kstate_ext; reflexivity.
Qed.

(** a work that is not pending is in no list *)
Lemma not_pending y w k :
  works_ok y -> works y !! w = Some k -> work_exit k <> 1 ->
  forall q kq, workqueues y !! q = Some kq -> w ∉ work_list kq.
Proof.
  intros [Hlist _ _] Hw He q kq Hq Hin. destruct (Hlist q kq Hq) as [_ H]. destruct (H w Hin) as (k' & ? & ? & _). congruence.
Qed.

Lemma works_ok_enqueue y q w kq k :
  works_ok y -> workqueues y !! q = Some kq -> works y !! w = Some k -> work_exit k <> 1 ->
  works_ok (y <| workqueues := <[q := kq <| work_list := work_list kq ++ [w] |>]> (workqueues y) |>
              <| works := <[w := k <| wq := Some q |> <| work_exit := 1 |>]> (works y) |>).
Proof.
  intros Hok Hq Hw He. pose proof (not_pending y w k Hok Hw He) as Hfree. destruct Hok as [Hlist Hpend Hbit].
  split; cbn.
  - intros q' kq' [[<- <-]|[Hne Hq']]%lookup_insert_Some; cbn.
    + destruct (Hlist q kq Hq) as [Hnd Hin]. split.
      { apply NoDup_app. split; [done|]. split; [|apply NoDup_singleton].
        intros x Hx ->%list_elem_of_singleton. by apply (Hfree q kq Hq). }
      intros x [Hx| ->%list_elem_of_singleton]%elem_of_app; [|eexists; by rewrite lookup_insert_eq].
      rewrite lookup_insert_ne; [by apply Hin|]. intros ->. by apply (Hfree q kq Hq).
    + destruct (Hlist q' kq' Hq') as [Hnd Hin]. split; [done|]. intros x Hx.
      rewrite lookup_insert_ne; [by apply Hin|]. intros ->. by apply (Hfree q' kq' Hq').
  - intros x kx [[<- <-]|[Hne Hx]]%lookup_insert_Some He'; cbn.
    + eexists q, _. rewrite lookup_insert_eq. split; [done|]. split; [done|]. cbn. set_solver.
    + destruct (Hpend x kx Hx He') as (q' & kq' & Hwq & Hq' & Hin). destruct (decide (q' = q)) as [->|].
      * assert (kq' = kq) as -> by congruence. eexists q, _. rewrite lookup_insert_eq. split; [done|]. split; [done|]. cbn. set_solver.
      * exists q', kq'. by rewrite lookup_insert_ne.
  - intros x kx [[<- <-]|[Hne Hx]]%lookup_insert_Some; [by right|by apply (Hbit x)].
Qed.

(** the state with the work [w] at the end of the queue [q] *)
Definition enqueued (s : kstate) (q w : addr) (kq : kworkqueue_t) (k : kwork_t) : kstate :=
  reworked s (<[q := kq <| work_list := work_list kq ++ [w] |>]> (workqueues (kworks s)))
    (<[w := k <| wq := Some q |> <| work_exit := 1 |>]> (works (kworks s))).

Lemma wp_work_enqueue cpsr s q w kq k (Q : kstat_t + oid -> kstate -> Prop) :
  works_ok (kworks s) -> workqueues (kworks s) !! q = Some kq -> works (kworks s) !! w = Some k ->
  (work_current kq = Some w -> Q (inl RHINO_WORKQUEUE_WORK_RUNNING) (s <| irq_off := cpsr |>)) ->
  (work_current kq <> Some w -> work_exit k = 1 -> Q (inl RHINO_WORKQUEUE_WORK_EXIST) (s <| irq_off := cpsr |>)) ->
  (work_current kq <> Some w -> work_exit k <> 1 ->
   Q (inr (wq_sem kq)) ((enqueued s q w kq k) <| irq_off := cpsr |>)) ->
  wp (work_enqueue cpsr q w) Q s.
Proof.
  intros Hok Hq Hw H1 H2 H3. unfold work_enqueue. apply wp_bind. eapply wp_get_wq; [done|].
  case_decide; [by apply wp_fmap, wp_exit_ret, H1|]. apply wp_bind. eapply wp_get_work; [done|].
  case_decide; [by apply wp_fmap, wp_exit_ret, H2|]. apply wp_bind, wp_bind, wp_work_unlink.
  rewrite unlinked_free by by eapply not_pending. rewrite reworked_id. eapply wp_upd_wq; [done|].
  apply wp_bind. eapply wp_upd_work; [done|]. rewrite reworked_reworked. apply wp_bind, wp_modify, wp_ret. by apply H3.
Qed.

(** the semaphore of a queue is in no set *)
Lemma sem_give_kworks s o b r s' :
  sem_give_spec notify s o false r s' -> blk_objs s !! o = Some b -> handle b = None -> kworks s' = kworks s.
Proof.
  intros Hs Hb Hh. inversion Hs as [| |b0 sm s2 Hb0 _ _ _ _ Hn|b0 t l k rq' L' s2 Hb0 _ Hl _ Hk (p & a & ->)|]; subst; try done.
  assert (b0 = b) as -> by congruence. unfold notified in Hn. rewrite Hh in Hn. by injection Hn as <-.
Qed.

(** The branches of [krhino_work_run] for a work without a delay. *)
Inductive work_run_spec (s : kstate) (q w : addr) (kq : kworkqueue_t) (k : kwork_t) : kstat_t -> kstate -> Prop :=
| run_running : work_current kq = Some w -> work_run_spec s q w kq k RHINO_WORKQUEUE_WORK_RUNNING s
| run_pending : work_current kq <> Some w -> work_exit k = 1 -> work_run_spec s q w kq k RHINO_WORKQUEUE_WORK_EXIST s
| run_queued r s' :
    work_current kq <> Some w -> work_exit k <> 1 ->
    sem_give_spec notify (enqueued s q w kq k) (wq_sem kq) false r s' -> kworks s' = kworks (enqueued s q w kq k) ->
    work_run_spec s q w kq k r s'.

(** Running a work without a delay: a work that is running or pending is refused and
    nothing changes; any other is put behind the works of the queue, marked pending, and the
    semaphore of the queue's task is given.  The works stay well-formed, so a pending work is
    in the list of exactly one queue, once, and the kernel's invariant is kept. *)
Theorem krhino_work_run_correct (s : kstate) (q w : addr) (kq : kworkqueue_t) (k : kwork_t) (b : blk_obj_t)
    (Hok : kok s) (Hws : works_ok (kworks s)) (Hq : workqueues (kworks s) !! q = Some kq)
    (Hw : works (kworks s) !! w = Some k) (Hdly : dly k = 0)
    (Hb : blk_objs s !! wq_sem kq = Some b) (Hh : handle b = None) :
  wp (krhino_work_run (Some q) (Some w))
    (fun r s' => kok s' /\ works_ok (kworks s') /\ work_run_spec s q w kq k r s') s.
Proof.
  unfold krhino_work_run. apply wp_bind. eapply wp_get_work; [done|]. rewrite decide_True by done.
  apply wp_bind, wp_critical_enter, wp_bind.
  apply (wp_work_enqueue _ _ _ _ kq k); try done; [intros Hr|intros Hr He..].
  - apply wp_ret. rewrite irq_restore. split; [done|]. split; [done|by apply run_running].
  - apply wp_ret. rewrite irq_restore. split; [done|]. split; [done|by apply run_pending].
  - match goal with |- wp _ _ ?x => assert (x = enqueued s q w kq k) as -> by by destruct s end.
    apply wp_bind. eapply wp_mono.
    { apply (wp_sem_give notify _ (wq_sem kq) b WAKE_ONE_SEM); [by apply kok_reworked|done|]. intros h s0 Hh'. congruence. }
    intros r s' [Hok' Hspec]. apply wp_ret. split; [done|].
    pose proof (sem_give_kworks _ _ b _ _ Hspec Hb Hh) as Hkw. split; [|by apply run_queued].
    rewrite Hkw. by apply works_ok_enqueue.
Qed.

(** a work that is not pending, with other fields *)
Lemma works_ok_idle y w k k' :
  works_ok y -> works y !! w = Some k -> work_exit k <> 1 -> work_exit k' = 0 ->
  works_ok (y <| works := <[w := k']> (works y) |>).
Proof.
  intros Hok Hw He He'. pose proof (not_pending y w k Hok Hw He) as Hfree. destruct Hok as [Hlist Hpend Hbit].
  split; cbn.
  - intros q kq Hq. destruct (Hlist q kq Hq) as [Hnd Hin]. split; [done|]. intros x Hx.
    rewrite lookup_insert_ne; [by apply Hin|]. intros ->. by apply (Hfree q kq Hq).
  - intros x kx [[<- <-]|[Hne Hx]]%lookup_insert_Some Hx1; [congruence|by apply Hpend].
  - intros x kx [[<- <-]|[Hne Hx]]%lookup_insert_Some; [by left|by apply (Hbit x)].
Qed.

(** Cancelling a work that was given to a queue never takes it out of the queue: while
    it runs or is pending the call refuses and changes nothing, and when it is done only its
    link to the queue is dropped.  In no case does the list of a queue change. *)
Theorem krhino_work_cancel_correct (s : kstate) (q w : addr) (kq : kworkqueue_t) (k : kwork_t)
    (Hok : kok s) (Hws : works_ok (kworks s)) (Hw : works (kworks s) !! w = Some k)
    (Hwq : wq k = Some q) (Hq : workqueues (kworks s) !! q = Some kq) :
  wp (krhino_work_cancel (Some w)) (fun r s' => kok s' /\ works_ok (kworks s') /\
    workqueues (kworks s') = workqueues (kworks s) /\
    if decide (work_current kq = Some w) then r = RHINO_WORKQUEUE_WORK_RUNNING /\ s' = s
    else if decide (work_exit k = 1) then r = RHINO_WORKQUEUE_WORK_EXIST /\ s' = s
    else r = RHINO_SUCCESS /\
      s' = reworked s (workqueues (kworks s)) (<[w := k <| wq := None |>]> (works (kworks s)))) s.
Proof.
  unfold krhino_work_cancel. apply wp_bind. eapply wp_get_work; [done|]. rewrite Hwq.
  apply wp_bind, wp_critical_enter, wp_bind. eapply wp_get_wq; [done|].
  destruct (decide (work_current kq = Some w)); [by apply wp_exit_ret; rewrite irq_restore|].
  apply wp_bind. eapply wp_get_work; [done|].
  destruct (decide (work_exit k = 1)) as [He|He]; [by apply wp_exit_ret; rewrite irq_restore|].
  apply wp_bind, wp_work_unlink. rewrite unlinked_free by by eapply not_pending. rewrite reworked_id.
  apply wp_bind. eapply wp_upd_work; [done|]. apply wp_exit_ret.
  match goal with |- kok ?x /\ _ => assert (x = reworked s (workqueues (kworks s)) (<[w := k <| wq := None |>]> (works (kworks s)))) as -> end.
  { by destruct s. }
  split; [by apply kok_reworked|]. split; [|done].
  pose proof (works_ok_idle (kworks s) w k (k <| wq := None |>) Hws Hw He) as H. cbn in H.
  assert (work_exit k = 0) as He0 by (by destruct (wk_bit _ Hws w k Hw)). specialize (H He0).
  revert H. unfold reworked. cbn. by destruct (kworks s).
Qed.

Lemma works_ok_take y q kq w l k :
  works_ok y -> workqueues y !! q = Some kq -> work_list kq = w :: l -> works y !! w = Some k ->
  works_ok (y <| workqueues := <[q := kq <| work_list := l |> <| work_current := Some w |>]> (workqueues y) |>
              <| works := <[w := k <| work_exit := 0 |>]> (works y) |>).
Proof.
  intros [Hlist Hpend Hbit] Hq Hl Hw. destruct (Hlist q kq Hq) as [Hnd Hin]. rewrite Hl in Hnd, Hin.
  apply NoDup_cons in Hnd as [Hnin Hnd]. split; cbn.
  - intros q' kq' [[<- <-]|[Hne Hq']]%lookup_insert_Some; cbn.
    + split; [done|]. intros x Hx. rewrite lookup_insert_ne by by intros ->. apply Hin. by right.
    + destruct (Hlist q' kq' Hq') as [Hnd' Hin']. split; [done|]. intros x Hx.
      rewrite lookup_insert_ne; [by apply Hin'|]. intros ->.
      destruct (Hin' x Hx) as (k1 & Hk1 & _ & Hq1), (Hin x) as (k2 & Hk2 & _ & Hq2); [by left|]. congruence.
  - intros x kx [[<- <-]|[Hne Hx]]%lookup_insert_Some Hx1; [done|].
    destruct (Hpend x kx Hx Hx1) as (q' & kq' & Hwq & Hq' & Hin'). destruct (decide (q' = q)) as [->|].
    + assert (kq' = kq) as -> by congruence. eexists q, _. rewrite lookup_insert_eq. split; [done|]. split; [done|].
      cbn. rewrite Hl in Hin'. apply elem_of_cons in Hin' as [->|?]; [done|done].
    + exists q', kq'. by rewrite lookup_insert_ne.
  - intros x kx [[<- <-]|[Hne Hx]]%lookup_insert_Some; [by left|by apply (Hbit x)].
Qed.

(** The task of a queue, behind a successful receive, takes the work that has been in
    the queue longest, marks it running and no longer pending, and goes on to its handler with
    interrupts as before; the works stay well-formed. *)
Theorem worker_task_step_correct (call : addr -> Z -> K unit) (s : kstate) (q w : addr) (l : list addr)
    (kq : kworkqueue_t) (k : kwork_t)
    (Hok : kok s) (Hws : works_ok (kworks s)) (Hq : workqueues (kworks s) !! q = Some kq)
    (Hl : work_list kq = w :: l) (Hw : works (kworks s) !! w = Some k) :
  wp (worker_task_step call q (WK_GOT RHINO_SUCCESS)) (fun pc s' => pc = WK_RUN w /\ kok s' /\ works_ok (kworks s') /\
    s' = reworked s (<[q := kq <| work_list := l |> <| work_current := Some w |>]> (workqueues (kworks s)))
           (<[w := k <| work_exit := 0 |>]> (works (kworks s)))) s.
Proof.
  unfold worker_task_step. apply wp_bind. rewrite decide_False by tauto. apply wp_ret.
  apply wp_bind, wp_critical_enter, wp_bind. eapply wp_get_wq; [done|]. rewrite Hl.
  apply wp_bind. eapply wp_deref; [done|]. apply wp_bind, wp_work_unlink.
  erewrite unlinked_head by done. apply wp_bind. eapply wp_upd_wq; [cbn; apply lookup_insert_eq|].
  apply wp_bind. eapply wp_upd_work; [exact Hw|]. rewrite !reworked_reworked. cbn. rewrite insert_insert_eq.
  apply wp_bind, wp_modify, wp_ret. split; [done|].
  match goal with |- kok ?x /\ _ => assert (x = reworked s
    (<[q := kq <| work_list := l |> <| work_current := Some w |>]> (workqueues (kworks s)))
    (<[w := k <| work_exit := 0 |>]> (works (kworks s)))) as -> by by destruct s end.
  split; [by apply kok_reworked|]. split; [|done].
  pose proof (works_ok_take (kworks s) q kq w l k Hws Hq Hl Hw) as H. revert H. unfold reworked. cbn. by destruct (kworks s).
Qed.

End workqueue.
#[local] Existing Instance linuxhost.

(** The queue 60 holds the works 81 and 82, and 83 is free; its semaphore is 20. *)
Definition three_works : work_sys :=
  mk_work_sys [60%positive] 60%positive
    (<[60%positive := mk_kworkqueue [81; 82]%positive None 4%positive 20%positive]> ∅)
    (<[81%positive := mk_kwork 9%positive 1 0 None (Some 60%positive) 1]> (
     <[82%positive := mk_kwork 9%positive 2 0 None (Some 60%positive) 1]> (
     <[83%positive := mk_kwork 9%positive 3 0 None None 0]> ∅))).

Definition working : kstate := Demo.demo <| kworks := three_works |>.

Lemma working_ok : kok working.
Proof. destruct Demo.demo_ok as (? & ? & ? & ?). by apply kok_intro. Qed.

Lemma three_works_ok : works_ok three_works.
Proof.
  split; cbn.
  - intros q kq [[<- <-]|[_ Hq]]%lookup_insert_Some; [|done]. cbn. split.
    + by repeat (apply NoDup_cons; split; [set_solver|]); apply NoDup_nil.
    + intros w. rewrite !elem_of_cons. intros [->|[->|?%elem_of_nil]]; [eexists; by split..|done].
  - intros w k Hk He. Demo.lookup_cases Hk; try discriminate He; eexists _, _; (split; [reflexivity|]);
      (split; [reflexivity|]); set_solver.
  - intros w k Hk. Demo.lookup_cases Hk; auto.
Qed.


End Workqueue.
