(* ===== verification/Sys.v ===== *)
(** * Start of the system and interrupts ([k_sys.c], [k_stats.c], [k_dyn_mem_proc.c]) *)
From S2P Require Import Prelude Config Kernel Sched TickList Pend Inv Prio Sem Task Queue BufQueue Tick Time Timer Workqueue.
Import Sched TickList Pend Sem Task Time Timer Workqueue.

Module Sys.
Section sys.
Context {cfg : RhinoConfig}.

(** ** Interrupts *)

Definition krhino_intrpt_enter : K kstat_t :=
  cpsr ← RHINO_CRITICAL_ENTER;
  nested ← gets g_intrpt_nested_level;
  if decide (RHINO_CONFIG_INTRPT_MAX_NESTED_LEVEL <= nested) then
    k_err_proc RHINO_INTRPT_NESTED_LEVEL_OVERFLOW;;
    exit_ret cpsr RHINO_INTRPT_NESTED_LEVEL_OVERFLOW
  else
    modify (fun s => s <| g_intrpt_nested_level ::= fun n => wrap 8 (n + 1) |>);;
    exit_ret cpsr RHINO_SUCCESS.

(** the port's switch on the way out of an interrupt *)
Definition cpu_intrpt_switch : K unit :=
  modify (fun s => s <| g_active_task := g_preferred_ready_task s |>).

Definition krhino_intrpt_exit : K unit :=
  cpsr ← RHINO_CRITICAL_ENTER;
  nested ← gets g_intrpt_nested_level;
  (if decide (nested = 0) then
     RHINO_CRITICAL_EXIT cpsr;; k_err_proc RHINO_INV_INTRPT_NESTED_LEVEL
   else mret tt);;
  modify (fun s => s <| g_intrpt_nested_level ::= fun n => wrap 8 (n - 1) |>);;
  nested ← gets g_intrpt_nested_level;
  if decide (0 < nested) then RHINO_CRITICAL_EXIT cpsr else
  lock ← gets g_sched_lock;
  if decide (0 < lock) then RHINO_CRITICAL_EXIT cpsr else
  preferred_cpu_ready_task_get;;
  preferred ← gets g_preferred_ready_task;
  running ← gets g_active_task;
  if decide (preferred = running) then RHINO_CRITICAL_EXIT cpsr else
  cpu_intrpt_switch;;
  RHINO_CRITICAL_EXIT cpsr.

(** The handler of the tick interrupt, between the port's bookkeeping. *)
Definition tick_interpt : K unit :=
  _ ← krhino_intrpt_enter;
  krhino_tick_proc;;
  krhino_intrpt_exit.

(** ** Stack overflow check *)

Definition krhino_stack_ovf_check : K unit :=
  a ← active;
  k ← task_get a;
  stack_start ← deref (task_stack_base k);
  m ← gets (fun s => ubufs s !! stack_start); m ← deref m;
  w ← deref (m !! 0%nat);
  (if decide (w <> RHINO_TASK_STACK_OVF_MAGIC) then k_err_proc RHINO_TASK_STACK_OVF else mret tt);;
  if decide (task_stack k < Zpos stack_start) then k_err_proc RHINO_TASK_STACK_OVF else mret tt.

(** ** The task that frees deleted tasks *)

(** Where [dyn_mem_proc_task] stands. *)
Inductive dyn_mem_pc := DM_TAKE | DM_BLOCKED | DM_GOT (ret : kstat_t) | DM_DRAIN.

Fixpoint free_all (l : list addr) : K unit :=
  match l with [] => mret tt | p :: l' => krhino_mm_free p;; free_all l' end.

Definition dyn_mem_proc_step (pc : dyn_mem_pc) : K dyn_mem_pc :=
  match pc with
  | DM_TAKE =>
      sem ← gets g_res_sem;
      r ← krhino_sem_take (Some sem) RHINO_WAIT_FOREVER;
      mret (match r with Ret st => DM_GOT st | Pending => DM_BLOCKED end)
  | DM_BLOCKED => st ← pend_resume; mret (DM_GOT st)
  | DM_GOT ret =>
      (if decide (ret <> RHINO_SUCCESS) then k_err_proc RHINO_DYN_MEM_PROC_ERR else mret tt);;
      mret DM_DRAIN
  | DM_DRAIN =>
      cpsr ← RHINO_CRITICAL_ENTER;
      l ← gets g_res_list;
      match l with
      | res :: l' =>
          modify (fun s => s <| g_res_list := l' |>);;
          RHINO_CRITICAL_EXIT cpsr;;
          free_all res;;
          mret DM_DRAIN
      | [] => RHINO_CRITICAL_EXIT cpsr;; mret DM_TAKE
      end
  end.

(** ** Start *)

Definition kobj_list_init : K unit :=
  modify (fun s => s <| g_kobj_list := mk_kobj_list [] [] [] [] [] [] [] |>).

Context {port : Port} (notify : oid -> sid -> K unit).

(** The names, stacks, entry points and sizes the start-up code passes on, and the two
    blocks allocated for the task that frees deleted tasks. *)
Record sys_globals := mk_sys_globals {
  res_sem_name : addr;
  idle_name : addr;
  g_idle_task_stack : addr;
  RHINO_CONFIG_IDLE_TASK_STACK_SIZE : Z;
  idle_task_entry : addr;
  dyn_mem_task : addr;
  dyn_mem_name : addr;
  RHINO_CONFIG_K_DYN_MEM_TASK_PRI : Z;
  RHINO_CONFIG_K_DYN_TASK_STACK : Z;
  dyn_mem_entry : addr;
  dyn_mem_stack_alloc : option addr;
  dyn_mem_task_alloc : option tid;
  sys_timer : timer_globals;
  sys_workqueue : workqueue_globals;
}.

Definition dyn_mem_proc_task_start (g : sys_globals) : K unit :=
  _ ← krhino_task_dyn_create (Some (dyn_mem_task g)) (Some (dyn_mem_name g)) 0
        (RHINO_CONFIG_K_DYN_MEM_TASK_PRI g) 0 (RHINO_CONFIG_K_DYN_TASK_STACK g)
        (Some (dyn_mem_entry g)) 1 (dyn_mem_stack_alloc g) (dyn_mem_task_alloc g);
  mret tt.

(** [k_mm_init] sets up the heap, which is not part of this state. *)
Definition krhino_init (g : sys_globals) : K kstat_t :=
  modify (fun s => s <| g_sys_stat := RHINO_STOPPED |>);;
  runqueue_init;;
  tick_list_init;;
  kobj_list_init;;
  modify (fun s => s <| g_res_list := [] |>);;
  sem ← gets g_res_sem;
  _ ← krhino_sem_create (Some sem) (Some (res_sem_name g)) 0;
  dyn_mem_proc_task_start g;;
  idle ← gets g_idle_task;
  _ ← krhino_task_create (Some idle) (Some (idle_name g)) 0 RHINO_IDLE_PRI 0
        (Some (g_idle_task_stack g)) (RHINO_CONFIG_IDLE_TASK_STACK_SIZE g) (Some (idle_task_entry g)) 1;
  workqueue_init (sys_workqueue g);;
  ktimer_init (sys_timer g);;
  mret RHINO_SUCCESS.

(** The first task starts and the call does not return: no status then. *)
Definition krhino_start : K (option kstat_t) :=
  stat ← gets g_sys_stat;
  if decide (stat = RHINO_STOPPED) then
    preferred_cpu_ready_task_get;;
    modify (fun s => s <| g_active_task := g_preferred_ready_task s |>);;
    modify (fun s => s <| g_sys_stat := RHINO_RUNNING |>);;
    mret None
  else mret (Some RHINO_RUNNING).

End sys.
End Sys.
