(* ===== verification/SysFacts.v ===== *)
(** * Properties of the scheduler lock, the time slices and interrupts

    The scheduler lock nests, a time slice that ends turns the ring of its priority, and the
    tick interrupt as a whole: it keeps the invariant of the kernel, and so a sleeping task
    runs on at its deadline. *)
From S2P Require Import Prelude Config Kernel Sched TickList Pend Inv Demo Prio Own Tick Time Sys.
Import Sched TickList Pend Prio Own Tick Time Sys.

Module SysFacts.
Section facts.
Context {cfg : RhinoConfig}.

(** ** The scheduler lock *)

Lemma kok_sched_lock s n :
  kok s -> g_sched_lock s <= n <= SCHED_MAX_LOCK_COUNT \/ 0 < n <= g_sched_lock s -> kok (s <| g_sched_lock := n |>).
Proof.
  intros (Hinv & Hpi & Hs & [Hc1 Hc2]) Hn. apply kok_intro; try done.
  - intros Hi. destruct (Hs Hi) as (a & k & Ha & Hk & Hr & Ht). exists a, k. repeat split; try done.
    cbn. intros ->. apply Ht. lia.
  - split; cbn; [lia|done].
Qed.

(** What [krhino_sched_disable] and [krhino_sched_enable] report and leave. *)
Definition sched_disable_spec (s : kstate) (r : kstat_t) (s' : kstate) : Prop :=
  if decide (0 < g_intrpt_nested_level s) then r = RHINO_NOT_CALLED_BY_INTRPT /\ s' = s
  else if decide (g_sched_lock s = SCHED_MAX_LOCK_COUNT) then r = RHINO_SCHED_LOCK_COUNT_OVF /\ s' = s
  else r = RHINO_SUCCESS /\ s' = s <| g_sched_lock := g_sched_lock s + 1 |>.

Definition sched_enable_spec (s : kstate) (r : kstat_t) (s' : kstate) : Prop :=
  if decide (0 < g_intrpt_nested_level s) then r = RHINO_NOT_CALLED_BY_INTRPT /\ s' = s
  else if decide (g_sched_lock s = 0) then r = RHINO_SCHED_ALREADY_ENABLED /\ s' = s
  else if decide (1 < g_sched_lock s)
  then r = RHINO_SCHED_DISABLE /\ s' = s <| g_sched_lock := g_sched_lock s - 1 |>
  else r = RHINO_SUCCESS /\ switched (s <| g_sched_lock := 0 |>) s'.

Lemma wp_sched_lock (s : kstate) (Hok : kok s) :
  wp krhino_sched_disable (fun r s' => kok s' /\ sched_disable_spec s r s') s /\
  wp krhino_sched_enable (fun r s' => kok s' /\ sched_enable_spec s r s') s.
Proof.
  pose proof Hok as (Hinv & Hpi & Hs & [Hc1 Hc2]). unfold SCHED_MAX_LOCK_COUNT in *. split.
  - unfold krhino_sched_disable. apply wp_bind, wp_critical_enter.
    apply wp_nested_chk; intros Hn; cbn in Hn.
    { rewrite irq_restore. split; [done|]. unfold sched_disable_spec. by rewrite decide_True. }
    unfold sched_disable_spec. destruct (decide (0 < g_intrpt_nested_level s)) as [?|_]; [lia|].
    apply wp_bind, wp_gets. cbn [g_sched_lock]. unfold SCHED_MAX_LOCK_COUNT. case_decide as Hl; cbn in Hl.
    { apply wp_exit_ret. rewrite irq_restore. split; [done|]. by rewrite decide_True by lia. }
    apply wp_bind, wp_modify, wp_exit_ret. rewrite decide_False by lia.
    match goal with |- kok ?x /\ _ => assert (x = s <| g_sched_lock := wrap 8 (g_sched_lock s + 1) |>) as -> by done end.
    rewrite wrap_small by lia. split; [|done]. apply kok_sched_lock; [done|]. unfold SCHED_MAX_LOCK_COUNT. lia.
  - unfold krhino_sched_enable. apply wp_bind, wp_critical_enter.
    apply wp_nested_chk; intros Hn; cbn in Hn.
    { rewrite irq_restore. split; [done|]. unfold sched_enable_spec. by rewrite decide_True. }
    unfold sched_enable_spec. destruct (decide (0 < g_intrpt_nested_level s)) as [?|_]; [lia|].
    apply wp_bind, wp_gets. cbn [g_sched_lock]. case_decide as Hl; cbn in Hl.
    { apply wp_exit_ret. rewrite irq_restore. split; [done|]. by rewrite decide_True. }
    apply wp_bind, wp_modify. apply wp_bind, wp_gets.
    cbn [g_sched_lock]. case_decide as Hl1; cbn in Hl1; rewrite wrap_small in Hl1 by lia.
    { apply wp_exit_ret. rewrite (decide_False (P := g_sched_lock s = 0)), decide_True by (done || lia).
      match goal with |- kok ?x /\ _ => assert (x = s <| g_sched_lock := wrap 8 (g_sched_lock s - 1) |>) as -> by done end.
      rewrite wrap_small by lia. split; [|done]. apply kok_sched_lock; [done|lia]. }
    match goal with |- wp _ _ ?x => assert (x = s <| irq_off := true |> <| g_sched_lock := wrap 8 (g_sched_lock s - 1) |>) as -> by done end.
    assert (Hw : wrap 8 (g_sched_lock s - 1) = 0) by (rewrite wrap_small; lia). rewrite Hw.
    apply wp_sched_ret; try done.
    intros s' Hok' Hsw. rewrite (decide_False (P := g_sched_lock s = 0)), decide_False by (done || lia). done.
Qed.

(** The lock of the scheduler counts up to its limit and down again without wrapping;
    only the last unlock switches to the task that is due, and locking and unlocking in
    between never changes which task runs. *)
Theorem krhino_sched_lock_correct (s : kstate) (Hok : kok s) :
  wp krhino_sched_disable (fun r s' => kok s' /\ sched_disable_spec s r s') s /\
  wp krhino_sched_enable (fun r s' => kok s' /\ sched_enable_spec s r s') s.
Proof. by eapply wp_sched_lock. Qed.

(** ** Time slices *)

(** What the end of a tick does to the tasks of the priority [p]. *)
Inductive slice_spec (s : kstate) (p : Z) : kstate -> Prop :=
| slice_none : ring (g_ready_queue s) p = [] -> slice_spec s p s
| slice_fifo t l k :
    ring (g_ready_queue s) p = t :: l -> tasks s !! t = Some k -> sched_policy k = KSCHED_FIFO ->
    slice_spec s p s
| slice_alone t : ring (g_ready_queue s) p = [t] -> slice_spec s p s
| slice_run t u l k :
    ring (g_ready_queue s) p = t :: u :: l -> tasks s !! t = Some k -> sched_policy k <> KSCHED_FIFO ->
    1 < time_slice k ->
    slice_spec s p (s <| tasks ::= <[t := k <| time_slice := time_slice k - 1 |>]> |>)
| slice_turn t u l k rq' :
    ring (g_ready_queue s) p = t :: u :: l -> tasks s !! t = Some k -> sched_policy k <> KSCHED_FIFO ->
    time_slice k <= 1 -> ring_is (g_ready_queue s) rq' p (u :: l ++ [t]) ->
    slice_spec s p (s <| tasks ::= <[t := k <| time_slice := time_total k |>]> |> <| g_ready_queue := rq' |>).

Lemma kinv_quiet s t k k' :
  kinv s -> pi_inv s -> tasks s !! t = Some k -> task_state k <> K_DELETED -> task_state k' = task_state k ->
  suspend_count k' = suspend_count k -> blk_obj k' = blk_obj k -> prio k' = prio k ->
  b_prio k' = b_prio k -> mutex_list k' = mutex_list k -> tick_head k' = tick_head k ->
  tick_match k' = tick_match k ->
  kinv (s <| tasks ::= <[t := k']> |>) /\ pi_inv (s <| tasks ::= <[t := k']> |>).
Proof.
  intros Hinv Hpi Ht Hd Hst Hsc Hob Hp Hb Hl Hth Htm.
  assert (s <| tasks ::= <[t := k']> |> =
    setq s (g_ready_queue s) (<[t := k']> (tasks s)) (blk_objs s) (g_tick_head s)) as -> by done.
  apply (kinv_unmoved_any s t k k'); try done. apply unmoved_fields; try done.
  by eapply (inv_task _ _ _ _ _ _ _ _ _ _ _ _ Hinv t).
Qed.

Lemma wp_time_slice s p (Q : unit -> kstate -> Prop) :
  kinv s -> pi_inv s -> 0 <= p < RHINO_CONFIG_PRI_MAX ->
  (forall s', kinv s' -> pi_inv s' -> slice_spec s p s' -> Q tt s') ->
  wp (time_slice_update p) Q s.
Proof.
  intros Hinv Hpi Hp HQ. pose proof Hinv as []. unfold time_slice_update.
  apply wp_bind, wp_critical_enter, wp_bind. eapply wp_ring_get; [exact inv_rq|lia|].
  change (g_ready_queue (s <| irq_off := true |>)) with (g_ready_queue s).
  destruct (ring (g_ready_queue s) p) as [|t l] eqn:Hr.
  { apply wp_modify. rewrite irq_restore. apply HQ; try done. by apply slice_none. }
  assert (Hrt : rdy (tasks s) t p).
  { apply (rq_mem _ _ inv_rq); [lia|]. rewrite Hr. set_solver. }
  destruct Hrt as (k & Hk & Hst & Hpk). apply wp_bind. eapply wp_task_get; [done|].
  case_decide as Hf.
  { apply wp_modify. rewrite irq_restore. apply HQ; try done. by eapply slice_fifo. }
  case_decide as Hl; [subst l|destruct l as [|u l]; [done|]].
  { apply wp_modify. rewrite irq_restore. apply HQ; try done. by eapply slice_alone. }
  apply wp_bind.
  assert (Hrest : forall n, n = (if decide (0 < time_slice k) then time_slice k - 1 else time_slice k) ->
    wp (k ← task_get t;
        if decide (0 < time_slice k) then RHINO_CRITICAL_EXIT (irq_off s)
        else ready_list_head_to_tail t;;
             task_upd t (fun k => k <| time_slice := time_total k |>);;
             RHINO_CRITICAL_EXIT (irq_off s)) Q
      (s <| irq_off := true |> <| tasks ::= <[t := k <| time_slice := n |>]> |>)).
  { intros n Hn. apply wp_bind. eapply wp_task_get; [cbn; apply lookup_insert_eq|].
    set (k1 := k <| time_slice := n |>).
    destruct (decide (0 < time_slice k1)) as [Hpos|Hpos]; cbn in Hpos.
    - apply wp_modify. destruct (decide (0 < time_slice k)) as [Hs|Hs]; [|lia].
      match goal with |- Q tt ?x => assert (x = s <| tasks ::= <[t := k <| time_slice := time_slice k - 1 |>]> |>) as -> by (subst n; done) end.
      destruct (kinv_quiet s t k (k <| time_slice := time_slice k - 1 |>)) as [? ?]; try done; [by rewrite Hst|].
      apply HQ; try done. eapply slice_run; try done. lia.
    - assert (Hk2 : kinv (s <| tasks ::= <[t := k <| time_slice := time_total k |>]> |>) /\
        pi_inv (s <| tasks ::= <[t := k <| time_slice := time_total k |>]> |>)).
      { apply (kinv_quiet s t k); try done. by rewrite Hst. }
      destruct Hk2 as [Hinv2 Hpi2].
      assert (Hrq2 : rq_ok (g_ready_queue s) (rdy (tasks s))) by exact inv_rq.
      apply wp_bind. eapply (wp_ready_list_head_to_tail t k1 _ _ (rdy (tasks s))); [done|apply lookup_insert_eq|cbn; lia| |].
      + cbn [prio k1]. change (prio k1) with (prio k). rewrite Hpk. cbn. rewrite Hr. intros x l' rq' [= <- <-] Hrq' Hri.
        apply wp_bind. eapply wp_task_upd; [cbn; apply lookup_insert_eq|]. apply wp_modify.
        match goal with |- Q tt ?x => assert (x = s <| tasks ::= <[t := k <| time_slice := time_total k |>]> |> <| g_ready_queue := rq' |>) as -> by kstate_eq end.
        apply HQ.
        * destruct Hinv2. split; try done. by apply (rq_ok_unseen rq' (tasks s) t k).
        * done.
        * 
          apply (slice_turn s p t u l k rq'); [done..| |exact Hri]. destruct (decide (0 < time_slice k)); lia.
      + change (prio k1) with (prio k). rewrite Hpk. cbn. by rewrite Hr. }
  apply wp_when; intros Hs; cbn in Hs.
  - eapply wp_task_upd; [done|]. apply Hrest. by rewrite decide_True.
  - match goal with |- wp _ _ ?x => assert (x = s <| irq_off := true |> <| tasks ::= <[t := k <| time_slice := time_slice k |>]> |>) as -> end.
    { apply kstate_ext; cbn; try reflexivity. symmetry. apply insert_id. rewrite Hk. by destruct k. }
    apply Hrest. by rewrite decide_False.
Qed.

(** ** Interrupts *)

Lemma kok_in_isr s n :
  kok s -> 0 < n <= RHINO_CONFIG_INTRPT_MAX_NESTED_LEVEL -> kok (s <| g_intrpt_nested_level := n |>).
Proof.
  intros (Hinv & Hpi & _ & [Hc1 Hc2]) Hn. apply kok_intro; try done.
  - intros Hi. cbn in Hi. lia.
  - split; cbn; [done|lia].
Qed.

Lemma nested_range s : kok s -> 0 <= g_intrpt_nested_level s < 256.
Proof. intros (_ & _ & _ & [_ ?]). pose proof cfg_nested. lia. Qed.

(** the running task cannot stop running while the scheduler is locked, not even in an
    interrupt handler *)
Definition active_ok (s : kstate) : Prop :=
  0 < g_sched_lock s ->
  exists a k, g_active_task s = Some a /\ tasks s !! a = Some k /\ task_state k = K_RDY.

Lemma wp_intrpt_enter s (Q : kstat_t -> kstate -> Prop) :
  kok s ->
  (g_intrpt_nested_level s < RHINO_CONFIG_INTRPT_MAX_NESTED_LEVEL ->
   kok (s <| g_intrpt_nested_level := g_intrpt_nested_level s + 1 |>) ->
   Q RHINO_SUCCESS (s <| g_intrpt_nested_level := g_intrpt_nested_level s + 1 |>)) ->
  (g_intrpt_nested_level s = RHINO_CONFIG_INTRPT_MAX_NESTED_LEVEL ->
   Q RHINO_INTRPT_NESTED_LEVEL_OVERFLOW (s <| err_log ::= cons RHINO_INTRPT_NESTED_LEVEL_OVERFLOW |>)) ->
  wp krhino_intrpt_enter Q s.
Proof.
  intros Hok H1 H2. pose proof (nested_range s Hok) as Hr. pose proof Hok as (_ & _ & _ & [_ Hc2]).
  pose proof cfg_nested. unfold krhino_intrpt_enter.
  apply wp_bind, wp_critical_enter, wp_bind, wp_gets. cbn [g_intrpt_nested_level].
  case_decide as Hl; cbn in Hl.
  - apply wp_bind, wp_modify, wp_exit_ret. apply H2. lia.
  - apply wp_bind, wp_modify, wp_exit_ret.
    match goal with |- Q _ ?x => assert (x = s <| g_intrpt_nested_level := wrap 8 (g_intrpt_nested_level s + 1) |>) as -> by done end.
    rewrite wrap_small by lia. apply H1; [lia|]. apply kok_in_isr; [done|lia].
Qed.

(** Behind the counter, leaving an interrupt is what the scheduler does. *)
Lemma intrpt_exit_sched s :
  0 < g_intrpt_nested_level s < 256 ->
  krhino_intrpt_exit s = core_sched (s <| g_intrpt_nested_level := g_intrpt_nested_level s - 1 |>).
Proof.
  intros Hn. rewrite <- (wrap_small 8 (g_intrpt_nested_level s - 1)) by lia.
  unfold krhino_intrpt_exit, core_sched, RHINO_CRITICAL_ENTER, RHINO_CRITICAL_EXIT, gets, modify,
    mbind, K_bind, mret, K_ret. cbn [irq_off].
  rewrite (decide_False (P := _ = 0)); [reflexivity|]. cbn. lia.
Qed.

Lemma wp_intrpt_exit s (Q : unit -> kstate -> Prop) :
  kok s -> active_ok s -> 0 < g_intrpt_nested_level s ->
  (forall s', kok s' -> switched (s <| g_intrpt_nested_level := g_intrpt_nested_level s - 1 |>) s' -> Q tt s') ->
  wp krhino_intrpt_exit Q s.
Proof.
  intros Hok Hact Hn HQ. pose proof (nested_range s Hok). unfold wp. rewrite intrpt_exit_sched by lia.
  pose proof Hok as (Hinv & Hpi & _ & [Hc1 Hc2]).
  apply (wp_core_sched_ok Q (s <| g_intrpt_nested_level := g_intrpt_nested_level s - 1 |>)); try done.
  - split; cbn; [done|lia].
  - intros _ Hl. by apply Hact.
Qed.

(** Interrupts nest up to the configured depth, beyond which entering reports the
    overflow and does not count; the exit of the outermost one runs the first task of the
    highest priority, as the invariant of its result says. *)
Theorem krhino_intrpt_correct (s : kstate) (Hok : kok s) (Hact : active_ok s) :
  wp krhino_intrpt_enter (fun r s' =>
    if decide (g_intrpt_nested_level s = RHINO_CONFIG_INTRPT_MAX_NESTED_LEVEL)
    then r = RHINO_INTRPT_NESTED_LEVEL_OVERFLOW /\ s' = s <| err_log ::= cons RHINO_INTRPT_NESTED_LEVEL_OVERFLOW |>
    else r = RHINO_SUCCESS /\ kok s' /\ s' = s <| g_intrpt_nested_level := g_intrpt_nested_level s + 1 |>) s /\
  (0 < g_intrpt_nested_level s ->
   wp krhino_intrpt_exit (fun _ s' => kok s' /\
     switched (s <| g_intrpt_nested_level := g_intrpt_nested_level s - 1 |>) s') s).
Proof.
  split.
  - apply wp_intrpt_enter; [done|..].
    + intros Hl Hok'. by rewrite decide_False by lia.
    + intros Hl. by rewrite decide_True.
  - intros Hn. by apply wp_intrpt_exit.
Qed.

(** ** The tick interrupt *)

(** a task up to its priority and what is left of its time slice *)
Definition alike (k k' : ktask_t) : Prop := exists p n, k' = k <| prio := p |> <| time_slice := n |>.

Lemma alike_refl k : alike k k.
Proof. exists (prio k), (time_slice k). by destruct k. Qed.

Lemma alike_trans k1 k2 k3 : alike k1 k2 -> alike k2 k3 -> alike k1 k3.
Proof. intros (p & n & ->) (q & m & ->). by exists q, m. Qed.

Definition all_alike (T T' : gmap tid ktask_t) : Prop :=
  forall t, option_Forall2 alike (T !! t) (T' !! t).

Lemma all_alike_refl T : all_alike T T.
Proof. intros t. destruct (T !! t); constructor. apply alike_refl. Qed.

Lemma all_alike_trans T1 T2 T3 : all_alike T1 T2 -> all_alike T2 T3 -> all_alike T1 T3.
Proof.
  intros H1 H2 t. specialize (H2 t). revert H2.
  destruct (H1 t) as [k1 k2 Ha|]; inversion 1; subst; constructor. by eapply alike_trans.
Qed.

Lemma all_alike_lookup T T' t k : all_alike T T' -> T !! t = Some k -> exists k', T' !! t = Some k' /\ alike k k'.
Proof. intros Hal Hk. specialize (Hal t). rewrite Hk in Hal. inversion Hal; subst. eauto. Qed.

Lemma all_alike_lookup_r T T' t k' : all_alike T T' -> T' !! t = Some k' -> exists k, T !! t = Some k /\ alike k k'.
Proof. intros Hal Hk. specialize (Hal t). rewrite Hk in Hal. inversion Hal; subst. eauto. Qed.

Lemma reprio_alike R T T' : reprio R T T' -> all_alike T T'.
Proof.
  intros Hre t. destruct (Hre t) as [He|(k & p & Hk & _ & Hk')].
  - rewrite He. apply all_alike_refl.
  - rewrite Hk, Hk'. constructor. exists p, (time_slice k). by destruct k.
Qed.

Lemma slice_frame s p s' :
  slice_spec s p s' -> exists rq' T', s' = setq s rq' T' (blk_objs s) (g_tick_head s) /\ all_alike (tasks s) T'.
Proof.
  assert (Hupd : forall t k n, tasks s !! t = Some k -> all_alike (tasks s) (<[t := k <| time_slice := n |>]> (tasks s))).
  { intros t k n Hk x. destruct (decide (x = t)) as [->|Hne].
    - rewrite lookup_insert_eq, Hk. constructor. exists (prio k), n. by destruct k.
    - rewrite lookup_insert_ne by done. apply all_alike_refl. }
  assert (Hsame : exists rq' T', s = setq s rq' T' (blk_objs s) (g_tick_head s) /\ all_alike (tasks s) T').
  { exists (g_ready_queue s), (tasks s). rewrite setq_id. split; [done|apply all_alike_refl]. }
  destruct 1 as [| | |t u l k _ Hk _ _|t u l k rq' _ Hk _ _ _]; [done..| |].
  - exists (g_ready_queue s), (<[t := k <| time_slice := time_slice k - 1 |>]> (tasks s)). split; [done|by apply Hupd].
  - exists rq', (<[t := k <| time_slice := time_total k |>]> (tasks s)). split; [done|by apply Hupd].
Qed.

(** What a whole tick interrupt leaves: the timed waits that end, the time slice of the
    running task's priority, and the scheduler. *)
Inductive tick_interpt_spec (s : kstate) (s' : kstate) : Prop :=
| tick_done rq T O L a k s2 :
    let s1 := setq (s <| g_intrpt_nested_level := g_intrpt_nested_level s + 1 |>
                      <| g_tick_count := wrap tick_bits (g_tick_count s + 1) |>
                      <| g_sys_time_tick := wrap tick_bits (g_sys_time_tick s + 1) |>) rq T O L in
    reprio (fun _ _ => True) (tick_wake (g_tick_count s) <$> tasks s) T ->
    g_active_task s = Some a -> T !! a = Some k -> slice_spec s1 (prio k) s2 ->
    switched (s2 <| g_intrpt_nested_level := g_intrpt_nested_level s |>) s' ->
    tick_interpt_spec s s'.

Lemma active_ok_alike s s' :
  active_ok s -> g_sched_lock s' = g_sched_lock s -> g_active_task s' = g_active_task s ->
  all_alike (tasks s) (tasks s') -> active_ok s'.
Proof.
  intros Ha Hl Hg Hal Hlk. destruct (Ha ltac:(lia)) as (a & k & Hact & Hk & Hr).
  destruct (all_alike_lookup _ _ a k Hal Hk) as (k' & Hk' & p & n & ->). exists a, (k <| prio := p |> <| time_slice := n |>).
  by rewrite Hg.
Qed.

(** A task that is ready sees no tick. *)
Lemma active_ok_tick s n T' :
  kinv s -> active_ok s -> reprio (fun _ _ => True) (tick_wake n <$> tasks s) T' ->
  0 < g_sched_lock s -> exists a k, g_active_task s = Some a /\ T' !! a = Some k /\ task_state k = K_RDY.
Proof.
  intros Hinv Ha Hre Hl. destruct (Ha Hl) as (a & k & Hact & Hk & Hr).
  pose proof (tok_tick k (inv_task _ _ _ _ _ _ _ _ _ _ _ _ Hinv a k Hk)) as Htk. rewrite Hr in Htk.
  assert (Hw : (tick_wake n <$> tasks s) !! a = Some k).
  { rewrite lookup_fmap, Hk. cbn. f_equal. unfold tick_wake. rewrite decide_False; [done|].
    intros [? _]. congruence. }
  destruct (all_alike_lookup _ _ a k (reprio_alike _ _ _ Hre) Hw) as (k' & Hk' & p & m & ->). by eauto.
Qed.

Lemma wp_tick_interpt s (Q : unit -> kstate -> Prop) :
  kok s -> active_ok s -> 0 <= g_tick_count s < 2 ^ tick_bits -> near_deadlines (g_tick_count s) (tasks s) ->
  g_intrpt_nested_level s < RHINO_CONFIG_INTRPT_MAX_NESTED_LEVEL ->
  (forall s', kok s' -> tick_interpt_spec s s' -> Q tt s') -> wp tick_interpt Q s.
Proof.
  intros Hok Hact Hnow Hnear Hn HQ. pose proof (nested_range s Hok) as Hr.
  unfold tick_interpt. apply wp_bind, wp_intrpt_enter; [done| |lia]. intros _ Hok1.
  set (s0 := s <| g_intrpt_nested_level := g_intrpt_nested_level s + 1 |>).
  pose proof Hok1 as (Hinv1 & Hpi1 & _ & Hcnt1). apply wp_bind. unfold krhino_tick_proc. apply wp_bind.
  apply (wp_tick s0); try done. intros rq T O L Hsh Hre s1 Hinv2 Hpi2.
  destruct (inv_active _ _ _ _ _ _ _ _ _ _ _ _ Hinv2) as (a & Ha & k & Hk).
  apply wp_bind. eapply wp_active; [exact Ha|]. apply wp_bind. eapply wp_task_get; [exact Hk|].
  apply wp_time_slice; try done.
  { apply tok_prio. by eapply (inv_task _ _ _ _ _ _ _ _ _ _ _ _ Hinv2 a). }
  intros s2 Hinv3 Hpi3 Hsl. destruct (slice_frame _ _ _ Hsl) as (rq3 & T3 & Heq & Hal).
  assert (Hn2 : g_intrpt_nested_level s2 = g_intrpt_nested_level s + 1) by by rewrite Heq.
  apply wp_intrpt_exit.
  - apply kok_intro; try done.
    + intros Hz. lia.
    + rewrite Heq. exact Hcnt1.
  - apply (active_ok_alike s1); [|by rewrite Heq..].
    intros Hl. by apply (active_ok_tick s0 (g_tick_count s) T).
  - lia.
  - rewrite Hn2. replace (g_intrpt_nested_level s + 1 - 1) with (g_intrpt_nested_level s) by lia.
    intros s' Hok' Hsw. apply HQ; [done|]. by apply (tick_done s s' rq T O L a k s2).
Qed.

(** C12: the tick interrupt as a whole, from any state in which the scheduler may be locked
    or interrupts nest: it ends without undefined behaviour and keeps the invariant of the
    kernel, so in particular priority inheritance still holds and, when it interrupted a
    task, the task that runs afterwards is the first of the highest priority. *)
Theorem tick_interpt_correct (s : kstate)
    (Hok : kok s) (Hact : active_ok s) (Hnow : 0 <= g_tick_count s < 2 ^ tick_bits)
    (Hnear : near_deadlines (g_tick_count s) (tasks s))
    (Hn : g_intrpt_nested_level s < RHINO_CONFIG_INTRPT_MAX_NESTED_LEVEL) :
  wp tick_interpt (fun _ s' => kok s' /\ tick_interpt_spec s s') s.
Proof. by apply wp_tick_interpt. Qed.

(** ** Timed waits end *)

Definition is_suspend_state (st : task_stat_t) : bool :=
  match st with K_SUSPENDED | K_SLEEP_SUSPENDED | K_PEND_SUSPENDED => true | _ => false end.

Fixpoint ticks (n : nat) : K unit :=
  match n with O => mret tt | S n => tick_interpt;; ticks n end.

(** what [n] ticks from [now] on make of a task *)
Definition after (n now : Z) (k : ktask_t) : ktask_t :=
  if decide (tick_head k = true /\ wrap tick_bits (tick_match k - now) <= n) then expired_task k else k.

Lemma expired_alike k k' : alike k k' -> alike (expired_task k) (expired_task k').
Proof.
  intros (p & n & ->). exists p, n. unfold expired_task. cbn. by destruct (task_state k).
Qed.

Lemma after_alike n now k k' : alike k k' -> alike (after n now k) (after n now k').
Proof.
  intros Ha. pose proof Ha as (p & m & ->). unfold after. cbn. case_decide; [by apply expired_alike|done].
Qed.

Lemma expired_head k : tick_head (expired_task k) = false.
Proof. unfold expired_task. cbn. by destruct (task_state k). Qed.

(** one tick less to go *)
Lemma rem_next m now r :
  wrap tick_bits (m - now) = r -> 1 <= r -> wrap tick_bits (m - wrap tick_bits (now + 1)) = r - 1.
Proof.
  intros Hr H1. pose proof tick_bits_pos as Hbits.
  assert (Hb : 0 <= wrap tick_bits (m - now) < 2 ^ tick_bits) by (apply wrap_range; lia).
  rewrite Hr in Hb. unfold wrap in *. rewrite Zminus_mod_idemp_r. replace (m - (now + 1)) with ((m - now) - 1) by ring.
  rewrite <- Zminus_mod_idemp_l, Hr. apply Z.mod_small. lia.
Qed.

Lemma after_step (n : nat) now k :
  (tick_head k = true -> 1 <= wrap tick_bits (tick_match k - now)) ->
  after (Z.of_nat n) (wrap tick_bits (now + 1)) (tick_wake now k) = after (Z.of_nat (S n)) now k.
Proof.
  intros Hpos. unfold tick_wake. destruct (decide (due now k)) as [[Hh H1]|Hd].
  - unfold after. rewrite decide_False by (rewrite expired_head; by intros [? _]).
    by rewrite decide_True by (split; [done|lia]).
  - unfold after. destruct (decide (tick_head k = true)) as [Hh|Hh].
    + specialize (Hpos Hh). assert (wrap tick_bits (tick_match k - now) <> 1) by (intros H1; by apply Hd).
      rewrite (rem_next _ _ _ eq_refl Hpos).
      destruct (decide (wrap tick_bits (tick_match k - now) <= Z.of_nat (S n))).
      * by rewrite !decide_True by (split; [done|lia]).
      * by rewrite !decide_False by (intros [_ ?]; lia).
    + by rewrite !decide_False by (intros [? _]; done).
Qed.

Lemma tick_spec_frame s s' :
  tick_interpt_spec s s' ->
  g_tick_count s' = wrap tick_bits (g_tick_count s + 1) /\
  g_intrpt_nested_level s' = g_intrpt_nested_level s /\
  all_alike (tick_wake (g_tick_count s) <$> tasks s) (tasks s').
Proof.
  intros [rq T O L a k s2 s1 Hre Ha Hk Hsl (p & x & ->)].
  destruct (slice_frame _ _ _ Hsl) as (rq3 & T3 & -> & Hal). split; [done|]. split; [done|].
  by eapply all_alike_trans; [eapply reprio_alike|].
Qed.

Lemma near_next n T T' :
  near_deadlines n T ->
  (forall t k, T !! t = Some k -> tick_head k = true -> 1 <= wrap tick_bits (tick_match k - n)) ->
  all_alike (tick_wake n <$> T) T' -> near_deadlines (wrap tick_bits (n + 1)) T'.
Proof.
  intros Hnear Hpos Hal t k' Hk' Hh.
  destruct (all_alike_lookup_r _ _ t k' Hal Hk') as (k1 & Hk1 & p & m & ->). cbn in *.
  rewrite lookup_fmap_Some in Hk1. destruct Hk1 as (k & <- & Hk). unfold tick_wake in *. case_decide as Hd.
  - by rewrite expired_head in Hh.
  - rewrite (rem_next _ _ _ eq_refl) by by eapply Hpos. specialize (Hnear t k Hk Hh). lia.
Qed.

Lemma deadline_ahead s t k :
  kinv s -> tasks s !! t = Some k -> tick_head k = true -> 1 <= wrap tick_bits (tick_match k - g_tick_count s).
Proof.
  intros Hinv Hk Hh. pose proof (inv_tick _ _ _ _ _ _ _ _ _ _ _ _ Hinv) as [_ Hmem _ Hpos].
  specialize (Hpos t). unfold rem in Hpos. rewrite Hk in Hpos. apply Hpos, Hmem. eauto.
Qed.

Lemma wp_ticks n s t k :
  kok s -> g_intrpt_nested_level s = 0 -> 0 <= g_tick_count s < 2 ^ tick_bits ->
  near_deadlines (g_tick_count s) (tasks s) -> tasks s !! t = Some k ->
  wp (ticks n) (fun _ s' => kok s' /\ exists k', tasks s' !! t = Some k' /\
    alike (after (Z.of_nat n) (g_tick_count s) k) k') s.
Proof.
  revert s k. induction n as [|n IH]; intros s k Hok Hn Hnow Hnear Hk; cbn [ticks]; pose proof Hok as (Hinv & _ & Hs & _).
  - apply wp_ret. split; [done|]. exists k. split; [done|]. unfold after. case_decide as Hd; [|apply alike_refl].
    destruct Hd as [Hh Hle]. pose proof (deadline_ahead s t k Hinv Hk Hh). lia.
  - pose proof (fun u ku => deadline_ahead s u ku Hinv) as Hpos.
    pose proof cfg_nested. pose proof tick_bits_pos as Hbits.
    apply wp_bind, wp_tick_interpt; try done; [|lia|].
    { intros _. destruct (Hs Hn) as (a & ka & ? & ? & ? & _). eauto. }
    intros s' Hok' Hsp. destruct (tick_spec_frame s s' Hsp) as (Hc' & Hn' & Hal).
    destruct (all_alike_lookup _ _ t (tick_wake (g_tick_count s) k) Hal) as (k1 & Hk1 & Ha1); [by rewrite lookup_fmap, Hk|].
    eapply wp_mono; [apply (IH s' k1); try done|].
    + lia.
    + rewrite Hc'. apply wrap_range. lia.
    + rewrite Hc'. by eapply near_next.
    + cbv beta. intros _ s2 (Hok2 & k2 & Hk2 & Ha2). split; [done|]. exists k2. split; [done|].
      rewrite Hc' in Ha2. rewrite <- after_step by by eapply Hpos.
      eapply alike_trans; [by apply after_alike|done].
Qed.

(** C11: a timed wait ends exactly at its deadline: after [n] tick interrupts a task that
    sleeps or waits until the tick [tick_match] still does, unchanged, as long as the
    deadline is more than [n] ticks away, and from its deadline on it is ready, with the
    outcome "finished" for a sleep and "timed out" for a wait; a suspended one falls back to
    being suspended.  Only its priority and what is left of its time slice may differ. *)
Theorem timed_wait_ends (s : kstate) (t : tid) (k : ktask_t) (n : nat)
    (Hok : kok s) (Hn : g_intrpt_nested_level s = 0) (Hnow : 0 <= g_tick_count s < 2 ^ tick_bits)
    (Hnear : near_deadlines (g_tick_count s) (tasks s)) (Hk : tasks s !! t = Some k) (Hh : tick_head k = true) :
  wp (ticks n) (fun _ s' => kok s' /\ exists k', tasks s' !! t = Some k' /\
    if decide (wrap tick_bits (tick_match k - g_tick_count s) <= Z.of_nat n)
    then alike (expired_task k) k' /\ task_state k' = (if is_suspend_state (task_state k) then K_SUSPENDED else K_RDY)
    else alike k k' /\ task_state k' = task_state k) s.
Proof.
  eapply wp_mono; [by apply (wp_ticks n s t k)|]. cbv beta. intros _ s' (Hok' & k' & Hk' & Ha).
  split; [done|]. exists k'. split; [done|]. unfold after in Ha. rewrite Hh in Ha.
  pose proof (inv_task _ _ _ _ _ _ _ _ _ _ _ _ (proj1 Hok) t k Hk) as [].
  destruct (decide (wrap tick_bits (tick_match k - g_tick_count s) <= Z.of_nat n)).
  - rewrite decide_True in Ha by done. split; [done|]. destruct Ha as (p & m & ->). cbn.
    unfold expired_task. cbn. rewrite Hh in tok_tick. by destruct (task_state k).
  - rewrite decide_False in Ha by naive_solver. split; [done|]. by destruct Ha as (p & m & ->).
Qed.

End facts.

(** ** Witnesses *)

#[local] Existing Instance linuxhost.

Lemma demo_near : near_deadlines (g_tick_count demo) (tasks demo).
Proof.
  intros t k Hk Hh. cbn in Hk. task_cases Hk; cbn in Hh; try discriminate Hh; vm_compute; discriminate.
Qed.

Lemma demo_active_ok : active_ok demo.
Proof. intros _. eexists 2%positive, _. repeat split. Qed.


Lemma tick_interpt_correct_witness :
  wp tick_interpt (fun _ s' => kok s' /\ tick_interpt_spec demo s') demo.
Proof.
  apply (tick_interpt_correct demo demo_ok demo_active_ok); [vm_compute; split; [discriminate|reflexivity]|
    apply demo_near|reflexivity].
Defined.

(** The task 5 sleeps until tick 107. *)
Lemma timed_wait_ends_witness :
  wp (ticks 7) (fun _ s' => kok s' /\ exists k', tasks s' !! 5%positive = Some k' /\
    if decide (wrap tick_bits (tick_match (demo_k 5%positive) - g_tick_count demo) <= Z.of_nat 7)
    then alike (expired_task (demo_k 5%positive)) k' /\
      task_state k' = (if is_suspend_state (task_state (demo_k 5%positive)) then K_SUSPENDED else K_RDY)
    else alike (demo_k 5%positive) k' /\ task_state k' = task_state (demo_k 5%positive)) demo.
Proof.
  apply (timed_wait_ends demo 5%positive (demo_k 5%positive) 7 demo_ok);
    [reflexivity|vm_compute; split; [discriminate|reflexivity]|apply demo_near|reflexivity|reflexivity].
Defined.

End SysFacts.
