(* ===== verification/Safety.v ===== *)
(** * The kernel as a whole

    The calls of the tasks and the tick interrupt, in any order, as one step relation: the
    invariant of the kernel holds in every reachable state, and no call runs into undefined
    behaviour or fails to return. *)
From S2P Require Import Prelude Config Kernel Sched TickList Pend Inv Demo Prio Own Sem Mutex Event Queue ObjSet Task TaskFacts Create Tick Time Sys SysFacts.
Import Sched TickList Pend Sem Mutex Event Queue ObjSet Task TaskFacts Create Tick Time Sys SysFacts.

Module Safety.
Section safety.
Context {cfg : RhinoConfig} {port : Port}.

(** the calls of the running task, and the tick interrupt *)
Inductive call :=
| SemTake (o : oid) (ticks : Z)
| SemGive (o : oid)
| SemGiveAll (o : oid)
| MutexLock (o : oid) (ticks : Z)
| MutexUnlock (o : oid)
| EventGet (o : oid) (fl opt : Z) (p : addr) (ticks : Z)
| EventSet (o : oid) (fl opt : Z)
| QueueSend (o : oid) (m : Z)
| QueueRecv (o : oid) (ticks : Z) (p : addr)
| TaskCreate (t : tid) (name : addr) (arg prio ticks : Z) (stk : addr) (size : Z) (entry : addr) (autorun : Z)
| TaskSuspend (t : tid)
| TaskResume (t : tid)
| TaskWaitAbort (t : tid)
| TaskPriChange (t : tid) (pri : Z) (p : addr)
| TaskSleep (n : Z)
| TaskYield
| SchedDisable
| SchedEnable
| TickInterrupt.

Definition ignore {A} (m : K A) : K unit := _ ← m; mret tt.

Definition run (c : call) : K unit :=
  match c with
  | SemTake o n => ignore (krhino_sem_take (Some o) n)
  | SemGive o => ignore (krhino_sem_give kobj_notify (Some o))
  | SemGiveAll o => ignore (krhino_sem_give_all kobj_notify (Some o))
  | MutexLock o n => ignore (krhino_mutex_lock (Some o) n)
  | MutexUnlock o => ignore (krhino_mutex_unlock (Some o))
  | EventGet o fl opt p n => ignore (krhino_event_get (Some o) fl opt (Some p) n)
  | EventSet o fl opt => ignore (krhino_event_set (Some o) fl opt)
  | QueueSend o m => ignore (krhino_queue_back_send kobj_notify (Some o) m)
  | QueueRecv o n p => ignore (krhino_queue_recv (Some o) n (Some p))
  | TaskCreate t name arg prio ticks stk size entry autorun => ignore
      (krhino_task_create (Some t) (Some name) arg prio ticks (Some stk) size (Some entry) autorun)
  | TaskSuspend t => ignore (krhino_task_suspend (Some t))
  | TaskResume t => ignore (krhino_task_resume (Some t))
  | TaskWaitAbort t => ignore (krhino_task_wait_abort (Some t))
  | TaskPriChange t pri p => ignore (krhino_task_pri_change (Some t) pri (Some p))
  | TaskSleep n => ignore (krhino_task_sleep n)
  | TaskYield => ignore krhino_task_yield
  | SchedDisable => ignore krhino_sched_disable
  | SchedEnable => ignore krhino_sched_enable
  | TickInterrupt => ignore tick_interpt
  end.

Definition known (s : kstate) (o : oid) : Prop := is_Some (blk_objs s !! o).
Definition known_task (s : kstate) (t : tid) : Prop := is_Some (tasks s !! t).

(** a wait the running task may ask for *)
Definition may_wait (s : kstate) (ticks : Z) : Prop :=
  0 <= ticks <= RHINO_WAIT_FOREVER /\ g_active_task s <> Some (g_idle_task s).

(** What the kernel asks of its callers: objects and tasks it knows, arguments in range, no
    blocking call of the idle task.  The tick comes when no interrupt is served. *)
Definition ready (c : call) (s : kstate) : Prop :=
  match c with
  | SemTake o n | MutexLock o n | EventGet o _ _ _ n => known s o /\ may_wait s n
  | SemGive o | SemGiveAll o => known s o /\ sets_ok s
  | MutexUnlock o => known s o
  | EventSet o fl _ => known s o /\ 0 <= fl < 2 ^ 32 /\ event_waiters s o
  | QueueSend o m => known s o /\ sets_ok s /\ 0 <= m < 2 ^ size_bits /\
      exists q ms, queues s !! o = Some q /\ queue_holds q ms
  | QueueRecv o n _ => known s o /\ may_wait s n /\ exists q ms, queues s !! o = Some q /\ queue_holds q ms
  | TaskCreate t _ _ prio _ stk size _ _ => g_sys_stat s = RHINO_RUNNING /\ unused_task s t /\ 0 <= prio /\
      exists m, ubufs s !! stk = Some m /\ (Z.to_nat size <= length m)%nat
  | TaskSuspend t | TaskResume t | TaskWaitAbort t => known_task s t
  | TaskPriChange t pri _ => known_task s t /\ 0 <= pri
  | TaskSleep n => 0 <= n < 2 ^ tick_bits /\ g_active_task s <> Some (g_idle_task s)
  | TaskYield => g_intrpt_nested_level s = 0
  | SchedDisable | SchedEnable => True
  | TickInterrupt => g_intrpt_nested_level s = 0 /\ 0 <= g_tick_count s < 2 ^ tick_bits /\
      near_deadlines (g_tick_count s) (tasks s)
  end.

Definition step (s s' : kstate) : Prop := exists c, ready c s /\ run c s = Some (tt, s').

(** any outcome of a call that keeps the invariant *)
Lemma wp_ignore {A} (m : K A) (Q : A -> kstate -> Prop) s :
  wp m (fun r s' => kok s' /\ Q r s') s -> wp (ignore m) (fun _ s' => kok s') s.
Proof. intros H. apply wp_bind. eapply wp_mono; [exact H|]. intros r s' [Hok _]. by apply wp_ret. Qed.

Lemma sem_given_sets s o s0 : sets_ok s -> sem_given s o s0 -> sets_ok s0 /\ blk_objs s0 = blk_objs s.
Proof. intros Hs (sm & ->). split; [|done]. by apply (sets_ok_same s). Qed.

Lemma queue_sent_sets s o q s0 : sets_ok s -> queue_sent s o q s0 -> sets_ok s0 /\ blk_objs s0 = blk_objs s.
Proof. intros Hs (q' & ms' & -> & Hms & _). split; [|done]. by eapply sets_ok_store. Qed.

(** each call keeps the invariant *)
Lemma wp_call c s : kok s -> ready c s -> wp (run c) (fun _ s' => kok s') s.
Proof.
  intros Hok Hr. destruct c; cbn [run ready] in *.
  - destruct Hr as ([b Hb] & Ht & Hi). eapply wp_ignore. by eapply wp_sem_take.
  - destruct Hr as ([b Hb] & Hs). eapply wp_ignore, wp_sem_give; [done..|].
    apply (kobj_notify_ok s); [done|]. intros s0. by apply sem_given_sets.
  - destruct Hr as ([b Hb] & Hs). eapply wp_ignore, wp_sem_give; [done..|].
    apply (kobj_notify_ok s); [done|]. intros s0. by apply sem_given_sets.
  - destruct Hr as ([b Hb] & Ht & Hi). eapply wp_ignore. by eapply wp_mutex_lock.
  - destruct Hr as [b Hb]. eapply wp_ignore. by eapply wp_mutex_unlock.
  - destruct Hr as ([b Hb] & Ht & Hi). eapply wp_ignore. by eapply wp_krhino_event_get.
  - destruct Hr as ([b Hb] & Hfl & Hw). eapply wp_ignore. by eapply wp_krhino_event_set.
  - destruct Hr as ([b Hb] & Hs & Hm & q & ms & Hq & Hh). eapply wp_ignore, (wp_msg_send _ s o b q); try done.
    apply (kobj_notify_ok s); [done|]. intros s0. by apply queue_sent_sets.
  - destruct Hr as ([b Hb] & [Ht Hi] & q & ms & Hq & Hh). eapply wp_ignore. by eapply wp_queue_recv.
  - destruct Hr as (Hrun & Hun & Hp & m & Hm & Hsz). eapply wp_ignore. by eapply wp_krhino_task_create.
  - destruct Hr as [k Hk]. eapply wp_ignore. by eapply wp_suspend.
  - destruct Hr as [k Hk]. eapply wp_ignore. by eapply wp_task_resume.
  - destruct Hr as [k Hk]. eapply wp_ignore. by eapply wp_wait_abort.
  - destruct Hr as [[k Hk] Hp]. eapply wp_ignore. by eapply wp_pri_change.
  - destruct Hr as [Hn Hi]. eapply wp_ignore. by eapply wp_task_sleep.
  - eapply wp_ignore. by eapply wp_task_yield.
  - eapply wp_ignore. by apply wp_sched_lock.
  - eapply wp_ignore. by apply wp_sched_lock.
  - destruct Hr as (Hn & Hc & Hd). apply (wp_ignore _ (fun _ s1 => tick_interpt_spec s s1)), wp_tick_interpt; try done.
    + intros _. destruct (proj1 (proj2 (proj2 Hok)) Hn) as (a & k & Ha & Hk & Hst & _). by exists a, k.
    + rewrite Hn. apply cfg_nested.
Qed.


End safety.

#[local] Existing Instance linuxhost.
#[local] Existing Instance flat_port.

(** the state after a call that returns *)
Definition after_call (c : call) (s : kstate) : kstate := default s (snd <$> run c s).

Lemma after_call_step c s : ready c s -> is_Some (run c s) -> step s (after_call c s).
Proof. intros Hr [[[] s'] Hs]. exists c. split; [done|]. unfold after_call. by rewrite Hs. Qed.


End Safety.
