(* ===== verification/Aos.v ===== *)
(** * The calls of AliOS Things over the kernel ([kernel/vcall/aos/aos_rhino.c], [errno_mapping.h])

    A handle of an application is a word that holds the address of an object of the kernel;
    [hdl] reads it.  The calls that make an object take the block [aos_malloc] returned as an
    argument, like those of the kernel that allocate.  A call that may block ends with
    [Waiting] when its task loses the processor; its rest is a definition of its own. *)
From S2P Require Import Prelude Config Errno Kernel Sched TickList Pend Inv Prio Tick Time Sem Mutex Event Queue BufQueue Task Timer Workqueue Heap Sys.
Import Errno Sched TickList Pend Prio Tick Time Sem Mutex Event BufQueue Task Timer Workqueue Heap Sys.

Module Aos.

Definition AOS_WAIT_FOREVER : Z := 0xffffffff.
Definition AOS_NO_WAIT : Z := 0.
Definition AOS_DEFAULT_APP_PRI : Z := 32.
Definition sizeof_cpu_stack_t : Z := 4.

(** ** Answers *)

Definition ERRNO_MAPPING (ret : kstat_t) : Z :=
  match ret with
  | RHINO_SYS_SP_ERR | RHINO_NULL_PTR | RHINO_MM_FREE_ADDR_ERR => - EFAULT
  | RHINO_INV_PARAM | RHINO_INV_ALIGN | RHINO_KOBJ_TYPE_ERR | RHINO_MM_POOL_SIZE_ERR | RHINO_MM_ALLOC_SIZE_ERR
  | RHINO_INV_SCHED_WAY | RHINO_TASK_INV_STACK_SIZE | RHINO_BEYOND_MAX_PRI | RHINO_BUF_QUEUE_INV_SIZE
  | RHINO_BUF_QUEUE_SIZE_ZERO | RHINO_BUF_QUEUE_MSG_SIZE_OVERFLOW | RHINO_QUEUE_FULL | RHINO_QUEUE_NOT_FULL
  | RHINO_SEM_OVF | RHINO_WORKQUEUE_EXIST | RHINO_WORKQUEUE_NOT_EXIST | RHINO_WORKQUEUE_WORK_EXIST => - EINVAL
  | RHINO_KOBJ_BLK => - EAGAIN
  | RHINO_NO_MEM => - ENOMEM
  | RHINO_KOBJ_DEL_ERR | RHINO_SCHED_DISABLE | RHINO_SCHED_ALREADY_ENABLED | RHINO_SCHED_LOCK_COUNT_OVF
  | RHINO_TASK_NOT_SUSPENDED | RHINO_TASK_DEL_NOT_ALLOWED | RHINO_TASK_SUSPEND_NOT_ALLOWED | RHINO_SUSPENDED_COUNT_OVF
  | RHINO_PRI_CHG_NOT_ALLOWED | RHINO_NOT_CALLED_BY_INTRPT | RHINO_NO_THIS_EVENT_OPT | RHINO_TIMER_STATE_INV
  | RHINO_BUF_QUEUE_FULL | RHINO_SEM_TASK_WAITING | RHINO_MUTEX_NOT_RELEASED_BY_OWNER | RHINO_WORKQUEUE_WORK_RUNNING => - EPERM
  | RHINO_TRY_AGAIN | RHINO_WORKQUEUE_BUSY => - EAGAIN
  | _ => -1
  end.

(** the end most calls share *)
Definition answer (ret : kstat_t) : Z := if decide (ret = RHINO_SUCCESS) then 0 else ERRNO_MAPPING ret.

Inductive aret := Answer (r : Z) | Waiting.

Definition aret_of (r : kret) : aret := match r with Ret st => Answer (answer st) | Pending => Waiting end.

(** A nested lock and unlock are answered like the first lock and the last unlock. *)
Definition nested_ok (ret : kstat_t) : kstat_t := if decide (ret = RHINO_MUTEX_OWNER_NESTED) then RHINO_SUCCESS else ret.

(** ** The keys of the words a task has for itself *)

(** [1 << i] and the variable [used_bitmap] are 32 bits wide. *)
Definition key_bit (i : Z) : Z := wrap 32 (Z.shiftl 1 i).

Fixpoint key_loop (n : nat) (used_bitmap : Z) : option Z :=
  match n with
  | O => None
  | S n => if decide (Z.land (key_bit (Z.of_nat n)) used_bitmap = 0) then Some (Z.of_nat n) else key_loop n used_bitmap
  end.

Section aos.
Context {cfg : RhinoConfig} `{!Port} (notify : oid -> sid -> K unit).

(** the answer, [\*key] and [used_bitmap] *)
Definition aos_task_key_create (used_bitmap : Z) : Z * option Z * Z :=
  match key_loop (Z.to_nat RHINO_CONFIG_TASK_INFO_NUM) used_bitmap with
  | Some i => (0, Some i, Z.lor used_bitmap (key_bit i))
  | None => (- EINVAL, None, used_bitmap)
  end.

Definition aos_task_key_delete (key used_bitmap : Z) : Z :=
  if decide (RHINO_CONFIG_TASK_INFO_NUM <= key) then used_bitmap else Z.land used_bitmap (Z.lnot (key_bit key)).

Definition MS2TICK (ms : Z) : Z := krhino_ms_to_ticks (wrap tick_bits ms).

(** [timeout] as the calls of mutexes, semaphores and events take it *)
Definition timeout_ticks (timeout : Z) : Z :=
  if decide (timeout = AOS_WAIT_FOREVER) then RHINO_WAIT_FOREVER else MS2TICK timeout.

(** a word at an address of the caller, and the handle it is *)
Definition load (p : addr) : K Z := fun s => match umem s !! p with Some v => Some (v, s) | None => None end.
Definition hdl (p : addr) : K (option positive) := v ← load p; mret (match v with Zpos o => Some o | _ => None end).

Definition aos_free_block (mem : option addr) : K unit :=
  match mem with None => mret tt | Some p => Kernel.krhino_mm_free p end.

(** the rest of a call that blocked on a mutex, a semaphore or an event *)
Definition aos_resume : K Z := ret ← pend_resume; mret (answer (nested_ok ret)).

(** ** Tasks *)

Definition aos_get_hz : Z := RHINO_CONFIG_TICKS_PER_SECOND.

Definition stack_words (stack_size : Z) : Z := wrap size_bits stack_size / sizeof_cpu_stack_t.

Definition aos_task_new_ext (task name fn : option addr) (arg stack_size prio : Z) (stack_alloc : option addr)
    (alloc : option tid) : K Z :=
  answer <$> krhino_task_dyn_create task name arg (wrap 8 prio) 0 (stack_words stack_size) fn 1 stack_alloc alloc.

(** [task_handle] is the address of the local variable. *)
Definition aos_task_new (task_handle : addr) (name fn : option addr) (arg stack_size : Z) (stack_alloc : option addr)
    (alloc : option tid) : K Z :=
  store task_handle 0;;
  answer <$> krhino_task_dyn_create (Some task_handle) name arg AOS_DEFAULT_APP_PRI 0 (stack_words stack_size) fn 1
    stack_alloc alloc.

Definition aos_task_exit (code : Z) : K unit := _ ← krhino_task_dyn_del notify None; mret tt.

Definition aos_task_setspecific (key vp : Z) : K Z :=
  t ← krhino_cur_task_get;
  answer <$> krhino_task_info_set t key vp.

(** [vp] is the address of the local variable. *)
Definition aos_task_getspecific (vp : addr) (key : Z) : K Z :=
  store vp 0;;
  t ← krhino_cur_task_get;
  _ ← krhino_task_info_get t key (Some vp);
  load vp.

Definition aos_msleep (ms : Z) : K kret := krhino_task_sleep (MS2TICK ms).

(** ** Mutexes *)

Context (AOS : addr).                (* the string *)

Definition aos_mutex_new (mutex : option addr) (alloc : option oid) : K Z :=
  match mutex with
  | None => mret (- EINVAL)
  | Some p =>
      match alloc with
      | None => mret (- ENOMEM)
      | Some m =>
          ret ← krhino_mutex_create (Some m) (Some AOS);
          if decide (ret <> RHINO_SUCCESS) then aos_free_block (Some m);; mret (ERRNO_MAPPING ret) else
          store p (Zpos m);; mret 0
      end
  end.

Definition aos_mutex_free (mutex : option addr) : K unit :=
  match mutex with
  | None => mret tt
  | Some p => h ← hdl p; _ ← krhino_mutex_del h; aos_free_block h;; store p 0
  end.

Definition aos_mutex_lock (mutex : option addr) (timeout : Z) : K aret :=
  match mutex with
  | None => mret (Answer (- EINVAL))
  | Some p =>
      h ← hdl p;
      ret ← krhino_mutex_lock h (timeout_ticks timeout);
      mret (match ret with Ret st => Answer (answer (nested_ok st)) | Pending => Waiting end)
  end.

Definition aos_mutex_unlock (mutex : option addr) : K Z :=
  match mutex with
  | None => mret (- EINVAL)
  | Some p => h ← hdl p; ret ← krhino_mutex_unlock h; mret (answer (nested_ok ret))
  end.

Definition aos_mutex_is_valid (mutex : option addr) : K bool :=
  match mutex with
  | None => mret false
  | Some p => h ← hdl p; ret ← krhino_mutex_is_valid h; mret (bool_decide (ret = RHINO_SUCCESS))
  end.

(** ** Semaphores *)

Definition aos_sem_new (sem : option addr) (count : Z) (alloc : option oid) : K Z :=
  match sem with
  | None => mret (- EINVAL)
  | Some p =>
      match alloc with
      | None => mret (- ENOMEM)
      | Some s =>
          ret ← krhino_sem_create (Some s) (Some AOS) (wrap 32 count);
          if decide (ret <> RHINO_SUCCESS) then aos_free_block (Some s);; mret (ERRNO_MAPPING ret) else
          store p (Zpos s);; mret 0
      end
  end.

Definition aos_sem_free (sem : option addr) : K unit :=
  match sem with
  | None => mret tt
  | Some p => h ← hdl p; _ ← krhino_sem_del h; aos_free_block h;; store p 0
  end.

Definition aos_sem_wait (sem : option addr) (timeout : Z) : K aret :=
  match sem with
  | None => mret (Answer (- EINVAL))
  | Some p => h ← hdl p; aret_of <$> krhino_sem_take h (timeout_ticks timeout)
  end.

Definition aos_sem_signal (sem : option addr) : K unit :=
  match sem with
  | None => mret tt
  | Some p => h ← hdl p; _ ← krhino_sem_give notify h; mret tt
  end.

Definition aos_sem_is_valid (sem : option addr) : K bool :=
  match sem with
  | None => mret false
  | Some p => h ← hdl p; ret ← krhino_sem_is_valid h; mret (bool_decide (ret = RHINO_SUCCESS))
  end.

Definition aos_sem_signal_all (sem : option addr) : K unit :=
  match sem with
  | None => mret tt
  | Some p => h ← hdl p; _ ← krhino_sem_give_all notify h; mret tt
  end.

(** ** Events *)

Definition aos_event_new (event : option addr) (flags : Z) (alloc : option oid) : K Z :=
  answer <$> krhino_event_dyn_create event (Some AOS) flags alloc.

Definition aos_event_free (event : option addr) : K unit :=
  match event with
  | None => mret tt
  | Some p => h ← hdl p; _ ← krhino_event_dyn_del h; store p 0
  end.

Definition aos_event_get (event : option addr) (flags opt : Z) (actl_flags : option addr) (timeout : Z) : K aret :=
  match event with
  | None => mret (Answer (- EINVAL))
  | Some p => h ← hdl p; aret_of <$> krhino_event_get h flags opt actl_flags (timeout_ticks timeout)
  end.

Definition aos_event_set (event : option addr) (flags opt : Z) : K Z :=
  match event with
  | None => mret (- EINVAL)
  | Some p => h ← hdl p; answer <$> krhino_event_set h flags opt
  end.

(** ** Queues *)

Definition aos_queue_new (queue buf : option addr) (size max_msg : Z) (alloc : option oid) : K Z :=
  match queue, buf with
  | Some p, Some buf =>
      match alloc with
      | None => mret (- ENOMEM)
      | Some q =>
          ret ← krhino_buf_queue_create (Some q) (Some AOS) (Some buf) size (wrap size_bits max_msg);
          if decide (ret <> RHINO_SUCCESS) then aos_free_block (Some q);; mret (ERRNO_MAPPING ret) else
          store p (Zpos q);; mret 0
      end
  | _, _ => mret (- EINVAL)
  end.

Definition aos_queue_free (queue : option addr) : K unit :=
  match queue with
  | None => mret tt
  | Some p => h ← hdl p; _ ← krhino_buf_queue_del h; aos_free_block h;; store p 0
  end.

Definition aos_queue_send (queue msg : option addr) (size : Z) : K Z :=
  match queue, msg with
  | Some p, Some msg => h ← hdl p; answer <$> krhino_buf_queue_send notify h (Some msg) size
  | _, _ => mret (- EINVAL)
  end.

(** No case for [AOS_WAIT_FOREVER]. *)
Definition aos_queue_recv (queue : option addr) (ms : Z) (msg size : option addr) : K aret :=
  match queue with
  | None => mret (Answer (- EINVAL))
  | Some p => h ← hdl p; aret_of <$> krhino_buf_queue_recv h (MS2TICK ms) msg size
  end.

(** the rest of a receive that blocked *)
Definition aos_queue_recv_resume (size : addr) : K Z := answer <$> buf_queue_recv_resume size.

Definition aos_queue_is_valid (queue : option addr) : K bool :=
  match queue with
  | None => mret false
  | Some p => h ← hdl p; ret ← krhino_buf_queue_is_valid h; mret (bool_decide (ret = RHINO_SUCCESS))
  end.

(** ** Timers *)

Definition aos_timer_new_ext (timer : option addr) (fn : option addr) (arg ms repeated auto_run : Z) (alloc : option addr) : K Z :=
  match timer with
  | None => mret (- EINVAL)
  | Some p =>
      answer <$> krhino_timer_dyn_create notify (Some p) (Some AOS) fn (MS2TICK ms)
        (if decide (repeated = 0) then 0 else MS2TICK ms) arg auto_run alloc
  end.

Definition aos_timer_new (timer : option addr) (fn : option addr) (arg ms repeated : Z) (alloc : option addr) : K Z :=
  aos_timer_new_ext timer fn arg ms repeated 1 alloc.

Definition aos_timer_free (timer : option addr) : K unit :=
  match timer with
  | None => mret tt
  | Some p => h ← hdl p; _ ← krhino_timer_dyn_del notify h; store p 0
  end.

Definition aos_timer_start (timer : option addr) : K Z :=
  match timer with None => mret (- EINVAL) | Some p => h ← hdl p; answer <$> krhino_timer_start notify h end.

Definition aos_timer_stop (timer : option addr) : K Z :=
  match timer with None => mret (- EINVAL) | Some p => h ← hdl p; answer <$> krhino_timer_stop notify h end.

Definition aos_timer_change (timer : option addr) (ms : Z) : K Z :=
  match timer with
  | None => mret (- EINVAL)
  | Some p => h ← hdl p; answer <$> krhino_timer_change notify h (MS2TICK ms) (MS2TICK ms)
  end.

(** ** Work queues *)

(** [stk_field] is the address of the member [stk]; [sem], [wk] and [entry] come with the
    address of the queue. *)
Definition aos_workqueue_create (workqueue : option addr) (stk_field : addr) (pri stack_size : Z)
    (stk_alloc alloc : option addr) (sem : oid) (wk : tid) (entry : addr) : K Z :=
  match workqueue with
  | None => mret (- EINVAL)
  | Some p =>
      if decide (wrap size_bits stack_size < sizeof_cpu_stack_t) then mret (- EINVAL) else
      match stk_alloc with
      | None => mret (- ENOMEM)
      | Some stk =>
          match alloc with
          | None => aos_free_block (Some stk);; mret (- ENOMEM)
          | Some wq =>
              ret ← krhino_workqueue_create (Some wq) sem wk entry (Some AOS) (wrap 8 pri) (Some stk) (stack_words stack_size);
              if decide (ret <> RHINO_SUCCESS) then
                aos_free_block (Some wq);; aos_free_block (Some stk);; mret (ERRNO_MAPPING ret)
              else store p (Zpos wq);; store stk_field (Zpos stk);; mret 0
          end
      end
  end.

(** One turn of the loop: the sleep before the next turn, or [None] at the end. *)
Definition aos_workqueue_del_turn (workqueue : option addr) (stk_field : addr) : K (option kret) :=
  match workqueue with
  | None => mret None
  | Some p =>
      h ← hdl p;
      ret ← krhino_workqueue_del h;
      if decide (ret <> RHINO_SUCCESS) then Some <$> krhino_task_sleep 1 else
      aos_free_block h;;
      stk ← hdl stk_field; aos_free_block stk;;
      store p 0;; store stk_field 0;;
      mret None
  end.

(** [work_timer_field] and [timer_cb_entry] as for [krhino_work_init]. *)
Definition aos_work_init (work fn : option addr) (arg dly : Z) (alloc : option addr) (work_timer_field timer_cb_entry : addr)
    (timer_alloc : option addr) : K Z :=
  match work with
  | None => mret (- EINVAL)
  | Some p =>
      match alloc with
      | None => mret (- ENOMEM)
      | Some w =>
          ret ← krhino_work_init notify (Some w) fn arg (MS2TICK dly) work_timer_field AOS timer_cb_entry timer_alloc;
          if decide (ret <> RHINO_SUCCESS) then aos_free_block (Some w);; mret (ERRNO_MAPPING ret) else
          store p (Zpos w);; mret 0
      end
  end.

Definition aos_work_destroy (work : option addr) : K unit :=
  match work with
  | None => mret tt
  | Some p =>
      h ← hdl p;
      w ← deref h;
      k ← get_work w;
      match work_timer k with
      | Some t => _ ← krhino_timer_stop notify (Some t); _ ← krhino_timer_dyn_del notify (Some t); mret tt
      | None => mret tt
      end;;
      aos_free_block h;;
      store p 0
  end.

Definition aos_work_run (workqueue work : option addr) : K Z :=
  match workqueue, work with
  | Some q, Some p => hq ← hdl q; hw ← hdl p; answer <$> krhino_work_run notify hq hw
  | _, _ => mret (- EINVAL)
  end.

Definition aos_work_sched (work : option addr) : K Z :=
  match work with None => mret (- EINVAL) | Some p => h ← hdl p; answer <$> krhino_work_sched notify h end.

Definition aos_work_cancel (work : option addr) : K Z :=
  match work with
  | None => mret (- EINVAL)
  | Some p => h ← hdl p; ret ← krhino_work_cancel notify h; mret (if decide (ret <> RHINO_SUCCESS) then - EBUSY else 0)
  end.

(** ** Memory *)

(** [caller] is the address the call returns to; with the mark in its size the kernel leaves
    the owner to be noted here. *)
Definition owned_alloc (alloc : Z -> K Z) (caller size : Z) : K Z :=
  if decide (Z.land size AOS_UNSIGNED_INT_MSB = 0) then
    tmp ← alloc (Z.lor size AOS_UNSIGNED_INT_MSB);
    p ← kmm_head;
    krhino_owner_attach p tmp caller;;
    mret tmp
  else alloc size.

Context (tmp_at : addr).

Definition aos_malloc (caller size : Z) : K Z :=
  if decide (size = 0) then mret 0 else owned_alloc (krhino_mm_alloc tmp_at caller) caller size.

(** [memset(a, 0, size)], in words whose low bytes come first *)
Definition zero_bytes (a size : Z) : K unit :=
  word_zero (Z.to_nat (size / Queue.Queue.ptr_size)) a;;
  if decide (size mod Queue.Queue.ptr_size = 0) then mret tt
  else hupd (a + size / Queue.Queue.ptr_size * Queue.Queue.ptr_size) (fun w => Z.ldiff w (Z.ones (8 * (size mod Queue.Queue.ptr_size)))).

Definition aos_zalloc (caller size : Z) : K Z :=
  if decide (size = 0) then mret 0 else
  tmp ← owned_alloc (krhino_mm_alloc tmp_at caller) caller size;
  (if decide (tmp <> 0) then zero_bytes tmp size else mret tt);;
  mret tmp.

Definition aos_realloc (caller mem size : Z) : K Z := owned_alloc (krhino_mm_realloc tmp_at caller mem) caller size.

Definition aos_alloc_trace (address allocator : Z) : K unit := p ← kmm_head; krhino_owner_attach p address allocator.

Definition aos_free (mem : Z) : K unit := if decide (mem = 0) then mret tt else krhino_mm_free mem.

(** ** Time *)

Definition aos_now : K Z := t ← krhino_sys_time_get; mret (swrap 64 (wrap tick_bits (t * 1000 * 1000))).

Definition aos_now_ms : K Z := t ← krhino_sys_time_get; mret (swrap 64 t).
End aos.
End Aos.
