(* ===== verification/AosFacts.v ===== *)
(** * The calls of AliOS Things over the kernel: their theorems *)
From S2P Require Import Prelude Config Errno Kernel Sched TickList Pend Inv Demo Prio Tick Time Sem Mutex Queue BufQueue Aos.
Import Errno Sched TickList Pend Prio Tick Time Sem Mutex Queue BufQueue Aos.

Module AosFacts.

(** Success is the only answer that is not negative. *)
Lemma answer_sign ret : answer ret <= 0 /\ (answer ret = 0 <-> ret = RHINO_SUCCESS).
Proof.
  unfold answer. case_decide as Hr; [done|]. split; [by destruct ret|]. split; [|done]. intros Ha. by destruct ret.
Qed.

(** ** Keys *)

Lemma key_bit_test i j : 0 <= i < 32 -> 0 <= j -> Z.testbit (key_bit i) j = bool_decide (i = j).
Proof.
  intros Hi Hj. unfold key_bit, wrap. rewrite <- Z.land_ones, Z.land_spec, Z.shiftl_1_l, Z.pow2_bits_eqb by lia.
  rewrite Z.testbit_ones by lia. case_bool_decide as He; [subst j; rewrite Z.eqb_refl|by rewrite (proj2 (Z.eqb_neq i j))].
  cbn. apply andb_true_intro. split; [apply Z.leb_le|apply Z.ltb_lt]; lia.
Qed.

Lemma key_land i used : 0 <= i < 32 -> Z.land (key_bit i) used = 0 <-> Z.testbit used i = false.
Proof.
  intros Hi. split.
  - intros Hz. apply (f_equal (fun z => Z.testbit z i)) in Hz. rewrite Z.land_spec, key_bit_test, Z.bits_0 in Hz by lia.
    by rewrite bool_decide_true in Hz.
  - intros Hb. apply Z.bits_inj'. intros j Hj. rewrite Z.land_spec, key_bit_test, Z.bits_0 by lia.
    case_bool_decide; [by subst j|done].
Qed.

Lemma key_loop_spec n used : (n <= 32)%nat ->
  match key_loop n used with
  | Some i => 0 <= i < Z.of_nat n /\ Z.testbit used i = false
  | None => forall i, 0 <= i < Z.of_nat n -> Z.testbit used i = true
  end.
Proof.
  induction n as [|n IH]; intros Hn; cbn [key_loop]; [intros i; lia|]. case_decide as Hz.
  - apply key_land in Hz; [|lia]. split; [lia|done].
  - rewrite key_land in Hz by lia. specialize (IH ltac:(lia)). destruct (key_loop n used) as [i|].
    + destruct IH. split; [lia|done].
    + intros i Hi. destruct (decide (i = Z.of_nat n)) as [->|]; [by destruct (Z.testbit used (Z.of_nat n))|apply IH; lia].
Qed.

Section facts.
Context {cfg : RhinoConfig}.

(** A new key is one that was not in use, and only it is taken; there is none exactly when all
    are in use. *)
Lemma aos_task_key_create_fresh used : 0 <= RHINO_CONFIG_TASK_INFO_NUM <= 32 ->
  match aos_task_key_create used with
  | (r, Some i, used') => r = 0 /\ 0 <= i < RHINO_CONFIG_TASK_INFO_NUM /\ Z.testbit used i = false /\
      forall j, 0 <= j -> Z.testbit used' j = bool_decide (i = j) || Z.testbit used j
  | (r, None, used') => r = - EINVAL /\ used' = used /\ forall i, 0 <= i < RHINO_CONFIG_TASK_INFO_NUM -> Z.testbit used i = true
  end.
Proof.
  intros Hnum. unfold aos_task_key_create. pose proof (key_loop_spec (Z.to_nat RHINO_CONFIG_TASK_INFO_NUM) used ltac:(lia)) as Hk.
  rewrite Z2Nat.id in Hk by lia. destruct (key_loop _ used) as [i|]; [|done]. destruct Hk as [Hi Hb]. do 3 (split; [done|]).
  intros j Hj. rewrite Z.lor_spec, key_bit_test by lia. apply orb_comm.
Qed.

(** A key that is deleted can be handed out again; the others stay as they are. *)
Lemma aos_task_key_delete_frees used key : 0 <= key < RHINO_CONFIG_TASK_INFO_NUM -> RHINO_CONFIG_TASK_INFO_NUM <= 32 ->
  forall j, 0 <= j -> Z.testbit (aos_task_key_delete key used) j = negb (bool_decide (key = j)) && Z.testbit used j.
Proof.
  intros Hk Hn j Hj. unfold aos_task_key_delete. rewrite decide_False by lia.
  rewrite Z.land_spec, Z.lnot_spec, key_bit_test by lia. apply andb_comm.
Qed.

(** ** Mutexes that nest *)

Fixpoint repeated {A} (n : nat) (m : K A) : K (list A) :=
  match n with O => mret [] | S n => a ← m; l ← repeated n m; mret (a :: l) end.

Lemma timeout_ticks_range timeout : 0 <= timeout_ticks timeout <= RHINO_WAIT_FOREVER.
Proof.
  unfold timeout_ticks, MS2TICK, krhino_ms_to_ticks, RHINO_WAIT_FOREVER. pose proof tick_width. case_decide; [lia|].
  match goal with |- 0 <= wrap _ ?z <= _ => pose proof (wrap_range tick_bits z) as Hw end.
  assert (0 <= tick_bits) by (destruct cfg_tick_bits; lia). lia.
Qed.

Lemma wp_hdl p o (Q : option positive -> kstate -> Prop) s :
  umem s !! p = Some (Zpos o) -> Q (Some o) s -> wp (hdl p) Q s.
Proof. intros Hp HQ. apply wp_bind. unfold wp, load. by rewrite Hp. Qed.

Section nest.
Context (p : addr) (o : oid) (b : blk_obj_t) (a : tid).

(** The running task [a] has the handle [p] of the mutex [o], with the owner and the count
    given. *)
Record nested_state (owner : option tid) (count : Z) (s : kstate) : Prop := {
  ns_ok : kok s;
  ns_hdl : umem s !! p = Some (Zpos o);
  ns_obj : blk_objs s !! o = Some b;
  ns_type : obj_type b = RHINO_MUTEX_OBJ_TYPE;
  ns_free : blk_list b = [];
  ns_mutex : exists mx, mutexes s !! o = Some mx /\ mutex_task mx = owner /\ (owner <> None -> owner_nested mx = count);
  ns_active : g_active_task s = Some a;
  ns_idle : a <> g_idle_task s;
  ns_stat : g_sys_stat s <> RHINO_STOPPED;
  ns_nested : g_intrpt_nested_level s = 0;
}.

Lemma wp_lock timeout owner count s : nested_state owner count s ->
  owner = None /\ count = 0 \/ owner = Some a /\ 1 <= count < MUTEX_NESTED_MAX ->
  wp (aos_mutex_lock (Some p) timeout) (fun r s' => r = Answer 0 /\ nested_state (Some a) (count + 1) s') s.
Proof.
  intros [Hok Hp Ho Hty Hfr (mx & Hm & Hmt & Hc) Ha Hi Hst Hn] Hcase. apply wp_bind. eapply wp_hdl; [done|]. apply wp_bind.
  eapply wp_mono; [eapply wp_mutex_lock; [done|done|apply timeout_ticks_range|congruence]|].
  intros r s' [Hok' Hspec]. apply wp_ret.
  destruct Hspec; simplify_eq; try lia; try done; destruct Hcase as [[? Hcnt]|[? Hcnt]]; simplify_eq.
  - assert (owner_nested mx = count) by (apply Hc; congruence). lia.
  - split; [done|]. split; try done. cbn. eexists. rewrite lookup_insert_eq. split; [done|]. cbn. split; [done|].
    intros _. f_equal. apply Hc. congruence.
  - split; [done|]. split; try done. cbn. eexists. by rewrite lookup_insert_eq.
Qed.

Lemma wp_unlock count s : nested_state (Some a) count s -> 1 <= count ->
  wp (aos_mutex_unlock (Some p)) (fun r s' => r = 0 /\ nested_state (if decide (count = 1) then None else Some a) (count - 1) s') s.
Proof.
  intros [Hok Hp Ho Hty Hfr (mx & Hm & Hmt & Hc) Ha Hi Hst Hn] Hcount. apply wp_bind. eapply wp_hdl; [done|]. apply wp_bind.
  eapply wp_mono; [eapply wp_mutex_unlock; [done|exact Ho]|]. specialize (Hc ltac:(done)).
  intros r s' [Hok' Hspec]. apply wp_ret. destruct Hspec; simplify_eq; try lia; try done.
  - rewrite decide_False by lia. split; [done|]. split; try done. cbn. eexists. by rewrite lookup_insert_eq.
  - rewrite decide_True by done. split; [done|]. split; try done. cbn. eexists. by rewrite lookup_insert_eq.
  - congruence.
Qed.

(** A mutex nobody owns cannot be unlocked. *)
Lemma wp_unlock_refused count s : nested_state None count s ->
  wp (aos_mutex_unlock (Some p)) (fun r s' => r = - EPERM /\ nested_state None count s') s.
Proof.
  intros [Hok Hp Ho Hty Hfr (mx & Hm & Hmt & Hc) Ha Hi Hst Hn]. apply wp_bind. eapply wp_hdl; [done|]. apply wp_bind.
  eapply wp_mono; [eapply wp_mutex_unlock; [done|exact Ho]|]. intros r s' [Hok' Hspec]. apply wp_ret.
  destruct Hspec; simplify_eq; try lia; try done. split; [done|]. split; try done. by exists mx.
Qed.

Lemma wp_locks timeout n owner count s : nested_state owner count s ->
  owner = None /\ count = 0 \/ owner = Some a /\ 1 <= count -> count + Z.of_nat (S n) <= MUTEX_NESTED_MAX ->
  wp (repeated (S n) (aos_mutex_lock (Some p) timeout))
    (fun l s' => l = replicate (S n) (Answer 0) /\ nested_state (Some a) (count + Z.of_nat (S n)) s') s.
Proof.
  revert owner count s. induction n as [|n IH]; intros owner count s Hs Hcase Hmax; apply wp_bind;
    (eapply wp_mono; [apply (wp_lock _ owner count); [done|destruct Hcase as [?|[? ?]]; [by left|right; split; [done|lia]]]|]);
    intros r s1 [-> Hs1]; apply wp_bind.
  - by apply wp_ret, wp_ret.
  - eapply wp_mono; [apply (IH (Some a) (count + 1)); [done|right; split; [done|]|lia]|].
    + destruct Hcase as [[_ ->]|[_ ?]]; lia.
    + intros l s2 [-> Hs2]. apply wp_ret. split; [done|]. by replace (count + Z.of_nat (S (S n))) with (count + 1 + Z.of_nat (S n)) by lia.
Qed.

Lemma wp_unlocks n s : nested_state (Some a) (Z.of_nat (S n)) s ->
  wp (repeated (S n) (aos_mutex_unlock (Some p))) (fun l s' => l = replicate (S n) 0 /\ nested_state None 0 s') s.
Proof.
  revert s. induction n as [|n IH]; intros s Hs; apply wp_bind;
    (eapply wp_mono; [apply (wp_unlock _ _ Hs); lia|]); intros r s1 [-> Hs1]; apply wp_bind.
  - by apply wp_ret, wp_ret.
  - rewrite decide_False in Hs1 by lia. replace (Z.of_nat (S (S n)) - 1) with (Z.of_nat (S n)) in Hs1 by lia.
    eapply wp_mono; [by apply IH|]. intros l s2 [-> Hs2]. by apply wp_ret.
Qed.
End nest.

(** C26: a mutex of an application nests: as many locks of a free mutex by the running task, up
    to the largest count of the kernel, all answer 0 whatever their timeout; as many unlocks
    answer 0, keep the mutex until the last one and free it then; one more is refused. *)
Theorem aos_mutex_nests (s : kstate) (p : addr) (o : oid) (b : blk_obj_t) (mx : kmutex_t) (a : tid) (timeout : Z) (n : nat) :
  kok s -> umem s !! p = Some (Zpos o) -> blk_objs s !! o = Some b -> obj_type b = RHINO_MUTEX_OBJ_TYPE ->
  mutexes s !! o = Some mx -> mutex_task mx = None -> g_active_task s = Some a -> a <> g_idle_task s ->
  g_sys_stat s <> RHINO_STOPPED -> g_intrpt_nested_level s = 0 -> Z.of_nat (S n) <= MUTEX_NESTED_MAX ->
  wp (repeated (S n) (aos_mutex_lock (Some p) timeout)) (fun l s1 => l = replicate (S n) (Answer 0) /\
    (exists mx1, mutexes s1 !! o = Some mx1 /\ mutex_task mx1 = Some a) /\
    wp (repeated (S n) (aos_mutex_unlock (Some p))) (fun l s2 => l = replicate (S n) 0 /\ kok s2 /\
      (exists mx2, mutexes s2 !! o = Some mx2 /\ mutex_task mx2 = None) /\
      wp (aos_mutex_unlock (Some p)) (fun r s3 => r = - EPERM /\ kok s3) s2) s1) s.
Proof.
  intros Hok Hp Ho Hty Hm Hmt Ha Hi Hst Hn Hmax.
  assert (Hfr : blk_list b = []).
  { destruct (obj_mutex s o b (proj1 Hok) Ho) as (mx' & Hm' & _ & Hw & _); [by rewrite Hty|]. simplify_eq.
    destruct (blk_list b); [done|]. exfalso. by apply Hw. }
  assert (Hs : nested_state p o b a None 0 s) by (split; try done; by exists mx).
  eapply wp_mono; [apply (wp_locks p o b a timeout n None 0); [done|by left|lia]|]. intros l s1 [-> Hs1]. split; [done|].
  split; [destruct Hs1 as [_ _ _ _ _ (mx1 & ? & ? & _)]; by exists mx1|].
  eapply wp_mono; [by apply (wp_unlocks p o b a)|]. intros l s2 [-> Hs2]. split; [done|]. split; [apply Hs2|].
  split; [destruct Hs2 as [_ _ _ _ _ (mx2 & ? & ? & _)]; by exists mx2|].
  eapply wp_mono; [by apply (wp_unlock_refused p o b a 0)|]. intros r s3 [-> Hs3]. split; [done|apply Hs3].
Qed.
End facts.

(** ** On a concrete state *)

#[local] Existing Instance linuxhost.

(** Handles of the free mutex 26, the semaphore 20 with no units, and the empty buffer queue 28. *)
Definition handles : kstate :=
  demo <| umem ::= fun m => <[70%positive := 26]> (<[71%positive := 20]> (<[72%positive := 28]> m)) |>.

Lemma handles_ok : kok handles.
Proof. destruct demo_ok as (? & ? & ? & ?). by apply kok_intro. Qed.

Lemma aos_mutex_nests_witness :
  wp (repeated 3 (aos_mutex_lock (Some 70%positive) 5)) (fun l s1 => l = replicate 3 (Answer 0) /\
    (exists mx1, mutexes s1 !! 26%positive = Some mx1 /\ mutex_task mx1 = Some 2%positive) /\
    wp (repeated 3 (aos_mutex_unlock (Some 70%positive))) (fun l s2 => l = replicate 3 0 /\ kok s2 /\
      (exists mx2, mutexes s2 !! 26%positive = Some mx2 /\ mutex_task mx2 = None) /\
      wp (aos_mutex_unlock (Some 70%positive)) (fun r s3 => r = - EPERM /\ kok s3) s2) s1) handles.
Proof.
  apply (aos_mutex_nests handles 70%positive 26%positive (demo_obj RHINO_MUTEX_OBJ_TYPE []) (mk_kmutex None None 0 1) 2%positive 5 2%nat handles_ok);
    try reflexivity; vm_compute; discriminate.
Defined.

End AosFacts.
